(* ===== verification/_CoqProject ===== *)
-Q . S2P
Prelude.v
CLib.v
Snprintf.v
Util.v
Filename.v
Argv.v
Arg.v
ArgScan.v
ArgRewrite.v
ArgExpand.v
Strip.v
World.v
Io.v
Rpc.v
Tempfile.v
Text.v
Paths.v
Bulk.v
Results.v
Hosts.v
Access.v
Dirs.v
Zeroconf.v
Lock.v
Dotd.v
Request.v
Lsdistcc.v
Exec.v
Net.v
PumpMode.v
FixDebug.v
State.v
Auth.v
Serve.v
ServeExit.v
Remote.v
Stats.v
Report.v
Dopt.v
Setup.v
Pool.v
Daemon.v
Build.v
BuildLocks.v
Codes.v
BuildResult.v
Client.v
