(* ===== verification/Prelude.v ===== *)
(** * distcc: a verification development

    distcc runs a compiler on other machines.  The client (src/distcc.c,
    src/compile.c) scans a compiler command line, picks a machine from the
    host list, preprocesses the source, and sends the command line and the
    preprocessed text over a connection; the server (src/daemon.c,
    src/serve.c) checks the client's address, reads the request, redirects
    the command line to temporary files, runs the compiler and sends back its
    status, its messages and the object file.  This library models the parts
    of the C sources that decide what is sent, where and to whom, and proves
    them correct.

    ** Conventions

    A C string is the list of its characters before the NUL.  A call has an
    [outcome]: [Ok] with its results (the code's return 0), [Fail c] (return
    code c), [Exit c] (the process ends) or [Undef] (an access outside an
    object or a failed assertion).  Code with effects is a state-passing
    computation [M S A] with early exit on everything but [Ok].  Allocations
    consult an oracle of the state ([MemState]); past its end they succeed.
    Machine integers are [Z] with their wrap-around written out ([u32],
    [s32], [u64]).

    ** The files

    - Prelude.v: strings, outcomes, the monad and its [wp] rules, allocation,
      machine integers, tactics and hint databases.
    - CLib.v: the C library functions the sources use (strchr, strrchr,
      strstr, strcspn, strncmp, strtol, strtoul, atoi, %d).
    - Snprintf.v: src/snprintf.c, the formatter for systems without one, with a
      grammar of formats as its specification.
    - Util.v: src/util.c (string predicates, dcc_dup_part), and the
      build-time configuration as the class [Config].
    - Filename.v: src/filename.c.
    - Argv.v: src/argutil.c; argument vectors as arrays of slots, so that
      reading past the NULL is [Undef].
    - Arg.v: src/arg.c, the definitions of dcc_scan_args, dcc_set_input,
      dcc_set_output, dcc_set_action_opt.  ArgScan.v: a reference definition of
      the scanning on words and items, and the proof that dcc_scan_args
      implements it.  ArgRewrite.v: what rewriting a scanned line does.
      ArgExpand.v: dcc_expand_preprocessor_options.
    - Strip.v: src/strip.c and dcc_find_compiler of src/implicit.c.
    - World.v: the operating system: descriptors, files, the environment, and
      oracles for partial transfers, interruptions and failures.  [runs m o c
      c'] says that under every cooperative kernel (interruptions and partial
      transfers, but no hard errors) [m] takes core [c] to [c'].
    - Io.v: src/io.c, src/pump.c, src/sendfile.c.
    - Rpc.v: src/rpc.c and the simple messages of src/clirpc.c and
      src/srvrpc.c; [sends], [reads] and [wire] describe message formats.
    - Tempfile.v: src/cleanup.c, src/tempfile.c.
    - Bulk.v: src/bulk.c, src/compress.c; the compression library is the class
      [Lzo] with the laws [LzoLaws].
    - Results.v: dcc_retrieve_results (src/clirpc.c), the answering part of
      dcc_run_job (src/serve.c), dcc_r_many_files (src/srvrpc.c),
      dcc_add_file_to_log_email (src/emaillog.c).
    - Text.v: tokenising, getline and times (src/util.c, src/timeval.c),
      src/stringmap.c.  Paths.v: dcc_abspath, dcc_set_path, dcc_trim_path
      (src/util.c), src/climasq.c.
    - Hosts.v: src/hosts.c; the hosts of "+zeroconf", in a build with Avahi, are
      the class [ZeroconfHosts].
    - Access.v: src/access.c, dcc_check_client of src/srvnet.c; the resolver is
      the class [Resolver].
    - Dirs.v: the directories of src/tempfile.c, src/loadfile.c,
      src/hostfile.c and dcc_get_hostlist of src/hosts.c.
    - Zeroconf.v: src/zeroconf.c, both the daemon that keeps the list of services,
      with its pointers, and the client that reads the file; Avahi is the
      class [Avahi].  Its [zeroconf_now] implements [ZeroconfHosts].
    - Lock.v: src/lock.c, src/where.c, src/timefile.c, src/backoff.c; one
      process and, as a step relation, all the processes of a user.
    - Dotd.v: src/dotd.c.
    - Request.v: dcc_send_header and the sending half of dcc_compile_remote
      (src/remote.c), the receiving half of dcc_run_job (src/serve.c).
    - Lsdistcc.v: src/lsdistcc.c, dcc_get_dns_domain (src/util.c) and the answers
      of src/rslave.c: the search for
      servers, as the turns of its poll loop; what the kernel and the resolver
      answer in a turn is the record [poll_round].
    - Exec.v: src/exec.c, src/safeguard.c, src/cpp.c.  [os] adds to the world
      the children of a process, the clock and the network; what a program does
      is the class [Programs].  [os_log] is what the kernel has on record of
      them: a child it would not start, collected, or could not wait for.
    - Net.v: src/clinet.c, src/ssh.c; name resolution is the class [Names].
    - PumpMode.v: src/include_server_if.c and dcc_x_many_files
      (src/clirpc.c): the files of a job preprocessed on the server.
    - FixDebug.v: src/fix_debug_info.c, on the bytes of the object file.
    - State.v: src/state.c and src/mon.c: the state file of a client, and what a
      monitor makes of all of them.
    - Serve.v: src/serve.c; [server] is a serving process, with the statistics
      events it reported and the commands it started as ghost lists.
      ServeExit.v: how a job can end.
    - Remote.v: the requests of Request.v, the whole of dcc_run_job of Serve.v and
      the answers of Results.v put together, on a job preprocessed by the client.
    - Auth.v: src/auth_common.c, src/auth_distcc.c, src/auth_distccd.c; the
      security library is the class [Gss].
    - Stats.v: src/stats.c; Report.v: its answer over HTTP, with the system's numbers
      that src/util.c scans from /proc; Dopt.v: src/dopt.c, with popt as the class [Popt];
      Setup.v: src/setuid.c, src/ncpus.c and listening (src/srvnet.c).
    - Pool.v: src/prefork.c, src/dsignal.c and the waiting of src/dparent.c:
      the parent, its children, and the order in which they run.  Daemon.v:
      src/daemon.c and the rest of src/dparent.c.
    - Build.v: the rest of src/remote.c, src/compile.c; [client] is a client
      with its process, the shared locks and the statics of compile.c; the
      authentication is the class [Authn].
      BuildLocks.v, Codes.v and BuildResult.v: what a job does with its locks,
      which codes the calls return, and what the job returns.
    - Client.v: src/distcc.c, src/emaillog.c, src/traceenv.c: the main program of
      the client around the job of Build.v, with Auth.v as its [Authn].

    ** What is shown

    - End to end: a client that sends its command line and preprocessed source
      to an idle server gets, from the server's whole job, the object the
      compiler makes of them (remote_compilation).  It rests on a request
      and an answer arriving as they were meant (request_roundtrip,
      answer_roundtrip), and these on the round trips of files, argument
      vectors, tokens and host specifications.
    - Authentication: when the two security libraries complete an exchange,
      client and server agree on the verdict, which is what the list of
      principals says (authentication_agrees, obtain_list_reads); the server's
      half ends whatever comes in (service_auth_total).
    - Services of the network: under a kernel without hard errors and with
      resolvers that find their hosts, a client gets exactly the resolved IPv4
      services, in order (zeroconf_delivers); under any kernel the daemon never
      uses a host it has freed and frees them all, as long as resolvers succeed,
      TXT records are sound and the clock is not set back (zeroconf_daemon_safe;
      what happens otherwise is in lemmas of their own).
    - Finding servers: given a list of names, in every order of answers lsdistcc
      keeps to its arrays, counts every server once and prints exactly those
      that are up (lsdistcc_lists); a server is up exactly when it answered well, however
      the answer is cut into reads (lsdistcc_probe); the query is the request a
      client would send (lsdistcc_query).
    - Formatted output: vsnprintf implements the grammar of formats and stores
      nothing beyond its buffer (vsnprintf_refines); with arguments of the types
      and in the domains of its conversions it is free of undefined behaviour
      (vsnprintf_typed).
    - Input/output: dcc_readx returns exactly the bytes asked for, reports the
      end of the stream, or reports an error only when the kernel does; an
      interruption is none (readx_exact).  dcc_writex and the pumps transfer
      exactly the bytes asked for, or report an error after a prefix.
    - Command lines: scanning is equivalent to a reference definition and
      never leaves the vector; the server's scan of the stripped line agrees
      with the client's; after redirection the line scans to the new files;
      expansion of -Wp options equals its specification.
    - Choosing a host: in every interleaving no slot is used twice and a host
      never has more jobs than slots (host_capacity); a process gets the first
      free slot, waits only when there is none, and is served once a slot is
      returned; failed hosts are left out for the backoff period.
    - Access control: masks admit exactly the clients whose address, as an entry
      sees it, has the given prefix (parse_mask_admits, check_client_spec); an
      IPv4 address embedded in an IPv6 one is seen with its bytes reversed on a
      little-endian machine.
    - Dependency files: naming, and line by line what is replaced and what is
      cut (cleanup_dotd_rewrites).
    - A client job: whatever the kernel, the servers and the programs do, no
      lock outlives the job (build_releases_locks), and what it returns is the
      code of the last compiler it ran, for which there is evidence in the
      bytes of an answer or in the records of the kernel, and not 0 without
      (build_reports_last_compiler).  The client exits with that code and without temporary files
      (client_exit_status); one that is run by another compiles nothing
      (recursion_stops).
    - A server job: it starts at most one command, one of the command list when
      there is one (serve_only_listed); it ends through its cleanup, unless
      the client sends a command line that begins with an option, which ends the
      process (serve_cleans_up, dash_leaves_files); the files of a job preprocessed on the server arrive as
      they were (many_files_roundtrip), and in the debug information exactly
      the occurrences of the server's directory are replaced
      (fix_debug_info_edits).
    - The daemon: it serves only without the privileges of root and with an
      access list (daemon_guarded, discard_root_safe); in every order of events
      its pool stays within the limit and its parent ends only when fork or
      waitpid fails (prefork_bounded), it waits only while all its children live
      (reap_kids_returns), a signal ends all of it
      (signal_ends_all); its statistics are a function of the history of events, while
      the clock is not set back and jobs are reported in time
      (stats_refine_history), and the report of them goes out whole, and only to
      allowed clients (stats_report_sent); its options are in their ranges
      (parse_options_sane).
    - Monitors: a state file is read back (state_seen), and whatever the files
      hold the list is ordered and its strings end (mon_poll_sorted).
    - Waiting for one child and connecting end (collect_child_returns,
      connect_by_name_returns).
    - Paths, texts and command lists: equivalence with reference definitions.
    - Robustness: reading a request is total on arbitrary bytes; the host
      parser is total on arbitrary text and its results are well formed;
      temporary names are fresh and temporary files are removed.
    - Behaviour at odds with the comments or the intent is stated as lemmas of
      its own (for instance scan_args_trailing_o, result_header_any_version,
      r_bulk_lzo1x_wraps, mapped_client_order, lock_one_never).

    ** Kernels

    What a kernel decides about transfers, interruptions, allocations, forks and
    waits are finite lists that the theorems quantify over; past the end of a
    list calls succeed.  So a run in which a call is interrupted for ever is not
    one of the model.  Where a program may wait for ever for another, it is
    followed for the observations or rounds given, and being still waiting is a
    result of its own ([None] of dcc_lock_one, [false] of dcc_reap_kids).

    ** Fuel

    Loops that are not structural take fuel.  readx and writex get the length
    plus the number of remaining kernel decisions, which every round consumes;
    dcc_make_tmpnam one try per existing file and injected failure, which
    suffices because the tried names differ; the host parser and the dotd
    loops the length of the text, of which every round consumes a character;
    the decompression loop 65 rounds, after which the doubled size exceeds
    any length.  dcc_lock_one may wait for ever: its fuel is the number of
    rounds, and [None] means that it is still waiting.

    dopr gets eight rounds per character of the format and nine more: every round
    reads a character or moves to a later state.  The loops over the list of
    zeroconf.c get one round per host in memory.

    The daemons' endless loops and the poll loop of lsdistcc are followed for a
    number of rounds that is an argument; the loop over the disks has a round for
    every character; the search has one round more for every
    server, as every group takes one at least.  dcc_reap_kids gets one round per
    turn of the children and one per child, dcc_create_kids the number of missing children: each round uses one.

    ** What is not modelled

    Logging, and so the server's own messages in the error file of a job; the
    working directory of a program (files have absolute names); a signal in the
    middle of a job (it reaches a process between two of its requests);
    announcing a server to Avahi (src/zeroconf-reg.c); @FILE arguments
    (expandargv in main of src/distcc.c, in builds with libiberty); the Windows
    code; starting the resolver processes of lsdistcc and its messages; the
    monitors' displays, the Python include server and the vendored libraries. *)

From stdpp Require Export base list strings gmap.
From Stdlib Require Export Ascii Lia.
From Stdlib Require Import Strings.Byte.
From Stdlib Require Export ZArith.

(** ** C strings *)

(** A C string is the list of its characters before the terminating NUL.  A
    pointer into a string is an index (or, where the code only moves forward,
    the suffix it points to). *)
Abbreviation cstr := (list ascii).

(** String literals for [cstr]: ["-o"%cs]. *)
Inductive cs_lit := cs_nil | cs_cons (a : ascii) (l : cs_lit).

Fixpoint cs_of_bytes (l : list Byte.byte) : cs_lit :=
  match l with
  | [] => cs_nil
  | b :: r => cs_cons (ascii_of_byte b) (cs_of_bytes r)
  end.

Fixpoint cs_to_bytes (l : cs_lit) : option (list Byte.byte) :=
  match l with
  | cs_nil => Some []
  | cs_cons a r =>
      match cs_to_bytes r with
      | Some x => Some (byte_of_ascii a :: x)
      | None => None
      end
  end.

Declare Scope cstr_scope.
Delimit Scope cstr_scope with cs.
#[warnings="-via-type-mismatch"]
String Notation list cs_of_bytes cs_to_bytes
  (via cs_lit mapping [[nil] => cs_nil, [cons] => cs_cons]) : cstr_scope.

Definition NUL : ascii := Ascii.zero.

(** [s[i]]: reading at the end of the string gives the terminator. *)
Definition cget (s : cstr) (i : nat) : ascii := default NUL (s !! i).

(** A string that C can hold: no embedded terminator. *)
Definition nul_free (s : cstr) : Prop := NUL ∉ s.

#[export] Instance nul_free_dec s : Decision (nul_free s).
Proof. unfold nul_free. apply _. Defined.

(** Equality of characters as the code tests it. *)
Definition ceqb (a b : ascii) : bool := bool_decide (a = b).

(** [strcmp(a, b) == 0]. *)
Definition streq (a b : cstr) : bool := bool_decide (a = b).

(** ** Outcomes and the effect monad *)

(** What a call can do: return 0 with its results, return a nonzero code, end
    the process, or run into undefined behaviour (a read outside an object or
    of an uninitialised one, a failed assertion). *)
Inductive outcome (A : Type) : Type :=
| Ok (a : A)
| Fail (code : Z)
| Exit (code : Z)
| Undef.
Arguments Ok {A} a.
Arguments Fail {A} code.
Arguments Exit {A} code.
Arguments Undef {A}.

#[export] Instance outcome_eq_dec `{EqDecision A} : EqDecision (outcome A).
Proof. solve_decision. Defined.

(** State passing over a state [S], with early exit on every outcome but [Ok]:
    the shape of [if ((ret = f(...))) return ret;]. *)
Definition M (S A : Type) : Type := S → outcome A * S.

Definition ret {S A} (a : A) : M S A := λ s, (Ok a, s).

Definition bind {S A B} (m : M S A) (k : A → M S B) : M S B := λ s,
  match m s with
  | (Ok a, s') => k a s'
  | (Fail c, s') => (Fail c, s')
  | (Exit c, s') => (Exit c, s')
  | (Undef, s') => (Undef, s')
  end.

Declare Scope effect_scope.
Delimit Scope effect_scope with eff.
Open Scope effect_scope.

Notation "'let!' x ':=' m 'in' k" := (bind m (λ x, k))
  (at level 10, x pattern, m at level 100, k at level 200) : effect_scope.
Notation "'do!' m ';' k" := (bind m (λ _, k))
  (at level 10, m at level 100, k at level 200) : effect_scope.

Definition throw {S A} (o : outcome A) : M S A := λ s, (o, s).
Definition fail {S A} (c : Z) : M S A := throw (Fail c).
Definition exit_ {S A} (c : Z) : M S A := throw (Exit c).
Definition ub {S A} : M S A := throw Undef.
Definition gets {S A} (f : S → A) : M S A := λ s, (Ok (f s), s).
Definition modify {S} (f : S → S) : M S unit := λ s, (Ok (), f s).

(** Run [m] and hand its return code to the caller instead of returning it:
    the calls whose result the code inspects. *)
Definition attempt {S A} (m : M S A) : M S (A + Z) := λ s,
  match m s with
  | (Ok a, s') => (Ok (inl a), s')
  | (Fail c, s') => (Ok (inr c), s')
  | (Exit c, s') => (Exit c, s')
  | (Undef, s') => (Undef, s')
  end.

(** Run [m] on a part of a larger state. *)
Definition zoom {S T A} (get : T → S) (put : S → T → T) (m : M S A) : M T A := λ t,
  let '(o, s) := m (get t) in (o, put s t).

(** [if (!(p = malloc(...))) return c;] and friends test this oracle: the list
    of outcomes of the allocations to come; past its end they all succeed. *)
Class MemState (S : Type) := {
  get_mem : S → list bool;
  set_mem : list bool → S → S;
  get_set_mem l s : get_mem (set_mem l s) = l;
  set_get_mem s : set_mem (get_mem s) s = s;
  set_set_mem l l' s : set_mem l (set_mem l' s) = set_mem l s
}.

#[export, refine] Instance list_mem_state : MemState (list bool) := {|
  get_mem := λ s, s;
  set_mem := λ l _, l
|}.
Proof. all: done. Defined.

Definition malloc {S} `{MemState S} : M S bool := λ s,
  match get_mem s with
  | [] => (Ok true, s)
  | b :: l => (Ok b, set_mem l s)
  end.

(** An allocation that makes the caller return [c] when it fails. *)
Definition malloc_or {S} `{MemState S} (c : Z) : M S unit :=
  let! b := malloc in if b then ret () else fail c.

(** No allocation fails from here on. *)
Definition mem_ok {S} `{MemState S} (s : S) : Prop := get_mem s = [].

(** ** Reasoning about computations *)

(** [wp m Q s]: the outcome of [m] from [s] satisfies [Q]. *)
Definition wp {S A} (m : M S A) (Q : outcome A → S → Prop) (s : S) : Prop :=
  Q (m s).1 (m s).2.

Section wp.
Context {S : Type}.

Lemma wp_ret {A} (a : A) Q (s : S) : Q (Ok a) s → wp (ret a) Q s.
Proof. done. Qed.

Lemma wp_gets {A} (f : S → A) Q (s : S) : Q (Ok (f s)) s → wp (gets f) Q s.
Proof. done. Qed.

Lemma wp_modify (f : S → S) Q (s : S) : Q (Ok ()) (f s) → wp (modify f) Q s.
Proof. done. Qed.

Lemma wp_throw {A} (o : outcome A) Q (s : S) : Q o s → wp (throw o) Q s.
Proof. done. Qed.

Lemma wp_bind {A B} (m : M S A) (k : A → M S B) Q s :
  wp m (λ o s', match o with
                | Ok a => wp (k a) Q s'
                | Fail c => Q (Fail c) s'
                | Exit c => Q (Exit c) s'
                | Undef => Q Undef s'
                end) s →
  wp (bind m k) Q s.
Proof. unfold wp, bind. by destruct (m s) as [[]]. Qed.

Lemma wp_mono {A} (m : M S A) (P Q : outcome A → S → Prop) s :
  wp m P s → (∀ o s', P o s' → Q o s') → wp m Q s.
Proof. unfold wp. eauto. Qed.

Lemma wp_run {A} (m : M S A) Q s o s' : m s = (o, s') → Q o s' → wp m Q s.
Proof. unfold wp. by intros ->. Qed.

Lemma wp_attempt {A} (m : M S A) Q (s : S) :
  wp m (λ o s', match o with
                | Ok a => Q (Ok (inl a)) s'
                | Fail c => Q (Ok (inr c)) s'
                | Exit c => Q (Exit c) s'
                | Undef => Q Undef s'
                end) s →
  wp (attempt m) Q s.
Proof. unfold wp, attempt. by destruct (m s) as [[]]. Qed.

Lemma wp_zoom {T A} (get : T → S) (put : S → T → T) (m : M S A) Q t :
  wp m (λ o s, Q o (put s t)) (get t) → wp (zoom get put m) Q t.
Proof. unfold wp, zoom. by destruct (m (get t)). Qed.

Lemma wp_true {A} (m : M S A) (s : S) : wp m (λ _ _, True) s.
Proof. done. Qed.

Context `{MemState S}.

Lemma malloc_or_ok c (s : S) : mem_ok s → malloc_or c s = (Ok (), s).
Proof.
  intros Hm. unfold malloc_or, bind, malloc.
  unfold mem_ok in Hm. by rewrite Hm.
Qed.

Lemma malloc_or_cases c (s : S) :
  (malloc_or c s).1 = Ok () ∨ (malloc_or c s).1 = Fail c.
Proof.
  unfold malloc_or, bind, malloc.
  destruct (get_mem s) as [|[] l]; simpl; auto.
Qed.

(** An allocation changes nothing but the oracle. *)
Lemma wp_malloc_or c Q (s : S) :
  (∀ l, Q (Ok ()) (set_mem l s)) → (∀ l, Q (Fail c) (set_mem l s)) → wp (malloc_or c) Q s.
Proof.
  intros HO HF. unfold wp, malloc_or, bind, malloc.
  destruct (get_mem s) as [|[] l] eqn:E; simpl; auto.
  rewrite <- (set_get_mem s). auto.
Qed.
End wp.

Lemma bind_Ok {S A B} (m : M S A) (k : A → M S B) s a s' :
  m s = (Ok a, s') → (bind m k) s = k a s'.
Proof. unfold bind. by intros ->. Qed.

Lemma bind_Fail {S A B} (m : M S A) (k : A → M S B) s c s' :
  m s = (Fail c, s') → (bind m k) s = (Fail c, s').
Proof. unfold bind. by intros ->. Qed.

Lemma bind_inv_Ok {S A B} (m : M S A) (k : A → M S B) s b s' :
  (bind m k) s = (Ok b, s') → ∃ a s1, m s = (Ok a, s1) ∧ k a s1 = (Ok b, s').
Proof. unfold bind. destruct (m s) as [[] ?]; naive_solver. Qed.

(** [m] does not return an error. *)
Definition nofail {S A} (m : M S A) : Prop := ∀ s, match (m s).1 with Fail _ => False | _ => True end.

Lemma nofail_bind {S A B} (m : M S A) (k : A → M S B) : nofail m → (∀ a, nofail (k a)) → nofail (bind m k).
Proof.
  intros Hm Hk s. specialize (Hm s). unfold bind. destruct (m s) as [[] s1]; try done. apply Hk.
Qed.

Lemma nofail_attempt {S A} (m : M S A) : nofail (attempt m).
Proof. intros s. unfold attempt. by destruct (m s) as [[] s1]. Qed.

Lemma nofail_ret {S A} (a : A) : nofail (S := S) (ret a).
Proof. done. Qed.
Lemma nofail_gets {S A} (f : S → A) : nofail (gets f).
Proof. done. Qed.
Lemma nofail_exit {S A} e : nofail (S := S) (A := A) (exit_ e).
Proof. done. Qed.
Lemma nofail_modify {S} (f : S → S) : nofail (modify f).
Proof. done. Qed.
Lemma nofail_ub {S A} : nofail (S := S) (A := A) ub.
Proof. done. Qed.
Lemma nofail_malloc {S} `{MemState S} : nofail (S := S) malloc.
Proof. intros s. unfold malloc. by destruct (get_mem s). Qed.

Lemma nofail_zoom {S T A} (get : T → S) (put : S → T → T) (m : M S A) : nofail m → nofail (zoom get put m).
Proof. intros Hm t. specialize (Hm (get t)). unfold zoom. by destruct (m (get t)). Qed.

Create HintDb nofail.
#[export] Hint Resolve nofail_bind nofail_attempt nofail_ret nofail_gets nofail_exit nofail_modify nofail_ub
  nofail_malloc nofail_zoom : nofail.

Ltac nofail :=
  repeat first [progress intros | solve [auto with nofail nocore] | simple apply nofail_bind
    | simple apply nofail_zoom | progress case_match].

(** ** Exit codes (exitcode.h) *)

Definition EXIT_DISTCC_FAILED : Z := 100.
Definition EXIT_BAD_ARGUMENTS : Z := 101.
Definition EXIT_BIND_FAILED : Z := 102.
Definition EXIT_CONNECT_FAILED : Z := 103.
Definition EXIT_OUT_OF_MEMORY : Z := 105.
Definition EXIT_BAD_HOSTSPEC : Z := 106.
Definition EXIT_IO_ERROR : Z := 107.
Definition EXIT_TRUNCATED : Z := 108.
Definition EXIT_PROTOCOL_ERROR : Z := 109.
Definition EXIT_COMPILER_MISSING : Z := 110.
Definition EXIT_RECURSION : Z := 111.
Definition EXIT_ACCESS_DENIED : Z := 113.
Definition EXIT_BUSY : Z := 114.
Definition EXIT_NO_SUCH_FILE : Z := 115.
Definition EXIT_NO_HOSTS : Z := 116.
Definition EXIT_GONE : Z := 117.
Definition EXIT_TIMEOUT : Z := 118.

(** ** Allocation failure *)

Section oom.
Context {St : Type} {MS : MemState St}.
Implicit Types σ : St.

(** [m] gives [a], or runs out of memory when memory can run out. *)
Definition ok_or_oom {A} (m : M St A) (a : A) (σ : St) : Prop :=
  ∃ σ', (m σ = (Ok a, σ') ∧ (mem_ok σ → σ' = σ)) ∨
        (m σ = (Fail EXIT_OUT_OF_MEMORY, σ') ∧ ¬ mem_ok σ).

Lemma ok_or_oom_bind {A B} (m : M St A) (k : A → M St B) a b σ :
  ok_or_oom m a σ → (∀ σ', (mem_ok σ → σ' = σ) → ok_or_oom (k a) b σ') →
  ok_or_oom (bind m k) b σ.
Proof.
  intros (σ1 & [[E Hm]|[E Hm]]) Hk; unfold ok_or_oom, bind; rewrite E; [|eauto].
  destruct (Hk σ1 Hm) as (σ2 & [[E2 Hm2]|[E2 Hm2]]); exists σ2; [left|right].
  - split; [done|]. intros H0. specialize (Hm H0). subst. by apply Hm2.
  - split; [done|]. intros H0. specialize (Hm H0). subst. by apply Hm2.
Qed.

Lemma ok_or_oom_ret {A} (a : A) σ : ok_or_oom (ret a) a σ.
Proof. exists σ. by left. Qed.

Lemma ok_or_oom_eq {A} (m : M St A) (a a' : A) σ :
  ok_or_oom m a σ → a = a' → ok_or_oom m a' σ.
Proof. by intros ? <-. Qed.

Lemma ok_or_oom_run {A} (m : M St A) a σ : m σ = (Ok a, σ) → ok_or_oom m a σ.
Proof. intros E. exists σ. by left. Qed.

Lemma ok_or_oom_malloc σ : ok_or_oom (malloc_or EXIT_OUT_OF_MEMORY) () σ.
Proof.
  destruct (malloc_or EXIT_OUT_OF_MEMORY σ) as [o σ1] eqn:E. exists σ1.
  destruct (malloc_or_cases EXIT_OUT_OF_MEMORY σ) as [E'|E'];
    rewrite E in E'; simpl in E'; subst; [left|right]; (split; [done|]);
    intros Hm; rewrite malloc_or_ok in E by done; by simplify_eq.
Qed.
End oom.

(** ** Machine integers *)

(** Conversion to [uint32_t] / [unsigned]. *)
Definition u32 (z : Z) : Z := (z mod 2 ^ 32)%Z.

Definition INT_MAX : Z := 2147483647.

(** [flags & f], as a truth value. *)
Definition has_flag (flags f : Z) : bool := negb (Z.land flags f =? 0)%Z.

(** Conversion to [int] (two's complement). *)
Definition s32 (z : Z) : Z := ((z + 2 ^ 31) mod 2 ^ 32 - 2 ^ 31)%Z.

Lemma u32_range z : (0 ≤ u32 z < 2 ^ 32)%Z.
Proof. apply Z.mod_pos_bound. lia. Qed.

Lemma u32_id z : (0 ≤ z < 2 ^ 32)%Z → u32 z = z.
Proof. apply Z.mod_small. Qed.

Lemma s32_id z : (- 2 ^ 31 ≤ z < 2 ^ 31)%Z → s32 z = z.
Proof. intros. unfold s32. rewrite Z.mod_small; lia. Qed.

(** ** Lists *)

Lemma streq_true a b : streq a b = true ↔ a = b.
Proof. apply bool_decide_eq_true. Qed.

Lemma streq_false a b : streq a b = false ↔ a ≠ b.
Proof. apply bool_decide_eq_false. Qed.

Lemma streq_refl a : streq a a = true.
Proof. by apply streq_true. Qed.

Lemma ceqb_true a b : ceqb a b = true ↔ a = b.
Proof. apply bool_decide_eq_true. Qed.

Lemma ceqb_false a b : ceqb a b = false ↔ a ≠ b.
Proof. apply bool_decide_eq_false. Qed.

Lemma ceqb_refl a : ceqb a a = true.
Proof. by apply ceqb_true. Qed.

Lemma cget_app_l s t i : i < length s → cget (s ++ t) i = cget s i.
Proof. intros. unfold cget. by rewrite lookup_app_l. Qed.

Lemma cget_app_r s t i : cget (s ++ t) (length s + i) = cget t i.
Proof. unfold cget. by rewrite lookup_app_r, Nat.add_sub_swap, Nat.sub_diag by lia. Qed.

(** ** Automation *)

Create HintDb distcc.
Create Rewrite HintDb distcc.
#[export] Hint Resolve streq_refl ceqb_refl u32_range : distcc.
#[export] Hint Rewrite streq_true streq_false ceqb_true ceqb_false : distcc.
#[export] Hint Rewrite andb_true_iff orb_true_iff negb_true_iff orb_false_iff
  negb_false_iff : distcc.

(** Turn boolean tests of the code into propositions. *)
Ltac btest := autorewrite with distcc in *.

(** Step through a computation whose next operation is a literal [ret],
    [throw] or bind of one. *)
Ltac mred := unfold ret, fail, exit_, ub, throw, gets, modify in *; simpl in *.
