(* ===== verification/CLib.v ===== *)
(** * The C library functions the sources use

    String searching, character classes and number parsing, as the C standard
    defines them in the "C" locale, with the lemmas the components share. *)

From S2P Require Import Prelude.

(** ** Searching *)

(** [strchr(s, c)] as the index of the first [c]; [None] for NULL. *)
Fixpoint strchr (s : cstr) (c : ascii) : option nat :=
  match s with
  | [] => None
  | x :: r => if ceqb x c then Some 0 else S <$> strchr r c
  end.

(** [strrchr(s, c)]: the last one. *)
Fixpoint strrchr (s : cstr) (c : ascii) : option nat :=
  match s with
  | [] => None
  | x :: r =>
      match strrchr r c with
      | Some i => Some (S i)
      | None => if ceqb x c then Some 0 else None
      end
  end.

(** [strncmp(a, b, n) == 0]. *)
Fixpoint strncmp0 (a b : cstr) (n : nat) : bool :=
  match n with
  | 0 => true
  | S n =>
      match a, b with
      | [], [] => true
      | x :: a, y :: b => ceqb x y && strncmp0 a b n
      | _, _ => false
      end
  end.

(** [strstr(hay, needle)]. *)
Fixpoint strstr (hay needle : cstr) : option nat :=
  if strncmp0 needle hay (length needle) then Some 0
  else match hay with
       | [] => None
       | _ :: r => S <$> strstr r needle
       end.

(** [strcspn(s, reject)]. *)
Fixpoint strcspn (s reject : cstr) : nat :=
  match s with
  | [] => 0
  | x :: r => if bool_decide (x ∈ reject) then 0 else S (strcspn r reject)
  end.

(** ** Characters *)

Definition code (c : ascii) : Z := Z.of_N (N_of_ascii c).

Definition isdigit (c : ascii) : bool := (48 <=? code c)%Z && (code c <=? 57)%Z.

(** space, \t, \n, \v, \f, \r *)
Definition isspace (c : ascii) : bool :=
  (code c =? 32)%Z || ((9 <=? code c)%Z && (code c <=? 13)%Z).

(** ** Numbers *)

(** The value of a digit in any base up to 16. *)
Definition digit_val (c : ascii) : option Z :=
  let n := code c in
  if (48 <=? n)%Z && (n <=? 57)%Z then Some (n - 48)%Z
  else if (97 <=? n)%Z && (n <=? 102)%Z then Some (n - 87)%Z
  else if (65 <=? n)%Z && (n <=? 70)%Z then Some (n - 55)%Z
  else None.

(** The digits at the head of [s]: their value after [acc] and how many. *)
Fixpoint scan_digits (base acc : Z) (s : cstr) : Z * nat :=
  match s with
  | [] => (acc, 0)
  | c :: r =>
      match digit_val c with
      | Some d =>
          if (d <? base)%Z then
            let '(v, n) := scan_digits base (acc * base + d) r in (v, S n)
          else (acc, 0)
      | None => (acc, 0)
      end
  end.

Fixpoint skip_spaces (s : cstr) : nat :=
  match s with
  | c :: r => if isspace c then S (skip_spaces r) else 0
  | [] => 0
  end.

(** The optional sign: is it a minus, and how many characters. *)
Definition scan_sign (s : cstr) : bool * nat :=
  match s with
  | c :: _ => if ceqb c "-" then (true, 1) else if ceqb c "+" then (false, 1) else (false, 0)
  | [] => (false, 0)
  end.

(** Base 16 accepts a "0x" prefix when a digit follows it. *)
Definition hex_prefix (base : Z) (s : cstr) : nat :=
  match s with
  | a :: x :: d :: _ =>
      if (base =? 16)%Z && ceqb a "0" && (ceqb x "x" || ceqb x "X")
         && match digit_val d with Some _ => true | None => false end
      then 2 else 0
  | _ => 0
  end.

(** The common part of [strtol] and [strtoul]: the sign, the unbounded
    magnitude, and the index where parsing stops ([0] when there is no
    number). *)
Definition strto (base : Z) (s : cstr) : bool * Z * nat :=
  let n1 := skip_spaces s in
  let s1 := drop n1 s in
  let '(neg, n2) := scan_sign s1 in
  let s2 := drop n2 s1 in
  let n3 := hex_prefix base s2 in
  let '(v, n4) := scan_digits base 0 (drop n3 s2) in
  if decide (n4 = 0) then (false, 0%Z, 0) else (neg, v, n1 + n2 + n3 + n4).

Definition ULONG_MAX : Z := (2 ^ 64 - 1)%Z.
Definition LONG_MAX : Z := (2 ^ 63 - 1)%Z.
Definition LONG_MIN : Z := (- 2 ^ 63)%Z.

(** [strtoul]: out of range gives ULONG_MAX; a minus sign negates modulo 2^64. *)
Definition strtoul (base : Z) (s : cstr) : Z * nat :=
  let '(neg, v, n) := strto base s in
  (if (ULONG_MAX <? v)%Z then ULONG_MAX
   else if neg then ((- v) mod 2 ^ 64)%Z else v, n).

(** [strtol]: clamps. *)
Definition strtol (base : Z) (s : cstr) : Z * nat :=
  let '(neg, v, n) := strto base s in
  let v := if neg then (- v)%Z else v in
  (Z.max LONG_MIN (Z.min LONG_MAX v), n).

(** [atoi(s)] is [(int) strtol(s, NULL, 10)]. *)
Definition atoi (s : cstr) : Z := s32 (strtol 10 s).1.

(** ** Lemmas *)

Lemma strchr_None s c : strchr s c = None ↔ c ∉ s.
Proof.
  induction s as [|x s IH]; simpl; [set_solver|].
  destruct (ceqb x c) eqn:E; btest; [set_solver|].
  rewrite fmap_None, IH. set_solver.
Qed.

Lemma strchr_Some s c i :
  strchr s c = Some i ↔ ∃ a b, s = a ++ c :: b ∧ c ∉ a ∧ i = length a.
Proof.
  revert i. induction s as [|x s IH]; simpl; intros i.
  - split; [done|]. by intros ([] & ? & ? & _).
  - destruct (ceqb x c) eqn:E; btest.
    + subst. split.
      * intros [= <-]. exists [], s. set_solver.
      * intros ([|y a] & b & Hs & Hc & ->); simplify_eq/=; [done|set_solver].
    + rewrite fmap_Some. split.
      * intros (j & (a & b & -> & ? & ->)%IH & ->). exists (x :: a), b. set_solver.
      * intros ([|y a] & b & Hs & Hc & ->); simplify_eq/=.
        exists (length a). split; [|done]. apply IH. exists a, b. set_solver.
Qed.

Lemma strrchr_None s c : strrchr s c = None ↔ c ∉ s.
Proof.
  induction s as [|x s IH]; simpl; [set_solver|].
  destruct (strrchr s c) eqn:E.
  - split; [done|]. intros Hn. exfalso. assert (Some n = None) as [=].
    apply IH. set_solver.
  - destruct (ceqb x c) eqn:E'; btest; set_solver.
Qed.

Lemma strrchr_Some s c i :
  strrchr s c = Some i ↔ ∃ a b, s = a ++ c :: b ∧ c ∉ b ∧ i = length a.
Proof.
  revert i. induction s as [|x s IH]; simpl; intros i.
  - split; [done|]. by intros ([] & ? & ? & _).
  - destruct (strrchr s c) as [j|] eqn:E.
    + split.
      * intros [= <-]. destruct (proj1 (IH j) eq_refl) as (a & b & -> & ? & ->).
        exists (x :: a), b. done.
      * intros ([|y a] & b & Hs & Hc & ->); simplify_eq/=.
        -- apply strrchr_None in Hc. congruence.
        -- assert (Some j = Some (length a)) as [= ->]; [|done].
           apply IH. eauto.
    + apply strrchr_None in E. destruct (ceqb x c) eqn:E'; btest.
      * subst. split.
        -- intros [= <-]. exists [], s. done.
        -- intros ([|y a] & b & Hs & Hc & ->); simplify_eq/=; [done|set_solver].
      * split; [done|]. intros ([|y a] & b & Hs & Hc & ->); simplify_eq/=; set_solver.
Qed.

Lemma strrchr_lt s c i : strrchr s c = Some i → i < length s.
Proof. intros (a & b & -> & ? & ->)%strrchr_Some. rewrite length_app. simpl. lia. Qed.

Lemma strchr_lt s c i : strchr s c = Some i → i < length s.
Proof. intros (a & b & -> & ? & ->)%strchr_Some. rewrite length_app. simpl. lia. Qed.

Lemma strncmp0_prefix a b : strncmp0 a b (length a) = true ↔ a `prefix_of` b.
Proof.
  revert b. induction a as [|x a IH]; intros [|y b]; simpl.
  - split; [intros _; apply prefix_nil|done].
  - split; [intros _; apply prefix_nil|done].
  - split; [done|]. intros [k Hk]. done.
  - rewrite andb_true_iff, ceqb_true, IH. split.
    + intros [-> H]. by apply prefix_cons.
    + intros H. split; [by eapply prefix_cons_inv_1|by eapply prefix_cons_inv_2].
Qed.

Lemma strncmp0_sym a b n : strncmp0 a b n = strncmp0 b a n.
Proof.
  revert a b. induction n as [|n IH]; intros [|x a] [|y b]; simpl; try done.
  rewrite IH. f_equal. unfold ceqb. by apply bool_decide_ext.
Qed.

Lemma strstr_Some_app s n i :
  strstr s n = Some i → ∃ a b, s = a ++ n ++ b ∧ i = length a.
Proof.
  revert i. induction s as [|x s IH]; simpl; intros i.
  - destruct (strncmp0 n [] _) eqn:E; [|done]. intros [= <-].
    apply strncmp0_prefix in E as [k Hk]. by exists [], k.
  - destruct (strncmp0 n (x :: s) _) eqn:E.
    + intros [= <-]. apply strncmp0_prefix in E as [k Hk]. by exists [], k.
    + rewrite fmap_Some. intros (j & (a & b & -> & ->)%IH & ->).
      by exists (x :: a), b.
Qed.

Lemma strstr_None s n : strstr s n = None ↔ ∀ a b, s ≠ a ++ n ++ b.
Proof.
  induction s as [|x s IH]; simpl.
  - destruct (strncmp0 n [] _) eqn:E.
    + split; [done|]. intros H. apply strncmp0_prefix in E as [k Hk].
      by destruct (H [] k).
    + split; [|done]. intros _ a b Heq. symmetry in Heq.
      apply app_nil in Heq as [-> Heq]. apply app_nil in Heq as [-> ->]. done.
  - destruct (strncmp0 n (x :: s) _) eqn:E.
    + split; [done|]. intros H. apply strncmp0_prefix in E as [k Hk].
      by destruct (H [] k).
    + rewrite fmap_None, IH. split.
      * intros H [|y a] b Heq; simplify_eq/=; [|by eapply H].
        assert (strncmp0 n (x :: s) (length n) = true); [|congruence].
        apply strncmp0_prefix. by exists b.
      * intros H a b ->. by apply (H (x :: a) b).
Qed.

Lemma strstr_first s n i a b :
  strstr s n = Some i → s = a ++ n ++ b → i ≤ length a.
Proof.
  revert i a. induction s as [|x s IH]; simpl; intros i a.
  - destruct (strncmp0 n [] _); [|done]. intros [= <-] _. lia.
  - destruct (strncmp0 n (x :: s) _) eqn:E.
    + intros [= <-] _. lia.
    + rewrite fmap_Some. intros (j & Hj & ->) Heq.
      destruct a as [|y a]; simplify_eq/=.
      * assert (strncmp0 n (x :: s) (length n) = true); [|congruence].
        apply strncmp0_prefix. by exists b.
      * apply le_n_S. by eapply IH.
Qed.

(** [x] is nowhere in [s]. *)
Definition absent (x s : cstr) : Prop := ∀ a b, s ≠ a ++ x ++ b.

(** The first [x] in [a ++ x ++ b] is the one behind [a]. *)
Definition leftmost (x a b : cstr) : Prop := ∀ a' b', a ++ x ++ b = a' ++ x ++ b' → length a ≤ length a'.

Lemma strstr_absent s x : strstr s x = None ↔ absent x s.
Proof. apply strstr_None. Qed.

Lemma strstr_leftmost s x i : strstr s x = Some i → ∃ a b, s = a ++ x ++ b ∧ i = length a ∧ leftmost x a b.
Proof.
  intros E. pose proof E as (a & b & -> & ->)%strstr_Some_app. exists a, b. split_and!; [done..|].
  intros a' b'. by apply strstr_first.
Qed.

Lemma strcspn_le s r : strcspn s r ≤ length s.
Proof. induction s; simpl; [done|]. case_bool_decide; lia. Qed.

Lemma strcspn_take s r : Forall (λ c, c ∉ r) (take (strcspn s r) s).
Proof. induction s; simpl; [done|]. case_bool_decide; simpl; auto. Qed.

Lemma strcspn_stop s r c :
  s !! strcspn s r = Some c → c ∈ r.
Proof. induction s as [|x s IH]; simpl; [done|]. case_bool_decide; [|done]. naive_solver. Qed.

Lemma code_range c : (0 ≤ code c < 256)%Z.
Proof. unfold code. pose proof (N_ascii_bounded c). lia. Qed.

(** ** Printing decimal numbers *)

Definition dec_digit (d : Z) : ascii := ascii_of_N (Z.to_N (48 + d)).

Fixpoint dec_aux (fuel : nat) (n : Z) (acc : cstr) : cstr :=
  match fuel with
  | 0 => acc
  | S fuel =>
      let acc := dec_digit (n mod 10) :: acc in
      if (n / 10 =? 0)%Z then acc else dec_aux fuel (n / 10) acc
  end.

(** [%d] for numbers below 10^20. *)
Definition dec (n : Z) : cstr := dec_aux 20 n [].

Lemma dec_digit_spec d :
  (0 ≤ d < 10)%Z →
  digit_val (dec_digit d) = Some d ∧ isdigit (dec_digit d) = true ∧ isspace (dec_digit d) = false ∧
  ceqb (dec_digit d) "-" = false ∧ ceqb (dec_digit d) "+" = false.
Proof.
  intros Hd. assert (d = 0 ∨ d = 1 ∨ d = 2 ∨ d = 3 ∨ d = 4 ∨ d = 5 ∨ d = 6 ∨ d = 7 ∨ d = 8 ∨ d = 9)%Z
    as H by lia. destruct_or!; subst d; by split_and!.
Qed.

(** Digits in a row, and what scanning them does. *)
Lemma dec_aux_spec fuel n acc :
  (0 ≤ n < 10 ^ Z.of_nat fuel)%Z → 0 < fuel →
  ∃ ds, dec_aux fuel n acc = ds ++ acc ∧ ds ≠ [] ∧
    Forall (λ c, ∃ d, (0 ≤ d < 10)%Z ∧ c = dec_digit d) ds ∧
    ∀ a rest, scan_digits 10 a (ds ++ rest) =
      let '(v, k) := scan_digits 10 (a * 10 ^ Z.of_nat (length ds) + n) rest in (v, length ds + k).
Proof.
  revert n acc. induction fuel as [|fuel IH]; intros n acc Hn Hf; [lia|]. cbn [dec_aux].
  pose proof (Z.mod_pos_bound n 10 ltac:(lia)) as Hm.
  destruct (dec_digit_spec (n mod 10) Hm) as (Dv & _).
  assert (∀ a rest, scan_digits 10 a (dec_digit (n mod 10) :: rest) =
    let '(v, k) := scan_digits 10 (a * 10 + n mod 10) rest in (v, S k)) as Hone.
  { intros a rest. simpl. rewrite Dv. by rewrite (proj2 (Z.ltb_lt _ _)) by lia. }
  destruct (Z.eqb_spec (n / 10) 0) as [Hz|Hz].
  - exists [dec_digit (n mod 10)]. split; [done|]. split; [done|]. split; [apply Forall_singleton; eauto|].
    intros a rest. cbn [app]. rewrite Hone. cbn [length].
    replace (a * 10 + n mod 10)%Z with (a * 10 ^ Z.of_nat 1 + n)%Z
      by (change (10 ^ Z.of_nat 1)%Z with 10%Z; Z.to_euclidean_division_equations; lia).
    by destruct (scan_digits _ _ rest).
  - assert (0 < n / 10 < 10 ^ Z.of_nat fuel)%Z as Hq.
    { rewrite Nat2Z.inj_succ, Z.pow_succ_r in Hn by lia.
      Z.to_euclidean_division_equations. lia. }
    destruct fuel as [|fuel]; [simpl in Hq; lia|].
    destruct (IH (n / 10)%Z (dec_digit (n mod 10) :: acc)) as (ds & E & Hne & Hds & Hs); [lia..|].
    exists (ds ++ [dec_digit (n mod 10)]). rewrite <- app_assoc. split; [done|].
    split; [by destruct ds|]. split; [apply Forall_app; split; [done|apply Forall_singleton; eauto]|].
    intros a rest. rewrite <- app_assoc, Hs. cbn [app]. rewrite Hone, length_app. cbn [length].
    replace ((a * 10 ^ Z.of_nat (length ds) + n / 10) * 10 + n mod 10)%Z
      with (a * 10 ^ Z.of_nat (length ds + 1) + n)%Z.
    { destruct (scan_digits _ _ rest). f_equal. lia. }
    rewrite Nat2Z.inj_add, Z.pow_add_r by lia.
    pose proof (Z.div_mod n 10 ltac:(lia)). change (10 ^ Z.of_nat 1)%Z with 10%Z. nia.
Qed.

(** A text in which no digit comes first. *)
Definition no_digit (s : cstr) : Prop := match s with c :: _ => digit_val c = None | [] => True end.

Lemma strtol_dec n rest :
  (0 ≤ n < 10 ^ 18)%Z → no_digit rest → strtol 10 (dec n ++ rest) = (n, length (dec n)).
Proof.
  intros Hn Hr. unfold dec. destruct (dec_aux_spec 20 n []) as (ds & E & Hne & Hds & Hs); [lia..|].
  rewrite app_nil_r in E. rewrite E. unfold strtol, strto.
  destruct ds as [|c ds]; [done|]. inversion_clear Hds as [|?? (d & Hd & ->) _].
  destruct (dec_digit_spec d Hd) as (_ & _ & Sp & Mi & Pl).
  cbn [app skip_spaces]. rewrite Sp. cbn [drop scan_sign]. rewrite Mi, Pl. cbn [drop].
  assert (∀ s, hex_prefix 10 s = 0) as ->.
  { intros [|? [|? [|? ?]]]; done. }
  cbn [drop]. change (dec_digit d :: ds ++ rest) with ((dec_digit d :: ds) ++ rest).
  rewrite Hs. assert (∀ v, scan_digits 10 v rest = (v, 0)) as ->.
  { intros v. destruct rest as [|r rest]; [done|]. unfold no_digit in Hr.
    cbn [scan_digits]. by rewrite Hr. }
  rewrite Z.mul_0_l, Z.add_0_l, Nat.add_0_r. cbn [length decide decide_rel].
  rewrite (decide_False (P := S (length ds) = 0)) by done.
  unfold LONG_MIN, LONG_MAX. f_equal; lia.
Qed.

Lemma dec_aux_length fuel n acc : length (dec_aux fuel n acc) ≤ fuel + length acc.
Proof.
  revert n acc. induction fuel as [|fuel IH]; intros n acc; cbn [dec_aux]; [done|].
  destruct (_ =? _)%Z; [cbn [length]; lia|]. rewrite IH. cbn [length]. lia.
Qed.

Lemma dec_digits n : (0 ≤ n < 10 ^ 18)%Z → dec n ≠ [] ∧ Forall (λ c, isdigit c = true) (dec n).
Proof.
  intros Hn. unfold dec. destruct (dec_aux_spec 20 n []) as (ds & E & Hne & Hds & Hs); [lia..|].
  rewrite app_nil_r in E. rewrite E. split; [done|]. eapply Forall_impl; [exact Hds|].
  intros c (d & Hd & ->). by apply dec_digit_spec.
Qed.

Lemma atoi_dec n rest : (0 ≤ n < 2 ^ 31)%Z → no_digit rest → atoi (dec n ++ rest) = n.
Proof. intros Hn Hr. unfold atoi. rewrite strtol_dec by (done || lia). apply s32_id. lia. Qed.
