(* ===== verification/Snprintf.v ===== *)
(** * snprintf.c: formatted output for systems without it

    The formatter reads its format with a state machine and puts every
    character through one function, which stores it while there is room and
    counts it in any case.  Numbers have the sizes of a 64-bit system (LP64);
    [double] is IEEE binary64 in its standard axiom-free form, and [LDOUBLE] is
    [double], as without HAVE_LONG_DOUBLE.  Arguments are typed: taking one as
    something else is undefined. *)

From Stdlib Require Import SpecFloat.
From S2P Require Import Prelude CLib.

(** ** Arguments *)

Inductive va_arg :=
| VaInt (z : Z)                     (** [int], also for what is promoted to it *)
| VaLong (z : Z)                    (** [long] and [long long] *)
| VaStr (s : option cstr)           (** [char *]; [None] is NULL *)
| VaPtr (z : Z)
| VaDouble (f : spec_float)
| VaNum (loc : nat).                (** where [%n] stores *)

(** ** Flags *)

Definition DP_F_MINUS : Z := 1.
Definition DP_F_PLUS : Z := 2.
Definition DP_F_SPACE : Z := 4.
Definition DP_F_NUM : Z := 8.
Definition DP_F_ZERO : Z := 16.
Definition DP_F_UP : Z := 32.
Definition DP_F_UNSIGNED : Z := 64.

Inductive dp_cflags := DP_C_NONE | DP_C_SHORT | DP_C_LONG | DP_C_LDOUBLE | DP_C_LLONG.

Inductive dp_state :=
| DP_S_DEFAULT | DP_S_FLAGS | DP_S_MIN | DP_S_DOT | DP_S_MAX | DP_S_MOD | DP_S_CONV | DP_S_DONE.

#[export] Instance dp_state_eq_dec : EqDecision dp_state.
Proof. solve_decision. Defined.

(** ** Where the characters go *)

(** The caller's buffer, [currlen], and what [%n] stored, latest first. *)
Record sink := Sink { k_buf : cstr; k_len : nat; k_nums : list (nat * Z) }.

Definition dopr_outch (maxlen : nat) (c : ascii) : M sink unit := λ k,
  if (k_len k <? maxlen) then
    if (k_len k <? length (k_buf k)) then
      (Ok (), Sink (<[k_len k := c]> (k_buf k)) (S (k_len k)) (k_nums k))
    else (Undef, k)
  else (Ok (), Sink (k_buf k) (S (k_len k)) (k_nums k)).

(** [while (n > 0) { dopr_outch(c); --n; }] *)
Fixpoint out_pad (maxlen : nat) (c : ascii) (n : nat) : M sink unit :=
  match n with
  | 0 => ret ()
  | S n => do! dopr_outch maxlen c; out_pad maxlen c n
  end.

Fixpoint out_chars (maxlen : nat) (s : cstr) : M sink unit :=
  match s with
  | [] => ret ()
  | c :: s => do! dopr_outch maxlen c; out_chars maxlen s
  end.

(** An [int] that arithmetic gives: beyond its range it is undefined. *)
Definition int_val (z : Z) : outcome Z :=
  if (- 2 ^ 31 <=? z)%Z && (z <=? INT_MAX)%Z then Ok z else Undef.

(** ** Strings *)

(** The three loops of [fmtstr]; [cnt] runs through all of them. *)
Fixpoint fmtstr_pad (maxlen : nat) (n : nat) (cnt max : Z) : M sink Z :=
  match n with
  | 0 => ret cnt
  | S n => if (cnt <? max)%Z then do! dopr_outch maxlen " "; fmtstr_pad maxlen n (cnt + 1) max
           else ret cnt
  end.

Fixpoint fmtstr_copy (maxlen : nat) (value : cstr) (cnt max : Z) : M sink Z :=
  match value with
  | [] => ret cnt
  | c :: value => if (cnt <? max)%Z then do! dopr_outch maxlen c; fmtstr_copy maxlen value (cnt + 1) max
                  else ret cnt
  end.

Definition fmtstr (maxlen : nat) (value : cstr) (flags min max : Z) : M sink unit :=
  let! strln := throw (int_val (Z.of_nat (length value))) in
  let! padlen := throw (int_val (min - strln)) in
  let padlen := if (padlen <? 0)%Z then 0%Z else padlen in
  let padlen := if has_flag flags DP_F_MINUS then (- padlen)%Z else padlen in
  let! cnt := fmtstr_pad maxlen (Z.to_nat padlen) 0 max in
  let! cnt := fmtstr_copy maxlen value cnt max in
  let! _ := fmtstr_pad maxlen (Z.to_nat (- padlen)) cnt max in
  ret ().

(** ** Integers *)

Definition hexdigit (caps : bool) (d : Z) : ascii :=
  cget (if caps then "0123456789ABCDEF"%cs else "0123456789abcdef"%cs) (Z.to_nat d).

(** [do { convert[place++] = ...; uvalue /= base; } while (uvalue && place < 20)],
    the digits least significant first. *)
Fixpoint convert_loop (room : nat) (caps : bool) (base uvalue : Z) : cstr :=
  match room with
  | 0 => []
  | S room =>
      hexdigit caps (uvalue mod base) ::
      (if (uvalue / base =? 0)%Z then [] else convert_loop room caps base (uvalue / base))
  end.

(** [char convert[20]], the last place for the terminator. *)
Definition convert (caps : bool) (base uvalue : Z) : cstr := take 19 (convert_loop 20 caps base uvalue).

Definition wrap64 (z : Z) : Z := (z mod 2 ^ 64)%Z.
Definition s64 (z : Z) : Z := ((z + 2 ^ 63) mod 2 ^ 64 - 2 ^ 63)%Z.

(** The sign, as a list of at most one character, and the magnitude.  The
    negation of LONG_MIN overflows. *)
Definition int_sign (value flags : Z) : outcome (cstr * Z) :=
  if negb (has_flag flags DP_F_UNSIGNED) then
    if (value <? 0)%Z then
      if (value =? LONG_MIN)%Z then Undef else Ok (["-"%char], (- value)%Z)
    else if has_flag flags DP_F_PLUS then Ok (["+"%char], value)
    else if has_flag flags DP_F_SPACE then Ok ([" "%char], value)
    else Ok ([], value)
  else Ok ([], wrap64 value).

(** [zpadlen] and [spadlen]; what is subtracted is not negative, so the last
    difference is the least. *)
Definition int_pads (place signs min max flags : Z) : outcome (Z * Z) :=
  let zpadlen := (max - place)%Z in
  match int_val (min - Z.max max place - signs) with
  | Ok spadlen =>
      let zpadlen := if (zpadlen <? 0)%Z then 0%Z else zpadlen in
      let spadlen := if (spadlen <? 0)%Z then 0%Z else spadlen in
      let '(zpadlen, spadlen) :=
        if has_flag flags DP_F_ZERO then (Z.max zpadlen spadlen, 0%Z) else (zpadlen, spadlen) in
      Ok (zpadlen, if has_flag flags DP_F_MINUS then (- spadlen)%Z else spadlen)
  | _ => Undef
  end.

Definition fmtint (maxlen : nat) (value base min max flags : Z) : M sink unit :=
  let max := if (max <? 0)%Z then 0%Z else max in
  let! (signvalue, uvalue) := throw (int_sign value flags) in
  let digits := convert (has_flag flags DP_F_UP) base uvalue in
  let! (zpadlen, spadlen) :=
    throw (int_pads (Z.of_nat (length digits)) (Z.of_nat (length signvalue)) min max flags) in
  do! out_pad maxlen " " (Z.to_nat spadlen);
  do! out_chars maxlen signvalue;
  do! out_pad maxlen "0" (Z.to_nat zpadlen);
  do! out_chars maxlen (reverse digits);
  out_pad maxlen " " (Z.to_nat (- spadlen)).

(** ** Floating point *)

Definition f_prec : Z := 53.
Definition f_emax : Z := 1024.
Definition f_of_Z (z : Z) : spec_float := binary_normalize f_prec f_emax z 0 false.
Definition f_mul : spec_float → spec_float → spec_float := SFmul f_prec f_emax.
Definition f_add : spec_float → spec_float → spec_float := SFadd f_prec f_emax.
Definition f_sub : spec_float → spec_float → spec_float := SFsub f_prec f_emax.
Definition f_div : spec_float → spec_float → spec_float := SFdiv f_prec f_emax.

(** The constants 0.1, 0.5 and 0.05, rounded to nearest. *)
Definition f_0_1 : spec_float := f_div (f_of_Z 1) (f_of_Z 10).
Definition f_0_5 : spec_float := f_div (f_of_Z 1) (f_of_Z 2).
Definition f_0_05 : spec_float := f_div (f_of_Z 1) (f_of_Z 20).

(** Conversion to [long], [long long]: toward zero; out of range it is undefined. *)
Definition f_trunc (f : spec_float) : option Z :=
  match f with
  | S754_zero _ => Some 0%Z
  | S754_finite s m e =>
      let v := Z.shiftl (Z.pos m) e in
      let v := if s then (- v)%Z else v in
      if (LONG_MIN <=? v)%Z && (v <=? LONG_MAX)%Z then Some v else None
  | _ => None
  end.

Definition f_nonzero (f : spec_float) : bool := negb (SFeqb f (f_of_Z 0)).

Definition abs_val (value : spec_float) : spec_float :=
  if SFltb value (f_of_Z 0) then SFopp value else value.

Fixpoint pow10_loop (exp : nat) (result : spec_float) : spec_float :=
  match exp with 0 => result | S exp => pow10_loop exp (f_mul result (f_of_Z 10)) end.
Definition POW10 (exp : Z) : spec_float := pow10_loop (Z.to_nat exp) (f_of_Z 1).

Definition ROUND (value : spec_float) : option Z :=
  match f_trunc value with
  | None => None
  | Some intpart =>
      let value := f_sub value (f_of_Z intpart) in
      Some (if SFleb f_0_5 value then (intpart + 1)%Z else intpart)
  end.

(** The search of [my_modf] for a power of ten that brings [x] into range:
    [i], [l], [x] and [f] when the loop ends. *)
Fixpoint modf_find (n : nat) (i : nat) (x f : spec_float) : outcome (nat * Z * spec_float * spec_float) :=
  match n with
  | 0 => Ok (i, 0%Z, x, f)
  | S n =>
      match f_trunc x with
      | None => Undef
      | Some l =>
          if SFleb (f_of_Z l) (f_add x (f_of_Z 1)) && SFleb (f_sub x (f_of_Z 1)) (f_of_Z l)
          then Ok (i, l, x, f)
          else modf_find n (S i) (f_mul x f_0_1) (f_mul f (f_of_Z 10))
      end
  end.

(** The fraction and the integral part. *)
Fixpoint my_modf (depth : nat) (x0 : spec_float) : outcome (spec_float * spec_float) :=
  match depth with
  | 0 => Undef
  | S depth =>
      match modf_find 100 0 x0 (f_of_Z 1) with
      | Ok (i, l, x, f) =>
          if decide (i = 100) then Ok (f_of_Z 0, f_of_Z 0)
          else if decide (i ≠ 0) then
            match my_modf depth (f_sub x0 (f_mul (f_of_Z l) f)) with
            | Ok (ret, i2) => Ok (ret, f_add (f_mul (f_of_Z l) f) i2)
            | o => o
            end
          else Ok (f_sub x (f_of_Z l), f_of_Z l)
      | _ => Undef
      end
  end.

(** Enough: the search ends at once or is undefined. *)
Definition modf_depth : nat := 2.

(** One digit of [part]: the digit, and [part] divided by ten. *)
Definition fp_digit (part : spec_float) : outcome (ascii * spec_float) :=
  let temp := f_mul part f_0_1 in
  match my_modf modf_depth temp with
  | Ok (_, part) =>
      match f_trunc (f_mul (f_add (f_sub temp part) f_0_05) (f_of_Z 10)) with
      | Some idx => if (0 <=? idx)%Z && (idx <? 16)%Z then Ok (hexdigit false idx, part) else Undef
      | None => Undef
      end
  | _ => Undef
  end.

Fixpoint fp_digits (room : nat) (part : spec_float) : outcome cstr :=
  match room with
  | 0 => Ok []
  | S room =>
      match fp_digit part with
      | Ok (d, part) =>
          if f_nonzero part then
            match fp_digits room part with Ok ds => Ok (d :: ds) | o => o end
          else Ok [d]
      | _ => Undef
      end
  end.

Definition fp_sign (fvalue : spec_float) (flags : Z) : cstr :=
  if SFltb fvalue (f_of_Z 0) then ["-"%char]
  else if has_flag flags DP_F_PLUS then ["+"%char]
  else if has_flag flags DP_F_SPACE then [" "%char] else [].

(** The digits of the two parts, least significant first. *)
Definition fp_parts (ufvalue : spec_float) (max : Z) : outcome (cstr * cstr) :=
  match my_modf modf_depth ufvalue with
  | Ok (_, intpart) =>
      match ROUND (f_mul (POW10 max) (f_sub ufvalue intpart)) with
      | None => Undef
      | Some r =>
          let fracpart := f_of_Z r in
          let '(intpart, fracpart) :=
            if SFleb (POW10 max) fracpart then (f_add intpart (f_of_Z 1), f_sub fracpart (POW10 max))
            else (intpart, fracpart) in
          match fp_digits 311 intpart with
          | Ok iconvert =>
              match (if f_nonzero fracpart then fp_digits 311 fracpart else Ok []) with
              | Ok fconvert => Ok (take 310 iconvert, take 310 fconvert)
              | _ => Undef
              end
          | _ => Undef
          end
      end
  | _ => Undef
  end.

Definition fmtfp (maxlen : nat) (fvalue : spec_float) (min max flags : Z) : M sink unit :=
  let max := if (max <? 0)%Z then 6%Z else max in
  let signvalue := fp_sign fvalue flags in
  let max := if (16 <? max)%Z then 16%Z else max in
  let! (iconvert, fconvert) := throw (fp_parts (abs_val fvalue) max) in
  let iplace := Z.of_nat (length iconvert) in
  let fplace := Z.of_nat (length fconvert) in
  let! padlen := throw (int_val (min - iplace - max - 1 - Z.of_nat (length signvalue))) in
  let zpadlen := Z.max 0 (max - fplace) in
  let padlen := Z.max 0 padlen in
  let padlen := if has_flag flags DP_F_MINUS then (- padlen)%Z else padlen in
  let! (padlen, signvalue) :=
    (if has_flag flags DP_F_ZERO && (0 <? padlen)%Z then
       do! out_chars maxlen signvalue;
       do! out_pad maxlen "0" (Z.to_nat (padlen - Z.of_nat (length signvalue)));
       ret (0%Z, [])
     else ret (padlen, signvalue)) in
  do! out_pad maxlen " " (Z.to_nat padlen);
  do! out_chars maxlen signvalue;
  do! out_chars maxlen (reverse iconvert);
  do! (if (0 <? max)%Z then
         do! dopr_outch maxlen ".";
         do! out_pad maxlen "0" (Z.to_nat zpadlen);
         out_chars maxlen (reverse fconvert)
       else ret ());
  out_pad maxlen " " (Z.to_nat (- padlen)).

(** ** The machine *)

(** [p_cur] is the format from [ch] on: empty when [ch] is the terminator.
    [p_args] is the rest of the argument list. *)
Record dp := Dp {
  p_cur : cstr; p_state : dp_state; p_flags : Z; p_cflags : dp_cflags; p_min : Z; p_max : Z;
  p_args : list va_arg
}.
Definition p_ch (d : dp) : ascii := cget (p_cur d) 0.

Definition set_p_state (s : dp_state) (d : dp) : dp :=
  Dp (p_cur d) s (p_flags d) (p_cflags d) (p_min d) (p_max d) (p_args d).
Definition set_p_flag (f : Z) (d : dp) : dp :=
  Dp (p_cur d) (p_state d) (Z.lor (p_flags d) f) (p_cflags d) (p_min d) (p_max d) (p_args d).
Definition set_p_cflags (c : dp_cflags) (d : dp) : dp :=
  Dp (p_cur d) (p_state d) (p_flags d) c (p_min d) (p_max d) (p_args d).
Definition set_p_min (m : Z) (d : dp) : dp :=
  Dp (p_cur d) (p_state d) (p_flags d) (p_cflags d) m (p_max d) (p_args d).
Definition set_p_max (m : Z) (d : dp) : dp :=
  Dp (p_cur d) (p_state d) (p_flags d) (p_cflags d) (p_min d) m (p_args d).
Definition set_p_args (a : list va_arg) (d : dp) : dp :=
  Dp (p_cur d) (p_state d) (p_flags d) (p_cflags d) (p_min d) (p_max d) a.

(** [ch = *format++]: there is nothing behind the terminator. *)
Definition next_ch (d : dp) : M sink dp :=
  match p_cur d with
  | [] => ub
  | _ :: r => ret (Dp r (p_state d) (p_flags d) (p_cflags d) (p_min d) (p_max d) (p_args d))
  end.

Definition va_int (args : list va_arg) : outcome (Z * list va_arg) :=
  match args with VaInt z :: args => Ok (z, args) | _ => Undef end.

(** [10 * n + digit] in an [int]. *)
Definition add_digit (n : Z) (c : ascii) : outcome Z :=
  let v := (10 * n + (code c - 48))%Z in
  if (INT_MAX <? v)%Z then Undef else Ok v.

Definition flag_of (c : ascii) : option Z :=
  if ceqb c "-" then Some DP_F_MINUS
  else if ceqb c "+" then Some DP_F_PLUS
  else if ceqb c " " then Some DP_F_SPACE
  else if ceqb c "#" then Some DP_F_NUM
  else if ceqb c "0" then Some DP_F_ZERO
  else None.

Definition arg_signed (cflags : dp_cflags) (args : list va_arg) : outcome (Z * list va_arg) :=
  match cflags, args with
  | (DP_C_LONG | DP_C_LLONG), VaLong z :: args => Ok (z, args)
  | (DP_C_NONE | DP_C_SHORT | DP_C_LDOUBLE), VaInt z :: args => Ok (z, args)
  | _, _ => Undef
  end.

Definition arg_unsigned (cflags : dp_cflags) (args : list va_arg) : outcome (Z * list va_arg) :=
  match cflags, args with
  | (DP_C_LONG | DP_C_LLONG), VaLong z :: args => Ok (z, args)
  | (DP_C_NONE | DP_C_SHORT | DP_C_LDOUBLE), VaInt z :: args => Ok (u32 z, args)
  | _, _ => Undef
  end.

(** What [%n] leaves in an object of the size asked for. *)
Definition num_value (cflags : dp_cflags) (n : nat) : Z :=
  match cflags with
  | DP_C_SHORT => ((Z.of_nat n + 2 ^ 15) mod 2 ^ 16 - 2 ^ 15)%Z
  | DP_C_LONG | DP_C_LLONG => s64 (Z.of_nat n)
  | _ => s32 (Z.of_nat n)
  end.

(** The precision of [%s]: all of the string, and room for the padding. *)
Definition str_max (value : cstr) (min max : Z) : Z :=
  let max := if (max =? -1)%Z then Z.of_nat (length value) else max in
  if (0 <? min)%Z && (0 <=? max)%Z && (max <? min)%Z then min else max.

Definition conv_base (c : ascii) : Z := if ceqb c "o" then 8 else if ceqb c "u" then 10 else 16.

(** The state DP_S_CONV, up to the reset of the directive. *)
Definition dp_conv (maxlen : nat) (d : dp) : M sink dp :=
  let c := p_ch d in
  if ceqb c "d" || ceqb c "i" then
    let! (value, args) := throw (arg_signed (p_cflags d) (p_args d)) in
    do! fmtint maxlen value 10 (p_min d) (p_max d) (p_flags d);
    ret (set_p_args args d)
  else if ceqb c "o" || ceqb c "u" || ceqb c "x" || ceqb c "X" then
    let d := if ceqb c "X" then set_p_flag DP_F_UP d else d in
    let d := set_p_flag DP_F_UNSIGNED d in
    let! (value, args) := throw (arg_unsigned (p_cflags d) (p_args d)) in
    do! fmtint maxlen value (conv_base c) (p_min d) (p_max d) (p_flags d);
    ret (set_p_args args d)
  else if ceqb c "f" || ceqb c "e" || ceqb c "E" || ceqb c "g" || ceqb c "G" then
    match p_args d with
    | VaDouble f :: args =>
        do! fmtfp maxlen f (p_min d) (p_max d) (p_flags d);
        ret (set_p_args args d)
    | _ => ub
    end
  else if ceqb c "c" then
    let! (z, args) := throw (va_int (p_args d)) in
    do! dopr_outch maxlen (ascii_of_N (Z.to_N (z mod 256)));
    ret (set_p_args args d)
  else if ceqb c "s" then
    match p_args d with
    | VaStr strvalue :: args =>
        let value := default "(NULL)"%cs strvalue in
        do! fmtstr maxlen value (p_flags d) (p_min d) (str_max value (p_min d) (p_max d));
        ret (set_p_args args d)
    | _ => ub
    end
  else if ceqb c "p" then
    match p_args d with
    | VaPtr z :: args =>
        do! fmtint maxlen z 16 (p_min d) (p_max d) (p_flags d);
        ret (set_p_args args d)
    | _ => ub
    end
  else if ceqb c "n" then
    match p_args d with
    | VaNum loc :: args =>
        do! modify (λ k, Sink (k_buf k) (k_len k) ((loc, num_value (p_cflags d) (k_len k)) :: k_nums k));
        ret (set_p_args args d)
    | _ => ub
    end
  else if ceqb c "%" then do! dopr_outch maxlen "%"; ret d
  else if ceqb c "w" then next_ch d
  else ret d.

Definition dp_step (maxlen : nat) (d : dp) : M sink dp :=
  match p_state d with
  | DP_S_DEFAULT =>
      if ceqb (p_ch d) "%" then next_ch (set_p_state DP_S_FLAGS d)
      else do! dopr_outch maxlen (p_ch d); next_ch d
  | DP_S_FLAGS =>
      match flag_of (p_ch d) with
      | Some f => next_ch (set_p_flag f d)
      | None => ret (set_p_state DP_S_MIN d)
      end
  | DP_S_MIN =>
      if isdigit (p_ch d) then
        let! min := throw (add_digit (p_min d) (p_ch d)) in next_ch (set_p_min min d)
      else if ceqb (p_ch d) "*" then
        let! (min, args) := throw (va_int (p_args d)) in
        next_ch (set_p_state DP_S_DOT (set_p_args args (set_p_min min d)))
      else ret (set_p_state DP_S_DOT d)
  | DP_S_DOT =>
      if ceqb (p_ch d) "." then next_ch (set_p_state DP_S_MAX d) else ret (set_p_state DP_S_MOD d)
  | DP_S_MAX =>
      if isdigit (p_ch d) then
        let! max := throw (add_digit (if (p_max d <? 0)%Z then 0 else p_max d) (p_ch d)) in
        next_ch (set_p_max max d)
      else if ceqb (p_ch d) "*" then
        let! (max, args) := throw (va_int (p_args d)) in
        next_ch (set_p_state DP_S_MOD (set_p_args args (set_p_max max d)))
      else ret (set_p_state DP_S_MOD d)
  | DP_S_MOD =>
      let d' := set_p_state DP_S_CONV d in
      if ceqb (p_ch d) "h" then next_ch (set_p_cflags DP_C_SHORT d')
      else if ceqb (p_ch d) "l" then
        let! d' := next_ch (set_p_cflags DP_C_LONG d') in
        if ceqb (p_ch d') "l" then next_ch (set_p_cflags DP_C_LLONG d') else ret d'
      else if ceqb (p_ch d) "L" then next_ch (set_p_cflags DP_C_LDOUBLE d')
      else ret d'
  | DP_S_CONV =>
      let! d := dp_conv maxlen d in
      let! d := next_ch d in
      ret (Dp (p_cur d) DP_S_DEFAULT 0 DP_C_NONE 0 (-1) (p_args d))
  | DP_S_DONE => ret d
  end.

Fixpoint dopr_loop (fuel maxlen : nat) (d : dp) : M sink unit :=
  match fuel with
  | 0 => ub
  | S fuel =>
      if decide (p_state d = DP_S_DONE) then ret ()
      else
        let d := if ceqb (p_ch d) NUL then set_p_state DP_S_DONE d else d in
        let! d := dp_step maxlen d in
        dopr_loop fuel maxlen d
  end.

(** Every round moves on in the format or to a later state. *)
Definition dopr_fuel (format : cstr) : nat := 8 * length format + 9.

(** [buffer[i] = '\0'] *)
Definition put_nul (i : nat) : M sink unit := λ k,
  if (i <? length (k_buf k)) then (Ok (), Sink (<[i := NUL]> (k_buf k)) (k_len k) (k_nums k))
  else (Undef, k).

Definition dopr (maxlen : nat) (format : cstr) (args : list va_arg) : M sink nat :=
  do! dopr_loop (dopr_fuel format) maxlen (Dp format DP_S_DEFAULT 0 DP_C_NONE 0 (-1) args);
  let! currlen := gets k_len in
  do! (if decide (maxlen ≠ 0) then
         if (currlen <? maxlen - 1) then put_nul currlen else put_nul (maxlen - 1)
       else ret ());
  ret currlen.

(** What a call leaves: the [int] it returns, the buffer, and the stores of
    [%n]. *)
Definition vsnprintf (str : cstr) (count : nat) (fmt : cstr) (args : list va_arg) :
    outcome (Z * cstr * list (nat * Z)) :=
  match dopr count fmt args (Sink str 0 []) with
  | (Ok n, k) => Ok (s32 (Z.of_nat n), k_buf k, k_nums k)
  | _ => Undef
  end.

(** [None] is a pointer that is not set.  [junk] is what the new memory
    holds. *)
Definition vasprintf (junk : ascii) (format : cstr) (args : list va_arg) :
    M (list bool) (Z * option cstr) :=
  match vsnprintf [] 0 format args with
  | Ok (r, _, _) =>
      if (r <=? 0)%Z then ret (r, None)
      else
        let! p := malloc in
        if p then
          match vsnprintf (replicate (Z.to_nat r + 1) junk) (Z.to_nat r + 1) format args with
          | Ok (r, buf, _) => ret (r, Some buf)
          | _ => ub
          end
        else ret (-1, None)%Z
  | _ => ub
  end.

(** The pointer is set to NULL first. *)
Definition asprintf (junk : ascii) (format : cstr) (args : list va_arg) :
    M (list bool) (Z * option cstr) := vasprintf junk format args.

Definition checked_asprintf (junk : ascii) (format : cstr) (args : list va_arg) :
    M (list bool) (Z * option cstr) :=
  let! (r, p) := vasprintf junk format args in
  ret (r, if (r =? -1)%Z then None else p).

(** ** What is shown of an output *)

(** The sink after the characters [out]: the buffer holds as many of them as
    there is room for. *)
Definition shown (maxlen : nat) (buf out : cstr) (nums : list (nat * Z)) : sink :=
  Sink (take maxlen out ++ drop (Nat.min maxlen (length out)) buf) (length out) nums.

(** [m] puts out [s], whatever came before, and gives [a]. *)
Definition emits {A} (maxlen : nat) (m : M sink A) (s : cstr) (a : A) : Prop :=
  ∀ buf out nums, maxlen ≤ length buf →
    m (shown maxlen buf out nums) = (Ok a, shown maxlen buf (out ++ s) nums).

Lemma emits_ret {A} n (a : A) : emits n (ret a) [] a.
Proof. intros buf out nums _. by rewrite app_nil_r. Qed.

Lemma emits_bind {A B} n (m : M sink A) (k : A → M sink B) s1 s2 a b :
  emits n m s1 a → emits n (k a) s2 b → emits n (bind m k) (s1 ++ s2) b.
Proof.
  intros Hm Hk buf out nums Hl. rewrite (bind_Ok _ _ _ _ _ (Hm buf out nums Hl)), (Hk buf _ nums Hl).
  by rewrite app_assoc.
Qed.

Lemma emits_do {A} n (m : M sink unit) (k : M sink A) s1 s2 a :
  emits n m s1 () → emits n k s2 a → emits n (do! m; k) (s1 ++ s2) a.
Proof. intros Hm Hk. by apply (emits_bind n m (λ _, k) s1 s2 ()). Qed.

Lemma emits_throw_Ok {A B} n (o : outcome A) (k : A → M sink B) s a b :
  o = Ok a → emits n (k a) s b → emits n (bind (throw o) k) s b.
Proof. intros -> Hk. exact Hk. Qed.

Lemma emits_outch n c : emits n (dopr_outch n c) [c] ().
Proof.
  intros buf out nums Hl. unfold dopr_outch, shown. cbn [k_len k_buf k_nums].
  rewrite !length_app, length_take, length_drop. cbn [length].
  destruct (Nat.ltb_spec (length out) n) as [Hlt|Hge].
  - rewrite (proj2 (Nat.ltb_lt _ _)) by lia.
    replace (length out + 1) with (S (length out)) by lia. rewrite !Nat.min_r by lia.
    rewrite !take_ge by (rewrite ?length_app; simpl; lia).
    rewrite insert_app_r_alt by lia. rewrite Nat.sub_diag.
    rewrite (drop_S buf (default NUL (buf !! length out))).
    2:{ destruct (lookup_lt_is_Some_2 buf (length out)) as [x Hx]; [lia|]. by rewrite Hx. }
    cbn [list_insert insert]. by rewrite <- app_assoc.
  - rewrite (Nat.min_l n (length out)), (Nat.min_l n (length out + 1)) by lia.
    rewrite take_app_le by lia. by replace (length out + 1) with (S (length out)) by lia.
Qed.

Lemma emits_pad n c k : emits n (out_pad n c k) (replicate k c) ().
Proof.
  induction k as [|k IH]; [apply emits_ret|].
  exact (emits_do n (dopr_outch n c) (out_pad n c k) [c] (replicate k c) () (emits_outch n c) IH).
Qed.

Lemma emits_chars n s : emits n (out_chars n s) s ().
Proof.
  induction s as [|c s IH]; [apply emits_ret|].
  exact (emits_do n (dopr_outch n c) (out_chars n s) [c] s () (emits_outch n c) IH).
Qed.

(** ** The text of each conversion *)

Definition spaces (n : Z) : cstr := replicate (Z.to_nat n) " "%char.

(** A string is padded to [min], on the side the flag says, and cut at [max]. *)
Definition str_text (value : cstr) (flags min max : Z) : outcome cstr :=
  match int_val (Z.of_nat (length value)), int_val (min - Z.of_nat (length value)) with
  | Ok _, Ok n =>
      Ok (take (Z.to_nat max) (if has_flag flags DP_F_MINUS then value ++ spaces n else spaces n ++ value))
  | _, _ => Undef
  end.

(** A number: spaces, sign, zeros, digits, spaces. *)
Definition int_text (value base min max flags : Z) : outcome cstr :=
  let max := Z.max 0 max in
  match int_sign value flags with
  | Ok (sign, uvalue) =>
      let digits := convert (has_flag flags DP_F_UP) base uvalue in
      match int_pads (Z.of_nat (length digits)) (Z.of_nat (length sign)) min max flags with
      | Ok (zpad, spad) =>
          Ok (spaces spad ++ sign ++ replicate (Z.to_nat zpad) "0"%char ++ reverse digits ++ spaces (- spad))
      | _ => Undef
      end
  | _ => Undef
  end.

Definition fp_text (f : spec_float) (min max flags : Z) : outcome cstr :=
  let max := Z.min 16 (if (max <? 0)%Z then 6 else max) in
  let sign := fp_sign f flags in
  match fp_parts (abs_val f) max with
  | Ok (iconvert, fconvert) =>
    match int_val (min - Z.of_nat (length iconvert) - max - 1 - Z.of_nat (length sign)) with
    | Ok room =>
      let pad := Z.max 0 room in
      let point := if (0 <? max)%Z
                   then "."%char :: replicate (Z.to_nat (max - Z.of_nat (length fconvert))) "0"%char ++ reverse fconvert
                   else [] in
      let number := reverse iconvert ++ point in
      Ok (if has_flag flags DP_F_MINUS then sign ++ number ++ spaces pad
          else if has_flag flags DP_F_ZERO && (0 <? pad)%Z
          then sign ++ replicate (Z.to_nat (pad - Z.of_nat (length sign))) "0"%char ++ number
          else spaces pad ++ sign ++ number)
    | _ => Undef
    end
  | _ => Undef
  end.

Lemma int_val_Ok z v : int_val z = Ok v → v = z ∧ (- 2 ^ 31 ≤ z ≤ INT_MAX)%Z.
Proof. unfold int_val. destruct (Z.leb_spec (- 2 ^ 31) z), (Z.leb_spec z INT_MAX); simpl; intros; simplify_eq; lia. Qed.

Lemma int_val_in z : (- 2 ^ 31 ≤ z ≤ INT_MAX)%Z → int_val z = Ok z.
Proof. intros Hz. unfold int_val. rewrite !(proj2 (Z.leb_le _ _)) by lia. done. Qed.

Lemma emits_fmtstr_pad n k cnt max :
  (0 ≤ cnt)%Z → emits n (fmtstr_pad n k cnt max) (take (Z.to_nat (max - cnt)) (replicate k " "%char))
                  (Z.max cnt (Z.min (cnt + Z.of_nat k) max)).
Proof.
  revert cnt. induction k as [|k IH]; intros cnt Hc; cbn [fmtstr_pad].
  - cbn [replicate]. rewrite take_nil. replace (Z.max cnt (Z.min (cnt + Z.of_nat 0) max)) with cnt by lia. apply emits_ret.
  - destruct (Z.ltb_spec cnt max) as [Hlt|Hge].
    + replace (Z.to_nat (max - cnt)) with (S (Z.to_nat (max - (cnt + 1)))) by lia. cbn [replicate take].
      replace (Z.max cnt (Z.min (cnt + Z.of_nat (S k)) max))
        with (Z.max (cnt + 1) (Z.min (cnt + 1 + Z.of_nat k) max)) by lia.
      apply (emits_do n _ _ [_]); [apply emits_outch|]. apply IH. lia.
    + replace (Z.to_nat (max - cnt)) with 0 by lia. rewrite take_0.
      replace (Z.max cnt (Z.min (cnt + Z.of_nat (S k)) max)) with cnt by lia. apply emits_ret.
Qed.

Lemma emits_fmtstr_copy n value cnt max :
  (0 ≤ cnt)%Z → emits n (fmtstr_copy n value cnt max) (take (Z.to_nat (max - cnt)) value)
                  (Z.max cnt (Z.min (cnt + Z.of_nat (length value)) max)).
Proof.
  revert cnt. induction value as [|c value IH]; intros cnt Hc; cbn [fmtstr_copy length].
  - rewrite take_nil. replace (Z.max cnt (Z.min (cnt + Z.of_nat 0) max)) with cnt by lia. apply emits_ret.
  - destruct (Z.ltb_spec cnt max) as [Hlt|Hge].
    + replace (Z.to_nat (max - cnt)) with (S (Z.to_nat (max - (cnt + 1)))) by lia. cbn [take].
      replace (Z.max cnt (Z.min (cnt + Z.of_nat (S (length value))) max))
        with (Z.max (cnt + 1) (Z.min (cnt + 1 + Z.of_nat (length value)) max)) by lia.
      apply (emits_do n _ _ [_]); [apply emits_outch|]. apply IH. lia.
    + replace (Z.to_nat (max - cnt)) with 0 by lia. rewrite take_0.
      replace (Z.max cnt (Z.min (cnt + Z.of_nat (S (length value))) max)) with cnt by lia. apply emits_ret.
Qed.

(** One piece after another under a common limit. *)
Lemma take_pieces {A} (x y : list A) (m : Z) :
  take (Z.to_nat m) (x ++ y) =
  take (Z.to_nat m) x ++ take (Z.to_nat (m - Z.max 0 (Z.min (Z.of_nat (length x)) m))) y.
Proof. rewrite take_app. f_equal. f_equal. lia. Qed.

Lemma emits_fmtstr n value flags min max s :
  str_text value flags min max = Ok s → emits n (fmtstr n value flags min max) s ().
Proof.
  unfold fmtstr, str_text, spaces. set (p := (min - Z.of_nat (length value))%Z).
  destruct (int_val (Z.of_nat (length value))) as [l0| | |] eqn:El; try done.
  assert (l0 = Z.of_nat (length value)) as -> by apply (int_val_Ok _ _ El).
  destruct (int_val p) as [p'| | |] eqn:Ep; try done.
  assert (p' = p) as -> by apply (int_val_Ok _ _ Ep).
  intros [= <-]. eapply emits_throw_Ok; [done|]. eapply emits_throw_Ok; [exact Ep|]. cbn beta iota zeta.
  set (q := if (p <? 0)%Z then 0%Z else p).
  assert (Z.to_nat q = Z.to_nat p) as Hq by (subst q; destruct (Z.ltb_spec p 0); lia).
  assert (0 ≤ q)%Z as Hq0 by (subst q; destruct (Z.ltb_spec p 0); lia).
  set (l := Z.to_nat (if has_flag flags DP_F_MINUS then (- q)%Z else q)).
  set (r := Z.to_nat (- (if has_flag flags DP_F_MINUS then (- q)%Z else q))).
  assert ((if has_flag flags DP_F_MINUS then value ++ replicate (Z.to_nat p) " "%char
           else replicate (Z.to_nat p) " "%char ++ value) =
          replicate l " "%char ++ value ++ replicate r " "%char) as ->.
  { subst l r. rewrite <- Hq. destruct (has_flag flags DP_F_MINUS).
    - rewrite Z.opp_involutive. replace (Z.to_nat (- q)) with 0 by lia. done.
    - replace (Z.to_nat (- q)) with 0 by lia. cbn [replicate]. by rewrite app_nil_r. }
  clearbody l r. clear. rewrite take_pieces, (take_pieces value).
  rewrite length_replicate. rewrite <- (app_nil_r (take _ (replicate r _))).
  eapply emits_bind; [|cbn beta; eapply emits_bind; [apply emits_fmtstr_copy; lia|
    cbn beta; eapply emits_bind; [|apply emits_ret]]].
  - rewrite <- (Z.sub_0_r max) at 2. apply emits_fmtstr_pad. lia.
  - match goal with |- emits _ (fmtstr_pad _ _ ?c _) _ _ => set (cnt := c) end.
    match goal with |- emits _ _ (take (Z.to_nat ?x) _) _ => replace x with (max - cnt)%Z by (subst cnt; lia) end.
    apply emits_fmtstr_pad. subst cnt. lia.
Qed.

Lemma emits_fmtint n value base min max flags s :
  int_text value base min max flags = Ok s → emits n (fmtint n value base min max flags) s ().
Proof.
  unfold int_text, fmtint.
  replace (if (max <? 0)%Z then 0%Z else max) with (Z.max 0 max) by (destruct (Z.ltb_spec max 0); lia).
  destruct (int_sign value flags) as [[sign uvalue]| | |] eqn:Es; try done.
  set (digits := convert _ _ _). destruct (int_pads _ _ _ _ _) as [[zpad spad]| | |] eqn:Ep; try done. intros [= <-].
  eapply emits_throw_Ok; [done|]. cbn beta iota zeta. fold digits. eapply emits_throw_Ok; [exact Ep|].
  cbn beta iota zeta. unfold spaces.
  repeat (apply emits_do; [solve [apply emits_pad | apply emits_chars]|]). apply emits_pad.
Qed.

Lemma emits_fmtfp n f min max flags s :
  fp_text f min max flags = Ok s → emits n (fmtfp n f min max flags) s ().
Proof.
  unfold fp_text, fmtfp. set (m := if (max <? 0)%Z then 6%Z else max).
  replace (if (16 <? m)%Z then 16%Z else m) with (Z.min 16 m) by (destruct (Z.ltb_spec 16 m); lia).
  set (max' := Z.min 16 m). clearbody max'. clear m. set (sign := fp_sign f flags).
  destruct (fp_parts (abs_val f) max') as [[ic fc]| | |] eqn:Ep; try done.
  destruct (int_val _) as [room| | |] eqn:Er; try done.
  intros E. eapply emits_throw_Ok; [done|]. cbn beta iota zeta. eapply emits_throw_Ok; [exact Er|]. cbn beta iota zeta.
  set (pad := Z.max 0 room) in *. revert E.
  set (point := if (0 <? max')%Z then _ else _). intros [= <-].
  assert (emits n (if (0 <? max')%Z then
      do! dopr_outch n "."; do! out_pad n "0" (Z.to_nat (Z.max 0 (max' - Z.of_nat (length fc)))); out_chars n (reverse fc)
    else ret ()) point ()) as Hpoint.
  { subst point. destruct (0 <? max')%Z; [|apply emits_ret].
    replace (Z.to_nat (Z.max 0 (max' - Z.of_nat (length fc)))) with (Z.to_nat (max' - Z.of_nat (length fc))) by lia.
    apply (emits_do n _ _ ["."%char]); [apply emits_outch|].
    apply emits_do; [apply emits_pad|apply emits_chars]. }
  assert (∀ (sg : cstr) (p : Z), emits n (do! out_pad n " " (Z.to_nat p); do! out_chars n sg;
      do! out_chars n (reverse ic);
      do! (if (0 <? max')%Z then
        do! dopr_outch n "."; do! out_pad n "0" (Z.to_nat (Z.max 0 (max' - Z.of_nat (length fc)))); out_chars n (reverse fc)
        else ret ()); out_pad n " " (Z.to_nat (- p)))
      (spaces p ++ sg ++ reverse ic ++ point ++ spaces (- p)) ()) as Htail.
  { intros sg p. unfold spaces. apply emits_do; [apply emits_pad|]. apply emits_do; [apply emits_chars|].
    apply emits_do; [apply emits_chars|]. apply emits_do; [done|apply emits_pad]. }
  assert (0 ≤ pad)%Z as Hpad by (subst pad; lia). clearbody pad.
  destruct (has_flag flags DP_F_MINUS) eqn:Em.
  - rewrite (proj2 (Z.ltb_ge 0 (- pad))) by lia. rewrite andb_false_r.
    replace (sign ++ (reverse ic ++ point) ++ spaces pad)
      with ([] ++ spaces (- pad) ++ sign ++ reverse ic ++ point ++ spaces (- - pad)).
    2:{ rewrite Z.opp_involutive, <- app_assoc. unfold spaces at 1.
        by replace (Z.to_nat (- pad)) with 0 by lia. }
    eapply emits_bind; [apply emits_ret|]. cbn beta iota. apply Htail.
  - destruct (has_flag flags DP_F_ZERO && (0 <? pad)%Z).
    + replace (sign ++ replicate (Z.to_nat (pad - Z.of_nat (length sign))) "0"%char ++ reverse ic ++ point)
        with ((sign ++ replicate (Z.to_nat (pad - Z.of_nat (length sign))) "0"%char ++ []) ++
              spaces 0 ++ [] ++ reverse ic ++ point ++ spaces (- 0)).
      2:{ unfold spaces. cbn. by rewrite !app_nil_r, <- app_assoc. }
      eapply (emits_bind _ _ _ _ _ (0%Z, [])); [|cbn beta iota; apply Htail].
      apply emits_do; [apply emits_chars|]. apply emits_do; [apply emits_pad|apply emits_ret].
    + replace (spaces pad ++ sign ++ reverse ic ++ point)
        with ([] ++ spaces pad ++ sign ++ reverse ic ++ point ++ spaces (- pad)).
      2:{ unfold spaces at 2. replace (Z.to_nat (- pad)) with 0 by lia. by rewrite app_nil_r. }
      eapply emits_bind; [apply emits_ret|]. cbn beta iota. apply Htail.
Qed.

(** ** The grammar of a format *)

(** A directive is read in one go: flags, width, precision, size; what is
    left starts with the conversion. *)
Fixpoint ref_flags (flags : Z) (s : cstr) : Z * cstr :=
  match s with
  | c :: r => match flag_of c with Some f => ref_flags (Z.lor flags f) r | None => (flags, s) end
  | [] => (flags, [])
  end.

Fixpoint ref_number (n : Z) (s : cstr) : outcome (Z * cstr) :=
  match s with
  | c :: r =>
      if isdigit c then match add_digit n c with Ok n => ref_number n r | _ => Undef end else Ok (n, s)
  | [] => Ok (n, [])
  end.

Definition ref_star (n : Z) (s : cstr) (args : list va_arg) : outcome (Z * cstr * list va_arg) :=
  match s with
  | "*"%char :: r => match va_int args with Ok (n, args) => Ok (n, r, args) | _ => Undef end
  | _ => Ok (n, s, args)
  end.

Definition ref_width (s : cstr) (args : list va_arg) : outcome (Z * cstr * list va_arg) :=
  match ref_number 0 s with Ok (n, s) => ref_star n s args | _ => Undef end.

(** Without a digit the precision stays -1, also behind a point. *)
Definition ref_precision (s : cstr) (args : list va_arg) : outcome (Z * cstr * list va_arg) :=
  match s with
  | "."%char :: s =>
      match s with
      | c :: _ => if isdigit c then
                    match ref_number 0 s with Ok (n, s) => ref_star n s args | _ => Undef end
                  else ref_star (-1) s args
      | [] => Ok ((-1)%Z, [], args)
      end
  | _ => Ok ((-1)%Z, s, args)
  end.

Definition ref_size (s : cstr) : dp_cflags * cstr :=
  match s with
  | "h"%char :: r => (DP_C_SHORT, r)
  | "l"%char :: "l"%char :: r => (DP_C_LLONG, r)
  | "l"%char :: r => (DP_C_LONG, r)
  | "L"%char :: r => (DP_C_LDOUBLE, r)
  | _ => (DP_C_NONE, s)
  end.

Record directive := Directive { d_flags : Z; d_min : Z; d_max : Z; d_size : dp_cflags }.

(** The text of a conversion, what it stores, and the rest of the arguments. *)
Definition ref_conv (c : ascii) (d : directive) (args : list va_arg) (n : nat) :
    outcome (cstr * list (nat * Z) * list va_arg) :=
  let text (o : outcome cstr) args := match o with Ok s => Ok (s, [], args) | _ => Undef end in
  if ceqb c "d" || ceqb c "i" then
    match arg_signed (d_size d) args with
    | Ok (v, args) => text (int_text v 10 (d_min d) (d_max d) (d_flags d)) args
    | _ => Undef
    end
  else if ceqb c "o" || ceqb c "u" || ceqb c "x" || ceqb c "X" then
    match arg_unsigned (d_size d) args with
    | Ok (v, args) =>
        text (int_text v (conv_base c) (d_min d) (d_max d)
                (Z.lor (if ceqb c "X" then Z.lor (d_flags d) DP_F_UP else d_flags d) DP_F_UNSIGNED)) args
    | _ => Undef
    end
  else if ceqb c "f" || ceqb c "e" || ceqb c "E" || ceqb c "g" || ceqb c "G" then
    match args with
    | VaDouble f :: args => text (fp_text f (d_min d) (d_max d) (d_flags d)) args
    | _ => Undef
    end
  else if ceqb c "c" then
    match va_int args with
    | Ok (z, args) => Ok ([ascii_of_N (Z.to_N (z mod 256))], [], args)
    | _ => Undef
    end
  else if ceqb c "s" then
    match args with
    | VaStr v :: args =>
        let value := default "(NULL)"%cs v in
        text (str_text value (d_flags d) (d_min d) (str_max value (d_min d) (d_max d))) args
    | _ => Undef
    end
  else if ceqb c "p" then
    match args with
    | VaPtr z :: args => text (int_text z 16 (d_min d) (d_max d) (d_flags d)) args
    | _ => Undef
    end
  else if ceqb c "n" then
    match args with
    | VaNum loc :: args => Ok ([], [(loc, num_value (d_size d) n)], args)
    | _ => Undef
    end
  else if ceqb c "%" then Ok (["%"%char], [], args)
  else Ok ([], [], args).

(** A directive, and what follows it.  One that is not complete gives
    nothing; [%w] swallows the next character. *)
Definition ref_directive (s : cstr) (args : list va_arg) (n : nat) :
    outcome (cstr * list (nat * Z) * list va_arg * cstr) :=
  let '(flags, s) := ref_flags 0 s in
  match ref_width s args with
  | Ok (min, s, args) =>
      match ref_precision s args with
      | Ok (max, s, args) =>
          let '(size, s) := ref_size s in
          match s with
          | [] => Ok ([], [], args, [])
          | c :: r =>
              match ref_conv c (Directive flags min max size) args n with
              | Ok (t, st, args) =>
                  if ceqb c "w" then match r with [] => Undef | _ :: r => Ok (t, st, args, r) end
                  else Ok (t, st, args, r)
              | _ => Undef
              end
          end
      | _ => Undef
      end
  | _ => Undef
  end.

(** The whole output of a format, however long, and the stores of [%n],
    latest first. *)
Fixpoint ref_format (fuel : nat) (s : cstr) (args : list va_arg) (out : cstr) (nums : list (nat * Z)) :
    outcome (cstr * list (nat * Z)) :=
  match fuel with
  | 0 => Undef
  | S fuel =>
      match s with
      | [] => Ok (out, nums)
      | c :: s =>
          if ceqb c "%" then
            match ref_directive s args (length out) with
            | Ok (t, st, args, s) => ref_format fuel s args (out ++ t) (st ++ nums)
            | _ => Undef
            end
          else ref_format fuel s args (out ++ [c]) nums
      end
  end.

Definition format_output (fmt : cstr) (args : list va_arg) : outcome (cstr * list (nat * Z)) :=
  ref_format (S (length fmt)) fmt args [] [].

(** ** The machine reads the grammar *)

Definition dp_rank (s : dp_state) : nat :=
  match s with
  | DP_S_DEFAULT => 0 | DP_S_FLAGS => 1 | DP_S_MIN => 2 | DP_S_DOT => 3 | DP_S_MAX => 4
  | DP_S_MOD => 5 | DP_S_CONV => 6 | DP_S_DONE => 7
  end.

(** What is left to do bounds the number of rounds. *)
Definition todo (d : dp) : nat := 8 * length (p_cur d) + (7 - dp_rank (p_state d)).

Definition runs_to (maxlen : nat) (d : dp) (k : sink) (d' : dp) (k' : sink) : Prop :=
  ∃ n, n + todo d' ≤ todo d ∧
    ∀ fuel, dopr_loop (n + fuel) maxlen d k = dopr_loop fuel maxlen d' k'.

Lemma runs_to_refl n d k : runs_to n d k d k.
Proof. by exists 0. Qed.

Lemma runs_to_trans n d1 k1 d2 k2 d3 k3 :
  runs_to n d1 k1 d2 k2 → runs_to n d2 k2 d3 k3 → runs_to n d1 k1 d3 k3.
Proof.
  intros (a & Ha & Ea) (b & Hb & Eb). exists (a + b). split; [lia|]. intros fuel.
  by rewrite <- Nat.add_assoc, Ea, Eb.
Qed.

(** One round. *)
Lemma runs_to_step n d k d' k' c r :
  p_cur d = c :: r → c ≠ NUL → p_state d ≠ DP_S_DONE →
  dp_step n d k = (Ok d', k') → todo d' < todo d → runs_to n d k d' k'.
Proof.
  intros Hc Hn Hs E Hlt. exists 1. split; [lia|]. intros fuel. cbn [plus dopr_loop].
  rewrite decide_False by done. unfold p_ch. rewrite Hc. cbn [cget].
  rewrite (proj2 (ceqb_false _ _)) by done. by rewrite (bind_Ok _ _ _ _ _ E).
Qed.

Ltac step1 := eapply runs_to_step; [reflexivity|done|done| |unfold todo; simpl; lia].

Lemma nul_free_cons c s : nul_free (c :: s) → c ≠ NUL ∧ nul_free s.
Proof. unfold nul_free. rewrite not_elem_of_cons. naive_solver. Qed.

Lemma ref_flags_cur f s f' s' : ref_flags f s = (f', s') → nul_free s → nul_free s'.
Proof.
  revert f. induction s as [|c s IH]; simpl; intros f; [by intros [= <- <-]|].
  destruct (flag_of c); [|by intros [= <- <-]]. intros E Hn. eapply IH; [done|]. by apply nul_free_cons in Hn as [].
Qed.

Lemma flags_run n f s cf mi ma args k f' s' :
  nul_free s → ref_flags f s = (f', s') →
  ∃ st, runs_to n (Dp s DP_S_FLAGS f cf mi ma args) k (Dp s' st f' cf mi ma args) k ∧
    (if decide (s' = []) then st ≠ DP_S_DONE else st = DP_S_MIN).
Proof.
  revert f. induction s as [|c s IH]; simpl; intros f Hn E.
  { injection E as <- <-. exists DP_S_FLAGS. split; [apply runs_to_refl|done]. }
  destruct (nul_free_cons _ _ Hn) as [Hc Hs]. destruct (flag_of c) as [g|] eqn:Ef.
  - destruct (IH _ Hs E) as (st & Hr & Hst). exists st. split; [|done].
    eapply runs_to_trans; [|exact Hr]. step1. unfold dp_step. cbn [p_state]. unfold p_ch. cbn.
    by rewrite Ef.
  - injection E as <- <-. exists DP_S_MIN. split; [|done]. step1.
    unfold dp_step. cbn [p_state]. unfold p_ch. cbn. by rewrite Ef.
Qed.

Lemma ref_number_suffix m s m' s' : ref_number m s = Ok (m', s') → nul_free s → nul_free s'.
Proof.
  revert m. induction s as [|c s IH]; simpl; intros m; [by intros [= <- <-]|].
  destruct (isdigit c); [|by intros [= <- <-]]. destruct (add_digit m c); try done.
  intros E Hn. eapply IH; [done|]. by apply nul_free_cons in Hn as [].
Qed.

Lemma min_number_run n s f cf m ma args k m' s' :
  nul_free s → ref_number m s = Ok (m', s') →
  runs_to n (Dp s DP_S_MIN f cf m ma args) k (Dp s' DP_S_MIN f cf m' ma args) k ∧
  match s' with c :: _ => isdigit c = false | [] => True end.
Proof.
  revert m. induction s as [|c s IH]; simpl; intros m Hn E.
  { injection E as <- <-. split; [apply runs_to_refl|done]. }
  destruct (nul_free_cons _ _ Hn) as [Hc Hs]. destruct (isdigit c) eqn:Ed.
  - destruct (add_digit m c) as [m1| | |] eqn:Ea; try done. destruct (IH _ Hs E) as [Hr Hd]. split; [|done].
    eapply runs_to_trans; [|exact Hr]. step1. unfold dp_step. cbn [p_state]. unfold p_ch. cbn.
    rewrite Ed. unfold bind, throw. by rewrite Ea.
  - injection E as <- <-. split; [apply runs_to_refl|done].
Qed.

(** The precision starts at -1, which counts as 0 once a digit is there. *)
Lemma max_number_run n s f cf mi m args k m' s' :
  nul_free s → ref_number (if (m <? 0)%Z then 0%Z else m) s = Ok (m', s') →
  (match s with c :: _ => isdigit c = true | [] => False end ∨ (0 ≤ m)%Z) →
  runs_to n (Dp s DP_S_MAX f cf mi m args) k (Dp s' DP_S_MAX f cf mi m' args) k ∧
  match s' with c :: _ => isdigit c = false | [] => True end.
Proof.
  revert m. induction s as [|c s IH]; simpl; intros m Hn E Hm.
  { injection E as <- <-. destruct Hm as [[]|Hm]. rewrite (proj2 (Z.ltb_ge m 0)) by lia.
    split; [apply runs_to_refl|done]. }
  destruct (nul_free_cons _ _ Hn) as [Hc Hs]. destruct (isdigit c) eqn:Ed.
  - destruct (add_digit _ c) as [m1| | |] eqn:Ea; try done.
    assert (0 ≤ m1)%Z as Hm1.
    { unfold add_digit in Ea. unfold isdigit in Ed. apply andb_true_iff in Ed as [Ed%Z.leb_le _].
      destruct (INT_MAX <? _)%Z; [done|]. injection Ea as <-. destruct (Z.ltb_spec m 0); lia. }
    destruct (IH m1 Hs) as [Hr Hd]; [|by right|].
    { by rewrite (proj2 (Z.ltb_ge m1 0)) by lia. }
    split; [|done]. eapply runs_to_trans; [|exact Hr]. step1.
    unfold dp_step. cbn [p_state]. unfold p_ch. cbn. rewrite Ed. unfold bind, throw. by rewrite Ea.
  - injection E as <- <-. destruct Hm as [Hm|Hm]; [done|]. rewrite (proj2 (Z.ltb_ge m 0)) by lia.
    split; [apply runs_to_refl|done].
Qed.

Lemma ref_star_cases m s args m' s' args' :
  ref_star m s args = Ok (m', s', args') → nul_free s →
  nul_free s' ∧
  ((∃ z, s = "*"%char :: s' ∧ va_int args = Ok (z, args') ∧ m' = z) ∨
   (match s with c :: _ => c ≠ "*"%char | [] => True end ∧ s' = s ∧ m' = m ∧ args' = args)).
Proof.
  unfold ref_star. intros E Hn.
  destruct s as [|c s]; [injection E as <- <- <-; split; [done|by right]|].
  destruct (decide (c = "*"%char)) as [-> |Hc].
  - destruct (va_int args) as [[z a]| | |]; try done. injection E as <- <- <-.
    apply nul_free_cons in Hn as [_ Hn]. split; [done|]. left. by exists z.
  - assert (Ok (m, c :: s, args) = Ok (m', s', args')) as E' by (destruct c as [[] [] [] [] [] [] [] []]; done).
    injection E' as <- <- <-. split; [done|]. by right.
Qed.

Lemma width_run n s f cf ma args k m' s' args' :
  nul_free s → s ≠ [] → ref_width s args = Ok (m', s', args') →
  nul_free s' ∧
  ∃ st, runs_to n (Dp s DP_S_MIN f cf 0 ma args) k (Dp s' st f cf m' ma args') k ∧
    (if decide (s' = []) then st ≠ DP_S_DONE else st = DP_S_DOT).
Proof.
  intros Hn Hne E. unfold ref_width in E. destruct (ref_number 0 s) as [[m1 s1]| | |] eqn:E1; try done.
  pose proof (ref_number_suffix _ _ _ _ E1 Hn) as Hn1.
  destruct (min_number_run n s f cf 0 ma args k m1 s1 Hn E1) as [Hr Hd].
  destruct (ref_star_cases _ _ _ _ _ _ E Hn1) as [Hn' [(z & -> & Ez & ->)|(Hst & -> & -> & ->)]].
  - split; [done|]. exists DP_S_DOT. split; [|by destruct (decide _)].
    eapply runs_to_trans; [exact Hr|]. step1. unfold dp_step. cbn [p_state]. unfold p_ch. cbn.
    unfold bind, throw. by rewrite Ez.
  - split; [done|]. destruct s1 as [|c s1].
    { exists DP_S_MIN. by split. }
    exists DP_S_DOT. split; [|done]. eapply runs_to_trans; [exact Hr|].
    apply nul_free_cons in Hn1 as [Hc _]. step1. unfold dp_step. cbn [p_state]. unfold p_ch. cbn.
    rewrite Hd. by rewrite (proj2 (ceqb_false c "*")) by done.
Qed.

Lemma precision_run n s f cf mi args k m' s' args' :
  nul_free s → s ≠ [] → ref_precision s args = Ok (m', s', args') →
  nul_free s' ∧
  ∃ st, runs_to n (Dp s DP_S_DOT f cf mi (-1) args) k (Dp s' st f cf mi m' args') k ∧
    (if decide (s' = []) then st ≠ DP_S_DONE else st = DP_S_MOD).
Proof.
  intros Hn Hne E. destruct s as [|c s]; [done|]. pose proof (nul_free_cons _ _ Hn) as [Hc Hs].
  destruct (decide (c = "."%char)) as [-> |Hdot].
  2:{ assert (Ok (-1, c :: s, args)%Z = Ok (m', s', args')) as E'
        by (unfold ref_precision in E; destruct c as [[] [] [] [] [] [] [] []]; done).
      injection E' as <- <- <-. split; [done|]. exists DP_S_MOD. split; [|done]. step1.
      unfold dp_step. cbn [p_state]. unfold p_ch. cbn. by rewrite (proj2 (ceqb_false c ".")) by done. }
  cbn [ref_precision] in E.
  assert (∀ st', runs_to n (Dp s DP_S_MAX f cf mi (-1) args) k st' k →
    runs_to n (Dp ("."%char :: s) DP_S_DOT f cf mi (-1) args) k st' k) as Hdotted.
  { intros st' Hr. eapply runs_to_trans; [|exact Hr]. by step1. }
  destruct s as [|c s].
  { injection E as <- <- <-. split; [done|]. exists DP_S_MAX. split; [|done]. apply Hdotted, runs_to_refl. }
  pose proof (nul_free_cons _ _ Hs) as [Hc' Hs'].
  destruct (isdigit c) eqn:Ed.
  - destruct (ref_number 0 (c :: s)) as [[m1 s1]| | |] eqn:E1; try done.
    pose proof (ref_number_suffix _ _ _ _ E1 Hs) as Hn1.
    destruct (max_number_run n (c :: s) f cf mi (-1) args k m1 s1 Hs E1) as [Hr Hd]; [by left|].
    destruct (ref_star_cases _ _ _ _ _ _ E Hn1) as [Hn' [(z & -> & Ez & ->)|(Hst & -> & -> & ->)]].
    + split; [done|]. exists DP_S_MOD. split; [|by destruct (decide _)]. apply Hdotted.
      eapply runs_to_trans; [exact Hr|]. step1. unfold dp_step. cbn [p_state]. unfold p_ch. cbn.
      unfold bind, throw. by rewrite Ez.
    + split; [done|]. destruct s1 as [|c1 s1].
      { exists DP_S_MAX. split; [by apply Hdotted|done]. }
      exists DP_S_MOD. split; [|done]. apply Hdotted. eapply runs_to_trans; [exact Hr|].
      apply nul_free_cons in Hn1 as [Hc1 _]. step1. unfold dp_step. cbn [p_state]. unfold p_ch. cbn.
      rewrite Hd. by rewrite (proj2 (ceqb_false c1 "*")) by done.
  - destruct (ref_star_cases _ _ _ _ _ _ E Hs) as [Hn' [(z & [= -> ->] & Ez & ->)|(Hst & -> & -> & ->)]].
    + split; [done|]. exists DP_S_MOD. split; [|by destruct (decide _)]. apply Hdotted.
      step1. unfold dp_step. cbn [p_state]. unfold p_ch. cbn. unfold bind, throw. by rewrite Ez.
    + split; [done|]. exists DP_S_MOD. split; [|done]. apply Hdotted.
      step1. unfold dp_step. cbn [p_state]. unfold p_ch. cbn. rewrite Ed.
      by rewrite (proj2 (ceqb_false c "*")) by done.
Qed.

Lemma size_run n s f mi ma args k cf s' :
  nul_free s → s ≠ [] → ref_size s = (cf, s') →
  nul_free s' ∧
  runs_to n (Dp s DP_S_MOD f DP_C_NONE mi ma args) k (Dp s' DP_S_CONV f cf mi ma args) k.
Proof.
  intros Hn Hne E. destruct s as [|c s]; [done|]. pose proof (nul_free_cons _ _ Hn) as [Hc Hs].
  destruct (decide (c = "h"%char)) as [-> |Hh].
  { injection E as <- <-. split; [done|]. by step1. }
  destruct (decide (c = "L"%char)) as [-> |HL].
  { injection E as <- <-. split; [done|]. by step1. }
  destruct (decide (c = "l"%char)) as [-> |Hl].
  - destruct s as [|c s]; [injection E as <- <-; split; [done|]; by step1|].
    pose proof (nul_free_cons _ _ Hs) as [Hc' Hs'].
    destruct (decide (c = "l"%char)) as [-> |Hl].
    + injection E as <- <-. split; [done|]. by step1.
    + assert ((DP_C_LONG, c :: s) = (cf, s')) as E'
        by (unfold ref_size in E; destruct c as [[] [] [] [] [] [] [] []]; done).
      injection E' as <- <-. split; [done|]. step1. unfold dp_step, bind, next_ch, p_ch. cbn.
      by rewrite (proj2 (ceqb_false c "l")) by done.
  - assert ((DP_C_NONE, c :: s) = (cf, s')) as E'
      by (unfold ref_size in E; destruct c as [[] [] [] [] [] [] [] []]; done).
    injection E' as <- <-. split; [done|]. step1. unfold dp_step. cbn [p_state]. unfold p_ch. cbn.
    rewrite (proj2 (ceqb_false c "h")), (proj2 (ceqb_false c "l")), (proj2 (ceqb_false c "L")) by done. done.
Qed.

(** A conversion puts out its text and stores its values. *)
Ltac text_case E o := destruct o as [?s| | |] eqn:?Et; [|done..]; injection E as <- <- <-.

Lemma conv_run n c r f mi ma cf args buf out nums t st args' :
  n ≤ length buf → ref_conv c (Directive f mi ma cf) args (length out) = Ok (t, st, args') →
  ∃ d', dp_conv n (Dp (c :: r) DP_S_CONV f cf mi ma args) (shown n buf out nums) =
      (if ceqb c "w" then next_ch d' else ret d') (shown n buf (out ++ t) (st ++ nums)) ∧
    p_cur d' = c :: r ∧ p_args d' = args'.
Proof.
  intros Hl E. unfold dp_conv. change (p_ch _) with c. cbv zeta. unfold ref_conv in E. cbn [d_flags d_min d_max d_size] in E.
  assert (∀ m (s : cstr) (a : list va_arg) (d : dp), emits n m s () → d = set_p_args a d →
    p_cur d = c :: r → a = args' → s = t → st = [] → ceqb c "w" = false →
    ∃ d', (do! m; ret d) (shown n buf out nums) =
      (if ceqb c "w" then next_ch d' else ret d') (shown n buf (out ++ t) (st ++ nums)) ∧
      p_cur d' = c :: r ∧ p_args d' = args') as Hfin.
  { intros m s a d Hm Hd Hcur -> -> -> ->. exists d. split; [|split; [done|by rewrite Hd]].
    by rewrite (bind_Ok _ _ _ _ _ (Hm buf out nums Hl)). }
  destruct (ceqb c "d" || ceqb c "i") eqn:C1.
  { destruct (arg_signed cf args) as [[v a]| | |] eqn:Ea; try done. cbn [p_cflags p_args p_min p_max p_flags] in *.
    rewrite Ea. unfold bind at 1, throw at 1. text_case E (int_text v 10 mi ma f).
    eapply (Hfin _ _ _ (set_p_args a _)); [by apply emits_fmtint|done..|].
    by destruct (orb_prop _ _ C1) as [->%ceqb_true| ->%ceqb_true]. }
  destruct (ceqb c "o" || ceqb c "u" || ceqb c "x" || ceqb c "X") eqn:C2.
  { assert (ceqb c "w" = false) as Hw.
    { apply ceqb_false. intros ->. done. }
    set (g := Z.lor (if ceqb c "X" then Z.lor f DP_F_UP else f) DP_F_UNSIGNED) in *.
    set (d := Dp (c :: r) DP_S_CONV f cf mi ma args).
    assert (set_p_flag DP_F_UNSIGNED (if ceqb c "X" then set_p_flag DP_F_UP d else d) =
      Dp (c :: r) DP_S_CONV g cf mi ma args) as -> by (subst d g; by destruct (ceqb c "X")).
    cbn [p_cflags p_args p_min p_max p_flags].
    destruct (arg_unsigned cf args) as [[v a]| | |] eqn:Ea; try done.
    unfold bind at 1, throw at 1. text_case E (int_text v (conv_base c) mi ma g).
    by eapply (Hfin _ _ _ (set_p_args a _)); [by apply emits_fmtint|..]. }
  destruct (ceqb c "f" || ceqb c "e" || ceqb c "E" || ceqb c "g" || ceqb c "G") eqn:C3.
  { assert (ceqb c "w" = false) as Hw.
    { apply ceqb_false. intros ->. done. }
    cbn [p_args p_min p_max p_flags] in *. destruct args as [|[| | | |g|] a]; try done.
    text_case E (fp_text g mi ma f).
    by eapply (Hfin _ _ _ (set_p_args a _)); [by apply emits_fmtfp|..]. }
  destruct (ceqb c "c") eqn:C4.
  { apply ceqb_true in C4 as ->. cbn [p_args] in *. destruct (va_int args) as [[z a]| | |] eqn:Ea; try done.
    unfold bind at 1, throw at 1. injection E as <- <- <-.
    by eapply (Hfin _ _ _ (set_p_args a _)); [apply emits_outch|..]. }
  destruct (ceqb c "s") eqn:C5.
  { apply ceqb_true in C5 as ->. cbn [p_args p_min p_max p_flags] in *.
    destruct args as [|[| |v| | |] a]; try done.
    text_case E (str_text (default "(NULL)"%cs v) f mi (str_max (default "(NULL)"%cs v) mi ma)).
    by eapply (Hfin _ _ _ (set_p_args a _)); [by apply emits_fmtstr|..]. }
  destruct (ceqb c "p") eqn:C6.
  { apply ceqb_true in C6 as ->. cbn [p_args p_min p_max p_flags] in *.
    destruct args as [|[| | |z| |] a]; try done. text_case E (int_text z 16 mi ma f).
    by eapply (Hfin _ _ _ (set_p_args a _)); [by apply emits_fmtint|..]. }
  destruct (ceqb c "n") eqn:C7.
  { apply ceqb_true in C7 as ->. cbn [p_args p_cflags] in *.
    destruct args as [|[| | | | |loc] a]; try done. injection E as <- <- <-.
    exists (set_p_args a (Dp ("n"%char :: r) DP_S_CONV f cf mi ma (VaNum loc :: a))).
    rewrite app_nil_r. by split. }
  destruct (ceqb c "%") eqn:C8.
  { apply ceqb_true in C8 as ->. injection E as <- <- <-.
    by eapply (Hfin _ _ args); [apply emits_outch|..]. }
  injection E as <- <- <-. rewrite app_nil_r. by eexists.
Qed.

(** After a directive the machine is back at the start, or the format is at
    its end in some other state. *)
Definition settled (s : cstr) (args : list va_arg) (d : dp) : Prop :=
  p_cur d = s ∧
  ((s = [] ∧ p_state d ≠ DP_S_DONE) ∨ d = Dp s DP_S_DEFAULT 0 DP_C_NONE 0 (-1) args).

(** The phases of a directive at the end of the format leave it there. *)
Lemma ref_end args : ref_width [] args = Ok (0%Z, [], args) ∧ ref_precision [] args = Ok ((-1)%Z, [], args) ∧
  ref_size [] = (DP_C_NONE, []).
Proof. done. Qed.

Lemma directive_run n s args buf out nums t st args' s' :
  n ≤ length buf → nul_free s → ref_directive s args (length out) = Ok (t, st, args', s') →
  nul_free s' ∧ ∃ d, runs_to n (Dp s DP_S_FLAGS 0 DP_C_NONE 0 (-1) args) (shown n buf out nums)
    d (shown n buf (out ++ t) (st ++ nums)) ∧ settled s' args' d.
Proof.
  intros Hl Hn E. unfold ref_directive in E. destruct (ref_flags 0 s) as [f s1] eqn:E1.
  pose proof (ref_flags_cur _ _ _ _ E1 Hn) as Hn1.
  destruct (flags_run n 0 s DP_C_NONE 0 (-1) args (shown n buf out nums) f s1 Hn E1) as (st1 & R1 & S1).
  assert (∀ cur d', cur = [] → runs_to n (Dp s DP_S_FLAGS 0 DP_C_NONE 0 (-1) args) (shown n buf out nums) d' (shown n buf out nums) →
    p_cur d' = cur → p_state d' ≠ DP_S_DONE → ∀ t st args' s' (a : list va_arg),
    Ok (([] : cstr), ([] : list (nat * Z)), a, ([] : cstr)) = Ok (t, st, args', s') → nul_free s' ∧ ∃ d, runs_to n (Dp s DP_S_FLAGS 0 DP_C_NONE 0 (-1) args) (shown n buf out nums)
      d (shown n buf (out ++ t) (st ++ nums)) ∧ settled s' args' d) as Hend.
  { intros cur d' -> Hr Hcur Hst ? ? ? ? a [= <- <- <- <-]. split; [unfold nul_free; set_solver|].
    exists d'. rewrite app_nil_r. split; [done|]. split; [done|]. by left. }
  case_decide as D1.
  { subst s1. eapply (Hend [] _ eq_refl R1); [done|done|exact E]. }
  subst st1. destruct (ref_width s1 args) as [[[mi s2] a2]| | |] eqn:E2; try done.
  destruct (width_run n s1 f DP_C_NONE (-1) args (shown n buf out nums) mi s2 a2 Hn1 D1 E2) as [Hn2 (st2 & R2 & S2)].
  pose proof (runs_to_trans _ _ _ _ _ _ _ R1 R2) as R12. case_decide as D2.
  { subst s2. eapply (Hend [] _ eq_refl R12); [done|done|exact E]. }
  subst st2. destruct (ref_precision s2 a2) as [[[ma s3] a3]| | |] eqn:E3; try done.
  destruct (precision_run n s2 f DP_C_NONE mi a2 (shown n buf out nums) ma s3 a3 Hn2 D2 E3) as [Hn3 (st3 & R3 & S3)].
  pose proof (runs_to_trans _ _ _ _ _ _ _ R12 R3) as R13. case_decide as D3.
  { subst s3. eapply (Hend [] _ eq_refl R13); [done|done|exact E]. }
  subst st3. destruct (ref_size s3) as [cf s4] eqn:E4.
  destruct (size_run n s3 f mi ma a3 (shown n buf out nums) cf s4 Hn3 D3 E4) as [Hn4 R4].
  pose proof (runs_to_trans _ _ _ _ _ _ _ R13 R4) as R14.
  destruct s4 as [|c r]; [eapply (Hend [] _ eq_refl R14); [done|done|exact E]|].
  apply nul_free_cons in Hn4 as [Hc Hr].
  destruct (ref_conv c (Directive f mi ma cf) a3 (length out)) as [[[t1 w1] a4]| | |] eqn:E5; try done.
  destruct (conv_run n c r f mi ma cf a3 buf out nums t1 w1 a4 Hl E5) as (d5 & R5 & Hcur & Hargs).
  assert (∀ s'' , (if ceqb c "w" then ∃ x, r = x :: s'' else r = s'') → t1 = t → w1 = st → a4 = args' → s'' = s' →
    nul_free s' ∧ ∃ d, runs_to n (Dp s DP_S_FLAGS 0 DP_C_NONE 0 (-1) args) (shown n buf out nums)
      d (shown n buf (out ++ t) (st ++ nums)) ∧ settled s' args' d) as Hfin.
  { intros s'' Hs'' -> -> -> ->. split.
    { destruct (ceqb c "w"); [destruct Hs'' as [x ->]; by apply nul_free_cons in Hr as []|by subst]. }
    exists (Dp s' DP_S_DEFAULT 0 DP_C_NONE 0 (-1) args'). split; [|split; [done|by right]].
    eapply runs_to_trans; [exact R14|]. eapply runs_to_step; [reflexivity|done|done| |].
    - unfold dp_step. cbn [p_state]. unfold bind at 1. rewrite R5.
      destruct (ceqb c "w").
      + destruct Hs'' as [x ->]. unfold next_ch at 1. rewrite Hcur. cbn. by rewrite Hargs.
      + subst r. unfold ret at 1. unfold bind, next_ch. rewrite Hcur. cbn. by rewrite Hargs.
    - unfold todo. simpl. destruct (ceqb c "w"); [destruct Hs'' as [x ->]|subst r]; simpl; lia. }
  destruct (ceqb c "w") eqn:Cw.
  - destruct r as [|x r]; [done|]. injection E as <- <- <- <-. eapply (Hfin r); eauto.
  - injection E as <- <- <- <-. by eapply (Hfin r).
Qed.

(** At the end of the format the loop stops. *)
Lemma loop_end n fuel d k :
  p_cur d = [] → p_state d ≠ DP_S_DONE → 2 ≤ fuel → dopr_loop fuel n d k = (Ok (), k).
Proof.
  intros Hc Hs Hf. destruct fuel as [|[|fuel]]; [lia|lia|]. cbn [dopr_loop].
  rewrite decide_False by done. unfold p_ch. rewrite Hc. unfold ceqb. rewrite bool_decide_true by done.
  done.
Qed.

Lemma format_run m n s args buf out nums out' nums' :
  n ≤ length buf → nul_free s → ref_format m s args out nums = Ok (out', nums') →
  ∃ d, runs_to n (Dp s DP_S_DEFAULT 0 DP_C_NONE 0 (-1) args) (shown n buf out nums)
    d (shown n buf out' nums') ∧ p_cur d = [] ∧ p_state d ≠ DP_S_DONE.
Proof.
  intros Hl. revert s args out nums. induction m as [|m IH]; intros s args out nums Hn E; [done|].
  cbn [ref_format] in E. destruct s as [|c s].
  { injection E as <- <-. exists (Dp [] DP_S_DEFAULT 0 DP_C_NONE 0 (-1) args). split; [apply runs_to_refl|done]. }
  apply nul_free_cons in Hn as [Hc Hs]. destruct (ceqb c "%") eqn:Cp.
  - apply ceqb_true in Cp as ->.
    destruct (ref_directive s args (length out)) as [[[[t st] a] s1]| | |] eqn:E1; try done.
    destruct (directive_run n s args buf out nums t st a s1 Hl Hs E1) as [Hn1 (d1 & R1 & Hcur & Hd1)].
    assert (runs_to n (Dp ("%"%char :: s) DP_S_DEFAULT 0 DP_C_NONE 0 (-1) args) (shown n buf out nums)
              d1 (shown n buf (out ++ t) (st ++ nums))) as R.
    { eapply runs_to_trans; [|exact R1]. by step1. }
    destruct Hd1 as [[-> Hst]| ->].
    + destruct m; [done|]. cbn [ref_format] in E. injection E as <- <-. by exists d1.
    + destruct (IH s1 a (out ++ t) (st ++ nums) Hn1 E) as (d & Rd & ?). exists d. split; [|done].
      by eapply runs_to_trans.
  - destruct (IH s args (out ++ [c]) nums Hs E) as (d & Rd & ?). exists d. split; [|done].
    eapply runs_to_trans; [|exact Rd]. eapply runs_to_step; [reflexivity|done|done| |].
    + unfold dp_step. cbn [p_state]. change (p_ch _) with c. rewrite Cp.
      by rewrite (bind_Ok _ _ _ _ _ (emits_outch n c buf out nums Hl)).
    + unfold todo. simpl. lia.
Qed.

(** What the caller's buffer holds: as much as there is room for beside the
    terminator, which is always stored, and what was there before. *)
Definition stored (count : nat) (str out : cstr) : cstr :=
  match count with
  | 0 => str
  | S c => take c out ++ NUL :: drop (S (Nat.min c (length out))) str
  end.

Lemma insert_mid {A} (x y z : list A) (a b : A) : <[length x := b]> (x ++ a :: z) = x ++ b :: z.
Proof. rewrite insert_app_r_alt by lia. by rewrite Nat.sub_diag. Qed.

Lemma put_nul_shown count str out nums :
  count ≤ length str →
  (if decide (count ≠ 0) then
     if (length out <? count - 1) then put_nul (length out) else put_nul (count - 1)
   else ret ()) (shown count str out nums) = (Ok (), Sink (stored count str out) (length out) nums).
Proof.
  intros Hl. destruct count as [|c]; [done|]. rewrite decide_True by done.
  replace (S c - 1) with c by lia.
  destruct (Nat.ltb_spec (length out) c) as [Hlt|Hge]; unfold put_nul, shown;
    cbn [k_buf k_len k_nums stored]; rewrite length_app, length_take, length_drop.
  - rewrite (proj2 (Nat.ltb_lt _ _)) by lia. rewrite !take_ge by lia. rewrite !Nat.min_r by lia.
    destruct (lookup_lt_is_Some_2 str (length out)) as [x Hx]; [lia|].
    rewrite (drop_S _ _ _ Hx). by rewrite (insert_mid out out).
  - rewrite (proj2 (Nat.ltb_lt _ _)) by lia. rewrite (Nat.min_l c (length out)) by lia. do 3 f_equal.
    destruct (decide (length out = c)) as [<-|Hne].
    + rewrite !take_ge by lia. rewrite Nat.min_r by lia.
      destruct (lookup_lt_is_Some_2 str (length out)) as [x Hx]; [lia|].
      rewrite (drop_S _ _ _ Hx). by rewrite (insert_mid out out).
    + rewrite Nat.min_l by lia. destruct (lookup_lt_is_Some_2 out c) as [x Hx]; [lia|].
      rewrite (take_S_r _ _ _ Hx), <- app_assoc. cbn [app].
      rewrite <- (length_take_le out c) at 1 by lia. by rewrite (insert_mid _ out).
Qed.

(** The engine on a buffer. *)
Lemma dopr_shown count fmt args str out nums :
  nul_free fmt → format_output fmt args = Ok (out, nums) → count ≤ length str →
  dopr count fmt args (Sink str 0 []) = (Ok (length out), Sink (stored count str out) (length out) nums).
Proof.
  intros Hn E Hl. destruct (format_run _ count fmt args str [] [] out nums Hl Hn E) as (d & (n & Hb & R) & Hc & Hs).
  unfold dopr.
  assert (Sink str 0 [] = shown count str [] []) as ->.
  { unfold shown. by rewrite take_nil, Nat.min_0_r. }
  assert (2 ≤ dopr_fuel fmt - n) as Hf.
  { unfold dopr_fuel, todo in *. cbn [p_cur p_state dp_rank] in Hb. lia. }
  pose proof (loop_end count (dopr_fuel fmt - n) d (shown count str out nums) Hc Hs Hf) as He.
  rewrite <- R in He. replace (n + (dopr_fuel fmt - n)) with (dopr_fuel fmt) in He by lia.
  rewrite (bind_Ok _ _ _ _ _ He). erewrite bind_Ok by done. cbn [k_len shown].
  by rewrite (bind_Ok _ _ _ _ _ (put_nul_shown count str out nums Hl)).
Qed.

(** C21. Bounded output.  vsnprintf puts into the buffer as much of the output of
    the format as fits beside the terminator, stores nothing behind that
    and returns the whole length, whatever the size of the buffer: the
    state machine that reads the format agrees with its grammar. *)
Theorem vsnprintf_refines (fmt : cstr) (args : list va_arg) (out : cstr) (nums : list (nat * Z))
    (str : cstr) (count : nat) :
  nul_free fmt → format_output fmt args = Ok (out, nums) → count ≤ length str →
  vsnprintf str count fmt args = Ok (s32 (Z.of_nat (length out)), stored count str out, nums).
Proof. intros Hn E Hl. unfold vsnprintf. by rewrite (dopr_shown count fmt args str out nums). Qed.

(** ** Types of formats *)

(** What a directive takes: [TWidth] is an [int] that serves as a width, [TLong]
    and [TULong] a 64-bit integer for a signed and for an unsigned conversion. *)
Inductive va_type := TInt | TWidth | TLong | TULong | TStr | TPtr | TDouble | TNum.

(** The argument is of the C type, with any value of that type. *)
Definition has_type (a : va_arg) (t : va_type) : bool :=
  match a, t with
  | VaInt z, (TInt | TWidth) => (- 2 ^ 31 <=? z)%Z && (z <=? INT_MAX)%Z
  | VaLong z, (TLong | TULong) | VaPtr z, TPtr => (LONG_MIN <=? z)%Z && (z <=? LONG_MAX)%Z
  | VaStr _, TStr | VaDouble _, TDouble | VaNum _, TNum => true
  | _, _ => false
  end.

(** The arithmetic of [fmtfp] is defined on the number, with any precision. *)
Definition fp_defined (f : spec_float) : bool :=
  forallb (λ max, match fp_parts (abs_val f) (Z.of_nat max) with Ok _ => true | _ => false end) (seq 0 17).

(** The values of a type for which the conversion is defined: not LONG_MIN for
    one that negates, no negative width, no string beyond an [int], and of the
    doubles those for which the code can compute the digits. *)
Definition in_domain (a : va_arg) (t : va_type) : bool :=
  match a, t with
  | VaLong z, TLong | VaPtr z, TPtr => negb (z =? LONG_MIN)%Z
  | VaInt z, TWidth => (0 <=? z)%Z
  | VaStr s, TStr => (Z.of_nat (length (default "(NULL)"%cs s)) <=? INT_MAX)%Z
  | VaDouble f, TDouble => fp_defined f
  | _, _ => true
  end.

(** The arguments a format asks for are there, each one with the property; there
    may be more. *)
Fixpoint args_all (P : va_arg → va_type → bool) (ts : list va_type) (args : list va_arg) : bool :=
  match ts, args with
  | [], _ => true
  | t :: ts, a :: args => P a t && args_all P ts args
  | _, [] => false
  end.

Definition fits (a : va_arg) (t : va_type) : bool := has_type a t && in_domain a t.
Definition args_ok : list va_type → list va_arg → bool := args_all fits.

Lemma args_ok_both ts args : args_all has_type ts args = true → args_all in_domain ts args = true → args_ok ts args = true.
Proof.
  revert args. induction ts as [|t ts IH]; intros [|a args]; try done. simpl.
  intros [H1 H2]%andb_true_iff [H3 H4]%andb_true_iff. unfold args_ok, fits. simpl. rewrite H1, H3. by apply IH.
Qed.

Definition ty_star (t : va_type) (s : cstr) : list va_type * cstr :=
  match s with "*"%char :: r => ([t], r) | _ => ([], s) end.

Definition ty_number (t : va_type) (s : cstr) : option (list va_type * cstr) :=
  match ref_number 0 s with Ok (_, s) => Some (ty_star t s) | _ => None end.

Definition ty_precision (s : cstr) : option (list va_type * cstr) :=
  match s with
  | "."%char :: s =>
      match s with
      | c :: _ => if isdigit c then ty_number TInt s else Some (ty_star TInt s)
      | [] => Some ([], [])
      end
  | _ => Some ([], s)
  end.

Definition ty_int (size : dp_cflags) (long : va_type) : va_type :=
  match size with DP_C_LONG | DP_C_LLONG => long | _ => TInt end.

Definition ty_conv (c : ascii) (size : dp_cflags) : list va_type :=
  if ceqb c "d" || ceqb c "i" then [ty_int size TLong]
  else if ceqb c "o" || ceqb c "u" || ceqb c "x" || ceqb c "X" then [ty_int size TULong]
  else if ceqb c "f" || ceqb c "e" || ceqb c "E" || ceqb c "g" || ceqb c "G" then [TDouble]
  else if ceqb c "c" then [TInt]
  else if ceqb c "s" then [TStr]
  else if ceqb c "p" then [TPtr]
  else if ceqb c "n" then [TNum]
  else [].

Definition ty_directive (s : cstr) : option (list va_type * cstr) :=
  let '(_, s) := ref_flags 0 s in
  match ty_number TWidth s with
  | None => None
  | Some (t1, s) =>
      match ty_precision s with
      | None => None
      | Some (t2, s) =>
          let '(size, s) := ref_size s in
          match s with
          | [] => Some (t1 ++ t2, [])
          | c :: r =>
              let t3 := ty_conv c size in
              if ceqb c "w" then match r with [] => None | _ :: r => Some (t1 ++ t2 ++ t3, r) end
              else Some (t1 ++ t2 ++ t3, r)
          end
      end
  end.

(** The types of the arguments a format takes, in order; there are none for a
    format whose widths and precisions do not fit an [int], or that ends in [%w]. *)
Fixpoint ty_format (fuel : nat) (s : cstr) : option (list va_type) :=
  match fuel with
  | 0 => None
  | S fuel =>
      match s with
      | [] => Some []
      | c :: s =>
          if ceqb c "%" then
            match ty_directive s with
            | Some (ts, s) => option_map (app ts) (ty_format fuel s)
            | None => None
            end
          else ty_format fuel s
      end
  end.

Definition format_type (fmt : cstr) : option (list va_type) := ty_format (S (length fmt)) fmt.

Lemma args_ok_cons t ts args :
  args_ok (t :: ts) args = true → ∃ a args', args = a :: args' ∧ fits a t = true ∧ args_ok ts args' = true.
Proof. destruct args as [|a args]; [done|]. unfold args_ok. simpl. intros [? ?]%andb_true_iff. eauto. Qed.

(** What may come out for a type. *)
Definition int_of_type (t : va_type) (z : Z) : Prop :=
  match t with TWidth => (0 ≤ z ≤ INT_MAX)%Z | _ => (z ≤ INT_MAX)%Z end.

Lemma ref_star_typed t m s args ts s' ts' :
  t = TWidth ∨ t = TInt → int_of_type t m →
  ty_star t s = (ts, s') → args_ok (ts ++ ts') args = true →
  ∃ m' args', ref_star m s args = Ok (m', s', args') ∧ int_of_type t m' ∧ args_ok ts' args' = true.
Proof.
  intros Ht Hm E Ha. destruct s as [|c s]; [injection E as <- <-; by eexists _, _|].
  destruct (decide (c = "*"%char)) as [-> |Hc].
  - injection E as <- <-. destruct (args_ok_cons _ _ _ Ha) as (a & args' & -> & Hta & Ha').
    destruct Ht as [-> | ->], a; try done; eexists _, _; (split; [done|]); (split; [|done]);
      unfold fits, has_type, in_domain, int_of_type, INT_MAX in *; lia.
  - assert (([], c :: s) = (ts, s')) as E' by (unfold ty_star in E; destruct c as [[] [] [] [] [] [] [] []]; done).
    injection E' as <- <-. exists m, args. split; [|done]. unfold ref_star.
    destruct c as [[] [] [] [] [] [] [] []]; done.
Qed.

Lemma isdigit_code c : isdigit c = true → (48 ≤ code c ≤ 57)%Z.
Proof. destruct c as [[] [] [] [] [] [] [] []]; vm_compute; done. Qed.

Lemma ref_number_range m s m' s' :
  (0 ≤ m ≤ INT_MAX)%Z → ref_number m s = Ok (m', s') → (0 ≤ m' ≤ INT_MAX)%Z.
Proof.
  revert m. induction s as [|c s IH]; intros m Hm E; cbn [ref_number] in E; [by injection E as <- <-|].
  destruct (isdigit c) eqn:Ed; [|by injection E as <- <-].
  apply isdigit_code in Ed. unfold add_digit in E. destruct (Z.ltb_spec INT_MAX (10 * m + (code c - 48))); [done|].
  eapply IH; [|exact E]. lia.
Qed.

Lemma ref_number_typed t (s : cstr) args ts s' ts' :
  t = TWidth ∨ t = TInt → ty_number t s = Some (ts, s') → args_ok (ts ++ ts') args = true →
  ∃ m' args', ref_width s args = Ok (m', s', args') ∧ int_of_type t m' ∧ args_ok ts' args' = true.
Proof.
  unfold ty_number, ref_width. destruct (ref_number 0 s) as [[m s1]| | |] eqn:En; try done. intros Ht [= E].
  apply ref_number_range in En; [|unfold INT_MAX; lia].
  apply ref_star_typed; [done| |done]. destruct Ht as [-> | ->]; simpl; lia.
Qed.

Lemma ref_precision_typed s args ts s' ts' :
  ty_precision s = Some (ts, s') → args_ok (ts ++ ts') args = true →
  ∃ m' args', ref_precision s args = Ok (m', s', args') ∧ (m' ≤ INT_MAX)%Z ∧ args_ok ts' args' = true.
Proof.
  intros E Ha. destruct s as [|c s]; [injection E as <- <-; by eexists _, _|].
  destruct (decide (c = "."%char)) as [-> |Hc].
  - cbn [ty_precision ref_precision] in *. destruct s as [|c s]; [injection E as <- <-; by eexists _, _|].
    destruct (isdigit c); [by apply (ref_number_typed TInt _ _ ts); [right|..]|].
    injection E as E. by apply (ref_star_typed TInt _ _ _ ts); [right|..].
  - assert (Some ([], c :: s) = Some (ts, s')) as E'
      by (unfold ty_precision in E; destruct c as [[] [] [] [] [] [] [] []]; done).
    injection E' as <- <-. exists (-1)%Z, args. split; [|done]. unfold ref_precision.
    destruct c as [[] [] [] [] [] [] [] []]; done.
Qed.

Lemma int_pads_typed place signs mi ma f :
  (place ≤ 19)%Z → (0 ≤ signs ≤ 1)%Z → (0 ≤ mi ≤ INT_MAX)%Z → (0 ≤ ma ≤ INT_MAX)%Z →
  ∃ z s, int_pads place signs mi ma f = Ok (z, s).
Proof.
  intros Hp Hs Hmi Hma. unfold int_pads. rewrite int_val_in by (unfold INT_MAX in *; lia).
  destruct (has_flag f DP_F_ZERO); eauto.
Qed.

Lemma int_text_typed v base mi ma f :
  v ≠ LONG_MIN ∨ has_flag f DP_F_UNSIGNED = true → (0 ≤ mi ≤ INT_MAX)%Z → (ma ≤ INT_MAX)%Z →
  ∃ s, int_text v base mi ma f = Ok s.
Proof.
  intros Hv Hmi Hma. unfold int_text.
  assert (∃ sign u, int_sign v f = Ok (sign, u) ∧ length sign ≤ 1) as (sign & u & -> & Hs).
  { unfold int_sign. destruct Hv as [Hv | ->]; [rewrite (proj2 (Z.eqb_neq v LONG_MIN)) by done|];
      simpl; repeat case_match; eexists _, _; (split; [done|]); simpl; lia. }
  assert (length (convert (has_flag f DP_F_UP) base u) ≤ 19) as Hp by (unfold convert; rewrite length_take; lia).
  cbv zeta. destruct (int_pads_typed (Z.of_nat (length (convert (has_flag f DP_F_UP) base u)))
    (Z.of_nat (length sign)) mi (Z.max 0 ma) f) as (z & p & ->); [unfold INT_MAX in *; lia..|]. eauto.
Qed.

Lemma str_text_typed v f mi ma :
  fits (VaStr v) TStr = true → (0 ≤ mi ≤ INT_MAX)%Z → ∃ s, str_text (default "(NULL)"%cs v) f mi ma = Ok s.
Proof.
  cbn [fits has_type in_domain andb]. intros Ht%Z.leb_le Hmi. unfold str_text, INT_MAX in *. rewrite !int_val_in by (unfold INT_MAX; lia). eauto.
Qed.

Lemma fp_parts_short f max ic fc : fp_parts f max = Ok (ic, fc) → length ic ≤ 310.
Proof.
  unfold fp_parts. destruct (my_modf _ _) as [[? ip]| | |]; try discriminate.
  destruct (ROUND _) as [r|]; [|discriminate]. cbv zeta. destruct (if SFleb _ _ then _ else _) as [ip' fr].
  destruct (fp_digits 311 ip') as [ds| | |]; try discriminate.
  destruct (if f_nonzero fr then _ else _) as [ds'| | |]; try discriminate.
  intros E. injection E as <- <-. rewrite length_take. apply Nat.le_min_l.
Qed.

Lemma has_flag_lor f b : (b ≠ 0)%Z → has_flag (Z.lor f b) b = true.
Proof.
  intros Hb. unfold has_flag. apply negb_true_iff, Z.eqb_neq. rewrite Z.land_lor_distr_l, Z.land_diag.
  intros [_ ?]%Z.lor_eq_0_iff. done.
Qed.

Lemma fp_text_typed f mi ma fl :
  fp_defined f = true → (0 ≤ mi ≤ INT_MAX)%Z → ∃ s, fp_text f mi ma fl = Ok s.
Proof.
  intros Hf Hmi. unfold fp_text. set (max := Z.min 16 _).
  assert (0 ≤ max ≤ 16)%Z as Hm by (unfold max; destruct (Z.ltb_spec ma 0); lia). clearbody max.
  unfold fp_defined in Hf. rewrite forallb_forall in Hf. specialize (Hf (Z.to_nat max)).
  rewrite Z2Nat.id in Hf by lia. pose proof (fp_parts_short (abs_val f) max) as Hs.
  destruct (fp_parts (abs_val f) max) as [[ic fc]| | |]; [specialize (Hs _ _ eq_refl)|..]; try (by ospecialize (Hf _); [apply in_seq; lia|done]).
  assert (length (fp_sign f fl) ≤ 1) by (unfold fp_sign; repeat case_match; simpl; lia).
  rewrite int_val_in by (unfold INT_MAX in *; lia). eauto.
Qed.

Lemma ref_conv_typed c d args n ts' :
  (0 ≤ d_min d ≤ INT_MAX)%Z → (d_max d ≤ INT_MAX)%Z →
  args_ok (ty_conv c (d_size d) ++ ts') args = true →
  ∃ t st args', ref_conv c d args n = Ok (t, st, args') ∧ args_ok ts' args' = true.
Proof.
  unfold ty_conv, ref_conv. intros Hmi Hma Ha.
  destruct (ceqb c "d" || ceqb c "i").
  { destruct (args_ok_cons _ _ _ Ha) as (a & args' & -> & Ht & Ha').
    assert (∃ v, arg_signed (d_size d) (a :: args') = Ok (v, args') ∧ v ≠ LONG_MIN) as (v & -> & Hv).
    { unfold ty_int, arg_signed, fits, has_type, in_domain, LONG_MIN in *.
      destruct (d_size d), a; try done; eexists; (split; [done|]); lia. }
    destruct (int_text_typed v 10 (d_min d) (d_max d) (d_flags d) (or_introl Hv) Hmi Hma) as [s ->]. by eexists _, _, _. }
  destruct (ceqb c "o" || ceqb c "u" || ceqb c "x" || ceqb c "X").
  { destruct (args_ok_cons _ _ _ Ha) as (a & args' & -> & Ht & Ha').
    assert (∃ v, arg_unsigned (d_size d) (a :: args') = Ok (v, args')) as (v & ->).
    { unfold ty_int, arg_unsigned in *. destruct (d_size d), a; try done; eauto. }
    destruct (int_text_typed v (conv_base c) (d_min d) (d_max d)
      (Z.lor (if ceqb c "X" then Z.lor (d_flags d) DP_F_UP else d_flags d) DP_F_UNSIGNED)) as [s ->]; [|done..|].
    - right. by apply has_flag_lor.
    - by eexists _, _, _. }
  destruct (ceqb c "f" || ceqb c "e" || ceqb c "E" || ceqb c "g" || ceqb c "G").
  { destruct (args_ok_cons _ _ _ Ha) as (a & args' & -> & Ht & Ha'). destruct a; try done.
    destruct (fp_text_typed f (d_min d) (d_max d) (d_flags d) Ht Hmi) as [s ->]. by eexists _, _, _. }
  destruct (ceqb c "c"); [|destruct (ceqb c "s"); [|destruct (ceqb c "p"); [|destruct (ceqb c "n")]]].
  1-4: destruct (args_ok_cons _ _ _ Ha) as (a & args' & -> & Ht & Ha');
    destruct a; try done; try (by eexists _, _, _).
  - destruct (str_text_typed s (d_flags d) (d_min d) (str_max (default "(NULL)"%cs s) (d_min d) (d_max d)) Ht Hmi)
      as [t ->]. by eexists _, _, _.
  - destruct (int_text_typed z 16 (d_min d) (d_max d) (d_flags d)) as [s ->]; [|done..|by eexists _, _, _].
    left. unfold fits, has_type, in_domain, LONG_MIN in *. lia.
  - destruct (ceqb c "%"); by eexists _, _, _.
Qed.

Lemma ref_directive_typed s args n ts s' ts' :
  ty_directive s = Some (ts, s') → args_ok (ts ++ ts') args = true →
  ∃ t st args', ref_directive s args n = Ok (t, st, args', s') ∧ args_ok ts' args' = true.
Proof.
  unfold ty_directive, ref_directive. destruct (ref_flags 0 s) as [f s1].
  destruct (ty_number TWidth s1) as [[t1 s2]|] eqn:E1; [|done].
  destruct (ty_precision s2) as [[t2 s3]|] eqn:E2; [|done].
  destruct (ref_size s3) as [cf s4] eqn:E3. intros E Ha.
  assert (∃ t3, ts = t1 ++ t2 ++ t3 ∧ match s4 with
    | [] => t3 = [] ∧ s' = []
    | c :: r => t3 = ty_conv c cf ∧
        if ceqb c "w" then ∃ x, r = x :: s' else r = s'
    end) as (t3 & -> & H4).
  { destruct s4 as [|c r].
    - injection E as <- <-. exists []. by rewrite app_nil_r.
    - destruct (ceqb c "w").
      + destruct r as [|x r]; [done|]. injection E as <- <-. eauto 6.
      + injection E as <- <-. eauto. }
  rewrite <- app_assoc in Ha.
  destruct (ref_number_typed TWidth _ _ _ _ _ (or_introl eq_refl) E1 Ha) as (mi & a1 & -> & Hmi & Ha1). rewrite <- app_assoc in Ha1.
  destruct (ref_precision_typed _ _ _ _ _ E2 Ha1) as (ma & a2 & -> & Hma & Ha2). rewrite E3.
  destruct s4 as [|c r]; [destruct H4 as [-> ->]; by eexists _, _, _|]. destruct H4 as [-> Hr].
  destruct (ref_conv_typed c (Directive f mi ma cf) a2 n ts' Hmi Hma Ha2) as (t & st & a3 & -> & Ha3).
  destruct (ceqb c "w"); [destruct Hr as [x ->]|subst r]; by eexists _, _, _.
Qed.

Lemma ref_format_typed fuel s args out nums ts :
  ty_format fuel s = Some ts → args_ok ts args = true →
  ∃ out' nums', ref_format fuel s args out nums = Ok (out', nums').
Proof.
  revert s args out nums ts. induction fuel as [|fuel IH]; intros s args out nums ts E Ha; [done|].
  cbn [ty_format ref_format] in *. destruct s as [|c s]; [eauto|]. destruct (ceqb c "%"); [|eauto].
  destruct (ty_directive s) as [[ts1 s1]|] eqn:E1; [|done].
  destruct (ty_format fuel s1) as [ts2|] eqn:E2; [|done]. injection E as <-.
  destruct (ref_directive_typed s args (length out) ts1 s1 ts2 E1 Ha) as (t & st & a & -> & Ha'). eauto.
Qed.

(** C26. Typed formats are safe.  Take a format whose widths and precisions fit
    an int and that does not end in %w, and arguments of the C types it asks for.
    If moreover each is in the domain of its conversion (no LONG_MIN, nor a
    pointer with its bits, for %ld, %lld and %p, which negate it; no negative
    width in the argument list; no string of 2^31 bytes; and no double whose
    digits the code cannot compute, such as one of 2^63 or more), then vsnprintf
    never runs into undefined behaviour, on a buffer of any size: it stores
    nothing beyond it and returns.  Outside these domains there is undefined
    behaviour ([long_min_undefined], [huge_undefined]). *)
Theorem vsnprintf_typed (fmt : cstr) (ts : list va_type) (args : list va_arg) (str : cstr) (count : nat) :
  nul_free fmt → format_type fmt = Some ts → args_all has_type ts args = true → args_all in_domain ts args = true →
  count ≤ length str →
  ∃ out nums, format_output fmt args = Ok (out, nums) ∧
    vsnprintf str count fmt args = Ok (s32 (Z.of_nat (length out)), stored count str out, nums).
Proof.
  intros Hn Et Ht Hd Hl.
  destruct (ref_format_typed _ fmt args [] [] ts Et (args_ok_both _ _ Ht Hd)) as (out & nums & E).
  exists out, nums. split; [exact E|]. unfold vsnprintf. by rewrite (dopr_shown count fmt args str out nums).
Qed.

(** ** Memory of the right size *)

(** asprintf gives the whole output with its terminator, in memory of that
    size. *)
Lemma asprintf_exact (junk : ascii) (fmt : cstr) (args : list va_arg) (out : cstr) (nums : list (nat * Z)) :
  nul_free fmt → format_output fmt args = Ok (out, nums) →
  0 < length out → (Z.of_nat (length out) < 2 ^ 31 - 1)%Z →
  asprintf junk fmt args [] = (Ok (Z.of_nat (length out), Some (out ++ [NUL])), []).
Proof.
  intros Hn E Hp Hl. unfold asprintf, vasprintf.
  assert (∀ str count, count ≤ length str → vsnprintf str count fmt args =
    Ok (Z.of_nat (length out), stored count str out, nums)) as Hv.
  { intros str count Hc. unfold vsnprintf. rewrite (dopr_shown count fmt args str out nums) by done.
    by rewrite s32_id by lia. }
  rewrite Hv by (simpl; lia). cbv beta iota. rewrite (proj2 (Z.leb_gt _ 0)) by lia.
  cbn [malloc bind get_mem list_mem_state]. rewrite Hv by (rewrite length_replicate; lia).
  rewrite Nat2Z.id. unfold ret. do 4 f_equal. rewrite Nat.add_1_r. cbn [stored].
  rewrite take_ge by lia. rewrite Nat.min_id, drop_ge by (rewrite length_replicate; lia). done.
Qed.

(** An empty output leaves the caller without a string, though the result
    0 reports success. *)
Lemma asprintf_empty (junk : ascii) (fmt : cstr) (args : list va_arg) (nums : list (nat * Z)) (mem : list bool) :
  nul_free fmt → format_output fmt args = Ok ([], nums) → asprintf junk fmt args mem = (Ok (0%Z, None), mem).
Proof.
  intros Hn E. unfold asprintf, vasprintf, vsnprintf.
  by rewrite (dopr_shown 0 fmt args [] [] nums) by (done || simpl; lia).
Qed.

(** ** Decimal numbers *)

Lemma hexdigit_dec d : (0 ≤ d < 10)%Z → hexdigit false d = dec_digit d.
Proof.
  intros Hd. assert (d = 0 ∨ d = 1 ∨ d = 2 ∨ d = 3 ∨ d = 4 ∨ d = 5 ∨ d = 6 ∨ d = 7 ∨ d = 8 ∨ d = 9)%Z
    as H by lia. destruct_or!; by subst d.
Qed.

Lemma convert_loop_dec room u acc :
  (0 ≤ u < 10 ^ Z.of_nat room)%Z → reverse (convert_loop room false 10 u) ++ acc = dec_aux room u acc.
Proof.
  revert u acc. induction room as [|room IH]; intros u acc Hu; [done|]. cbn [convert_loop dec_aux].
  rewrite hexdigit_dec by (apply Z.mod_pos_bound; lia). rewrite reverse_cons, <- app_assoc. cbn [app].
  destruct (Z.eqb_spec (u / 10) 0); [done|]. apply IH.
  rewrite Nat2Z.inj_succ, Z.pow_succ_r in Hu by lia. Z.to_euclidean_division_equations. lia.
Qed.

Lemma convert_loop_length room caps u :
  (0 ≤ u)%Z → ∀ k, (u < 10 ^ Z.of_nat k)%Z → 0 < k → length (convert_loop room caps 10 u) ≤ k.
Proof.
  revert u. induction room as [|room IH]; intros u Hu k Hk Hp; cbn [convert_loop length]; [lia|].
  destruct (Z.eqb_spec (u / 10) 0); [simpl; lia|].
  destruct k as [|[|k]]; [lia| |].
  { change (10 ^ Z.of_nat 1)%Z with 10%Z in Hk. exfalso. Z.to_euclidean_division_equations. lia. }
  assert (length (convert_loop room caps 10 (u / 10)) ≤ S k); [|lia].
  rewrite Nat2Z.inj_succ, Z.pow_succ_r in Hk by lia.
  apply IH; [Z.to_euclidean_division_equations; lia| |lia]. Z.to_euclidean_division_equations. lia.
Qed.

Lemma convert_dec u : (0 ≤ u < 10 ^ 18)%Z → reverse (convert false 10 u) = dec u.
Proof.
  intros Hu. unfold convert, dec. rewrite take_ge.
  - rewrite <- (app_nil_r (reverse _)). apply convert_loop_dec. lia.
  - etransitivity; [apply (convert_loop_length _ _ _ (proj1 Hu) 18); lia|lia].
Qed.

(** [%d] without further ado. *)
Definition decimal (z : Z) : cstr := if (z <? 0)%Z then "-"%char :: dec (- z) else dec z.

Lemma Zltb_clamp z : (z ≤ 0)%Z → (if (z <? 0)%Z then 0%Z else z) = 0%Z.
Proof. destruct (Z.ltb_spec z 0); lia. Qed.

Lemma int_text_decimal z :
  (Z.abs z < 10 ^ 18)%Z → int_text z 10 0 (-1) 0 = Ok (decimal z).
Proof.
  intros Hz. unfold int_text, int_sign, decimal. cbn [has_flag negb Z.land Z.eqb].
  change (has_flag 0 _) with false. cbn [negb].
  assert (∀ sign u, (0 ≤ u < 10 ^ 18)%Z → length (sign : cstr) ≤ 1 →
    match int_pads (Z.of_nat (length (convert false 10 u))) (Z.of_nat (length sign)) 0 (Z.max 0 (-1)) 0 with
    | Ok (zpad, spad) =>
        Ok (spaces spad ++ sign ++ replicate (Z.to_nat zpad) "0"%char ++ reverse (convert false 10 u) ++ spaces (- spad))
    | _ => Undef
    end = Ok (sign ++ dec u)) as Hok.
  { intros sign u Hu Hs. unfold int_pads. change (has_flag 0 _) with false. cbv iota.
    assert (length (convert false 10 u) ≤ 19) as Hp by (unfold convert; rewrite length_take; lia).
    rewrite int_val_in by (unfold INT_MAX; lia). set (p := Z.of_nat (length (convert false 10 u))).
    rewrite !Zltb_clamp by lia. cbv beta iota zeta. unfold spaces. change (Z.to_nat 0) with 0.
    change (Z.to_nat (- 0)) with 0. cbn [replicate app]. by rewrite app_nil_r, convert_dec. }
  destruct (Z.ltb_spec z 0).
  - rewrite (proj2 (Z.eqb_neq z LONG_MIN)) by (unfold LONG_MIN; lia).
    apply (Hok ["-"%char] (- z)%Z); simpl; lia.
  - apply (Hok [] z); simpl; lia.
Qed.

Lemma scan_dec n : (0 ≤ n < 10 ^ 18)%Z → scan_digits 10 0 (dec n) = (n, length (dec n)).
Proof.
  intros Hn. unfold dec. destruct (dec_aux_spec 20 n []) as (ds & -> & _ & _ & Hs); [lia..|].
  rewrite Hs. cbn [scan_digits]. by rewrite Z.mul_0_l, Z.add_0_l, app_nil_r, Nat.add_0_r.
Qed.

(** Printing a number and reading it gives it back. *)
Lemma atoi_decimal z : (- 2 ^ 31 ≤ z < 2 ^ 31)%Z → atoi (decimal z) = z.
Proof.
  intros Hz. unfold decimal. destruct (Z.ltb_spec z 0).
  2:{ rewrite <- (app_nil_r (dec z)). apply atoi_dec; [lia|done]. }
  unfold atoi, strtol, strto. cbn [skip_spaces drop scan_sign]. change (isspace "-") with false. cbv iota.
  cbn [drop scan_sign]. change (ceqb "-" "-") with true. cbv iota. cbn [drop].
  rewrite !drop_0.
  assert (hex_prefix 10 (dec (- z)) = 0) as -> by (by destruct (dec (- z)) as [|? [|? [|? ?]]]).
  rewrite drop_0, scan_dec by lia.
  destruct (dec_digits (- z)) as [Hd _]; [lia|].
  rewrite decide_False by (by destruct (dec (- z))). cbn [fst].
  rewrite Z.opp_involutive. unfold LONG_MIN, LONG_MAX. rewrite Z.min_r, Z.max_r by lia. apply s32_id. lia.
Qed.

Lemma conv_d z n :
  ref_conv "d" (Directive 0 0 (-1) DP_C_NONE) [VaInt z] n =
    match int_text z 10 0 (-1) 0 with Ok s => Ok (s, [], []) | _ => Undef end.
Proof. reflexivity. Qed.

Lemma format_d z s : int_text z 10 0 (-1) 0 = Ok s → format_output "%d"%cs [VaInt z] = Ok (s, []).
Proof.
  intros E. change (format_output "%d"%cs [VaInt z]) with
    (match (match ref_conv "d" (Directive 0 0 (-1) DP_C_NONE) [VaInt z] 0 with
            | Ok (t, st, a) => Ok (t, st, a, [] : cstr)
            | _ => Undef
            end) with
     | Ok (t, st, a, s) => ref_format 2 s a ([] ++ t) (st ++ [])
     | _ => Undef
     end).
  rewrite conv_d, E. reflexivity.
Qed.

(** What "%d" puts into a buffer that is large enough reads back as the
    number. *)
Lemma print_int_roundtrip (z : Z) (str : cstr) :
  (- 2 ^ 31 ≤ z < 2 ^ 31)%Z → 12 ≤ length str →
  ∃ n buf, vsnprintf str (length str) "%d"%cs [VaInt z] = Ok (n, buf, []) ∧
    atoi (take (Z.to_nat n) buf) = z.
Proof.
  intros Hz Hl. assert (format_output "%d"%cs [VaInt z] = Ok (decimal z, [])) as E.
  { apply format_d. by rewrite int_text_decimal by lia. }
  assert (length (decimal z) ≤ 11) as Hd.
  { assert (∀ u, (0 ≤ u ≤ 2 ^ 31)%Z → length (dec u) ≤ 10) as H10.
    { intros u Hu. rewrite <- convert_dec, length_reverse by lia. unfold convert. rewrite length_take.
      pose proof (convert_loop_length 20 false u (proj1 Hu) 10) as Hc. lia. }
    unfold decimal. destruct (Z.ltb_spec z 0); cbn [length]; [specialize (H10 (- z)%Z)|specialize (H10 z)]; lia. }
  exists (Z.of_nat (length (decimal z))), (stored (length str) str (decimal z)). unfold vsnprintf.
  rewrite (dopr_shown (length str) "%d"%cs [VaInt z] str _ _ ltac:(apply (bool_decide_unpack _); vm_compute; done) E) by lia.
  rewrite s32_id by lia. split; [done|]. rewrite Nat2Z.id. destruct (length str) as [|c] eqn:El; [lia|].
  cbn [stored]. rewrite (take_ge (decimal z)) by lia. rewrite take_app_length. by apply atoi_decimal.
Qed.

(** ** Where the formatter departs from C99 *)

(** The precision of a string is raised to its width; with a width of 5 and
    a precision of 2 all of "hello" appears. *)
Lemma str_precision_raised : format_output "%5.2s"%cs [VaStr (Some "hello"%cs)] = Ok ("hello"%cs, []).
Proof. vm_compute. reflexivity. Qed.

(** The array of digits has 20 places, one of them for the terminator: large
    numbers lose their first digits. *)
Lemma digits_lost :
  format_output "%lo"%cs [VaLong (-1)] = Ok ("7777777777777777777"%cs, []) ∧
  format_output "%lu"%cs [VaLong (-1)] = Ok ("8446744073709551615"%cs, []).
Proof. by split; vm_compute. Qed.

(** A point without digits is no precision, where C99 means zero. *)
Lemma lone_point : format_output "%.s"%cs [VaStr (Some "hello"%cs)] = Ok ("hello"%cs, []).
Proof. vm_compute. reflexivity. Qed.

(** A format that ends in [%w] is read beyond its terminator. *)
Lemma w_overruns : vsnprintf [] 0 "%w"%cs [] = Undef.
Proof. vm_compute. reflexivity. Qed.

(** Type-correct arguments outside the domain of the conversion: LONG_MIN is
    negated, and a double is converted to a long it does not fit. *)
Lemma long_min_undefined :
  format_type "%ld"%cs = Some [TLong] ∧ has_type (VaLong LONG_MIN) TLong = true ∧
  vsnprintf [] 0 "%ld"%cs [VaLong LONG_MIN] = Undef.
Proof. by split_and!; vm_compute. Qed.

Lemma huge_undefined :
  format_type "%f"%cs = Some [TDouble] ∧ has_type (VaDouble (f_of_Z (2 ^ 63))) TDouble = true ∧
  vsnprintf [] 0 "%f"%cs [VaDouble (f_of_Z (2 ^ 63))] = Undef.
Proof. by split_and!; vm_compute. Qed.

(** ** Witnesses *)

Definition ex_typed_fmt : cstr := "%s: %*d|%-6.3lx|%n%.2f%%"%cs.
Definition ex_typed_args : list va_arg :=
  [VaStr (Some "n"%cs); VaInt 5; VaInt (-42); VaLong LONG_MIN; VaNum 0; VaDouble (f_div (f_of_Z 25) (f_of_Z 8))].
Definition ex_fmt : cstr := "%s: %5d|%-6.3lx|%n%%"%cs.
Definition ex_varargs : list va_arg := [VaStr (Some "n"%cs); VaInt 42; VaLong 255; VaNum 0].

Lemma vsnprintf_refines_witness :
  vsnprintf (replicate 12 "#"%char) 10 ex_fmt ex_varargs = Ok (17%Z, "n:    42|"%cs ++ NUL :: "##"%cs, [(0, 16%Z)]).
Proof.
  apply (vsnprintf_refines ex_fmt ex_varargs "n:    42|0ff   |%"%cs [(0, 16%Z)] (replicate 12 "#"%char) 10).
  - apply (bool_decide_unpack _). vm_compute. done.
  - vm_compute. reflexivity.
  - simpl. lia.
Defined.

Lemma vsnprintf_typed_witness :
  ∃ out nums, format_output ex_typed_fmt ex_typed_args = Ok (out, nums) ∧
    vsnprintf [] 0 ex_typed_fmt ex_typed_args = Ok (s32 (Z.of_nat (length out)), stored 0 [] out, nums).
Proof.
  apply (vsnprintf_typed ex_typed_fmt [TStr; TWidth; TInt; TULong; TNum; TDouble] ex_typed_args [] 0).
  - apply (bool_decide_unpack _). vm_compute. done.
  - vm_compute. reflexivity.
  - vm_compute. reflexivity.
  - vm_compute. reflexivity.
  - simpl. lia.
Defined.

Lemma asprintf_exact_witness :
  asprintf "#" ex_fmt ex_varargs [] = (Ok (17%Z, Some ("n:    42|0ff   |%"%cs ++ [NUL])), []).
Proof.
  apply (asprintf_exact "#" ex_fmt ex_varargs "n:    42|0ff   |%"%cs [(0, 16%Z)]).
  - apply (bool_decide_unpack _). vm_compute. done.
  - vm_compute. reflexivity.
  - simpl. lia.
  - simpl. lia.
Defined.

Lemma asprintf_empty_witness : asprintf "#" "%s"%cs [VaStr (Some [])] [] = (Ok (0%Z, None), []).
Proof.
  apply (asprintf_empty "#" "%s"%cs [VaStr (Some [])] [] []).
  - apply (bool_decide_unpack _). vm_compute. done.
  - vm_compute. reflexivity.
Defined.

Lemma print_int_roundtrip_witness :
  ∃ n buf, vsnprintf (replicate 12 "#"%char) 12 "%d"%cs [VaInt (-2147483648)] = Ok (n, buf, []) ∧
    atoi (take (Z.to_nat n) buf) = (-2147483648)%Z.
Proof. apply (print_int_roundtrip (-2147483648) (replicate 12 "#"%char)); [lia|simpl; lia]. Defined.
