(* ===== verification/Util.v ===== *)
(** * util.c: string predicates and small services *)

From S2P Require Import Prelude CLib.

(** Build-time configuration (config.h) the sources test with [#ifdef]. *)
Class Config := {
  ENABLE_REMOTE_ASSEMBLE : bool;
  HAVE_SENDFILE : bool;
  HAVE_GSSAPI : bool;
  (** the resolver interface with IPv6 *)
  ENABLE_RFC2553 : bool;
  HAVE_ELF_H : bool;
  (** byte order of the machine; decides what [htonl] does *)
  little_endian : bool
}.

(** A common build: no remote assembly, a little-endian machine. *)
Definition usual_config : Config :=
  {| ENABLE_REMOTE_ASSEMBLE := false; HAVE_SENDFILE := true; HAVE_GSSAPI := false;
     ENABLE_RFC2553 := true; HAVE_ELF_H := true; little_endian := true |}.

Definition str_endswith (tail tiger : cstr) : bool :=
  let len_tail := length tail in
  let len_tiger := length tiger in
  if (len_tiger <? len_tail) then false
  else streq (drop (len_tiger - len_tail) tiger) tail.

Definition str_startswith (head worm : cstr) : bool :=
  strncmp0 head worm (length head).

(** [argv_contains] on the strings of a NULL-terminated vector. *)
Fixpoint argv_contains (argv : list cstr) (s : cstr) : bool :=
  match argv with
  | [] => false
  | a :: argv => if streq a s then true else argv_contains argv s
  end.

(** [dcc_dup_part]: the part before a character of [sep], and the cursor after
    it; no part at all when it would be empty. *)
Definition dcc_dup_part {St} `{MemState St} (psrc sep : cstr) : M St (option cstr * cstr) :=
  let len := strcspn psrc sep in
  if decide (len = 0) then ret (None, psrc)
  else do! malloc_or EXIT_OUT_OF_MEMORY; ret (Some (take len psrc), drop len psrc).

Lemma str_startswith_spec head worm :
  str_startswith head worm = true ↔ head `prefix_of` worm.
Proof. apply strncmp0_prefix. Qed.

Lemma str_startswith_false head worm :
  str_startswith head worm = false ↔ ¬ head `prefix_of` worm.
Proof. by rewrite <- str_startswith_spec, not_true_iff_false. Qed.

Lemma str_endswith_spec tail tiger :
  str_endswith tail tiger = true ↔ tail `suffix_of` tiger.
Proof.
  unfold str_endswith. destruct (Nat.ltb_spec (length tiger) (length tail)) as [Hl|Hl].
  - split; [done|]. intros Hs%suffix_length. lia.
  - rewrite streq_true. split.
    + intros E. exists (take (length tiger - length tail) tiger).
      rewrite <- E at 2. by rewrite take_drop.
    + intros [k ->]. rewrite length_app, Nat.add_sub. apply drop_app_length.
Qed.

Lemma argv_contains_spec argv s : argv_contains argv s = true ↔ s ∈ argv.
Proof.
  induction argv as [|a argv IH]; simpl; [set_solver|].
  destruct (streq a s) eqn:E; btest; set_solver.
Qed.

#[export] Hint Rewrite str_startswith_spec str_endswith_spec str_startswith_false : distcc.
