(* ===== verification/Filename.v ===== *)
(** * filename.c: what a file name says about a file *)

From S2P Require Import Prelude CLib Util.

Section Filename.
  Context {St : Type} {MS : MemState St} {Cfg : Config}.

(** A pointer to the extension, including the dot, as an index. *)
Definition dcc_find_extension (sfile : cstr) : option nat :=
  match strrchr sfile "." with
  | None => None
  | Some dot => if ceqb (cget sfile (dot + 1)) NUL then None else Some dot
  end.

Definition dcc_find_extension_const (sfile : cstr) : option nat :=
  dcc_find_extension sfile.

Definition dcc_find_basename (sfile : option cstr) : option cstr :=
  match sfile with
  | None => None
  | Some s =>
      match strrchr s "/" with
      | None => Some s
      | Some slash =>
          if ceqb (cget s (slash + 1)) NUL then Some s
          else Some (drop (slash + 1) s)
      end
  end.

Definition dcc_truncate_to_dirname (file : cstr) : cstr :=
  match strrchr file "/" with
  | None => []
  | Some slash => take slash file
  end.

Definition dcc_set_file_extension (sfile new_ext : cstr) : M St cstr :=
  do! malloc_or EXIT_DISTCC_FAILED;
  match dcc_find_extension sfile with
  | None => fail EXIT_DISTCC_FAILED
  | Some dot =>
      if decide (length (drop dot sfile) < length new_ext)
      then fail EXIT_DISTCC_FAILED
      else ret (take dot sfile ++ new_ext)
  end.

Definition dcc_preproc_exten (e : cstr) : option cstr :=
  if negb (ceqb (cget e 0) ".") then None
  else
    let e := drop 1 e in
    if streq e "i"%cs || streq e "c"%cs then Some ".i"%cs
    else if streq e "c"%cs || streq e "cc"%cs || streq e "cpp"%cs
            || streq e "cxx"%cs || streq e "cp"%cs || streq e "c++"%cs
            || streq e "C"%cs || streq e "ii"%cs then Some ".ii"%cs
    else if streq e "mi"%cs || streq e "m"%cs then Some ".mi"%cs
    else if streq e "mii"%cs || streq e "mm"%cs || streq e "M"%cs then Some ".mii"%cs
    else if streq e "s"%cs || streq e "S"%cs then Some ".s"%cs
    else None.

Definition dcc_is_preprocessed (sfile : cstr) : bool :=
  match dcc_find_extension_const sfile with
  | None => false
  | Some dot =>
      let ext := drop (dot + 1) sfile in
      let c := cget ext 0 in
      if ENABLE_REMOTE_ASSEMBLE && ceqb c "s" then streq ext "s"%cs
      else if ceqb c "i" then streq ext "i"%cs || streq ext "ii"%cs
      else if ceqb c "m" then streq ext "mi"%cs || streq ext "mii"%cs
      else false
  end.

Definition dcc_is_source (sfile : cstr) : bool :=
  match dcc_find_extension_const sfile with
  | None => false
  | Some dot =>
      let ext := drop (dot + 1) sfile in
      let c := cget ext 0 in
      if ceqb c "i" then streq ext "i"%cs || streq ext "ii"%cs
      else if ceqb c "c" then
        streq ext "c"%cs || streq ext "cc"%cs || streq ext "cpp"%cs
        || streq ext "cxx"%cs || streq ext "cp"%cs || streq ext "c++"%cs
      else if ceqb c "C" then streq ext "C"%cs
      else if ceqb c "m" then
        streq ext "m"%cs || streq ext "mm"%cs || streq ext "mi"%cs
        || streq ext "mii"%cs
      else if ceqb c "M" then streq ext "M"%cs
      else if ENABLE_REMOTE_ASSEMBLE && ceqb c "s" then streq ext "s"%cs
      else if ENABLE_REMOTE_ASSEMBLE && ceqb c "S" then streq ext "S"%cs
      else false
  end.

Definition dcc_is_object (filename : cstr) : bool :=
  match dcc_find_extension_const filename with
  | None => false
  | Some dot => streq (drop dot filename) ".o"%cs
  end.

(** 0, or EXIT_DISTCC_FAILED for autoconf's files. *)
Definition dcc_source_needs_local (filename : cstr) : Z :=
  match dcc_find_basename (Some filename) with
  | Some p =>
      if str_startswith "conftest."%cs p || str_startswith "tmp.conftest."%cs p
      then EXIT_DISTCC_FAILED else 0%Z
  | None => 0%Z
  end.

Definition dcc_output_from_source (sfile out_extn : cstr) : M St cstr :=
  let sfile := match strrchr sfile "/" with
               | Some slash => drop (slash + 1) sfile
               | None => sfile
               end in
  if decide (length sfile < 3) then fail EXIT_DISTCC_FAILED
  else dcc_set_file_extension sfile out_extn.

(** ** Extensions *)

(** The extension is everything from the last dot, when something follows it. *)
Lemma find_extension_app a c b :
  c ≠ NUL → "."%char ∉ c :: b →
  dcc_find_extension (a ++ "."%char :: c :: b) = Some (length a).
Proof.
  intros Hc Hb. unfold dcc_find_extension.
  rewrite (proj2 (strrchr_Some (a ++ "."%char :: c :: b) "." (length a))) by eauto.
  rewrite cget_app_r. change (cget ("."%char :: c :: b) 1) with c.
  apply ceqb_false in Hc. by rewrite Hc.
Qed.

Lemma find_extension_Some s i :
  dcc_find_extension s = Some i →
  ∃ a b, s = a ++ "."%char :: b ∧ "."%char ∉ b ∧ b ≠ [] ∧ i = length a.
Proof.
  unfold dcc_find_extension. destruct (strrchr s ".") as [j|] eqn:E; [|done].
  apply strrchr_Some in E as (a & b & -> & Hb & ->). rewrite cget_app_r.
  destruct b as [|c b]; simpl; [done|].
  change (cget ("."%char :: c :: b) 1) with c.
  destruct (ceqb c NUL); intros [= <-]. exists a, (c :: b). done.
Qed.

Lemma find_extension_None s :
  nul_free s → dcc_find_extension s = None →
  "."%char ∉ s ∨ ∃ a, s = a ++ "."%cs.
Proof.
  intros Hs. unfold dcc_find_extension. destruct (strrchr s ".") as [j|] eqn:E.
  - apply strrchr_Some in E as (a & b & -> & Hb & ->). rewrite cget_app_r.
    destruct b as [|c b]; [eauto|].
    change (cget ("."%char :: c :: b) 1) with c.
    assert (c ≠ NUL) as Hc%ceqb_false; [|by rewrite Hc].
    intros ->. apply Hs. set_solver.
  - apply strrchr_None in E. auto.
Qed.

(** ** Source files *)

(** The extensions the switch of [dcc_is_source] accepts. *)
Definition source_exts : list cstr :=
  ["i"%cs; "ii"%cs; "c"%cs; "cc"%cs; "cpp"%cs; "cxx"%cs; "cp"%cs; "c++"%cs;
   "C"%cs; "m"%cs; "mm"%cs; "mi"%cs; "mii"%cs; "M"%cs]
  ++ (if ENABLE_REMOTE_ASSEMBLE then ["s"%cs; "S"%cs] else []).

Lemma drop_app_dot a (b : cstr) : drop (length a + 1) (a ++ "."%char :: b) = b.
Proof. rewrite drop_app_ge by lia. by replace (length a + 1 - length a) with 1 by lia. Qed.

Lemma is_source_ext s :
  dcc_is_source s = true → ∃ a b, s = a ++ "."%char :: b ∧ b ∈ source_exts.
Proof.
  unfold dcc_is_source, dcc_find_extension_const, source_exts.
  destruct (dcc_find_extension s) as [i|] eqn:E; [|done].
  apply find_extension_Some in E as (a & b & -> & _ & _ & ->).
  rewrite drop_app_dot. intros Hb. exists a, b. split; [done|].
  destruct ENABLE_REMOTE_ASSEMBLE; simpl in Hb;
    repeat (destruct (ceqb _ _)); btest; naive_solver set_solver.
Qed.

Lemma find_extension_source a b :
  b ∈ source_exts → dcc_find_extension (a ++ "."%char :: b) = Some (length a).
Proof.
  unfold source_exts. intros Hb.
  destruct ENABLE_REMOTE_ASSEMBLE; simpl in Hb;
    repeat (apply elem_of_cons in Hb as [->|Hb]; [by apply find_extension_app; [done|vm_compute; set_solver]|]);
    by apply elem_of_nil in Hb.
Qed.

Lemma is_source_app a b : b ∈ source_exts → dcc_is_source (a ++ "."%char :: b) = true.
Proof.
  intros Hb. unfold dcc_is_source, dcc_find_extension_const.
  rewrite find_extension_source by done. rewrite drop_app_dot.
  unfold source_exts in Hb. destruct ENABLE_REMOTE_ASSEMBLE; simpl in Hb;
    repeat (apply elem_of_cons in Hb as [->|Hb]; [done|]);
    by apply elem_of_nil in Hb.
Qed.

(** No recognised extension contains a slash, so it belongs to the last
    component of the path. *)
Lemma source_ext_no_slash b : b ∈ source_exts → "/"%char ∉ b ∧ 1 ≤ length b.
Proof.
  unfold source_exts. intros Hb. destruct ENABLE_REMOTE_ASSEMBLE; simpl in Hb;
    repeat (apply elem_of_cons in Hb as [->|Hb];
            [split; [vm_compute; set_solver|simpl; lia]|]);
    by apply elem_of_nil in Hb.
Qed.

(** ** Paths *)

(** Every path is a directory part, empty or ending in a slash, and a last
    component. *)
Lemma path_split (s : cstr) :
  ∃ dir base, s = dir ++ base ∧ "/"%char ∉ base ∧
    (dir = [] ∧ strrchr s "/" = None ∨
     ∃ d, dir = d ++ "/"%cs ∧ strrchr s "/" = Some (length d)).
Proof.
  destruct (strrchr s "/") as [i|] eqn:E.
  - apply strrchr_Some in E as (d & base & -> & Hb & ->).
    exists (d ++ "/"%cs), base. rewrite <- app_assoc. eauto 10.
  - exists [], s. apply strrchr_None in E. eauto.
Qed.

Lemma drop_slash d (base : cstr) :
  drop (length d + 1) ((d ++ "/"%cs) ++ base) = base.
Proof.
  rewrite <- app_assoc, drop_app_ge by lia.
  by replace (length d + 1 - length d) with 1 by lia.
Qed.

(** The extension of a source file is in the last component of its path. *)
Lemma source_split (s : cstr) :
  dcc_is_source s = true →
  ∃ dir a b, s = dir ++ a ++ "."%char :: b ∧ "/"%char ∉ a ++ "."%char :: b ∧
    b ∈ source_exts ∧
    (dir = [] ∧ strrchr s "/" = None ∨
     ∃ d, dir = d ++ "/"%cs ∧ strrchr s "/" = Some (length d)).
Proof.
  intros (a & b & -> & Hb)%is_source_ext.
  pose proof (source_ext_no_slash _ Hb) as [Hns _].
  destruct (path_split a) as (dir & base & -> & Hbase & Hdir).
  exists dir, base, b. rewrite <- app_assoc.
  split; [done|]. split; [set_solver|]. split; [done|].
  destruct Hdir as [[-> _]|(d & -> & _)].
  - left. split; [done|]. apply strrchr_None. set_solver.
  - right. exists d. split; [done|]. apply strrchr_Some.
    exists d, (base ++ "."%char :: b). rewrite <- app_assoc. set_solver.
Qed.

Lemma set_file_extension_ok s new_ext a b σ :
  mem_ok σ → s = a ++ "."%char :: b → dcc_find_extension s = Some (length a) →
  dcc_set_file_extension s new_ext σ =
    (if decide (S (length b) < length new_ext) then Fail EXIT_DISTCC_FAILED
     else Ok (a ++ new_ext), σ).
Proof.
  intros Hm -> He. unfold dcc_set_file_extension.
  rewrite (bind_Ok _ _ _ () σ) by by apply malloc_or_ok. rewrite He.
  rewrite drop_app_length, take_app_length. simpl.
  by destruct (decide (S (length b) < length new_ext)).
Qed.
End Filename.

Section FilenameProperties.
  Context {St : Type} {MS : MemState St} {Cfg : Config}.

Lemma preproc_exten_source (s base : cstr) :
  dcc_is_source s = true →
  ∃ dot e, dcc_find_extension s = Some dot ∧
    dcc_preproc_exten (drop dot s) = Some e ∧
    dcc_is_preprocessed (base ++ e) = true ∧
    dcc_is_source (base ++ e) = true.
Proof.
  intros (a & b & -> & Hb)%is_source_ext. exists (length a).
  rewrite find_extension_source, drop_app_length by done.
  unfold source_exts in Hb.
  destruct ENABLE_REMOTE_ASSEMBLE eqn:Ha; simpl in Hb;
    repeat (apply elem_of_cons in Hb as [->|Hb];
    [ eexists; split_and!; [done|vm_compute; reflexivity| |];
      [ unfold dcc_is_preprocessed, dcc_find_extension_const;
        rewrite find_extension_source by (unfold source_exts; rewrite Ha; set_solver);
        rewrite drop_app_dot, Ha; done
      | apply is_source_app; unfold source_exts; rewrite Ha; set_solver ]|]);
    by apply elem_of_nil in Hb.
Qed.

(** Preprocessing a source file always has a name to go to: for
    every file [dcc_is_source] accepts, [dcc_preproc_exten] of its extension is
    an extension that marks the result as already preprocessed, so
    [dcc_cpp_maybe] never passes NULL on and the server, which looks only at
    the name it is given, will not preprocess a second time. *)
Lemma preproc_exten_of_source (s base : cstr) :
  dcc_is_source s = true →
  ∃ dot e, dcc_find_extension s = Some dot ∧
    dcc_preproc_exten (drop dot s) = Some e ∧
    dcc_is_preprocessed (base ++ e) = true ∧
    dcc_is_source (base ++ e) = true.
Proof. apply preproc_exten_source. Qed.

(** The default object name: the last component of the source's
    path with its extension replaced, and the only failure is a component
    shorter than three characters.  With ".o" and ".s" the new extension always
    fits the copy of the old name. *)
Lemma output_from_source_spec (s out : cstr) (σ : St) :
  dcc_is_source s = true → length out = 2 → mem_ok σ →
  ∃ dir a b, s = dir ++ a ++ "."%char :: b ∧ "/"%char ∉ a ++ "."%char :: b ∧
    (dir = [] ∨ ∃ d, dir = d ++ "/"%cs) ∧
    dcc_output_from_source s out σ =
      (if decide (a = [] ∧ length b = 1) then Fail EXIT_DISTCC_FAILED
       else Ok (a ++ out), σ).
Proof.
  intros Hs Hout Hm.
  destruct (source_split s Hs) as (dir & a & b & Heq & Hbase & Hb & Hdir).
  exists dir, a, b. split; [done|]. split; [done|].
  split; [naive_solver|].
  assert (match strrchr s "/" with
          | Some slash => drop (slash + 1) s | None => s end
          = a ++ "."%char :: b) as Hbn.
  { destruct Hdir as [[-> ->]|(d & -> & ->)]; subst; [done|]. apply drop_slash. }
  unfold dcc_output_from_source. rewrite Hbn.
  pose proof (source_ext_no_slash _ Hb) as [_ Hlen].
  rewrite length_app. simpl.
  case_decide as Hd; case_decide as Hd'.
  - done.
  - exfalso. apply Hd'. destruct a; simpl in *; split; [done|lia|lia|lia].
  - destruct Hd' as [-> ?]. simpl in Hd. lia.
  - rewrite (set_file_extension_ok _ _ a b) by (done || by apply find_extension_source).
    by rewrite decide_False by lia.
Qed.
End FilenameProperties.

(** ** Witnesses *)

Lemma preproc_exten_of_source_witness :
  ∃ dot e, dcc_find_extension "dir/hello.cpp"%cs = Some dot ∧
    dcc_preproc_exten (drop dot "dir/hello.cpp"%cs) = Some e ∧
    dcc_is_preprocessed (Cfg := usual_config) ("/tmp/distcc_1"%cs ++ e) = true ∧
    dcc_is_source (Cfg := usual_config) ("/tmp/distcc_1"%cs ++ e) = true.
Proof. apply (preproc_exten_of_source (Cfg := usual_config)). reflexivity. Defined.

Lemma output_from_source_spec_witness :
  ∃ dir a b, "dir/hello.c"%cs = dir ++ a ++ "."%char :: b ∧
    "/"%char ∉ a ++ "."%char :: b ∧
    (dir = [] ∨ ∃ d, dir = d ++ "/"%cs) ∧
    dcc_output_from_source (St := list bool) "dir/hello.c"%cs ".o"%cs [] =
      (if decide (a = [] ∧ length b = 1) then Fail EXIT_DISTCC_FAILED
       else Ok (a ++ ".o"%cs), []).
Proof. apply (output_from_source_spec (Cfg := usual_config)); reflexivity. Defined.
