(* ===== verification/Argv.v ===== *)
(** * argutil.c: NULL-terminated argument vectors

    A [char **] is an array of slots; a slot holds a string, NULL, or nothing
    yet ([malloc]ed memory nobody has written).  Reading past the array or an
    unwritten slot is undefined. *)

From S2P Require Import Prelude CLib Util.

Inductive slot := Str (s : cstr) | Null | Garbage.

#[export] Instance slot_eq_dec : EqDecision slot.
Proof. solve_decision. Defined.

Abbreviation cvec := (list slot).

(** The vector a caller builds from [args]. *)
Definition vec (args : list cstr) : cvec := (Str <$> args) ++ [Null].

Section Argv.
  Context {St : Type} {MS : MemState St}.

(** Write [vals] at [pos]; [None] when they do not fit the array. *)
Definition blit (arr : cvec) (pos : nat) (vals : cvec) : option cvec :=
  if decide (pos + length vals ≤ length arr)
  then Some (take pos arr ++ vals ++ drop (pos + length vals) arr)
  else None.

Definition store (arr : cvec) (pos : nat) (v : slot) : M St cvec :=
  match blit arr pos [v] with Some a => ret a | None => ub end.

(** Return true if argv contains needle as an argument. *)
Fixpoint dcc_argv_search (a : cvec) (needle : cstr) : M St bool :=
  match a with
  | Str s :: a => if streq s needle then ret true else dcc_argv_search a needle
  | Null :: _ => ret false
  | _ => ub
  end.

Fixpoint dcc_argv_len (a : cvec) : M St nat :=
  match a with
  | Str _ :: a => let! n := dcc_argv_len a in ret (S n)
  | Null :: _ => ret 0
  | _ => ub
  end.

(** The copying loop: [b[i] = strdup(from[i])] for the first [l] elements. *)
Fixpoint copy_elems (from : cvec) (l : nat) : M St cvec :=
  match l with
  | 0 => ret []
  | S l =>
      match from with
      | Str s :: from =>
          do! malloc_or EXIT_OUT_OF_MEMORY;
          let! r := copy_elems from l in ret (Str s :: r)
      | _ => ub
      end
  end.

Definition dcc_copy_argv (from : cvec) (delta : nat) : M St cvec :=
  let! l := dcc_argv_len from in
  do! malloc_or EXIT_OUT_OF_MEMORY;
  let! b := copy_elems from l in
  ret (b ++ Null :: replicate delta Garbage).

(** arg.c: the vector must have room for one more. *)
Definition dcc_argv_append (argv : cvec) (toadd : slot) : M St cvec :=
  let! l := dcc_argv_len argv in
  let! argv := store argv l toadd in
  store argv (l + 1) Null.

(** The strings a [for (i = 0; a[i]; i++)] loop visits. *)
Fixpoint argv_strings (a : cvec) : M St (list cstr) :=
  match a with
  | Str s :: a => let! r := argv_strings a in ret (s :: r)
  | Null :: _ => ret []
  | _ => ub
  end.

(** The characters the quoting test of [dcc_argv_tostr] looks for. *)
Definition quote_chars : cstr :=
  [" "; "009"; "010"; "034"; "'"; ";"]%char.

Definition needs_quotes (s : cstr) : bool :=
  existsb (λ c, bool_decide (c ∈ quote_chars)) s.

(** The size [dcc_argv_tostr] computes before allocating: [l + 1]. *)
Fixpoint tostr_len (args : list cstr) : nat :=
  match args with
  | [] => 0
  | a :: args => length a + 3 + tostr_len args
  end.

(** What the writing loop stores before the final NUL, from index [i]. *)
Fixpoint tostr_write (i : nat) (args : list cstr) : cstr :=
  match args with
  | [] => []
  | a :: args =>
      (if decide (i = 0) then [] else " "%cs)
      ++ (if needs_quotes a then ["034"%char] else [])
      ++ a
      ++ (if needs_quotes a then ["034"%char] else [])
      ++ tostr_write (S i) args
  end.

(** [dcc_argv_tostr]: the string, or UB if the writes overrun the block. *)
Definition dcc_argv_tostr (a : cvec) : M St cstr :=
  let! args := argv_strings a in
  let l := tostr_len args in
  let! b := malloc in
  if b then
    let s := tostr_write 0 args in
    if decide (length s + 1 ≤ l + 1) then ret s else ub
  else exit_ EXIT_OUT_OF_MEMORY.

(** ** Lemmas *)

Lemma argv_len_vec args tl σ :
  dcc_argv_len (vec args ++ tl) σ = (Ok (length args), σ).
Proof.
  unfold vec. rewrite <- app_assoc. induction args as [|a args IH]; simpl; [done|].
  by rewrite (bind_Ok _ _ _ _ _ IH).
Qed.

Lemma argv_strings_vec args tl σ :
  argv_strings (vec args ++ tl) σ = (Ok args, σ).
Proof.
  unfold vec. rewrite <- app_assoc. induction args as [|a args IH]; simpl; [done|].
  by rewrite (bind_Ok _ _ _ _ _ IH).
Qed.

Lemma tostr_write_fits i args :
  length (tostr_write i args) ≤ tostr_len args.
Proof.
  revert i. induction args as [|a args IH]; intros i; simpl; [done|].
  rewrite !length_app. specialize (IH (S i)).
  destruct (decide (i = 0)), (needs_quotes a); simpl; lia.
Qed.

Lemma copy_elems_ok args tl σ :
  mem_ok σ → copy_elems (vec args ++ tl) (length args) σ = (Ok (Str <$> args), σ).
Proof.
  intros Hm. unfold vec. rewrite <- app_assoc.
  induction args as [|a args IH]; simpl; [done|].
  rewrite (bind_Ok _ _ _ () σ) by by apply malloc_or_ok.
  by rewrite (bind_Ok _ _ _ _ _ IH).
Qed.

Lemma copy_argv_ok args tl delta σ :
  mem_ok σ →
  dcc_copy_argv (vec args ++ tl) delta σ =
    (Ok (vec args ++ replicate delta Garbage), σ).
Proof.
  intros Hm. unfold dcc_copy_argv.
  rewrite (bind_Ok _ _ _ _ _ (argv_len_vec args tl σ)).
  rewrite (bind_Ok _ _ _ () σ) by by apply malloc_or_ok.
  rewrite (bind_Ok _ _ _ _ _ (copy_elems_ok args tl σ Hm)).
  unfold ret, vec. by rewrite <- app_assoc.
Qed.

(** Under any allocation behaviour a copy is the vector or out of memory. *)
Lemma copy_elems_cases args tl σ :
  ∃ σ', copy_elems (vec args ++ tl) (length args) σ = (Ok (Str <$> args), σ') ∨
        copy_elems (vec args ++ tl) (length args) σ = (Fail EXIT_OUT_OF_MEMORY, σ').
Proof.
  unfold vec. rewrite <- app_assoc. revert σ.
  induction args as [|a args IH]; simpl; intros σ; [eauto|].
  unfold bind at 1 3. destruct (malloc_or EXIT_OUT_OF_MEMORY σ) as [o σ1] eqn:E.
  destruct (malloc_or_cases EXIT_OUT_OF_MEMORY σ) as [E'|E'];
    rewrite E in E'; simpl in E'; subst; [|eauto].
  destruct (IH σ1) as [σ' [E1|E1]]; exists σ'.
  - left. by rewrite (bind_Ok _ _ _ _ _ E1).
  - right. by rewrite (bind_Fail _ _ _ _ _ E1).
Qed.

Lemma copy_argv_cases args tl delta σ :
  ∃ σ', dcc_copy_argv (vec args ++ tl) delta σ =
          (Ok (vec args ++ replicate delta Garbage), σ') ∨
        dcc_copy_argv (vec args ++ tl) delta σ = (Fail EXIT_OUT_OF_MEMORY, σ').
Proof.
  unfold dcc_copy_argv. rewrite (bind_Ok _ _ _ _ _ (argv_len_vec args tl σ)).
  unfold bind at 1 3. destruct (malloc_or EXIT_OUT_OF_MEMORY σ) as [o σ1] eqn:E.
  destruct (malloc_or_cases EXIT_OUT_OF_MEMORY σ) as [E'|E'];
    rewrite E in E'; simpl in E'; subst; [|eauto].
  destruct (copy_elems_cases args tl σ1) as [σ' [E1|E1]]; exists σ'.
  - left. rewrite (bind_Ok _ _ _ _ _ E1). unfold ret, vec. by rewrite <- app_assoc.
  - right. by rewrite (bind_Fail _ _ _ _ _ E1).
Qed.

Lemma blit_app a b c vals :
  length b = length vals → blit (a ++ b ++ c) (length a) vals = Some (a ++ vals ++ c).
Proof.
  intros Hl. unfold blit. rewrite decide_True by (rewrite !length_app; lia).
  rewrite take_app_length, drop_app_ge by lia.
  rewrite Nat.add_comm, Nat.add_sub, <- Hl. by rewrite drop_app_length.
Qed.

Lemma store_app a b c v σ :
  store (a ++ b :: c) (length a) v σ = (Ok (a ++ v :: c), σ).
Proof.
  unfold store. change (b :: c) with ([b] ++ c). by rewrite blit_app.
Qed.

(** Appending into the spare slot after the terminator. *)
Lemma argv_append_slot args v x tl σ :
  dcc_argv_append (vec args ++ x :: tl) v σ =
    (Ok ((Str <$> args) ++ v :: Null :: tl), σ).
Proof.
  unfold dcc_argv_append. rewrite (bind_Ok _ _ _ _ _ (argv_len_vec args _ σ)).
  unfold vec. rewrite <- app_assoc, <- (length_fmap Str args). simpl.
  rewrite (bind_Ok _ _ _ _ _ (store_app _ _ _ _ σ)).
  replace (length (Str <$> args) + 1) with (length ((Str <$> args) ++ [v]))
    by (rewrite length_app; done).
  change (v :: x :: tl) with ([v] ++ x :: tl).
  rewrite app_assoc, store_app. by rewrite <- app_assoc.
Qed.

Lemma argv_append_ok args a x tl σ :
  dcc_argv_append (vec args ++ x :: tl) (Str a) σ =
    (Ok (vec (args ++ [a]) ++ tl), σ).
Proof.
  rewrite argv_append_slot. unfold vec. by rewrite fmap_app, <- !app_assoc.
Qed.
End Argv.

#[export] Hint Resolve malloc_or_ok : distcc.
