(* ===== verification/Arg.v ===== *)
(** * arg.c: understanding and rewriting compiler command lines *)

From S2P Require Import Prelude CLib Util Filename Argv.

(** What the option tests of [dcc_scan_args] make of a word that starts with
    '-', in the order the code tries them. *)
Inductive opt_class :=
| OptPass          (** of no interest, or handled by the way cpp is called *)
| OptArg           (** takes the next word: [i++] *)
| OptLocal         (** must be local: return EXIT_DISTCC_FAILED *)
| OptS             (** -S *)
| OptC             (** -c *)
| OptOut           (** -o: the next word is the output *)
| OptOutJoined.    (** -oFILE *)

#[export] Instance opt_class_eq_dec : EqDecision opt_class.
Proof. solve_decision. Defined.

Definition classify_opt (a : cstr) : opt_class :=
  if streq a "-E"%cs then OptLocal
  else if streq a "-MD"%cs || streq a "-MMD"%cs then OptPass
  else if streq a "-MG"%cs || streq a "-MP"%cs then OptPass
  else if streq a "-MF"%cs || streq a "-MT"%cs || streq a "-MQ"%cs then OptArg
  else if strncmp0 a "-MF"%cs 3 || strncmp0 a "-MT"%cs 3 || strncmp0 a "-MQ"%cs 3
       then OptPass
  else if ceqb (cget a 1) "M" then OptLocal
  else if streq a "-march=native"%cs then OptLocal
  else if streq a "-mtune=native"%cs then OptLocal
  else if str_startswith "-Wa,"%cs a then
    if bool_decide (is_Some (strstr a ",-a"%cs))
       || bool_decide (is_Some (strstr a "--MD"%cs))
    then OptLocal else OptPass
  else if str_startswith "-specs="%cs a then OptLocal
  else if streq a "-S"%cs then OptS
  else if streq a "-fprofile-arcs"%cs || streq a "-ftest-coverage"%cs
          || streq a "--coverage"%cs then OptLocal
  else if streq a "-frepo"%cs then OptLocal
  else if str_startswith "-x"%cs a then OptLocal
  else if str_startswith "-dr"%cs a then OptLocal
  else if streq a "-c"%cs then OptC
  else if streq a "-o"%cs then OptOut
  else if str_startswith "-o"%cs a then OptOutJoined
  else OptPass.

(** The locals of the loop and the two out-parameters it sets. *)
Record scan_state := ScanState {
  seen_opt_c : bool;
  seen_opt_s : bool;
  input_file : option cstr;
  output_file : option cstr
}.

Definition scan_init : scan_state := ScanState false false None None.

Definition set_seen_c (st : scan_state) : scan_state :=
  ScanState true (seen_opt_s st) (input_file st) (output_file st).
Definition set_seen_s (st : scan_state) : scan_state :=
  ScanState (seen_opt_c st) true (input_file st) (output_file st).
Definition set_input_file (i : option cstr) (st : scan_state) : scan_state :=
  ScanState (seen_opt_c st) (seen_opt_s st) i (output_file st).
Definition set_output_file (o : option cstr) (st : scan_state) : scan_state :=
  ScanState (seen_opt_c st) (seen_opt_s st) (input_file st) o.

Section Arg.
  Context {St : Type} {MS : MemState St} {Cfg : Config}.

(** The loop over [argv[i]], from the slots at and after [i]: the return code
    (0 when it runs to the end) and the state it leaves. *)
Fixpoint scan_loop (rest : cvec) (st : scan_state) : outcome (Z * scan_state) :=
  match rest with
  | [] => Undef
  | Garbage :: _ => Undef
  | Null :: _ => Ok (0%Z, st)
  | Str a :: rest =>
      if ceqb (cget a 0) "-" then
        match classify_opt a with
        | OptPass => scan_loop rest st
        | OptArg => match rest with _ :: rest => scan_loop rest st | [] => Undef end
        | OptLocal => Ok (EXIT_DISTCC_FAILED, st)
        | OptS => scan_loop rest (set_seen_s st)
        | OptC => scan_loop rest (set_seen_c st)
        | OptOut =>
            match rest with
            | Str o :: rest =>
                match output_file st with
                | Some _ => Ok (EXIT_DISTCC_FAILED, st)
                | None => scan_loop rest (set_output_file (Some o) st)
                end
            | Null :: rest =>
                match output_file st with
                | Some _ => Ok (EXIT_DISTCC_FAILED, st)
                | None => scan_loop rest (set_output_file None st)
                end
            | _ => Undef
            end
        | OptOutJoined =>
            match output_file st with
            | Some _ => Ok (EXIT_DISTCC_FAILED, st)
            | None => scan_loop rest (set_output_file (Some (drop 2 a)) st)
            end
        end
      else if dcc_is_source a then
        match input_file st with
        | Some _ => Ok (EXIT_DISTCC_FAILED, st)
        | None => scan_loop rest (set_input_file (Some a) st)
        end
      else if str_endswith ".o"%cs a then
        match output_file st with
        | Some _ => Ok (EXIT_DISTCC_FAILED, st)
        | None => scan_loop rest (set_output_file (Some a) st)
        end
      else scan_loop rest st
  end.

(** What [dcc_scan_args] leaves behind, whatever it returns. *)
Record scan_out := ScanOut {
  sc_ret : Z;
  sc_input : option cstr;
  sc_output : option cstr;
  sc_newargv : cvec
}.

(** The part after the loop. *)
Definition scan_finish (argv : cvec) (st : scan_state) : M St scan_out :=
  let out r st argv := ret (ScanOut r (input_file st) (output_file st) argv) in
  if negb (seen_opt_c st) && negb (seen_opt_s st) then out EXIT_DISTCC_FAILED st argv
  else match input_file st with
  | None => out EXIT_DISTCC_FAILED st argv
  | Some input =>
      if negb (dcc_source_needs_local input =? 0)%Z then out EXIT_DISTCC_FAILED st argv
      else
        let! r :=
          match output_file st with
          | Some o => ret (inl (st, argv, o))
          | None =>
              let! r := attempt (dcc_output_from_source input
                                   (if seen_opt_s st then ".s"%cs else ".o"%cs)) in
              match r with
              | inr _ => ret (inr EXIT_DISTCC_FAILED)
              | inl ofile =>
                  let! b := malloc in
                  let! argv := dcc_argv_append argv (if b then Str "-o"%cs else Null) in
                  let! argv := dcc_argv_append argv (Str ofile) in
                  ret (inl (set_output_file (Some ofile) st, argv, ofile))
              end
          end in
        match r with
        | inr c => out c st argv
        | inl (st, argv, o) =>
            if streq o "-"%cs then out EXIT_DISTCC_FAILED st argv
            else out 0%Z st argv
        end
  end.

Definition dcc_scan_args_full (argv : cvec) : M St scan_out :=
  let! argv := dcc_copy_argv argv 2 in
  match argv with
  | Str a0 :: _ =>
      if ceqb (cget a0 0) "-" then exit_ EXIT_BAD_ARGUMENTS
      else
        match scan_loop argv scan_init with
        | Ok (r, st) =>
            if (r =? 0)%Z then scan_finish argv st
            else ret (ScanOut r (input_file st) (output_file st) argv)
        | _ => ub
        end
  | _ => ub
  end.

(** Input file, output file and new argument vector, or the error code. *)
Definition dcc_scan_args (argv : cvec) : M St (option cstr * option cstr * cvec) :=
  let! r := dcc_scan_args_full argv in
  if (sc_ret r =? 0)%Z then ret (sc_input r, sc_output r, sc_newargv r)
  else fail (sc_ret r).

(** Change "-c" or "-S" to [new_c]. *)
Fixpoint set_action_loop (a : cvec) (new_c : cstr) : M St (cvec * bool) :=
  match a with
  | Str s :: a =>
      if streq s "-c"%cs || streq s "-S"%cs then
        let! b := malloc in
        if b then
          let! r := set_action_loop a new_c in ret (Str new_c :: r.1, true)
        else exit_ EXIT_OUT_OF_MEMORY
      else
        let! r := set_action_loop a new_c in ret (Str s :: r.1, r.2)
  | Null :: a => ret (Null :: a, false)
  | _ => ub
  end.

Definition dcc_set_action_opt (a : cvec) (new_c : cstr) : M St cvec :=
  let! r := set_action_loop a new_c in
  if r.2 then ret r.1 else fail EXIT_DISTCC_FAILED.

(** Change object file or suffix of -o to @p ofname. *)
Fixpoint dcc_set_output (a : cvec) (ofname : cstr) : M St cvec :=
  match a with
  | Null :: _ => fail EXIT_DISTCC_FAILED
  | Str s :: rest =>
      let joined :=
        do! malloc_or EXIT_OUT_OF_MEMORY; ret (Str ("-o"%cs ++ ofname) :: rest) in
      if streq s "-o"%cs then
        match rest with
        | Null :: _ => joined
        | Str _ :: rest' =>
            do! malloc_or EXIT_OUT_OF_MEMORY; ret (Str s :: Str ofname :: rest')
        | _ => ub
        end
      else if strncmp0 s "-o"%cs 2 then joined
      else let! r := dcc_set_output rest ofname in ret (Str s :: r)
  | _ => ub
  end.

(** Change input file to a copy of @p ifname. *)
Fixpoint dcc_set_input (a : cvec) (ifname : cstr) : M St cvec :=
  match a with
  | Null :: _ => fail EXIT_DISTCC_FAILED
  | Str s :: rest =>
      if dcc_is_source s then
        do! malloc_or EXIT_OUT_OF_MEMORY; ret (Str ifname :: rest)
      else let! r := dcc_set_input rest ifname in ret (Str s :: r)
  | _ => ub
  end.
End Arg.
