(* ===== verification/ArgScan.v ===== *)
(** * What [dcc_scan_args] decides: a reference definition and its properties

    The command line is cut into words and option/argument pairs; each stands
    for one item of interest to distcc.  The reference definition decides from
    the multiset of items, without the loop, its early returns and its
    in-place growth of the vector. *)

From S2P Require Import Prelude CLib Util Filename Argv Arg.

Inductive wunit := W1 (a : cstr) | W2 (a b : cstr).

Definition dash (a : cstr) : bool := ceqb (cget a 0) "-".

Definition takes_arg (a : cstr) : bool :=
  dash a && match classify_opt a with OptArg | OptOut => true | _ => false end.

Definition unit_words (u : wunit) : list cstr :=
  match u with W1 a => [a] | W2 a b => [a; b] end.

Definition words (us : list wunit) : list cstr := us ≫= unit_words.

(** [None] when the last option wants a word that is not there. *)
Fixpoint units (args : list cstr) : option (list wunit) :=
  match args with
  | [] => Some []
  | a :: args =>
      if takes_arg a then
        match args with
        | b :: args => cons (W2 a b) <$> units args
        | [] => None
        end
      else cons (W1 a) <$> units args
  end.

Definition unit_wf (u : wunit) : Prop :=
  match u with
  | W1 a => takes_arg a = false
  | W2 a _ => takes_arg a = true
  end.

Inductive item :=
| ItPass | ItLocal | ItC | ItS | ItOut (o : cstr) | ItIn (i : cstr).

#[export] Instance item_eq_dec : EqDecision item.
Proof. solve_decision. Defined.

Section ScanSpec.
  Context {Cfg : Config}.

Definition unit_item (u : wunit) : item :=
  match u with
  | W1 a =>
      if dash a then
        match classify_opt a with
        | OptLocal => ItLocal
        | OptS => ItS
        | OptC => ItC
        | OptOutJoined => ItOut (drop 2 a)
        | _ => ItPass
        end
      else if dcc_is_source a then ItIn a
      else if str_endswith ".o"%cs a then ItOut a
      else ItPass
  | W2 a b => match classify_opt a with OptOut => ItOut b | _ => ItPass end
  end.

Definition items (us : list wunit) : list item := unit_item <$> us.

Definition inputs (its : list item) : list cstr :=
  omap (λ x, match x with ItIn i => Some i | _ => None end) its.
Definition outputs (its : list item) : list cstr :=
  omap (λ x, match x with ItOut o => Some o | _ => None end) its.

(** The default output: the source's last component with a new extension. *)
Definition default_output (i ext : cstr) : option cstr :=
  let base := match strrchr i "/" with
              | Some slash => drop (slash + 1) i
              | None => i
              end in
  if decide (length base < 3) then None
  else match dcc_find_extension base with
       | Some dot => Some (take dot base ++ ext)
       | None => None
       end.

(** The decision: input, output, and the words to run. *)
Definition scan_spec (args : list cstr) (its : list item)
    : option (cstr * cstr * list cstr) :=
  if decide (ItLocal ∈ its) then None
  else if decide (ItC ∉ its ∧ ItS ∉ its) then None
  else match inputs its, outputs its with
  | [i], [] =>
      if decide (dcc_source_needs_local i ≠ 0%Z) then None
      else
        match default_output i (if decide (ItS ∈ its) then ".s"%cs else ".o"%cs) with
        | Some o => Some (i, o, args ++ ["-o"%cs; o])
        | None => None
        end
  | [i], [o] =>
      if decide (dcc_source_needs_local i ≠ 0%Z) then None
      else if decide (o = "-"%cs) then None
      else Some (i, o, args)
  | _, _ => None
  end.

(** ** The loop as a fold over items *)

Fixpoint run_items (its : list item) (st : scan_state) : Z * scan_state :=
  match its with
  | [] => (0%Z, st)
  | ItPass :: its => run_items its st
  | ItLocal :: _ => (EXIT_DISTCC_FAILED, st)
  | ItC :: its => run_items its (set_seen_c st)
  | ItS :: its => run_items its (set_seen_s st)
  | ItOut o :: its =>
      match output_file st with
      | Some _ => (EXIT_DISTCC_FAILED, st)
      | None => run_items its (set_output_file (Some o) st)
      end
  | ItIn i :: its =>
      match input_file st with
      | Some _ => (EXIT_DISTCC_FAILED, st)
      | None => run_items its (set_input_file (Some i) st)
      end
  end.


Lemma classify_OptOut a : classify_opt a = OptOut → a = "-o"%cs.
Proof.
  unfold classify_opt. repeat case_match; intros; simplify_eq; by btest.
Qed.

Lemma classify_OptArg a :
  classify_opt a = OptArg → a = "-MF"%cs ∨ a = "-MT"%cs ∨ a = "-MQ"%cs.
Proof.
  unfold classify_opt. repeat case_match; intros; simplify_eq; btest; tauto.
Qed.

Lemma units_words_len n args us :
  length args ≤ n → units args = Some us → words us = args ∧ Forall unit_wf us.
Proof.
  revert args us. induction n as [|n IH]; intros [|a args] us Hn Hu;
    simpl in *; simplify_eq/=; try (split; [done|constructor]); try lia.
  destruct (takes_arg a) eqn:Ht.
  - destruct args as [|b args]; [done|].
    apply fmap_Some in Hu as (us' & Hu & ->).
    destruct (IH args us') as [<- ?]; [simpl in *; lia|done|].
    split; [done|]. by constructor.
  - apply fmap_Some in Hu as (us' & Hu & ->).
    destruct (IH args us') as [<- ?]; [lia|done|].
    split; [done|]. by constructor.
Qed.

Lemma units_words args us :
  units args = Some us → words us = args ∧ Forall unit_wf us.
Proof. by eapply units_words_len. Qed.

Lemma units_of_words us : Forall unit_wf us → units (words us) = Some us.
Proof.
  induction 1 as [|[a|a b] us Hu _ IH]; simpl in *; [done|..];
    by rewrite Hu, IH.
Qed.

Lemma words_cons u us : words (u :: us) = unit_words u ++ words us.
Proof. done. Qed.

Lemma items_cons u us : items (u :: us) = unit_item u :: items us.
Proof. done. Qed.

Lemma items_app us us' : items (us ++ us') = items us ++ items us'.
Proof. apply fmap_app. Qed.

Lemma words_app us us' : words (us ++ us') = words us ++ words us'.
Proof. apply bind_app. Qed.

Lemma inputs_app l l' : inputs (l ++ l') = inputs l ++ inputs l'.
Proof. apply omap_app. Qed.

Lemma outputs_app l l' : outputs (l ++ l') = outputs l ++ outputs l'.
Proof. apply omap_app. Qed.

(** The loop over the words of [us] is the fold over their items. *)
Lemma scan_loop_app us rest st :
  Forall unit_wf us →
  scan_loop ((Str <$> words us) ++ rest) st =
    let '(r, st') := run_items (items us) st in
    if (r =? 0)%Z then scan_loop rest st' else Ok (r, st').
Proof.
  intros Hwf. revert st.
  induction Hwf as [|[a|a b] us Hu _ IH]; intros st; [done|..];
    rewrite words_cons; cbn [unit_words app fmap list_fmap scan_loop];
    cbn [unit_wf] in Hu; unfold takes_arg, dash in Hu;
    unfold items; cbn [fmap list_fmap unit_item].
  - unfold dash. destruct (ceqb (cget a 0) "-") eqn:Hd; simpl in Hu.
    + destruct (classify_opt a); simplify_eq/=; try apply IH; try done.
      destruct (output_file st); [done|apply IH].
    + destruct (dcc_is_source a); [|destruct (str_endswith ".o"%cs a)]; simpl.
      * destruct (input_file st); [done|apply IH].
      * destruct (output_file st); [done|apply IH].
      * apply IH.
  - destruct (ceqb (cget a 0) "-") eqn:Hd; simpl in Hu; [|done].
    destruct (classify_opt a) eqn:Hc; simplify_eq/=; [apply IH|].
    destruct (output_file st); [done|apply IH].
Qed.

Lemma run_items_code its st :
  (run_items its st).1 = 0%Z ∨ (run_items its st).1 = EXIT_DISTCC_FAILED.
Proof.
  revert st. induction its as [|[] its IH]; intros st; simpl; auto;
    destruct (output_file st), (input_file st); auto.
Qed.

Lemma scan_loop_units us tl st :
  Forall unit_wf us →
  scan_loop (vec (words us) ++ tl) st = Ok (run_items (items us) st).
Proof.
  intros Hwf. unfold vec. rewrite <- app_assoc, scan_loop_app by done.
  pose proof (run_items_code (items us) st) as Hc.
  destruct (run_items (items us) st) as [r st']; simpl in *.
  destruct Hc as [->| ->]; done.
Qed.

(** The fold succeeds exactly when nothing is local and no file is given
    twice. *)
Definition items_ok (its : list item) (st : scan_state) : Prop :=
  ItLocal ∉ its ∧
  length (option_list (input_file st) ++ inputs its) ≤ 1 ∧
  length (option_list (output_file st) ++ outputs its) ≤ 1.

Definition items_state (its : list item) (st : scan_state) : scan_state :=
  ScanState (seen_opt_c st || bool_decide (ItC ∈ its))
            (seen_opt_s st || bool_decide (ItS ∈ its))
            (head (option_list (input_file st) ++ inputs its))
            (head (option_list (output_file st) ++ outputs its)).

Lemma bool_decide_elem_cons (x y : item) its :
  bool_decide (x ∈ y :: its) = bool_decide (x = y) || bool_decide (x ∈ its).
Proof.
  rewrite !bool_decide_decide. repeat case_decide; simpl; set_solver.
Qed.

Lemma run_items_ok its st :
  items_ok its st → run_items its st = (0%Z, items_state its st).
Proof.
  revert st. induction its as [|x its IH]; intros st (Hl & Hi & Ho).
  - destruct st as [c s [i|] [o|]]; unfold items_state; simpl;
      rewrite ?orb_false_r; done.
  - assert (ItLocal ≠ x ∧ ItLocal ∉ its) as [Hx Hl'] by set_solver.
    unfold items_state. rewrite !bool_decide_elem_cons.
    destruct x as [| | | |o|i]; simpl in Hi, Ho |- *; try done.
    + rewrite IH by done. done.
    + rewrite IH by done. unfold items_state; simpl. f_equal. f_equal.
      by destruct (seen_opt_c st).
    + rewrite IH by done. unfold items_state; simpl. f_equal. f_equal.
      by destruct (seen_opt_s st).
    + destruct (output_file st) as [o'|] eqn:E; simpl in Ho; [lia|].
      rewrite IH by (unfold items_ok; done). done.
    + destruct (input_file st) as [i'|] eqn:E; simpl in Hi; [lia|].
      rewrite IH by (unfold items_ok; done). done.
Qed.

Lemma run_items_fail its st :
  ¬ items_ok its st → (run_items its st).1 = EXIT_DISTCC_FAILED.
Proof.
  revert st. induction its as [|x its IH]; intros st Hn.
  - destruct Hn. unfold items_ok. destruct st as [c s [i|] [o|]]; simpl; set_solver by lia.
  - destruct x as [| | | |o|i]; simpl; try done.
    + apply IH. intros (?&?&?). apply Hn. split_and!; [set_solver|done|done].
    + apply IH. intros (?&?&?). apply Hn. split_and!; [set_solver|done|done].
    + apply IH. intros (?&?&?). apply Hn. split_and!; [set_solver|done|done].
    + destruct (output_file st) eqn:E; [done|].
      apply IH. intros (?&?&?). apply Hn. unfold items_ok. rewrite E.
      split_and!; [set_solver|done|done].
    + destruct (input_file st) eqn:E; [done|].
      apply IH. intros (?&?&?). apply Hn. unfold items_ok. rewrite E.
      split_and!; [set_solver|done|done].
Qed.

#[export] Instance items_ok_dec its st : Decision (items_ok its st).
Proof. unfold items_ok. apply _. Defined.

Lemma scan_spec_not_ok args its :
  ¬ items_ok its scan_init → scan_spec args its = None.
Proof.
  intros Hn. unfold scan_spec. case_decide as Hl; [done|]. case_decide; [done|].
  destruct (inputs its) as [|i [|]] eqn:Ei; [done| |done].
  destruct (outputs its) as [|o [|]] eqn:Eo; [| |done];
    exfalso; apply Hn; unfold items_ok; rewrite Ei, Eo; simpl; auto.
Qed.
End ScanSpec.

Section ScanProperties.
  Context {St : Type} {MS : MemState St} {Cfg : Config}.
  Implicit Types σ : St.

Lemma output_from_source_run i ext σ :
  length ext = 2 → mem_ok σ →
  dcc_output_from_source i ext σ =
    (match default_output i ext with
     | Some o => Ok o
     | None => Fail EXIT_DISTCC_FAILED
     end, σ).
Proof.
  intros Hl Hm. unfold dcc_output_from_source, default_output.
  set (base := match strrchr i "/" with Some _ => _ | None => _ end).
  case_decide; [done|]. destruct (dcc_find_extension base) as [dot|] eqn:E.
  - pose proof E as E'. apply find_extension_Some in E' as (a & b & Hb & _ & Hne & ->).
    rewrite (set_file_extension_ok base ext a b σ Hm Hb E).
    destruct b; [done|]. rewrite decide_False by (simpl; lia).
    by rewrite Hb, take_app_length.
  - unfold dcc_set_file_extension.
    rewrite (bind_Ok _ _ _ () σ) by by apply malloc_or_ok. by rewrite E.
Qed.

(** Under any allocation behaviour. *)
Lemma output_from_source_cases i ext σ :
  ∃ σ', (∃ o, dcc_output_from_source i ext σ = (Ok o, σ')) ∨
        dcc_output_from_source i ext σ = (Fail EXIT_DISTCC_FAILED, σ').
Proof.
  unfold dcc_output_from_source, dcc_set_file_extension.
  set (base := match strrchr i "/" with Some _ => _ | None => _ end).
  case_decide; [eauto|]. unfold bind.
  destruct (malloc_or EXIT_DISTCC_FAILED σ) as [o σ1] eqn:E.
  destruct (malloc_or_cases EXIT_DISTCC_FAILED σ) as [E'|E'];
    rewrite E in E'; simpl in E'; subst; [|eauto].
  destruct (dcc_find_extension base); [|eauto]. case_decide; eauto.
Qed.

Lemma default_output_not_dash i ext o :
  length ext = 2 → default_output i ext = Some o → o ≠ "-"%cs.
Proof.
  unfold default_output. intros Hl. case_decide; [done|].
  destruct (dcc_find_extension _); [|done]. intros [= <-] E.
  apply (f_equal length) in E. rewrite length_app in E. simpl in E. lia.
Qed.

(** Where the two spare slots of the copied vector end up. *)
Definition spare (args args' : list cstr) : cvec :=
  replicate (length args + 2 - length args') Garbage.

Lemma malloc_ok σ : mem_ok σ → malloc σ = (Ok true, σ).
Proof. intros Hm. unfold malloc, mem_ok in *. by rewrite Hm. Qed.

Lemma append_output_ok args o σ :
  mem_ok σ →
  (let! b := malloc in
   let! argv := dcc_argv_append (vec args ++ [Garbage; Garbage])
                  (if b then Str "-o"%cs else Null) in
   dcc_argv_append argv (Str o)) σ = (Ok (vec (args ++ ["-o"%cs; o])), σ).
Proof.
  intros Hm. rewrite (bind_Ok _ _ _ true σ) by by apply malloc_ok.
  rewrite (bind_Ok _ _ _ _ σ (argv_append_ok args "-o"%cs Garbage [Garbage] σ)).
  rewrite argv_append_ok. by rewrite app_nil_r, <- app_assoc.
Qed.

(** The part after the loop, from the state the loop leaves. *)
Lemma scan_finish_spec args its σ :
  mem_ok σ → items_ok its scan_init →
  ∃ r, scan_finish (vec args ++ [Garbage; Garbage]) (items_state its scan_init) σ =
         (Ok r, σ) ∧
    match scan_spec args its with
    | Some (i, o, args') =>
        r = ScanOut 0 (Some i) (Some o) (vec args' ++ spare args args')
    | None => sc_ret r = EXIT_DISTCC_FAILED
    end.
Proof.
  intros Hm (Hl & Hi & Ho). unfold scan_spec, scan_finish, items_state.
  simpl in *. rewrite decide_False by done.
  destruct (decide (ItC ∉ its ∧ ItS ∉ its)) as [[Hc Hs]|Hcs].
  { rewrite !bool_decide_false by done. eexists; split; done. }
  assert (negb (bool_decide (ItC ∈ its)) && negb (bool_decide (ItS ∈ its)) = false) as ->.
  { rewrite !bool_decide_decide. destruct (decide (ItC ∈ its)), (decide (ItS ∈ its)); tauto. }
  destruct (inputs its) as [|i [|]]; simpl in Hi |- *; [eexists; split; done| |lia].
  destruct (decide (dcc_source_needs_local i ≠ 0%Z)) as [Hn|Hn].
  { assert ((dcc_source_needs_local i =? 0)%Z = false) as -> by lia.
    destruct (outputs its) as [|o [|]]; (eexists; split; done) || (simpl in Ho; lia). }
  assert ((dcc_source_needs_local i =? 0)%Z = true) as -> by lia. simpl.
  destruct (outputs its) as [|o [|]]; simpl in Ho |- *; [| |lia].
  - replace (if decide (ItS ∈ its) then ".s"%cs else ".o"%cs)
      with (if bool_decide (ItS ∈ its) then ".s"%cs else ".o"%cs)
      by (rewrite bool_decide_decide; by case_decide).
    set (ext := if bool_decide (ItS ∈ its) then ".s"%cs else ".o"%cs).
    assert (length ext = 2) as Hext by (subst ext; by case_bool_decide).
    pose proof (output_from_source_run i ext σ Hext Hm) as Hr.
    destruct (default_output i ext) as [o|] eqn:E.
    + erewrite bind_Ok; cycle 1.
      { unfold attempt, bind at 1. rewrite Hr.
        pose proof (append_output_ok args o σ Hm) as Ha. unfold bind in Ha |- *.
        rewrite malloc_ok in Ha |- * by done.
        destruct (dcc_argv_append _ _ σ) as [[]]; simplify_eq.
        rewrite Ha. reflexivity. }
      simpl. rewrite (proj2 (streq_false _ _)) by by eapply default_output_not_dash.
      eexists; split; [done|]. unfold spare. rewrite length_app. simpl.
      by rewrite Nat.sub_diag, app_nil_r.
    + erewrite bind_Ok by (unfold attempt, bind; rewrite Hr; reflexivity).
      eexists; split; done.
  - unfold bind, ret. destruct (streq o "-"%cs) eqn:E; btest.
    + rewrite decide_True by done. eexists; split; done.
    + rewrite decide_False by done. eexists; split; [done|].
      unfold spare. by replace (length args + 2 - length args) with 2 by lia.
Qed.

(** Up to the end of the loop. *)
Lemma scan_args_loop args us tl σ σ' :
  units args = Some us →
  match args with a0 :: _ => dash a0 = false | [] => False end →
  dcc_copy_argv (vec args ++ tl) 2 σ = (Ok (vec args ++ [Garbage; Garbage]), σ') →
  dcc_scan_args_full (vec args ++ tl) σ =
    (let '(r, st) := run_items (items us) scan_init in
     if (r =? 0)%Z then scan_finish (vec args ++ [Garbage; Garbage]) st σ'
     else (Ok (ScanOut r (input_file st) (output_file st)
                 (vec args ++ [Garbage; Garbage])), σ')).
Proof.
  intros Hu Ha Hc. apply units_words in Hu as [Hw Hwf].
  unfold dcc_scan_args_full. rewrite (bind_Ok _ _ _ _ _ Hc).
  pose proof (scan_loop_units us [Garbage; Garbage] scan_init Hwf) as Hl.
  rewrite Hw in Hl. destruct args as [|a0 args]; [done|].
  unfold dash in Ha. cbn [vec fmap list_fmap app] in Hl |- *.
  rewrite Ha, Hl. destruct (run_items _ _) as [r st].
  by destruct (r =? 0)%Z.
Qed.

(** The reference definition, for a vector with anything after its
    terminator. *)
Lemma scan_args_run (args : list cstr) (us : list wunit) tl (σ : St) :
  mem_ok σ → units args = Some us →
  match args with a0 :: _ => dash a0 = false | [] => False end →
  dcc_scan_args (vec args ++ tl) σ =
    (match scan_spec args (items us) with
     | Some (i, o, args') => Ok (Some i, Some o, vec args' ++ spare args args')
     | None => Fail EXIT_DISTCC_FAILED
     end, σ).
Proof.
  intros Hm Hu Ha. unfold dcc_scan_args, bind.
  rewrite (scan_args_loop args us tl σ σ Hu Ha (copy_argv_ok args tl 2 σ Hm)).
  destruct (decide (items_ok (items us) scan_init)) as [Hok|Hno].
  - rewrite (run_items_ok _ _ Hok). simpl.
    destruct (scan_finish_spec args (items us) σ Hm Hok) as (r & -> & Hr).
    destruct (scan_spec args (items us)) as [[[i o] args']|]; by rewrite Hr.
  - pose proof (run_items_fail _ _ Hno) as Hf.
    destruct (run_items _ _) as [r st]. simpl in Hf. subst r. simpl.
    by rewrite scan_spec_not_ok.
Qed.

(** C7.  [dcc_scan_args] implements its reference definition: on every
    command line whose options have the words they want, it distributes the
    job exactly when no option must stay local, -c or -S is given, there is
    exactly one source file (which is not one of autoconf's tests) and at most
    one output, not "-"; the vector it returns is the given one, with the
    default "-o FILE" appended when there was no output. *)
Theorem scan_args_spec (args : list cstr) (us : list wunit) (σ : St) :
  mem_ok σ → units args = Some us →
  match args with a0 :: _ => dash a0 = false | [] => False end →
  dcc_scan_args (vec args) σ =
    (match scan_spec args (items us) with
     | Some (i, o, args') => Ok (Some i, Some o, vec args' ++ spare args args')
     | None => Fail EXIT_DISTCC_FAILED
     end, σ).
Proof.
  intros Hm Hu Ha. rewrite <- (app_nil_r (vec args)). by apply scan_args_run.
Qed.

(** The two appends fit the two spare slots, also when the "-o" is lost. *)
Lemma append_pair args (b : bool) o σ :
  ∃ a', (let! a := dcc_argv_append (vec args ++ [Garbage; Garbage])
                     (if b then Str "-o"%cs else Null) in
         dcc_argv_append a (Str o)) σ = (Ok a', σ).
Proof.
  destruct b.
  - rewrite (bind_Ok _ _ _ _ σ (argv_append_ok args "-o"%cs Garbage [Garbage] σ)).
    rewrite argv_append_ok. eauto.
  - rewrite (bind_Ok _ _ _ _ σ (argv_append_slot args Null Garbage [Garbage] σ)).
    change ((Str <$> args) ++ Null :: Null :: [Garbage])
      with ((Str <$> args) ++ [Null] ++ Null :: [Garbage]).
    rewrite app_assoc. fold (vec args). rewrite argv_append_slot. eauto.
Qed.

(** The part after the loop, whatever allocations fail. *)
Lemma scan_finish_safe args st σ :
  ∃ r σ', scan_finish (vec args ++ [Garbage; Garbage]) st σ = (Ok r, σ') ∧
    (sc_ret r = 0%Z ∨ sc_ret r = EXIT_DISTCC_FAILED).
Proof.
  unfold scan_finish.
  destruct (negb _ && _); [do 2 eexists; split; [done|by right]|].
  destruct (input_file st) as [i|]; [|do 2 eexists; split; [done|by right]].
  destruct (negb _); [do 2 eexists; split; [done|by right]|].
  destruct (output_file st) as [o|].
  { unfold bind, ret. destruct (streq o _); do 2 eexists; split; try done; auto. }
  set (ext := if seen_opt_s st then _ else _).
  destruct (output_from_source_cases i ext σ) as (σ1 & [[o Ho]|Ho]);
    unfold bind, attempt; rewrite Ho; [|do 2 eexists; split; [done|by right]].
  assert (∃ b σ2, malloc σ1 = (Ok b, σ2)) as (b & σ2 & ->).
  { unfold malloc. destruct (get_mem σ1); eauto. }
  destruct (append_pair args b o σ2) as [a' Ha]. unfold bind in Ha.
  destruct (dcc_argv_append _ _ σ2) as [[] ?]; simplify_eq. rewrite Ha.
  unfold ret. destruct (streq o _); do 2 eexists; split; try done; auto.
Qed.

(** Whatever allocations fail, scanning such a command line
    never reads outside the vector or an unwritten slot and never ends the
    process: it accepts, or returns EXIT_DISTCC_FAILED or EXIT_OUT_OF_MEMORY. *)
Lemma scan_args_safe (args : list cstr) (us : list wunit) (σ : St) :
  units args = Some us →
  match args with a0 :: _ => dash a0 = false | [] => False end →
  wp (dcc_scan_args (vec args))
     (λ o _, match o with
             | Ok _ => True
             | Fail c => c = EXIT_DISTCC_FAILED ∨ c = EXIT_OUT_OF_MEMORY
             | _ => False
             end) σ.
Proof.
  intros Hu Ha. unfold wp, dcc_scan_args, bind.
  rewrite <- (app_nil_r (vec args)).
  destruct (copy_argv_cases args [] 2 σ) as [σ' [Hc|Hc]].
  - rewrite (scan_args_loop args us [] σ σ' Hu Ha Hc).
    pose proof (run_items_code (items us) scan_init) as Hr.
    destruct (run_items _ _) as [r st]; simpl in Hr.
    destruct Hr as [->| ->]; simpl; [|auto].
    destruct (scan_finish_safe args st σ') as (r & σ2 & -> & [Hr|Hr]);
      rewrite Hr; simpl; auto.
  - unfold dcc_scan_args_full. rewrite (bind_Fail _ _ _ _ _ Hc). simpl. auto.
Qed.

(** A trailing "-o" makes the loop run past the terminator: after
    [a = argv[++i]] is NULL the loop increments [i] again and reads the slots
    [dcc_copy_argv] left unwritten. *)
Lemma scan_args_trailing_o (args : list cstr) (us : list wunit) (σ : St) :
  mem_ok σ → units args = Some us →
  match args with a0 :: _ => dash a0 = false | [] => False end →
  ItLocal ∉ items us → length (inputs (items us)) ≤ 1 → outputs (items us) = [] →
  dcc_scan_args (vec (args ++ ["-o"%cs])) σ = (Undef, σ).
Proof.
  intros Hm Hu Ha Hl Hi Ho. apply units_words in Hu as [<- Hwf].
  unfold dcc_scan_args, dcc_scan_args_full.
  pose proof (copy_argv_ok (words us ++ ["-o"%cs]) [] 2 σ Hm) as Hc.
  rewrite app_nil_r in Hc.
  assert (items_ok (items us) scan_init) as Hok.
  { unfold items_ok. rewrite Ho. simpl. auto with lia. }
  assert (scan_loop ((Str <$> words us) ++ [Str "-o"%cs; Null; Garbage; Garbage])
            scan_init = Undef) as Hs.
  { rewrite scan_loop_app, (run_items_ok _ _ Hok) by done. simpl. by rewrite Ho. }
  unfold bind at 1. rewrite (bind_Ok _ _ _ _ _ Hc).
  unfold vec. rewrite fmap_app, <- !app_assoc.
  destruct (words us) as [|a0 w]; [done|]. cbn [fmap list_fmap app replicate] in Hs |- *.
  unfold dash in Ha. by rewrite Ha, Hs.
Qed.
End ScanProperties.

(** ** Witnesses *)

(** "gcc -c -MF x.d -DX hello.c": accepted, with the default output added. *)
Definition ex_args : list cstr :=
  ["gcc"%cs; "-c"%cs; "-MF"%cs; "x.d"%cs; "-DX"%cs; "src/hello.c"%cs].
Definition ex_units : list wunit :=
  [W1 "gcc"%cs; W1 "-c"%cs; W2 "-MF"%cs "x.d"%cs; W1 "-DX"%cs; W1 "src/hello.c"%cs].

Lemma scan_args_spec_witness :
  dcc_scan_args (St := list bool) (Cfg := usual_config) (vec ex_args) [] =
    (Ok (Some "src/hello.c"%cs, Some "hello.o"%cs,
         vec (ex_args ++ ["-o"%cs; "hello.o"%cs])), []).
Proof.
  rewrite (scan_args_spec (Cfg := usual_config) ex_args ex_units []) by reflexivity.
  vm_compute. reflexivity.
Defined.

Lemma scan_args_safe_witness :
  wp (dcc_scan_args (St := list bool) (Cfg := usual_config) (vec ex_args))
     (λ o _, match o with
             | Ok _ => True
             | Fail c => c = EXIT_DISTCC_FAILED ∨ c = EXIT_OUT_OF_MEMORY
             | _ => False
             end) [true; false].
Proof. apply (scan_args_safe (Cfg := usual_config) ex_args ex_units); reflexivity. Defined.

Lemma scan_args_trailing_o_witness :
  dcc_scan_args (St := list bool) (Cfg := usual_config)
    (vec (["gcc"%cs; "-c"%cs; "hello.c"%cs] ++ ["-o"%cs])) [] = (Undef, []).
Proof.
  apply (scan_args_trailing_o (Cfg := usual_config)
           ["gcc"%cs; "-c"%cs; "hello.c"%cs] [W1 "gcc"%cs; W1 "-c"%cs; W1 "hello.c"%cs]);
    [reflexivity..|vm_compute; set_solver|vm_compute; lia|reflexivity].
Defined.
