(* ===== verification/ArgRewrite.v ===== *)
(** * Rewriting a scanned command line: [dcc_set_output], [dcc_set_input]

    The server scans the client's command line and then redirects its input and
    output to temporary files.  The comments in arg.c ask that both routines
    find what [dcc_scan_args] found; this file says when they do. *)

From S2P Require Import Prelude CLib Util Filename Argv Arg ArgScan.

(** ** How "-o" words are classified *)

Lemma classify_joined y :
  y ≠ [] → classify_opt ("-"%char :: "o"%char :: y) = OptOutJoined.
Proof.
  intros Hy. unfold classify_opt, streq, str_startswith. simpl.
  repeat (rewrite bool_decide_false by (simpl; congruence)). simpl.
  destruct y; [done|]. done.
Qed.

Lemma classify_OptOutJoined a :
  classify_opt a = OptOutJoined → ∃ y, y ≠ [] ∧ a = "-o"%cs ++ y.
Proof.
  unfold classify_opt. repeat case_match; intros; simplify_eq.
  btest. match goal with Hp : "-o"%cs `prefix_of` _ |- _ => destruct Hp as [y ->] end.
  exists y. split; [|done]. by intros ->.
Qed.

Lemma strncmp0_dasho a : strncmp0 a "-o"%cs 2 = true ↔ "-o"%cs `prefix_of` a.
Proof. rewrite strncmp0_sym. apply (strncmp0_prefix "-o"%cs). Qed.

Lemma dasho_cases a :
  "-o"%cs `prefix_of` a → a = "-o"%cs ∨ (a ≠ "-o"%cs ∧ classify_opt a = OptOutJoined ∧ dash a = true).
Proof.
  intros [[|c y] ->]; [by left|right]. split; [done|].
  split; [by apply (classify_joined (c :: y))|done].
Qed.

(** ** Rewriting the output *)

Section SetOutput.
  Context {St : Type} {MS : MemState St} {Cfg : Config}.
  Implicit Types σ : St.

(** Arguments of -MF, -MT and -MQ that look like "-o...". *)
Definition no_dasho_arg (u : wunit) : Prop :=
  match u with
  | W1 _ => True
  | W2 a b => classify_opt a = OptArg → ¬ "-o"%cs `prefix_of` a ∧ ¬ "-o"%cs `prefix_of` b
  end.

(** The units with the first -o redirected. *)
Fixpoint set_out_units (us : list wunit) (ofname : cstr) : option (list wunit) :=
  match us with
  | [] => None
  | W1 a :: us =>
      if bool_decide (classify_opt a = OptOutJoined) && dash a
      then Some (W1 ("-o"%cs ++ ofname) :: us)
      else cons (W1 a) <$> set_out_units us ofname
  | W2 a b :: us =>
      if bool_decide (classify_opt a = OptOut) then Some (W2 a ofname :: us)
      else cons (W2 a b) <$> set_out_units us ofname
  end.

Lemma set_output_skip s rest ofname σ :
  ¬ "-o"%cs `prefix_of` s →
  dcc_set_output (Str s :: rest) ofname σ =
    (let! r := dcc_set_output rest ofname in ret (Str s :: r)) σ.
Proof.
  intros Hp. simpl.
  rewrite (proj2 (streq_false s "-o"%cs)) by (intros ->; by apply Hp).
  by rewrite (not_true_is_false (strncmp0 s "-o"%cs 2)) by by rewrite strncmp0_dasho.
Qed.

Lemma set_output_units us ofname tl σ :
  mem_ok σ → Forall unit_wf us → Forall no_dasho_arg us →
  dcc_set_output (vec (words us) ++ tl) ofname σ =
    (match set_out_units us ofname with
     | Some us' => Ok (vec (words us') ++ tl)
     | None => Fail EXIT_DISTCC_FAILED
     end, σ).
Proof.
  intros Hm Hwf Hno. unfold vec.
  induction us as [|u us IH]; [done|].
  apply Forall_cons in Hwf as [Hu Hwf]. apply Forall_cons in Hno as [Hn Hno].
  specialize (IH Hwf Hno). destruct u as [a|a b]; rewrite words_cons;
    cbn [unit_words app fmap list_fmap]; cbn [set_out_units].
  - destruct (strncmp0 a "-o"%cs 2) eqn:Ep.
    + apply strncmp0_dasho in Ep as Hp. destruct (dasho_cases a Hp) as [->|(Hne & Hc & Hd)].
      { done. }
      rewrite bool_decide_true, Hd by done. cbn [dcc_set_output andb].
      rewrite (proj2 (streq_false a "-o"%cs)) by done. rewrite Ep.
      by rewrite (bind_Ok _ _ _ () σ) by by apply malloc_or_ok.
    + assert (¬ "-o"%cs `prefix_of` a) as Hp by (rewrite <- strncmp0_dasho; congruence).
      rewrite bool_decide_false; cycle 1.
      { intros (y & _ & ->)%classify_OptOutJoined. apply Hp. by exists y. }
      rewrite set_output_skip by done. unfold bind. rewrite IH.
      by destruct (set_out_units us ofname).
  - simpl in Hu. unfold takes_arg in Hu. apply andb_prop in Hu as [Hd Hu].
    destruct (classify_opt a) eqn:Hc; try done.
    + destruct (Hn Hc) as [Ha Hb]. rewrite bool_decide_false by done.
      rewrite set_output_skip by done. unfold bind at 1.
      rewrite set_output_skip by done. unfold bind. rewrite IH.
      by destruct (set_out_units us ofname).
    + apply classify_OptOut in Hc as ->. rewrite bool_decide_true by done. simpl.
      by rewrite (bind_Ok _ _ _ () σ) by by apply malloc_or_ok.
Qed.

(** What the redirection does to the items. *)
Lemma set_out_units_items us us' ofname :
  ofname ≠ [] → Forall unit_wf us → set_out_units us ofname = Some us' →
  Forall unit_wf us' ∧
  ∃ l o l', items us = l ++ ItOut o :: l' ∧ items us' = l ++ ItOut ofname :: l'.
Proof.
  intros Hof Hwf. revert us'. induction Hwf as [|[a|a b] us Hu Hwf IH]; intros us'; simpl; [done|..].
  - destruct (bool_decide (classify_opt a = OptOutJoined) && dash a) eqn:E.
    + apply andb_prop in E as [Hc%bool_decide_eq_true Hd]. intros [= <-].
      split.
      * constructor; [|done]. simpl. unfold takes_arg.
        by rewrite classify_joined.
      * exists [], (drop 2 a), (items us). unfold items; cbn [fmap list_fmap unit_item].
        rewrite Hd, Hc. simpl. by rewrite classify_joined.
    + rewrite fmap_Some. intros (us1 & Hs & ->).
      destruct (IH _ Hs) as (? & l & o & l' & Hi & Hi'). split; [by constructor|].
      exists (unit_item (W1 a) :: l), o, l'. by rewrite !items_cons, Hi, Hi'.
  - case_bool_decide as Hc.
    + intros [= <-]. split; [by constructor|].
      exists [], b, (items us). unfold items; cbn [fmap list_fmap unit_item]. by rewrite Hc.
    + rewrite fmap_Some. intros (us1 & Hs & ->).
      destruct (IH _ Hs) as (? & l & o & l' & Hi & Hi'). split; [by constructor|].
      exists (unit_item (W2 a b) :: l), o, l'. by rewrite !items_cons, Hi, Hi'.
Qed.

(** A -o option, separate or joined. *)
Definition dasho_unit (u : wunit) : Prop :=
  match u with
  | W1 a => classify_opt a = OptOutJoined ∧ dash a = true
  | W2 a _ => classify_opt a = OptOut
  end.

Lemma set_out_units_None us ofname :
  set_out_units us ofname = None ↔ Forall (λ u, ¬ dasho_unit u) us.
Proof.
  induction us as [|[a|a b] us IH]; simpl; [split; [by constructor|done]|..];
    rewrite Forall_cons.
  - destruct (bool_decide (classify_opt a = OptOutJoined) && dash a) eqn:E.
    + apply andb_prop in E as [?%bool_decide_eq_true ?]. naive_solver.
    + apply andb_false_iff in E. rewrite bool_decide_eq_false in E.
      rewrite fmap_None, IH. rewrite <- (not_true_iff_false (dash a)) in E. naive_solver.
  - case_bool_decide; [naive_solver|]. rewrite fmap_None, IH. naive_solver.
Qed.

(** What a unit says apart from the name of the input or of the output. *)
Definition anonymous (u : wunit) : wunit :=
  match u with
  | W1 a =>
      if dash a then (if bool_decide (classify_opt a = OptOutJoined) then W1 "-o"%cs else u)
      else if dcc_is_source a then W1 [] else u
  | W2 a _ => if bool_decide (classify_opt a = OptOut) then W2 a [] else u
  end.

Lemma anonymous_source a b :
  dash a = false → dcc_is_source a = true → dash b = false → dcc_is_source b = true →
  anonymous (W1 a) = anonymous (W1 b).
Proof. intros Ha Hsa Hb Hsb. simpl. by rewrite Ha, Hsa, Hb, Hsb. Qed.

Lemma anonymous_set_out us us' ofname :
  ofname ≠ [] → set_out_units us ofname = Some us' → anonymous <$> us' = anonymous <$> us.
Proof.
  intros Ho. revert us'. induction us as [|[a|a b] us IH]; intros us'; simpl; [done|..].
  - destruct (bool_decide (classify_opt a = OptOutJoined) && dash a) eqn:E.
    + apply andb_prop in E as [Hc ->]. intros [= <-]. rewrite Hc. cbn [fmap list_fmap]. f_equal.
      unfold anonymous. by rewrite (classify_joined ofname Ho), bool_decide_true.
    + intros (us2 & Hu & ->)%fmap_Some. cbn [fmap list_fmap]. f_equal. by apply IH.
  - case_bool_decide as Hc.
    + intros [= <-]. cbn [fmap list_fmap]. f_equal. unfold anonymous. by rewrite !bool_decide_true.
    + intros (us2 & Hu & ->)%fmap_Some. cbn [fmap list_fmap]. rewrite (IH _ Hu). f_equal. unfold anonymous. by rewrite bool_decide_false.
Qed.

(** The units of the vector [dcc_scan_args] returns. *)
Definition final_units (us : list wunit) (o : cstr) : list wunit :=
  match outputs (items us) with [] => us ++ [W2 "-o"%cs o] | _ => us end.

Lemma final_units_words us args i o args' :
  Forall unit_wf us → words us = args →
  scan_spec args (items us) = Some (i, o, args') →
  words (final_units us o) = args' ∧ Forall unit_wf (final_units us o) ∧
  inputs (items (final_units us o)) = [i] ∧ outputs (items (final_units us o)) = [o] ∧
  ItLocal ∉ items (final_units us o) ∧
  (ItC ∈ items (final_units us o) ∨ ItS ∈ items (final_units us o)) ∧
  dcc_source_needs_local i = 0%Z ∧ o ≠ "-"%cs.
Proof.
  intros Hwf Hw. unfold scan_spec, final_units.
  case_decide as Hl; [done|]. case_decide as Hcs; [done|].
  assert (ItC ∈ items us ∨ ItS ∈ items us) as Hcs' 
    by (destruct (decide (ItC ∈ items us)), (decide (ItS ∈ items us)); tauto).
  destruct (inputs (items us)) as [|i' [|]] eqn:Hi; [done| |done].
  destruct (outputs (items us)) as [|o' [|]] eqn:Ho; [| |done].
  - case_decide as Hn; [done|].
    destruct (default_output _ _) as [o''|] eqn:Hd; [|done].
    intros [= -> -> <-].
    rewrite words_app, items_app, inputs_app, outputs_app, Hw, Hi, Ho.
    split; [done|]. split; [apply Forall_app; split; [done|by repeat constructor]|].
    split; [done|]. split; [done|]. split; [set_solver|]. split; [set_solver|].
    split; [lia|]. eapply default_output_not_dash; [|done].
    by case_decide.
  - do 2 (case_decide; [done|]). intros [= -> -> <-].
    split_and!; done || lia.
Qed.

(** A line with its output given is returned as it is. *)
Lemma scan_spec_explicit args its i o :
  inputs its = [i] → outputs its = [o] → ItLocal ∉ its → (ItC ∈ its ∨ ItS ∈ its) →
  dcc_source_needs_local i = 0%Z → o ≠ "-"%cs →
  scan_spec args its = Some (i, o, args).
Proof.
  intros Hi Ho Hl Hcs Hn Hd. unfold scan_spec. rewrite Hi, Ho.
  rewrite decide_False by done. rewrite decide_False by tauto.
  rewrite decide_False by (intros ?; lia). by rewrite decide_False.
Qed.

Definition head_ok (args : list cstr) : Prop :=
  match args with a0 :: _ => dash a0 = false | [] => False end.

Lemma head_ok_final us o : head_ok (words us) → head_ok (words (final_units us o)).
Proof.
  unfold final_units. destruct (outputs (items us)); [|done].
  rewrite words_app. by destruct (words us).
Qed.

Lemma set_out_units_head us us' ofname :
  Forall unit_wf us → set_out_units us ofname = Some us' →
  head_ok (words us) → head_ok (words us').
Proof.
  intros Hwf. destruct Hwf as [|[a|a b] us Hu Hwf]; [done|..]; simpl; intros Hs Hd.
  - rewrite Hd, andb_false_r in Hs. by apply fmap_Some in Hs as (? & _ & ->).
  - simpl in Hu. unfold takes_arg in Hu. by rewrite Hd in Hu.
Qed.

Lemma set_output_final (args : list cstr) (us : list wunit) (i o ofname : cstr) (args' : list cstr) tl σ :
  mem_ok σ → units args = Some us → head_ok args →
  scan_spec args (items us) = Some (i, o, args') →
  Forall no_dasho_arg us →
  outputs (items us) = [] ∨ Exists dasho_unit us →
  ofname ≠ [] → ofname ≠ "-"%cs →
  ∃ ws, dcc_set_output (vec args' ++ tl) ofname σ = (Ok (vec ws ++ tl), σ) ∧
    ∀ tl' σ', mem_ok σ' →
      dcc_scan_args (vec ws ++ tl') σ' = (Ok (Some i, Some ofname, vec ws ++ spare ws ws), σ').
Proof.
  intros Hm [Hw Hwf]%units_words Hh Hs Hno Hset Hof Hof'.
  destruct (final_units_words us args i o args' Hwf Hw Hs)
    as (Hw' & Hwf' & Hi & Ho & Hl & Hcs & Hn & _).
  assert (Forall no_dasho_arg (final_units us o)) as Hno'.
  { unfold final_units. destruct (outputs (items us)); [|done].
    apply Forall_app. split; [done|]. by repeat constructor. }
  destruct (set_out_units (final_units us o) ofname) as [us2|] eqn:E; cycle 1.
  { exfalso. apply set_out_units_None in E. unfold final_units in E.
    destruct Hset as [Ho0|He].
    - rewrite Ho0, Forall_app, Forall_singleton in E. by apply (proj2 E).
    - assert (Forall (λ u, ¬ dasho_unit u) us) as E'.
      { destruct (outputs (items us)); [by apply Forall_app in E as []|done]. }
      apply Exists_exists in He as (u & Hin & Hu).
      rewrite Forall_forall in E'. by eapply E'. }
  destruct (set_out_units_items _ _ _ Hof Hwf' E) as (Hwf2 & l & o1 & l' & Hl1 & Hl2).
  rewrite Hl1 in Hi, Ho, Hl, Hcs. rewrite inputs_app in Hi. rewrite outputs_app in Ho.
  assert (outputs l = [] ∧ outputs l' = []) as [Hol Hol'].
  { simpl in Ho. apply (f_equal length) in Ho. rewrite length_app in Ho. simpl in Ho.
    split; apply nil_length_inv; lia. }
  exists (words us2).
  split.
  - rewrite <- Hw' at 1. rewrite set_output_units by done. by rewrite E.
  - intros tl' σ' Hm'. assert (head_ok (words us2)) as Hh2.
    { apply (set_out_units_head _ _ _ Hwf' E), head_ok_final. by rewrite Hw. }
    rewrite (scan_args_run (words us2) us2) by (done || by apply units_of_words).
    rewrite (scan_spec_explicit _ _ i ofname); [done|..]; rewrite ?Hl2, ?inputs_app, ?outputs_app; try done.
    + change (outputs (ItOut ofname :: l')) with (ofname :: outputs l').
      by rewrite Hol, Hol'.
    + set_solver.
    + set_solver.
Qed.

(** Once [dcc_scan_args] has accepted a command line whose
    output was given with -o, separate or joined, or was filled in by default,
    [dcc_set_output] succeeds on the vector it returned, and scanning the
    result again finds the new name as the output and the same input. *)
Lemma set_output_rescan (args : list cstr) (us : list wunit)
    (i o ofname : cstr) (args' : list cstr) (σ : St) :
  mem_ok σ → units args = Some us → head_ok args →
  scan_spec args (items us) = Some (i, o, args') →
  Forall no_dasho_arg us →
  outputs (items us) = [] ∨ Exists dasho_unit us →
  ofname ≠ [] → ofname ≠ "-"%cs →
  ∃ argv' newargv,
    dcc_set_output (vec args' ++ spare args args') ofname σ = (Ok argv', σ) ∧
    dcc_scan_args argv' σ = (Ok (Some i, Some ofname, newargv), σ).
Proof.
  intros Hm Hu Hh Hs Hno Hset Hof Hof'.
  destruct (set_output_final args us i o ofname args' (spare args args') σ) as (ws & E & Hscan); try done.
  exists (vec ws ++ spare args args'), (vec ws ++ spare ws ws). split; [done|by apply Hscan].
Qed.
End SetOutput.

(** ** Rewriting the input *)

Section SetInput.
  Context {St : Type} {MS : MemState St} {Cfg : Config}.
  Implicit Types σ : St.

Lemma set_input_app (pre : list cstr) i rest ifname σ :
  mem_ok σ → Forall (λ w, dcc_is_source w = false) pre → dcc_is_source i = true →
  dcc_set_input ((Str <$> pre) ++ Str i :: rest) ifname σ =
    (Ok ((Str <$> pre) ++ Str ifname :: rest), σ).
Proof.
  intros Hm Hpre Hi. induction Hpre as [|w pre Hw _ IH]; cbn [fmap list_fmap app dcc_set_input].
  - rewrite Hi. by rewrite (bind_Ok _ _ _ () σ) by by apply malloc_or_ok.
  - rewrite Hw. by rewrite (bind_Ok _ _ _ _ _ IH).
Qed.

Lemma inputs_cons_in i l : inputs (ItIn i :: l) = i :: inputs l.
Proof. done. Qed.

Lemma unit_item_source i :
  dash i = false → dcc_is_source i = true → unit_item (W1 i) = ItIn i ∧ unit_wf (W1 i).
Proof. intros Hd Hs. simpl. unfold takes_arg. by rewrite Hd, Hs. Qed.

Lemma set_input_final (args : list cstr) (us1 us2 : list wunit)
    (i o ifname : cstr) (args' : list cstr) tl σ :
  mem_ok σ → units args = Some (us1 ++ W1 i :: us2) → head_ok args →
  dash i = false → dcc_is_source i = true →
  Forall (λ w, dcc_is_source w = false) (words us1) →
  scan_spec args (items (us1 ++ W1 i :: us2)) = Some (i, o, args') →
  dash ifname = false → dcc_is_source ifname = true →
  dcc_source_needs_local ifname = 0%Z →
  ∃ us2', final_units (us1 ++ W1 i :: us2) o = us1 ++ W1 i :: us2' ∧
    let us' := us1 ++ W1 ifname :: us2' in
    dcc_set_input (vec args' ++ tl) ifname σ = (Ok (vec (words us') ++ tl), σ) ∧
    Forall unit_wf us' ∧ head_ok (words us') ∧
    scan_spec (words us') (items us') = Some (ifname, o, words us').
Proof.
  intros Hm [Hw Hwf]%units_words Hh Hdi Hsi Hpre Hs Hdf Hsf Hnf.
  destruct (final_units_words _ args i o args' Hwf Hw Hs)
    as (Hw' & Hwf' & Hi & Ho & Hl & Hcs & _ & Hod).
  assert (∃ us2', final_units (us1 ++ W1 i :: us2) o = us1 ++ W1 i :: us2') as [us2' Hf].
  { unfold final_units. destruct (outputs (items (us1 ++ W1 i :: us2))); [|by exists us2].
    exists (us2 ++ [W2 "-o"%cs o]). by rewrite <- app_assoc. }
  rewrite Hf in *. set (us' := us1 ++ W1 ifname :: us2').
  destruct (unit_item_source i Hdi Hsi) as [Hii _].
  destruct (unit_item_source ifname Hdf Hsf) as [Hif Hwif].
  assert (Forall unit_wf us') as Hwf2.
  { subst us'. apply Forall_app in Hwf' as [? Hw2]. apply Forall_cons in Hw2 as [_ ?].
    apply Forall_app. split; [done|]. by constructor. }
  rewrite items_app, items_cons, Hii in Hi, Ho, Hl, Hcs.
  rewrite inputs_app, inputs_cons_in in Hi. rewrite outputs_app in Ho.
  assert (inputs (items us1) = [] ∧ inputs (items us2') = []) as [Hi1 Hi2].
  { apply (f_equal length) in Hi. rewrite length_app in Hi. simpl in Hi.
    split; apply nil_length_inv; lia. }
  assert (head_ok (words us')) as Hh2.
  { subst us'. rewrite words_app in Hw |- *. rewrite <- Hw in Hh.
    by destruct (words us1). }
  exists us2'. split; [done|]. fold us'. split; [|split; [done|split; [done|]]].
  - rewrite <- Hw' at 1. subst us'. unfold vec.
    rewrite !words_app, !words_cons, !fmap_app. simpl.
    rewrite <- !app_assoc. simpl. by apply set_input_app.
  - rewrite (scan_spec_explicit _ _ ifname o); [done|..]; subst us';
      rewrite ?items_app, ?items_cons, ?Hif, ?inputs_app, ?outputs_app, ?inputs_cons_in; try done.
    + by rewrite Hi1, Hi2.
    + set_solver.
    + set_solver.
Qed.

(** Once [dcc_scan_args] has accepted a command line in which no
    word before the input looks like a source file, [dcc_set_input] replaces
    exactly that word, and scanning the result again finds the new name as the
    input and the same output: the test arg.c's todo asks for. *)
Lemma set_input_rescan (args : list cstr) (us1 us2 : list wunit)
    (i o ifname : cstr) (args' : list cstr) (σ : St) :
  mem_ok σ → units args = Some (us1 ++ W1 i :: us2) → head_ok args →
  dash i = false → dcc_is_source i = true →
  Forall (λ w, dcc_is_source w = false) (words us1) →
  scan_spec args (items (us1 ++ W1 i :: us2)) = Some (i, o, args') →
  dash ifname = false → dcc_is_source ifname = true →
  dcc_source_needs_local ifname = 0%Z →
  ∃ argv' newargv,
    dcc_set_input (vec args' ++ spare args args') ifname σ = (Ok argv', σ) ∧
    dcc_scan_args argv' σ = (Ok (Some ifname, Some o, newargv), σ).
Proof.
  intros Hm Hu Hh Hdi Hsi Hpre Hs Hdf Hsf Hnf.
  destruct (set_input_final args us1 us2 i o ifname args' (spare args args') σ)
    as (us2' & _ & E & Hwf & Hh' & Hs'); try done.
  set (us' := us1 ++ W1 ifname :: us2') in *.
  exists (vec (words us') ++ spare args args'), (vec (words us') ++ spare (words us') (words us')).
  split; [done|]. rewrite (scan_args_run (words us') us') by (done || by apply units_of_words). by rewrite Hs'.
Qed.
End SetInput.

(** ** Where the routines disagree *)

(** An output recognised only by its ".o" suffix is an output
    for [dcc_scan_args] and invisible to [dcc_set_output]. *)
Lemma set_output_misses_bare_object :
  let line := ["gcc"%cs; "-c"%cs; "hello.c"%cs; "hello.o"%cs] in
  let newargv := vec line ++ [Garbage; Garbage] in
  dcc_scan_args (St := list bool) (Cfg := usual_config) (vec line) [] =
    (Ok (Some "hello.c"%cs, Some "hello.o"%cs, newargv), []) ∧
  dcc_set_output (St := list bool) newargv "/tmp/distccd_1.o"%cs [] =
    (Fail EXIT_DISTCC_FAILED, []).
Proof. split; vm_compute; reflexivity. Qed.

(** An option word that ends like a source name is skipped by
    [dcc_scan_args] but overwritten by [dcc_set_input], which leaves the real
    input in place. *)
Lemma set_input_hits_option :
  let line := ["gcc"%cs; "-Wcheck=gen.c"%cs; "-c"%cs; "hello.c"%cs; "-o"%cs; "hello.o"%cs] in
  let newargv := vec line ++ [Garbage; Garbage] in
  dcc_scan_args (St := list bool) (Cfg := usual_config) (vec line) [] =
    (Ok (Some "hello.c"%cs, Some "hello.o"%cs, newargv), []) ∧
  dcc_set_input (St := list bool) (Cfg := usual_config) newargv "/tmp/distccd_1.i"%cs [] =
    (Ok (vec ["gcc"%cs; "/tmp/distccd_1.i"%cs; "-c"%cs; "hello.c"%cs; "-o"%cs; "hello.o"%cs]
         ++ [Garbage; Garbage]), []).
Proof. split; vm_compute; reflexivity. Qed.

(** ** Witnesses *)

Lemma set_output_rescan_witness :
  ∃ argv' newargv,
    dcc_set_output (St := list bool) (vec (ex_args ++ ["-o"%cs; "hello.o"%cs]) ++ [])
      "/tmp/x.o"%cs [] = (Ok argv', []) ∧
    dcc_scan_args (Cfg := usual_config) argv' [] =
      (Ok (Some "src/hello.c"%cs, Some "/tmp/x.o"%cs, newargv), []).
Proof.
  apply (set_output_rescan (Cfg := usual_config) ex_args ex_units
           "src/hello.c"%cs "hello.o"%cs "/tmp/x.o"%cs (ex_args ++ ["-o"%cs; "hello.o"%cs]));
    try reflexivity; try discriminate.
  - unfold ex_units. repeat (apply Forall_cons; split; [try exact I|]);
      [intros _; split; intros [k Hk]; discriminate|constructor].
  - left. reflexivity.
Defined.

Lemma set_input_rescan_witness :
  ∃ argv' newargv,
    dcc_set_input (St := list bool) (Cfg := usual_config)
      (vec (ex_args ++ ["-o"%cs; "hello.o"%cs]) ++ []) "/tmp/x.i"%cs [] = (Ok argv', []) ∧
    dcc_scan_args (Cfg := usual_config) argv' [] =
      (Ok (Some "/tmp/x.i"%cs, Some "hello.o"%cs, newargv), []).
Proof.
  apply (set_input_rescan (Cfg := usual_config) ex_args
           [W1 "gcc"%cs; W1 "-c"%cs; W2 "-MF"%cs "x.d"%cs; W1 "-DX"%cs] []
           "src/hello.c"%cs "hello.o"%cs "/tmp/x.i"%cs (ex_args ++ ["-o"%cs; "hello.o"%cs]));
    try reflexivity.
  repeat constructor.
Defined.
