(* ===== verification/ArgExpand.v ===== *)
(** * Expanding "-Wp," options ([dcc_expand_preprocessor_options], arg.c) *)

From S2P Require Import Prelude CLib Util Argv.

Section Expand.
  Context {St : Type} {MS : MemState St}.
  Implicit Types σ : St.

(** [count_extra_args], from [opt = comma + 1].  [comma] is NULL after the last
    field; the fuel bounds the characters left. *)
Fixpoint count_loop (fuel : nat) (opt : cstr) : M St nat :=
  match fuel with
  | 0 => ub
  | S fuel =>
      let comma := strchr opt "," in
      if str_startswith "-MD,"%cs opt || str_startswith "-MMD,"%cs opt then
        match comma with
        | None => ub
        | Some c =>
            let filename := drop (c + 1) opt in
            match strchr filename "," with
            | Some c' => let! n := count_loop fuel (drop (c' + 1) filename) in ret (3 + n)
            | None => ret 3
            end
        end
      else
        match comma with
        | Some c => let! n := count_loop fuel (drop (c + 1) opt) in ret (1 + n)
        | None => ret 1
        end
  end.

Definition count_extra_args (dash_Wp_option : cstr) : M St nat :=
  let opt := drop (length "-Wp"%cs + 1) dash_Wp_option in
  count_loop (S (length opt)) opt.

(** The text of a field once its comma has been overwritten with NUL. *)
Definition field (s : cstr) : cstr :=
  match strchr s "," with Some c => take c s | None => s end.

(** [dest_argv[i] = strdup(s); if (!dest_argv[i]) return EXIT_OUT_OF_MEMORY; i++] *)
Definition put_dup (dest : cvec) (pos : nat) (s : cstr) : M St cvec :=
  do! malloc_or EXIT_OUT_OF_MEMORY; store dest pos (Str s).

(** The loop of [copy_extra_args]: the array [dest_argv] points into, with the
    position of [dest_argv[i]]. *)
Fixpoint copy_loop (fuel : nat) (dest : cvec) (pos : nat) (opt : cstr) : M St (cvec * nat) :=
  match fuel with
  | 0 => ub
  | S fuel =>
      let comma := strchr opt "," in
      let! dest := put_dup dest pos (field opt) in
      if streq (field opt) "-MD"%cs || streq (field opt) "-MMD"%cs then
        match comma with
        | None => ret (dest, pos + 1)      (* missing filename: break *)
        | Some c =>
            let filename := drop (c + 1) opt in
            let! dest := put_dup dest (pos + 1) "-MF"%cs in
            let! dest := put_dup dest (pos + 2) (field filename) in
            match strchr filename "," with
            | Some c' => copy_loop fuel dest (pos + 3) (drop (c' + 1) filename)
            | None => ret (dest, pos + 3)
            end
        end
      else
        match comma with
        | Some c => copy_loop fuel dest (pos + 1) (drop (c + 1) opt)
        | None => ret (dest, pos + 1)
        end
  end.

(** [dest_argv] is [dest + start]; the assertion at the end must hold. *)
Definition copy_extra_args (dest : cvec) (start : nat) (dash_Wp_option : cstr)
    (extra_args : nat) : M St cvec :=
  let opt := drop (length "-Wp"%cs + 1) dash_Wp_option in
  let! r := copy_loop (S (length opt)) dest start opt in
  if decide (r.2 = start + extra_args) then ret r.1 else ub.

Definition blit_or_ub (dest : cvec) (pos : nat) (vals : cvec) : M St cvec :=
  match blit dest pos vals with Some a => ret a | None => ub end.

(** The loop over [argv[i]]; each step looks at one word of the original line. *)
Fixpoint expand_loop (fuel : nat) (argv : cvec) (i argc : nat) : M St cvec :=
  match fuel with
  | 0 => ub
  | S fuel =>
      match argv !! i with
      | Some Null => ret argv
      | Some (Str a) =>
          if str_startswith "-Wp,"%cs a then
            let! extra := count_extra_args a in
            if decide (extra = 0) then ub else
            do! malloc_or EXIT_OUT_OF_MEMORY;
            let new_argv := replicate (argc + extra) Null in
            let! new_argv := blit_or_ub new_argv 0 (take i argv) in
            let! new_argv := copy_extra_args new_argv i a extra in
            let! new_argv :=
              blit_or_ub new_argv (i + extra) (take (argc - i) (drop (i + 1) argv)) in
            expand_loop fuel new_argv (i + extra - 1 + 1) (argc + extra - 1)
          else expand_loop fuel argv (i + 1) argc
      | _ => ub
      end
  end.

Definition dcc_expand_preprocessor_options (argv : cvec) : M St cvec :=
  let! argc := dcc_argv_len argv in
  expand_loop (S argc) argv 0 argc.
End Expand.

(** ** Reference definition *)

(** The comma-separated fields of a string. *)
Fixpoint fields (s : cstr) : list cstr :=
  match s with
  | [] => [[]]
  | x :: r =>
      if ceqb x "," then [] :: fields r
      else match fields r with h :: t => (x :: h) :: t | [] => [[x]] end
  end.

(** -MD and -MMD name their file with -MF. *)
Fixpoint wp_words (fs : list cstr) : list cstr :=
  match fs with
  | [] => []
  | f :: fs =>
      if streq f "-MD"%cs || streq f "-MMD"%cs then
        match fs with
        | [] => [f]
        | g :: fs => f :: "-MF"%cs :: g :: wp_words fs
        end
      else f :: wp_words fs
  end.

Definition expand_word (a : cstr) : list cstr :=
  if str_startswith "-Wp,"%cs a then wp_words (fields (drop 4 a)) else [a].

Definition expand_spec (args : list cstr) : list cstr := args ≫= expand_word.

(** ** Proofs *)

Lemma fields_unfold s :
  fields s = match strchr s "," with
             | None => [s]
             | Some c => take c s :: fields (drop (c + 1) s)
             end.
Proof.
  induction s as [|x s IH]; simpl; [done|].
  destruct (ceqb x ","); [done|].
  destruct (strchr s ","); simpl; by rewrite IH.
Qed.

Lemma fields_no_comma s : Forall (λ f, ","%char ∉ f) (fields s).
Proof.
  induction s as [|x s IH]; simpl; [constructor; [set_solver|done]|].
  destruct (ceqb x ",") eqn:E; btest.
  - constructor; [set_solver|done].
  - destruct (fields s); constructor; [set_solver|done| |].
    + apply Forall_cons in IH as [? _]. set_solver.
    + by apply Forall_cons in IH as [_ ?].
Qed.

Lemma fields_ne s : fields s ≠ [].
Proof. rewrite fields_unfold. by destruct (strchr s ","). Qed.

(** The two tests for -MD agree: [count_extra_args] looks for the comma,
    [copy_extra_args] has already overwritten it. *)
Lemma startswith_field (w s : cstr) c :
  ","%char ∉ w → strchr s "," = Some c →
  str_startswith (w ++ ","%cs) s = streq (take c s) w.
Proof.
  intros Hw (a & b & -> & Ha & ->)%strchr_Some. rewrite take_app_length.
  apply eq_true_iff_eq. rewrite str_startswith_spec, streq_true. split.
  - intros [k Hk]. rewrite <- app_assoc in Hk. simpl in Hk.
    assert (strchr (a ++ ","%char :: b) "," = strchr (w ++ ","%char :: k) ",") as Hs
      by by rewrite Hk.
    rewrite (proj2 (strchr_Some _ _ (length a))), (proj2 (strchr_Some _ _ (length w)))
      in Hs by eauto.
    injection Hs as Hl. by apply app_inj_1 in Hk as [-> _].
  - intros ->. exists b. by rewrite <- app_assoc.
Qed.

Lemma startswith_field_None (w s : cstr) :
  strchr s "," = None → str_startswith (w ++ ","%cs) s = false.
Proof.
  intros Hs%strchr_None. apply str_startswith_false. intros [k ->].
  apply Hs. set_solver.
Qed.

Section ExpandProofs.
  Context {St : Type} {MS : MemState St}.
  Implicit Types σ : St.

Lemma count_loop_spec fuel opt σ :
  length opt < fuel →
  count_loop fuel opt σ = (Ok (length (wp_words (fields opt))), σ).
Proof.
  revert opt. induction fuel as [|fuel IH]; intros opt Hf; [lia|]. simpl.
  rewrite (fields_unfold opt).
  change "-MD,"%cs with ("-MD"%cs ++ ","%cs). change "-MMD,"%cs with ("-MMD"%cs ++ ","%cs).
  destruct (strchr opt ",") as [c|] eqn:Ec.
  - pose proof (strchr_lt _ _ _ Ec) as Hc.
    rewrite !(startswith_field _ opt c) by first [done|vm_compute; set_solver].
    simpl. destruct (streq (take c opt) "-MD"%cs || streq (take c opt) "-MMD"%cs).
    + rewrite (fields_unfold (drop (c + 1) opt)).
      destruct (strchr (drop (c + 1) opt) ",") as [c'|] eqn:Ec'; [|done].
      pose proof (strchr_lt _ _ _ Ec') as Hc'. rewrite length_drop in Hc'.
      by erewrite bind_Ok by (apply IH; rewrite !length_drop; lia).
    + by erewrite bind_Ok by (apply IH; rewrite !length_drop; lia).
  - rewrite !startswith_field_None by done. simpl.
    by destruct (streq opt "-MD"%cs || streq opt "-MMD"%cs).
Qed.

(** Writing consecutive slots of the part of the array not yet filled. *)
Lemma put_dup_cases pre x post s σ :
  ∃ σ', put_dup (pre ++ x :: post) (length pre) s σ = (Ok (pre ++ Str s :: post), σ') ∧
          (mem_ok σ → σ' = σ) ∨
        put_dup (pre ++ x :: post) (length pre) s σ = (Fail EXIT_OUT_OF_MEMORY, σ') ∧
          ¬ mem_ok σ.
Proof.
  unfold put_dup, bind. destruct (malloc_or EXIT_OUT_OF_MEMORY σ) as [o σ1] eqn:E.
  exists σ1. destruct (malloc_or_cases EXIT_OUT_OF_MEMORY σ) as [E'|E'];
    rewrite E in E'; simpl in E'; subst.
  - left. rewrite store_app. split; [done|]. intros Hm.
    rewrite malloc_or_ok in E by done. by simplify_eq.
  - right. split; [done|]. intros Hm. rewrite malloc_or_ok in E by done. by simplify_eq.
Qed.

Lemma ok_or_oom_put pre x post s σ :
  ok_or_oom (put_dup (pre ++ x :: post) (length pre) s) (pre ++ Str s :: post) σ.
Proof. apply put_dup_cases. Qed.

(** One more slot of the room left. *)
Lemma ok_or_oom_put_room {B} (k : cvec → M St B) pos pre x room post s b σ :
  pos = length pre →
  (∀ σ', ok_or_oom (k ((pre ++ [Str s]) ++ room ++ post)) b σ') →
  ok_or_oom (bind (put_dup (pre ++ (x :: room) ++ post) pos s) k) b σ.
Proof.
  intros -> Hk. apply (ok_or_oom_bind _ _ (pre ++ Str s :: room ++ post)).
  - apply ok_or_oom_put.
  - intros σ' _. specialize (Hk σ'). by rewrite <- app_assoc in Hk.
Qed.

Ltac room_eq :=
  f_equal; solve [by rewrite <- ?app_assoc | rewrite ?length_app; simpl; lia].

Lemma copy_loop_spec fuel opt pos pre room post σ :
  length opt < fuel → length room = length (wp_words (fields opt)) → pos = length pre →
  ok_or_oom (copy_loop fuel (pre ++ room ++ post) pos opt)
    (pre ++ (Str <$> wp_words (fields opt)) ++ post,
     pos + length (wp_words (fields opt))) σ.
Proof.
  revert opt pos pre room σ.
  induction fuel as [|fuel IH]; intros opt pos pre room σ Hf Hr Hp; [lia|].
  cbn [copy_loop]. rewrite (fields_unfold opt) in Hr |- *. unfold field at 1 2 3.
  destruct (strchr opt ",") as [c|] eqn:Ec; cbn [wp_words] in Hr |- *.
  - pose proof (strchr_lt _ _ _ Ec) as Hc.
    destruct (streq (take c opt) "-MD"%cs || streq (take c opt) "-MMD"%cs) eqn:Em.
    + rewrite (fields_unfold (drop (c + 1) opt)) in Hr |- *. unfold field.
      destruct (strchr (drop (c + 1) opt) ",") as [c'|] eqn:Ec';
        cbn [length wp_words] in Hr |- *;
        destruct room as [|x1 [|x2 [|x3 room]]]; simpl in Hr; try lia;
        (apply ok_or_oom_put_room; [done|intros σ1]);
        (apply ok_or_oom_put_room; [rewrite length_app; simpl; lia|intros σ2]);
        (apply ok_or_oom_put_room; [rewrite !length_app; simpl; lia|intros σ3]).
      * pose proof (strchr_lt _ _ _ Ec') as Hc'. rewrite length_drop in Hc'.
        eapply ok_or_oom_eq; [apply IH; [rewrite !length_drop|..|rewrite !length_app; simpl]; lia|].
        room_eq.
      * destruct room; [|done]. eapply ok_or_oom_eq; [apply ok_or_oom_ret|]. room_eq.
    + destruct room as [|x1 room]; simpl in Hr; [lia|].
      apply ok_or_oom_put_room; [done|intros σ1].
      eapply ok_or_oom_eq; [apply IH; [rewrite !length_drop|..|rewrite !length_app; simpl]; lia|].
      room_eq.
  - destruct room as [|x1 [|]]; simpl in Hr;
      destruct (streq opt "-MD"%cs || streq opt "-MMD"%cs); simpl in Hr; try lia;
      (apply ok_or_oom_put_room; [done|intros σ1]);
      (eapply ok_or_oom_eq; [apply ok_or_oom_ret|]); room_eq.
Qed.

Lemma wp_words_no_comma fs :
  Forall (λ f, ","%char ∉ f) fs → Forall (λ f, ","%char ∉ f) (wp_words fs).
Proof.
  remember (length fs) as n eqn:Hn. assert (length fs ≤ n) as Hl by lia. clear Hn.
  revert fs Hl. induction n as [|n IH]; intros [|f [|g fs]] Hl Hf; simpl in *; try done; try lia;
    destruct (streq f _ || streq f _); try done.
  - apply Forall_cons in Hf as [? Hf]. apply Forall_cons in Hf as [? Hf].
    constructor; [done|]. constructor; [vm_compute; set_solver|].
    constructor; [done|]. apply IH; [lia|done].
  - apply Forall_cons in Hf as [? Hf]. constructor; [done|].
    apply (IH (g :: fs)); [simpl; lia|done].
Qed.

Lemma wp_words_ne fs : fs ≠ [] → wp_words fs ≠ [].
Proof. destruct fs as [|f [|]]; simpl; [done|..]; by destruct (_ || _). Qed.

Lemma copy_extra_args_spec a pre room post σ :
  length room = length (wp_words (fields (drop 4 a))) →
  ok_or_oom (copy_extra_args (pre ++ room ++ post) (length pre) a (length room))
    (pre ++ (Str <$> wp_words (fields (drop 4 a))) ++ post) σ.
Proof.
  intros Hr. unfold copy_extra_args. change (length "-Wp"%cs + 1) with 4.
  eapply ok_or_oom_bind; [by apply copy_loop_spec; [lia|..]|].
  intros σ' _. simpl. rewrite decide_True by lia. apply ok_or_oom_ret.
Qed.

Lemma count_extra_args_spec a σ :
  count_extra_args a σ = (Ok (length (wp_words (fields (drop 4 a)))), σ).
Proof.
  unfold count_extra_args. change (length "-Wp"%cs + 1) with 4.
  apply count_loop_spec. lia.
Qed.


Lemma blit_or_ub_app a b c vals pos σ :
  length b = length vals → pos = length a →
  blit_or_ub (a ++ b ++ c) pos vals σ = (Ok (a ++ vals ++ c), σ).
Proof. intros Hl ->. unfold blit_or_ub. by rewrite blit_app. Qed.

Lemma replicate_split {A} (x : A) n m : replicate (n + m) x = replicate n x ++ replicate m x.
Proof. apply replicate_add. Qed.

(** One "-Wp," word: the new vector is exactly as long as it was allocated. *)
Lemma expand_step pre a post (K : cvec → M St cvec) r σ :
  let W := wp_words (fields (drop 4 a)) in
  let argv := vec (pre ++ a :: post) in
  let argc := length pre + S (length post) in
  (∀ σ', ok_or_oom (K (vec (pre ++ W ++ post))) r σ') →
  ok_or_oom (
    do! malloc_or EXIT_OUT_OF_MEMORY;
    let new_argv := replicate (argc + length W) Null in
    let! new_argv := blit_or_ub new_argv 0 (take (length pre) argv) in
    let! new_argv := copy_extra_args new_argv (length pre) a (length W) in
    let! new_argv :=
      blit_or_ub new_argv (length pre + length W)
        (take (argc - length pre) (drop (length pre + 1) argv)) in
    K new_argv) r σ.
Proof.
  intros W argv argc HK.
  eapply ok_or_oom_bind; [apply ok_or_oom_malloc|intros σ1 _].
  assert (take (length pre) argv = Str <$> pre) as ->.
  { unfold argv, vec. rewrite fmap_app, <- app_assoc.
    rewrite <- (length_fmap Str pre) at 1. apply take_app_length. }
  assert (take (argc - length pre) (drop (length pre + 1) argv) = (Str <$> post) ++ [Null]) as ->.
  { unfold argv, argc, vec. rewrite fmap_app, <- app_assoc. simpl.
    rewrite drop_app_ge, length_fmap by (rewrite length_fmap; lia).
    replace (length pre + 1 - length pre) with 1 by lia. simpl.
    apply take_ge. rewrite length_app, length_fmap. simpl. lia. }
  replace (argc + length W) with (length pre + (length W + S (length post)))
    by (unfold argc; lia).
  rewrite !replicate_split.
  eapply ok_or_oom_bind;
    [apply ok_or_oom_run, (blit_or_ub_app []); [by rewrite length_fmap, length_replicate|done]|].
  intros σ2 _. cbn [app]. rewrite <- (length_fmap Str pre).
  eapply ok_or_oom_bind.
  { rewrite <- (length_replicate (length W) Null) at 2. apply copy_extra_args_spec.
    by rewrite length_replicate. }
  intros σ3 _. eapply ok_or_oom_bind.
  { apply ok_or_oom_run. rewrite app_assoc, <- (app_nil_r (replicate (S (length post)) Null)).
    apply blit_or_ub_app.
    - rewrite length_app, length_fmap, length_replicate. simpl. lia.
    - by rewrite length_app, !length_fmap. }
  intros σ4 _. rewrite app_nil_r. specialize (HK σ4). unfold vec in HK.
  rewrite !fmap_app, <- !app_assoc in HK. by rewrite <- !app_assoc.
Qed.

Lemma expand_loop_spec fuel done todo σ :
  length todo < fuel →
  ok_or_oom (expand_loop fuel (vec (done ++ todo)) (length done) (length (done ++ todo)))
    (vec (done ++ expand_spec todo)) σ.
Proof.
  revert done todo σ. induction fuel as [|fuel IH]; intros done todo σ Hf; [lia|].
  cbn [expand_loop]. destruct todo as [|a todo].
  - rewrite app_nil_r. unfold vec at 1.
    rewrite lookup_app_r, length_fmap, Nat.sub_diag by (rewrite length_fmap; lia).
    simpl. rewrite app_nil_r. apply ok_or_oom_ret.
  - assert (vec (done ++ a :: todo) !! length done = Some (Str a)) as Hl.
    { unfold vec. rewrite fmap_app, <- app_assoc, lookup_app_r, length_fmap, Nat.sub_diag
        by (rewrite length_fmap; lia). done. }
    rewrite Hl. unfold expand_spec. cbn [mbind list_bind]. unfold expand_word at 1.
    destruct (str_startswith "-Wp,"%cs a).
    + set (W := wp_words (fields (drop 4 a))).
      eapply ok_or_oom_bind; [apply ok_or_oom_run, count_extra_args_spec|intros σ1 _].
      fold W. assert (W ≠ []) as HW by apply wp_words_ne, fields_ne.
      rewrite decide_False by (destruct W; done).
      rewrite length_app. cbn [length]. apply expand_step. intros σ2. fold W.
      assert (length W ≠ 0) by (by destruct W).
      replace (length done + length W - 1 + 1) with (length (done ++ W))
        by (rewrite length_app; lia).
      replace (length done + S (length todo) + length W - 1)
        with (length ((done ++ W) ++ todo)) by (rewrite !length_app; lia).
      rewrite app_assoc. eapply ok_or_oom_eq; [apply IH; simpl in Hf; lia|].
      by rewrite <- app_assoc.
    + change (a :: todo) with ([a] ++ todo). rewrite app_assoc.
      replace (length done + 1) with (length (done ++ [a])) by (rewrite length_app; done).
      eapply ok_or_oom_eq; [apply IH; simpl in Hf; lia|]. by rewrite <- app_assoc.
Qed.
End ExpandProofs.

Section ExpandProperties.
  Context {St : Type} {MS : MemState St}.

(** [dcc_expand_preprocessor_options] replaces every "-Wp," word by
    its comma-separated options (naming the file of -MD and -MMD with -MF) and
    keeps every other word and the order.  Whatever allocations fail, nothing
    else can happen: the count made before allocating is the number of words
    copied, so no assertion fails and no write leaves the new vector; and
    when memory does not run out it succeeds. *)
Lemma expand_preprocessor_options_spec (args : list cstr) (σ : St) :
  ∃ σ', (dcc_expand_preprocessor_options (vec args) σ = (Ok (vec (expand_spec args)), σ') ∧
         (mem_ok σ → σ' = σ)) ∨
        (dcc_expand_preprocessor_options (vec args) σ = (Fail EXIT_OUT_OF_MEMORY, σ') ∧
         ¬ mem_ok σ).
Proof.
  apply ok_or_oom_bind with (a := length args).
  - apply ok_or_oom_run. rewrite <- (app_nil_r (vec args)). apply argv_len_vec.
  - intros σ' _. apply (expand_loop_spec _ []). lia.
Qed.
End ExpandProperties.

(** No "-Wp," word is left: this is the only place that needs
    to understand them. *)
Lemma expand_spec_no_wp (args : list cstr) :
  Forall (λ a, str_startswith "-Wp,"%cs a = false) (expand_spec args).
Proof.
  unfold expand_spec. apply Forall_forall. intros w (a & Hw & _)%list_elem_of_bind.
  unfold expand_word in Hw. destruct (str_startswith "-Wp,"%cs a) eqn:E.
  - apply str_startswith_false. intros [k ->].
    pose proof (wp_words_no_comma _ (fields_no_comma (drop 4 a))) as Hf.
    rewrite Forall_forall in Hf. apply (Hf _ Hw). set_solver.
  - apply list_elem_of_singleton in Hw as ->. done.
Qed.

(** ** Witness *)

Lemma expand_preprocessor_options_example :
  dcc_expand_preprocessor_options (St := list bool)
    (vec ["gcc"%cs; "-Wp,-DX,-MD,.deps/a.d,-C"%cs; "-c"%cs; "a.c"%cs]) [] =
  (Ok (vec ["gcc"%cs; "-DX"%cs; "-MD"%cs; "-MF"%cs; ".deps/a.d"%cs; "-C"%cs; "-c"%cs; "a.c"%cs]), []).
Proof. vm_compute. reflexivity. Qed.
