(* ===== verification/Strip.v ===== *)
(** * strip.c, implicit.c: building the command lines that are run

    Options that only matter to the preprocessor or the linker are removed
    before a job is sent away; -o is removed when only the preprocessor runs;
    a missing compiler name is filled in. *)

From S2P Require Import Prelude CLib Util Filename Argv Arg ArgExpand ArgScan.

(** The options of the first test of [dcc_strip_local_args]: the next word goes
    with them. *)
Definition strip_with_arg (a : cstr) : bool :=
  streq "-D"%cs a || streq "-I"%cs a || streq "-U"%cs a || streq "-L"%cs a
  || streq "-l"%cs a || streq "-MF"%cs a || streq "-MT"%cs a || streq "-MQ"%cs a
  || streq "-include"%cs a || streq "-imacros"%cs a || streq "-iprefix"%cs a
  || streq "-iwithprefix"%cs a || streq "-isystem"%cs a
  || streq "-iwithprefixbefore"%cs a || streq "-idirafter"%cs a.

(** The second and third tests: the word alone is dropped. *)
Definition strip_word (a : cstr) : bool :=
  (str_startswith "-Wp,"%cs a || str_startswith "-Wl,"%cs a
   || str_startswith "-D"%cs a || str_startswith "-U"%cs a
   || str_startswith "-I"%cs a || str_startswith "-l"%cs a
   || str_startswith "-L"%cs a || str_startswith "-MF"%cs a
   || str_startswith "-MT"%cs a || str_startswith "-MQ"%cs a)
  || (streq "-undef"%cs a || streq "-nostdinc"%cs a || streq "-nostdinc++"%cs a
      || streq "-MD"%cs a || streq "-MMD"%cs a || streq "-MG"%cs a
      || streq "-MP"%cs a).

Section Strip.
  Context {St : Type} {MS : MemState St} {Cfg : Config}.
  Implicit Types σ : St.

(** The copying loop: the strings stored in [to], in order. *)
Fixpoint strip_loop (from : cvec) : M St (list cstr) :=
  match from with
  | Null :: _ => ret []
  | Str a :: from =>
      if strip_with_arg a then
        match from with
        | Null :: _ => strip_loop from
        | Str _ :: from => strip_loop from
        | _ => ub
        end
      else if strip_word a then strip_loop from
      else let! r := strip_loop from in ret (a :: r)
  | _ => ub
  end.

(** [to] has room for [from_len + 1] pointers; the strings are shared. *)
Definition dcc_strip_local_args (from : cvec) : M St cvec :=
  let! from_len := dcc_argv_len from in
  do! malloc_or EXIT_OUT_OF_MEMORY;
  let! kept := strip_loop from in
  blit_or_ub (replicate (from_len + 1) Garbage) 0 (vec kept).

Fixpoint dasho_loop (from : cvec) : M St (list cstr) :=
  match from with
  | Null :: _ => ret []
  | Str a :: from =>
      if streq a "-o"%cs then
        match from with _ :: from => dasho_loop from | [] => ub end
      else if str_startswith "-o"%cs a then dasho_loop from
      else let! r := dasho_loop from in ret (a :: r)
  | _ => ub
  end.

Definition dcc_strip_dasho (from : cvec) : M St cvec :=
  let! from_len := dcc_argv_len from in
  do! malloc_or EXIT_OUT_OF_MEMORY;
  let! kept := dasho_loop from in
  blit_or_ub (replicate (from_len + 1) Garbage) 0 (vec kept).

(** [argv[1]] decides whether a compiler was named. *)
Definition dcc_find_compiler (argv : cvec) : M St cvec :=
  match argv with
  | _ :: Str a1 :: _ =>
      if ceqb (cget a1 0) "-" || dcc_is_source a1 || dcc_is_object a1 then
        let! out_argv := dcc_copy_argv argv 0 in
        do! malloc_or EXIT_OUT_OF_MEMORY;
        store out_argv 0 (Str "cc"%cs)
      else dcc_copy_argv (drop 1 argv) 0
  | _ => ub
  end.

(** ** Stripping local options *)

(** The same on plain words. *)
Fixpoint strip_spec (args : list cstr) : list cstr :=
  match args with
  | [] => []
  | a :: args =>
      if strip_with_arg a then
        match args with _ :: args => strip_spec args | [] => [] end
      else if strip_word a then strip_spec args
      else a :: strip_spec args
  end.

Lemma strip_loop_spec args tl σ : strip_loop (vec args ++ tl) σ = (Ok (strip_spec args), σ).
Proof.
  unfold vec. rewrite <- app_assoc.
  assert (∀ n l, length l ≤ n →
    strip_loop ((Str <$> l) ++ [Null] ++ tl) σ = (Ok (strip_spec l), σ)) as Hn; [|by eapply Hn].
  induction n as [|n IH]; intros [|a l] Hl; simpl in Hl; try done; [lia|].
  cbn [fmap list_fmap app strip_loop strip_spec].
  destruct (strip_with_arg a).
  - destruct l as [|b l]; [done|]. cbn [fmap list_fmap app]. apply IH. simpl in Hl. lia.
  - destruct (strip_word a); [apply IH; lia|].
    by erewrite bind_Ok by (apply IH; lia).
Qed.

Lemma strip_spec_length args : length (strip_spec args) ≤ length args.
Proof.
  assert (∀ n l, length l ≤ n → length (strip_spec l) ≤ length l) as Hn; [|by eapply Hn].
  induction n as [|n IH]; intros [|a l] Hl; simpl in Hl |- *; try lia.
  destruct (strip_with_arg a).
  - destruct l as [|b l]; simpl in *; [lia|]. specialize (IH l). lia.
  - destruct (strip_word a); simpl; specialize (IH l); lia.
Qed.

Lemma blit_vec args (n : nat) σ :
  length args ≤ n →
  blit_or_ub (replicate (n + 1) Garbage) 0 (vec args) σ =
    (Ok (vec args ++ replicate (n - length args) Garbage), σ).
Proof.
  intros Hn. unfold blit_or_ub, blit, vec. rewrite !length_app, length_fmap, length_replicate. simpl.
  rewrite decide_True by lia. rewrite drop_replicate.
  by replace (n + 1 - (length args + 1)) with (n - length args) by lia.
Qed.

Lemma strip_local_args_run args tl σ :
  mem_ok σ →
  dcc_strip_local_args (vec args ++ tl) σ =
    (Ok (vec (strip_spec args) ++ replicate (length args - length (strip_spec args)) Garbage), σ).
Proof.
  intros Hm. unfold dcc_strip_local_args.
  rewrite (bind_Ok _ _ _ _ _ (argv_len_vec args tl σ)).
  rewrite (bind_Ok _ _ _ () σ) by by apply malloc_or_ok.
  rewrite (bind_Ok _ _ _ _ _ (strip_loop_spec args tl σ)).
  apply blit_vec, strip_spec_length.
Qed.

(** A word [dcc_strip_local_args] would not touch. *)
Definition remote_word (a : cstr) : Prop :=
  strip_with_arg a = false ∧ strip_word a = false.

Lemma strip_spec_sublist args : strip_spec args `sublist_of` args.
Proof.
  assert (∀ n l, length l ≤ n → strip_spec l `sublist_of` l) as Hn; [|by eapply Hn].
  induction n as [|n IH]; intros [|a l] Hl; simpl in Hl |- *; try done; [lia|].
  destruct (strip_with_arg a).
  - destruct l as [|b l]; [by repeat constructor|].
    do 2 constructor. apply IH. simpl in Hl. lia.
  - destruct (strip_word a); constructor; apply IH; lia.
Qed.

Lemma strip_spec_remote args : Forall remote_word (strip_spec args).
Proof.
  assert (∀ n l, length l ≤ n → Forall remote_word (strip_spec l)) as Hn; [|by eapply Hn].
  induction n as [|n IH]; intros [|a l] Hl; simpl in Hl |- *; try done; [lia|].
  destruct (strip_with_arg a) eqn:E1.
  - destruct l as [|b l]; [done|]. apply IH. simpl in Hl. lia.
  - destruct (strip_word a) eqn:E2; [apply IH; lia|]. constructor; [done|]. apply IH. lia.
Qed.

Lemma strip_spec_id args : Forall remote_word args → strip_spec args = args.
Proof.
  induction 1 as [|a args [H1 H2] _ IH]; simpl; [done|]. by rewrite H1, H2, IH.
Qed.

(** ** What the other side scans *)

(** On units: the option words [dcc_scan_args] pairs are pairs for the stripper
    too, except that -o keeps its file. *)
Fixpoint strip_units (us : list wunit) : list wunit :=
  match us with
  | [] => []
  | W1 a :: us =>
      if strip_with_arg a then match us with _ :: us => strip_units us | [] => [] end
      else if strip_word a then strip_units us
      else W1 a :: strip_units us
  | W2 a b :: us =>
      if bool_decide (classify_opt a = OptOut) then W2 a b :: strip_units us
      else strip_units us
  end.

(** The words that go with a stripped option are of no interest to
    [dcc_scan_args], and the argument of -o does not look like a stripped
    option. *)
Fixpoint strip_safe (us : list wunit) : Prop :=
  match us with
  | [] => True
  | W1 a :: us =>
      if strip_with_arg a then
        match us with
        | W1 b :: us => unit_item (W1 b) = ItPass ∧ strip_safe us
        | W2 _ _ :: _ => False
        | [] => True
        end
      else strip_safe us
  | W2 a b :: us => (classify_opt a = OptOut → remote_word b) ∧ strip_safe us
  end.

Lemma strip_with_arg_pass a :
  strip_with_arg a = true → takes_arg a = false → unit_item (W1 a) = ItPass.
Proof.
  unfold strip_with_arg. rewrite !orb_true_iff, !streq_true.
  intros Ha Ht. destruct_or!; subst; try done.
Qed.

Lemma strip_word_pass a :
  strip_word a = true → unit_item (W1 a) = ItPass.
Proof.
  unfold strip_word. rewrite !orb_true_iff, !streq_true, !str_startswith_spec.
  intros Ha. destruct_or!; subst; try done.
  all: destruct Ha as [k ->]; unfold unit_item, dash, classify_opt, streq; simpl.
  all: repeat (rewrite bool_decide_eq_false_2 by done; simpl).
  all: repeat case_match; try done; btest; destruct_or?; destruct_and?; simplify_eq; by destruct k.
Qed.

Lemma strip_units_wf us : Forall unit_wf us → Forall unit_wf (strip_units us).
Proof.
  assert (∀ n us, length us ≤ n → Forall unit_wf us → Forall unit_wf (strip_units us))
    as Hn; [|by eapply Hn].
  induction n as [|n IH]; intros [|[a|a b] l] Hl Hwf; simpl in Hl |- *; try done; try lia;
    inversion_clear Hwf.
  - destruct (strip_with_arg a).
    + destruct l; [done|]. simpl in Hl. apply IH; [lia|]. by decompose_Forall_hyps.
    + destruct (strip_word a); [|constructor; [done|]]; apply IH; auto with lia.
  - case_bool_decide; [constructor; [done|]|]; apply IH; auto with lia.
Qed.

Lemma takes_arg_with_arg a :
  takes_arg a = true → classify_opt a ≠ OptOut → strip_with_arg a = true.
Proof.
  unfold takes_arg. btest. intros [_ Hc] Ho.
  destruct (classify_opt a) eqn:E; try done.
  apply classify_OptArg in E. destruct_or!; by subst.
Qed.

(** Stripping words is stripping units. *)
Lemma strip_spec_words us :
  Forall unit_wf us → strip_safe us → strip_spec (words us) = words (strip_units us).
Proof.
  assert (∀ n us, length us ≤ n → Forall unit_wf us → strip_safe us →
    strip_spec (words us) = words (strip_units us)) as Hn; [|by eapply Hn].
  induction n as [|n IH]; intros [|[a|a b] l] Hl Hwf Hs; simpl in Hl; try done; try lia;
    inversion_clear Hwf; rewrite words_cons; cbn [unit_words app strip_spec strip_units strip_safe] in *.
  - destruct (strip_with_arg a).
    + destruct l as [|[b|b c] l]; [done| |done]. simpl in Hl.
      rewrite words_cons. cbn [unit_words app]. apply IH; [lia| |tauto].
      by decompose_Forall_hyps.
    + destruct (strip_word a); [apply IH; auto with lia|].
      rewrite words_cons. cbn [unit_words app]. f_equal. apply IH; auto with lia.
  - destruct Hs as [Ho Hs]. case_bool_decide as Hc.
    + destruct (Ho Hc) as [-> ->]. apply classify_OptOut in Hc as ->.
      change (strip_with_arg "-o"%cs) with false. change (strip_word "-o"%cs) with false.
      rewrite words_cons. cbn [unit_words app]. do 2 f_equal. apply IH; auto with lia.
    + rewrite takes_arg_with_arg by done. apply IH; auto with lia.
Qed.

Abbreviation no_pass := (filter (λ it, it ≠ ItPass)).

(** No item that matters to the scanner is stripped. *)
Lemma strip_units_items us :
  Forall unit_wf us → strip_safe us →
  no_pass (items (strip_units us)) = no_pass (items us).
Proof.
  assert (∀ n us, length us ≤ n → Forall unit_wf us → strip_safe us →
    no_pass (items (strip_units us)) = no_pass (items us)) as Hn; [|by eapply Hn].
  induction n as [|n IH]; intros [|[a|a b] l] Hl Hwf Hs; simpl in Hl; try done; try lia;
    inversion_clear Hwf as [|?? Hw]; cbn [strip_units strip_safe] in *.
  - destruct (strip_with_arg a) eqn:Ea.
    + rewrite items_cons, strip_with_arg_pass by done.
      rewrite filter_cons_False by naive_solver.
      destruct l as [|[b|b c] l]; [done| |done]. simpl in Hl.
      rewrite items_cons. destruct Hs as [-> Hs]. rewrite filter_cons_False by naive_solver.
      apply IH; [lia| |tauto]. by decompose_Forall_hyps.
    + destruct (strip_word a) eqn:Eb.
      * rewrite items_cons, strip_word_pass by done.
        rewrite filter_cons_False by naive_solver. apply IH; auto with lia.
      * rewrite !items_cons, !filter_cons. rewrite IH; auto with lia.
  - destruct Hs as [Ho Hs]. case_bool_decide as Hc.
    + rewrite !items_cons, !filter_cons, IH; auto with lia.
    + rewrite items_cons. replace (unit_item (W2 a b)) with ItPass
        by (simpl; by destruct (classify_opt a)).
      rewrite filter_cons_False by naive_solver. apply IH; auto with lia.
Qed.

Lemma elem_of_no_pass it (its : list item) : it ≠ ItPass → it ∈ its ↔ it ∈ no_pass its.
Proof. intros. rewrite list_elem_of_filter. naive_solver. Qed.

Lemma inputs_no_pass (its : list item) : inputs (no_pass its) = inputs its.
Proof.
  induction its as [|it its IH]; [done|]. rewrite filter_cons.
  case_decide as Hd; [destruct it; simpl; by rewrite ?IH|].
  by subst.
Qed.

Lemma outputs_no_pass (its : list item) : outputs (no_pass its) = outputs its.
Proof.
  induction its as [|it its IH]; [done|]. rewrite filter_cons.
  case_decide as Hd; [destruct it; simpl; by rewrite ?IH|].
  by subst.
Qed.

(** The decision only depends on the items that matter. *)
Lemma scan_spec_no_pass args args' (its its' : list item) i o :
  no_pass its' = no_pass its →
  scan_spec args its = Some (i, o, args) → scan_spec args' its' = Some (i, o, args').
Proof.
  intros Hp. unfold scan_spec.
  rewrite <- (inputs_no_pass its), <- (inputs_no_pass its'), Hp.
  rewrite <- (outputs_no_pass its), <- (outputs_no_pass its'), Hp.
  repeat rewrite (decide_ext (ItLocal ∈ its') (ItLocal ∈ its))
    by (rewrite (elem_of_no_pass _ its), (elem_of_no_pass _ its'), Hp; done).
  rewrite (decide_ext (ItC ∉ its' ∧ ItS ∉ its') (ItC ∉ its ∧ ItS ∉ its))
    by (rewrite !(elem_of_no_pass _ its), !(elem_of_no_pass _ its'), Hp; done).
  repeat case_match; intros; simplify_eq; try done.
  all: match goal with
  | H : ?l ++ _ = ?l |- _ => apply (f_equal length) in H; rewrite length_app in H; simpl in H; lia
  end.
Qed.

Lemma not_dash_remote a : dash a = false → remote_word a.
Proof.
  unfold dash, remote_word, strip_with_arg, strip_word, str_startswith, streq.
  destruct a as [|c a]; [done|]. simpl. intros Hc.
  assert (c ≠ "-"%char) by by btest.
  assert (∀ x, ceqb "-" c && x = false) as Hf
    by (intros x; destruct (ceqb "-" c) eqn:E; [btest; congruence|done]).
  assert (∀ x, bool_decide (("-"%char :: x) = c :: a) = false) as Hg
    by (intros x; apply bool_decide_eq_false; congruence).
  by rewrite !Hf, !Hg.
Qed.

(** [dcc_strip_local_args] returns a subsequence of the words it is
    given, in which no word is one it would strip; a command line with no
    local option comes back as it is, so stripping twice is stripping once. *)
Lemma strip_local_args_correct (args : list cstr) (σ : St) :
  mem_ok σ →
  ∃ kept spare,
    dcc_strip_local_args (vec args) σ = (Ok (vec kept ++ spare), σ) ∧
    kept `sublist_of` args ∧ Forall remote_word kept ∧
    (Forall remote_word args → kept = args) ∧
    dcc_strip_local_args (vec kept) σ = (Ok (vec kept), σ).
Proof.
  intros Hm. exists (strip_spec args). eexists.
  rewrite <- (app_nil_r (vec args)), strip_local_args_run by done.
  split; [done|]. split; [apply strip_spec_sublist|].
  split; [apply strip_spec_remote|]. split; [apply strip_spec_id|].
  rewrite <- (app_nil_r (vec (strip_spec args))) at 1.
  rewrite strip_local_args_run, (strip_spec_id (strip_spec args)) by eauto using strip_spec_remote.
  by rewrite Nat.sub_diag, app_nil_r.
Qed.

(** C17.  The volunteer, which scans the stripped command line it
    received, finds the input and output files the client found: stripping
    changes nothing that [dcc_scan_args] decides on, as long as the words that
    go with a stripped option are no source or object file of their own. *)
Theorem strip_scan_agree (args : list cstr) (us : list wunit) i o (σ : St) :
  mem_ok σ → units args = Some us →
  match args with a0 :: _ => dash a0 = false | [] => False end →
  strip_safe us →
  dcc_scan_args (vec args) σ = (Ok (Some i, Some o, vec args ++ spare args args), σ) →
  (let! stripped := dcc_strip_local_args (vec args) in
   let! r := dcc_scan_args stripped in ret (r.1.1, r.1.2)) σ =
    (Ok (Some i, Some o), σ).
Proof.
  intros Hm Hu Ha Hs Hscan.
  rewrite <- (app_nil_r (vec args)) in Hscan at 1.
  rewrite (scan_args_run args us) in Hscan by done.
  destruct (scan_spec args (items us)) as [[[i' o'] args']|] eqn:Hspec; [|done].
  injection Hscan as -> -> Hv.
  assert (args' = args) as ->.
  { assert (length args' = length args) as Hl.
    { pose proof (argv_len_vec args' (spare args args') σ) as H1.
      rewrite Hv, (argv_len_vec args) in H1. by injection H1. }
    revert Hspec Hl. unfold scan_spec. repeat case_match; intros; simplify_eq; try done.
    all: rewrite length_app in Hl; simpl in Hl; lia. }
  apply units_words in Hu as [<- Hwf].
  rewrite <- (app_nil_r (vec (words us))).
  erewrite bind_Ok by by apply strip_local_args_run.
  rewrite strip_spec_words by done.
  unfold bind. rewrite (scan_args_run _ (strip_units us)); [|done|..].
  - rewrite (scan_spec_no_pass (words us) _ (items us) _ i o) by
      (eauto using strip_units_items). done.
  - by apply units_of_words, strip_units_wf.
  - rewrite <- strip_spec_words by done. destruct (words us) as [|a0 w]; [done|].
    destruct (not_dash_remote _ Ha) as [E1 E2]. simpl. by rewrite E1, E2.
Qed.

(** ** Removing -o *)

(** A word [dcc_strip_dasho] would remove. *)
Definition dasho_word (a : cstr) : Prop := "-o"%cs `prefix_of` a.

(** Words and "-o FILE" pairs, as the loop of [dcc_strip_dasho] cuts them. *)
Fixpoint dasho_units (args : list cstr) : option (list wunit) :=
  match args with
  | [] => Some []
  | a :: args =>
      if streq a "-o"%cs then
        match args with b :: args => cons (W2 a b) <$> dasho_units args | [] => None end
      else cons (W1 a) <$> dasho_units args
  end.

Definition keep_unit (u : wunit) : list cstr :=
  match u with
  | W1 a => if str_startswith "-o"%cs a then [] else [a]
  | W2 _ _ => []
  end.

Lemma dasho_loop_spec args us tl σ :
  dasho_units args = Some us →
  dasho_loop (vec args ++ tl) σ = (Ok (us ≫= keep_unit), σ).
Proof.
  unfold vec. rewrite <- app_assoc.
  assert (∀ n l us, length l ≤ n → dasho_units l = Some us →
    dasho_loop ((Str <$> l) ++ [Null] ++ tl) σ = (Ok (us ≫= keep_unit), σ)) as Hn; [|by eapply Hn].
  clear. induction n as [|n IH]; intros [|a l] us Hl Hu; simpl in Hl, Hu; simplify_eq; try done; [lia|].
  cbn [fmap list_fmap app dasho_loop].
  destruct (streq a "-o"%cs) eqn:Ha.
  - destruct l as [|b l]; [done|]. apply fmap_Some in Hu as (us' & Hu & ->).
    cbn. apply IH; [simpl in Hl; lia|done].
  - apply fmap_Some in Hu as (us' & Hu & ->). cbn [mbind list_bind keep_unit].
    destruct (str_startswith "-o"%cs a); [by apply IH; [lia|]|].
    by erewrite bind_Ok by (apply IH; [lia|done]).
Qed.

Lemma dasho_units_words args us :
  dasho_units args = Some us → us ≫= keep_unit `sublist_of` args.
Proof.
  assert (∀ n l us, length l ≤ n → dasho_units l = Some us →
    us ≫= keep_unit `sublist_of` l) as Hn; [|by eapply Hn].
  clear. induction n as [|n IH]; intros [|a l] us Hl Hu; simpl in Hl, Hu; simplify_eq; try done; [lia|].
  destruct (streq a "-o"%cs) eqn:Ha.
  - destruct l as [|b l]; [done|]. apply fmap_Some in Hu as (us' & Hu & ->).
    cbn. do 2 constructor. apply IH; [simpl in Hl; lia|done].
  - apply fmap_Some in Hu as (us' & Hu & ->). cbn [mbind list_bind keep_unit].
    destruct (str_startswith "-o"%cs a); constructor; by apply IH; [lia|].
Qed.

Lemma keep_units_no_dasho us : Forall (λ a, ¬ dasho_word a) (us ≫= keep_unit).
Proof.
  induction us as [|[a|a b] us IH]; simpl; [constructor| |done].
  destruct (str_startswith "-o"%cs a) eqn:E; [done|]. constructor; [|done].
  by apply str_startswith_false in E.
Qed.

(** [dcc_strip_dasho] returns a subsequence of its argument without
    any output option, joined or not, in its own block. *)
Lemma strip_dasho_correct (args : list cstr) (us : list wunit) (σ : St) :
  mem_ok σ → dasho_units args = Some us →
  ∃ kept spare,
    dcc_strip_dasho (vec args) σ = (Ok (vec kept ++ spare), σ) ∧
    kept `sublist_of` args ∧ Forall (λ a, ¬ dasho_word a) kept ∧
    length (vec kept ++ spare) = length args + 1.
Proof.
  intros Hm Hu. pose proof (dasho_units_words _ _ Hu) as Hsub.
  pose proof (sublist_length _ _ Hsub) as Hle.
  exists (us ≫= keep_unit), (replicate (length args - length (us ≫= keep_unit)) Garbage).
  split; [|split; [done|split; [apply keep_units_no_dasho|]]].
  - unfold dcc_strip_dasho. rewrite <- (app_nil_r (vec args)).
    rewrite (bind_Ok _ _ _ _ _ (argv_len_vec args [] σ)).
    rewrite (bind_Ok _ _ _ () σ) by by apply malloc_or_ok.
    rewrite (bind_Ok _ _ _ _ _ (dasho_loop_spec args us [] σ Hu)).
    by apply blit_vec.
  - unfold vec. rewrite !length_app, length_fmap, length_replicate. simpl. lia.
Qed.

(** ** The compiler's name *)

(** Whatever follows the program name, the vector
    [dcc_find_compiler] builds starts with a word that is no option, so
    [dcc_scan_args] never takes its "unrecognized distcc option" exit on it. *)
Lemma find_compiler_scannable (a0 a1 : cstr) (args : list cstr) (σ : St) :
  mem_ok σ →
  ∃ cc rest, dcc_find_compiler (vec (a0 :: a1 :: args)) σ = (Ok (vec (cc :: rest)), σ) ∧
    dash cc = false ∧
    (cc :: rest = "cc"%cs :: a1 :: args ∨ cc :: rest = a1 :: args).
Proof.
  intros Hm. unfold dcc_find_compiler. cbn [vec fmap list_fmap app].
  destruct (ceqb (cget a1 0) "-" || dcc_is_source a1 || dcc_is_object a1) eqn:Ht.
  - exists "cc"%cs, (a1 :: args). split; [|by auto].
    pose proof (copy_argv_ok (a0 :: a1 :: args) [] 0 σ Hm) as Hc.
    rewrite !app_nil_r in Hc. cbn [vec fmap list_fmap app] in Hc. rewrite (bind_Ok _ _ _ _ _ Hc).
    rewrite (bind_Ok _ _ _ () σ) by by apply malloc_or_ok.
    apply (store_app [] (Str a0) _ _ σ).
  - btest. destruct Ht as [[Ht _] _]. exists a1, args. split; [|split; [|by auto]].
    + pose proof (copy_argv_ok (a1 :: args) [] 0 σ Hm) as Hc. by rewrite !app_nil_r in Hc.
    + unfold dash. by apply ceqb_false.
Qed.

(** ** Changing the action *)

(** [dcc_set_action_opt] replaces every -c and -S and nothing else,
    and fails exactly when there is none. *)
Lemma set_action_opt_spec (args : list cstr) (new_c : cstr) (σ : St) :
  mem_ok σ →
  dcc_set_action_opt (vec args) new_c σ =
    (if decide (Exists (λ a, a = "-c"%cs ∨ a = "-S"%cs) args)
     then Ok (vec ((λ a, if decide (a = "-c"%cs ∨ a = "-S"%cs) then new_c else a) <$> args))
     else Fail EXIT_DISTCC_FAILED, σ).
Proof.
  intros Hm.
  assert (set_action_loop (vec args) new_c σ =
    (Ok (vec ((λ a, if decide (a = "-c"%cs ∨ a = "-S"%cs) then new_c else a) <$> args),
         bool_decide (Exists (λ a, a = "-c"%cs ∨ a = "-S"%cs) args)), σ)) as Hl.
  { unfold vec. induction args as [|a args IH]; [done|].
    cbn [fmap list_fmap app set_action_loop].
    destruct (streq a "-c"%cs || streq a "-S"%cs) eqn:Ha; btest.
    - rewrite (bind_Ok _ _ _ true σ) by by apply malloc_ok.
      erewrite bind_Ok by apply IH. rewrite decide_True by done.
      by rewrite (bool_decide_eq_true_2 (Exists _ (a :: args))) by by left.
    - erewrite bind_Ok by apply IH. rewrite decide_False by tauto. unfold ret. simpl.
      repeat f_equal. apply bool_decide_ext. rewrite Exists_cons. tauto. }
  unfold dcc_set_action_opt. rewrite (bind_Ok _ _ _ _ _ Hl). simpl.
  destruct (decide (Exists _ args)); [rewrite bool_decide_eq_true_2 by done|
    rewrite bool_decide_eq_false_2 by done]; done.
Qed.
End Strip.

(** ** Witnesses *)

Definition ex_strip : list cstr :=
  ["gcc"%cs; "-c"%cs; "-I"%cs; "inc"%cs; "-MF"%cs; "x.d"%cs; "-DX"%cs; "-O2"%cs;
   "src/hello.c"%cs; "-o"%cs; "hello.o"%cs].
Definition ex_strip_units : list wunit :=
  [W1 "gcc"%cs; W1 "-c"%cs; W1 "-I"%cs; W1 "inc"%cs; W2 "-MF"%cs "x.d"%cs; W1 "-DX"%cs;
   W1 "-O2"%cs; W1 "src/hello.c"%cs; W2 "-o"%cs "hello.o"%cs].

Lemma strip_local_args_correct_witness :
  ∃ kept spare,
    dcc_strip_local_args (St := list bool) (vec ex_strip) [] = (Ok (vec kept ++ spare), []) ∧
    kept `sublist_of` ex_strip ∧ Forall remote_word kept ∧
    (Forall remote_word ex_strip → kept = ex_strip) ∧
    dcc_strip_local_args (vec kept) [] = (Ok (vec kept), []).
Proof. apply (strip_local_args_correct ex_strip []). reflexivity. Defined.

Lemma strip_scan_agree_witness :
  (let! stripped := dcc_strip_local_args (St := list bool) (vec ex_strip) in
   let! r := dcc_scan_args (Cfg := usual_config) stripped in ret (r.1.1, r.1.2)) [] =
    (Ok (Some "src/hello.c"%cs, Some "hello.o"%cs), []).
Proof.
  apply (strip_scan_agree (Cfg := usual_config) ex_strip ex_strip_units);
    [reflexivity..|vm_compute; naive_solver|reflexivity].
Defined.

Lemma strip_dasho_correct_witness :
  ∃ kept spare,
    dcc_strip_dasho (St := list bool) (vec ex_strip) [] = (Ok (vec kept ++ spare), []) ∧
    kept `sublist_of` ex_strip ∧ Forall (λ a, ¬ dasho_word a) kept ∧
    length (vec kept ++ spare) = length ex_strip + 1.
Proof.
  apply (strip_dasho_correct ex_strip
           ((W1 <$> take 9 ex_strip) ++ [W2 "-o"%cs "hello.o"%cs])); reflexivity.
Defined.

Lemma find_compiler_scannable_witness :
  ∃ cc rest, dcc_find_compiler (St := list bool) (Cfg := usual_config)
               (vec ["distcc"%cs; "-c"%cs; "x.c"%cs]) [] = (Ok (vec (cc :: rest)), []) ∧
    dash cc = false ∧
    (cc :: rest = ["cc"%cs; "-c"%cs; "x.c"%cs] ∨ cc :: rest = ["-c"%cs; "x.c"%cs]).
Proof. apply (find_compiler_scannable (Cfg := usual_config)). reflexivity. Defined.

Lemma set_action_opt_spec_witness :
  dcc_set_action_opt (St := list bool) (vec ex_strip) "-E"%cs [] =
    (Ok (vec ("gcc"%cs :: "-E"%cs :: drop 2 ex_strip)), []).
Proof. rewrite (set_action_opt_spec ex_strip "-E"%cs []) by reflexivity. reflexivity. Defined.
