(* ===== verification/World.v ===== *)
(** * The operating system the programs talk to

    File descriptors, files, the environment, and the decisions the kernel
    takes: how much of a transfer is done, which call fails and how.  The
    decisions are oracles, lists consumed call by call; past their end every
    call does all it was asked for.  [core] is what the programs observe and
    change; the rest of [world] is the oracles. *)

From S2P Require Import Prelude CLib Util.

Inductive errno := EAGAIN | EINTR | EACCES | ENOENT | EEXIST | EOTHER.

#[export] Instance errno_eq_dec : EqDecision errno.
Proof. solve_decision. Defined.

(** A transfer of at most [n] bytes, or an error. *)
Inductive xfer := XN (n : nat) | XErr (e : errno).

Inductive sel := SelReady | SelTimeout | SelErr (e : errno).

(** What a path names.  Paths are names: links are not followed. *)
Inductive node := NFile (data : cstr) | NDir | NLink (target : cstr).

#[export] Instance node_eq_dec : EqDecision node.
Proof. solve_decision. Defined.

(** An open file: bytes still to be read, bytes written so far, and the file
    that receives them. *)
Record fdesc := Fd { fd_in : cstr; fd_out : cstr; fd_file : option cstr }.

(** The phases of a job (state.h). *)
Inductive phase :=
| DCC_PHASE_STARTUP | DCC_PHASE_BLOCKED | DCC_PHASE_CONNECT | DCC_PHASE_CPP
| DCC_PHASE_SEND | DCC_PHASE_COMPILE | DCC_PHASE_RECEIVE | DCC_PHASE_DONE.

Record core := Core {
  c_fds : gmap nat fdesc;
  c_files : gmap cstr node;
  (** the files to remove on exit, oldest first, and the array's size *)
  c_cleanups : list cstr;
  c_cleanups_size : nat;
  c_phase : phase
}.

Record world := World {
  w_core : core;
  w_xfer : list xfer;           (** read, write, sendfile *)
  w_sel : list sel;             (** select *)
  w_fs : list (option errno);   (** calls that name a file, and close *)
  w_mem : list bool;            (** malloc *)
  w_timeout : Z;                (** the static of [dcc_get_io_timeout] *)
  w_env : gmap cstr cstr
}.

#[export, refine] Instance world_mem_state : MemState world := {|
  get_mem := w_mem;
  set_mem := λ l w, World (w_core w) (w_xfer w) (w_sel w) (w_fs w) l (w_timeout w) (w_env w)
|}.
Proof. all: by try intros []. Defined.

Definition set_core (c : core) (w : world) : world :=
  World c (w_xfer w) (w_sel w) (w_fs w) (w_mem w) (w_timeout w) (w_env w).
Definition set_xfer (l : list xfer) (w : world) : world :=
  World (w_core w) l (w_sel w) (w_fs w) (w_mem w) (w_timeout w) (w_env w).
Definition set_sel (l : list sel) (w : world) : world :=
  World (w_core w) (w_xfer w) l (w_fs w) (w_mem w) (w_timeout w) (w_env w).
Definition set_fs (l : list (option errno)) (w : world) : world :=
  World (w_core w) (w_xfer w) (w_sel w) l (w_mem w) (w_timeout w) (w_env w).
Definition set_timeout (t : Z) (w : world) : world :=
  World (w_core w) (w_xfer w) (w_sel w) (w_fs w) (w_mem w) t (w_env w).

Definition set_fds (m : gmap nat fdesc) (c : core) : core :=
  Core m (c_files c) (c_cleanups c) (c_cleanups_size c) (c_phase c).
Definition set_files (m : gmap cstr node) (c : core) : core :=
  Core (c_fds c) m (c_cleanups c) (c_cleanups_size c) (c_phase c).
Definition set_cleanups (l : list cstr) (c : core) : core :=
  Core (c_fds c) (c_files c) l (c_cleanups_size c) (c_phase c).
Definition set_cleanups_size (n : nat) (c : core) : core :=
  Core (c_fds c) (c_files c) (c_cleanups c) n (c_phase c).
Definition set_phase (p : phase) (c : core) : core :=
  Core (c_fds c) (c_files c) (c_cleanups c) (c_cleanups_size c) p.

Definition modify_core (f : core → core) : M world unit :=
  modify (λ w, set_core (f (w_core w)) w).

(** ** Transfers *)

(** Take the next decision for a transfer of [len] bytes. *)
Definition next_xfer (len : nat) (w : world) : xfer * world :=
  match w_xfer w with
  | [] => (XN len, w)
  | x :: l => (x, set_xfer l w)
  end.

(** [read(fd, buf, len)]: the bytes, or errno.  A read that is not interrupted
    gives at least one byte unless the stream is at its end. *)
Definition sys_read (fd len : nat) : M world (cstr + errno) := λ w,
  match c_fds (w_core w) !! fd with
  | None => (Ok (inr EOTHER), w)
  | Some d =>
      let '(x, w) := next_xfer len w in
      match x with
      | XErr e => (Ok (inr e), w)
      | XN n =>
          let k := Nat.min (Nat.max 1 n) len in
          (Ok (inl (take k (fd_in d))),
           set_core (set_fds (<[fd := Fd (drop k (fd_in d)) (fd_out d) (fd_file d)]>
                                (c_fds (w_core w))) (w_core w)) w)
      end
  end.

(** The core after [bs] went out on [fd]. *)
Definition append_file (p : option cstr) (bs : cstr) (m : gmap cstr node) : gmap cstr node :=
  match p with
  | Some p => match m !! p with
              | Some (NFile data) => <[p := NFile (data ++ bs)]> m
              | _ => m
              end
  | None => m
  end.

Definition put (fd : nat) (d : fdesc) (bs : cstr) (c : core) : core :=
  set_files (append_file (fd_file d) bs (c_files c))
    (set_fds (<[fd := Fd (fd_in d) (fd_out d ++ bs) (fd_file d)]> (c_fds c)) c).

(** [write(fd, buf, len)]: how many bytes went out. *)
Definition sys_write (fd : nat) (buf : cstr) : M world (nat + errno) := λ w,
  match c_fds (w_core w) !! fd with
  | None => (Ok (inr EOTHER), w)
  | Some d =>
      let '(x, w) := next_xfer (length buf) w in
      match x with
      | XErr e => (Ok (inr e), w)
      | XN n =>
          let k := Nat.min n (length buf) in
          (Ok (inl k), set_core (put fd d (take k buf) (w_core w)) w)
      end
  end.

(** [sendfile(ofd, ifd, &offset, size)]: the file pointer of [ifd] stays. *)
Definition sys_sendfile (ofd ifd offset size : nat) : M world (nat + errno) := λ w,
  match c_fds (w_core w) !! ofd, c_fds (w_core w) !! ifd with
  | Some od, Some id =>
      let '(x, w) := next_xfer size w in
      match x with
      | XErr e => (Ok (inr e), w)
      | XN n =>
          let bs := take (Nat.min n size) (drop offset (fd_in id)) in
          (Ok (inl (length bs)), set_core (put ofd od bs (w_core w)) w)
      end
  | _, _ => (Ok (inr EOTHER), w)
  end.

(** ** Files *)

(** The lowest descriptor that is free, as POSIX has it. *)
Fixpoint lowest_fd {A} (fuel i : nat) (m : gmap nat A) : nat :=
  match fuel with
  | 0 => i
  | S fuel => match m !! i with None => i | Some _ => lowest_fd fuel (S i) m end
  end.
Definition new_fd {A} (m : gmap nat A) : nat := lowest_fd (size m) 0 m.

(** The failure the kernel injects into the next call that names a file. *)
Definition next_fs : M world (option errno) := λ w,
  match w_fs w with
  | [] => (Ok None, w)
  | x :: l => (Ok x, set_fs l w)
  end.

(** Run [m] unless the kernel fails the call. *)
Definition fs_call {A} (m : M world (A + errno)) : M world (A + errno) :=
  let! e := next_fs in
  match e with Some e => ret (inr e) | None => m end.

Definition lookup_file (p : cstr) : M world (option node) :=
  gets (λ w, c_files (w_core w) !! p).

Definition add_fd (d : fdesc) : M world nat := λ w,
  let fd := new_fd (c_fds (w_core w)) in
  (Ok fd, set_core (set_fds (<[fd := d]> (c_fds (w_core w))) (w_core w)) w).

Definition sys_open_read (p : cstr) : M world (nat + errno) :=
  fs_call (let! f := lookup_file p in
           match f with
           | None => ret (inr ENOENT)
           | Some (NFile data) => let! fd := add_fd (Fd data [] None) in ret (inl fd)
           | Some _ => ret (inr EOTHER)
           end).

(** [open(p, O_TRUNC|O_WRONLY|O_CREAT)] *)
Definition sys_open_trunc (p : cstr) : M world (nat + errno) :=
  fs_call (let! f := lookup_file p in
           match f with
           | None | Some (NFile _) =>
               do! modify_core (λ c, set_files (<[p := NFile []]> (c_files c)) c);
               let! fd := add_fd (Fd [] [] (Some p)) in ret (inl fd)
           | Some _ => ret (inr EOTHER)
           end).

(** [st_size] of the open file. *)
Definition sys_fstat (fd : nat) : M world (nat + errno) :=
  fs_call (let! d := gets (λ w, c_fds (w_core w) !! fd) in
           ret (match d with Some d => inl (length (fd_in d)) | None => inr EOTHER end)).

Definition sys_stat (p : cstr) : M world (node + errno) :=
  fs_call (let! f := lookup_file p in
           ret (match f with Some n => inl n | None => inr ENOENT end)).

Definition sys_unlink (p : cstr) : M world (unit + errno) :=
  fs_call (let! f := lookup_file p in
           match f with
           | None => ret (inr ENOENT)
           | Some NDir => ret (inr EOTHER)
           | Some _ => do! modify_core (λ c, set_files (delete p (c_files c)) c); ret (inl ())
           end).

(** The directory a name is in, and whether it exists; the empty name stands
    for the root and for the working directory. *)
Definition parent (p : cstr) : cstr :=
  match strrchr p "/" with Some i => take i p | None => [] end.
Definition parent_exists (p : cstr) (m : gmap cstr node) : bool :=
  match parent p with [] => true | d => match m !! d with Some NDir => true | _ => false end end.

Definition sys_mkdir (p : cstr) : M world (unit + errno) :=
  fs_call (let! f := lookup_file p in
           let! e := gets (λ w, parent_exists p (c_files (w_core w))) in
           match f with
           | None =>
               if e then do! modify_core (λ c, set_files (<[p := NDir]> (c_files c)) c); ret (inl ())
               else ret (inr ENOENT)
           | Some _ => ret (inr EEXIST)
           end).

(** A directory is empty when no name continues its path. *)
Definition dir_empty (p : cstr) (m : gmap cstr node) : bool :=
  forallb (λ q, negb (str_startswith (p ++ "/"%cs) q)) (map_to_list m).*1.

Definition sys_rmdir (p : cstr) : M world (unit + errno) :=
  fs_call (let! f := lookup_file p in
           let! e := gets (λ w, dir_empty p (c_files (w_core w))) in
           match f with
           | None => ret (inr ENOENT)
           | Some NDir =>
               if e then do! modify_core (λ c, set_files (delete p (c_files c)) c); ret (inl ())
               else ret (inr EEXIST)
           | Some _ => ret (inr EOTHER)
           end).

Definition sys_symlink (target p : cstr) : M world (unit + errno) :=
  fs_call (let! f := lookup_file p in
           let! e := gets (λ w, parent_exists p (c_files (w_core w))) in
           match f with
           | None =>
               if e then
                 do! modify_core (λ c, set_files (<[p := NLink target]> (c_files c)) c); ret (inl ())
               else ret (inr ENOENT)
           | Some _ => ret (inr EEXIST)
           end).

Definition sys_close (fd : nat) : M world (unit + errno) :=
  fs_call (let! d := gets (λ w, c_fds (w_core w) !! fd) in
           match d with
           | Some _ => do! modify_core (λ c, set_fds (delete fd (c_fds c)) c); ret (inl ())
           | None => ret (inr EOTHER)
           end).

Definition getenv (name : cstr) : M world (option cstr) := gets (λ w, w_env w !! name).

(** ** A kernel that cooperates *)

(** Interruptions and partial transfers, but no errors. *)
Definition xfer_ok (x : xfer) : Prop :=
  match x with
  | XN n => 0 < n
  | XErr e => e = EAGAIN ∨ e = EINTR
  end.
Definition sel_ok (s : sel) : Prop := s = SelReady ∨ s = SelErr EINTR.

(** The I/O timeout is known or can be read from the environment. *)
Definition timeout_ok (w : world) : Prop :=
  (0 < w_timeout w)%Z ∨
  match w_env w !! "DISTCC_IO_TIMEOUT"%cs with
  | Some s => (0 < atoi s)%Z
  | None => True
  end.

Record io_ok (w : world) : Prop := IoOk {
  io_xfer : Forall xfer_ok (w_xfer w);
  io_sel : Forall sel_ok (w_sel w);
  io_fs : Forall (λ e, e = None) (w_fs w);
  io_mem : w_mem w = [];
  io_timeout : timeout_ok w
}.

(** [runs m o c c']: from any world with core [c] and a cooperative kernel,
    [m] has outcome [o], leaves core [c'], and the kernel cooperative. *)
Definition runs {A} (m : M world A) (o : outcome A) (c c' : core) : Prop :=
  ∀ w, w_core w = c → io_ok w →
    ∃ w', m w = (o, w') ∧ w_core w' = c' ∧ io_ok w' ∧ w_env w' = w_env w.

(** [m] never runs into undefined behaviour. *)
Definition safe {A} (m : M world A) : Prop := ∀ w, (m w).1 ≠ Undef.

(** ** Lemmas *)

Lemma lowest_fd_spec {A} fuel i (m : gmap nat A) :
  (∀ j, j < i → is_Some (m !! j)) → size m ≤ fuel + i →
  m !! lowest_fd fuel i m = None.
Proof.
  revert i. induction fuel as [|fuel IH]; intros i Hi Hs; simpl.
  - destruct (m !! i) as [d|] eqn:E; [|done].
    assert (set_seq 0 (S i) ⊆ dom m) as Hsub%subseteq_size.
    { intros j Hj%elem_of_set_seq. apply elem_of_dom.
      destruct (decide (j = i)) as [->|]; [by eexists|]. apply Hi. lia. }
    rewrite size_set_seq, size_dom in Hsub. lia.
  - destruct (m !! i) as [d|] eqn:E; [|done]. apply IH; [|lia].
    intros j Hj. destruct (decide (j = i)) as [->|]; [by eexists|]. apply Hi. lia.
Qed.

Lemma new_fd_fresh {A} (m : gmap nat A) : m !! new_fd m = None.
Proof. apply lowest_fd_spec; [|lia]. intros j Hj. lia. Qed.

Lemma runs_ret {A} (a : A) c : runs (ret a) (Ok a) c c.
Proof. intros w <- Hw. by exists w. Qed.

Lemma runs_throw {A} (o : outcome A) c : runs (throw o) o c c.
Proof. intros w <- Hw. by exists w. Qed.

Lemma runs_bind {A B} (m : M world A) (k : A → M world B) a o c c' c'' :
  runs m (Ok a) c c' → runs (k a) o c' c'' → runs (bind m k) o c c''.
Proof.
  intros Hm Hk w Hc Hw. destruct (Hm w Hc Hw) as (w1 & E1 & Hc1 & Hw1 & He1).
  destruct (Hk w1 Hc1 Hw1) as (w2 & E2 & Hc2 & Hw2 & He2).
  exists w2. split_and!; [|done..|congruence]. unfold bind. by rewrite E1.
Qed.

Lemma runs_bind_Fail {A B} (m : M world A) (k : A → M world B) e c c' :
  runs m (Fail e) c c' → runs (bind m k) (Fail e) c c'.
Proof.
  intros Hm w Hc Hw. destruct (Hm w Hc Hw) as (w1 & E1 & Hw1).
  exists w1. split; [|done]. unfold bind. by rewrite E1.
Qed.

Lemma runs_bind_Undef {A B} (m : M world A) (k : A → M world B) c c' :
  runs m Undef c c' → runs (bind m k) Undef c c'.
Proof.
  intros Hm w Hc Hw. destruct (Hm w Hc Hw) as (w1 & E1 & Hw1).
  exists w1. split; [|done]. unfold bind. by rewrite E1.
Qed.

Lemma runs_attempt_Ok {A} (m : M world A) a c c' :
  runs m (Ok a) c c' → runs (attempt m) (Ok (inl a)) c c'.
Proof.
  intros Hm w Hc Hw. destruct (Hm w Hc Hw) as (w1 & E1 & Hw1).
  exists w1. split; [|done]. unfold attempt. by rewrite E1.
Qed.

Lemma runs_attempt_Fail {A} (m : M world A) e c c' :
  runs m (Fail e) c c' → runs (attempt m) (Ok (inr e)) c c'.
Proof.
  intros Hm w Hc Hw. destruct (Hm w Hc Hw) as (w1 & E1 & Hw1).
  exists w1. split; [|done]. unfold attempt. by rewrite E1.
Qed.

Lemma runs_malloc_or e c : runs (malloc_or e) (Ok ()) c c.
Proof. intros w <- Hw. exists w. split_and!; try done. apply malloc_or_ok. apply Hw. Qed.

Lemma runs_malloc c : runs malloc (Ok true) c c.
Proof.
  intros w <- Hw. exists w. split_and!; try done. unfold malloc. simpl. by rewrite io_mem.
Qed.

Lemma runs_gets {A} (f : core → A) c : runs (gets (λ w, f (w_core w))) (Ok (f c)) c c.
Proof. intros w <- Hw. by exists w. Qed.

Lemma runs_modify_core f c : runs (modify_core f) (Ok ()) c (f c).
Proof.
  intros w <- []. exists (set_core (f (w_core w)) w). split_and!; try done.
Qed.

Lemma runs_add_fd d c :
  runs (add_fd d) (Ok (new_fd (c_fds c))) c
    (set_fds (<[new_fd (c_fds c) := d]> (c_fds c)) c).
Proof. intros w <- []. eexists. split; [done|]. done. Qed.

Lemma runs_fs_call {A} (m : M world (A + errno)) o c c' :
  runs m o c c' → runs (fs_call m) o c c'.
Proof.
  intros Hm. intros w Hc Hw. unfold fs_call, bind, next_fs.
  destruct (w_fs w) as [|[e|] l] eqn:El; [by apply Hm|..];
    destruct Hw as [?? Hf ??]; rewrite El in Hf; apply Forall_cons in Hf as [? Hf]; [done|].
  destruct (Hm (set_fs l w)) as (w' & ? & ? & ? & ?); [done|by constructor|].
  by exists w'.
Qed.

Lemma safe_ret {A} (a : A) : safe (ret a).
Proof. done. Qed.

Lemma safe_fail {A} e : safe (fail (A := A) e).
Proof. done. Qed.

Lemma safe_bind {A B} (m : M world A) (k : A → M world B) :
  safe m → (∀ a, safe (k a)) → safe (bind m k).
Proof.
  intros Hm Hk w. unfold bind. specialize (Hm w). destruct (m w) as [[] w']; try done. apply Hk.
Qed.

Lemma safe_attempt {A} (m : M world A) : safe m → safe (attempt m).
Proof. intros Hm w. unfold attempt. specialize (Hm w). by destruct (m w) as [[] w']. Qed.

Lemma safe_malloc_or e : safe (malloc_or e).
Proof. intros w. by destruct (malloc_or_cases e w) as [-> | ->]. Qed.

Lemma safe_read fd len : safe (sys_read fd len).
Proof.
  intros w. unfold sys_read. destruct (_ !! fd); [|done].
  by destruct (next_xfer len w) as [[] ?].
Qed.

Lemma safe_write fd buf : safe (sys_write fd buf).
Proof.
  intros w. unfold sys_write. destruct (_ !! fd); [|done].
  by destruct (next_xfer _ w) as [[] ?].
Qed.

Lemma safe_fs_call {A} (m : M world (A + errno)) : safe m → safe (fs_call m).
Proof.
  intros Hm. apply safe_bind; [|by intros []]. intros w. unfold next_fs.
  by destruct (w_fs w).
Qed.

(** *** Computations that allocate nothing *)

Definition keeps_mem {A} (m : M world A) : Prop := ∀ w, w_mem (m w).2 = w_mem w.

(** [m] runs into undefined behaviour only after a failed allocation. *)
Definition msafe {A} (m : M world A) : Prop :=
  ∀ w, mem_ok w → (m w).1 ≠ Undef ∧ mem_ok (m w).2.

Lemma keeps_mem_bind {A B} (m : M world A) (k : A → M world B) :
  keeps_mem m → (∀ a, keeps_mem (k a)) → keeps_mem (bind m k).
Proof.
  intros Hm Hk w. specialize (Hm w). unfold bind.
  destruct (m w) as [[] w'] eqn:E; simpl in *; try done. by rewrite Hk.
Qed.

Lemma keeps_mem_throw {A} (o : outcome A) : keeps_mem (throw o).
Proof. done. Qed.

Lemma keeps_mem_read fd len : keeps_mem (sys_read fd len).
Proof.
  intros w. unfold sys_read, next_xfer. destruct (_ !! fd); [|done].
  by destruct (w_xfer w) as [|[] ?].
Qed.

Lemma keeps_mem_write fd buf : keeps_mem (sys_write fd buf).
Proof.
  intros w. unfold sys_write, next_xfer. destruct (_ !! fd); [|done].
  by destruct (w_xfer w) as [|[] ?].
Qed.

Lemma msafe_of {A} (m : M world A) : safe m → keeps_mem m → msafe m.
Proof. intros Hs Hk w Hm. split; [apply Hs|]. unfold mem_ok. simpl. by rewrite Hk. Qed.

Lemma msafe_bind {A B} (m : M world A) (k : A → M world B) :
  msafe m → (∀ a, msafe (k a)) → msafe (bind m k).
Proof.
  intros Hm Hk w Hw. destruct (Hm w Hw) as [Hu Hw']. unfold bind.
  destruct (m w) as [[] w'] eqn:E; simpl in *; try done. by apply Hk.
Qed.

Lemma msafe_attempt {A} (m : M world A) : msafe m → msafe (attempt m).
Proof.
  intros Hm w Hw. destruct (Hm w Hw) as [Hu Hw']. unfold attempt. by destruct (m w) as [[] w'].
Qed.

Lemma msafe_ret {A} (a : A) : msafe (ret a).
Proof. done. Qed.

Lemma msafe_fail {A} c : msafe (fail (A := A) c).
Proof. done. Qed.

Lemma msafe_malloc : msafe malloc.
Proof. intros w Hw. unfold malloc. unfold mem_ok in Hw. by rewrite Hw. Qed.

Lemma msafe_malloc_or c : msafe (malloc_or c).
Proof. intros w Hw. by rewrite malloc_or_ok. Qed.

#[export] Hint Resolve keeps_mem_throw keeps_mem_read keeps_mem_write : distcc.
#[export] Hint Resolve msafe_ret msafe_fail msafe_malloc msafe_malloc_or msafe_attempt : distcc.

#[export] Hint Resolve safe_ret safe_fail safe_bind safe_attempt safe_malloc_or
  safe_read safe_write safe_fs_call : distcc.
#[export] Hint Resolve runs_ret runs_throw runs_malloc_or runs_gets : distcc.

(** ** More calls *)

(** [access(p, W_OK|X_OK)] on a directory. *)
Definition sys_access_dir (p : cstr) : M world (unit + errno) :=
  fs_call (let! f := lookup_file p in
           ret (match f with Some NDir => inl () | Some _ => inr EOTHER | None => inr ENOENT end)).

(** [open(p, O_WRONLY|O_CREAT|O_EXCL)]: never an existing name, not even a
    link. *)
Definition sys_open_excl (p : cstr) : M world (nat + errno) :=
  fs_call (let! f := lookup_file p in
           match f with
           | None =>
               do! modify_core (λ c, set_files (<[p := NFile []]> (c_files c)) c);
               let! fd := add_fd (Fd [] [] (Some p)) in ret (inl fd)
           | Some _ => ret (inr EEXIST)
           end).

(** [open(p, O_WRONLY|O_CREAT|O_APPEND)] *)
Definition sys_open_append (p : cstr) : M world (nat + errno) :=
  fs_call (let! f := lookup_file p in
           match f with
           | None =>
               do! modify_core (λ c, set_files (<[p := NFile []]> (c_files c)) c);
               let! fd := add_fd (Fd [] [] (Some p)) in ret (inl fd)
           | Some (NFile _) => let! fd := add_fd (Fd [] [] (Some p)) in ret (inl fd)
           | Some _ => ret (inr EOTHER)
           end).

(** [readlink(p, buf, size)]: at most [size] bytes of the target. *)
Definition sys_readlink (p : cstr) (size : nat) : M world (cstr + errno) :=
  fs_call (let! f := lookup_file p in
           ret (match f with
                | Some (NLink t) => inl (take size t)
                | Some _ => inr EOTHER
                | None => inr ENOENT
                end)).

Definition set_env (m : gmap cstr cstr) (w : world) : world :=
  World (w_core w) (w_xfer w) (w_sel w) (w_fs w) (w_mem w) (w_timeout w) m.

(** [putenv("name=value")] *)
Definition putenv (name value : cstr) : M world unit :=
  modify (λ w, set_env (<[name := value]> (w_env w)) w).

(** util.c: a boolean environment option, "0" or "1". *)
Definition dcc_getenv_bool (name : cstr) (default_value : Z) : M world Z :=
  let! e := getenv name in
  match e with
  | None | Some [] => ret default_value
  | Some e =>
      if streq e "1"%cs then ret 1%Z
      else if streq e "0"%cs then ret 0%Z
      else ret default_value
  end.

Lemma getenv_bool_runs name dflt w :
  dcc_getenv_bool name dflt w =
    (Ok match w_env w !! name with
        | Some ["1"%char] => 1%Z
        | Some ["0"%char] => 0%Z
        | _ => dflt
        end, w).
Proof.
  unfold dcc_getenv_bool, getenv, bind, gets. destruct (w_env w !! name) as [[|a [|b l]]|]; try done.
  - unfold streq. destruct (decide (a = "1"%char)) as [->|H1]; [done|].
    rewrite bool_decide_eq_false_2 by congruence.
    destruct (decide (a = "0"%char)) as [->|H0]; [done|].
    rewrite bool_decide_eq_false_2 by congruence.
    by destruct a as [[] [] [] [] [] [] [] []].
  - unfold streq. rewrite !bool_decide_eq_false_2 by congruence.
    by destruct a as [[] [] [] [] [] [] [] []].
Qed.

(** ** Calls that report errors only as values *)

Lemma nofail_getenv_bool name d : nofail (dcc_getenv_bool name d).
Proof. intros w. by rewrite getenv_bool_runs. Qed.

Lemma nofail_fs_call {A} (m : M world (A + errno)) : nofail m → nofail (fs_call m).
Proof. intros Hm w. unfold fs_call, bind, next_fs. destruct (w_fs w) as [|[]]; try done; apply Hm. Qed.
#[export] Hint Resolve nofail_getenv_bool nofail_fs_call : nofail.

Lemma nofail_stat p : nofail (sys_stat p).
Proof. apply nofail_fs_call. unfold lookup_file. nofail. Qed.
Lemma nofail_unlink p : nofail (sys_unlink p).
Proof. apply nofail_fs_call. unfold lookup_file, modify_core. nofail. Qed.
Lemma nofail_rmdir p : nofail (sys_rmdir p).
Proof. apply nofail_fs_call. unfold lookup_file, modify_core. nofail. Qed.
Lemma nofail_access_dir p : nofail (sys_access_dir p).
Proof. apply nofail_fs_call. unfold lookup_file. nofail. Qed.
#[export] Hint Resolve nofail_stat nofail_unlink nofail_rmdir nofail_access_dir : nofail.

(** ** Any kernel, and one that does at once what it is asked to *)

Lemma wp_fs_call {A} (m : M world (A + errno)) Q w :
  (∀ e l, Q (Ok (inr e)) (set_fs l w)) → (∀ l, wp m Q (set_fs l w)) → wp (fs_call m) Q w.
Proof.
  intros HE HO. unfold wp, fs_call, bind, next_fs. destruct (w_fs w) as [|[e|] l] eqn:E; simpl.
  - specialize (HO []). by rewrite <- E in HO; destruct w.
  - apply HE.
  - apply HO.
Qed.

Definition quiet (w : world) : Prop := w_xfer w = [] ∧ w_fs w = [] ∧ w_mem w = [].
