(* ===== verification/Io.v ===== *)
(** * io.c, pump.c, sendfile.c: moving bytes

    The loops that keep reading and writing until everything is through.  A
    loop's fuel is the number of decisions left to the kernel plus the number
    of bytes to move: every round uses up a decision or moves a byte, so fuel
    never runs out, and running out of it is [Undef]. *)

From S2P Require Import Prelude CLib Util World.

(** The timeout is looked up once and kept. *)
Definition dcc_get_io_timeout : M world Z := λ w,
  if (0 <? w_timeout w)%Z then (Ok (w_timeout w), w)
  else
    match w_env w !! "DISTCC_IO_TIMEOUT"%cs with
    | Some user_timeout =>
        let parsed_user_timeout := atoi user_timeout in
        if (parsed_user_timeout <=? 0)%Z then (Exit EXIT_BAD_ARGUMENTS, w)
        else (Ok parsed_user_timeout, set_timeout parsed_user_timeout w)
    | None => (Ok 300%Z, set_timeout 300 w)
    end.

(** The loop of the two select functions.  Only [fd] is in the sets, so when
    select reports a descriptor it is that one.  [l] are the decisions of the
    kernel; past its end the descriptor is ready, so a kernel that interrupts
    for ever, under which the loop does not end, is not among those modelled. *)
Fixpoint select_loop (l : list sel) : outcome unit * list sel :=
  match l with
  | [] => (Ok (), [])
  | SelReady :: l => (Ok (), l)
  | SelTimeout :: l => (Fail EXIT_IO_ERROR, l)
  | SelErr EINTR :: l => select_loop l
  | SelErr _ :: l => (Fail EXIT_IO_ERROR, l)
  end.

Definition dcc_select_for_read (fd : nat) (timeout : Z) : M world unit := λ w,
  let '(r, l) := select_loop (w_sel w) in (r, set_sel l w).

Definition dcc_select_for_write (fd : nat) (timeout : Z) : M world unit := λ w,
  let '(r, l) := select_loop (w_sel w) in (r, set_sel l w).

(** Read exactly [len] bytes from a file. *)
Fixpoint readx_loop (fuel fd len : nat) : M world cstr :=
  if decide (len = 0) then ret []
  else
    match fuel with
    | 0 => ub
    | S fuel =>
        let! r := sys_read fd len in
        match r with
        | inr EAGAIN =>
            let! timeout := dcc_get_io_timeout in
            do! dcc_select_for_read fd timeout;
            readx_loop fuel fd len
        | inr EINTR => readx_loop fuel fd len
        | inr _ => fail EXIT_IO_ERROR
        | inl [] => fail EXIT_TRUNCATED
        | inl buf =>
            let! rest := readx_loop fuel fd (len - length buf) in ret (buf ++ rest)
        end
    end.

Definition io_fuel (len : nat) (w : world) : nat := length (w_xfer w) + len.

Definition dcc_readx (fd len : nat) : M world cstr :=
  λ w, readx_loop (io_fuel len w) fd len w.

(** Write bytes to an fd. *)
Fixpoint writex_loop (fuel fd : nat) (buf : cstr) : M world unit :=
  if decide (length buf = 0) then ret ()
  else
    match fuel with
    | 0 => ub
    | S fuel =>
        let! r := sys_write fd buf in
        match r with
        | inr EAGAIN =>
            let! timeout := dcc_get_io_timeout in
            do! dcc_select_for_write fd timeout;
            writex_loop fuel fd buf
        | inr EINTR => writex_loop fuel fd buf
        | inr _ => fail EXIT_IO_ERROR
        | inl r => writex_loop fuel fd (drop r buf)
        end
    end.

Definition dcc_writex (fd : nat) (buf : cstr) : M world unit :=
  λ w, writex_loop (io_fuel (length buf) w) fd buf w.

Definition dcc_close (fd : nat) : M world unit :=
  let! r := sys_close fd in
  match r with inl _ => ret () | inr _ => fail EXIT_IO_ERROR end.

(** ** pump.c *)

(** The inner loop: [buf] has been read and must go out.  Unlike in
    [dcc_writex], a write of no bytes is an error. *)
Fixpoint pump_write (fuel ofd : nat) (buf : cstr) : M world unit :=
  if decide (length buf = 0) then ret ()
  else
    match fuel with
    | 0 => ub
    | S fuel =>
        let! r := sys_write ofd buf in
        match r with
        | inr EAGAIN =>
            let! timeout := dcc_get_io_timeout in
            do! dcc_select_for_write ofd timeout;
            pump_write fuel ofd buf
        | inr EINTR => pump_write fuel ofd buf
        | inr _ | inl 0 => fail EXIT_IO_ERROR
        | inl r_out => pump_write fuel ofd (drop r_out buf)
        end
    end.

(** [sizeof buf] *)
Definition pump_buf : N := 262144.

Definition pump_wanted (n : nat) : nat :=
  if (pump_buf <? N.of_nat n)%N then N.to_nat pump_buf else n.

Fixpoint pump_loop (fuel ofd ifd n : nat) : M world unit :=
  if decide (n = 0) then ret ()
  else
    match fuel with
    | 0 => ub
    | S fuel =>
        let! r := sys_read ifd (pump_wanted n) in
        match r with
        | inr EAGAIN =>
            let! timeout := dcc_get_io_timeout in
            do! dcc_select_for_read ifd timeout;
            pump_loop fuel ofd ifd n
        | inr EINTR => pump_loop fuel ofd ifd n
        | inr _ | inl [] => fail EXIT_IO_ERROR
        | inl buf =>
            do! (λ w, pump_write (io_fuel (length buf) w) ofd buf w);
            pump_loop fuel ofd ifd (n - length buf)
        end
    end.

Definition dcc_pump_readwrite (ofd ifd n : nat) : M world unit :=
  λ w, pump_loop (io_fuel n w) ofd ifd n w.

(** ** sendfile.c *)

(** Transmit the body of a file; falls back on read and write when the first
    call fails. *)
Fixpoint sendfile_loop (fuel ofd ifd offset size : nat) : M world unit :=
  if decide (size = 0) then ret ()
  else
    match fuel with
    | 0 => ub
    | S fuel =>
        let! sent := sys_sendfile ofd ifd offset size in
        match sent with
        | inr EAGAIN =>
            let! timeout := dcc_get_io_timeout in
            do! dcc_select_for_write ofd timeout;
            sendfile_loop fuel ofd ifd offset size
        | inr EINTR => sendfile_loop fuel ofd ifd offset size
        | inr _ =>
            if decide (offset = 0) then dcc_pump_readwrite ofd ifd size
            else fail EXIT_IO_ERROR
        | inl 0 => fail EXIT_IO_ERROR
        | inl sent =>
            if decide (sent ≠ size) then
              sendfile_loop fuel ofd ifd (offset + sent) (size - sent)
            else ret ()
        end
    end.

Definition dcc_pump_sendfile (ofd ifd size : nat) : M world unit :=
  λ w, sendfile_loop (io_fuel size w) ofd ifd 0 size w.

(** ** Waiting *)

Lemma get_io_timeout_ok w :
  timeout_ok w → ∃ t, dcc_get_io_timeout w = (Ok t, set_timeout t w) ∧ (0 < t)%Z.
Proof.
  unfold dcc_get_io_timeout, timeout_ok. intros Ht.
  destruct (Z.ltb_spec 0 (w_timeout w)).
  - exists (w_timeout w). by destruct w.
  - destruct (w_env w !! _) as [s|].
    + destruct Ht as [?|Ht]; [lia|]. rewrite (proj2 (Z.leb_gt _ _)) by done. by eexists.
    + by exists 300%Z.
Qed.

Lemma select_loop_ok l :
  Forall sel_ok l → ∃ l', select_loop l = (Ok (), l') ∧ Forall sel_ok l'.
Proof.
  induction 1 as [|s l [-> | ->] Hl IH]; simpl; eauto.
Qed.

Lemma select_loop_cases l : (select_loop l).1 = Ok () ∨ (select_loop l).1 = Fail EXIT_IO_ERROR.
Proof. induction l as [|[| |[]] l IH]; simpl; auto. Qed.

(** What a loop does when a transfer would block: wait, then try again. *)
Definition wait (w w' : world) : Prop :=
  w_core w' = w_core w ∧ w_xfer w' = w_xfer w ∧ w_fs w' = w_fs w ∧ w_mem w' = w_mem w ∧
  w_env w' = w_env w.

Lemma wait_ok (sl : Z → M world unit) w :
  (∀ t w, sl t w = let '(r, l) := select_loop (w_sel w) in (r, set_sel l w)) →
  io_ok w → ∃ t w1 w2, dcc_get_io_timeout w = (Ok t, w1) ∧ sl t w1 = (Ok (), w2) ∧
    wait w w2 ∧ io_ok w2.
Proof.
  intros Hsl [? Hs ?? Ht]. destruct (get_io_timeout_ok w Ht) as (t & Et & Hp).
  destruct (select_loop_ok _ Hs) as (l' & El & Hl').
  exists t, (set_timeout t w), (set_sel l' (set_timeout t w)).
  rewrite Hsl. simpl. rewrite El. split_and!; try done. constructor; simpl; try done. by left.
Qed.

(** Both ways of trying again lead to the loop [k] in a world like before. *)
Lemma retry_ok {A} (sl : Z → M world unit) (k : M world A) e w :
  (∀ t w, sl t w = let '(r, l) := select_loop (w_sel w) in (r, set_sel l w)) →
  io_ok w → e = EAGAIN ∨ e = EINTR →
  ∃ w3, wait w w3 ∧ io_ok w3 ∧
    match e with
    | EAGAIN => let! t := dcc_get_io_timeout in do! sl t; k
    | _ => k
    end w = k w3.
Proof.
  intros Hsl Hw [-> | ->].
  - destruct (wait_ok sl w) as (t & w1 & w2 & E1 & E2 & ? & ?); [done..|].
    exists w2. by rewrite (bind_Ok _ _ _ _ _ E1), (bind_Ok _ _ _ _ _ E2).
  - by exists w.
Qed.

Lemma io_ok_xfer x l w :
  io_ok w → w_xfer w = x :: l → xfer_ok x ∧ io_ok (set_xfer l w).
Proof.
  intros [Hx ????] E. rewrite E in Hx. apply Forall_cons in Hx as [??]. split; [done|].
  by constructor.
Qed.

Lemma io_ok_set_core c w : io_ok w → io_ok (set_core c w).
Proof. intros []. by constructor. Qed.

(** ** One transfer *)

Lemma read_ok fd len d w :
  io_ok w → c_fds (w_core w) !! fd = Some d →
  (∃ e w', sys_read fd len w = (Ok (inr e), w') ∧ (e = EAGAIN ∨ e = EINTR) ∧
     w_core w' = w_core w ∧ io_ok w' ∧ w_env w' = w_env w ∧
     length (w_xfer w) = S (length (w_xfer w'))) ∨
  (∃ k w', sys_read fd len w = (Ok (inl (take k (fd_in d))), w') ∧
     (0 < len → 0 < k) ∧ k ≤ len ∧
     w_core w' = set_fds (<[fd := Fd (drop k (fd_in d)) (fd_out d) (fd_file d)]>
                            (c_fds (w_core w))) (w_core w) ∧
     io_ok w' ∧ w_env w' = w_env w ∧ length (w_xfer w') ≤ length (w_xfer w)).
Proof.
  intros Hw Hd. unfold sys_read, next_xfer. rewrite Hd.
  destruct (w_xfer w) as [|x l] eqn:Ex.
  - right. exists (Nat.min (Nat.max 1 len) len). eexists. split; [done|].
    split; [lia|]. split; [lia|]. simpl. rewrite Ex. auto using io_ok_set_core.
  - destruct (io_ok_xfer x l w Hw Ex) as [Hx Hw']. destruct x as [n|e]; simpl in Hx.
    + right. exists (Nat.min (Nat.max 1 n) len). eexists. split; [done|].
      split; [lia|]. split; [lia|]. simpl. auto using io_ok_set_core with lia.
    + left. exists e. eexists. split; [done|]. auto.
Qed.

Lemma write_ok fd buf d w :
  io_ok w → c_fds (w_core w) !! fd = Some d →
  (∃ e w', sys_write fd buf w = (Ok (inr e), w') ∧ (e = EAGAIN ∨ e = EINTR) ∧
     w_core w' = w_core w ∧ io_ok w' ∧ w_env w' = w_env w ∧
     length (w_xfer w) = S (length (w_xfer w'))) ∨
  (∃ k w', sys_write fd buf w = (Ok (inl k), w') ∧
     (0 < length buf → 0 < k) ∧ k ≤ length buf ∧
     w_core w' = put fd d (take k buf) (w_core w) ∧
     io_ok w' ∧ w_env w' = w_env w ∧ length (w_xfer w') ≤ length (w_xfer w)).
Proof.
  intros Hw Hd. unfold sys_write, next_xfer. rewrite Hd.
  destruct (w_xfer w) as [|x l] eqn:Ex.
  - right. exists (Nat.min (length buf) (length buf)). eexists. split; [done|].
    split; [lia|]. split; [lia|]. simpl. rewrite Ex. auto using io_ok_set_core.
  - destruct (io_ok_xfer x l w Hw Ex) as [Hx Hw']. destruct x as [n|e]; simpl in Hx.
    + right. exists (Nat.min n (length buf)). eexists. split; [done|].
      split; [lia|]. split; [lia|]. simpl. auto using io_ok_set_core with lia.
    + left. exists e. eexists. split; [done|]. auto.
Qed.

Lemma set_fds_id c fd d : c_fds c !! fd = Some d → set_fds (<[fd := d]> (c_fds c)) c = c.
Proof. intros Hd. unfold set_fds. rewrite insert_id by done. by destruct c. Qed.

Lemma set_fds_set_fds m m' c : set_fds m (set_fds m' c) = set_fds m c.
Proof. done. Qed.

Lemma append_file_app p b1 b2 m :
  append_file p b2 (append_file p b1 m) = append_file p (b1 ++ b2) m.
Proof.
  destruct p as [p|]; [|done]. simpl. destruct (m !! p) as [[data| |]|] eqn:E; simpl.
  - by rewrite lookup_insert_eq, insert_insert_eq, <- app_assoc.
  - by rewrite E.
  - by rewrite E.
  - by rewrite E.
Qed.

Lemma append_file_nil p m : append_file p [] m = m.
Proof.
  destruct p as [p|]; [|done]. simpl. destruct (m !! p) as [[data| |]|] eqn:E; try done.
  by rewrite app_nil_r, insert_id.
Qed.

Lemma put_put fd d d' b1 b2 c :
  d' = Fd (fd_in d) (fd_out d ++ b1) (fd_file d) →
  put fd d' b2 (put fd d b1 c) = put fd d (b1 ++ b2) c.
Proof.
  intros ->. unfold put, set_files, set_fds. simpl.
  by rewrite append_file_app, insert_insert_eq, <- app_assoc.
Qed.

Lemma put_nil fd d c : c_fds c !! fd = Some d → put fd d [] c = c.
Proof.
  intros Hd. unfold put. rewrite app_nil_r, append_file_nil.
  destruct d. simpl. rewrite insert_id by done. by destruct c.
Qed.

Lemma put_lookup fd d bs c :
  c_fds (put fd d bs c) !! fd = Some (Fd (fd_in d) (fd_out d ++ bs) (fd_file d)).
Proof. apply lookup_insert_eq. Qed.

(** ** The loops under a cooperative kernel *)

Lemma readx_loop_ok fuel fd len d bs rest w :
  io_fuel len w ≤ fuel → io_ok w → c_fds (w_core w) !! fd = Some d →
  fd_in d = bs ++ rest → length bs = len →
  ∃ w', readx_loop fuel fd len w = (Ok bs, w') ∧
    w_core w' = set_fds (<[fd := Fd rest (fd_out d) (fd_file d)]> (c_fds (w_core w))) (w_core w) ∧
    io_ok w' ∧ w_env w' = w_env w.
Proof.
  revert len d bs w. induction fuel as [|fuel IH]; intros len d bs w Hf Hw Hd Hin Hl; simpl.
  all: destruct (decide (len = 0)) as [->|Hlen];
    [apply nil_length_inv in Hl as ->; simpl in Hin; subst rest; exists w;
     split; [done|]; rewrite set_fds_id by (rewrite Hd; by destruct d); done|].
  { unfold io_fuel in Hf. lia. }
  destruct (read_ok fd len d w Hw Hd)
    as [(e & w1 & E & He & Hc & Hw1 & Henv & Hx)|(k & w1 & E & Hk0 & Hk & Hc & Hw1 & Henv & Hx)];
    rewrite (bind_Ok _ _ _ _ _ E).
  - destruct (retry_ok (dcc_select_for_read fd) (readx_loop fuel fd len) e w1)
      as (w3 & (Hc3 & Hx3 & _ & _ & He3) & Hw3 & Ek); [done..|].
    destruct (IH len d bs w3) as (w' & E' & Hc' & Hw' & Henv'); try done.
    { unfold io_fuel in *. rewrite Hx3. lia. }
    { by rewrite Hc3, Hc. }
    exists w'. rewrite Hc', Hc3, Hc. split_and!; try done; [|congruence].
    by destruct He as [-> | ->]; rewrite <- E', <- Ek.
  - rewrite Hin, take_app_le by lia.
    destruct (take k bs) as [|b0 bs0] eqn:Et.
    { apply (f_equal length) in Et. rewrite length_take in Et. simpl in Et. lia. }
    rewrite <- Et. rewrite length_take, Nat.min_l by lia.
    destruct (IH (len - k) (Fd (drop k (fd_in d)) (fd_out d) (fd_file d)) (drop k bs) w1)
      as (w' & E' & Hc' & Hw' & Henv').
    { unfold io_fuel in *. lia. }
    { done. }
    { rewrite Hc. apply lookup_insert_eq. }
    { simpl. by rewrite Hin, drop_app_le by lia. }
    { rewrite length_drop. lia. }
    rewrite (bind_Ok _ _ _ _ _ E'). exists w'. rewrite Hc', Hc, take_drop. simpl.
    split; [done|]. rewrite insert_insert_eq. split_and!; try done. congruence.
Qed.

Lemma readx_runs fd d bs rest c :
  c_fds c !! fd = Some d → fd_in d = bs ++ rest →
  runs (dcc_readx fd (length bs)) (Ok bs) c
    (set_fds (<[fd := Fd rest (fd_out d) (fd_file d)]> (c_fds c)) c).
Proof.
  intros Hd Hin w <- Hw. unfold dcc_readx.
  by eapply readx_loop_ok.
Qed.

Lemma writex_loop_ok fuel fd buf d w :
  io_fuel (length buf) w ≤ fuel → io_ok w → c_fds (w_core w) !! fd = Some d →
  ∃ w', writex_loop fuel fd buf w = (Ok (), w') ∧
    w_core w' = put fd d buf (w_core w) ∧ io_ok w' ∧ w_env w' = w_env w.
Proof.
  revert d buf w. induction fuel as [|fuel IH]; intros d buf w Hf Hw Hd; simpl.
  all: destruct (decide (length buf = 0)) as [->%nil_length_inv|Hlen];
    [exists w; by rewrite put_nil|].
  { unfold io_fuel in Hf. lia. }
  destruct (write_ok fd buf d w Hw Hd)
    as [(e & w1 & E & He & Hc & Hw1 & Henv & Hx)|(k & w1 & E & Hk0 & Hk & Hc & Hw1 & Henv & Hx)];
    rewrite (bind_Ok _ _ _ _ _ E).
  - destruct (retry_ok (dcc_select_for_write fd) (writex_loop fuel fd buf) e w1)
      as (w3 & (Hc3 & Hx3 & _ & _ & He3) & Hw3 & Ek); [done..|].
    destruct (IH d buf w3) as (w' & E' & Hc' & Hw' & Henv'); try done.
    { unfold io_fuel in *. rewrite Hx3. lia. }
    { by rewrite Hc3, Hc. }
    exists w'. rewrite Hc', Hc3, Hc. split_and!; try done; [|congruence].
    by destruct He as [-> | ->]; rewrite <- E', <- Ek.
  - destruct (IH (Fd (fd_in d) (fd_out d ++ take k buf) (fd_file d)) (drop k buf) w1)
      as (w' & E' & Hc' & Hw' & Henv'); try done.
    { unfold io_fuel in *. rewrite length_drop. lia. }
    { rewrite Hc. apply put_lookup. }
    exists w'. rewrite Hc', Hc, (put_put fd d _ (take k buf)), take_drop by done.
    split_and!; try done. congruence.
Qed.

Lemma writex_runs fd d buf c :
  c_fds c !! fd = Some d → runs (dcc_writex fd buf) (Ok ()) c (put fd d buf c).
Proof. intros Hd w <- Hw. by eapply writex_loop_ok. Qed.

Lemma pump_write_ok fuel fd buf d w :
  io_fuel (length buf) w ≤ fuel → io_ok w → c_fds (w_core w) !! fd = Some d →
  ∃ w', pump_write fuel fd buf w = (Ok (), w') ∧
    w_core w' = put fd d buf (w_core w) ∧ io_ok w' ∧ w_env w' = w_env w ∧
    length (w_xfer w') ≤ length (w_xfer w).
Proof.
  revert d buf w. induction fuel as [|fuel IH]; intros d buf w Hf Hw Hd; simpl.
  all: destruct (decide (length buf = 0)) as [->%nil_length_inv|Hlen];
    [exists w; by rewrite put_nil|].
  { unfold io_fuel in Hf. lia. }
  destruct (write_ok fd buf d w Hw Hd)
    as [(e & w1 & E & He & Hc & Hw1 & Henv & Hx)|(k & w1 & E & Hk0 & Hk & Hc & Hw1 & Henv & Hx)];
    rewrite (bind_Ok _ _ _ _ _ E).
  - destruct (retry_ok (dcc_select_for_write fd) (pump_write fuel fd buf) e w1)
      as (w3 & (Hc3 & Hx3 & _ & _ & He3) & Hw3 & Ek); [done..|].
    destruct (IH d buf w3) as (w' & E' & Hc' & Hw' & Henv' & Hx'); try done.
    { unfold io_fuel in *. rewrite Hx3. lia. }
    { by rewrite Hc3, Hc. }
    exists w'. rewrite Hc', Hc3, Hc. split_and!; try done; [|congruence|rewrite Hx3 in Hx'; lia].
    by destruct He as [-> | ->]; rewrite <- E', <- Ek.
  - destruct (IH (Fd (fd_in d) (fd_out d ++ take k buf) (fd_file d)) (drop k buf) w1)
      as (w' & E' & Hc' & Hw' & Henv' & Hx'); try done.
    { unfold io_fuel in *. rewrite length_drop. lia. }
    { rewrite Hc. apply put_lookup. }
    exists w'. rewrite Hc', Hc, (put_put fd d _ (take k buf)), take_drop by done.
    split_and!; try done; [|congruence|lia]. by destruct k; [lia|].
Qed.

Lemma pump_wanted_pos n : 0 < n → 0 < pump_wanted n ≤ n.
Proof.
  unfold pump_wanted, pump_buf. intros. destruct (N.ltb_spec 262144 (N.of_nat n)); lia.
Qed.

(** The core after [bs] moved from [ifd] to [ofd]. *)
Definition moved (ofd ifd : nat) (od id : fdesc) (bs rest : cstr) (c : core) : core :=
  put ofd od bs (set_fds (<[ifd := Fd rest (fd_out id) (fd_file id)]> (c_fds c)) c).

Lemma moved_moved ofd ifd od id b1 b2 r1 r2 c :
  ofd ≠ ifd →
  moved ofd ifd (Fd (fd_in od) (fd_out od ++ b1) (fd_file od))
        (Fd r1 (fd_out id) (fd_file id)) b2 r2 (moved ofd ifd od id b1 r1 c) =
  moved ofd ifd od id (b1 ++ b2) r2 c.
Proof.
  intros Hne. unfold moved, put, set_files, set_fds. simpl.
  rewrite append_file_app, <- app_assoc. f_equal.
  rewrite (insert_insert_ne _ ofd ifd) by done. rewrite insert_insert_eq.
  by rewrite (insert_insert_ne _ ifd ofd), insert_insert_eq by done.
Qed.

Lemma moved_nil ofd ifd od id rest c :
  ofd ≠ ifd → c_fds c !! ofd = Some od → c_fds c !! ifd = Some id → fd_in id = rest →
  moved ofd ifd od id [] rest c = c.
Proof.
  intros Hne Ho Hi <-. unfold moved. rewrite set_fds_id by (rewrite Hi; by destruct id).
  by apply put_nil.
Qed.

Lemma pump_loop_ok fuel ofd ifd od id bs rest w :
  io_fuel (length bs) w ≤ fuel → io_ok w → ofd ≠ ifd →
  c_fds (w_core w) !! ofd = Some od → c_fds (w_core w) !! ifd = Some id →
  fd_in id = bs ++ rest →
  ∃ w', pump_loop fuel ofd ifd (length bs) w = (Ok (), w') ∧
    w_core w' = moved ofd ifd od id bs rest (w_core w) ∧ io_ok w' ∧ w_env w' = w_env w.
Proof.
  revert od id bs w. induction fuel as [|fuel IH]; intros od id bs w Hf Hw Hne Ho Hi Hin; simpl.
  all: destruct (decide (length bs = 0)) as [->%nil_length_inv|Hlen];
    [exists w; by rewrite moved_nil|].
  { unfold io_fuel in Hf. lia. }
  destruct (pump_wanted_pos (length bs)) as [Hp0 Hp]; [lia|].
  destruct (read_ok ifd (pump_wanted (length bs)) id w Hw Hi)
    as [(e & w1 & E & He & Hc & Hw1 & Henv & Hx)|(k & w1 & E & Hk0 & Hk & Hc & Hw1 & Henv & Hx)];
    rewrite (bind_Ok _ _ _ _ _ E).
  - destruct (retry_ok (dcc_select_for_read ifd) (pump_loop fuel ofd ifd (length bs)) e w1)
      as (w3 & (Hc3 & Hx3 & _ & _ & He3) & Hw3 & Ek); [done..|].
    destruct (IH od id bs w3) as (w' & E' & Hc' & Hw' & Henv'); try done.
    { unfold io_fuel in *. rewrite Hx3. lia. }
    { by rewrite Hc3, Hc. }
    { by rewrite Hc3, Hc. }
    exists w'. rewrite Hc', Hc3, Hc. split_and!; try done; [|congruence].
    by destruct He as [-> | ->]; rewrite <- E', <- Ek.
  - rewrite Hin, take_app_le by lia.
    destruct (take k bs) as [|b0 bs0] eqn:Et.
    { apply (f_equal length) in Et. rewrite length_take in Et. simpl in Et. lia. }
    rewrite <- Et. clear b0 bs0 Et.
    destruct (pump_write_ok (io_fuel (length (take k bs)) w1) ofd (take k bs) od w1)
      as (w2 & E2 & Hc2 & Hw2 & He2 & Hx2); [done..| |].
    { rewrite Hc. simpl. by rewrite lookup_insert_ne. }
    erewrite bind_Ok by apply E2. rewrite length_take, Nat.min_l, <- length_drop by lia.
    assert (w_core w2 = moved ofd ifd od id (take k bs) (drop k (fd_in id)) (w_core w)) as Hm
      by by rewrite Hc2, Hc.
    destruct (IH (Fd (fd_in od) (fd_out od ++ take k bs) (fd_file od))
                 (Fd (drop k (fd_in id)) (fd_out id) (fd_file id)) (drop k bs) w2)
      as (w' & E' & Hc' & Hw' & Henv'); try done.
    { unfold io_fuel in *. rewrite length_drop. lia. }
    { rewrite Hm. apply put_lookup. }
    { rewrite Hm. simpl. by rewrite lookup_insert_ne, lookup_insert_eq. }
    { simpl. by rewrite Hin, drop_app_le by lia. }
    exists w'. rewrite Hc', Hm, moved_moved, take_drop by done.
    split_and!; try done. congruence.
Qed.

Lemma pump_readwrite_runs ofd ifd od id bs rest c :
  ofd ≠ ifd → c_fds c !! ofd = Some od → c_fds c !! ifd = Some id → fd_in id = bs ++ rest →
  runs (dcc_pump_readwrite ofd ifd (length bs)) (Ok ()) c (moved ofd ifd od id bs rest c).
Proof. intros ???? w <- Hw. by eapply pump_loop_ok. Qed.

(** ** The loops under any kernel *)

(** The bytes a descriptor still has to give, and those it was given. *)
Definition stream (fd : nat) (w : world) : cstr :=
  match c_fds (w_core w) !! fd with Some d => fd_in d | None => [] end.
Definition written (fd : nat) (w : world) : cstr :=
  match c_fds (w_core w) !! fd with Some d => fd_out d | None => [] end.

Lemma read_any fd len w :
  0 < len →
  ∃ r w', sys_read fd len w = (Ok r, w') ∧ (timeout_ok w → timeout_ok w') ∧
    (∀ fd', written fd' w' = written fd' w) ∧
    match r with
    | inr e => stream fd w' = stream fd w ∧
        (e = EAGAIN ∨ e = EINTR → length (w_xfer w) = S (length (w_xfer w')))
    | inl bs => stream fd w = bs ++ stream fd w' ∧ length bs ≤ len ∧
        (bs = [] → stream fd w = []) ∧ length (w_xfer w') ≤ length (w_xfer w)
    end.
Proof.
  intros Hlen. unfold sys_read, stream, written.
  destruct (c_fds (w_core w) !! fd) as [d|] eqn:Hd.
  2:{ do 2 eexists. split; [done|]. simpl. rewrite Hd. naive_solver. }
  assert (∃ x w1, next_xfer len w = (x, w1) ∧ w_core w1 = w_core w ∧
    (timeout_ok w → timeout_ok w1) ∧ length (w_xfer w1) ≤ length (w_xfer w) ∧
    (∀ e, x = XErr e → length (w_xfer w) = S (length (w_xfer w1)))) as (x & w1 & -> & Hc & Ht & Hx & He).
  { unfold next_xfer. destruct (w_xfer w) eqn:E; do 2 eexists; split; try done; simpl;
      rewrite ?E; naive_solver lia. }
  destruct x as [n|e].
  - do 2 eexists. split; [done|]. simpl. rewrite lookup_insert_eq. simpl.
    rewrite take_drop, length_take. split; [done|]. split.
    { intros fd'. rewrite Hc. destruct (decide (fd' = fd)) as [->|];
        [by rewrite lookup_insert_eq, Hd|by rewrite lookup_insert_ne]. }
    split; [done|]. split; [lia|]. split; [|lia]. intros Hn. destruct (fd_in d); [done|].
    destruct (Nat.min (Nat.max 1 n) len) eqn:?; [lia|done].
  - do 2 eexists. split; [done|]. simpl. rewrite Hc, Hd. eauto 6.
Qed.

Lemma write_any fd buf w :
  ∃ r w', sys_write fd buf w = (Ok r, w') ∧ (timeout_ok w → timeout_ok w') ∧
    (∀ fd', stream fd' w' = stream fd' w) ∧
    match r with
    | inr e => written fd w' = written fd w ∧
        (e = EAGAIN ∨ e = EINTR → length (w_xfer w) = S (length (w_xfer w')))
    | inl k => written fd w' = written fd w ++ take k buf ∧ k ≤ length buf ∧
        length (w_xfer w') ≤ length (w_xfer w) ∧
        (k = 0 → 0 < length buf → length (w_xfer w) = S (length (w_xfer w')))
    end.
Proof.
  unfold sys_write, written, stream. destruct (c_fds (w_core w) !! fd) as [d|] eqn:Hd.
  2:{ do 2 eexists. split; [done|]. simpl. rewrite Hd. naive_solver. }
  assert (∀ bs fd', match <[fd:=Fd (fd_in d) bs (fd_file d)]> (c_fds (w_core w)) !! fd' with
    Some d => fd_in d | None => [] end = match c_fds (w_core w) !! fd' with
    Some d => fd_in d | None => [] end) as Hst.
  { intros bs fd'. destruct (decide (fd' = fd)) as [->|];
        [by rewrite lookup_insert_eq, Hd|by rewrite lookup_insert_ne]. }
  unfold next_xfer. destruct (w_xfer w) as [|[n|e] l] eqn:E; do 2 eexists; (split; [done|]); simpl.
  - rewrite lookup_insert_eq, E. simpl. split_and!; auto with lia.
  - rewrite lookup_insert_eq. simpl. split_and!; auto with lia.
  - rewrite Hd. auto.
Qed.

Lemma retry_any {A} (sl : Z → M world unit) (k : M world A) e Q w :
  (∀ t w, sl t w = let '(r, l) := select_loop (w_sel w) in (r, set_sel l w)) →
  e = EAGAIN ∨ e = EINTR →
  (∀ w3, wait w w3 → (timeout_ok w → timeout_ok w3) → wp k Q w3) →
  (∀ w3, wait w w3 → Q (Fail EXIT_IO_ERROR) w3) →
  (∀ w3, wait w w3 → ¬ timeout_ok w → Q (Exit EXIT_BAD_ARGUMENTS) w3) →
  wp match e with
     | EAGAIN => let! t := dcc_get_io_timeout in do! sl t; k
     | _ => k
     end Q w.
Proof.
  intros Hsl He Hk HF HX. destruct He as [-> | ->]; [|by apply Hk].
  assert ((∃ t, dcc_get_io_timeout w = (Ok t, set_timeout t w) ∧ (0 < t)%Z) ∨
    dcc_get_io_timeout w = (Exit EXIT_BAD_ARGUMENTS, w) ∧ ¬ timeout_ok w) as Ht.
  { destruct (Z.ltb_spec 0 (w_timeout w)).
    { left. apply get_io_timeout_ok. by left. }
    destruct (w_env w !! "DISTCC_IO_TIMEOUT"%cs) as [s|] eqn:Es.
    2:{ left. apply get_io_timeout_ok. right. by rewrite Es. }
    destruct (Z.leb_spec (atoi s) 0).
    - right. unfold dcc_get_io_timeout, timeout_ok. rewrite Es.
      rewrite (proj2 (Z.ltb_ge _ _)), (proj2 (Z.leb_le _ _)) by done. split; [done|lia].
    - left. apply get_io_timeout_ok. right. by rewrite Es. }
  unfold wp, bind. destruct Ht as [(t & -> & Ht)|[-> Ht]]; [|by apply HX].
  rewrite Hsl. simpl. destruct (select_loop_cases (w_sel w)) as [E|E];
    destruct (select_loop (w_sel w)) as [o l]; simpl in E; subst o.
  - apply (Hk (set_sel l (set_timeout t w))); [done|]. intros _. by left.
  - apply HF. done.
Qed.

(** What [dcc_readx] from [w] may do. *)
Definition readx_post (fd len : nat) (w : world) (o : outcome cstr) (w' : world) : Prop :=
  match o with
  | Ok bs => length bs = len ∧ stream fd w = bs ++ stream fd w'
  | Fail c => c = EXIT_IO_ERROR ∨ (c = EXIT_TRUNCATED ∧ length (stream fd w) < len)
  | Exit c => c = EXIT_BAD_ARGUMENTS ∧ ¬ timeout_ok w
  | Undef => False
  end.

Lemma readx_post_wait fd len w w3 o w' :
  stream fd w3 = stream fd w → (timeout_ok w → timeout_ok w3) →
  readx_post fd len w3 o w' → readx_post fd len w o w'.
Proof. unfold readx_post. intros -> Ht. destruct o; naive_solver. Qed.

Lemma readx_loop_any fuel fd len w :
  io_fuel len w ≤ fuel → wp (readx_loop fuel fd len) (readx_post fd len w) w.
Proof.
  revert len w. induction fuel as [|fuel IH]; intros len w Hfuel; unfold io_fuel in Hfuel; simpl.
  all: destruct (decide (len = 0)) as [->|Hlen]; [by apply wp_ret|].
  { lia. }
  apply wp_bind. destruct (read_any fd len w) as (r & w1 & E & Ht & Hwr & Hr); [lia|].
  eapply wp_run; [exact E|]. cbn beta iota. destruct r as [bs|e].
  - destruct Hr as (Hs & Hb & Hnil & Hx). destruct bs as [|b bs'].
    { apply wp_throw. right. rewrite Hnil by done. simpl. lia. }
    assert (0 < length (b :: bs')) as Hpos by (simpl; lia).
    generalize dependent (b :: bs'). intros bs _ Hs Hb _ Hpos. apply wp_bind. eapply wp_mono; [apply (IH (len - length bs) w1)|].
    { unfold io_fuel. lia. }
    intros [] w' Ho; cbn [readx_post] in *; [apply wp_ret|..|destruct Ho; auto|done].
    + cbn [readx_post]. destruct Ho as [Hl Ho]. rewrite Hs, Ho, length_app, <- app_assoc.
      split; [lia|done].
    + destruct Ho as [->|[-> Ho]]; [auto|]. right. split; [done|]. rewrite Hs, length_app. lia.
  - destruct (decide (e = EAGAIN ∨ e = EINTR)) as [He|He].
    + destruct Hr as [Hs Hx]. specialize (Hx He).
      assert (∀ w3, wait w1 w3 → stream fd w3 = stream fd w ∧ io_fuel len w3 ≤ fuel) as Hw3.
      { intros w3 (Hc & Hx3 & _). rewrite <- Hs. unfold io_fuel, stream. rewrite Hc, Hx3.
        split; [done|lia]. }
      pose proof (retry_any (dcc_select_for_read fd) (readx_loop fuel fd len) e
        (readx_post fd len w) w1 (λ _ _, eq_refl) He) as Hretry.
      destruct He as [-> | ->]; (apply Hretry; [intros w3 Hwt Ht3|by left|split; auto]);
        destruct (Hw3 w3 Hwt); (eapply wp_mono; [by apply IH|]);
        intros o w'; apply readx_post_wait; auto.
    + destruct e; try tauto; apply wp_throw; by left.
Qed.

Lemma readx_any fd len w : wp (dcc_readx fd len) (readx_post fd len w) w.
Proof. by apply (readx_loop_any (io_fuel len w)). Qed.

(** A reason to give up: the descriptor is not open, an error other than an
    interruption or would-block is ahead, or select will time out or fail. *)
Definition hard_xfer (x : xfer) : Prop := match x with XN _ => False | XErr e => e ≠ EAGAIN ∧ e ≠ EINTR end.
Definition hard_error (fd : nat) (w : world) : Prop :=
  c_fds (w_core w) !! fd = None ∨ Exists hard_xfer (w_xfer w) ∨ Exists (λ s, ¬ sel_ok s) (w_sel w).

#[export] Instance hard_xfer_dec x : Decision (hard_xfer x).
Proof. destruct x; simpl; apply _. Defined.
#[export] Instance sel_eq_dec : EqDecision sel.
Proof. solve_decision. Defined.
#[export] Instance sel_ok_dec s : Decision (sel_ok s).
Proof. unfold sel_ok. apply _. Defined.
#[export] Instance hard_error_dec fd w : Decision (hard_error fd w).
Proof. unfold hard_error. apply _. Defined.

Lemma soft_kernel fd w :
  ¬ hard_error fd w ↔
    is_Some (c_fds (w_core w) !! fd) ∧ Forall (λ x, ¬ hard_xfer x) (w_xfer w) ∧ Forall sel_ok (w_sel w).
Proof.
  unfold hard_error. rewrite <- not_eq_None_Some. split.
  - intros H. split_and!; [tauto|apply Forall_forall; intros x Hin Hx; apply H; right; left; apply Exists_exists; eauto|].
    apply Forall_forall. intros s Hin. apply dec_stable. intros Hs. apply H. right. right. apply Exists_exists. eauto.
  - intros (H1 & H2 & H3) [?|[H|H]]; [tauto|..]; apply Exists_exists in H as (x & Hin & Hx);
      [by rewrite Forall_forall in H2; apply (H2 x)|]. rewrite Forall_forall in H3. by apply Hx, H3.
Qed.

(** The rest of a soft kernel is soft. *)
Lemma soft_read fd len w r w' :
  sys_read fd len w = (Ok r, w') → ¬ hard_error fd w →
  ¬ hard_error fd w' ∧ match r with inr e => e = EAGAIN ∨ e = EINTR | inl _ => True end.
Proof.
  intros E Hs. apply soft_kernel in Hs as ([d Hd] & Hx & Hsel). unfold sys_read, next_xfer in E. rewrite Hd in E.
  destruct (w_xfer w) as [|[n|e] l] eqn:Ex; simplify_eq/=; rewrite soft_kernel; simpl.
  - rewrite lookup_insert_eq, Ex. split; [|done]. split_and!; [by eexists|done..].
  - rewrite lookup_insert_eq. apply Forall_cons in Hx as [_ Hx]. split; [|done]. split_and!; [by eexists|done..].
  - apply Forall_cons in Hx as [He Hx]. simpl in He. rewrite Hd. split; [by split_and!; [eexists|..]|].
    destruct e; auto; exfalso; apply He; done.
Qed.

Lemma select_soft l : Forall sel_ok l → ∃ l', select_loop l = (Ok (), l') ∧ Forall sel_ok l'.
Proof.
  induction 1 as [|s l Hs Hl IH]; [by exists []|]. destruct Hs as [-> | ->]; simpl; [by exists l|done].
Qed.

(** A soft kernel gives no I/O error. *)
Lemma readx_soft fuel fd len w :
  ¬ hard_error fd w → wp (readx_loop fuel fd len) (λ o _, o ≠ Fail EXIT_IO_ERROR) w.
Proof.
  revert len w. induction fuel as [|fuel IH]; intros len w Hs; cbn [readx_loop]; case_decide; try by apply wp_ret.
  { by apply wp_throw. }
  apply wp_bind. destruct (sys_read fd len w) as [o w1] eqn:E.
  assert (∃ r, o = Ok r) as [r ->].
  { revert E. unfold sys_read. repeat case_match; intros; simplify_eq; eauto. }
  eapply wp_run; [exact E|]. destruct (soft_read _ _ _ _ _ E Hs) as [Hs1 Hr]. cbn beta iota.
  destruct r as [[|b bs]|e]; [by apply wp_throw| |].
  - apply wp_bind. eapply wp_mono; [by apply IH|]. intros [] w' Ho; [by apply wp_ret|congruence|done|done].
  - destruct Hr as [-> | ->]; [|by apply IH]. apply wp_bind. unfold wp at 1.
    assert (∀ w', w_core w' = w_core w1 → w_xfer w' = w_xfer w1 → w_sel w' = w_sel w1 →
      wp (do! dcc_select_for_read fd 0; readx_loop fuel fd len) (λ o _, o ≠ Fail EXIT_IO_ERROR) w') as Hgo.
    { intros w' E1 E2 E3. apply soft_kernel in Hs1 as (H1 & H2 & H3). destruct (select_soft _ H3) as (l & El & Hl).
      apply wp_bind. unfold wp at 1, dcc_select_for_read. rewrite E3, El. apply IH, soft_kernel. simpl.
      rewrite E1, E2. done. }
    unfold dcc_get_io_timeout. destruct (0 <? w_timeout w1)%Z; [by apply (Hgo w1)|].
    destruct (w_env w1 !! _) as [t|]; [destruct (atoi t <=? 0)%Z|]; first [done | by apply (Hgo (set_timeout _ w1))].
Qed.

(** C16.  [dcc_readx] is exact under every behaviour of the kernel: partial
    reads, interruptions, would-block and errors in any order.  On success it has
    taken exactly [len] bytes off the stream, in order.  EXIT_TRUNCATED means
    that the stream ended before there were [len] bytes; EXIT_IO_ERROR means that
    the kernel reported an error other than an interruption or would-block, that
    select timed out or failed, or that the descriptor was not open; the process
    ends only over an unusable DISTCC_IO_TIMEOUT.  So when there are enough bytes,
    the descriptor is open, the timeout is usable and the kernel does nothing
    worse than to interrupt, to put off and to transfer in parts, exactly these
    bytes are returned.  (A kernel is a finite list of such decisions, after
    which every call succeeds: one that interrupts for ever is not considered,
    and the loop does not return under it.) *)
Theorem readx_exact (fd len : nat) (w : world) :
  wp (dcc_readx fd len)
     (λ o w', match o with
              | Ok bs => length bs = len ∧ stream fd w = bs ++ stream fd w'
              | Fail c => (c = EXIT_TRUNCATED ∧ length (stream fd w) < len) ∨
                          (c = EXIT_IO_ERROR ∧ hard_error fd w)
              | Exit c => c = EXIT_BAD_ARGUMENTS ∧ ¬ timeout_ok w
              | Undef => False
              end) w.
Proof.
  pose proof (readx_any fd len w) as H. pose proof (readx_soft (io_fuel len w) fd len w) as Hs.
  unfold dcc_readx, wp in *. destruct (readx_loop _ fd len w) as [[bs|c|c|] w']; [done| |done|done].
  destruct H as [->|H]; [right|by left]. split; [done|].
  destruct (decide (hard_error fd w)) as [|Hn]; [done|]. by destruct (Hs Hn).
Qed.

(** What [dcc_writex] from [w] may do. *)
Definition writex_post (fd : nat) (buf : cstr) (w : world) (o : outcome unit) (w' : world) : Prop :=
  match o with
  | Ok _ => written fd w' = written fd w ++ buf
  | Fail c => c = EXIT_IO_ERROR ∧ ∃ p, p `prefix_of` buf ∧ written fd w' = written fd w ++ p
  | Exit c => c = EXIT_BAD_ARGUMENTS ∧ ¬ timeout_ok w
  | Undef => False
  end.

Lemma writex_post_step fd buf k w w1 o w' :
  written fd w1 = written fd w ++ take k buf → (timeout_ok w → timeout_ok w1) →
  writex_post fd (drop k buf) w1 o w' → writex_post fd buf w o w'.
Proof.
  unfold writex_post. intros Hw Ht. destruct o; try naive_solver.
  - intros ->. by rewrite Hw, <- app_assoc, take_drop.
  - intros (-> & p & Hp & ->). split; [done|]. exists (take k buf ++ p).
    rewrite Hw, <- app_assoc. split; [|done].
    rewrite <- (take_drop k buf) at 2. by apply prefix_app.
Qed.

Lemma writex_loop_any fuel fd buf w :
  io_fuel (length buf) w ≤ fuel → wp (writex_loop fuel fd buf) (writex_post fd buf w) w.
Proof.
  revert buf w. induction fuel as [|fuel IH]; intros buf w Hfuel; unfold io_fuel in Hfuel; simpl.
  all: destruct (decide (length buf = 0)) as [->%nil_length_inv|Hlen];
    [apply wp_ret; simpl; by rewrite app_nil_r|].
  { lia. }
  apply wp_bind. destruct (write_any fd buf w) as (r & w1 & E & Ht & Hst & Hr).
  eapply wp_run; [exact E|]. cbn beta iota. destruct r as [k|e].
  - destruct Hr as (Hs & Hk & Hx & H0). eapply wp_mono; [apply (IH (drop k buf) w1)|].
    { unfold io_fuel. rewrite length_drop. destruct (decide (k = 0)); [|lia].
      specialize (H0 ltac:(done) ltac:(lia)). lia. }
    intros o w'. by apply writex_post_step.
  - assert (writex_post fd buf w (Fail EXIT_IO_ERROR) w1) as HF.
    { split; [done|]. exists []. rewrite app_nil_r. split; [apply prefix_nil|apply Hr]. }
    destruct (decide (e = EAGAIN ∨ e = EINTR)) as [He|He]; [|destruct e; try tauto; exact HF].
    destruct Hr as [Hs Hx]. specialize (Hx He).
    assert (∀ w3, wait w1 w3 → written fd w3 = written fd w ∧ io_fuel (length buf) w3 ≤ fuel) as Hw3.
    { intros w3 (Hc & Hx3 & _). rewrite <- Hs. unfold io_fuel, written. rewrite Hc, Hx3.
      split; [done|lia]. }
    pose proof (retry_any (dcc_select_for_write fd) (writex_loop fuel fd buf) e
      (writex_post fd buf w) w1 (λ _ _, eq_refl) He) as Hretry.
    destruct He as [-> | ->]; (apply Hretry;
      [intros w3 Hwt Ht3|intros w3 Hwt; destruct (Hw3 w3 Hwt) as [Hq _]; split; [done|]; exists [];
       rewrite app_nil_r; split; [apply prefix_nil|done]|split; auto]);
      destruct (Hw3 w3 Hwt); (eapply wp_mono; [by apply IH|]);
      intros o w'; apply (writex_post_step fd buf 0); auto; by rewrite app_nil_r.
Qed.

(** [dcc_writex] puts exactly its buffer on the descriptor, or, when
    it reports EXIT_IO_ERROR, a prefix of it; it always returns, whatever the
    kernel does. *)
Lemma writex_exact (fd : nat) (buf : cstr) (w : world) :
  wp (dcc_writex fd buf)
     (λ o w', match o with
              | Ok _ => written fd w' = written fd w ++ buf
              | Fail c => c = EXIT_IO_ERROR ∧
                  ∃ p, p `prefix_of` buf ∧ written fd w' = written fd w ++ p
              | Exit c => c = EXIT_BAD_ARGUMENTS ∧ ¬ timeout_ok w
              | Undef => False
              end) w.
Proof. by apply (writex_loop_any (io_fuel (length buf) w)). Qed.

Lemma readx_safe fd len : safe (dcc_readx fd len).
Proof.
  intros w Hu. pose proof (readx_loop_any (io_fuel len w) fd len w (le_n _)) as Hp.
  unfold wp in Hp. unfold dcc_readx in Hu. by rewrite Hu in Hp.
Qed.

Lemma writex_safe fd buf : safe (dcc_writex fd buf).
Proof.
  intros w Hu. pose proof (writex_loop_any (io_fuel (length buf) w) fd buf w (le_n _)) as Hp.
  unfold wp in Hp. unfold dcc_writex in Hu. by rewrite Hu in Hp.
Qed.

(** What the inner loop of the pump may do: as [dcc_writex], and nothing to the
    streams. *)
Definition pump_write_post (fd : nat) (buf : cstr) (w : world) (o : outcome unit) (w' : world) : Prop :=
  writex_post fd buf w o w' ∧
  (o = Ok () → (∀ fd', stream fd' w' = stream fd' w) ∧ (timeout_ok w → timeout_ok w') ∧
     length (w_xfer w') ≤ length (w_xfer w)).

Lemma pump_write_post_step fd buf k w w1 o w' :
  written fd w1 = written fd w ++ take k buf → (timeout_ok w → timeout_ok w1) →
  (∀ fd', stream fd' w1 = stream fd' w) → length (w_xfer w1) ≤ length (w_xfer w) →
  pump_write_post fd (drop k buf) w1 o w' → pump_write_post fd buf w o w'.
Proof.
  intros Hw Ht Hst Hx [Hp Hok]. split; [by eapply writex_post_step|].
  intros ->. destruct (Hok eq_refl) as (Hst' & ? & ?).
  split; [intros; by rewrite Hst'|]. auto with lia.
Qed.

Lemma writex_post_fail fd buf w w' :
  written fd w' = written fd w → writex_post fd buf w (Fail EXIT_IO_ERROR) w'.
Proof.
  intros Hq. split; [done|]. exists []. rewrite app_nil_r. split; [apply prefix_nil|done].
Qed.

Lemma pump_write_any fuel fd buf w :
  io_fuel (length buf) w ≤ fuel → wp (pump_write fuel fd buf) (pump_write_post fd buf w) w.
Proof.
  revert buf w. induction fuel as [|fuel IH]; intros buf w Hfuel; unfold io_fuel in Hfuel; simpl.
  all: destruct (decide (length buf = 0)) as [->%nil_length_inv|Hlen];
    [apply wp_ret; repeat split; try done; simpl; by rewrite app_nil_r|].
  { lia. }
  apply wp_bind. destruct (write_any fd buf w) as (r & w1 & E & Ht & Hst & Hr).
  eapply wp_run; [exact E|]. cbn beta iota. destruct r as [k|e].
  - destruct Hr as (Hs & Hk & Hx & H0). destruct k as [|k].
    { rewrite app_nil_r in Hs. apply wp_throw. split; [by apply writex_post_fail|done]. }
    eapply wp_mono; [apply (IH (drop (S k) buf) w1)|].
    { unfold io_fuel. rewrite length_drop. lia. }
    intros o w'. by apply pump_write_post_step.
  - destruct Hr as [Hs Hx].
    destruct (decide (e = EAGAIN ∨ e = EINTR)) as [He|He];
      [|destruct e; try tauto; apply wp_throw; (split; [by apply writex_post_fail|done])].
    specialize (Hx He).
    assert (∀ w3, wait w1 w3 → written fd w3 = written fd w ∧ io_fuel (length buf) w3 ≤ fuel ∧
      (∀ fd', stream fd' w3 = stream fd' w) ∧ length (w_xfer w3) ≤ length (w_xfer w)) as Hw3.
    { intros w3 (Hc & Hx3 & _). rewrite <- Hs. unfold io_fuel, written, stream in *. rewrite Hc, Hx3.
      split_and!; auto with lia. }
    pose proof (retry_any (dcc_select_for_write fd) (pump_write fuel fd buf) e
      (pump_write_post fd buf w) w1 (λ _ _, eq_refl) He) as Hretry.
    destruct He as [-> | ->]; (apply Hretry;
      [intros w3 Hwt Ht3|intros w3 Hwt; split; [apply writex_post_fail; by apply Hw3|done]
      |split; [split; auto|done]]);
      destruct (Hw3 w3 Hwt) as (?&?&?&?); (eapply wp_mono; [by apply IH|]);
      intros o w'; apply (pump_write_post_step fd buf 0); auto; by rewrite app_nil_r.
Qed.

(** What [dcc_pump_readwrite] from [w] may do. *)
Definition pump_post (ofd ifd n : nat) (w : world) (o : outcome unit) (w' : world) : Prop :=
  match o with
  | Ok _ => ∃ bs, length bs = n ∧ stream ifd w = bs ++ stream ifd w' ∧
      written ofd w' = written ofd w ++ bs
  | Fail c => c = EXIT_IO_ERROR ∧ ∃ p, p `prefix_of` take n (stream ifd w) ∧
      written ofd w' = written ofd w ++ p
  | Exit c => c = EXIT_BAD_ARGUMENTS ∧ ¬ timeout_ok w
  | Undef => False
  end.

Lemma pump_post_step ofd ifd n bs w w2 o w' :
  stream ifd w = bs ++ stream ifd w2 → written ofd w2 = written ofd w ++ bs →
  length bs ≤ n → (timeout_ok w → timeout_ok w2) →
  pump_post ofd ifd (n - length bs) w2 o w' → pump_post ofd ifd n w o w'.
Proof.
  unfold pump_post. intros Hs Hw Hn Ht. destruct o as [|c|c|]; [..|naive_solver|done].
  - intros (bs' & Hl & Hs' & Hw'). exists (bs ++ bs').
    rewrite length_app, Hl, Hs, Hs', Hw', Hw, <- !app_assoc. split; [lia|done].
  - intros (-> & p & Hp & Hw'). split; [done|]. exists (bs ++ p).
    rewrite Hw', Hw, <- app_assoc, Hs. split; [|done].
    rewrite take_app_ge by lia. by apply prefix_app.
Qed.

Lemma pump_post_fail ofd ifd n w w' :
  written ofd w' = written ofd w → pump_post ofd ifd n w (Fail EXIT_IO_ERROR) w'.
Proof.
  intros Hq. split; [done|]. exists []. rewrite app_nil_r. split; [apply prefix_nil|done].
Qed.

Lemma pump_loop_any fuel ofd ifd n w :
  io_fuel n w ≤ fuel → wp (pump_loop fuel ofd ifd n) (pump_post ofd ifd n w) w.
Proof.
  revert n w. induction fuel as [|fuel IH]; intros n w Hfuel; unfold io_fuel in Hfuel; simpl.
  all: destruct (decide (n = 0)) as [->|Hn];
    [apply wp_ret; exists []; by rewrite app_nil_r|].
  { lia. }
  destruct (pump_wanted_pos n) as [Hp0 Hp]; [lia|].
  apply wp_bind. destruct (read_any ifd (pump_wanted n) w) as (r & w1 & E & Ht & Hwr & Hr); [lia|].
  eapply wp_run; [exact E|]. cbn beta iota. destruct r as [bs|e].
  - destruct Hr as (Hs & Hb & _ & Hx). destruct bs as [|b bs'].
    { apply wp_throw. by apply pump_post_fail. }
    assert (0 < length (b :: bs')) as Hpos by (simpl; lia).
    generalize dependent (b :: bs'). intros bs _ Hs Hb Hpos.
    apply wp_bind. eapply wp_mono; [by apply pump_write_any|].
    intros [[]|c|c|] w2 [Hpw Hok]; cbn [writex_post] in Hpw.
    + destruct (Hok eq_refl) as (Hst & Ht2 & Hx2).
      eapply wp_mono; [apply (IH (n - length bs) w2)|].
      { unfold io_fuel. lia. }
      intros o w'. apply pump_post_step; [by rewrite Hst|by rewrite Hpw, Hwr|lia|auto].
    + destruct Hpw as (-> & p & Hpre & Hw2). split; [done|]. exists p.
      rewrite Hw2, Hwr. split; [|done]. rewrite Hs, take_app_ge by lia. by apply prefix_app_r.
    + destruct Hpw. split; auto.
    + done.
  - destruct Hr as [Hs Hx].
    destruct (decide (e = EAGAIN ∨ e = EINTR)) as [He|He];
      [|destruct e; try tauto; apply wp_throw; by apply pump_post_fail].
    specialize (Hx He).
    assert (∀ w3, wait w1 w3 → stream ifd w3 = stream ifd w ∧ io_fuel n w3 ≤ fuel ∧
      written ofd w3 = written ofd w) as Hw3.
    { intros w3 (Hc & Hx3 & _). rewrite <- Hs, <- Hwr. unfold io_fuel, stream, written.
      rewrite Hc, Hx3. split_and!; auto with lia. }
    pose proof (retry_any (dcc_select_for_read ifd) (pump_loop fuel ofd ifd n) e
      (pump_post ofd ifd n w) w1 (λ _ _, eq_refl) He) as Hretry.
    destruct He as [-> | ->]; (apply Hretry;
      [intros w3 Hwt Ht3|intros w3 Hwt; apply pump_post_fail; by apply Hw3|split; auto]);
      destruct (Hw3 w3 Hwt) as (?&?&?); (eapply wp_mono; [by apply IH|]);
      intros o w'; rewrite <- (Nat.sub_0_r n) at 1; apply (pump_post_step ofd ifd n []);
      simpl; rewrite ?app_nil_r; auto with lia.
Qed.

(** [dcc_pump_readwrite] moves exactly [n] bytes from one descriptor
    to the other, in order, whatever the kernel does with its transfers; when
    it reports EXIT_IO_ERROR, what came out is a prefix of what was to be
    moved.  It always returns. *)
Lemma pump_readwrite_exact (ofd ifd n : nat) (w : world) :
  wp (dcc_pump_readwrite ofd ifd n)
     (λ o w', match o with
              | Ok _ => ∃ bs, length bs = n ∧ stream ifd w = bs ++ stream ifd w' ∧
                  written ofd w' = written ofd w ++ bs
              | Fail c => c = EXIT_IO_ERROR ∧ ∃ p, p `prefix_of` take n (stream ifd w) ∧
                  written ofd w' = written ofd w ++ p
              | Exit c => c = EXIT_BAD_ARGUMENTS ∧ ¬ timeout_ok w
              | Undef => False
              end) w.
Proof. by apply (pump_loop_any (io_fuel n w)). Qed.

Lemma pump_readwrite_safe ofd ifd n : safe (dcc_pump_readwrite ofd ifd n).
Proof.
  intros w Hu. pose proof (pump_loop_any (io_fuel n w) ofd ifd n w (le_n _)) as Hp.
  unfold wp in Hp. unfold dcc_pump_readwrite in Hu. by rewrite Hu in Hp.
Qed.

#[export] Hint Resolve readx_safe writex_safe pump_readwrite_safe : distcc.

Lemma select_keeps_mem fd t : keeps_mem (dcc_select_for_read fd t).
Proof. intros w. unfold dcc_select_for_read. by destruct (select_loop _). Qed.

Lemma timeout_keeps_mem : keeps_mem dcc_get_io_timeout.
Proof.
  intros w. unfold dcc_get_io_timeout. destruct (_ <? _)%Z; [done|].
  destruct (w_env w !! _); [|done]. by destruct (_ <=? _)%Z.
Qed.

Lemma readx_keeps_mem fd len : keeps_mem (dcc_readx fd len).
Proof.
  intros w. unfold dcc_readx. generalize (io_fuel len w) as fuel. intros fuel.
  revert w. change (keeps_mem (readx_loop fuel fd len)). revert len. induction fuel as [|fuel IH]; intros len; simpl.
  all: destruct (decide (len = 0)); [apply keeps_mem_throw|].
  { apply keeps_mem_throw. }
  apply keeps_mem_bind; [apply keeps_mem_read|].
  intros [[|b bs]|[]]; try apply keeps_mem_throw; try apply IH.
  - apply keeps_mem_bind; [apply IH|]. intros ?. apply keeps_mem_throw.
  - apply keeps_mem_bind; [apply timeout_keeps_mem|]. intros t.
    apply keeps_mem_bind; [apply select_keeps_mem|]. intros _. apply IH.
Qed.

Lemma readx_msafe fd len : msafe (dcc_readx fd len).
Proof. apply msafe_of; [apply readx_safe|apply readx_keeps_mem]. Qed.

#[export] Hint Resolve readx_msafe : distcc.

(** ** sendfile *)

Lemma sendfile_ok ofd ifd off bs rest od id w :
  io_ok w → c_fds (w_core w) !! ofd = Some od → c_fds (w_core w) !! ifd = Some id →
  drop off (fd_in id) = bs ++ rest →
  (∃ e w', sys_sendfile ofd ifd off (length bs) w = (Ok (inr e), w') ∧ (e = EAGAIN ∨ e = EINTR) ∧
     w_core w' = w_core w ∧ io_ok w' ∧ w_env w' = w_env w ∧
     length (w_xfer w) = S (length (w_xfer w'))) ∨
  (∃ k w', sys_sendfile ofd ifd off (length bs) w = (Ok (inl k), w') ∧
     (0 < length bs → 0 < k) ∧ k ≤ length bs ∧
     w_core w' = put ofd od (take k bs) (w_core w) ∧
     io_ok w' ∧ w_env w' = w_env w ∧ length (w_xfer w') ≤ length (w_xfer w)).
Proof.
  intros Hw Ho Hi Hin. unfold sys_sendfile, next_xfer. rewrite Ho, Hi, Hin.
  assert (∀ n, let k := Nat.min n (length bs) in
    take k (bs ++ rest) = take k bs ∧ length (take k (bs ++ rest)) = k) as Hk.
  { intros n k. rewrite take_app_le by (subst k; lia). rewrite length_take. subst k.
    split; [done|lia]. }
  destruct (w_xfer w) as [|x l] eqn:Ex.
  - right. destruct (Hk (length bs)) as [E1 E2]. rewrite E2, E1. do 2 eexists. split; [done|].
    split; [lia|]. split; [lia|]. simpl. rewrite Ex. auto using io_ok_set_core.
  - destruct (io_ok_xfer x l w Hw Ex) as [Hx Hw']. destruct x as [n|e]; simpl in Hx.
    + right. destruct (Hk n) as [E1 E2]. rewrite E2, E1. do 2 eexists. split; [done|].
      split; [lia|]. split; [lia|]. simpl. auto using io_ok_set_core with lia.
    + left. exists e. eexists. split; [done|]. auto.
Qed.

Lemma sendfile_loop_ok fuel ofd ifd off od id bs rest w :
  io_fuel (length bs) w ≤ fuel → io_ok w → ofd ≠ ifd →
  c_fds (w_core w) !! ofd = Some od → c_fds (w_core w) !! ifd = Some id →
  drop off (fd_in id) = bs ++ rest →
  ∃ w', sendfile_loop fuel ofd ifd off (length bs) w = (Ok (), w') ∧
    w_core w' = put ofd od bs (w_core w) ∧ io_ok w' ∧ w_env w' = w_env w.
Proof.
  revert off od bs w. induction fuel as [|fuel IH];
    intros off od bs w Hf Hw Hne Ho Hi Hin; simpl.
  all: destruct (decide (length bs = 0)) as [->%nil_length_inv|Hlen];
    [exists w; by rewrite put_nil|].
  { unfold io_fuel in Hf. lia. }
  destruct (sendfile_ok ofd ifd off bs rest od id w Hw Ho Hi Hin)
    as [(e & w1 & E & He & Hc & Hw1 & Henv & Hx)|(k & w1 & E & Hk0 & Hk & Hc & Hw1 & Henv & Hx)];
    rewrite (bind_Ok _ _ _ _ _ E).
  - destruct (retry_ok (dcc_select_for_write ofd) (sendfile_loop fuel ofd ifd off (length bs)) e w1)
      as (w3 & (Hc3 & Hx3 & _ & _ & He3) & Hw3 & Ek); [done..|].
    destruct (IH off od bs w3) as (w' & E' & Hc' & Hw' & Henv'); try done.
    { unfold io_fuel in *. rewrite Hx3. lia. }
    { by rewrite Hc3, Hc. }
    { by rewrite Hc3, Hc. }
    exists w'. rewrite Hc', Hc3, Hc. split_and!; try done; [|congruence].
    by destruct He as [-> | ->]; rewrite <- E', <- Ek.
  - destruct k as [|k]; [lia|]. set (k' := S k) in *.
    destruct (decide (k' ≠ length bs)) as [Hkl|Hkl].
    + destruct (IH (off + k') (Fd (fd_in od) (fd_out od ++ take k' bs) (fd_file od)) (drop k' bs) w1)
        as (w' & E' & Hc' & Hw' & Henv'); try done.
      { unfold io_fuel in *. rewrite length_drop. lia. }
      { rewrite Hc. apply put_lookup. }
      { rewrite Hc. simpl. by rewrite lookup_insert_ne. }
      { by rewrite <- drop_drop, Hin, drop_app_le by lia. }
      rewrite length_drop in E'. exists w'.
      rewrite Hc', Hc, (put_put ofd od _ (take k' bs)), take_drop by done.
      split_and!; try done. congruence.
    + exists w1. rewrite Hc, take_ge by lia. by split_and!.
Qed.

(** [dcc_pump_sendfile] delivers the file's first [size] bytes with
    any mixture of partial transmissions and interruptions, and also when the
    kernel refuses sendfile on the first real attempt: it then falls back on
    read and write. *)
Lemma pump_sendfile_delivers (ofd ifd : nat) (od id : fdesc) (bs rest : cstr)
    (refused : option errno) (w : world) :
  io_ok w → ofd ≠ ifd →
  c_fds (w_core w) !! ofd = Some od → c_fds (w_core w) !! ifd = Some id →
  fd_in id = bs ++ rest →
  match refused with Some e => e ≠ EAGAIN ∧ e ≠ EINTR | None => True end →
  ∃ w', dcc_pump_sendfile ofd ifd (length bs)
          (match refused with Some e => set_xfer (XErr e :: w_xfer w) w | None => w end) = (Ok (), w') ∧
    written ofd w' = written ofd w ++ bs.
Proof.
  intros Hw Hne Ho Hi Hin Hr. destruct refused as [e|].
  - unfold dcc_pump_sendfile, io_fuel. simpl. destruct (decide (length bs = 0)) as [->%nil_length_inv|Hlen].
    { eexists. split; [done|]. rewrite app_nil_r. done. }
    erewrite bind_Ok by (unfold sys_sendfile, next_xfer; simpl; by rewrite Ho, Hi).
    destruct (pump_readwrite_runs ofd ifd od id bs rest (w_core w) Hne Ho Hi Hin
      (set_xfer (w_xfer w) (set_xfer (XErr e :: w_xfer w) w))) as (w' & E & Hc & _ & _);
      [done|destruct Hw; by constructor|].
    exists w'. split; [by destruct e; try tauto|].
    unfold written. rewrite Hc, Ho. unfold moved. by rewrite put_lookup.
  - destruct (sendfile_loop_ok (io_fuel (length bs) w) ofd ifd 0 od id bs rest w)
      as (w' & E & Hc & _ & _); try done.
    exists w'. split; [done|]. unfold written. by rewrite Hc, Ho, put_lookup.
Qed.

(** ** Witnesses *)

(** A connection on descriptor 3 that gives its bytes piecemeal, and a file on
    descriptor 4. *)
Definition ex_core : core :=
  Core (<[3 := Fd "DONE00000001STAT00000000"%cs [] None]>
         (<[4 := Fd "hello world"%cs [] None]> ∅)) ∅ [] 0 DCC_PHASE_STARTUP.
Definition ex_world : world :=
  World ex_core [XN 3; XErr EINTR; XN 1; XErr EAGAIN; XN 2] [SelErr EINTR; SelReady] [] [] 0 ∅.

Lemma ex_world_ok : io_ok ex_world.
Proof.
  constructor; [..|by right]; unfold ex_world; cbn [w_xfer w_sel w_fs w_mem];
    repeat first [apply Forall_nil | apply Forall_cons; split]; unfold sel_ok; simpl; auto with lia.
Qed.

Lemma pump_sendfile_delivers_witness :
  ∃ w', dcc_pump_sendfile 3 4 5 (set_xfer (XErr EOTHER :: w_xfer ex_world) ex_world) = (Ok (), w') ∧
    written 3 w' = written 3 ex_world ++ "hello"%cs.
Proof.
  apply (pump_sendfile_delivers 3 4 (Fd "DONE00000001STAT00000000"%cs [] None)
           (Fd "hello world"%cs [] None) "hello"%cs " world"%cs (Some EOTHER) ex_world);
    [exact ex_world_ok|done|reflexivity..|done].
Defined.
