(* ===== verification/Rpc.v ===== *)
(** * rpc.c: the wire format

    Everything on the wire is a four-letter token followed by eight hexadecimal
    digits, and sometimes that many bytes.  [wire tx rx a] says that what [tx]
    sends, [rx] reads back as [a]; it composes, so the format of a message
    follows from the formats of its parts. *)

From S2P Require Import Prelude CLib Util Argv World Io.

(** ** Definitions *)

Definition hex_digits : cstr := "0123456789abcdef"%cs.

(** [hex[(param >> shift) & 0xf]] *)
Definition hex_at (param shift : Z) : ascii :=
  cget hex_digits (Z.to_nat (Z.land (Z.shiftr param shift) 15)).

(** [for (shift = 28; shift >= 0; shift -= 4)] *)
Definition hex8 (param : Z) : cstr :=
  hex_at param <$> [28; 24; 20; 16; 12; 8; 4; 0]%Z.

Definition dcc_x_token_int (ofd : nat) (token : cstr) (param : Z) : M world unit :=
  if decide (length token ≠ 4) then fail EXIT_PROTOCOL_ERROR
  else dcc_writex ofd (token ++ hex8 (u32 param)).

Definition dcc_x_result_header (ofd : nat) (protover : Z) : M world unit :=
  dcc_x_token_int ofd "DONE"%cs protover.

Definition dcc_x_cc_status (ofd : nat) (status : Z) : M world unit :=
  dcc_x_token_int ofd "STAT"%cs (u32 status).

Definition dcc_r_token (ifd : nat) : M world cstr := dcc_readx ifd 4.

(** Reads a bit more context into [extrabuf[200]] and logs it.  [size] is the
    size of the array [buf] points to: the copy takes [buflen] bytes of it. *)
Definition dcc_explain_mismatch (size buflen ifd : nat) : M world unit :=
  if decide (size < buflen) then ub
  else let! _ := sys_read ifd (200 - 1 - buflen) in ret ().

(** The parameter: all eight characters must belong to the number. *)
Definition parse_param (buf : cstr) : option Z :=
  let '(val, bum) := strtoul 16 (drop 4 buf) in
  if decide (bum = 8) then Some (u32 val) else None.

Definition dcc_r_token_int (ifd : nat) (expected : cstr) : M world Z :=
  if decide (length expected ≠ 4) then fail EXIT_PROTOCOL_ERROR
  else
    let! buf := dcc_readx ifd 12 in
    if negb (streq (take 4 buf) expected) then
      do! dcc_explain_mismatch 13 12 ifd; fail EXIT_PROTOCOL_ERROR
    else
      match parse_param buf with
      | Some val => ret val
      | None => do! dcc_explain_mismatch 13 12 ifd; fail EXIT_PROTOCOL_ERROR
      end.

(** A byte array read as a string ends at its first NUL. *)
Fixpoint c_string (bs : cstr) : cstr :=
  match bs with
  | [] => []
  | b :: bs => if ceqb b NUL then [] else b :: c_string bs
  end.

(** The token that came, and its parameter. *)
Definition dcc_r_sometoken_int (ifd : nat) : M world (cstr * Z) :=
  let! buf := dcc_readx ifd 12 in
  let token := c_string (take 4 buf) in
  match parse_param buf with
  | Some val => ret (token, val)
  | None => do! dcc_explain_mismatch 13 12 ifd; fail EXIT_PROTOCOL_ERROR
  end.

(** Without memory the read into a null buffer fails, unless nothing is read:
    then the terminator is stored through the null pointer. *)
Definition dcc_r_str_alloc (fd : nat) (l : Z) : M world cstr :=
  let! s := malloc in
  if s then
    let! r := attempt (dcc_readx fd (Z.to_nat l)) in
    match r with
    | inl bs => ret (c_string bs)
    | inr _ => fail EXIT_OUT_OF_MEMORY
    end
  else if decide (l = 0%Z) then ub else fail EXIT_OUT_OF_MEMORY.

Definition dcc_x_token_string (fd : nat) (token buf : cstr) : M world unit :=
  let len := length buf in
  do! dcc_x_token_int fd token (u32 (Z.of_nat len));
  dcc_writex fd buf.

Definition dcc_r_token_string (ifd : nat) (expect_token : cstr) : M world cstr :=
  let! a_len := dcc_r_token_int ifd expect_token in
  dcc_r_str_alloc ifd a_len.

Fixpoint r_argv_loop (n ifd : nat) (argv_token : cstr) : M world (list cstr) :=
  match n with
  | 0 => ret []
  | S n =>
      let! a := dcc_r_token_string ifd argv_token in
      let! r := r_argv_loop n ifd argv_token in
      ret (a :: r)
  end.

Definition dcc_r_argv (ifd : nat) (argc_token argv_token : cstr) : M world cvec :=
  let! r := attempt (dcc_r_token_int ifd argc_token) in
  match r with
  | inr _ => fail EXIT_PROTOCOL_ERROR
  | inl argc =>
      do! malloc_or EXIT_OUT_OF_MEMORY;
      let! a := r_argv_loop (Z.to_nat argc) ifd argv_token in
      ret (vec a)
  end.

(** *** clirpc.c: sending *)

Fixpoint x_argv_loop (fd : nat) (argv_token : cstr) (argv : cvec) (n : nat) : M world unit :=
  match n with
  | 0 => ret ()
  | S n =>
      match argv with
      | Str a :: argv =>
          do! dcc_x_token_string fd argv_token a; x_argv_loop fd argv_token argv n
      | _ => ub
      end
  end.

Definition dcc_x_argv (fd : nat) (argc_token argv_token : cstr) (argv : cvec) : M world unit :=
  let! argc := dcc_argv_len argv in
  let! r := attempt (dcc_x_token_int fd argc_token (u32 (Z.of_nat argc))) in
  match r with
  | inr _ => fail EXIT_PROTOCOL_ERROR
  | inl _ => x_argv_loop fd argv_token argv argc
  end.

Definition dcc_x_req_header (fd : nat) (protover : Z) : M world unit :=
  dcc_x_token_int fd "DIST"%cs protover.

(** [cwd]: what getcwd gives; nothing is sent without it. *)
Definition dcc_x_cwd (cwd : option cstr) (fd : nat) : M world unit :=
  match cwd with
  | None => ret ()
  | Some cwd => dcc_x_token_string fd "CDIR"%cs cwd
  end.

(** The [return ret;] after the message is not part of the [if]: the version
    the server answered with is never looked at. *)
Definition dcc_r_result_header (ifd : nat) (expect_ver : Z) : M world unit :=
  let! vers := dcc_r_token_int ifd "DONE"%cs in ret ().

Definition dcc_r_cc_status (ifd : nat) : M world Z :=
  let! u_status := dcc_r_token_int ifd "STAT"%cs in ret (s32 u_status).

(** *** srvrpc.c: receiving *)

Definition DCC_VER_3 : Z := 3.

Definition dcc_r_request_header (ifd : nat) : M world Z :=
  let! vers := dcc_r_token_int ifd "DIST"%cs in
  if (DCC_VER_3 <? vers)%Z then fail EXIT_PROTOCOL_ERROR else ret vers.

Definition dcc_r_cwd (ifd : nat) : M world cstr := dcc_r_token_string ifd "CDIR"%cs.

(** ** The format *)

(** The core after the bytes before [rest] were taken off [fd]. *)
Definition taken (fd : nat) (d : fdesc) (rest : cstr) (c : core) : core :=
  set_fds (<[fd := Fd rest (fd_out d) (fd_file d)]> (c_fds c)) c.

Definition sends (tx : nat → M world unit) (bytes : cstr) : Prop :=
  ∀ fd d c, c_fds c !! fd = Some d → runs (tx fd) (Ok ()) c (put fd d bytes c).

Definition reads {A} (rx : nat → M world A) (bytes : cstr) (a : A) : Prop :=
  ∀ fd d c rest, c_fds c !! fd = Some d → fd_in d = bytes ++ rest →
    runs (rx fd) (Ok a) c (taken fd d rest c).

Definition wire {A} (tx : nat → M world unit) (rx : nat → M world A) (a : A) : Prop :=
  ∃ bytes, sends tx bytes ∧ reads rx bytes a.

Lemma sends_nil : sends (λ _, ret ()) [].
Proof. intros fd d c Hd. rewrite put_nil by done. apply runs_ret. Qed.

Lemma sends_bind tx1 tx2 b1 b2 :
  sends tx1 b1 → sends tx2 b2 → sends (λ fd, do! tx1 fd; tx2 fd) (b1 ++ b2).
Proof.
  intros H1 H2 fd d c Hd. eapply runs_bind; [by apply H1|].
  rewrite <- (put_put fd d _ b1 b2) by done. apply H2, put_lookup.
Qed.

Lemma taken_lookup fd d rest c :
  c_fds (taken fd d rest c) !! fd = Some (Fd rest (fd_out d) (fd_file d)).
Proof. apply lookup_insert_eq. Qed.

Lemma taken_taken fd d r1 r2 c :
  taken fd (Fd r1 (fd_out d) (fd_file d)) r2 (taken fd d r1 c) = taken fd d r2 c.
Proof. unfold taken. simpl. by rewrite insert_insert_eq. Qed.

Lemma reads_nil {A} (a : A) : reads (λ _, ret a) [] a.
Proof.
  intros fd d c rest Hd Hin. simpl in Hin. subst.
  unfold taken. rewrite set_fds_id by (rewrite Hd; by destruct d). apply runs_ret.
Qed.

Lemma reads_bind {A B} (rx : nat → M world A) (k : A → nat → M world B) b1 b2 a b :
  reads rx b1 a → reads (k a) b2 b → reads (λ fd, let! x := rx fd in k x fd) (b1 ++ b2) b.
Proof.
  intros H1 H2 fd d c rest Hd Hin. rewrite <- app_assoc in Hin.
  eapply runs_bind; [by eapply H1|].
  rewrite <- (taken_taken fd d (b2 ++ rest) rest). apply H2; [apply taken_lookup|done].
Qed.

Lemma reads_ret {A B} (rx : nat → M world A) (f : A → B) b a :
  reads rx b a → reads (λ fd, let! x := rx fd in ret (f x)) b (f a).
Proof.
  intros H. rewrite <- (app_nil_r b). apply (reads_bind rx (λ x _, ret (f x)) b [] a); [done|].
  apply reads_nil.
Qed.

Lemma reads_attempt {A} (rx : nat → M world A) b a :
  reads rx b a → reads (λ fd, attempt (rx fd)) b (inl a).
Proof. intros H fd d c rest Hd Hin. apply runs_attempt_Ok. by eapply H. Qed.

Lemma readx_reads bs : reads (λ fd, dcc_readx fd (length bs)) bs bs.
Proof. intros fd d c rest Hd Hin. by apply readx_runs. Qed.

(** *** Numbers *)

(** A printed digit is a digit, and neither space, sign nor prefix. *)
Lemma hex_at_spec v sh p :
  (0 ≤ sh)%Z → (2 ^ sh = p)%Z →
  digit_val (hex_at v sh) = Some ((v / p) mod 16)%Z ∧ isspace (hex_at v sh) = false ∧
  ceqb (hex_at v sh) "-" = false ∧ ceqb (hex_at v sh) "+" = false ∧
  ceqb (hex_at v sh) "x" = false ∧ ceqb (hex_at v sh) "X" = false.
Proof.
  intros Hs <-. unfold hex_at.
  rewrite Z.shiftr_div_pow2, (Z.land_ones _ 4) by lia. change (2 ^ 4)%Z with 16%Z.
  pose proof (Z.mod_pos_bound (v / 2 ^ sh) 16) as Hr.
  set (r := ((v / 2 ^ sh) mod 16)%Z) in *. clearbody r.
  assert (r = 0 ∨ r = 1 ∨ r = 2 ∨ r = 3 ∨ r = 4 ∨ r = 5 ∨ r = 6 ∨ r = 7 ∨ r = 8 ∨ r = 9 ∨
    r = 10 ∨ r = 11 ∨ r = 12 ∨ r = 13 ∨ r = 14 ∨ r = 15)%Z as H by lia.
  destruct_or!; subst r; by split_and!.
Qed.

Lemma length_hex8 v : length (hex8 v) = 8.
Proof. done. Qed.

(** Eight digits make up 32 bits. *)
Lemma hex_value v :
  (0 ≤ v < 2 ^ 32)%Z →
  ((((((((0 * 16 + (v / 268435456) mod 16) * 16 + (v / 16777216) mod 16) * 16 + (v /
  1048576) mod 16) * 16 + (v / 65536) mod 16) * 16 + (v / 4096) mod 16) * 16 + (v / 256) mod
  16) * 16 + (v / 16) mod 16) * 16 + (v / 1) mod 16 = v)%Z.
Proof. intros Hv. Z.to_euclidean_division_equations. lia. Qed.

(** The printer and the parser of parameters agree on 32 bits. *)
Lemma strto_hex8 v : (0 ≤ v < 2 ^ 32)%Z → strto 16 (hex8 v) = (false, v, 8).
Proof.
  intros Hv. unfold strto, hex8. cbn [fmap list_fmap].
  destruct (hex_at_spec v 28 268435456) as (D7 & S7 & M7 & P7 & _); [done..|].
  destruct (hex_at_spec v 24 16777216) as (D6 & _ & _ & _ & X6 & Y6); [done..|].
  destruct (hex_at_spec v 20 1048576) as (D5 & _); [done..|].
  destruct (hex_at_spec v 16 65536) as (D4 & _); [done..|].
  destruct (hex_at_spec v 12 4096) as (D3 & _); [done..|].
  destruct (hex_at_spec v 8 256) as (D2 & _); [done..|].
  destruct (hex_at_spec v 4 16) as (D1 & _); [done..|].
  destruct (hex_at_spec v 0 1) as (D0 & _); [done..|].
  cbn [skip_spaces]. rewrite S7. cbn [drop scan_sign]. rewrite M7, P7. cbn [drop hex_prefix].
  rewrite X6, Y6. rewrite andb_false_r. cbn [andb drop scan_digits].
  rewrite D7, D6, D5, D4, D3, D2, D1, D0.
  assert (∀ z, (z mod 16 <? 16)%Z = true) as Hlt
    by (intros z; apply Z.ltb_lt, Z.mod_pos_bound; lia).
  by rewrite !Hlt, hex_value by done.
Qed.

Lemma strtoul_hex8 v : (0 ≤ v < 2 ^ 32)%Z → strtoul 16 (hex8 v) = (v, 8).
Proof.
  intros Hv. unfold strtoul. rewrite strto_hex8 by done.
  rewrite (proj2 (Z.ltb_ge _ _)); [done|]. unfold ULONG_MAX. lia.
Qed.

Lemma strtol_hex8 v : (0 ≤ v < 2 ^ 32)%Z → strtol 16 (hex8 v) = (v, 8).
Proof.
  intros Hv. unfold strtol. rewrite strto_hex8 by done. f_equal. unfold LONG_MIN, LONG_MAX. lia.
Qed.

(** *** Tokens *)

Lemma x_token_int_sends t v :
  length t = 4 → sends (λ fd, dcc_x_token_int fd t v) (t ++ hex8 (u32 v)).
Proof.
  intros Ht fd d c Hd. unfold dcc_x_token_int. rewrite decide_False by lia.
  by apply writex_runs.
Qed.

Lemma parse_param_hex8 t v :
  length t = 4 → (0 ≤ v < 2 ^ 32)%Z → parse_param (t ++ hex8 v) = Some v.
Proof.
  intros Ht Hv. unfold parse_param. rewrite drop_app_length' by done.
  rewrite strtoul_hex8 by done. rewrite decide_True by done. by rewrite u32_id.
Qed.

Lemma r_token_int_reads t v :
  length t = 4 → (0 ≤ v < 2 ^ 32)%Z → reads (λ fd, dcc_r_token_int fd t) (t ++ hex8 v) v.
Proof.
  intros Ht Hv fd d c rest Hd Hin. unfold dcc_r_token_int. rewrite decide_False by lia.
  eapply runs_bind.
  { replace 12 with (length (t ++ hex8 v)) by (rewrite length_app, length_hex8; lia).
    by apply readx_runs. }
  rewrite take_app_length' by done. rewrite streq_refl, parse_param_hex8 by done. apply runs_ret.
Qed.

Lemma c_string_nul_free s : nul_free s → c_string s = s.
Proof.
  unfold nul_free. induction s as [|b s IH]; simpl; [done|]. intros Hn.
  apply not_elem_of_cons in Hn as [Hb Hs].
  destruct (ceqb b NUL) eqn:E; btest; [done|]. by rewrite IH.
Qed.

Lemma r_sometoken_int_reads t v :
  length t = 4 → nul_free t → (0 ≤ v < 2 ^ 32)%Z →
  reads dcc_r_sometoken_int (t ++ hex8 v) (t, v).
Proof.
  intros Ht Hn Hv fd d c rest Hd Hin. unfold dcc_r_sometoken_int.
  eapply runs_bind.
  { replace 12 with (length (t ++ hex8 v)) by (rewrite length_app, length_hex8; lia).
    by apply readx_runs. }
  rewrite take_app_length' by done. rewrite parse_param_hex8, c_string_nul_free by done.
  apply runs_ret.
Qed.

Lemma r_str_alloc_reads s :
  nul_free s → reads (λ fd, dcc_r_str_alloc fd (Z.of_nat (length s))) s s.
Proof.
  intros Hn fd d c rest Hd Hin. unfold dcc_r_str_alloc.
  eapply runs_bind; [apply runs_malloc|]. rewrite Nat2Z.id.
  eapply runs_bind; [apply runs_attempt_Ok; by apply readx_runs|]. cbn beta iota.
  rewrite c_string_nul_free by done. apply runs_ret.
Qed.

(** A string that fits the format: no NUL, and a 32-bit length. *)
Definition wire_str (s : cstr) : Prop := nul_free s ∧ (Z.of_nat (length s) < 2 ^ 32)%Z.

#[export] Instance wire_str_dec s : Decision (wire_str s).
Proof. unfold wire_str. apply _. Defined.

(** The bytes of a string. *)
Definition string_bytes (t s : cstr) : cstr := t ++ hex8 (Z.of_nat (length s)) ++ s.

Lemma x_token_string_sends t s :
  length t = 4 → wire_str s → sends (λ fd, dcc_x_token_string fd t s) (string_bytes t s).
Proof.
  intros Ht [_ Hl]. unfold string_bytes. rewrite app_assoc.
  apply (sends_bind _ (λ fd, dcc_writex fd s)).
  - intros fd d c Hd. pose proof (x_token_int_sends t (u32 (Z.of_nat (length s))) Ht fd d c Hd) as H.
    rewrite !(u32_id (Z.of_nat (length s))) in H by lia. by rewrite u32_id by lia.
  - intros fd d c Hd. by apply writex_runs.
Qed.

Lemma r_token_string_reads t s :
  length t = 4 → wire_str s → reads (λ fd, dcc_r_token_string fd t) (string_bytes t s) s.
Proof.
  intros Ht [Hn Hl]. unfold string_bytes. rewrite app_assoc.
  apply (reads_bind (λ fd, dcc_r_token_int fd t) (λ l fd, dcc_r_str_alloc fd l) _ _
           (Z.of_nat (length s))).
  - apply r_token_int_reads; [done|lia].
  - by apply r_str_alloc_reads.
Qed.

(** *** Vectors *)

Lemma x_argv_loop_sends t args tl :
  length t = 4 → Forall wire_str args →
  sends (λ fd, x_argv_loop fd t (vec args ++ tl) (length args)) (args ≫= string_bytes t).
Proof.
  intros Ht. unfold vec. rewrite <- app_assoc.
  induction 1 as [|a args Ha _ IH]; [apply sends_nil|].
  cbn [fmap list_fmap app length x_argv_loop mbind list_bind].
  apply (sends_bind (λ fd, dcc_x_token_string fd t a)); [by apply x_token_string_sends|done].
Qed.

Lemma r_argv_loop_reads t args :
  length t = 4 → Forall wire_str args →
  reads (λ fd, r_argv_loop (length args) fd t) (args ≫= string_bytes t) args.
Proof.
  intros Ht. induction 1 as [|a args Ha _ IH]; [apply reads_nil|].
  cbn [length r_argv_loop mbind list_bind].
  apply (reads_bind (λ fd, dcc_r_token_string fd t)
    (λ a fd, let! r := r_argv_loop (length args) fd t in ret (a :: r)) _ _ a);
    [by apply r_token_string_reads|]. by apply reads_ret.
Qed.

Lemma sends_lift tx b (P : M world unit → M world unit) :
  sends tx b → (∀ m c c', runs m (Ok ()) c c' → runs (P m) (Ok ()) c c') →
  sends (λ fd, P (tx fd)) b.
Proof. intros Hs HP fd d c Hd. by apply HP, Hs. Qed.

Lemma argv_len_runs args tl c :
  runs (dcc_argv_len (vec args ++ tl)) (Ok (length args)) c c.
Proof. intros w <- Hw. exists w. by rewrite argv_len_vec. Qed.

Lemma x_argv_sends tc ta args tl :
  length tc = 4 → length ta = 4 → Forall wire_str args → (Z.of_nat (length args) < 2 ^ 32)%Z →
  sends (λ fd, dcc_x_argv fd tc ta (vec args ++ tl))
    ((tc ++ hex8 (Z.of_nat (length args))) ++ (args ≫= string_bytes ta)).
Proof.
  intros Hc Ha Hs Hl fd d c Hd. unfold dcc_x_argv.
  eapply runs_bind.
  { apply argv_len_runs. }
  eapply runs_bind.
  { apply runs_attempt_Ok. exact (x_token_int_sends tc _ Hc fd d c Hd). }
  rewrite !(u32_id (Z.of_nat (length args))) by lia. cbn beta iota.
  rewrite <- (put_put fd d _ _ (args ≫= string_bytes ta)) by done.
  apply x_argv_loop_sends; [done..|]. apply put_lookup.
Qed.

Lemma r_argv_reads tc ta args :
  length tc = 4 → length ta = 4 → Forall wire_str args → (Z.of_nat (length args) < 2 ^ 32)%Z →
  reads (λ fd, dcc_r_argv fd tc ta)
    ((tc ++ hex8 (Z.of_nat (length args))) ++ (args ≫= string_bytes ta)) (vec args).
Proof.
  intros Hc Ha Hs Hl. unfold dcc_r_argv.
  apply (reads_bind (λ fd, attempt (dcc_r_token_int fd tc))
    (λ r fd, match r with
             | inr _ => fail EXIT_PROTOCOL_ERROR
             | inl argc => do! malloc_or EXIT_OUT_OF_MEMORY;
                 let! a := r_argv_loop (Z.to_nat argc) fd ta in ret (vec a)
             end) _ _ (inl (Z.of_nat (length args)))).
  - apply reads_attempt, r_token_int_reads; [done|lia].
  - intros fd d c rest Hd Hin. cbn beta iota. rewrite Nat2Z.id.
    eapply runs_bind; [apply runs_malloc_or|].
    by apply (reads_ret _ vec _ _ (r_argv_loop_reads ta args Ha Hs)).
Qed.

(** ** Round trips *)

(** A token written by [dcc_x_token_int] is read back by
    [dcc_r_token_int] with the same 32-bit parameter, whatever partial
    transfers and interruptions either side sees. *)
Lemma token_int_roundtrip (t : cstr) (v : Z) :
  length t = 4 → (0 ≤ v < 2 ^ 32)%Z →
  wire (λ fd, dcc_x_token_int fd t v) (λ fd, dcc_r_token_int fd t) v.
Proof.
  intros Ht Hv. exists (t ++ hex8 v). split; [|by apply r_token_int_reads].
  pose proof (x_token_int_sends t v Ht) as H. by rewrite u32_id in H.
Qed.

(** A compiler's exit status survives the trip to the client, also
    when it is negative. *)
Lemma cc_status_roundtrip (status : Z) :
  (- 2 ^ 31 ≤ status < 2 ^ 31)%Z →
  wire (λ fd, dcc_x_cc_status fd status) dcc_r_cc_status status.
Proof.
  intros Hs. exists ("STAT"%cs ++ hex8 (u32 (u32 status))). split; [by apply x_token_int_sends|].
  pose proof (u32_range (u32 status)) as Hr.
  pose proof (reads_ret _ s32 _ _ (r_token_int_reads "STAT"%cs (u32 (u32 status)) eq_refl Hr)) as H.
  replace (s32 (u32 (u32 status))) with status in H; [exact H|].
  rewrite (u32_id (u32 status)) by apply u32_range. unfold s32, u32.
  Z.to_euclidean_division_equations. lia.
Qed.

(** C27.  An argument vector sent by the client's [dcc_x_argv] is what the
    server's [dcc_r_argv] builds, word for word, with its terminator. *)
Theorem argv_roundtrip (tc ta : cstr) (args : list cstr) (tl : cvec) :
  length tc = 4 → length ta = 4 → Forall wire_str args → (Z.of_nat (length args) < 2 ^ 32)%Z →
  wire (λ fd, dcc_x_argv fd tc ta (vec args ++ tl)) (λ fd, dcc_r_argv fd tc ta) (vec args).
Proof.
  intros. eexists. split; [by apply x_argv_sends|by apply r_argv_reads].
Qed.

(** The client accepts an answer in any protocol version: the check
    against the version it asked for is unreachable. *)
Lemma result_header_any_version (expect_ver v : Z) :
  (0 ≤ v < 2 ^ 32)%Z →
  wire (λ fd, dcc_x_result_header fd v) (λ fd, dcc_r_result_header fd expect_ver) ().
Proof.
  intros Hv. exists ("DONE"%cs ++ hex8 (u32 v)). split; [by apply x_token_int_sends|].
  apply (reads_ret _ (λ _, ()) _ (u32 v)), (r_token_int_reads "DONE"%cs); [done|apply u32_range].
Qed.

(** ** Any input *)

Lemma taken_stream fd d rest c w :
  w_core w = taken fd d rest c → stream fd w = rest.
Proof. intros Hc. unfold stream. by rewrite Hc, taken_lookup. Qed.

(** The server's version gate: a request header is accepted exactly
    when its version is at most 3 (0 included), and a higher one is a protocol
    error. *)
Lemma request_header_gate (fd : nat) (v : Z) (rest : cstr) (w : world) :
  io_ok w → is_Some (c_fds (w_core w) !! fd) → (0 ≤ v < 2 ^ 32)%Z →
  stream fd w = "DIST"%cs ++ hex8 v ++ rest →
  ∃ w', dcc_r_request_header fd w =
      (if (v <=? 3)%Z then Ok v else Fail EXIT_PROTOCOL_ERROR, w') ∧
    stream fd w' = rest.
Proof.
  intros Hw [d Hd] Hv Hs. unfold stream in Hs. rewrite Hd, app_assoc in Hs.
  destruct (r_token_int_reads "DIST"%cs v eq_refl Hv fd d (w_core w) rest Hd Hs w eq_refl Hw)
    as (w' & E & Hc & _ & _).
  exists w'. split; [|by eapply taken_stream].
  unfold dcc_r_request_header. rewrite (bind_Ok _ _ _ _ _ E). unfold DCC_VER_3.
  rewrite Z.ltb_antisym. by destruct (v <=? 3)%Z.
Qed.

(** What reading a token can do to a connection in any state. *)
Definition token_post (fd : nat) (t : cstr) (w : world) (o : outcome Z) (w' : world) : Prop :=
  match o with
  | Ok v => (0 ≤ v < 2 ^ 32)%Z ∧
      ∃ digits, length digits = 8 ∧ stream fd w = t ++ digits ++ stream fd w' ∧ v = u32 (strtoul 16 digits).1
  | Fail c => c = EXIT_IO_ERROR ∨ c = EXIT_TRUNCATED ∨ c = EXIT_PROTOCOL_ERROR
  | Exit c => c = EXIT_BAD_ARGUMENTS ∧ ¬ timeout_ok w
  | Undef => False
  end.

Lemma explain_mismatch_post {A} fd c (Q : outcome A → world → Prop) w :
  (∀ w', Q (Fail c) w') →
  wp (do! dcc_explain_mismatch 13 12 fd; fail c) Q w.
Proof.
  intros HQ. unfold wp, bind, dcc_explain_mismatch. simpl. unfold bind.
  destruct (read_any fd 187 w) as (r & w1 & -> & _); [lia|]. apply HQ.
Qed.

(** Whatever bytes come in and however the kernel delivers them,
    [dcc_r_token_int] returns: the 32-bit value of the hexadecimal digits when
    the stream starts with the expected token and eight more characters, which
    are consumed, and otherwise an I/O, truncation or protocol error. *)
Lemma r_token_int_total (fd : nat) (t : cstr) (w : world) :
  wp (dcc_r_token_int fd t)
     (λ o w', match o with
              | Ok v => (0 ≤ v < 2 ^ 32)%Z ∧
                  ∃ digits, length digits = 8 ∧ stream fd w = t ++ digits ++ stream fd w' ∧
                    v = u32 (strtoul 16 digits).1
              | Fail c => c = EXIT_IO_ERROR ∨ c = EXIT_TRUNCATED ∨ c = EXIT_PROTOCOL_ERROR
              | Exit c => c = EXIT_BAD_ARGUMENTS ∧ ¬ timeout_ok w
              | Undef => False
              end) w.
Proof.
  change (wp (dcc_r_token_int fd t) (token_post fd t w) w).
  unfold dcc_r_token_int. destruct (decide (length t ≠ 4)) as [Ht|Ht].
  { apply wp_throw. simpl. auto. }
  apply wp_bind. eapply wp_mono; [apply readx_any|].
  intros [buf|c|c|] w1 Hp; cbn [readx_post] in Hp; simpl; [|naive_solver|done|done].
  destruct Hp as [Hl Hs]. destruct (streq (take 4 buf) t) eqn:Et; simpl.
  2:{ apply explain_mismatch_post. simpl. auto. }
  apply streq_true in Et. unfold parse_param. destruct (strtoul 16 (drop 4 buf)) as [v bum] eqn:Ev.
  destruct (decide (bum = 8)).
  - apply wp_ret. split; [apply u32_range|]. exists (drop 4 buf). rewrite length_drop, Hl.
    rewrite Ev. split_and!; [done|by rewrite Hs, app_assoc, <- Et, take_drop|done].
  - apply explain_mismatch_post. simpl. auto.
Qed.

Lemma explain_mismatch_msafe fd : msafe (dcc_explain_mismatch 13 12 fd).
Proof.
  apply msafe_bind; [apply msafe_of; auto with distcc|]. auto with distcc.
Qed.

Lemma r_token_int_msafe fd t : msafe (dcc_r_token_int fd t).
Proof.
  unfold dcc_r_token_int. case_decide; [auto with distcc|].
  apply msafe_bind; [auto with distcc|]. intros buf.
  destruct (negb _); [|destruct (parse_param buf); [auto with distcc|]];
    apply msafe_bind; auto using explain_mismatch_msafe with distcc.
Qed.

Lemma r_str_alloc_msafe fd l : msafe (dcc_r_str_alloc fd l).
Proof.
  assert (msafe (let! r := attempt (dcc_readx fd (Z.to_nat l)) in
                 match r with inl bs => ret (c_string bs) | inr _ => fail EXIT_OUT_OF_MEMORY end))
    as Hr by (apply msafe_bind; [auto with distcc|]; intros []; auto with distcc).
  intros w Hw. unfold dcc_r_str_alloc. rewrite (bind_Ok malloc _ _ true w); [by apply Hr|].
  unfold malloc. by rewrite Hw.
Qed.

Lemma r_token_string_msafe fd t : msafe (dcc_r_token_string fd t).
Proof. apply msafe_bind; [apply r_token_int_msafe|]. intros. apply r_str_alloc_msafe. Qed.

(** A server that has memory survives any bytes a client sends in
    place of an argument vector: [dcc_r_argv] returns, with a vector or an
    error code. *)
Lemma r_argv_total (fd : nat) (tc ta : cstr) (w : world) :
  mem_ok w → (dcc_r_argv fd tc ta w).1 ≠ Undef.
Proof.
  intros Hw. assert (msafe (dcc_r_argv fd tc ta)) as Hs; [|by apply Hs].
  clear w Hw. apply msafe_bind; [apply msafe_attempt, r_token_int_msafe|].
  intros [argc|c]; [|auto with distcc]. apply msafe_bind; [auto with distcc|]. intros _.
  apply msafe_bind; [|auto with distcc].
  generalize (Z.to_nat argc) as n. induction n as [|n IH]; simpl; [auto with distcc|].
  apply msafe_bind; [apply r_token_string_msafe|]. intros a.
  apply msafe_bind; auto with distcc.
Qed.

(** [dcc_r_str_alloc] goes on after a failed allocation: for an
    announced length of 0 it stores the terminator through the null pointer. *)
Lemma r_str_alloc_null (fd : nat) (w : world) (l : list bool) :
  w_mem w = false :: l → (dcc_r_str_alloc fd 0 w).1 = Undef.
Proof. intros Hm. unfold dcc_r_str_alloc, bind, malloc. simpl. by rewrite Hm. Qed.

(** ** Witnesses *)

Lemma token_int_roundtrip_witness :
  wire (λ fd, dcc_x_token_int fd "ARGC"%cs 3735928559) (λ fd, dcc_r_token_int fd "ARGC"%cs) 3735928559%Z.
Proof. apply (token_int_roundtrip "ARGC"%cs 3735928559); [reflexivity|lia]. Defined.

Lemma cc_status_roundtrip_witness :
  wire (λ fd, dcc_x_cc_status fd (-1)) dcc_r_cc_status (-1)%Z.
Proof. apply (cc_status_roundtrip (-1)); lia. Defined.

Lemma argv_roundtrip_witness :
  wire (λ fd, dcc_x_argv fd "ARGC"%cs "ARGV"%cs (vec ["gcc"%cs; "-c"%cs; "a.c"%cs] ++ []))
    (λ fd, dcc_r_argv fd "ARGC"%cs "ARGV"%cs) (vec ["gcc"%cs; "-c"%cs; "a.c"%cs]).
Proof.
  apply (argv_roundtrip "ARGC"%cs "ARGV"%cs ["gcc"%cs; "-c"%cs; "a.c"%cs] []);
    [reflexivity..| |simpl; lia].
  apply (bool_decide_unpack _). vm_compute. done.
Defined.

Lemma result_header_any_version_witness :
  wire (λ fd, dcc_x_result_header fd 7) (λ fd, dcc_r_result_header fd 1) ().
Proof. apply (result_header_any_version 1 7); lia. Defined.

Lemma request_header_gate_witness :
  ∃ w', dcc_r_request_header 3
      (set_core (Core {[3 := Fd "DIST00000004ARGC"%cs [] None]} ∅ [] 0 DCC_PHASE_STARTUP) ex_world) =
      (Fail EXIT_PROTOCOL_ERROR, w') ∧ stream 3 w' = "ARGC"%cs.
Proof.
  apply (request_header_gate 3 4 "ARGC"%cs);
    [apply io_ok_set_core, ex_world_ok|by eexists|lia|reflexivity].
Defined.

Lemma r_argv_total_witness : (dcc_r_argv 3 "ARGC"%cs "ARGV"%cs ex_world).1 ≠ Undef.
Proof. apply (r_argv_total 3 "ARGC"%cs "ARGV"%cs ex_world). reflexivity. Defined.

Lemma r_str_alloc_null_witness :
  (dcc_r_str_alloc 3 0 (set_mem [false] ex_world)).1 = Undef.
Proof. apply (r_str_alloc_null 3 (set_mem [false] ex_world) []). reflexivity. Defined.
