(* ===== verification/Tempfile.v ===== *)
(** * cleanup.c, tempfile.c: temporary files and their removal *)

From S2P Require Import Prelude CLib Util Filename World Io Rpc.

(** ** cleanup.c *)

(** The array grows before it is needed, so that a signal handler always sees a
    valid one. *)
Definition dcc_add_cleanup (filename : cstr) : M world unit :=
  let! n_cleanups := gets (λ w, length (c_cleanups (w_core w))) in
  let! cleanups_size := gets (λ w, c_cleanups_size (w_core w)) in
  let new_n_cleanups := n_cleanups + 1 in
  do! (if decide (cleanups_size < new_n_cleanups) then
         let new_cleanups_size := if decide (cleanups_size = 0) then 10 else cleanups_size * 3 in
         do! malloc_or EXIT_OUT_OF_MEMORY;
         modify_core (set_cleanups_size new_cleanups_size)
       else ret ());
  do! malloc_or EXIT_OUT_OF_MEMORY;
  let! size := gets (λ w, c_cleanups_size (w_core w)) in
  if decide (n_cleanups < size) then
    modify_core (λ c, set_cleanups (c_cleanups c ++ [filename]) c)
  else ub.

(** [rmdir] first, then [unlink]; failures are only logged. *)
Definition remove_one (p : cstr) : M world unit :=
  let! r := sys_rmdir p in
  match r with
  | inl _ => ret ()
  | inr _ => let! _ := sys_unlink p in ret ()
  end.

(** From the last entry to the first: [rev_list] is the list reversed. *)
Fixpoint cleanup_loop (save : bool) (rev_list : list cstr) : M world unit :=
  match rev_list with
  | [] => ret ()
  | p :: rest =>
      do! (if save then ret () else remove_one p);
      do! modify_core (set_cleanups (reverse rest));
      cleanup_loop save rest
  end.

(** The signal handler does the same without freeing memory. *)
Definition dcc_cleanup_tempfiles : M world unit :=
  let! save := dcc_getenv_bool "DISTCC_SAVE_TEMPS"%cs 0 in
  let! l := gets (λ w, c_cleanups (w_core w)) in
  cleanup_loop (negb (save =? 0)%Z) (reverse l).

(** ** tempfile.c *)

Definition dcc_mk_tmpdir (path : cstr) : M world unit :=
  let! buf := sys_stat path in
  match buf with
  | inr _ =>
      let! r := sys_mkdir path in
      match r with
      | inr _ => fail EXIT_IO_ERROR
      | inl _ =>
          let! r := attempt (dcc_add_cleanup path) in
          match r with
          | inr e => let! _ := sys_rmdir path in fail e
          | inl _ => ret ()
          end
      end
  | inl NDir => ret ()
  | inl _ => fail EXIT_IO_ERROR
  end.

Definition dcc_mkdir (path : cstr) : M world unit :=
  let! r := sys_mkdir path in
  match r with
  | inr EEXIST | inl _ => ret ()
  | inr _ => fail EXIT_IO_ERROR
  end.

Definition dcc_get_tmp_top : M world cstr :=
  let! d := getenv "TMPDIR"%cs in
  match d with
  | None | Some [] => ret "/tmp"%cs
  | Some d => ret d
  end.

(** The "pessimistic" loop: every proper prefix that ends before a slash. *)
Fixpoint ancestors_loop (copy : cstr) (i n : nat) : M world unit :=
  match n with
  | 0 => ret ()
  | S n =>
      do! (if ceqb (cget copy i) "/" && negb (i =? 0) then dcc_mk_tmpdir (take i copy)
           else ret ());
      ancestors_loop copy (S i) n
  end.

Definition dcc_mk_tmp_ancestor_dirs (path : cstr) : M world unit :=
  do! malloc_or EXIT_OUT_OF_MEMORY;
  let copy := dcc_truncate_to_dirname path in
  match copy with
  | [] => ret ()
  | _ =>
      let! r := attempt (dcc_mk_tmpdir copy) in
      match r with
      | inl _ => ret ()
      | inr _ =>
          do! ancestors_loop copy 0 (length copy);
          dcc_mk_tmpdir copy
      end
  end.

Definition u64 (z : Z) : Z := (z mod 2 ^ 64)%Z.

(** ["%s/%s_%08lx%s"] *)
Definition tmp_name (tempdir prefix suffix : cstr) (random_bits : Z) : cstr :=
  tempdir ++ "/"%cs ++ prefix ++ "_"%cs ++ hex8 (Z.land random_bits 4294967295) ++ suffix.

(** The do loop; [fuel] bounds the number of tries. *)
Fixpoint tmpnam_loop (fuel : nat) (tempdir prefix suffix : cstr) (random_bits : Z) : M world cstr :=
  match fuel with
  | 0 => ub
  | S fuel =>
      do! malloc_or EXIT_OUT_OF_MEMORY;
      let s := tmp_name tempdir prefix suffix random_bits in
      let! fd := sys_open_excl s in
      match fd with
      | inr _ => tmpnam_loop fuel tempdir prefix suffix (u64 (random_bits + 7777))
      | inl fd =>
          let! r := sys_close fd in
          match r with
          | inr _ => fail EXIT_IO_ERROR
          | inl _ => ret s
          end
      end
  end.

(** [pid], [tv_sec], [tv_usec]: getpid and gettimeofday.  Fuel: one try per
    failure the kernel injects, one per existing file, and one more. *)
Definition dcc_make_tmpnam (pid tv_sec tv_usec : Z) (prefix suffix : cstr) : M world cstr := λ w,
  (let! tempdir := dcc_get_tmp_top in
   let! a := sys_access_dir tempdir in
   match a with
   | inr _ => fail EXIT_IO_ERROR
   | inl _ =>
       let random_bits :=
         u64 (Z.lxor (Z.lxor (Z.shiftl pid 16) (Z.shiftl tv_usec 16)) tv_sec) in
       let! s := tmpnam_loop (S (length (w_fs w) + size (c_files (w_core w))))
                   tempdir prefix suffix random_bits in
       let! r := attempt (dcc_add_cleanup s) in
       match r with
       | inr e => let! _ := sys_unlink s in fail e
       | inl _ => ret s
       end
   end) w.

(** ** The list of files to remove *)

(** The used part of the array fits it. *)
Definition cleanups_wf (c : core) : Prop := length (c_cleanups c) ≤ c_cleanups_size c.

Lemma add_cleanup_wf filename w :
  cleanups_wf (w_core w) →
  wp (dcc_add_cleanup filename)
     (λ o w', cleanups_wf (w_core w') ∧ c_files (w_core w') = c_files (w_core w) ∧
        match o with
        | Ok _ => c_cleanups (w_core w') = c_cleanups (w_core w) ++ [filename]
        | Fail c => c = EXIT_OUT_OF_MEMORY ∧ c_cleanups (w_core w') = c_cleanups (w_core w)
        | _ => False
        end) w.
Proof.
  intros Hwf. unfold dcc_add_cleanup, cleanups_wf in *.
  do 2 (apply wp_bind, wp_gets; cbn beta iota).
  set (n := length _) in *. set (sz := c_cleanups_size _) in *.
  assert (∀ w1 (sz' : nat), n < sz' → c_cleanups (w_core w1) = c_cleanups (w_core w) →
    c_files (w_core w1) = c_files (w_core w) → c_cleanups_size (w_core w1) = sz' →
    wp (do! malloc_or EXIT_OUT_OF_MEMORY;
        let! size := gets (λ w, c_cleanups_size (w_core w)) in
        if decide (n < size) then
          modify_core (λ c, set_cleanups (c_cleanups c ++ [filename]) c)
        else ub)
     (λ o w', length (c_cleanups (w_core w')) ≤ c_cleanups_size (w_core w') ∧
        c_files (w_core w') = c_files (w_core w) ∧
        match o with
        | Ok _ => c_cleanups (w_core w') = c_cleanups (w_core w) ++ [filename]
        | Fail c => c = EXIT_OUT_OF_MEMORY ∧ c_cleanups (w_core w') = c_cleanups (w_core w)
        | _ => False
        end) w1) as Hstore.
  { intros w1 sz' Hsz Hl Hf Hs. apply wp_bind, wp_malloc_or; intros l; cbn beta iota;
      [|cbn; rewrite Hl, Hs; by auto with lia].
    apply wp_bind, wp_gets. cbn. rewrite Hs, decide_True by done.
    apply wp_modify. cbn. rewrite Hl, Hs, length_app. simpl. split; [lia|done]. }
  apply wp_bind. destruct (decide (sz < n + 1)) as [Hg|Hg].
  - apply wp_bind, wp_malloc_or; intros l; simpl; [|by auto].
    apply wp_modify. eapply Hstore; [|done..]. simpl. destruct (decide (sz = 0)); lia.
  - apply wp_ret. eapply Hstore; [|done..]. lia.
Qed.

(** What removing a registered name does to the files. *)
Definition remove1 (m : gmap cstr node) (p : cstr) : gmap cstr node :=
  match m !! p with
  | Some NDir => if dir_empty p m then delete p m else m
  | _ => delete p m
  end.

Lemma set_files_id c : set_files (c_files c) c = c.
Proof. by destruct c. Qed.

Lemma runs_lookup_file p c : runs (lookup_file p) (Ok (c_files c !! p)) c c.
Proof. intros w <- Hw. by exists w. Qed.

Lemma runs_sys_rmdir p c :
  runs (sys_rmdir p)
    (Ok match c_files c !! p with
        | None => inr ENOENT
        | Some NDir => if dir_empty p (c_files c) then inl () else inr EEXIST
        | Some _ => inr EOTHER
        end) c
    match c_files c !! p with
    | Some NDir => if dir_empty p (c_files c) then set_files (delete p (c_files c)) c else c
    | _ => c
    end.
Proof.
  apply runs_fs_call. eapply runs_bind; [apply runs_lookup_file|].
  eapply runs_bind; [apply (runs_gets (λ c, dir_empty p (c_files c)))|]. cbn beta.
  destruct (c_files c !! p) as [[| |]|]; try apply runs_ret.
  destruct (dir_empty p (c_files c)); [|apply runs_ret].
  eapply runs_bind; [apply runs_modify_core|apply runs_ret].
Qed.

Lemma runs_sys_unlink p c :
  runs (sys_unlink p)
    (Ok match c_files c !! p with
        | None => inr ENOENT | Some NDir => inr EOTHER | Some _ => inl () end) c
    match c_files c !! p with
    | None | Some NDir => c
    | Some _ => set_files (delete p (c_files c)) c
    end.
Proof.
  apply runs_fs_call. eapply runs_bind; [apply runs_lookup_file|].
  destruct (c_files c !! p) as [[| |]|]; try apply runs_ret;
    (eapply runs_bind; [apply runs_modify_core|apply runs_ret]).
Qed.

Lemma remove_one_runs p c :
  runs (remove_one p) (Ok ()) c (set_files (remove1 (c_files c) p) c).
Proof.
  eapply runs_bind; [apply runs_sys_rmdir|]. unfold remove1.
  destruct (c_files c !! p) as [[| |]|] eqn:E.
  - eapply runs_bind; [apply runs_sys_unlink|]. rewrite E. apply runs_ret.
  - destruct (dir_empty p (c_files c)); [apply runs_ret|].
    eapply runs_bind; [apply runs_sys_unlink|]. rewrite E, set_files_id. apply runs_ret.
  - eapply runs_bind; [apply runs_sys_unlink|]. rewrite E. apply runs_ret.
  - eapply runs_bind; [apply runs_sys_unlink|]. rewrite E, delete_id, set_files_id by done.
    apply runs_ret.
Qed.

Lemma cleanup_loop_runs l c :
  reverse l = c_cleanups c →
  runs (cleanup_loop false l) (Ok ()) c
    (set_cleanups [] (set_files (foldl remove1 (c_files c) l) c)).
Proof.
  revert c. induction l as [|p l IH]; intros c Hl; simpl.
  - rewrite set_files_id. replace (set_cleanups [] c) with c; [apply runs_ret|].
    destruct c. simpl in *. by subst.
  - eapply runs_bind; [apply remove_one_runs|].
    eapply runs_bind; [apply runs_modify_core|].
    apply (IH (set_cleanups (reverse l) (set_files (remove1 (c_files c) p) c))). done.
Qed.

(** Whatever exists below a registered directory was registered after it. *)
Definition registered_in_order (l : list cstr) (m : gmap cstr node) : Prop :=
  ∀ l1 d l2, l = l1 ++ d :: l2 → m !! d = Some NDir →
    ∀ q, (d ++ "/"%cs) `prefix_of` q → is_Some (m !! q) → q ∈ l2.

Lemma dir_empty_spec p m :
  dir_empty p m = true ↔ ∀ q, (p ++ "/"%cs) `prefix_of` q → m !! q = None.
Proof.
  unfold dir_empty. rewrite forallb_forall. split.
  - intros H q Hq. apply eq_None_not_Some. intros [n Hn].
    assert (In q (map_to_list m).*1) as Hin.
    { apply list_elem_of_In, list_elem_of_fmap. exists (q, n). split; [done|].
      by apply elem_of_map_to_list. }
    apply H in Hin. apply negb_true_iff, str_startswith_false in Hin. done.
  - intros H q Hin. apply list_elem_of_In, list_elem_of_fmap in Hin as ((q' & n) & -> & Hn).
    apply elem_of_map_to_list in Hn. apply negb_true_iff, str_startswith_false.
    intros Hp. apply H in Hp. simpl in *. congruence.
Qed.

Lemma foldl_remove1 l m :
  registered_in_order (reverse l) m → foldl remove1 m l = foldl (λ m p, delete p m) m l.
Proof.
  revert m. induction l as [|p l IH]; intros m Hord; simpl; [done|].
  rewrite reverse_cons in Hord.
  assert (remove1 m p = delete p m) as ->.
  { unfold remove1. destruct (m !! p) as [[| |]|] eqn:E; try done.
    rewrite (proj2 (dir_empty_spec p m)); [done|]. intros q Hq.
    apply eq_None_not_Some. intros Hs.
    pose proof (Hord (reverse l) p [] eq_refl E q Hq Hs). set_solver. }
  apply IH. intros l1 d l2 Hl Hd q Hq [n Hn].
  apply lookup_delete_Some in Hd as [Hdp Hd], Hn as [Hqp Hn].
  assert (q ∈ l2 ++ [p]) as Hin.
  { apply (Hord l1 d (l2 ++ [p])); [by rewrite Hl, <- app_assoc|done..|by eexists]. }
  set_solver.
Qed.

Lemma foldl_delete (l : list cstr) (m : gmap cstr node) (p : cstr) :
  foldl (λ m p, delete p m) m l !! p = if decide (p ∈ l) then None else m !! p.
Proof.
  revert m. induction l as [|a l IH]; intros m; simpl; [done|]. rewrite IH.
  destruct (decide (p = a)) as [->|Hne].
  - rewrite (decide_True (P := a ∈ a :: l)) by set_solver. rewrite lookup_delete_eq. by case_decide.
  - rewrite lookup_delete_ne by done. repeat case_decide; set_solver.
Qed.

(** [dcc_cleanup_tempfiles] removes every registered file and
    directory, and nothing else, when whatever lies in a registered directory
    was registered after it: the reverse order empties directories before they
    are removed.  The list is empty afterwards. *)
Lemma cleanup_tempfiles_removes (w : world) :
  io_ok w → w_env w !! "DISTCC_SAVE_TEMPS"%cs ≠ Some "1"%cs →
  registered_in_order (c_cleanups (w_core w)) (c_files (w_core w)) →
  ∃ w', dcc_cleanup_tempfiles w = (Ok (), w') ∧ c_cleanups (w_core w') = [] ∧
    c_fds (w_core w') = c_fds (w_core w) ∧ io_ok w' ∧
    ∀ p, c_files (w_core w') !! p =
      if decide (p ∈ c_cleanups (w_core w)) then None else c_files (w_core w) !! p.
Proof.
  intros Hw Henv Hord. unfold dcc_cleanup_tempfiles.
  erewrite bind_Ok by apply getenv_bool_runs. erewrite bind_Ok by done.
  assert (match w_env w !! "DISTCC_SAVE_TEMPS"%cs with
    | Some ["1"%char] => 1%Z | Some ["0"%char] => 0%Z | _ => 0%Z end = 0%Z) as ->.
  { destruct (w_env w !! _) as [[|a [|]]|]; try done;
      destruct a as [[] [] [] [] [] [] [] []]; done. }
  destruct (cleanup_loop_runs (reverse (c_cleanups (w_core w))) (w_core w) (reverse_involutive _) w)
    as (w' & E & Hc & Hw' & _); [done..|].
  exists w'. rewrite Hc. do 4 (split; [done|]). intros p. simpl.
  rewrite foldl_remove1 by by rewrite reverse_involutive.
  rewrite foldl_delete. apply decide_ext, elem_of_reverse.
Qed.

(** ** Temporary names *)

Lemma hex8_inj a b : (0 ≤ a < 2 ^ 32)%Z → (0 ≤ b < 2 ^ 32)%Z → hex8 a = hex8 b → a = b.
Proof.
  intros Ha Hb E. apply (f_equal (strtoul 16)) in E. rewrite !strtoul_hex8 in E by done.
  by simplify_eq.
Qed.

(** The [k]-th value the loop tries. *)
Definition nth_bits (random_bits : Z) (k : nat) : Z := u64 (random_bits + 7777 * Z.of_nat k).

Lemma nth_bits_S rb k : u64 (nth_bits rb k + 7777) = nth_bits rb (S k).
Proof. unfold nth_bits, u64. rewrite Zplus_mod_idemp_l. f_equal. lia. Qed.

Lemma tmp_name_inj d p s rb i j :
  (Z.of_nat i < 2 ^ 32)%Z → (Z.of_nat j < 2 ^ 32)%Z →
  tmp_name d p s (nth_bits rb i) = tmp_name d p s (nth_bits rb j) → i = j.
Proof.
  intros Hi Hj E. unfold tmp_name in E. do 4 apply app_inv_head in E. apply app_inv_tail in E.
  change 4294967295%Z with (Z.ones 32) in E. rewrite !Z.land_ones in E by lia.
  apply hex8_inj in E; [|apply Z.mod_pos_bound; lia..].
  unfold nth_bits, u64 in E.
  assert ((7777 * (Z.of_nat i - Z.of_nat j)) mod 2 ^ 32 = 0)%Z as H.
  { revert E. generalize (Z.of_nat i) (Z.of_nat j). intros x y E.
    Z.to_euclidean_division_equations. lia. }
  apply Z.mod_divide in H; [|lia].
  apply Z.gauss in H as [q Hq]; [|done]. nia.
Qed.

(** Some of the first [size + 1] names does not exist yet. *)
Lemma tried_names_bound (d p s : cstr) (rb : Z) (m : gmap cstr node) k :
  (Z.of_nat k ≤ 2 ^ 32)%Z →
  (∀ i, i < k → is_Some (m !! tmp_name d p s (nth_bits rb i))) → k ≤ size m.
Proof.
  intros Hk Hex. set (names := (λ i, tmp_name d p s (nth_bits rb i)) <$> seq 0 k).
  assert (NoDup names) as Hnd.
  { apply NoDup_fmap_2_strong; [|apply NoDup_seq].
    intros i j Hi%elem_of_seq Hj%elem_of_seq E. eapply tmp_name_inj; [..|exact E]; lia. }
  assert (list_to_set (C := gset cstr) names ⊆ dom m) as Hsub%subseteq_size.
  { intros q Hq%elem_of_list_to_set. apply list_elem_of_fmap in Hq as (i & -> & Hi%elem_of_seq).
    apply elem_of_dom, Hex. lia. }
  rewrite size_list_to_set in Hsub by done. unfold names in Hsub.
  by rewrite length_fmap, length_seq, size_dom in Hsub.
Qed.

Lemma open_excl_runs s c :
  runs (sys_open_excl s)
    (Ok match c_files c !! s with None => inl (new_fd (c_fds c)) | Some _ => inr EEXIST end) c
    match c_files c !! s with
    | None => set_fds (<[new_fd (c_fds c) := Fd [] [] (Some s)]> (c_fds c))
                (set_files (<[s := NFile []]> (c_files c)) c)
    | Some _ => c
    end.
Proof.
  apply runs_fs_call. eapply runs_bind; [apply runs_lookup_file|].
  destruct (c_files c !! s); [apply runs_ret|].
  eapply runs_bind; [apply runs_modify_core|].
  eapply runs_bind; [apply runs_add_fd|]. apply runs_ret.
Qed.

Lemma close_runs fd d c :
  c_fds c !! fd = Some d →
  runs (sys_close fd) (Ok (inl ())) c (set_fds (delete fd (c_fds c)) c).
Proof.
  intros Hd. apply runs_fs_call. eapply runs_bind; [apply (runs_gets (λ c, c_fds c !! fd))|].
  cbn beta. rewrite Hd. eapply runs_bind; [apply runs_modify_core|apply runs_ret].
Qed.

Lemma set_fds_delete_insert fd d c c' :
  c_fds c !! fd = None → c_fds c' = <[fd := d]> (c_fds c) →
  set_fds (delete fd (c_fds c')) c' = set_fds (c_fds c) c'.
Proof. intros Hn ->. by rewrite delete_insert_id. Qed.

Lemma tmpnam_loop_runs (d p s : cstr) (rb : Z) fuel k c :
  (Z.of_nat (k + fuel) ≤ 2 ^ 32)%Z → size (c_files c) < k + fuel →
  (∀ i, i < k → is_Some (c_files c !! tmp_name d p s (nth_bits rb i))) →
  ∃ name, c_files c !! name = None ∧ (∃ bits, name = tmp_name d p s bits) ∧
    runs (tmpnam_loop fuel d p s (nth_bits rb k)) (Ok name) c
      (set_files (<[name := NFile []]> (c_files c)) c).
Proof.
  revert k. induction fuel as [|fuel IH]; intros k Hk Hs Hex.
  { apply tried_names_bound in Hex; lia. }
  set (name := tmp_name d p s (nth_bits rb k)).
  destruct (c_files c !! name) as [n|] eqn:E.
  - destruct (IH (S k)) as (name' & Hn & Hnm & Hr); [lia..| |].
    { intros i Hi. destruct (decide (i = k)) as [->|]; [by exists n|]. apply Hex. lia. }
    exists name'. split; [done|]. split; [done|]. cbn [tmpnam_loop]. fold name.
    eapply runs_bind; [apply runs_malloc_or|].
    eapply runs_bind; [apply open_excl_runs|]. rewrite E. cbn beta iota. by rewrite nth_bits_S.
  - exists name. split; [done|]. split; [by eexists|]. cbn [tmpnam_loop]. fold name.
    eapply runs_bind; [apply runs_malloc_or|].
    eapply runs_bind; [apply open_excl_runs|]. rewrite E. cbn beta iota.
    eapply runs_bind; [eapply close_runs; apply lookup_insert_eq|]. cbn beta iota.
    simpl. rewrite delete_insert_id by apply new_fd_fresh.
    replace (set_fds (c_fds c) (set_files (<[name:=NFile []]> (c_files c)) c))
      with (set_files (<[name:=NFile []]> (c_files c)) c) by by destruct c.
    apply runs_ret.
Qed.

(** More fuel changes nothing once the loop has returned. *)
Lemma tmpnam_loop_mono (d p s : cstr) (rb : Z) fuel extra w name w' :
  tmpnam_loop fuel d p s rb w = (Ok name, w') → tmpnam_loop (fuel + extra) d p s rb w = (Ok name, w').
Proof.
  revert rb w. induction fuel as [|fuel IH]; intros rb w; [done|]. simpl.
  unfold bind. destruct (malloc_or _ w) as [[[]| | |] w1]; try done.
  destruct (sys_open_excl _ w1) as [[[fd|e]| | |] w2]; try done. apply IH.
Qed.

Definition grown_size (c : core) : nat :=
  if decide (c_cleanups_size c < length (c_cleanups c) + 1)
  then if decide (c_cleanups_size c = 0) then 10 else c_cleanups_size c * 3
  else c_cleanups_size c.

(** The core after [f] was registered. *)
Definition registered (f : cstr) (c : core) : core :=
  set_cleanups (c_cleanups c ++ [f]) (set_cleanups_size (grown_size c) c).

Lemma add_cleanup_runs f c :
  cleanups_wf c → runs (dcc_add_cleanup f) (Ok ()) c (registered f c).
Proof.
  intros Hwf. unfold cleanups_wf in Hwf. unfold dcc_add_cleanup.
  eapply runs_bind; [apply (runs_gets (λ c, length (c_cleanups c)))|].
  eapply runs_bind; [apply (runs_gets c_cleanups_size)|]. cbn beta.
  eapply (runs_bind _ _ () _ _ (set_cleanups_size (grown_size c) c)).
  { unfold grown_size. destruct (decide (_ < _)).
    - eapply runs_bind; [apply runs_malloc_or|]. apply runs_modify_core.
    - replace (set_cleanups_size _ c) with c by by destruct c. apply runs_ret. }
  eapply runs_bind; [apply runs_malloc_or|].
  eapply runs_bind; [apply (runs_gets c_cleanups_size)|]. cbn beta.
  rewrite decide_True; [exact (runs_modify_core _ _)|].
  simpl. unfold grown_size. repeat case_decide; lia.
Qed.

(** The directory temporary files go to. *)
Definition tmp_top (env : gmap cstr cstr) : cstr :=
  match env !! "TMPDIR"%cs with
  | None | Some [] => "/tmp"%cs
  | Some d => d
  end.

Lemma get_tmp_top_run w : dcc_get_tmp_top w = (Ok (tmp_top (w_env w)), w).
Proof.
  unfold dcc_get_tmp_top, tmp_top, bind, getenv, gets. by destruct (w_env w !! _) as [[|? ?]|].
Qed.

Lemma make_tmpnam_ok pid tv_sec tv_usec (prefix suffix : cstr) (w : world) :
  io_ok w → cleanups_wf (w_core w) →
  c_files (w_core w) !! tmp_top (w_env w) = Some NDir →
  (Z.of_nat (size (c_files (w_core w))) < 2 ^ 32)%Z →
  ∃ name w', dcc_make_tmpnam pid tv_sec tv_usec prefix suffix w = (Ok name, w') ∧
    c_files (w_core w) !! name = None ∧
    (∃ bits, name = tmp_name (tmp_top (w_env w)) prefix suffix bits) ∧ io_ok w' ∧ w_env w' = w_env w ∧
    w_core w' = registered name (set_files (<[name := NFile []]> (c_files (w_core w))) (w_core w)).
Proof.
  intros Hw Hwf Htop Hsz. unfold dcc_make_tmpnam.
  erewrite bind_Ok by apply get_tmp_top_run.
  set (rb := u64 _).
  destruct (tmpnam_loop_runs (tmp_top (w_env w)) prefix suffix rb (S (size (c_files (w_core w)))) 0 (w_core w))
    as (name & Hn & Hnm & Hr0); [lia..|].
  replace (nth_bits rb 0) with rb in Hr0 by (unfold nth_bits, rb, u64; rewrite Z.add_0_r;
    by rewrite Zmod_mod).
  set (fuel := S (length (w_fs w) + size (c_files (w_core w)))).
  assert (runs (tmpnam_loop fuel (tmp_top (w_env w)) prefix suffix rb) (Ok name) (w_core w)
    (set_files (<[name := NFile []]> (c_files (w_core w))) (w_core w))) as Hr.
  { intros v Hv Hiov. destruct (Hr0 v Hv Hiov) as (v' & E & Hv'). exists v'. split; [|done].
    replace fuel with (S (size (c_files (w_core w))) + length (w_fs w)) by (unfold fuel; lia).
    by apply tmpnam_loop_mono. }
  exists name.
  assert (runs (let! a := sys_access_dir (tmp_top (w_env w)) in
    match a with
    | inr _ => fail EXIT_IO_ERROR
    | inl _ =>
        let! s := tmpnam_loop fuel (tmp_top (w_env w)) prefix suffix rb in
        let! r := attempt (dcc_add_cleanup s) in
        match r with
        | inr e => let! _ := sys_unlink s in fail e
        | inl _ => ret s
        end
    end) (Ok name) (w_core w)
      (registered name (set_files (<[name:=NFile []]> (c_files (w_core w))) (w_core w)))) as Hruns.
  { eapply runs_bind.
    { apply runs_fs_call. eapply runs_bind; [apply runs_lookup_file|]. rewrite Htop. apply runs_ret. }
    cbn beta iota. eapply runs_bind; [exact Hr|]. cbn beta.
    eapply runs_bind; [apply runs_attempt_Ok, add_cleanup_runs; exact Hwf|]. apply runs_ret. }
  destruct (Hruns w eq_refl Hw) as (w' & E & Hc & Hw' & Henv).
  exists w'. by split_and!.
Qed.

(** [dcc_make_tmpnam] terminates and returns the name of a new empty
    file, one that did not exist before, registered for removal; it touches no
    other file and leaves no descriptor open. *)
Lemma make_tmpnam_fresh (pid tv_sec tv_usec : Z) (prefix suffix : cstr) (w : world) :
  io_ok w → cleanups_wf (w_core w) →
  c_files (w_core w) !! tmp_top (w_env w) = Some NDir →
  (Z.of_nat (size (c_files (w_core w))) < 2 ^ 32)%Z →
  ∃ name w', dcc_make_tmpnam pid tv_sec tv_usec prefix suffix w = (Ok name, w') ∧
    c_files (w_core w) !! name = None ∧
    c_files (w_core w') = <[name := NFile []]> (c_files (w_core w)) ∧
    c_cleanups (w_core w') = c_cleanups (w_core w) ++ [name] ∧
    c_fds (w_core w') = c_fds (w_core w).
Proof.
  intros Hw Hwf Htop Hsz.
  destruct (make_tmpnam_ok pid tv_sec tv_usec prefix suffix w) as (name & w' & E & Hn & _ & _ & _ & Hc); [done..|].
  exists name, w'. by rewrite Hc.
Qed.

(** ** Making directories *)

Lemma runs_sys_stat p c :
  runs (sys_stat p) (Ok match c_files c !! p with Some n => inl n | None => inr ENOENT end) c c.
Proof.
  apply runs_fs_call. eapply runs_bind; [apply runs_lookup_file|]. apply runs_ret.
Qed.

(** [q] is a directory on the way to [p]. *)
Definition ancestor (p q : cstr) : Prop := q ≠ [] ∧ ∃ r, p = q ++ "/"%char :: r.

(** Some missing ancestors of [p] were made, and registered for removal. *)
Definition made_dirs (p : cstr) (c c' : core) : Prop :=
  c_fds c' = c_fds c ∧ c_phase c' = c_phase c ∧ cleanups_wf c' ∧
  ∀ q, c_files c' !! q = c_files c !! q ∨ (ancestor p q ∧ c_files c !! q = None ∧ c_files c' !! q = Some NDir).

Lemma made_dirs_refl p c : cleanups_wf c → made_dirs p c c.
Proof. intros Hc. split_and!; auto. Qed.

Lemma made_dirs_trans p c1 c2 c3 : made_dirs p c1 c2 → made_dirs p c2 c3 → made_dirs p c1 c3.
Proof.
  intros (F1 & P1 & W1 & H1) (F2 & P2 & W2 & H2). split_and!; [congruence..|done|].
  intros q. destruct (H1 q) as [E1|(A1 & E1 & E1')], (H2 q) as [E2|(A2 & E2 & E2')].
  - left. congruence.
  - right. rewrite <- E1. auto.
  - right. rewrite E2. auto.
  - congruence.
Qed.

Lemma made_dirs_keeps p c c' q n : made_dirs p c c' → c_files c !! q = Some n → c_files c' !! q = Some n.
Proof. intros (_ & _ & _ & H) Hq. destruct (H q) as [->|(_ & ? & _)]; congruence. Qed.

Lemma mk_tmpdir_makes p q c :
  ancestor p q → cleanups_wf c → parent_exists q (c_files c) = true →
  (c_files c !! q = None ∨ c_files c !! q = Some NDir) →
  ∃ c', runs (dcc_mk_tmpdir q) (Ok ()) c c' ∧ made_dirs p c c' ∧ c_files c' !! q = Some NDir.
Proof.
  intros Ha Hwf Hp [Hq|Hq].
  - exists (registered q (set_files (<[q := NDir]> (c_files c)) c)). split_and!.
    + unfold dcc_mk_tmpdir. eapply runs_bind; [apply runs_sys_stat|]. rewrite Hq.
      eapply runs_bind.
      { apply runs_fs_call. eapply runs_bind; [apply runs_lookup_file|].
        eapply runs_bind; [apply (runs_gets (λ c, parent_exists q (c_files c)))|]. rewrite Hq, Hp.
        eapply runs_bind; [apply runs_modify_core|]. apply runs_ret. }
      eapply runs_bind; [by apply runs_attempt_Ok, add_cleanup_runs|]. apply runs_ret.
    + split_and!; [done..| |].
      * unfold cleanups_wf, registered, grown_size in *. simpl. rewrite length_app. simpl. repeat case_decide; lia.
      * intros r. simpl. destruct (decide (r = q)) as [->|]; [right|left; by rewrite lookup_insert_ne].
        by rewrite lookup_insert_eq.
    + simpl. by rewrite lookup_insert_eq.
  - exists c. split_and!; [|by apply made_dirs_refl|done].
    unfold dcc_mk_tmpdir. eapply runs_bind; [apply runs_sys_stat|]. rewrite Hq. apply runs_ret.
Qed.

(** Without its parent a directory is not made. *)
Lemma mk_tmpdir_orphan q c :
  parent_exists q (c_files c) = false → c_files c !! q = None → runs (dcc_mk_tmpdir q) (Fail EXIT_IO_ERROR) c c.
Proof.
  intros Hp Hq. unfold dcc_mk_tmpdir. eapply runs_bind; [apply runs_sys_stat|]. rewrite Hq.
  eapply runs_bind.
  { apply runs_fs_call. eapply runs_bind; [apply runs_lookup_file|].
    eapply runs_bind; [apply (runs_gets (λ c, parent_exists q (c_files c)))|]. rewrite Hq, Hp. apply runs_ret. }
  apply runs_throw.
Qed.

Section ancestors.
Context (copy base : cstr).
Let path := copy ++ "/"%char :: base.

(** The position of a directory on the way. *)
Definition dir_at (j : nat) : Prop := 0 < j ∧ (copy !! j = Some "/"%char ∨ j = length copy).

Lemma dir_at_ancestor j : dir_at j → ancestor path (take j copy).
Proof.
  intros [Hj H]. split.
  - destruct copy; [|by destruct j; [lia|]]. destruct H as [H|H]; [done|simpl in H; lia].
  - destruct H as [H| ->].
    + exists (drop (S j) copy ++ "/"%char :: base).
      unfold path. rewrite <- (take_drop_middle copy j "/"%char H) at 1. by rewrite <- app_assoc.
    + exists base. by rewrite take_ge.
Qed.

(** The parent of a directory on the way is on the way. *)
Lemma dir_at_parent j m :
  dir_at j → (∀ i, i < j → dir_at i → m !! take i copy = Some NDir) → parent_exists (take j copy) m = true.
Proof.
  intros [Hj H] Hm. unfold parent_exists, parent.
  destruct (strrchr (take j copy) "/") as [i|] eqn:E; [|done].
  apply strrchr_Some in E as (a & b & E & Hb & ->).
  assert (length a < j) as Hl.
  { apply (f_equal length) in E. rewrite length_take, length_app in E. simpl in E. lia. }
  assert (take (length a) (take j copy) = a) as Ea by (rewrite E; apply take_app_length).
  rewrite Ea. destruct a as [|x a]; [done|]. rewrite <- Ea, take_take, Nat.min_l by lia.
  rewrite Hm; [done|done|]. split; [simpl; lia|]. left.
  assert (take j copy !! length (x :: a) = Some "/"%char) as Hl' by (rewrite E; by rewrite list_lookup_middle).
  rewrite lookup_take_Some in Hl'. apply Hl'.
Qed.

Lemma ancestors_loop_runs n i c :
  i + n = length copy → cleanups_wf c →
  (∀ j, j < i → dir_at j → c_files c !! take j copy = Some NDir) →
  (∀ q, ancestor path q → c_files c !! q = None ∨ c_files c !! q = Some NDir) →
  ∃ c', runs (ancestors_loop copy i n) (Ok ()) c c' ∧ made_dirs path c c' ∧
    ∀ j, j < length copy → dir_at j → c_files c' !! take j copy = Some NDir.
Proof.
  revert i c. induction n as [|n IH]; intros i c Hn Hwf Hdone Hanc.
  { exists c. split_and!; [apply runs_ret|by apply made_dirs_refl|]. intros j Hj. apply Hdone. lia. }
  cbn [ancestors_loop].
  assert (∃ c1, runs (if ceqb (cget copy i) "/" && negb (i =? 0) then dcc_mk_tmpdir (take i copy) else ret ())
     (Ok ()) c c1 ∧ made_dirs path c c1 ∧ (dir_at i → c_files c1 !! take i copy = Some NDir)) as (c1 & Hr & Hm & Hi).
  { destruct (lookup_lt_is_Some_2 copy i) as [x Hx]; [lia|].
    assert (cget copy i = x) as -> by (unfold cget; by rewrite Hx).
    destruct (ceqb x "/" && negb (i =? 0)) eqn:E; btest.
    - destruct E as [-> Hi0]. apply Nat.eqb_neq in Hi0. assert (dir_at i) as Hd by (split; [lia|by left]).
      destruct (mk_tmpdir_makes path (take i copy) c) as (c1 & ? & ? & ?); [by apply dir_at_ancestor|done|..].
      + apply dir_at_parent; [done|]. intros j Hj. by apply Hdone.
      + by apply Hanc, dir_at_ancestor.
      + by exists c1.
    - exists c. split_and!; [apply runs_ret|by apply made_dirs_refl|].
      intros [Hi0 [Hs|Hs]]; [|lia]. rewrite Hx in Hs. simplify_eq.
      rewrite ceqb_refl in E. simpl in E. apply negb_false_iff, Nat.eqb_eq in E. lia. }
  destruct (IH (S i) c1) as (c2 & Hr2 & Hm2 & H2); [lia|apply Hm|..].
  - intros j Hj Hd. destruct (decide (j = i)) as [->|]; [by apply Hi|].
    eapply made_dirs_keeps; [exact Hm|]. apply Hdone; [lia|done].
  - intros q Hq. destruct Hm as (_ & _ & _ & Hm). destruct (Hm q) as [->|(_ & _ & ->)]; [by apply Hanc|by right].
  - exists c2. split_and!; [by eapply runs_bind|by eapply made_dirs_trans|done].
Qed.
End ancestors.

(** All the directories on the way to a file get made. *)
Lemma mk_ancestors_makes p c :
  cleanups_wf c →
  (∀ q, ancestor p q → c_files c !! q = None ∨ c_files c !! q = Some NDir) →
  ∃ c', runs (dcc_mk_tmp_ancestor_dirs p) (Ok ()) c c' ∧ made_dirs p c c' ∧ parent_exists p (c_files c') = true.
Proof.
  intros Hwf Hanc. unfold dcc_mk_tmp_ancestor_dirs, parent_exists.
  assert (dcc_truncate_to_dirname p = parent p) as -> by done.
  destruct (parent p) as [|x d] eqn:Ep.
  { exists c. split_and!; [|by apply made_dirs_refl|done].
    eapply runs_bind; [apply runs_malloc_or|]. apply runs_ret. }
  unfold parent in Ep. destruct (strrchr p "/") as [i|] eqn:E; [|done].
  apply strrchr_Some in E as (a & base & -> & Hb & ->). rewrite take_app_length in Ep. subst a.
  set (copy := x :: d) in *. set (p := copy ++ "/"%char :: base) in *.
  assert (dir_at copy (length copy)) as Hfull by (split; [simpl; lia|by right]).
  assert (ancestor p copy) as Ha by (split; [done|by exists base]).
  destruct (parent_exists copy (c_files c)) eqn:Hpe; [|destruct (Hanc copy Ha) as [Hc|Hc]].
  - destruct (mk_tmpdir_makes p copy c) as (c1 & Hr & Hm & Hd); [done..|by apply Hanc|].
    exists c1. split_and!; [|done|by rewrite Hd].
    eapply runs_bind; [apply runs_malloc_or|]. eapply runs_bind; [by apply runs_attempt_Ok|]. apply runs_ret.
  - destruct (ancestors_loop_runs copy base (length copy) 0 c) as (c1 & Hr & Hm & Hd); [lia|done|lia|done|].
    destruct (mk_tmpdir_makes p copy c1) as (c2 & Hr2 & Hm2 & Hd2); [done|apply Hm|..].
    + rewrite <- (take_ge copy (length copy)) by lia. by apply dir_at_parent.
    + destruct Hm as (_ & _ & _ & Hm). destruct (Hm copy) as [->|(_ & _ & ->)]; auto.
    + exists c2. split_and!; [|by eapply made_dirs_trans|by rewrite Hd2].
      eapply runs_bind; [apply runs_malloc_or|].
      eapply runs_bind; [by apply runs_attempt_Fail, mk_tmpdir_orphan|]. by eapply runs_bind.
  - exists c. split_and!; [|by apply made_dirs_refl|by rewrite Hc].
    eapply runs_bind; [apply runs_malloc_or|]. apply (runs_bind _ _ (inl ()) _ _ c); [|apply runs_ret].
    apply runs_attempt_Ok. unfold dcc_mk_tmpdir. eapply runs_bind; [apply runs_sys_stat|]. rewrite Hc. apply runs_ret.
Qed.

(** ** Witnesses *)

Definition ex_tmp : world :=
  World (Core ∅ {["/tmp"%cs := NDir; "/tmp/a"%cs := NDir; "/tmp/a/x.i"%cs := NFile "int x;"%cs]}
           ["/tmp/a"%cs; "/tmp/a/x.i"%cs] 10 DCC_PHASE_STARTUP)
        [] [] [] [] 0 ∅.

Lemma ex_tmp_ok : io_ok ex_tmp.
Proof. constructor; [constructor..|reflexivity|by right]. Qed.

Lemma cleanup_tempfiles_removes_witness :
  ∃ w', dcc_cleanup_tempfiles ex_tmp = (Ok (), w') ∧ c_cleanups (w_core w') = [] ∧
    c_fds (w_core w') = c_fds (w_core ex_tmp) ∧ io_ok w' ∧
    ∀ p, c_files (w_core w') !! p =
      if decide (p ∈ c_cleanups (w_core ex_tmp)) then None else c_files (w_core ex_tmp) !! p.
Proof.
  apply (cleanup_tempfiles_removes ex_tmp); [exact ex_tmp_ok|done|].
  assert (∀ q, is_Some (c_files (w_core ex_tmp) !! q) →
    q = "/tmp"%cs ∨ q = "/tmp/a"%cs ∨ q = "/tmp/a/x.i"%cs) as Hq.
  { intros q [n Hn]. cbn [ex_tmp w_core c_files] in Hn.
    rewrite !lookup_insert_Some, lookup_singleton_Some in Hn. naive_solver. }
  intros [|a [|b l1]] d l2 E Hd q Hp Hs; simplify_eq/=.
  - destruct (Hq q Hs) as [-> |[-> | ->]]; [by destruct Hp..|set_solver].
  - by destruct l1.
Defined.

Lemma make_tmpnam_fresh_witness :
  ∃ name w', dcc_make_tmpnam 42 1000 99 "distcc"%cs ".i"%cs ex_tmp = (Ok name, w') ∧
    c_files (w_core ex_tmp) !! name = None ∧
    c_files (w_core w') = <[name := NFile []]> (c_files (w_core ex_tmp)) ∧
    c_cleanups (w_core w') = c_cleanups (w_core ex_tmp) ++ [name] ∧
    c_fds (w_core w') = c_fds (w_core ex_tmp).
Proof.
  apply (make_tmpnam_fresh 42 1000 99 "distcc"%cs ".i"%cs ex_tmp);
    [exact ex_tmp_ok|unfold cleanups_wf; simpl; lia|reflexivity|vm_compute; reflexivity].
Defined.
