(* ===== verification/Text.v ===== *)
(** * util.c, timeval.c, stringmap.c: splitting and comparing

    Splitting text into words and lines, bounded copies, time values, and the
    map from compiler names to full paths. *)

From S2P Require Import Prelude CLib Util Argv.

(** ** Words *)

(** [strsep(&str, delims)]: the token, and the rest ([None] is NULL). *)
Fixpoint sep_at (s delims : cstr) : option nat :=
  match s with
  | [] => None
  | c :: s => if bool_decide (c ∈ delims) then Some 0 else S <$> sep_at s delims
  end.

Definition strsep (str : option cstr) (delims : cstr) : option (cstr * option cstr) :=
  match str with
  | None => None
  | Some s =>
      match sep_at s delims with
      | Some i => Some (take i s, Some (drop (S i) s))
      | None => Some (s, None)
      end
  end.

(** " \t\n" *)
Definition blanks : cstr := [" "; "009"; "010"]%char.

Section tokenize.
Context {St : Type} {MS : MemState St}.

(** The loop that fills the array; every round takes a separator or ends. *)
Fixpoint tokenize_loop (fuel : nat) (arr : cvec) (ap : nat) (input_copy : option cstr) : M St cvec :=
  match fuel with
  | 0 => ub
  | S fuel =>
      match strsep input_copy blanks with
      | None => store arr ap Null
      | Some (field, rest) =>
          let! arr := store arr ap (Str field) in
          match field with
          | [] => tokenize_loop fuel arr ap rest
          | _ => do! malloc_or 1; tokenize_loop fuel arr (S ap) rest
          end
      end
  end.

Definition count_spaces (s : cstr) : nat := length (filter (λ c, isspace c = true) s).

Definition dcc_tokenize_string (input : cstr) : M St cvec :=
  do! malloc_or 1;
  let n_spaces := count_spaces input in
  do! malloc_or 1;
  tokenize_loop (S (S (length input))) (replicate (n_spaces + 1 + 1) Garbage) 0 (Some input).
End tokenize.

(** ** Lines *)

(** The replacement for [getline] on a stream with the text [stream]: the line
    read so far, the size of the buffer; [None] is the return value -1.  The
    terminator goes to the index after the line, wherever that is. *)
Definition buffer_size_increment : nat := 100.

Section getline.
Context {St : Type} {MS : MemState St}.

Definition getline_end (line : cstr) (size : nat) (stream : cstr) : M St (option cstr * nat * cstr) :=
  if decide (length line < size) then
    ret (match line with [] => None | _ => Some line end, size, stream)
  else ub.

Fixpoint getline_loop (fuel : nat) (line : cstr) (size : nat) (stream : cstr) :
    M St (option cstr * nat * cstr) :=
  match fuel with
  | 0 => ub
  | S fuel =>
      let! grown :=
        (if decide (size < length line + 1) then
           let! ok := malloc in
           ret (if ok then Some (size + buffer_size_increment) else None)
         else ret (Some size)) in
      match grown with
      | None => ret (None, size, stream)
      | Some size =>
          match stream with
          | [] => getline_end line size stream
          | c :: stream =>
              if ceqb c "010" then getline_end (line ++ [c]) size stream
              else getline_loop fuel (line ++ [c]) size stream
          end
      end
  end.

(** [n] is the size of the buffer the caller passes. *)
Definition getline (n : nat) (stream : cstr) : M St (option cstr * nat * cstr) :=
  getline_loop (S (length stream)) [] n stream.
End getline.

(** ** Bounded copies *)

(** The characters stored, the terminator left out, and the return value. *)
Definition strlcpy (s : cstr) (bufsize : nat) : option cstr * nat :=
  if decide (bufsize = 0) then (None, 0)
  else (Some (take (bufsize - 1) s), length s).

(** ** Time *)

Record timeval := Tv { tv_sec : Z; tv_usec : Z }.

Definition dcc_timecmp (a b : timeval) : Z :=
  if (tv_sec a <? tv_sec b)%Z then -1
  else if (tv_sec a >? tv_sec b)%Z then 1
  else if (tv_usec a <? tv_usec b)%Z then -1
  else if (tv_usec a >? tv_usec b)%Z then 1
  else 0.

(** The difference, and 1 when it is negative. *)
Definition timeval_subtract (x y : timeval) : timeval * Z :=
  let y := if (tv_usec x <? tv_usec y)%Z
           then let nsec := (Z.quot (tv_usec y - tv_usec x) 1000000 + 1)%Z in
                Tv (tv_sec y + nsec) (tv_usec y - 1000000 * nsec)
           else y in
  let y := if (tv_usec x - tv_usec y >? 1000000)%Z
           then let nsec := Z.quot (tv_usec x - tv_usec y) 1000000 in
                Tv (tv_sec y - nsec) (tv_usec y + 1000000 * nsec)
           else y in
  (Tv (tv_sec x - tv_sec y) (tv_usec x - tv_usec y),
   if (tv_sec x <? tv_sec y)%Z then 1%Z else 0%Z).

(** ** stringmap.c *)

Record stringmap := StringMap {
  map_entries : list (cstr * cstr);     (** key and value *)
  numFinalWordsToMatch : Z
}.

(** The loop that looks for the start of the last words; [pos] counts down
    from [len - 1], which is -1 for an empty string. *)
Fixpoint key_loop (s : cstr) (pos : nat) (w k : Z) : nat :=
  match pos with
  | 0 => 0
  | S pos' =>
      if ceqb (cget s pos) "/" then
        if (w + 1 >=? k)%Z then S pos else key_loop s pos' (w + 1) k
      else key_loop s pos' w k
  end.

Definition key_of (s : cstr) (k : Z) : outcome cstr :=
  match s with
  | [] => Undef
  | _ => Ok (drop (key_loop s (length s - 1) 0 k) s)
  end.

(** [strip trailing \n] *)
Definition strip_nl (s : cstr) : cstr :=
  if str_endswith ["010"%char] s then take (length s - 1) s else s.

(** [lines]: what the calls of [fgets] give. *)
Fixpoint load_entries (lines : list cstr) (k : Z) : outcome (list (cstr * cstr)) :=
  match lines with
  | [] => Ok []
  | buf :: lines =>
      let buf := strip_nl buf in
      match key_of buf k, load_entries lines k with
      | Ok key, Ok rest => Ok ((key, buf) :: rest)
      | _, _ => Undef
      end
  end.

Definition stringmap_load (lines : option (list cstr)) (k : Z) : outcome (option stringmap) :=
  match lines with
  | None => Ok None
  | Some lines =>
      match load_entries lines k with
      | Ok l => Ok (Some (StringMap l k))
      | _ => Undef
      end
  end.

Fixpoint find_entry (l : list (cstr * cstr)) (key : cstr) : option cstr :=
  match l with
  | [] => None
  | (k, v) :: l => if streq k key then Some v else find_entry l key
  end.

Definition stringmap_lookup (m : stringmap) (string : cstr) : outcome (option cstr) :=
  match key_of string (numFinalWordsToMatch m) with
  | Ok key => Ok (find_entry (map_entries m) key)
  | _ => Undef
  end.

(** ** Splitting, on plain lists *)

(** The pieces between the characters that satisfy [p]; always at least one. *)
Fixpoint split_on (p : ascii → bool) (s : cstr) : list cstr :=
  match s with
  | [] => [[]]
  | c :: s =>
      if p c then [] :: split_on p s
      else match split_on p s with
           | x :: xs => (c :: x) :: xs
           | [] => [[c]]
           end
  end.

Definition is_blank (c : ascii) : bool := bool_decide (c ∈ blanks).

Definition nonempty (w : cstr) : Prop := w ≠ [].
#[export] Instance nonempty_dec w : Decision (nonempty w).
Proof. unfold nonempty. apply _. Defined.

(** The maximal runs of characters that are not blank. *)
Definition words (s : cstr) : list cstr := filter nonempty (split_on is_blank s).

Lemma split_on_ne p s : split_on p s ≠ [].
Proof. destruct s as [|c s]; simpl; [done|]. destruct (p c); [done|]. by destruct (split_on p s). Qed.

Lemma split_on_length p s : length (split_on p s) = S (length (filter (λ c, p c = true) s)).
Proof.
  induction s as [|c s IH]; [done|]. simpl. rewrite filter_cons. destruct (p c) eqn:E.
  - rewrite decide_True by done. simpl. by rewrite IH.
  - rewrite decide_False by congruence. rewrite <- IH. by destruct (split_on p s) eqn:E'; [apply split_on_ne in E'|].
Qed.

Lemma split_on_sep s delims :
  split_on (λ c, bool_decide (c ∈ delims)) s =
    match sep_at s delims with
    | Some i => take i s :: split_on (λ c, bool_decide (c ∈ delims)) (drop (S i) s)
    | None => [s]
    end.
Proof.
  induction s as [|c s IH]; simpl; [done|]. case_bool_decide; [by rewrite drop_0|].
  rewrite IH. by destruct (sep_at s delims).
Qed.

Lemma sep_at_lt s delims i : sep_at s delims = Some i → i < length s.
Proof.
  revert i. induction s as [|c s IH]; intros i; simpl; [done|]. case_bool_decide; intros E; simplify_eq; [lia|].
  apply fmap_Some in E as (j & E & ->). apply IH in E. lia.
Qed.

Lemma blank_isspace c : is_blank c = true → isspace c = true.
Proof.
  unfold is_blank, blanks. rewrite bool_decide_eq_true. intros Hin.
  repeat (apply elem_of_cons in Hin as [->|Hin]; [done|]). by apply elem_of_nil in Hin.
Qed.

Lemma words_count s : length (words s) ≤ count_spaces s + 1.
Proof.
  unfold words, count_spaces. etransitivity; [apply length_filter|]. rewrite split_on_length, Nat.add_1_r.
  apply le_n_S. induction s as [|c s IH]; [done|]. rewrite !filter_cons.
  destruct (decide (is_blank c = true)) as [Hb|Hb].
  - rewrite (decide_True (P := isspace c = true)) by by apply blank_isspace. simpl. lia.
  - case_decide; simpl; lia.
Qed.

Section tokenize_spec.
Context {St : Type} {MS : MemState St}.
Implicit Types σ : St.

Definition pending (str : option cstr) : list cstr := from_option words [] str.

Lemma pending_step str field rest :
  strsep str blanks = Some (field, rest) →
  pending str = (if decide (nonempty field) then [field] else []) ++ pending rest ∧
  from_option (λ s, S (length s)) 0 rest < from_option (λ s, S (length s)) 0 str.
Proof.
  destruct str as [s|]; [|done]. simpl. unfold words, is_blank. rewrite split_on_sep.
  destruct (sep_at s blanks) as [i|] eqn:E; intros ?; simplify_eq; simpl.
  - rewrite filter_cons, length_drop. apply sep_at_lt in E. split; [by case_decide|lia].
  - rewrite filter_cons. split; [by case_decide|lia].
Qed.

Lemma tokenize_loop_spec fuel str done tl σ :
  mem_ok σ → from_option (λ s, S (length s)) 0 str < fuel → length (pending str) < length tl →
  tokenize_loop fuel ((Str <$> done) ++ tl) (length done) str σ =
    (Ok ((Str <$> done ++ pending str) ++ Null :: drop (S (length (pending str))) tl), σ).
Proof.
  intros Hm. revert str done tl. induction fuel as [|fuel IH]; intros str done tl Hf Hl; [lia|].
  destruct tl as [|x tl]; [simpl in Hl; lia|]. simpl.
  destruct (strsep str blanks) as [[field rest]|] eqn:E.
  - apply pending_step in E as [Ep Hr]. rewrite Ep in *. simpl in Hl.
    rewrite (bind_Ok _ _ _ ((Str <$> done) ++ Str field :: tl) σ).
    2: { rewrite <- (length_fmap Str done). apply (store_app (Str <$> done) x tl (Str field)). }
    destruct field as [|c field].
    + rewrite decide_False in * by (intros H; by apply H). simpl in *. by rewrite IH by (simpl; lia).
    + rewrite decide_True in * by done. simpl in *.
      rewrite (bind_Ok _ _ _ () σ) by by apply malloc_or_ok.
      specialize (IH rest (done ++ [c :: field]) tl). rewrite fmap_app, <- app_assoc, length_app, Nat.add_1_r in IH.
      simpl in IH. rewrite IH by (simpl in Hl; lia). by rewrite <- app_assoc.
  - destruct str as [s|]; [by simpl in E; destruct (sep_at s blanks)|]. simpl.
    rewrite app_nil_r, drop_0. rewrite <- (length_fmap Str done). apply (store_app (Str <$> done) x tl Null).
Qed.

(** The words of a text arrive in an array that is always large enough:
    [dcc_tokenize_string] stores exactly the maximal runs of characters other
    than space, tab and newline, followed by NULL. *)
Lemma tokenize_string_words (input : cstr) σ :
  mem_ok σ →
  dcc_tokenize_string input σ =
    (Ok (vec (words input) ++ replicate (count_spaces input + 1 - length (words input)) Garbage), σ).
Proof.
  intros Hm. pose proof (words_count input) as Hw. unfold dcc_tokenize_string.
  rewrite !(bind_Ok _ _ _ () σ) by by apply malloc_or_ok.
  etransitivity; [apply (tokenize_loop_spec _ (Some input) [] _ σ Hm); [simpl; lia|]|].
  - rewrite length_replicate. simpl. lia.
  - cbn [app pending from_option]. unfold vec. rewrite <- app_assoc, drop_replicate. cbn [app].
    do 5 f_equal. lia.
Qed.
End tokenize_spec.

(** ** Lines *)

Section getline_spec.
Context {St : Type} {MS : MemState St}.
Implicit Types σ : St.

(** The buffer once [k] characters are in it. *)
Definition grown (k : nat) : nat := 100 * ((k + 99) / 100).

Lemma grown_step k : (if decide (grown k < k + 1) then grown k + 100 else grown k) = grown (S k).
Proof.
  unfold grown. pose proof (Nat.div_mod_eq (k + 99) 100). pose proof (Nat.mod_upper_bound (k + 99) 100).
  pose proof (Nat.div_mod_eq (S k + 99) 100). pose proof (Nat.mod_upper_bound (S k + 99) 100).
  case_decide; lia.
Qed.

Lemma grown_full k : k < grown k ↔ k mod 100 ≠ 0.
Proof.
  unfold grown. pose proof (Nat.div_mod_eq (k + 99) 100). pose proof (Nat.mod_upper_bound (k + 99) 100).
  pose proof (Nat.div_mod_eq k 100). pose proof (Nat.mod_upper_bound k 100). lia.
Qed.

Lemma getline_loop_line fuel l0 l r σ :
  mem_ok σ → "010"%char ∉ l → length l < fuel →
  getline_loop fuel l0 (grown (length l0)) (l ++ "010"%char :: r) σ =
    (if decide ((S (length l0 + length l)) mod 100 = 0) then Undef
     else Ok (Some (l0 ++ l ++ ["010"%char]), grown (S (length l0 + length l)), r), σ).
Proof.
  intros Hm. revert l0 l. induction fuel as [|fuel IH]; intros l0 l Hl Hf; [lia|]. cbn [getline_loop].
  rewrite (bind_Ok _ _ _ (Some (grown (S (length l0)))) σ).
  2: { rewrite <- grown_step. case_decide; [|done].
       unfold malloc, bind. unfold mem_ok in Hm. by rewrite Hm. }
  destruct l as [|c l]; cbn [app length].
  - rewrite ceqb_refl, Nat.add_0_r. unfold getline_end. rewrite length_app, Nat.add_1_r.
    pose proof (grown_full (S (length l0))) as Hg.
    destruct (decide (_ < grown _)) as [H1|H1], (decide (_ mod _ = 0)) as [H2|H2]; try tauto.
    by destruct l0.
  - apply not_elem_of_cons in Hl as [Hc Hl].
    replace (ceqb c "010") with false by (symmetry; by apply ceqb_false).
    specialize (IH (l0 ++ [c]) l Hl ltac:(simpl in Hf; lia)).
    rewrite length_app, Nat.add_1_r in IH. rewrite IH, <- app_assoc. by rewrite Nat.add_succ_r.
Qed.

(** Reading a line into a fresh buffer with the replacement for getline:
    the line with its newline comes back and the rest of the stream is left,
    unless the line fills the buffer to the last byte (its length is a multiple
    of 100): then the terminator is written past the end. *)
Lemma getline_line (l r : cstr) σ :
  mem_ok σ → "010"%char ∉ l →
  getline 0 (l ++ "010"%char :: r) σ =
    (if decide ((S (length l)) mod 100 = 0) then Undef
     else Ok (Some (l ++ ["010"%char]), grown (S (length l)), r), σ).
Proof.
  intros Hm Hl. apply (getline_loop_line _ [] l r σ Hm Hl). rewrite length_app. simpl. lia.
Qed.
End getline_spec.

(** ** Time *)

Definition usecs (t : timeval) : Z := (tv_sec t * 1000000 + tv_usec t)%Z.
Definition normal (t : timeval) : Prop := (0 ≤ tv_usec t < 1000000)%Z.

(** Time values with their microseconds in range compare and subtract as
    the microseconds they stand for, and a difference is in range again. *)
Lemma timeval_arith (x y : timeval) :
  normal x → normal y →
  dcc_timecmp x y = Z.sgn (usecs x - usecs y) ∧
  normal (timeval_subtract x y).1 ∧
  usecs (timeval_subtract x y).1 = (usecs x - usecs y)%Z ∧
  ((timeval_subtract x y).2 = 1%Z ↔ (usecs x < usecs y)%Z).
Proof.
  destruct x as [xs xu], y as [ys yu]. unfold normal, usecs, dcc_timecmp, timeval_subtract. simpl.
  intros Hx Hy. split.
  { repeat case_match; simpl in *; lia. }
  destruct (Z.ltb_spec xu yu); simpl.
  - rewrite Z.quot_small by lia. destruct (Z.gtb_spec (xu - (yu - 1000000 * (0 + 1))) 1000000); [lia|]. simpl.
    repeat case_match; split_and!; lia.
  - destruct (Z.gtb_spec (xu - yu) 1000000); [lia|]. simpl. repeat case_match; split_and!; lia.
Qed.

(** ** Compiler names *)

(** [t] is the last [k] words of [s]: what follows the k-th slash from the
    right, or everything; a slash at the very start does not count. *)
Definition slashes (s : cstr) : Z := Z.of_nat (length (filter (λ c, c = "/"%char) s)).

Definition last_words (k : Z) (s t : cstr) : Prop :=
  (∃ p, p ≠ [] ∧ s = p ++ "/"%char :: t ∧ slashes t = (k - 1)%Z) ∨
  (t = s ∧ (slashes (drop 1 s) < k)%Z).

Lemma slashes_app a b : slashes (a ++ b) = (slashes a + slashes b)%Z.
Proof. unfold slashes. rewrite filter_app, length_app. lia. Qed.

Lemma slashes_cons c s : slashes (c :: s) = ((if decide (c = "/"%char) then 1 else 0) + slashes s)%Z.
Proof. unfold slashes. rewrite filter_cons. case_decide; simpl; lia. Qed.

Lemma key_loop_spec s pos w k :
  s ≠ [] → pos < length s → (0 < k)%Z → slashes (drop (S pos) s) = w → (w < k)%Z →
  last_words k s (drop (key_loop s pos w k) s).
Proof.
  intros Hne Hpos Hk. revert w Hpos. induction pos as [|pos IH]; intros w Hpos Hw Hwk; cbn [key_loop].
  - right. rewrite drop_0. split; [done|]. by rewrite Hw.
  - destruct (lookup_lt_is_Some_2 s (S pos) Hpos) as [c Hc].
    assert (cget s (S pos) = c) as -> by (unfold cget; by rewrite Hc).
    pose proof (drop_S s c (S pos) Hc) as Hd.
    assert (slashes (drop (S pos) s) = ((if decide (c = "/"%char) then 1 else 0) + w)%Z) as Hsl.
    { by rewrite Hd, slashes_cons, Hw. }
    destruct (ceqb c "/") eqn:E; btest.
    + subst c. rewrite decide_True in Hsl by done.
      destruct (Z.geb_spec (w + 1) k).
      * left. exists (take (S pos) s). split_and!; [|by rewrite <- Hd, take_drop|lia].
        intros Ht%(f_equal length). by rewrite length_take, Nat.min_l in Ht by lia.
      * apply IH; lia.
    + rewrite decide_False in Hsl by done. apply IH; [lia|lia|done].
Qed.

Lemma last_words_det k s t t' : (0 < k)%Z → last_words k s t → last_words k s t' → t = t'.
Proof.
  assert (∀ p t, p ≠ [] → slashes (drop 1 (p ++ "/"%char :: t)) = (slashes (drop 1 p) + 1 + slashes t)%Z) as Hx.
  { intros p u Hp. destruct p as [|c p]; [done|]. cbn [app drop]. rewrite !drop_0, slashes_app, slashes_cons, decide_True by done. lia. }
  assert (∀ s, 0 ≤ slashes s)%Z as Hp by (intros; unfold slashes; lia).
  intros Hk [(p & Hpn & Es & Ht)|[-> Ht]] [(q & Hqn & Es' & Ht')|[-> Ht']]; [| | |done].
  - rewrite Es in Es'. apply app_eq_inv in Es' as [(u & Eu & E)|(u & Eu & E)];
      (destruct u as [|c u]; simpl in E; [by injection E|injection E as <- E]).
    + rewrite E, slashes_app, slashes_cons, decide_True in Ht' by done. specialize (Hp u). lia.
    + rewrite E, slashes_app, slashes_cons, decide_True in Ht by done. specialize (Hp u). lia.
  - rewrite Es, Hx in Ht' by done. specialize (Hp (drop 1 p)). lia.
  - rewrite Es', Hx in Ht by done. specialize (Hp (drop 1 q)). lia.
Qed.

Lemma key_of_spec s k : s ≠ [] → (0 < k)%Z → ∃ t, key_of s k = Ok t ∧ last_words k s t.
Proof.
  intros Hs Hk. eexists. split; [by destruct s|]. apply key_loop_spec; [done| |done| |done].
  - destruct s; [done|simpl; lia].
  - by rewrite drop_ge by lia.
Qed.

(** A line of the file that is not empty. *)
Definition good_line (l : cstr) : Prop := strip_nl l ≠ [].

Lemma load_entries_spec lines k :
  Forall good_line lines → (0 < k)%Z →
  ∃ es, load_entries lines k = Ok es ∧ Forall2 (λ l e, e.2 = strip_nl l ∧ last_words k (strip_nl l) e.1) lines es.
Proof.
  intros Hl Hk. induction Hl as [|l lines Hg _ (es & IH & Hes)]; [by exists []|].
  destruct (key_of_spec (strip_nl l) k Hg Hk) as (t & Et & Ht). eexists. split; [simpl; by rewrite Et, IH|].
  by constructor.
Qed.

Lemma find_entry_spec es key :
  find_entry es key = snd <$> head (filter (λ e, e.1 = key) es).
Proof.
  induction es as [|[k v] es IH]; [done|]. simpl. rewrite filter_cons. unfold streq.
  case_bool_decide; [by rewrite decide_True|by rewrite decide_False].
Qed.

(** Looking a compiler up in a map loaded from a file without empty lines
    gives the first line of the file that ends in the same words, if any. *)
Lemma stringmap_lookup_spec (lines : list cstr) (k : Z) (s : cstr) :
  Forall good_line lines → (0 < k)%Z → s ≠ [] →
  ∃ m r, stringmap_load (Some lines) k = Ok (Some m) ∧ stringmap_lookup m s = Ok r ∧
    match r with
    | Some v => ∃ l1 l l2 t, lines = l1 ++ l :: l2 ∧ v = strip_nl l ∧
        last_words k v t ∧ last_words k s t ∧ Forall (λ l', ¬ last_words k (strip_nl l') t) l1
    | None => ∀ t, last_words k s t → Forall (λ l', ¬ last_words k (strip_nl l') t) lines
    end.
Proof.
  intros Hl Hk Hs. destruct (load_entries_spec lines k Hl Hk) as (es & El & Hes).
  destruct (key_of_spec s k Hs Hk) as (t & Et & Ht).
  exists (StringMap es k), (find_entry es t). split_and!; [by simpl; rewrite El| |].
  { unfold stringmap_lookup. simpl. by rewrite Et. }
  clear El Hl. induction Hes as [|l [key v] lines es [Ev Hkey] Hes IH]; [by constructor|].
  simpl in *. subst v. destruct (streq key t) eqn:E; btest.
  - subst. exists [], l, lines, t. by rewrite Forall_nil.
  - assert (¬ last_words k (strip_nl l) t) as Hn by (intros Hx; by apply E, (last_words_det k (strip_nl l))).
    destruct (find_entry es t) as [v|].
    + destruct IH as (l1 & l' & l2 & t' & -> & -> & H1 & H2 & H3).
      exists (l :: l1), l', l2, t'. split_and!; try done. constructor; [|done].
      by rewrite (last_words_det k s t' t).
    + intros t' Ht'. constructor; [by rewrite (last_words_det k s t' t)|by apply IH].
Qed.

(** ** Witnesses *)

Lemma tokenize_string_words_witness :
  words " a.lzo  b "%cs = ["a.lzo"%cs; "b"%cs] ∧
  dcc_tokenize_string " a.lzo  b "%cs ([] : list bool) =
    (Ok (vec (words " a.lzo  b "%cs) ++ replicate 3 Garbage), []).
Proof. split; [reflexivity|]. by apply (tokenize_string_words " a.lzo  b "%cs ([] : list bool)). Defined.

Lemma getline_line_witness :
  getline 0 ("ab"%cs ++ "010"%char :: "c"%cs) ([] : list bool) =
    (Ok (Some ("ab"%cs ++ ["010"%char]), grown 3, "c"%cs), []).
Proof. apply (getline_line "ab"%cs "c"%cs ([] : list bool)); [done|]. by apply (bool_decide_unpack _). Defined.

Lemma timeval_arith_witness :
  dcc_timecmp (Tv 3 100000) (Tv 1 900000) = Z.sgn (3100000 - 1900000) ∧
  normal (timeval_subtract (Tv 3 100000) (Tv 1 900000)).1.
Proof.
  destruct (timeval_arith (Tv 3 100000) (Tv 1 900000)) as (H1 & H2 & _); [done..|]. done.
Defined.

Lemma stringmap_lookup_spec_witness :
  Forall good_line ["/usr/bin/gcc"%cs] ∧
  ∃ m r, stringmap_load (Some ["/usr/bin/gcc"%cs]) 1 = Ok (Some m) ∧ stringmap_lookup m "/opt/gcc"%cs = Ok r ∧
    match r with
    | Some v => ∃ l1 l l2 t, ["/usr/bin/gcc"%cs] = l1 ++ l :: l2 ∧ v = strip_nl l ∧
        last_words 1 v t ∧ last_words 1 "/opt/gcc"%cs t ∧ Forall (λ l', ¬ last_words 1 (strip_nl l') t) l1
    | None => ∀ t, last_words 1 "/opt/gcc"%cs t → Forall (λ l', ¬ last_words 1 (strip_nl l') t) ["/usr/bin/gcc"%cs]
    end.
Proof.
  assert (Forall good_line ["/usr/bin/gcc"%cs]) as H by by repeat constructor.
  split; [exact H|]. by apply (stringmap_lookup_spec ["/usr/bin/gcc"%cs] 1 "/opt/gcc"%cs).
Defined.
