(* ===== verification/Paths.v ===== *)
(** * util.c, climasq.c: paths and the search path

    Absolute names without "dir/..", and how distcc, installed under the name
    of a compiler, takes itself out of the search path. *)

From S2P Require Import Prelude CLib Util World Rpc Tempfile Text.

Definition MAXPATHLEN : nat := 4096.

(** ** dcc_abspath *)

(** The loop that removes "dir/..": [p] is where the search goes on. *)
Fixpoint abspath_loop (fuel : nat) (buf : cstr) (p : nat) : outcome cstr :=
  match fuel with
  | 0 => Undef
  | S fuel =>
      match strstr (drop p buf) "/../"%cs with
      | None => Ok buf
      | Some i =>
          let p := p + i in
          let slash := default p (strrchr (take p buf) "/") in
          abspath_loop fuel (take slash buf ++ drop (p + 3) buf) slash
      end
  end.

(** [cwd]: what [getcwd] gives. *)
Definition dcc_abspath (cwd : option cstr) (path : cstr) (path_len : Z) : outcome cstr :=
  let go (buf : cstr) :=
    let len := length buf in
    let path := if (path_len <=? 0)%Z then path else take (Z.to_nat path_len) path in
    let path := if (2 <=? length path) && ceqb (cget path 0) "." && ceqb (cget path 1) "/"
                then drop 2 path else path in
    if decide (MAXPATHLEN ≤ len + length path) then Exit EXIT_OUT_OF_MEMORY
    else abspath_loop (S (len + length path)) (buf ++ path) (len - 1) in
  if ceqb (cget path 0) "/" then go []
  else match cwd with
       | Some cwd => go (cwd ++ "/"%cs)
       | None => Undef
       end.

(** *** The same on components *)

Definition is_slash (c : ascii) : bool := ceqb c "/".

Fixpoint join_with (sep : ascii) (cs : list cstr) : cstr :=
  match cs with
  | [] => []
  | [c] => c
  | c :: cs => c ++ sep :: join_with sep cs
  end.
Abbreviation join := (join_with "/"%char).

(** The parent of the first component is itself. *)
Definition pop (stack : list cstr) : list cstr :=
  match stack with
  | _ :: x :: stack => x :: stack
  | _ => stack
  end.

(** Resolve "..", which is left alone as the last component. *)
Fixpoint resolve (stack cs : list cstr) : list cstr :=
  match cs with
  | [] => rev stack
  | [c] => rev (c :: stack)
  | c :: cs => if decide (c = ".."%cs) then resolve (pop stack) cs else resolve (c :: stack) cs
  end.

Lemma join_cons sep c cs : cs ≠ [] → join_with sep (c :: cs) = c ++ sep :: join_with sep cs.
Proof. by destruct cs. Qed.

Lemma join_snoc cs c : cs ≠ [] → join (cs ++ [c]) = join cs ++ "/"%char :: c.
Proof.
  induction cs as [|x cs IH]; [done|]. intros _. destruct (decide (cs = [])) as [->|Hne]; [done|].
  change ((x :: cs) ++ [c]) with (x :: (cs ++ [c])).
  rewrite (join_cons _ x (cs ++ [c])), (join_cons _ x cs), IH by (done || by destruct cs).
  by rewrite <- app_assoc.
Qed.

Lemma join_split_with sep s : join_with sep (split_on (λ c, ceqb c sep) s) = s.
Proof.
  induction s as [|c s IH]; [done|]. simpl. destruct (ceqb c sep) eqn:E.
  - btest. subst. rewrite join_cons by apply split_on_ne. by rewrite IH.
  - destruct (split_on _ s) as [|x xs] eqn:Es; [by apply split_on_ne in Es|].
    rewrite <- IH. by destruct xs.
Qed.

Lemma join_split s : join (split_on is_slash s) = s.
Proof. apply join_split_with. Qed.

Lemma split_no_slash s : Forall (λ c, "/"%char ∉ c) (split_on is_slash s).
Proof.
  induction s as [|c s IH]; simpl; [by repeat constructor; apply not_elem_of_nil|].
  destruct (is_slash c) eqn:E; [constructor; [apply not_elem_of_nil|done]|].
  unfold is_slash in E. btest. destruct (split_on is_slash s) as [|x xs]; [by repeat constructor; set_solver|].
  apply Forall_cons in IH as [Hx Hxs]. constructor; [|done]. apply not_elem_of_cons. by split.
Qed.

(** "/../" does not occur. *)
Definition nodd (s : cstr) : Prop := ∀ a b, s ≠ a ++ "/../"%cs ++ b.

Lemma nodd_app_l s t : nodd (s ++ t) → nodd s.
Proof. intros Hs a b ->. apply (Hs a (b ++ t)). by rewrite <- !app_assoc. Qed.

Lemma nodd_push U c : nodd (U ++ "/"%cs) → "/"%char ∉ c → c ≠ ".."%cs → nodd (U ++ "/"%char :: c ++ "/"%cs).
Proof.
  intros HU Hc Hne a b E. destruct b as [|x b _] using rev_ind.
  - change (U ++ "/"%char :: c ++ "/"%cs) with (U ++ ("/"%char :: c) ++ "/"%cs) in E.
    change (a ++ "/../"%cs ++ []) with (a ++ "/.."%cs ++ "/"%cs) in E. rewrite !app_assoc in E.
    apply app_inj_2 in E as [E _]; [|done].
    apply app_eq_inv in E as [([|k ks] & -> & E)|([|k ks] & -> & E)]; simpl in E.
    + by injection E.
    + injection E as <- E. assert ("/"%char ∈ ".."%cs) as Hin by (rewrite E; set_solver).
      by apply (bool_decide_eq_true_2 _) in Hin.
    + injection E as ->. done.
    + injection E as <- ->. apply Hc, elem_of_app. right. left.
  - rewrite !app_assoc in E. change (U ++ "/"%char :: c ++ "/"%cs) with (U ++ ("/"%char :: c) ++ "/"%cs) in E.
    rewrite app_assoc in E. apply app_inj_2 in E as [E _]; [|done].
    change (U ++ "/"%char :: c = (a ++ "/../"%cs) ++ b) in E.
    change "/../"%cs with ("/.."%cs ++ "/"%cs) in E. rewrite (app_assoc a), <- (app_assoc _ _ b) in E.
    apply app_eq_inv in E as [([|k ks] & EU & E)|([|k ks] & EU & E)]; simpl in E.
    + apply (HU a []). by rewrite EU, !app_nil_r, <- app_assoc.
    + injection E as <- ->. apply (HU a (ks ++ "/"%cs)). by rewrite EU, <- !app_assoc.
    + apply (HU a []). rewrite app_nil_r in EU. by rewrite <- EU, app_nil_r, <- app_assoc.
    + injection E as <- ->. apply Hc, elem_of_app. right. left.
Qed.

Lemma strstr_dd U rest : nodd (U ++ "/"%cs) → strstr (U ++ "/../"%cs ++ rest) "/../"%cs = Some (length U).
Proof.
  intros HU. destruct (strstr _ _) as [i|] eqn:E.
  - pose proof (strstr_first _ _ _ U rest E eq_refl) as Hle.
    apply strstr_Some_app in E as (a & b & E & ->). f_equal.
    apply app_eq_inv in E as [(k & EU & E)|(k & Ea & E)].
    + destruct k as [|k1 [|k2 [|k3 [|k4 k]]]]; simpl in E; simplify_eq.
      * by rewrite app_nil_r.
      * exfalso. apply (HU a []). by rewrite <- app_assoc.
      * exfalso. apply (HU a (k ++ "/"%cs)). by rewrite <- !app_assoc.
    + rewrite Ea, length_app in *. destruct k; simpl in *; [lia|lia].
  - exfalso. by apply (proj1 (strstr_None _ _) E U rest).
Qed.

Lemma nodd_last U c : nodd (U ++ "/"%cs) → "/"%char ∉ c → nodd (U ++ "/"%char :: c).
Proof.
  intros HU Hc. destruct (decide (c = ".."%cs)) as [->|Hne].
  - intros a b E. change "/..."%cs with ("/"%cs ++ "."%cs ++ "."%cs) in E.
    assert ((U ++ "/"%cs ++ "."%cs) ++ "."%cs = a ++ "/../"%cs ++ b) as E' by (by rewrite <- !app_assoc). clear E.
    destruct b as [|x b _] using rev_ind.
    + change (a ++ "/../"%cs ++ []) with (a ++ "/.."%cs ++ "/"%cs) in E'. rewrite (app_assoc a) in E'.
      by apply app_inj_2 in E' as [_ E'].
    + rewrite !app_assoc in E'. apply app_inj_2 in E' as [E' _]; [|done].
      destruct b as [|y b _] using rev_ind.
      * change (a ++ "/../"%cs) with (a ++ "/.."%cs ++ "/"%cs) in E'. rewrite app_nil_r, !app_assoc in E'.
        by apply app_inj_2 in E' as [_ E'].
      * rewrite !app_assoc in E'. apply app_inj_2 in E' as [E' _]; [|done].
        apply (HU a b). by rewrite <- app_assoc in E'.
  - pose proof (nodd_push U c HU Hc Hne) as Hn. apply (nodd_app_l _ "/"%cs). by rewrite <- app_assoc.
Qed.

Definition J (stack : list cstr) : cstr := join (rev stack).

Lemma J_cons c stk : stk ≠ [] → J (c :: stk) = J stk ++ "/"%char :: c.
Proof. intros Hs. unfold J. simpl. apply join_snoc. destruct stk; [done|]. simpl. by destruct (rev stk). Qed.

Lemma J_parent stk x :
  stk ≠ [] → Forall (λ c, "/"%char ∉ c) stk →
  default (length (J stk)) (strrchr (J stk) "/") = length (J (pop stk)) ∧
  take (length (J (pop stk))) (J stk ++ x) = J (pop stk).
Proof.
  intros Hs Hf. destruct stk as [|y [|z stk]]; [done|..].
  - apply Forall_cons in Hf as [Hy _]. change (J (pop [y])) with y. change (J [y]) with y.
    apply strrchr_None in Hy. rewrite Hy. split; [done|]. apply take_app_length.
  - apply Forall_cons in Hf as [Hy _]. cbn [pop]. rewrite J_cons by done. split.
    + assert (strrchr (J (z :: stk) ++ "/"%char :: y) "/" = Some (length (J (z :: stk)))) as ->; [|done].
      apply strrchr_Some. by exists (J (z :: stk)), y.
    + rewrite <- app_assoc. apply take_app_length.
Qed.

Lemma nodd_slash : nodd "/"%cs.
Proof. intros a b E%(f_equal length). rewrite !length_app in E. simpl in E. lia. Qed.

Lemma abspath_loop_resolve cs : ∀ fuel stk p,
  cs ≠ [] → stk ≠ [] → Forall (λ c, "/"%char ∉ c) stk → Forall (λ c, "/"%char ∉ c) cs →
  p ≤ length (J stk) → nodd (drop p (J stk) ++ "/"%cs) →
  length (J stk ++ "/"%char :: join cs) < fuel →
  abspath_loop fuel (J stk ++ "/"%char :: join cs) p = Ok (join (resolve stk cs)).
Proof.
  induction cs as [|c cs IH]; [done|]. intros fuel stk p _ Hs Hfs Hfc Hp Hn Hfu.
  apply Forall_cons in Hfc as [Hc Hfc]. destruct fuel as [|fuel]; [lia|].
  destruct (decide (cs = [])) as [->|Hne].
  { cbn [join_with abspath_loop]. rewrite drop_app_le by done.
    pose proof (nodd_last _ c Hn Hc) as Hno. apply strstr_None in Hno as ->.
    cbn [resolve]. by rewrite <- (J_cons c stk Hs). }
  rewrite join_cons in Hfu |- * by done.
  assert (resolve stk (c :: cs) = if decide (c = ".."%cs) then resolve (pop stk) cs else resolve (c :: stk) cs)
    as -> by by destruct cs.
  destruct (decide (c = ".."%cs)) as [->|Hdd].
  - cbn [abspath_loop]. rewrite drop_app_le by done.
    change ("/"%char :: ".."%cs ++ "/"%char :: join cs) with ("/../"%cs ++ join cs).
    rewrite strstr_dd by done. rewrite length_drop.
    replace (p + (length (J stk) - p)) with (length (J stk)) by lia. rewrite take_app_length.
    destruct (J_parent stk ("/../"%cs ++ join cs) Hs Hfs) as [-> Ht]. rewrite Ht.
    rewrite drop_app_ge by lia. replace (length (J stk) + 3 - length (J stk)) with 3 by lia.
    change (drop 3 ("/../"%cs ++ join cs)) with ("/"%char :: join cs).
    assert (pop stk ≠ []) as Hps by (by destruct stk as [|? []]).
    assert (length (J (pop stk)) ≤ length (J stk)) as Hle.
    { apply (f_equal length) in Ht. rewrite length_take, length_app in Ht.
      destruct stk as [|y [|z stk]]; [done|done|]. cbn [pop]. rewrite (J_cons y) by done. rewrite length_app. lia. }
    apply IH; try done.
    + destruct stk as [|? [|? ?]]; [done|done|]. by apply Forall_cons in Hfs as [_ ?].
    + rewrite drop_ge by lia. apply nodd_slash.
    + rewrite !length_app in *. simpl in *. lia.
  - rewrite app_comm_cons, app_assoc, <- J_cons in Hfu |- * by done.
    apply IH; try done.
    + by constructor.
    + rewrite J_cons by done. rewrite length_app. lia.
    + rewrite J_cons, drop_app_le, <- app_assoc by done. by apply nodd_push.
Qed.

Lemma split_on_app p a c b : p c = true → split_on p (a ++ c :: b) = split_on p a ++ split_on p b.
Proof.
  intros Hc. induction a as [|x a IH]; simpl; [by rewrite Hc|]. rewrite IH. destruct (p x); [done|].
  by destruct (split_on p a) eqn:E; [apply split_on_ne in E|].
Qed.

Lemma resolve_app cs cs' stk :
  ".."%cs ∉ cs → cs' ≠ [] → resolve stk (cs ++ cs') = resolve (rev cs ++ stk) cs'.
Proof.
  revert stk. induction cs as [|c cs IH]; intros stk Hn Hne; [done|].
  apply not_elem_of_cons in Hn as [Hc Hn].
  transitivity (resolve (c :: stk) (cs ++ cs')).
  - assert (cs ++ cs' ≠ []) as Hx by (by destruct cs). simpl.
    destruct (cs ++ cs'); [done|]. by rewrite decide_False by congruence.
  - rewrite IH by done. simpl. by rewrite <- app_assoc.
Qed.

Lemma dot_slash path :
  (2 <=? length path) && ceqb (cget path 0) "." && ceqb (cget path 1) "/" = str_startswith "./"%cs path.
Proof.
  apply eq_iff_eq_true. rewrite str_startswith_spec. btest. rewrite Nat.leb_le. split.
  - intros [[Hl H0] H1]. destruct path as [|x [|y path]]; simpl in *; try lia.
    unfold cget in *. simpl in *. subst. by exists path.
  - intros [k ->]. simpl. split_and!; [lia|done|done].
Qed.

(** Absolute names: [dcc_abspath] of a name that fits its buffer is the
    name, after the working directory if it is relative, with every component
    that is followed by ".." removed together with it; the root is its own
    parent, and a final ".." stays. *)
Lemma abspath_resolves (cwd path : cstr) :
  ".."%cs ∉ split_on is_slash cwd →
  (if ceqb (cget path 0) "/" then length path < MAXPATHLEN
   else length cwd + 1 + length path < MAXPATHLEN) →
  dcc_abspath (Some cwd) path 0 =
    Ok (join (resolve []
      (split_on is_slash
        (if ceqb (cget path 0) "/" then path
         else cwd ++ "/"%char :: (if str_startswith "./"%cs path then drop 2 path else path))))).
Proof.
  intros Hcwd. unfold dcc_abspath. change (0 <=? 0)%Z with true. cbn iota. rewrite dot_slash.
  destruct (ceqb (cget path 0) "/") eqn:E; intros Hlen; btest.
  - destruct path as [|c path]; [done|]. change (cget (c :: path) 0) with c in E. subst c.
    replace (str_startswith "./"%cs ("/"%char :: path)) with false
      by (symmetry; apply str_startswith_false; by intros [k Hk]).
    rewrite decide_False by (simpl in *; lia).
    assert (split_on is_slash ("/"%char :: path) = [[]] ++ split_on is_slash path) as -> by done.
    rewrite (resolve_app [[]] _ []); [|by rewrite list_elem_of_singleton|apply split_on_ne].
    pose proof (join_split path) as Hj.
    rewrite <- (abspath_loop_resolve _ (S (0 + length ("/"%char :: path))) [[]] 0); try done.
    + by cbn [J rev app join_with]; rewrite Hj.
    + apply split_on_ne.
    + by repeat constructor; apply not_elem_of_nil.
    + apply split_no_slash.
    + apply nodd_slash.
    + cbn [J rev app join_with]. rewrite Hj. simpl. lia.
  - set (path' := if str_startswith "./"%cs path then drop 2 path else path).
    assert (length path' ≤ length path) as Hl.
    { unfold path'. destruct (str_startswith _ _); [rewrite length_drop|]; lia. }
    rewrite length_app. change (length "/"%cs) with 1. rewrite decide_False by lia.
    rewrite split_on_app by done. rewrite resolve_app by (done || apply split_on_ne). rewrite app_nil_r.
    assert (J (rev (split_on is_slash cwd)) = cwd) as HJ by (unfold J; rewrite rev_involutive; apply join_split).
    rewrite Nat.add_sub. rewrite <- app_assoc. change ("/"%cs ++ path') with ("/"%char :: path').
    rewrite <- (abspath_loop_resolve _ (S (length cwd + 1 + length path')) (rev (split_on is_slash cwd)) (length cwd)).
    + by rewrite HJ, join_split.
    + apply split_on_ne.
    + intros Hr%(f_equal length). rewrite length_rev, split_on_length in Hr. done.
    + apply Forall_rev, split_no_slash.
    + apply split_no_slash.
    + by rewrite HJ.
    + rewrite HJ, drop_ge by lia. apply nodd_slash.
    + rewrite HJ, join_split, length_app. simpl. lia.
Qed.

(** ** The search path *)

(** The first directory of a search path, and what follows it. *)
Definition next_dir (p : cstr) : cstr * cstr :=
  match strchr p ":" with
  | Some len => (take len p, drop (S len) p)
  | None => (p, [])
  end.

Definition dcc_set_path (newpath : cstr) : M world unit :=
  do! malloc_or EXIT_OUT_OF_MEMORY;
  putenv "PATH"%cs newpath.

(** The loop of [dcc_trim_path]; [len], an unsigned number, is never below 0, so
    a failed [readlink] is not noticed, and a link that fills the buffer leaves
    no room for the terminator. *)
Fixpoint path_loop (fuel : nat) (compiler_name p : cstr) (newpath : option cstr) : M world (option cstr) :=
  match fuel, p with
  | _, [] => ret newpath
  | 0, _ => ub
  | S fuel, _ =>
      let '(dir, n) := next_dir p in
      let buf := dir ++ "/"%cs ++ compiler_name in
      let! sb := sys_stat buf in
      match sb with
      | inr _ => path_loop fuel compiler_name n newpath
      | inl (NLink _) =>
          let! link := sys_readlink buf MAXPATHLEN in
          match link with
          | inr _ => ub
          | inl [] => path_loop fuel compiler_name n newpath
          | inl linkbuf =>
              if decide (length linkbuf < MAXPATHLEN) then
                if bool_decide (is_Some (strstr linkbuf "distcc"%cs))
                then path_loop fuel compiler_name n (Some n)
                else path_loop fuel compiler_name n newpath
              else ub
          end
      | inl _ => ret newpath
      end
  end.

Definition dcc_trim_path (compiler_name : cstr) : M world unit :=
  let! envpath := getenv "PATH"%cs in
  match envpath with
  | None => ret ()
  | Some envpath =>
      do! malloc_or EXIT_OUT_OF_MEMORY;
      let! newpath := path_loop (S (length envpath)) compiler_name envpath None in
      match newpath with
      | Some newpath => dcc_set_path newpath
      | None => ret ()
      end
  end.

(** ** climasq.c *)

(** [access(p, X_OK)]: nothing tells programs from other names here. *)
Definition sys_access_x (p : cstr) : M world (unit + errno) :=
  fs_call (let! f := lookup_file p in
           ret (match f with Some _ => inl () | None => inr ENOENT end)).

(** What follows the directory we were found in; empty when there is none. *)
Fixpoint masq_loop (fuel : nat) (findpath : option cstr) (progname p : cstr) : M world cstr :=
  match fuel, p with
  | _, [] => ret []
  | 0, _ => ub
  | S fuel, _ =>
      let '(dir, n) := next_dir p in
      match findpath with
      | Some findpath => if streq dir findpath then ret n else masq_loop fuel (Some findpath) progname n
      | None =>
          let! r := sys_access_x (dir ++ "/"%cs ++ progname) in
          match r with
          | inr _ => masq_loop fuel findpath progname n
          | inl _ => ret n
          end
      end
  end.

(** [progname] is the part of [argv0] after [dirlen] characters; [None] when the
    answer is left as it was. *)
Definition dcc_support_masquerade (cwd : option cstr) (argv0 : cstr) (dirlen : nat) : M world (option bool) :=
  let progname := drop dirlen argv0 in
  let! envpath := getenv "PATH"%cs in
  match envpath with
  | None => ret None
  | Some envpath =>
      do! malloc_or EXIT_OUT_OF_MEMORY;
      let! findpath :=
        (if decide (dirlen = 0) then ret None
         else let! f := throw (dcc_abspath cwd argv0 (Z.of_nat dirlen - 1)) in ret (Some f)) in
      let! p := masq_loop (S (length envpath)) findpath progname envpath in
      match p with
      | [] => ret (Some false)
      | _ => do! dcc_set_path p; ret (Some true)
      end
  end.

(** *** The same on lists of directories *)

Definition dirs (p : cstr) : list cstr := split_on (λ c, ceqb c ":") p.

Lemma split_on_none p s : (∀ c, c ∈ s → p c = false) → split_on p s = [s].
Proof.
  induction s as [|x s IH]; intros Hs; [done|]. simpl. rewrite Hs by set_solver. by rewrite IH by set_solver.
Qed.

Lemma next_dir_dirs p :
  dirs p = (next_dir p).1 :: (if strchr p ":" then dirs (next_dir p).2 else []) ∧
  (p ≠ [] → length (next_dir p).2 < length p) ∧
  (strchr p ":" = None → (next_dir p).2 = []).
Proof.
  assert (∀ a, ":"%char ∉ a → dirs a = [a]) as Hn.
  { intros a Ha. apply split_on_none. intros c Hc. apply ceqb_false. by intros ->. }
  unfold next_dir. destruct (strchr p ":") as [i|] eqn:E; cbn [fst snd]; split_and!; try done.
  - apply strchr_Some in E as (a & b & -> & Ha & ->). unfold dirs. rewrite split_on_app by done.
    fold (dirs a) (dirs b). rewrite Hn by done. rewrite take_app_length.
    by rewrite (drop_app_ge a) by lia; replace (S (length a) - length a) with 1 by lia.
  - intros Hp. rewrite length_drop. destruct p; simpl in *; [done|lia].
  - by apply Hn, strchr_None.
  - intros Hp. destruct p; simpl; [done|lia].
Qed.

(** A search path that is not empty: its first directory, and the others. *)
Lemma next_dir_cons p dir n :
  p ≠ [] → next_dir p = (dir, n) →
  ∃ ds, dirs p = dir :: ds ∧ dir :: ds ≠ [[]] ∧ join_with ":" ds = n ∧ length n < length p ∧
    (ds = dirs n ∨ ds = [] ∧ dirs n = [[]]).
Proof.
  intros Hp En. destruct (next_dir_dirs p) as (Hd & Hl & Hnone). rewrite En in *. cbn [fst snd] in *.
  eexists. split; [exact Hd|]. destruct (strchr p ":") as [i|] eqn:Ec; split_and!; auto.
  - intros E. injection E as _ E. by apply split_on_ne in E.
  - apply join_split_with.
  - intros E. injection E as ->. unfold next_dir in En. rewrite Ec in En. by injection En.
  - by rewrite Hnone.
  - right. by rewrite Hnone.
Qed.

(** What is kept of a search path: the directories after the last one, among
    those before the first real compiler, that holds a link to distcc; nothing
    changes when there is none.  An empty directory at the end is not looked
    at. *)
Fixpoint trim_spec (files : gmap cstr node) (name : cstr) (ds : list cstr) : option (list cstr) :=
  match ds with
  | [] => None
  | d :: ds' =>
      if decide (ds = [[]]) then None
      else match files !! (d ++ "/"%cs ++ name) with
           | None => trim_spec files name ds'
           | Some (NLink t) =>
               match trim_spec files name ds' with
               | Some r => Some r
               | None => if bool_decide (is_Some (strstr t "distcc"%cs)) then Some ds' else None
               end
           | Some _ => None
           end
  end.

(** No link is too long for the buffer. *)
Definition short_links (files : gmap cstr node) : Prop :=
  map_Forall (λ _ n, match n with NLink t => length t < MAXPATHLEN | _ => True end) files.

Lemma sys_readlink_runs p n t c :
  c_files c !! p = Some (NLink t) → runs (sys_readlink p n) (Ok (inl (take n t))) c c.
Proof.
  intros Hp. unfold sys_readlink, lookup_file. apply runs_fs_call.
  eapply runs_bind; [apply (runs_gets (λ c, c_files c !! p))|]. rewrite Hp. apply runs_ret.
Qed.

Lemma path_loop_runs fuel name p np c :
  short_links (c_files c) → length p < fuel →
  runs (path_loop fuel name p np)
    (Ok (match trim_spec (c_files c) name (dirs p) with
         | Some ds => Some (join_with ":" ds)
         | None => np
         end)) c c.
Proof.
  intros Hsl. revert p np. induction fuel as [|fuel IH]; intros p np Hf; [lia|].
  destruct (decide (p = [])) as [->|Hp]; [apply runs_ret|].
  destruct (next_dir p) as [dir n] eqn:En.
  destruct (next_dir_cons p dir n Hp En) as (ds & Hd & Hne & Hj & Hl & Hds).
  assert (path_loop (S fuel) name p np = let buf := dir ++ "/"%cs ++ name in
      let! sb := sys_stat buf in
      match sb with
      | inr _ => path_loop fuel name n np
      | inl (NLink _) =>
          let! link := sys_readlink buf MAXPATHLEN in
          match link with
          | inr _ => ub
          | inl [] => path_loop fuel name n np
          | inl linkbuf =>
              if decide (length linkbuf < MAXPATHLEN) then
                if bool_decide (is_Some (strstr linkbuf "distcc"%cs))
                then path_loop fuel name n (Some n)
                else path_loop fuel name n np
              else ub
          end
      | inl _ => ret np
      end) as ->.
  { destruct p; [done|]. cbn [path_loop]. by rewrite En. }
  assert (trim_spec (c_files c) name ds = trim_spec (c_files c) name (dirs n)) as Ht
    by (by destruct Hds as [->|[-> ->]]).
  cbn zeta. rewrite Hd. cbn [trim_spec]. rewrite decide_False by done.
  rewrite Ht. eapply runs_bind; [apply runs_sys_stat|].
  destruct (c_files c !! (dir ++ "/"%cs ++ name)) as [[data| |t]|] eqn:Ef.
  - apply runs_ret.
  - apply runs_ret.
  - eapply runs_bind; [by apply sys_readlink_runs|].
    pose proof (Hsl _ _ Ef) as Hlen. simpl in Hlen. rewrite take_ge by lia.
    destruct t as [|x t].
    + specialize (IH n np ltac:(lia)).
      destruct (trim_spec (c_files c) name (dirs n)); [done|]. by replace (bool_decide _) with false.
    + rewrite decide_True by done. case_bool_decide.
      * specialize (IH n (Some n) ltac:(lia)). destruct (trim_spec (c_files c) name (dirs n)); [done|]. by rewrite Hj.
      * specialize (IH n np ltac:(lia)). by destruct (trim_spec (c_files c) name (dirs n)).
  - apply IH. lia.
Qed.

(** [dcc_trim_path] leaves of the search path what comes after the last
    directory, up to the first real compiler of that name, that masquerades
    distcc as the compiler, and changes nothing else. *)
Lemma trim_path_spec (name path : cstr) (w : world) :
  io_ok w → short_links (c_files (w_core w)) → w_env w !! "PATH"%cs = Some path →
  ∃ w', dcc_trim_path name w = (Ok (), w') ∧ w_core w' = w_core w ∧ io_ok w' ∧
    w_env w' = match trim_spec (c_files (w_core w)) name (dirs path) with
               | Some ds => <["PATH"%cs := join_with ":" ds]> (w_env w)
               | None => w_env w
               end.
Proof.
  intros Hio Hsl Hp. unfold dcc_trim_path.
  rewrite (bind_Ok _ _ _ (Some path) w) by (unfold getenv, gets; by rewrite Hp).
  rewrite (bind_Ok _ _ _ () w) by apply malloc_or_ok, Hio.
  destruct (path_loop_runs (S (length path)) name path None (w_core w) Hsl (Nat.lt_succ_diag_r _) w eq_refl Hio)
    as (w1 & E1 & Hc1 & Hio1 & He1).
  rewrite (bind_Ok _ _ _ _ _ E1).
  destruct (trim_spec _ _ _) as [ds|]; [|by exists w1].
  unfold dcc_set_path. rewrite (bind_Ok _ _ _ () w1) by apply malloc_or_ok, Hio1.
  eexists. split; [done|]. cbn. rewrite He1. split_and!; [done| |done].
  destruct Hio1 as [? ? ? ? Ht]. constructor; try done.
  destruct Ht as [Ht|Ht]; [by left|right]. cbn. rewrite lookup_insert_ne by done. by rewrite He1 in Ht.
Qed.

(** ** Who finds the real compiler *)

(** The directories after the first one that satisfies [f]. *)
Fixpoint after_first (f : cstr → bool) (ds : list cstr) : list cstr :=
  match ds with
  | [] => []
  | d :: ds' => if decide (ds = [[]]) then [] else if f d then ds' else after_first f ds'
  end.

Definition masq_here (files : gmap cstr node) (findpath : option cstr) (progname d : cstr) : bool :=
  match findpath with
  | Some f => streq d f
  | None => bool_decide (is_Some (files !! (d ++ "/"%cs ++ progname)))
  end.

Lemma sys_access_x_runs p c :
  runs (sys_access_x p) (Ok (match c_files c !! p with Some _ => inl () | None => inr ENOENT end)) c c.
Proof.
  unfold sys_access_x, lookup_file. apply runs_fs_call.
  eapply runs_bind; [apply (runs_gets (λ c, c_files c !! p))|]. apply runs_ret.
Qed.

Lemma masq_loop_runs fuel find prog p c :
  length p < fuel →
  runs (masq_loop fuel find prog p)
    (Ok (join_with ":" (after_first (masq_here (c_files c) find prog) (dirs p)))) c c.
Proof.
  revert p. induction fuel as [|fuel IH]; intros p Hf; [lia|].
  destruct (decide (p = [])) as [->|Hp]; [apply runs_ret|].
  destruct (next_dir p) as [dir n] eqn:En.
  destruct (next_dir_cons p dir n Hp En) as (ds & Hd & Hne & Hj & Hl & Hds).
  assert (masq_loop (S fuel) find prog p =
      match find with
      | Some findpath => if streq dir findpath then ret n else masq_loop fuel (Some findpath) prog n
      | None =>
          let! r := sys_access_x (dir ++ "/"%cs ++ prog) in
          match r with inr _ => masq_loop fuel find prog n | inl _ => ret n end
      end) as ->.
  { destruct p; [done|]. cbn [masq_loop]. by rewrite En. }
  assert (∀ f, after_first f ds = after_first f (dirs n)) as Ht by (intros f; by destruct Hds as [->|[-> ->]]).
  rewrite Hd. cbn [after_first]. rewrite decide_False by done.
  rewrite Ht. destruct find as [f|]; cbn [masq_here].
  - destruct (streq dir f); [rewrite Hj; apply runs_ret|]. apply IH. lia.
  - eapply runs_bind; [apply sys_access_x_runs|].
    destruct (c_files c !! (dir ++ "/"%cs ++ prog)).
    + rewrite bool_decide_eq_true_2 by by eexists. rewrite Hj. apply runs_ret.
    + rewrite bool_decide_eq_false_2 by by intros []. apply IH. lia.
Qed.

(** Masquerading: distcc started as a compiler leaves of the search path
    what follows the directory it was found in, the one named on the command
    line or else the first with a program of that name; if nothing follows, or
    there is no such directory, the path stays.  It tells the caller which. *)
Lemma support_masquerade_spec (cwd : option cstr) (argv0 path findpath : cstr) (dirlen : nat) (w : world) :
  io_ok w → w_env w !! "PATH"%cs = Some path →
  (dirlen ≠ 0 → dcc_abspath cwd argv0 (Z.of_nat dirlen - 1) = Ok findpath) →
  ∃ w', let rest := join_with ":" (after_first
            (masq_here (c_files (w_core w)) (if decide (dirlen = 0) then None else Some findpath)
               (drop dirlen argv0)) (dirs path)) in
    dcc_support_masquerade cwd argv0 dirlen w = (Ok (Some (negb (streq rest []))), w') ∧
    w_core w' = w_core w ∧
    w_env w' = if streq rest [] then w_env w else <["PATH"%cs := rest]> (w_env w).
Proof.
  intros Hio Hp Hf. unfold dcc_support_masquerade.
  rewrite (bind_Ok _ _ _ (Some path) w) by (unfold getenv, gets; by rewrite Hp).
  rewrite (bind_Ok _ _ _ () w) by apply malloc_or_ok, Hio.
  set (find := if decide (dirlen = 0) then None else Some findpath).
  rewrite (bind_Ok _ _ _ find w).
  2: { unfold find. case_decide; [done|]. rewrite Hf by done. done. }
  destruct (masq_loop_runs (S (length path)) find (drop dirlen argv0) path (w_core w) (Nat.lt_succ_diag_r _) w eq_refl Hio)
    as (w1 & E1 & Hc1 & Hio1 & He1).
  cbn zeta. rewrite (bind_Ok _ _ _ _ _ E1).
  destruct (join_with _ _) as [|x rest] eqn:E; [by exists w1|].
  unfold dcc_set_path.
  rewrite (bind_Ok (do! malloc_or EXIT_OUT_OF_MEMORY; putenv "PATH"%cs (x :: rest)) _ w1 ()
             (set_env (<["PATH"%cs := x :: rest]> (w_env w1)) w1)).
  2: { by rewrite (bind_Ok _ _ _ () w1) by apply malloc_or_ok, Hio1. }
  eexists. split; [done|]. cbn. by rewrite He1.
Qed.

(** ** Witnesses *)

Lemma abspath_resolves_witness :
  ".."%cs ∉ split_on is_slash "/a/b"%cs ∧
  dcc_abspath (Some "/a/b"%cs) "./../c"%cs 0 =
    Ok (join (resolve [] (split_on is_slash ("/a/b"%cs ++ "/"%char :: "../c"%cs)))).
Proof.
  assert (".."%cs ∉ split_on is_slash "/a/b"%cs) as H by by apply (bool_decide_unpack _).
  split; [exact H|]. apply (abspath_resolves "/a/b"%cs "./../c"%cs H). apply (bool_decide_unpack _). by vm_compute.
Defined.

(** /usr/lib/distcc masquerades: its gcc is a link to distcc. *)
Definition ex_masq : world :=
  World (Core ∅ {["/m/gcc"%cs := NLink "../bin/distcc"%cs; "/bin/gcc"%cs := NFile []; "/m"%cs := NDir]} [] 0
           DCC_PHASE_STARTUP)
    [] [] [] [] 0 {["PATH"%cs := "/m:/bin"%cs]}.

Lemma ex_masq_ok : io_ok ex_masq.
Proof. by constructor; [..|right]. Qed.

Lemma trim_path_spec_witness :
  ∃ w', dcc_trim_path "gcc"%cs ex_masq = (Ok (), w') ∧ w_core w' = w_core ex_masq ∧ io_ok w' ∧
    w_env w' = match trim_spec (c_files (w_core ex_masq)) "gcc"%cs (dirs "/m:/bin"%cs) with
               | Some ds => <["PATH"%cs := join_with ":" ds]> (w_env ex_masq)
               | None => w_env ex_masq
               end.
Proof.
  apply (trim_path_spec "gcc"%cs "/m:/bin"%cs ex_masq); [apply ex_masq_ok| |reflexivity].
  unfold short_links, ex_masq. cbn [w_core c_files]. repeat apply map_Forall_insert_2.
  1: unfold MAXPATHLEN; simpl; lia. all: done || apply map_Forall_empty.
Defined.

Lemma support_masquerade_spec_witness :
  ∃ w', let rest := join_with ":" (after_first
            (masq_here (c_files (w_core ex_masq)) None "gcc"%cs) (dirs "/m:/bin"%cs)) in
    dcc_support_masquerade None "gcc"%cs 0 ex_masq = (Ok (Some (negb (streq rest []))), w') ∧
    w_core w' = w_core ex_masq ∧
    w_env w' = if streq rest [] then w_env ex_masq else <["PATH"%cs := rest]> (w_env ex_masq).
Proof. by apply (support_masquerade_spec None "gcc"%cs "/m:/bin"%cs [] 0 ex_masq ex_masq_ok). Defined.
