(* ===== verification/Bulk.v ===== *)
(** * bulk.c, compress.c: sending and receiving files

    The compression library is a parameter: the class [Lzo] has its two
    functions, and [LzoLaws] what its documentation promises of them. *)

From S2P Require Import Prelude CLib Util Filename World Io Rpc Tempfile.

Inductive dcc_compress := DCC_COMPRESS_NONE | DCC_COMPRESS_LZO1X | DCC_COMPRESS_INVALID.

#[export] Instance dcc_compress_eq_dec : EqDecision dcc_compress.
Proof. solve_decision. Defined.

Inductive lzo_result := LzoOk (out : cstr) | LzoOverrun | LzoError.

Class Lzo := {
  (** [lzo1x_1_compress]; [None] for an error *)
  lzo1x_1_compress : cstr → option cstr;
  (** [lzo1x_decompress_safe] into a buffer of the given size *)
  lzo1x_decompress_safe : cstr → Z → lzo_result
}.

Class LzoLaws `{Lzo} := {
  lzo_bound x y : lzo1x_1_compress x = Some y →
    (Z.of_nat (length y) ≤ Z.of_nat (length x) + Z.of_nat (length x) / 64 + 16 + 3)%Z;
  lzo_nonempty x y : lzo1x_1_compress x = Some y → y ≠ [];
  lzo_inverse x y n : lzo1x_1_compress x = Some y → (Z.of_nat (length x) ≤ n)%Z →
    lzo1x_decompress_safe y n = LzoOk x;
  lzo_overrun x y n : lzo1x_1_compress x = Some y → (n < Z.of_nat (length x))%Z →
    lzo1x_decompress_safe y n = LzoOverrun
}.

Section Bulk.
Context {Cfg : Config} {LZO : Lzo}.

(** ** compress.c *)

Definition dcc_compress_lzo1x_alloc (in_buf : cstr) : M world cstr :=
  let in_len := Z.of_nat (length in_buf) in
  let out_size := (in_len + in_len / 64 + 16 + 3)%Z in
  do! malloc_or EXIT_OUT_OF_MEMORY;
  match lzo1x_1_compress in_buf with
  | None => fail EXIT_IO_ERROR
  | Some out => if decide (Z.of_nat (length out) ≤ out_size)%Z then ret out else ub
  end.

Definition dcc_compress_file_lzo1x (in_fd in_len : nat) : M world cstr :=
  do! malloc_or EXIT_OUT_OF_MEMORY;
  let! in_buf := dcc_readx in_fd in_len in
  dcc_compress_lzo1x_alloc in_buf.

(** [size_t] is 64 bits wide. *)
Fixpoint decompress_loop (fuel : nat) (out_fd : nat) (in_buf : cstr) (out_size : Z) : M world unit :=
  match fuel with
  | 0 => ub
  | S fuel =>
      do! malloc_or EXIT_OUT_OF_MEMORY;
      match lzo1x_decompress_safe in_buf out_size with
      | LzoOk out => dcc_writex out_fd out
      | LzoOverrun => decompress_loop fuel out_fd in_buf (u64 (out_size * 2))
      | LzoError => fail EXIT_IO_ERROR
      end
  end.

(** [8 * in_len] with [unsigned in_len]: 32-bit arithmetic. *)
Definition decompress_size (in_len : Z) : Z := u32 (8 * in_len).

(** 64 doublings take any nonzero size past 64 bits. *)
Definition dcc_r_bulk_lzo1x (out_fd in_fd : nat) (in_len : Z) : M world unit :=
  if decide (in_len = 0%Z) then ret ()
  else
    do! malloc_or EXIT_OUT_OF_MEMORY;
    let! in_buf := dcc_readx in_fd (Z.to_nat in_len) in
    decompress_loop 65 out_fd in_buf (decompress_size in_len).

(** pump.c *)
Definition dcc_r_bulk (ofd ifd : nat) (f_size : Z) (compression : dcc_compress) : M world unit :=
  if decide (f_size = 0%Z) then ret ()
  else
    match compression with
    | DCC_COMPRESS_NONE => dcc_pump_readwrite ofd ifd (Z.to_nat f_size)
    | DCC_COMPRESS_LZO1X => dcc_r_bulk_lzo1x ofd ifd f_size
    | DCC_COMPRESS_INVALID => fail EXIT_PROTOCOL_ERROR
    end.

(** ** bulk.c *)

(** A missing file is no error: there is just no descriptor, and no size. *)
Definition dcc_open_read (fname : cstr) : M world (option nat * nat) :=
  let! ifd := sys_open_read fname in
  match ifd with
  | inr ENOENT => ret (None, 0)
  | inr _ => fail EXIT_IO_ERROR
  | inl ifd =>
      let! fsize := sys_fstat ifd in
      match fsize with
      | inr _ => do! attempt (dcc_close ifd); fail EXIT_IO_ERROR
      | inl fsize => ret (Some ifd, fsize)
      end
  end.

Definition dcc_x_file_lzo1x (out_fd in_fd : nat) (token : cstr) (in_len : Z) : M world unit :=
  if decide (in_len = 0%Z) then dcc_x_token_int out_fd token 0
  else
    let! out_buf := dcc_compress_file_lzo1x in_fd (Z.to_nat in_len) in
    do! dcc_x_token_int out_fd token (Z.of_nat (length out_buf));
    dcc_writex out_fd out_buf.

(** The size of the file.  What the transfer of the body returns is dropped. *)
Definition dcc_x_file (ofd : nat) (fname token : cstr) (compression : dcc_compress) : M world nat :=
  let! r := attempt (dcc_open_read fname) in
  match r with
  | inr _ => fail EXIT_IO_ERROR
  | inl (None, _) => fail EXIT_IO_ERROR
  | inl (Some ifd, f_size) =>
      match compression with
      | DCC_COMPRESS_NONE =>
          let! r := attempt (dcc_x_token_int ofd token (Z.of_nat f_size)) in
          match r with
          | inr ret => do! attempt (dcc_close ifd); fail ret
          | inl _ =>
              do! attempt (if HAVE_SENDFILE then dcc_pump_sendfile ofd ifd f_size
                           else dcc_pump_readwrite ofd ifd f_size);
              do! attempt (dcc_close ifd);
              ret f_size
          end
      | DCC_COMPRESS_LZO1X =>
          do! attempt (dcc_x_file_lzo1x ofd ifd token (u32 (Z.of_nat f_size)));
          do! attempt (dcc_close ifd);
          ret f_size
      | DCC_COMPRESS_INVALID => fail EXIT_PROTOCOL_ERROR
      end
  end.

Definition node_size (n : node) : nat := match n with NFile data => length data | _ => 0 end.

Definition dcc_r_file (ifd : nat) (filename : cstr) (len : Z) (compr : dcc_compress) : M world unit :=
  let! r := attempt (dcc_mk_tmp_ancestor_dirs filename) in
  match r with
  | inr _ => fail EXIT_IO_ERROR
  | inl _ =>
      do! (let! s := sys_stat filename in
           match s with
           | inl n => if decide (node_size n ≠ 0)
                      then let! _ := sys_unlink filename in ret () else ret ()
           | inr _ => ret ()
           end);
      let! ofd := sys_open_trunc filename in
      match ofd with
      | inr _ => fail EXIT_IO_ERROR
      | inl ofd =>
          let! r := attempt (if (0 <? len)%Z then dcc_r_bulk ofd ifd len compr else ret ()) in
          let! close_ret := attempt (dcc_close ofd) in
          match r, close_ret with
          | inl _, inl _ => ret ()
          | _, _ => let! _ := sys_unlink filename in fail EXIT_IO_ERROR
          end
      end
  end.

(** The timing is only logged. *)
Definition dcc_r_file_timed (ifd : nat) (fname : cstr) (size : Z) (compr : dcc_compress) : M world unit :=
  dcc_r_file ifd fname size compr.

(** ** Compressed data *)

Context {LAWS : LzoLaws}.

Lemma decompress_loop_ok fuel out_fd d x y n c :
  lzo1x_1_compress x = Some y → c_fds c !! out_fd = Some d →
  (0 < n)%Z → (Z.of_nat (length x) < 2 ^ 63)%Z → (n < 2 ^ 64)%Z →
  (Z.of_nat (length x) ≤ n * 2 ^ (Z.of_nat fuel - 1))%Z → 0 < fuel →
  runs (decompress_loop fuel out_fd y n) (Ok ()) c (put out_fd d x c).
Proof.
  intros Hy Hd. revert n. induction fuel as [|fuel IH]; intros n Hn Hx Hn64 Hf H0; [lia|].
  cbn [decompress_loop]. eapply runs_bind; [apply runs_malloc_or|].
  destruct (decide (Z.of_nat (length x) ≤ n)%Z) as [Hle|Hgt].
  - rewrite (lzo_inverse x y) by done. by apply writex_runs.
  - rewrite (lzo_overrun x y) by (done || lia).
    assert (u64 (n * 2) = (n * 2)%Z) as -> by (apply Z.mod_small; lia).
    destruct fuel as [|fuel]; [simpl in Hf; lia|].
    apply IH; [lia..| |lia].
    replace (Z.of_nat (S (S fuel)) - 1)%Z with (Z.of_nat (S fuel) - 1 + 1)%Z in Hf by lia.
    rewrite Z.pow_add_r in Hf by lia. lia.
Qed.

(** A compressed length that [8 * in_len] can hold. *)
Definition lzo_fits (y : cstr) : Prop := (0 < Z.of_nat (length y) < 2 ^ 29)%Z.

Lemma r_bulk_lzo1x_runs ofd ifd od id x y rest c :
  lzo1x_1_compress x = Some y → lzo_fits y → (Z.of_nat (length x) < 2 ^ 63)%Z →
  ofd ≠ ifd → c_fds c !! ofd = Some od → c_fds c !! ifd = Some id → fd_in id = y ++ rest →
  runs (dcc_r_bulk_lzo1x ofd ifd (Z.of_nat (length y))) (Ok ()) c (moved ofd ifd od id x rest c).
Proof.
  intros Hy [Hl0 Hl] Hx Hne Ho Hi Hin. unfold dcc_r_bulk_lzo1x. rewrite decide_False by lia.
  eapply runs_bind; [apply runs_malloc_or|]. rewrite Nat2Z.id.
  eapply runs_bind; [by apply readx_runs|].
  unfold decompress_size. rewrite u32_id by lia.
  apply decompress_loop_ok; try done; [|lia..].
  simpl. by rewrite lookup_insert_ne.
Qed.

(** For an announced compressed length of 2^29 the buffer size wraps
    around to 0 and stays 0 when it is doubled: as long as the data needs room
    the loop never ends, whatever its fuel. *)
Lemma r_bulk_lzo1x_wraps (out_fd : nat) (in_buf : cstr) (w : world) :
  mem_ok w → lzo1x_decompress_safe in_buf 0 = LzoOverrun →
  decompress_size (2 ^ 29) = 0%Z ∧
  ∀ fuel, decompress_loop fuel out_fd in_buf (decompress_size (2 ^ 29)) w = (Undef, w).
Proof.
  intros Hm H0. split; [done|]. change (decompress_size (2 ^ 29)) with 0%Z.
  induction fuel as [|fuel IH]; [done|]. cbn [decompress_loop].
  rewrite (bind_Ok _ _ _ () w) by by apply malloc_or_ok. by rewrite H0.
Qed.

(** ** Sending a file *)

(** What goes over the wire for a file's contents. *)
Definition wire_body (compr : dcc_compress) (data body : cstr) : Prop :=
  match compr with
  | DCC_COMPRESS_NONE => body = data
  | DCC_COMPRESS_LZO1X =>
      if decide (data = []) then body = []
      else lzo1x_1_compress data = Some body ∧ lzo_fits body
  | DCC_COMPRESS_INVALID => False
  end.

Definition file_bytes (token body : cstr) : cstr :=
  token ++ hex8 (Z.of_nat (length body)) ++ body.

(** The core with one more open descriptor [n]. *)
Definition opened (n : nat) (x : fdesc) (c : core) : core := set_fds (<[n := x]> (c_fds c)) c.

Lemma close_opened fd n d x bs c :
  c_fds c !! n = None → fd ≠ n →
  runs (sys_close n) (Ok (inl ())) (put fd d bs (opened n x c)) (put fd d bs c).
Proof.
  intros Hn Hne.
  replace (put fd d bs c) with
    (set_fds (delete n (c_fds (put fd d bs (opened n x c)))) (put fd d bs (opened n x c))).
  - eapply close_runs. simpl. rewrite lookup_insert_ne by done. apply lookup_insert_eq.
  - unfold put, opened, set_files, set_fds. simpl.
    by rewrite delete_insert_ne, delete_insert_id by done.
Qed.

Lemma dcc_close_opened fd n d x bs c :
  c_fds c !! n = None → fd ≠ n →
  runs (dcc_close n) (Ok ()) (put fd d bs (opened n x c)) (put fd d bs c).
Proof.
  intros Hn Hne. eapply runs_bind; [by apply close_opened|]. apply runs_ret.
Qed.

Lemma sys_open_read_runs fname data c :
  c_files c !! fname = Some (NFile data) →
  runs (sys_open_read fname) (Ok (inl (new_fd (c_fds c)))) c
    (opened (new_fd (c_fds c)) (Fd data [] None) c).
Proof.
  intros Hf. apply runs_fs_call. eapply runs_bind; [apply runs_lookup_file|]. rewrite Hf.
  eapply runs_bind; [apply runs_add_fd|]. apply runs_ret.
Qed.

Lemma open_read_runs fname data c :
  c_files c !! fname = Some (NFile data) →
  runs (dcc_open_read fname) (Ok (Some (new_fd (c_fds c)), length data)) c
    (opened (new_fd (c_fds c)) (Fd data [] None) c).
Proof.
  intros Hf. eapply runs_bind; [by apply sys_open_read_runs|]. cbn beta iota.
  eapply runs_bind.
  { apply runs_fs_call. eapply runs_bind; [apply (runs_gets (λ c, c_fds c !! new_fd _))|].
    simpl. rewrite lookup_insert_eq. apply runs_ret. }
  apply runs_ret.
Qed.

Lemma sendfile_runs ofd ifd od id bs rest c :
  ofd ≠ ifd → c_fds c !! ofd = Some od → c_fds c !! ifd = Some id → fd_in id = bs ++ rest →
  runs (dcc_pump_sendfile ofd ifd (length bs)) (Ok ()) c (put ofd od bs c).
Proof. intros ???? w <- Hw. by eapply sendfile_loop_ok. Qed.

(** After the body the descriptor of the file is in some state [x]. *)
Lemma x_body_runs fd d n data c :
  fd ≠ n → c_fds c !! fd = Some d → c_fds c !! n = None →
  ∃ x, runs (if HAVE_SENDFILE then dcc_pump_sendfile fd n (length data)
             else dcc_pump_readwrite fd n (length data)) (Ok ())
         (opened n (Fd data [] None) c) (put fd d data (opened n x c)).
Proof.
  intros Hne Hd Hn. destruct HAVE_SENDFILE.
  - eexists. apply (sendfile_runs fd n d (Fd data [] None) data []); [done|..].
    + simpl. by rewrite lookup_insert_ne.
    + apply lookup_insert_eq.
    + simpl. by rewrite app_nil_r.
  - exists (Fd [] [] None).
    pose proof (pump_readwrite_runs fd n d (Fd data [] None) data []
      (opened n (Fd data [] None) c) Hne) as H.
    unfold moved, opened in *. simpl in H. rewrite insert_insert_eq in H. apply H.
    + by rewrite lookup_insert_ne.
    + apply lookup_insert_eq.
    + by rewrite app_nil_r.
Qed.

Lemma compress_file_runs n data body c :
  lzo1x_1_compress data = Some body → c_fds c !! n = None →
  runs (dcc_compress_file_lzo1x n (length data)) (Ok body)
    (opened n (Fd data [] None) c) (opened n (Fd [] [] None) c).
Proof.
  intros Hb Hn. eapply runs_bind; [apply runs_malloc_or|].
  eapply runs_bind.
  { apply readx_runs; [apply lookup_insert_eq|]. simpl. by rewrite app_nil_r. }
  unfold dcc_compress_lzo1x_alloc. eapply runs_bind; [apply runs_malloc_or|].
  rewrite Hb, decide_True by by apply lzo_bound.
  unfold opened. simpl. rewrite insert_insert_eq. apply runs_ret.
Qed.

Lemma put_opened_lookup fd n d x bs c :
  fd ≠ n → c_fds (put fd d bs (opened n x c)) !! fd =
    Some (Fd (fd_in d) (fd_out d ++ bs) (fd_file d)).
Proof. intros. apply put_lookup. Qed.

Lemma opened_lookup fd n d x c :
  fd ≠ n → c_fds c !! fd = Some d → c_fds (opened n x c) !! fd = Some d.
Proof. intros. simpl. by rewrite lookup_insert_ne. Qed.

Lemma put_opened fd n d x bs c :
  fd ≠ n → put fd d bs (opened n x c) = opened n x (put fd d bs c).
Proof.
  intros Hne. unfold put, opened, set_files, set_fds. simpl. by rewrite insert_insert_ne.
Qed.

Lemma put_new_fd fd d bs c :
  c_fds c !! fd = Some d → c_fds (put fd d bs c) !! new_fd (c_fds c) = None.
Proof.
  intros Hd. simpl. rewrite lookup_insert_ne; [apply new_fd_fresh|].
  intros ->. by rewrite new_fd_fresh in Hd.
Qed.

Lemma new_fd_ne fd d c : c_fds c !! fd = Some d → fd ≠ new_fd (c_fds c).
Proof. intros Hd ->. by rewrite new_fd_fresh in Hd. Qed.

Lemma x_file_lzo1x_runs fd d n token data body c :
  length token = 4 → (Z.of_nat (length data) < 2 ^ 32)%Z →
  wire_body DCC_COMPRESS_LZO1X data body →
  fd ≠ n → c_fds c !! fd = Some d → c_fds c !! n = None →
  ∃ x, runs (dcc_x_file_lzo1x fd n token (u32 (Z.of_nat (length data)))) (Ok ())
         (opened n (Fd data [] None) c) (put fd d (file_bytes token body) (opened n x c)).
Proof.
  intros Ht Hl Hb Hne Hd Hn. unfold dcc_x_file_lzo1x. rewrite u32_id by lia. simpl in Hb.
  destruct (decide (data = [])) as [->|Hnil].
  - subst body. eexists. simpl. apply (x_token_int_sends token 0 Ht). by apply opened_lookup.
  - destruct Hb as [Hb [Hb0 Hb29]]. exists (Fd [] [] None).
    rewrite decide_False by (destruct data; [done|simpl; lia]). rewrite Nat2Z.id.
    eapply runs_bind; [by apply compress_file_runs|].
    eapply runs_bind; [by apply (x_token_int_sends token _ Ht), opened_lookup|].
    rewrite u32_id by lia. unfold file_bytes. rewrite app_assoc.
    rewrite <- (put_put fd d _ (token ++ hex8 (Z.of_nat (length body))) body) by done.
    apply writex_runs, put_lookup.
Qed.

(** The whole of [dcc_x_file]: token, length and body, and nothing left open. *)
Lemma x_file_runs fd d fname token compr data body c :
  length token = 4 → (Z.of_nat (length data) < 2 ^ 32)%Z → wire_body compr data body →
  c_fds c !! fd = Some d → c_files c !! fname = Some (NFile data) →
  runs (dcc_x_file fd fname token compr) (Ok (length data)) c (put fd d (file_bytes token body) c).
Proof.
  intros Ht Hl Hb Hd Hf. set (n := new_fd (c_fds c)).
  assert (fd ≠ n) as Hne by by eapply new_fd_ne.
  assert (c_fds c !! n = None) as Hn by apply new_fd_fresh.
  unfold dcc_x_file. eapply runs_bind; [by apply runs_attempt_Ok, open_read_runs|].
  fold n. cbn beta iota. destruct compr; [..|done].
  - simpl in Hb. subst body. eapply runs_bind.
    { apply runs_attempt_Ok. by apply (x_token_int_sends token _ Ht), opened_lookup. }
    rewrite u32_id by lia. cbn beta iota. rewrite put_opened by done.
    set (c1 := put fd d (token ++ hex8 (Z.of_nat (length data))) c).
    destruct (x_body_runs fd (Fd (fd_in d) (fd_out d ++ token ++ hex8 (Z.of_nat (length data)))
      (fd_file d)) n data c1 Hne) as [x Hx]; [apply put_lookup|by apply put_new_fd|].
    eapply runs_bind; [by apply runs_attempt_Ok|].
    eapply runs_bind; [apply runs_attempt_Ok, dcc_close_opened; [by apply put_new_fd|done]|].
    unfold c1. rewrite (put_put fd d) by done. unfold file_bytes. rewrite app_assoc. apply runs_ret.
  - destruct (x_file_lzo1x_runs fd d n token data body c) as [x Hx]; [done..|].
    eapply runs_bind; [apply runs_attempt_Ok; exact Hx|].
    eapply runs_bind; [by apply runs_attempt_Ok, dcc_close_opened|]. apply runs_ret.
Qed.

(** ** Receiving a file *)

(** The directory of [fname] exists and [fname] is a plain file or nothing. *)
Definition can_create (fname : cstr) (c : core) : Prop :=
  (dcc_truncate_to_dirname fname = [] ∨
   c_files c !! dcc_truncate_to_dirname fname = Some NDir) ∧
  match c_files c !! fname with Some NDir | Some (NLink _) => False | _ => True end.

Lemma mk_ancestors_runs fname c :
  dcc_truncate_to_dirname fname = [] ∨ c_files c !! dcc_truncate_to_dirname fname = Some NDir →
  runs (dcc_mk_tmp_ancestor_dirs fname) (Ok ()) c c.
Proof.
  intros Hd. unfold dcc_mk_tmp_ancestor_dirs. eapply runs_bind; [apply runs_malloc_or|].
  destruct (dcc_truncate_to_dirname fname) as [|a l] eqn:E; [apply runs_ret|].
  destruct Hd as [|Hd]; [done|].
  eapply runs_bind.
  { apply runs_attempt_Ok. unfold dcc_mk_tmpdir.
    eapply runs_bind; [apply runs_sys_stat|]. rewrite Hd. apply runs_ret. }
  apply runs_ret.
Qed.

Lemma open_trunc_runs p c :
  match c_files c !! p with Some NDir | Some (NLink _) => False | _ => True end →
  runs (sys_open_trunc p) (Ok (inl (new_fd (c_fds c)))) c
    (opened (new_fd (c_fds c)) (Fd [] [] (Some p)) (set_files (<[p := NFile []]> (c_files c)) c)).
Proof.
  intros Hp. apply runs_fs_call. eapply runs_bind; [apply runs_lookup_file|].
  destruct (c_files c !! p) as [[| |]|]; try done;
    (eapply runs_bind; [apply runs_modify_core|]; eapply runs_bind; [apply runs_add_fd|];
     apply runs_ret).
Qed.

(** The old contents are gone before the file is opened. *)
Lemma remove_old_runs filename c :
  match c_files c !! filename with Some NDir | Some (NLink _) => False | _ => True end →
  ∃ m, <[filename := NFile []]> m = <[filename := NFile []]> (c_files c) ∧
    match m !! filename with Some NDir | Some (NLink _) => False | _ => True end ∧
    runs (let! s := sys_stat filename in
          match s with
          | inl n => if decide (node_size n ≠ 0)
                     then let! _ := sys_unlink filename in ret () else ret ()
          | inr _ => ret ()
          end) (Ok ()) c (set_files m c).
Proof.
  intros Hf. destruct (c_files c !! filename) as [[data| |]|] eqn:E; try done.
  - destruct (decide (length data ≠ 0)) as [Hl|Hl].
    + exists (delete filename (c_files c)). split; [by rewrite insert_delete_eq|].
      split; [by rewrite lookup_delete_eq|].
      eapply runs_bind; [apply runs_sys_stat|]. rewrite E. simpl. rewrite decide_True by done.
      eapply runs_bind; [apply runs_sys_unlink|]. rewrite E. apply runs_ret.
    + exists (c_files c). split; [done|]. split; [by rewrite E|]. rewrite set_files_id.
      eapply runs_bind; [apply runs_sys_stat|]. rewrite E. simpl. rewrite decide_False by done.
      apply runs_ret.
  - exists (c_files c). split; [done|]. split; [by rewrite E|]. rewrite set_files_id.
    eapply runs_bind; [apply runs_sys_stat|]. rewrite E. apply runs_ret.
Qed.

Lemma r_bulk_runs ofd ifd od id compr data body rest c :
  wire_body compr data body → (Z.of_nat (length data) < 2 ^ 32)%Z →
  ofd ≠ ifd → c_fds c !! ofd = Some od → c_fds c !! ifd = Some id → fd_in id = body ++ rest →
  runs (if (0 <? Z.of_nat (length body))%Z then dcc_r_bulk ofd ifd (Z.of_nat (length body)) compr
        else ret ()) (Ok ()) c (moved ofd ifd od id data rest c).
Proof.
  intros Hb Hl Hne Ho Hi Hin. destruct (decide (body = [])) as [->|Hnb].
  - assert (data = []) as ->.
    { destruct compr; simpl in Hb; [done| |done]. destruct (decide (data = [])); [done|].
      destruct Hb as [_ [Hb _]]. simpl in Hb. lia. }
    simpl. rewrite moved_nil by done. apply runs_ret.
  - assert (0 < length body) by (destruct body; [done|simpl; lia]).
    rewrite (proj2 (Z.ltb_lt 0 _)) by lia. unfold dcc_r_bulk. rewrite decide_False by lia.
    destruct compr; simpl in Hb; [subst body| |done].
    + rewrite Nat2Z.id. by apply pump_readwrite_runs.
    + destruct (decide (data = [])); [done|]. destruct Hb as [Hb Hf].
      apply (r_bulk_lzo1x_runs ofd ifd od id data body rest); try done. lia.
Qed.

(** The core after a file with contents [data] was received from [fd]. *)
Definition received (fd : nat) (d : fdesc) (rest fname data : cstr) (c : core) : core :=
  taken fd d rest (set_files (<[fname := NFile data]> (c_files c)) c).

Lemma close_moved n fd d fname data rest m c :
  c_fds c !! n = None → n ≠ fd → c_fds c !! fd = Some d → m !! fname = Some (NFile []) →
  runs (dcc_close n) (Ok ())
    (moved n fd (Fd [] [] (Some fname)) d data rest (opened n (Fd [] [] (Some fname)) (set_files m c)))
    (taken fd d rest (set_files (<[fname := NFile data]> m) c)).
Proof.
  intros Hn Hne Hd Hm. unfold dcc_close. apply (runs_bind _ _ (inl ()) _ _
    (taken fd d rest (set_files (<[fname:=NFile data]> m) c))); [|apply runs_ret].
  set (c1 := moved _ _ _ _ _ _ _).
  replace (taken fd d rest (set_files (<[fname:=NFile data]> m) c))
    with (set_fds (delete n (c_fds c1)) c1).
  - eapply close_runs. apply put_lookup.
  - unfold c1, moved, put, opened, taken, set_files, set_fds. simpl. rewrite Hm. f_equal.
    rewrite (insert_insert_ne _ fd n), insert_insert_eq by done.
    by rewrite delete_insert_id by by rewrite lookup_insert_ne.
Qed.

(** Whatever directories had to be made first. *)
Lemma r_file_runs_made fd d fname compr data body rest c0 c :
  wire_body compr data body → (Z.of_nat (length data) < 2 ^ 32)%Z →
  runs (dcc_mk_tmp_ancestor_dirs fname) (Ok ()) c0 c →
  match c_files c !! fname with Some NDir | Some (NLink _) => False | _ => True end →
  c_fds c !! fd = Some d → fd_in d = body ++ rest →
  runs (dcc_r_file fd fname (Z.of_nat (length body)) compr) (Ok ()) c0 (received fd d rest fname data c).
Proof.
  intros Hb Hl Hmk Hfile Hd Hin. unfold dcc_r_file.
  eapply runs_bind; [by apply runs_attempt_Ok|]. cbn beta iota.
  destruct (remove_old_runs fname c Hfile) as (m & Hm & Hmf & Hr).
  eapply runs_bind; [exact Hr|].
  eapply runs_bind; [by apply open_trunc_runs|]. cbn beta iota.
  set (n := new_fd _). set (m' := <[fname := NFile []]> _).
  assert (n ≠ fd) as Hne by (intros E; by apply (new_fd_ne fd d c Hd)).
  eapply runs_bind.
  { apply runs_attempt_Ok. apply (r_bulk_runs n fd (Fd [] [] (Some fname)) d compr data body rest);
      try done; [apply lookup_insert_eq|].
    simpl. by rewrite lookup_insert_ne. }
  eapply runs_bind.
  { apply runs_attempt_Ok. apply (close_moved n fd d fname data rest m' c); try done.
    - apply new_fd_fresh.
    - apply lookup_insert_eq. }
  cbn beta iota. unfold received, m'. simpl. rewrite Hm, insert_insert_eq. apply runs_ret.
Qed.

Lemma r_file_runs fd d fname compr data body rest c :
  wire_body compr data body → (Z.of_nat (length data) < 2 ^ 32)%Z →
  can_create fname c → c_fds c !! fd = Some d → fd_in d = body ++ rest →
  runs (dcc_r_file fd fname (Z.of_nat (length body)) compr) (Ok ()) c (received fd d rest fname data c).
Proof. intros Hb Hl [Hdir Hfile]. apply r_file_runs_made; [done..|by apply mk_ancestors_runs|done]. Qed.

(** C28.  A file sent with [dcc_x_file] arrives: the receiver, which reads
    the token and then the file with [dcc_r_file] under the same compression,
    ends up with a file of the same contents under its own name, all of the
    message consumed, and no descriptor left open on either side. *)
Theorem file_roundtrip (fds fdr : nat) (ds dr : fdesc) (sname rname token : cstr)
    (compr : dcc_compress) (data body rest : cstr) (cs cr : core) :
  length token = 4 → (Z.of_nat (length data) < 2 ^ 32)%Z → (Z.of_nat (length body) < 2 ^ 32)%Z →
  wire_body compr data body →
  c_fds cs !! fds = Some ds → c_files cs !! sname = Some (NFile data) →
  c_fds cr !! fdr = Some dr → fd_in dr = file_bytes token body ++ rest → can_create rname cr →
  runs (dcc_x_file fds sname token compr) (Ok (length data)) cs
    (put fds ds (file_bytes token body) cs) ∧
  runs (let! len := dcc_r_token_int fdr token in dcc_r_file fdr rname len compr) (Ok ()) cr
    (received fdr dr rest rname data cr).
Proof.
  intros Ht Hl Hbl Hb Hds Hsf Hdr Hin Hcc. split; [by apply x_file_runs|].
  unfold file_bytes in Hin. rewrite <- app_assoc in Hin. rewrite <- app_assoc in Hin.
  eapply runs_bind.
  { apply (r_token_int_reads token (Z.of_nat (length body)) Ht); [lia|done|].
    by rewrite <- app_assoc. }
  unfold received. rewrite <- (taken_taken fdr dr (body ++ rest) rest).
  exact (r_file_runs fdr _ rname compr data body rest (taken fdr dr (body ++ rest) cr)
    Hb Hl Hcc (taken_lookup _ _ _ _) eq_refl).
Qed.
End Bulk.

(** ** A library that does not compress *)

(** The laws can hold: storing the data as it is satisfies them. *)
#[export] Instance stored_lzo : Lzo := {|
  lzo1x_1_compress := λ x, match x with [] => None | _ => Some x end;
  lzo1x_decompress_safe := λ y n, if decide (Z.of_nat (length y) ≤ n)%Z then LzoOk y else LzoOverrun
|}.

#[export] Instance stored_lzo_laws : LzoLaws.
Proof.
  split.
  - intros [|a x] y [= <-]. Z.to_euclidean_division_equations. lia.
  - by intros [|a x] y [= <-].
  - intros [|a x] y n [= <-] Hn. simpl in *. by rewrite decide_True.
  - intros [|a x] y n [= <-] Hn. simpl in *. by rewrite decide_False by lia.
Qed.

(** ** Witnesses *)

Definition ex_recv : core :=
  Core {[5 := Fd "FILE00000005helloDONE"%cs [] None]} {["/tmp"%cs := NDir; "/tmp/o"%cs := NFile "old"%cs]}
    [] 0 DCC_PHASE_STARTUP.
Definition ex_send : core :=
  Core {[4 := Fd [] [] None]} {["h.i"%cs := NFile "hello"%cs]} [] 0 DCC_PHASE_STARTUP.

Lemma file_roundtrip_witness :
  runs (dcc_x_file (Cfg := usual_config) 4 "h.i"%cs "FILE"%cs DCC_COMPRESS_LZO1X) (Ok 5) ex_send
    (put 4 (Fd [] [] None) (file_bytes "FILE"%cs "hello"%cs) ex_send) ∧
  runs (let! len := dcc_r_token_int 5 "FILE"%cs in dcc_r_file 5 "/tmp/o"%cs len DCC_COMPRESS_LZO1X)
    (Ok ()) ex_recv
    (received 5 (Fd "FILE00000005helloDONE"%cs [] None) "DONE"%cs "/tmp/o"%cs "hello"%cs ex_recv).
Proof.
  apply (file_roundtrip (Cfg := usual_config) 4 5 (Fd [] [] None)
           (Fd "FILE00000005helloDONE"%cs [] None) "h.i"%cs "/tmp/o"%cs "FILE"%cs
           DCC_COMPRESS_LZO1X "hello"%cs "hello"%cs "DONE"%cs ex_send ex_recv);
    try reflexivity; try (simpl; lia).
  - split; [reflexivity|unfold lzo_fits; simpl; lia].
  - split; [right; reflexivity|vm_compute; exact I].
Defined.

Lemma r_bulk_lzo1x_wraps_witness :
  decompress_size (2 ^ 29) = 0%Z ∧
  ∀ fuel, decompress_loop fuel 3 "x"%cs (decompress_size (2 ^ 29)) ex_world = (Undef, ex_world).
Proof. apply (r_bulk_lzo1x_wraps 3 "x"%cs ex_world); reflexivity. Defined.
