(* ===== verification/Results.v ===== *)
(** * clirpc.c, srvrpc.c, emaillog.c: files and results of a job

    The server's answer (serve.c) and how the client takes it apart; the files
    a client sends when the server runs the preprocessor. *)

From S2P Require Import Prelude CLib Util Filename World Io Rpc Tempfile Bulk.

Inductive dcc_cpp_where := DCC_CPP_ON_CLIENT | DCC_CPP_ON_SERVER.

#[export] Instance dcc_cpp_where_eq_dec : EqDecision dcc_cpp_where.
Proof. solve_decision. Defined.

Section Results.
Context {Cfg : Config} {LZO : Lzo}.

(** state.c: the phase is recorded; the state file written for monitors is not
    modelled. *)
Definition dcc_note_state (p : phase) : M world unit := modify_core (set_phase p).

(** ** emaillog.c *)

(** One [write], which must take everything. *)
Definition write_all (fd : nat) (s : cstr) : M world unit :=
  let! r := sys_write fd s in
  match r with
  | inl k => if decide (k = length s) then ret () else fail EXIT_IO_ERROR
  | inr _ => fail EXIT_IO_ERROR
  end.

Definition NL : cstr := ["010"%char].

(** [email]: the open log, or [None] when no mail is ever sent. *)
Definition dcc_add_file_to_log_email (email : option nat) (description fname : cstr) : M world unit :=
  match email with
  | None => ret ()
  | Some email_fileno =>
      let! r := dcc_open_read fname in
      do! write_all email_fileno (NL ++ "BEGIN "%cs);
      do! write_all email_fileno description;
      do! write_all email_fileno NL;
      do! (match r.1 with
           | Some in_fd => dcc_pump_readwrite email_fileno in_fd r.2
           | None => ret ()
           end);
      do! write_all email_fileno (NL ++ "END "%cs);
      do! write_all email_fileno description;
      do! write_all email_fileno NL;
      match r.1 with
      | Some in_fd => let! _ := sys_close in_fd in ret ()
      | None => ret ()
      end
  end.

(** ** clirpc.c *)

Definition STDOUT_FILENO : nat := 1.

(** The wait status of the remote compiler. *)
Definition dcc_retrieve_results (email : option nat) (net_fd : nat) (output_fname : cstr)
    (deps_fname : option cstr) (server_stderr_fname : cstr)
    (protover : Z) (compr : dcc_compress) (cpp_where : dcc_cpp_where) : M world Z :=
  do! dcc_r_result_header net_fd protover;
  do! dcc_note_state DCC_PHASE_RECEIVE;
  let! status := dcc_r_cc_status net_fd in
  let! len := dcc_r_token_int net_fd "SERR"%cs in
  do! dcc_r_file net_fd server_stderr_fname len compr;
  let! logged := attempt (dcc_add_file_to_log_email email "server-side stderr"%cs server_stderr_fname) in
  match logged with
  | inr _ => ret status          (* [return ret;] with [ret] still 0 *)
  | inl _ =>
      let! len := dcc_r_token_int net_fd "SOUT"%cs in
      do! dcc_r_bulk STDOUT_FILENO net_fd len compr;
      let! o_len := dcc_r_token_int net_fd "DOTO"%cs in
      if (status =? 0)%Z then
        do! dcc_r_file_timed net_fd output_fname o_len compr;
        match cpp_where with
        | DCC_CPP_ON_SERVER =>
            (* [ret = (dcc_r_token_int(...) == 0)] *)
            let! r := attempt (dcc_r_token_int net_fd "DOTD"%cs) in
            match r, deps_fname with
            | inl len, Some deps_fname =>
                do! dcc_r_file_timed net_fd deps_fname len compr; ret status
            | _, _ => ret status
            end
        | DCC_CPP_ON_CLIENT => ret status
        end
      else ret status
  end.

(** ** serve.c: the answer *)

(** [WIFSIGNALED(status) || WEXITSTATUS(status)] *)
Definition status_failed (status : Z) : bool :=
  negb ((Z.land status 127 =? 0)%Z || (Z.land status 127 =? 127)%Z)
  || negb (Z.land (Z.shiftr status 8) 255 =? 0)%Z.

(** The part of [dcc_run_job] after the compiler ran, when the client did the
    preprocessing: an error anywhere turns into "DOTO 0". *)
Definition send_results (out_fd : nat) (protover status : Z) (err_fname out_fname temp_o : cstr)
    (compr : dcc_compress) : M world unit :=
  let! r := attempt (do! dcc_x_result_header out_fd protover;
                     do! dcc_x_cc_status out_fd status;
                     do! dcc_x_file out_fd err_fname "SERR"%cs compr;
                     do! dcc_x_file out_fd out_fname "SOUT"%cs compr;
                     ret ()) in
  match r with
  | inr _ => do! attempt (dcc_x_token_int out_fd "DOTO"%cs 0); ret ()
  | inl _ =>
      if status_failed status then do! attempt (dcc_x_token_int out_fd "DOTO"%cs 0); ret ()
      else do! dcc_x_file out_fd temp_o "DOTO"%cs compr; ret ()
  end.

(** ** srvrpc.c *)

Definition prepend_dir_to_name (dirname path : cstr) : M world cstr :=
  do! malloc_or EXIT_OUT_OF_MEMORY; ret (dirname ++ path).

(** [dcc_add_cleanup(name)], or remove it again. *)
Definition cleanup_or_unlink (name : cstr) : M world unit :=
  let! r := attempt (dcc_add_cleanup name) in
  match r with
  | inl _ => ret ()
  | inr e => let! _ := sys_unlink name in fail e
  end.

(** One round of the loop.  For any other token the code builds an 8-byte array
    and hands it to [dcc_explain_mismatch] as 12 bytes. *)
Definition r_one_file (in_fd : nat) (dirname : cstr) (compr : dcc_compress) : M world unit :=
  let! name := dcc_r_token_string in_fd "NAME"%cs in
  let! name := prepend_dir_to_name dirname name in
  let! tok := dcc_r_sometoken_int in_fd in
  let '(token, link_or_file_len) := tok in
  if strncmp0 token "LINK"%cs 4 then
    let! link_target := dcc_r_str_alloc in_fd link_or_file_len in
    let! link_target :=
      (if ceqb (cget link_target 0) "/" then prepend_dir_to_name dirname link_target
       else ret link_target) in
    do! dcc_mk_tmp_ancestor_dirs name;
    let! r := sys_symlink link_target name in
    match r with
    | inr _ => fail 1
    | inl _ => cleanup_or_unlink name
    end
  else if strncmp0 token "FILE"%cs 4 then
    do! dcc_r_file in_fd name link_or_file_len compr;
    cleanup_or_unlink name
  else
    do! dcc_explain_mismatch 8 12 in_fd; fail EXIT_PROTOCOL_ERROR.

Fixpoint r_files_loop (n in_fd : nat) (dirname : cstr) (compr : dcc_compress) : M world unit :=
  match n with
  | 0 => ret ()
  | S n => do! r_one_file in_fd dirname compr; r_files_loop n in_fd dirname compr
  end.

Definition dcc_r_many_files (in_fd : nat) (dirname : cstr) (compr : dcc_compress) : M world unit :=
  let! n_files := dcc_r_token_int in_fd "NFIL"%cs in
  r_files_loop (Z.to_nat n_files) in_fd dirname compr.

(** ** Properties *)

Context {LAWS : LzoLaws}.

(** The bytes of an answer. *)
Definition answer (protover status : Z) (serr sout doto : cstr) : cstr :=
  ("DONE"%cs ++ hex8 (u32 protover)) ++ ("STAT"%cs ++ hex8 (u32 (u32 status))) ++
  file_bytes "SERR"%cs serr ++ file_bytes "SOUT"%cs sout ++ file_bytes "DOTO"%cs doto.

(** A step of the answer, on a connection that is not a file. *)
Lemma send_step {A} (m : M world A) (k : M world unit) a fd d b b' c :
  runs m (Ok a) c (put fd d b c) →
  runs k (Ok ()) (put fd d b c) (put fd d (b ++ b') c) →
  runs (do! m; k) (Ok ()) c (put fd d (b ++ b') c).
Proof. intros Hm Hk. by eapply runs_bind. Qed.

Lemma put_files_None fd d b c : fd_file d = None → c_files (put fd d b c) = c_files c.
Proof. intros Hf. unfold put. simpl. by rewrite Hf. Qed.

(** Sending more on top of what was sent. *)
Lemma runs_put_more {A} (m : M world A) a fd d b b' c :
  (∀ d, c_fds (put fd d b c) !! fd = Some (Fd (fd_in d) (fd_out d ++ b) (fd_file d)) →
    runs m (Ok a) (put fd d b c) (put fd (Fd (fd_in d) (fd_out d ++ b) (fd_file d)) b' (put fd d b c))) →
  runs m (Ok a) (put fd d b c) (put fd d (b ++ b') c).
Proof.
  intros H. rewrite <- (put_put fd d _ b b') by done. apply H, put_lookup.
Qed.

Lemma x_file_more fd d fname token compr data body b c :
  length token = 4 → (Z.of_nat (length data) < 2 ^ 32)%Z → wire_body compr data body →
  fd_file d = None → c_files c !! fname = Some (NFile data) →
  runs (dcc_x_file fd fname token compr) (Ok (length data)) (put fd d b c)
    (put fd d (b ++ file_bytes token body) c).
Proof.
  intros Ht Hl Hb Hf Hd. rewrite <- (put_put fd d _ b) by done.
  apply x_file_runs; try done; [apply put_lookup|]. by rewrite put_files_None.
Qed.

(** The part before the object file. *)
Definition messages (protover status : Z) (serr sout : cstr) : cstr :=
  ((("DONE"%cs ++ hex8 (u32 protover)) ++ ("STAT"%cs ++ hex8 (u32 (u32 status)))) ++ file_bytes "SERR"%cs serr) ++
  file_bytes "SOUT"%cs sout.

Lemma answer_messages protover status serr sout doto :
  answer protover status serr sout doto = messages protover status serr sout ++ file_bytes "DOTO"%cs doto.
Proof. unfold answer, messages. by rewrite <- !app_assoc. Qed.

Lemma send_messages_runs fd d protover serr sout e_name o_name compr e o c :
  c_fds c !! fd = Some d → fd_file d = None →
  c_files c !! e_name = Some (NFile e) → c_files c !! o_name = Some (NFile o) →
  wire_body compr e serr → wire_body compr o sout →
  (Z.of_nat (length e) < 2 ^ 32)%Z → (Z.of_nat (length o) < 2 ^ 32)%Z →
  runs (do! dcc_x_result_header fd protover;
        do! dcc_x_cc_status fd 0;
        do! dcc_x_file fd e_name "SERR"%cs compr;
        do! dcc_x_file fd o_name "SOUT"%cs compr;
        ret ()) (Ok ()) c (put fd d (messages protover 0 serr sout) c).
Proof.
  intros Hd Hf He Ho Hbe Hbo Hle Hlo. unfold messages.
  set (b1 := "DONE"%cs ++ hex8 (u32 protover)).
  set (b2 := "STAT"%cs ++ hex8 (u32 (u32 0))).
  eapply runs_bind; [by apply (x_token_int_sends "DONE"%cs)|]. fold b1.
  eapply runs_bind.
  { apply (runs_put_more _ () fd d b1 b2). intros d' Hd'.
    by apply (x_token_int_sends "STAT"%cs). }
  eapply runs_bind; [by apply (x_file_more fd d _ _ compr e serr)|].
  eapply runs_bind; [by apply (x_file_more fd d _ _ compr o sout)|]. apply runs_ret.
Qed.

Lemma send_results_runs fd d protover serr sout doto e_name o_name t_name compr e o t c :
  c_fds c !! fd = Some d → fd_file d = None →
  c_files c !! e_name = Some (NFile e) → c_files c !! o_name = Some (NFile o) →
  c_files c !! t_name = Some (NFile t) →
  wire_body compr e serr → wire_body compr o sout → wire_body compr t doto →
  (Z.of_nat (length e) < 2 ^ 32)%Z → (Z.of_nat (length o) < 2 ^ 32)%Z → (Z.of_nat (length t) < 2 ^ 32)%Z →
  runs (send_results fd protover 0 e_name o_name t_name compr) (Ok ()) c
    (put fd d (answer protover 0 serr sout doto) c).
Proof.
  intros Hd Hf He Ho Ht Hbe Hbo Hbt Hle Hlo Hlt. unfold send_results. rewrite answer_messages.
  eapply runs_bind; [apply runs_attempt_Ok; by apply (send_messages_runs fd d protover serr sout e_name o_name compr e o)|].
  cbn beta iota. change (status_failed 0) with false. cbn iota.
  eapply runs_bind; [by apply (x_file_more fd d _ _ compr t doto)|]. apply runs_ret.
Qed.

(** *** The client *)

Lemma can_create_insert p q data c :
  can_create p c → can_create q c → can_create p (set_files (<[q := NFile data]> (c_files c)) c).
Proof.
  intros [Hd Hf] [_ Hq]. split; simpl.
  - destruct Hd as [?|Hd]; [by left|]. right. rewrite lookup_insert_ne; [done|].
    intros ->. by rewrite Hd in Hq.
  - destruct (decide (p = q)) as [->|]; [by rewrite lookup_insert_eq|by rewrite lookup_insert_ne].
Qed.

Lemma token_reads_runs fd d t v rest c :
  length t = 4 → (0 ≤ v < 2 ^ 32)%Z → c_fds c !! fd = Some d → fd_in d = t ++ hex8 v ++ rest →
  runs (dcc_r_token_int fd t) (Ok v) c (taken fd d rest c).
Proof.
  intros Ht Hv Hd Hin. apply r_token_int_reads; try done. by rewrite <- app_assoc.
Qed.

(** The client while it receives: [S] is still to come, the files are [m], and
    [out] was written to standard output. *)
Definition receiving (fd : nat) (d od : fdesc) (c : core) (S : cstr) (m : gmap cstr node)
    (out : cstr) : core :=
  Core (<[fd := Fd S (fd_out d) (fd_file d)]>
         (<[STDOUT_FILENO := Fd (fd_in od) (fd_out od ++ out) (fd_file od)]> (c_fds c)))
    m (c_cleanups c) (c_cleanups_size c) DCC_PHASE_RECEIVE.

Section receiving.
Context (fd : nat) (d od : fdesc) (c : core).
Context (Hne : fd ≠ STDOUT_FILENO) (Hod : fd_file od = None).

Lemma receiving_taken S S' m out :
  taken fd (Fd S (fd_out d) (fd_file d)) S' (receiving fd d od c S m out) =
    receiving fd d od c S' m out.
Proof. unfold taken, receiving, set_fds. simpl. by rewrite insert_insert_eq. Qed.

Lemma receiving_lookup S m out :
  c_fds (receiving fd d od c S m out) !! fd = Some (Fd S (fd_out d) (fd_file d)).
Proof. apply lookup_insert_eq. Qed.

Lemma receiving_token t v rest m out :
  length t = 4 → (0 ≤ v < 2 ^ 32)%Z →
  runs (dcc_r_token_int fd t) (Ok v) (receiving fd d od c (t ++ hex8 v ++ rest) m out)
    (receiving fd d od c rest m out).
Proof.
  intros Ht Hv. rewrite <- (receiving_taken (t ++ hex8 v ++ rest) rest).
  by apply token_reads_runs; [..|apply receiving_lookup|].
Qed.

Lemma receiving_file f compr data body rest m out :
  wire_body compr data body → (Z.of_nat (length data) < 2 ^ 32)%Z →
  can_create f (set_files m c) →
  runs (dcc_r_file fd f (Z.of_nat (length body)) compr) (Ok ())
    (receiving fd d od c (body ++ rest) m out)
    (receiving fd d od c rest (<[f := NFile data]> m) out).
Proof.
  intros Hb Hl Hc. rewrite <- (receiving_taken (body ++ rest) rest).
  exact (r_file_runs fd _ f compr data body rest (receiving fd d od c (body ++ rest) m out)
    Hb Hl Hc (receiving_lookup _ _ _) eq_refl).
Qed.

Lemma receiving_bulk compr data body rest m out :
  wire_body compr data body → (Z.of_nat (length data) < 2 ^ 32)%Z →
  runs (dcc_r_bulk STDOUT_FILENO fd (Z.of_nat (length body)) compr) (Ok ())
    (receiving fd d od c (body ++ rest) m out) (receiving fd d od c rest m (out ++ data)).
Proof.
  intros Hb Hl. set (od' := Fd (fd_in od) (fd_out od ++ out) (fd_file od)).
  pose proof (r_bulk_runs STDOUT_FILENO fd od' (Fd (body ++ rest) (fd_out d) (fd_file d)) compr
    data body rest (receiving fd d od c (body ++ rest) m out) Hb Hl) as Hr.
  assert (moved STDOUT_FILENO fd od' (Fd (body ++ rest) (fd_out d) (fd_file d)) data rest
    (receiving fd d od c (body ++ rest) m out) = receiving fd d od c rest m (out ++ data)) as Hm.
  { unfold moved, put, receiving, set_files, set_fds. simpl. rewrite Hod. simpl.
    rewrite insert_insert_eq, (insert_insert_ne _ STDOUT_FILENO fd), insert_insert_eq by done.
    by rewrite app_assoc. }
  rewrite Hm in Hr. destruct (decide (body = [])) as [->|Hnb].
  - apply Hr; [done|..|done]; simpl; [by rewrite lookup_insert_ne, lookup_insert_eq|apply lookup_insert_eq].
  - rewrite (proj2 (Z.ltb_lt 0 _)) in Hr by (destruct body; [done|simpl; lia]).
    apply Hr; [done|..|done]; simpl; [by rewrite lookup_insert_ne, lookup_insert_eq|apply lookup_insert_eq].
Qed.
End receiving.

Lemma retrieve_results_runs fd d od c protover expect e_name o_name deps compr
    serr sout doto e o t rest :
  fd ≠ STDOUT_FILENO → c_fds c !! fd = Some d → c_fds c !! STDOUT_FILENO = Some od →
  fd_file od = None → fd_in d = answer protover 0 serr sout doto ++ rest →
  wire_body compr e serr → wire_body compr o sout → wire_body compr t doto →
  (Z.of_nat (length e) < 2 ^ 32)%Z → (Z.of_nat (length o) < 2 ^ 32)%Z → (Z.of_nat (length t) < 2 ^ 32)%Z →
  (Z.of_nat (length serr) < 2 ^ 32)%Z → (Z.of_nat (length sout) < 2 ^ 32)%Z →
  (Z.of_nat (length doto) < 2 ^ 32)%Z →
  can_create e_name c → can_create o_name c →
  runs (dcc_retrieve_results None fd o_name deps e_name expect compr DCC_CPP_ON_CLIENT) (Ok 0%Z) c
    (receiving fd d od c rest (<[o_name := NFile t]> (<[e_name := NFile e]> (c_files c))) o).
Proof.
  intros Hne Hd Hod Hof Hin Hbe Hbo Hbt Hle Hlo Hlt Hse Hso Hst Hce Hco.
  unfold dcc_retrieve_results, answer, file_bytes in *. rewrite <- !app_assoc in Hin.
  eapply runs_bind.
  { eapply runs_bind; [by eapply (token_reads_runs fd d "DONE"%cs); [..|apply u32_range| |]|].
    apply runs_ret. }
  eapply runs_bind; [apply runs_modify_core|].
  match goal with |- runs _ _ ?c0 _ => replace c0 with
    (receiving fd d od c ("STAT"%cs ++ hex8 (u32 (u32 0)) ++ "SERR"%cs ++ hex8 (Z.of_nat (length serr)) ++
       serr ++ "SOUT"%cs ++ hex8 (Z.of_nat (length sout)) ++ sout ++ "DOTO"%cs ++
       hex8 (Z.of_nat (length doto)) ++ doto ++ rest) (c_files c) []) end.
  2:{ unfold receiving, taken, set_fds, set_phase. simpl. rewrite app_nil_r.
      rewrite (insert_id _ STDOUT_FILENO) by (rewrite Hod; by destruct od). done. }
  eapply runs_bind.
  { eapply runs_bind; [apply receiving_token; [done..|apply u32_range]|]. apply runs_ret. }
  change (s32 (u32 (u32 0))) with 0%Z.
  eapply runs_bind; [apply receiving_token; [done..|lia]|].
  eapply runs_bind; [apply (receiving_file fd d od c e_name compr e serr); try done; by destruct c|].
  eapply runs_bind; [apply runs_attempt_Ok, runs_ret|]. cbn beta iota.
  eapply runs_bind; [apply receiving_token; [done..|lia]|].
  eapply runs_bind; [by apply (receiving_bulk fd d od c Hne Hof compr o sout)|].
  eapply runs_bind; [apply receiving_token; [done..|lia]|]. cbn beta.
  change (0 =? 0)%Z with true. cbn iota.
  eapply runs_bind; [|apply runs_ret].
  apply (receiving_file fd d od c o_name compr t doto); try done.
  by apply can_create_insert.
Qed.

(** C15.  What a server answers after a successful compilation, the client
    takes apart completely: the status, the messages into their file, the
    standard output to its own, and the object code into the output file,
    whatever partial transfers and interruptions either side sees. *)
Theorem answer_roundtrip (fds fdr : nat) (ds dr od : fdesc) (cs cr : core) (protover expect : Z)
    (e_src o_src t_src e_dst t_dst : cstr) (deps : option cstr) (compr : dcc_compress)
    (e o t serr sout doto rest : cstr) :
  c_fds cs !! fds = Some ds → fd_file ds = None →
  c_files cs !! e_src = Some (NFile e) → c_files cs !! o_src = Some (NFile o) →
  c_files cs !! t_src = Some (NFile t) →
  wire_body compr e serr → wire_body compr o sout → wire_body compr t doto →
  Forall (λ x, Z.of_nat (length x) < 2 ^ 32)%Z [e; o; t; serr; sout; doto] →
  fdr ≠ STDOUT_FILENO → c_fds cr !! fdr = Some dr → c_fds cr !! STDOUT_FILENO = Some od →
  fd_file od = None → fd_in dr = answer protover 0 serr sout doto ++ rest →
  can_create e_dst cr → can_create t_dst cr → e_dst ≠ t_dst →
  runs (send_results fds protover 0 e_src o_src t_src compr) (Ok ()) cs
    (put fds ds (answer protover 0 serr sout doto) cs) ∧
  ∃ c', runs (dcc_retrieve_results None fdr t_dst deps e_dst expect compr DCC_CPP_ON_CLIENT)
          (Ok 0%Z) cr c' ∧
    c_files c' !! t_dst = Some (NFile t) ∧ c_files c' !! e_dst = Some (NFile e) ∧
    fd_out <$> c_fds c' !! STDOUT_FILENO = Some (fd_out od ++ o) ∧
    fd_in <$> c_fds c' !! fdr = Some rest.
Proof.
  intros Hs Hsf He Ho Ht Hbe Hbo Hbt Hl Hne Hd Hod Hof Hin Hce Hct Hdst.
  decompose_Forall_hyps. split; [by apply (send_results_runs _ _ _ _ _ _ _ _ _ _ e o t)|].
  eexists. split; [by apply (retrieve_results_runs fdr dr od cr protover expect e_dst t_dst deps
    compr serr sout doto e o t rest)|].
  simpl. rewrite lookup_insert_eq, lookup_insert_ne, lookup_insert_eq by done.
  by rewrite lookup_insert_ne, !lookup_insert_eq by done.
Qed.

(** A server that reads the files of a job over-reads its stack on
    an unexpected token: it passes an array of 8 bytes on as 12. *)
Lemma r_many_files_overread (fd : nat) (d : fdesc) (n v : Z) (dirname name t rest : cstr)
    (compr : dcc_compress) (w : world) :
  io_ok w → c_fds (w_core w) !! fd = Some d → (0 < n < 2 ^ 32)%Z → (0 ≤ v < 2 ^ 32)%Z →
  wire_str name → length t = 4 → nul_free t → t ≠ "LINK"%cs → t ≠ "FILE"%cs →
  fd_in d = "NFIL"%cs ++ hex8 n ++ string_bytes "NAME"%cs name ++ t ++ hex8 v ++ rest →
  (dcc_r_many_files fd dirname compr w).1 = Undef.
Proof.
  intros Hw Hd Hn Hv Hname Ht Hnt Hlink Hfile Hin.
  assert (∀ s, length s = 4 → t ≠ s → strncmp0 t s 4 = false) as Hcmp.
  { intros s Hs Hts. apply not_true_iff_false. rewrite <- Ht. rewrite strncmp0_prefix.
    intros [k Hk]. destruct k; [by rewrite app_nil_r in Hk|].
    apply (f_equal length) in Hk. rewrite length_app in Hk. simpl in Hk. lia. }
  assert (∃ c', runs (dcc_r_many_files fd dirname compr) Undef (w_core w) c') as [c' Hr].
  { eexists. eapply runs_bind; [apply (token_reads_runs fd d "NFIL"%cs n); [done|lia|exact Hd|exact Hin]|].
    destruct (Z.to_nat n) eqn:En; [lia|]. cbn [r_files_loop].
    eapply runs_bind_Undef.
    eapply runs_bind; [by eapply (r_token_string_reads "NAME"%cs name);
      [..|apply taken_lookup|]|]. cbn beta.
    rewrite taken_taken.
    eapply runs_bind; [eapply runs_bind; [apply runs_malloc_or|apply runs_ret]|].
    eapply runs_bind.
    { eapply (r_sometoken_int_reads t v); [done..|apply taken_lookup|]. by rewrite <- app_assoc. }
    cbn beta iota. rewrite !Hcmp by done. eapply runs_bind_Undef. apply runs_throw. }
  destruct (Hr w eq_refl Hw) as (w' & -> & _). done.
Qed.
End Results.

(** ** Errors the client does not see *)

(** A client connected on descriptor 3. *)
Definition ex_client (input : cstr) (xf : list xfer) : world :=
  World (Core {[1 := Fd [] [] None; 3 := Fd input [] None; 9 := Fd [] [] None]} ∅ [] 0 DCC_PHASE_SEND)
    xf [] [] [] 0 ∅.

(** When the server did the preprocessing and the connection ends before
    the dependency file, [dcc_retrieve_results] still reports success: the
    result of reading "DOTD" is compared with 0 before it is assigned. *)
Lemma retrieve_results_loses_dotd :
  let w := ex_client (answer 3 0 [] [] "obj"%cs) [] in
  ∃ w', dcc_retrieve_results (LZO := stored_lzo) None 3 "x.o"%cs (Some "x.d"%cs) "x.err"%cs 3
          DCC_COMPRESS_NONE DCC_CPP_ON_SERVER w = (Ok 0%Z, w') ∧
    c_files (w_core w') !! "x.o"%cs = Some (NFile "obj"%cs) ∧
    c_files (w_core w') !! "x.d"%cs = None.
Proof. eexists. split; [vm_compute; reflexivity|]. split; vm_compute; reflexivity. Qed.

(** When the log for the maintainers cannot be written, the client
    reports success without having read the object file. *)
Lemma retrieve_results_email_failure :
  let w := ex_client (answer 1 0 [] [] "obj"%cs) (replicate 4 (XN 12) ++ [XErr EOTHER]) in
  ∃ w', dcc_retrieve_results (LZO := stored_lzo) (Some 9) 3 "x.o"%cs None "x.err"%cs 1
          DCC_COMPRESS_NONE DCC_CPP_ON_CLIENT w = (Ok 0%Z, w') ∧
    c_files (w_core w') !! "x.o"%cs = None.
Proof. eexists. split; [vm_compute; reflexivity|]. vm_compute; reflexivity. Qed.

(** ** Witnesses *)

Definition ex_server : core :=
  Core {[7 := Fd [] [] None]}
    {["/tmp/e"%cs := NFile "warning"%cs; "/tmp/s"%cs := NFile [];
      "/tmp/t"%cs := NFile "ELF"%cs]} [] 0 DCC_PHASE_STARTUP.

Lemma answer_roundtrip_witness :
  let cr := w_core (ex_client (answer 1 0 "warning"%cs [] "ELF"%cs) []) in
  runs (send_results (Cfg := usual_config) 7 1 0 "/tmp/e"%cs "/tmp/s"%cs "/tmp/t"%cs DCC_COMPRESS_NONE)
    (Ok ()) ex_server
    (put 7 (Fd [] [] None) (answer 1 0 "warning"%cs [] "ELF"%cs) ex_server) ∧
  ∃ c', runs (dcc_retrieve_results None 3 "x.o"%cs None "x.err"%cs 1
                DCC_COMPRESS_NONE DCC_CPP_ON_CLIENT) (Ok 0%Z) cr c' ∧
    c_files c' !! "x.o"%cs = Some (NFile "ELF"%cs) ∧
    c_files c' !! "x.err"%cs = Some (NFile "warning"%cs) ∧
    fd_out <$> c_fds c' !! STDOUT_FILENO = Some [] ∧
    fd_in <$> c_fds c' !! 3 = Some [].
Proof.
  apply (answer_roundtrip (Cfg := usual_config) 7 3 (Fd [] [] None)
    (Fd (answer 1 0 "warning"%cs [] "ELF"%cs) [] None) (Fd [] [] None) ex_server
    (w_core (ex_client (answer 1 0 "warning"%cs [] "ELF"%cs) [])) 1 1
    "/tmp/e"%cs "/tmp/s"%cs "/tmp/t"%cs "x.err"%cs "x.o"%cs None DCC_COMPRESS_NONE
    "warning"%cs [] "ELF"%cs "warning"%cs [] "ELF"%cs []); try reflexivity; try discriminate.
  - by repeat constructor.
  - split; [by left|exact I].
  - split; [by left|exact I].
Defined.

Lemma r_many_files_overread_witness :
  let input := "NFIL"%cs ++ hex8 1 ++ string_bytes "NAME"%cs "/a.c"%cs ++ "ODDS"%cs ++ hex8 0 in
  (dcc_r_many_files (LZO := stored_lzo) 3 "/tmp/d"%cs DCC_COMPRESS_NONE (ex_client input [])).1 = Undef.
Proof.
  apply (r_many_files_overread 3 (Fd ("NFIL"%cs ++ hex8 1 ++ string_bytes "NAME"%cs "/a.c"%cs ++
    "ODDS"%cs ++ hex8 0) [] None) 1 0 "/tmp/d"%cs "/a.c"%cs "ODDS"%cs []); try reflexivity; try discriminate;
    try lia; try (apply (bool_decide_unpack _); vm_compute; exact I).
  constructor; [constructor..|reflexivity|by right].
Defined.
