(* ===== verification/Hosts.v ===== *)
(** * hosts.c: the list of machines to use

    The parser of host specifications.  The hosts of a "+zeroconf" word come from
    the class [ZeroconfHosts], which zeroconf.c implements. *)

From S2P Require Import Prelude CLib Util Rpc Bulk Results.
From stdpp Require Import sorting.

Inductive dcc_mode := DCC_MODE_TCP | DCC_MODE_SSH | DCC_MODE_LOCAL.

(** [protover] is -1 while it is not known. *)
Record dcc_hostdef := HostDef {
  mode : option dcc_mode;
  user : option cstr;
  hostname : option cstr;
  port : Z;
  ssh_command : option cstr;
  is_up : bool;
  n_slots : Z;
  hostdef_string : cstr;
  protover : Z;
  compr : dcc_compress;
  cpp_where : dcc_cpp_where;
  authenticate : bool
}.

(** What the parser changes besides its result: the allocator, and the number
    of slots of the two static hosts of lock.c. *)
Record hstate := HState { h_mem : list bool; local_slots : Z; local_cpp_slots : Z }.

#[export, refine] Instance hstate_mem : MemState hstate := {|
  get_mem := h_mem;
  set_mem := λ l s, HState l (local_slots s) (local_cpp_slots s)
|}.
Proof. all: by try intros []. Defined.

Definition DISTCC_DEFAULT_PORT : Z := 3632.

Definition set_mode (x : option dcc_mode) (h : dcc_hostdef) : dcc_hostdef :=
  HostDef x (user h) (hostname h) (port h) (ssh_command h) (is_up h) (n_slots h)
    (hostdef_string h) (protover h) (compr h) (cpp_where h) (authenticate h).
Definition set_user (x : option cstr) (h : dcc_hostdef) : dcc_hostdef :=
  HostDef (mode h) x (hostname h) (port h) (ssh_command h) (is_up h) (n_slots h)
    (hostdef_string h) (protover h) (compr h) (cpp_where h) (authenticate h).
Definition set_hostname (x : option cstr) (h : dcc_hostdef) : dcc_hostdef :=
  HostDef (mode h) (user h) x (port h) (ssh_command h) (is_up h) (n_slots h)
    (hostdef_string h) (protover h) (compr h) (cpp_where h) (authenticate h).
Definition set_port (x : Z) (h : dcc_hostdef) : dcc_hostdef :=
  HostDef (mode h) (user h) (hostname h) x (ssh_command h) (is_up h) (n_slots h)
    (hostdef_string h) (protover h) (compr h) (cpp_where h) (authenticate h).
Definition set_ssh_command (x : option cstr) (h : dcc_hostdef) : dcc_hostdef :=
  HostDef (mode h) (user h) (hostname h) (port h) x (is_up h) (n_slots h)
    (hostdef_string h) (protover h) (compr h) (cpp_where h) (authenticate h).
Definition set_n_slots (x : Z) (h : dcc_hostdef) : dcc_hostdef :=
  HostDef (mode h) (user h) (hostname h) (port h) (ssh_command h) (is_up h) x
    (hostdef_string h) (protover h) (compr h) (cpp_where h) (authenticate h).
Definition set_options (c : dcc_compress) (w : dcc_cpp_where) (a up : bool) (h : dcc_hostdef) : dcc_hostdef :=
  HostDef (mode h) (user h) (hostname h) (port h) (ssh_command h) up (n_slots h)
    (hostdef_string h) (protover h) c w a.
Definition set_protover (x : Z) (h : dcc_hostdef) : dcc_hostdef :=
  HostDef (mode h) (user h) (hostname h) (port h) (ssh_command h) (is_up h) (n_slots h)
    (hostdef_string h) x (compr h) (cpp_where h) (authenticate h).

(** ** Protocol versions *)

(** Is the version known, and its features. *)
Definition dcc_get_features_from_protover (protover : Z) : Z * dcc_compress * dcc_cpp_where :=
  let compr := if (1 <? protover)%Z then DCC_COMPRESS_LZO1X else DCC_COMPRESS_NONE in
  let cpp_where := if (2 <? protover)%Z then DCC_CPP_ON_SERVER else DCC_CPP_ON_CLIENT in
  (if (protover =? 0)%Z || (3 <? protover)%Z then 1%Z else 0%Z, compr, cpp_where).

Definition dcc_get_protover_from_features (compr : dcc_compress) (cpp_where : dcc_cpp_where) : Z :=
  match compr, cpp_where with
  | DCC_COMPRESS_NONE, DCC_CPP_ON_CLIENT => 1%Z
  | DCC_COMPRESS_LZO1X, DCC_CPP_ON_SERVER => 3%Z
  | DCC_COMPRESS_LZO1X, DCC_CPP_ON_CLIENT => 2%Z
  | _, _ => (-1)%Z
  end.

(** ** Parts of a host definition *)

Fixpoint skip_digits (s : cstr) : cstr :=
  match s with
  | c :: r => if isdigit c then skip_digits r else s
  | [] => []
  end.

(** The cursor and the number of slots after an optional multiplier. *)
Definition dcc_parse_multiplier (psrc : cstr) (slots : Z) : outcome (cstr * Z) :=
  match psrc with
  | c :: src =>
      if ceqb c "/" || ceqb c "=" then
        let val := atoi src in
        if (val =? 0)%Z then Fail EXIT_BAD_HOSTSPEC
        else Ok (skip_digits src, val)
      else Ok (psrc, slots)
  | [] => Ok (psrc, slots)
  end.

(** dcc_zeroconf_add_hosts (zeroconf.c) as the parser sees it, in a build with
    Avahi: given how many hosts the list has, those it appends, or [None] when
    it returns an error. *)
Class ZeroconfHosts := {
  zeroconf_hosts : option (nat → hstate → option (list dcc_hostdef) * hstate)
}.

(** A build without Avahi. *)
Definition no_zeroconf : ZeroconfHosts := {| zeroconf_hosts := None |}.

Section Hosts.
Context {Cfg : Config} {ZC : ZeroconfHosts}.

(** The loop over options; every round takes a comma and a word. *)
Fixpoint options_loop (fuel : nat) (p : cstr) (host : dcc_hostdef) : outcome (cstr * dcc_hostdef) :=
  match fuel with
  | 0 => Undef
  | S fuel =>
      match p with
      | c :: p' =>
          if ceqb c "," then
            if str_startswith "lzo"%cs p' then
              options_loop fuel (drop 3 p')
                (set_options DCC_COMPRESS_LZO1X (cpp_where host) (authenticate host) (is_up host) host)
            else if str_startswith "down"%cs p' then
              options_loop fuel (drop 4 p')
                (set_options (compr host) (cpp_where host) (authenticate host) false host)
            else if str_startswith "cpp"%cs p' then
              options_loop fuel (drop 3 p')
                (set_options (compr host) DCC_CPP_ON_SERVER (authenticate host) (is_up host) host)
            else if HAVE_GSSAPI && str_startswith "auth"%cs p' then
              options_loop fuel (drop 4 p')
                (set_options (compr host) (cpp_where host) true (is_up host) host)
            else Fail EXIT_BAD_HOSTSPEC
          else Ok (p, host)
      | [] => Ok (p, host)
      end
  end.

Definition dcc_parse_options (psrc : cstr) (host : dcc_hostdef) : outcome (cstr * dcc_hostdef) :=
  let host := set_options DCC_COMPRESS_NONE DCC_CPP_ON_CLIENT false (is_up host) host in
  match options_loop (S (length psrc)) psrc host with
  | Ok (p, host) =>
      let v := dcc_get_protover_from_features (compr host) (cpp_where host) in
      if (v =? -1)%Z then Fail EXIT_BAD_HOSTSPEC else Ok (p, set_protover v host)
  | o => o
  end.

Definition host_seps : cstr := ["/"; ":"; " "; "009"; "010"; "013"; "012"; ","]%char.
Definition ipv6_seps : cstr := ["/"; "]"; " "; "009"; "010"; "013"; "012"; ","]%char.
Definition ssh_seps : cstr := [" "; "009"; "010"; "013"; "012"; ","]%char.
Definition token_seps : cstr := [" "; "#"; "009"; "010"; "012"; "013"]%char.

Definition dcc_parse_ssh_host (hostdef : dcc_hostdef) (token_start : cstr) : M hstate dcc_hostdef :=
  let! r := dcc_dup_part token_start ["@"%char] in
  let '(u, token) := r in
  let hostdef := set_user u hostdef in
  match token with
  | c :: token =>
      if negb (ceqb c "@") then fail EXIT_BAD_HOSTSPEC
      else
        let! r := dcc_dup_part token host_seps in
        let '(hn, token) := r in
        let hostdef := set_hostname hn hostdef in
        match hn with
        | None => fail EXIT_BAD_HOSTSPEC
        | Some _ =>
            let! r := throw (dcc_parse_multiplier token (n_slots hostdef)) in
            let '(token, slots) := r in
            let hostdef := set_n_slots slots hostdef in
            let! r :=
              (if ceqb (cget token 0) ":" then
                 let! r := dcc_dup_part (drop 1 token) ssh_seps in
                 ret (r.2, set_ssh_command r.1 hostdef)
               else ret (token, hostdef)) in
            let! r := throw (dcc_parse_options r.1 r.2) in
            ret (set_mode (Some DCC_MODE_SSH) r.2)
        end
  | [] => fail EXIT_BAD_HOSTSPEC
  end.

Definition dcc_parse_tcp_host (hostdef : dcc_hostdef) (token_start : cstr) : M hstate dcc_hostdef :=
  let! r :=
    (if ceqb (cget token_start 0) "[" then
       let! r := dcc_dup_part token_start ipv6_seps in
       if negb (ceqb (cget r.2 0) "]") then fail EXIT_BAD_HOSTSPEC
       else ret (r.1, drop 1 r.2)
     else dcc_dup_part token_start host_seps) in
  let '(hn, token) := r in
  let hostdef := set_hostname hn hostdef in
  match hn with
  | None => fail EXIT_BAD_HOSTSPEC
  | Some _ =>
      let! r := throw (dcc_parse_multiplier token (n_slots hostdef)) in
      let '(token, slots) := r in
      let hostdef := set_port DISTCC_DEFAULT_PORT (set_n_slots slots hostdef) in
      let! r :=
        (if ceqb (cget token 0) ":" then
           let token := drop 1 token in
           let '(v, n) := strtol 10 token in
           let tail := drop n token in
           if negb (ceqb (cget tail 0) NUL) && negb (isspace (cget tail 0))
              && negb (ceqb (cget tail 0) "/") && negb (ceqb (cget tail 0) ",")
           then fail EXIT_BAD_HOSTSPEC
           else ret (tail, set_port (s32 v) hostdef)
         else ret (token, hostdef)) in
      let '(token, hostdef) := r in
      let! r := throw (dcc_parse_multiplier token (n_slots hostdef)) in
      let '(token, slots) := r in
      let hostdef := set_n_slots slots hostdef in
      let! r := throw (dcc_parse_options token hostdef) in
      ret (set_mode (Some DCC_MODE_TCP) r.2)
  end.

(** [strdup] is not checked. *)
Definition dcc_parse_localhost (hostdef : dcc_hostdef) (token_start : cstr) : M hstate dcc_hostdef :=
  let token := drop 9 token_start in
  let! b := malloc in
  let hostdef := set_hostname (if b then Some "localhost"%cs else None)
                   (set_mode (Some DCC_MODE_LOCAL) hostdef) in
  let hostdef := set_n_slots 2 hostdef in
  let! r := throw (dcc_parse_multiplier token (n_slots hostdef)) in
  ret (set_n_slots r.2 hostdef).

(** ** The list *)

(** A freshly allocated host. *)
Definition new_host (s : cstr) : dcc_hostdef :=
  HostDef None None None 0 None true 4 s 1 DCC_COMPRESS_NONE DCC_CPP_ON_CLIENT false.

Definition parse_host (where_ : cstr) (token_len : nat) : M hstate dcc_hostdef :=
  do! malloc_or EXIT_OUT_OF_MEMORY;
  do! malloc_or EXIT_OUT_OF_MEMORY;
  let curr := new_host (take token_len where_) in
  let has_at := bool_decide ("@"%char ∈ take token_len where_) in
  if strncmp0 where_ "localhost"%cs 9 && ((token_len =? 9) || ceqb (cget where_ 9) "/")
  then dcc_parse_localhost curr where_
  else if has_at then dcc_parse_ssh_host curr where_
  else dcc_parse_tcp_host curr where_.

(** "--localslots=N": the keyword is taken when its multiplier parses. *)
Definition parse_localslots (where_ key : cstr) (slots : Z) : option Z :=
  if strncmp0 where_ key (length key) then
    match dcc_parse_multiplier (drop (length key) where_) slots with
    | Ok (_, s) => Some s
    | _ => None
    end
  else None.

Definition ZEROCONF_MAGIC : cstr := "+zeroconf"%cs.

(** The hosts of a token that is no keyword.  The result of
    dcc_zeroconf_add_hosts is compared with 0 before it is assigned, so that
    an error of it becomes 1. *)
Definition token_hosts (where_ : cstr) (token_len nhosts : nat) : M hstate (list dcc_hostdef) :=
  match zeroconf_hosts with
  | Some add_hosts =>
      if (token_len =? length ZEROCONF_MAGIC) && strncmp0 where_ ZEROCONF_MAGIC token_len then λ s,
        match add_hosts nhosts s with
        | (Some hosts, s) => (Ok hosts, s)
        | (None, s) => (Fail 1, s)
        end
      else let! h := parse_host where_ token_len in ret [h]
  | None => let! h := parse_host where_ token_len in ret [h]
  end.

(** Hosts and the --randomize flag, with [nhosts] in the list so far; every round
    consumes a character. *)
Fixpoint parse_loop (fuel : nat) (where_ : cstr) (flag_randomize : bool) (nhosts : nat) :
    M hstate (list dcc_hostdef * bool) :=
  match fuel with
  | 0 => ub
  | S fuel =>
      match where_ with
      | [] => ret ([], flag_randomize)
      | c :: where' =>
          if ceqb c "#" then
            parse_loop fuel (drop (strcspn where' ["010"; "013"]%char) where') flag_randomize nhosts
          else if isspace c then parse_loop fuel where' flag_randomize nhosts
          else
            let token_len := strcspn where_ token_seps in
            let rest := drop token_len where_ in
            if strncmp0 where_ "--randomize"%cs 11 then parse_loop fuel rest true nhosts
            else
              let! st := gets (λ s, s) in
              match parse_localslots where_ "--localslots_cpp"%cs (local_cpp_slots st) with
              | Some n =>
                  do! modify (λ s, HState (h_mem s) (local_slots s) n);
                  parse_loop fuel rest flag_randomize nhosts
              | None =>
                  match parse_localslots where_ "--localslots"%cs (local_slots st) with
                  | Some n =>
                      do! modify (λ s, HState (h_mem s) n (local_cpp_slots s));
                      parse_loop fuel rest flag_randomize nhosts
                  | None =>
                      let! hosts := token_hosts where_ token_len nhosts in
                      let! r := parse_loop fuel rest flag_randomize (nhosts + length hosts) in
                      ret (hosts ++ r.1, r.2)
                  end
              end
      end
  end.

(** Pairs of hosts and random numbers, ordered by the numbers. *)
Definition container_le (a b : dcc_hostdef * Z) : Prop := (a.2 ≤ b.2)%Z.

#[export] Instance container_le_dec a b : Decision (container_le a b).
Proof. unfold container_le. apply _. Defined.

(** [rand i]: what the [i]-th [rand] gives after [srand(getpid())].  [qsort] is
    a merge sort. *)
Definition dcc_randomize_host_list (rand : nat → Z) (host_list : list dcc_hostdef) : M hstate (list dcc_hostdef) :=
  do! malloc_or EXIT_OUT_OF_MEMORY;
  ret (merge_sort container_le (zip host_list (rand <$> seq 0 (length host_list)))).*1.

(** The hosts of a text, to follow the [nhosts] that are in the list.  Putting all
    of them into random order from here, which would take the first ones along,
    is not followed: what zeroconf.c has parsed contains no --randomize. *)
Definition dcc_parse_more_hosts (nhosts : nat) (rand : nat → Z) (where_ : cstr) : M hstate (list dcc_hostdef) :=
  let! r := parse_loop (S (length where_)) where_ false nhosts in
  let '(hosts, flag_randomize) := r in
  if nhosts + length hosts =? 0 then fail EXIT_BAD_HOSTSPEC
  else if flag_randomize : bool then
    if nhosts =? 0 then dcc_randomize_host_list rand hosts else ub
  else ret hosts.

(** With an empty list, as for the environment and the files. *)
Definition dcc_parse_hosts : (nat → Z) → cstr → M hstate (list dcc_hostdef) := dcc_parse_more_hosts 0.

(** ** What the parser promises *)

(** A hostname is one word without a separator. *)
Definition hostname_ok (o : option cstr) : Prop :=
  ∃ n, o = Some n ∧ n ≠ [] ∧
    Forall (λ c, c ∉ ["/"; " "; "009"; "010"; "013"; "012"; ","]%char) n.

Definition host_wf (h : dcc_hostdef) : Prop :=
  match mode h with
  | Some DCC_MODE_LOCAL => True
  | Some _ => hostname_ok (hostname h)
  | None => False
  end ∧
  n_slots h ≠ 0%Z ∧
  protover h = dcc_get_protover_from_features (compr h) (cpp_where h) ∧ (1 ≤ protover h ≤ 3)%Z ∧
  hostdef_string h ≠ [] ∧ Forall (λ c, c ∉ token_seps) (hostdef_string h).

(** The errors a host list can cause. *)
Definition parse_error (c : Z) : Prop := c = EXIT_BAD_HOSTSPEC ∨ c = EXIT_OUT_OF_MEMORY.

Definition parse_post {A} (P : A → Prop) (o : outcome A) (_ : hstate) : Prop :=
  match o with
  | Ok a => P a
  | Fail c => parse_error c
  | _ => False
  end.

Lemma parse_post_bind {A B} (m : M hstate A) (k : A → M hstate B) (P : A → Prop) (Q : B → Prop) s :
  wp m (parse_post P) s → (∀ a s, P a → wp (k a) (parse_post Q) s) →
  wp (bind m k) (parse_post Q) s.
Proof.
  intros Hm Hk. apply wp_bind. eapply wp_mono; [exact Hm|]. intros [] s'; simpl; auto.
Qed.

Lemma parse_post_throw {A} (o : outcome A) (P : A → Prop) s s' :
  parse_post P o s' → wp (throw o) (parse_post P) s.
Proof. done. Qed.

Lemma parse_post_malloc_or s : wp (malloc_or EXIT_OUT_OF_MEMORY) (parse_post (λ _, True)) s.
Proof. apply wp_malloc_or; [done|]. intros l. by right. Qed.

Lemma dup_part_post src sep s :
  wp (dcc_dup_part src sep)
    (parse_post (λ r, match r.1 with
                      | None => r.2 = src
                      | Some a => src = a ++ r.2 ∧ a ≠ [] ∧ Forall (λ c, c ∉ sep) a
                      end)) s.
Proof.
  unfold dcc_dup_part. destruct (decide (strcspn src sep = 0)) as [H0|H0]; [done|].
  eapply parse_post_bind; [apply parse_post_malloc_or|]. intros _ s' _. apply wp_ret. simpl.
  rewrite take_drop. split; [done|]. split; [|apply strcspn_take].
  intros E. apply (f_equal length) in E. rewrite length_take in E.
  pose proof (strcspn_le src sep). simpl in E. lia.
Qed.

Lemma multiplier_post src slots s :
  slots ≠ 0%Z → parse_post (λ r, r.2 ≠ 0%Z) (dcc_parse_multiplier src slots) s.
Proof.
  intros Hs. destruct src as [|c src]; [done|]. unfold dcc_parse_multiplier.
  destruct (ceqb c "/" || ceqb c "="); [|done].
  destruct (Z.eqb_spec (atoi src) 0); [by left|done].
Qed.

(** Options change neither name nor slots. *)
Definition same_host (h h' : dcc_hostdef) : Prop :=
  hostname h' = hostname h ∧ n_slots h' = n_slots h ∧ hostdef_string h' = hostdef_string h ∧
  mode h' = mode h.

Lemma options_loop_post fuel p h s :
  length p < fuel → compr h ≠ DCC_COMPRESS_INVALID →
  parse_post (λ r, same_host h r.2 ∧ compr r.2 ≠ DCC_COMPRESS_INVALID) (options_loop fuel p h) s.
Proof.
  revert p h. induction fuel as [|fuel IH]; intros p h Hl Hc; [lia|].
  destruct p as [|c p]; simpl in Hl |- *; [done|].
  destruct (ceqb c ","); [|done].
  assert (∀ n c' w a up, c' ≠ DCC_COMPRESS_INVALID →
    parse_post (λ r, same_host h r.2 ∧ compr r.2 ≠ DCC_COMPRESS_INVALID)
      (options_loop fuel (drop n p) (set_options c' w a up h)) s) as Hstep.
  { intros n c' w a up Hc'. apply (IH (drop n p) (set_options c' w a up h)); [|done].
    rewrite length_drop. lia. }
  repeat case_match; try (by apply Hstep); by left.
Qed.

Lemma protover_range c w :
  dcc_get_protover_from_features c w ≠ (-1)%Z →
  (1 ≤ dcc_get_protover_from_features c w ≤ 3)%Z.
Proof. by destruct c, w. Qed.

Lemma parse_options_post p h s :
  parse_post (λ r, same_host h r.2 ∧
    protover r.2 = dcc_get_protover_from_features (compr r.2) (cpp_where r.2) ∧
    (1 ≤ protover r.2 ≤ 3)%Z) (dcc_parse_options p h) s.
Proof.
  unfold dcc_parse_options. set (h0 := set_options _ _ _ _ _).
  pose proof (options_loop_post (S (length p)) p h0 s ltac:(lia) ltac:(done)) as Ho.
  destruct (options_loop _ p h0) as [[q h']|c|c|]; simpl in Ho; try done.
  destruct Ho as [Hs _]. destruct (Z.eqb_spec
    (dcc_get_protover_from_features (compr h') (cpp_where h')) (-1)) as [|Hv]; [by left|].
  simpl. split; [exact Hs|]. split; [done|]. by apply protover_range.
Qed.

(** What every parser of one host promises. *)
Definition host_post (h0 h : dcc_hostdef) : Prop :=
  match mode h with
  | Some DCC_MODE_LOCAL => True
  | Some _ => hostname_ok (hostname h)
  | None => False
  end ∧ n_slots h ≠ 0%Z ∧
  protover h = dcc_get_protover_from_features (compr h) (cpp_where h) ∧ (1 ≤ protover h ≤ 3)%Z ∧
  hostdef_string h = hostdef_string h0.

Lemma hostname_ok_weaken sep n :
  n ≠ [] → Forall (λ c, c ∉ sep) n →
  ["/"; " "; "009"; "010"; "013"; "012"; ","]%char ⊆ sep → hostname_ok (Some n).
Proof.
  intros Hn Hs Hsub. exists n. split; [done|]. split; [done|].
  eapply Forall_impl; [exact Hs|]. intros c Hc Hc'. by apply Hc, Hsub.
Qed.

(** The end of both remote parsers: multiplier done, options to come. *)
Lemma finish_post h0 h md token s :
  hostname_ok (hostname h) → n_slots h ≠ 0%Z → hostdef_string h = hostdef_string h0 →
  md ≠ DCC_MODE_LOCAL →
  wp (let! r := throw (dcc_parse_options token h) in ret (set_mode (Some md) r.2))
    (parse_post (host_post h0)) s.
Proof.
  intros Hn Hs Hd Hmd.
  eapply parse_post_bind; [eapply parse_post_throw, (parse_options_post _ _ s)|].
  intros [q h'] s' ((H1 & H2 & H3 & H4) & H5 & H6). apply wp_ret. simpl in *.
  split_and!; simpl; try done; [destruct md; try done; by rewrite H1|congruence|lia..|congruence].
Qed.

Lemma parse_ssh_host_post h0 token s :
  n_slots h0 ≠ 0%Z → wp (dcc_parse_ssh_host h0 token) (parse_post (host_post h0)) s.
Proof.
  intros Hs. unfold dcc_parse_ssh_host.
  eapply parse_post_bind; [apply dup_part_post|]. intros [u tok] s1 _. cbn beta iota.
  destruct tok as [|c tok]; [by left|]. destruct (negb (ceqb c "@")); [by left|].
  eapply parse_post_bind; [apply dup_part_post|]. intros [[n|] tok2] s2 Hn; cbn beta iota; [|by left].
  simpl in Hn. destruct Hn as (_ & Hn & Hsep).
  eapply parse_post_bind; [eapply parse_post_throw, (multiplier_post _ _ s); exact Hs|].
  intros [tok3 slots] s3 Hslots. cbn beta iota.
  eapply (parse_post_bind _ _ (λ r, hostname_ok (hostname r.2) ∧ n_slots r.2 ≠ 0%Z ∧
    hostdef_string r.2 = hostdef_string h0)).
  { assert (hostname_ok (Some n)) by (eapply hostname_ok_weaken; [done..|set_solver]).
    destruct (ceqb (cget tok3 0) ":"); [|by apply wp_ret].
    eapply parse_post_bind; [apply dup_part_post|]. intros [x tok4] s4 _. by apply wp_ret. }
  intros [tok5 h5] s5 (H1 & H2 & H3). by apply finish_post.
Qed.

Lemma parse_tcp_host_post h0 token s :
  n_slots h0 ≠ 0%Z → wp (dcc_parse_tcp_host h0 token) (parse_post (host_post h0)) s.
Proof.
  intros Hs. unfold dcc_parse_tcp_host.
  eapply (parse_post_bind _ _ (λ r, r.1 = None ∨ hostname_ok r.1)).
  { destruct (ceqb (cget token 0) "[").
    - eapply parse_post_bind; [apply dup_part_post|]. intros [[n|] tok] s1 Hn; simpl in Hn |- *.
      + destruct (negb _); [by left|]. apply wp_ret. right.
        destruct Hn as (_ & Hn & Hsep). eapply hostname_ok_weaken; [done..|set_solver].
      + destruct (negb _); [by left|]. apply wp_ret. by left.
    - eapply wp_mono; [apply dup_part_post|]. intros [[[n|] tok]|c|c|] s1 Hn; simpl in *; auto.
      right. destruct Hn as (_ & Hn & Hsep). eapply hostname_ok_weaken; [done..|set_solver]. }
  intros [hn tok] s1 Hn. cbn beta iota. destruct hn as [n|]; [|by left].
  destruct Hn as [|Hn]; [done|]. simpl in Hn.
  eapply parse_post_bind; [eapply parse_post_throw, (multiplier_post _ _ s); exact Hs|].
  intros [tok3 slots] s3 Hslots. cbn beta iota.
  eapply (parse_post_bind _ _ (λ r, hostname_ok (hostname r.2) ∧ n_slots r.2 ≠ 0%Z ∧
    hostdef_string r.2 = hostdef_string h0)).
  { destruct (ceqb (cget tok3 0) ":"); [|by apply wp_ret].
    destruct (strtol 10 _) as [v k]. destruct (_ && _ && _ && _); [by left|by apply wp_ret]. }
  intros [tok5 h5] s5 (H1 & H2 & H3). cbn beta iota. simpl in *.
  eapply parse_post_bind; [eapply parse_post_throw, (multiplier_post _ _ s); exact H2|].
  intros [tok6 slots6] s6 Hs6. cbn beta iota. by apply finish_post.
Qed.

Lemma parse_localhost_post token s str :
  wp (dcc_parse_localhost (new_host str) token) (parse_post (host_post (new_host str))) s.
Proof.
  unfold dcc_parse_localhost. apply wp_bind. unfold wp, malloc.
  assert (∀ hn s', wp (let! r := throw (dcc_parse_multiplier (drop 9 token) 2) in
    ret (set_n_slots r.2 (set_n_slots 2 (set_hostname hn (set_mode (Some DCC_MODE_LOCAL) (new_host str))))))
      (parse_post (host_post (new_host str))) s') as Hk.
  { intros hn s'.
    eapply parse_post_bind; [eapply parse_post_throw, (multiplier_post _ _ s); lia|].
    intros [q v] s2 Hv. apply wp_ret. simpl in *. split_and!; simpl; try done; lia. }
  destruct (get_mem s); apply Hk.
Qed.

Lemma parse_host_post where_ n s :
  wp (parse_host where_ n) (parse_post (host_post (new_host (take n where_)))) s.
Proof.
  unfold parse_host.
  eapply parse_post_bind; [apply parse_post_malloc_or|]. intros _ s1 _.
  eapply parse_post_bind; [apply parse_post_malloc_or|]. intros _ s2 _.
  destruct (_ && _); [apply parse_localhost_post|].
  case_bool_decide; [by apply parse_ssh_host_post|by apply parse_tcp_host_post].
Qed.

Lemma token_len_pos c w : isspace c = false → ceqb c "#" = false → 0 < strcspn (c :: w) token_seps.
Proof.
  intros Hs Hh. simpl. rewrite bool_decide_eq_false_2; [lia|]. intros Hin. unfold token_seps in Hin.
  rewrite !elem_of_cons in Hin.
  destruct Hin as [->|[->|[->|[->|[->|[->|Hin]]]]]]; try done. by apply elem_of_nil in Hin.
Qed.

(** What dcc_zeroconf_add_hosts promises: well-formed hosts, and a list that is
    not empty. *)
Class ZeroconfLaws : Prop := {
  zeroconf_wf add_hosts n s hosts s' :
    zeroconf_hosts = Some add_hosts → add_hosts n s = (Some hosts, s') → Forall host_wf hosts ∧ 0 < n + length hosts
}.

(** The text asks for the hosts of zeroconf, and they cannot be had. *)
Definition no_zeroconf_hosts (where_ : cstr) : Prop :=
  (∃ a b, where_ = a ++ ZEROCONF_MAGIC ++ b) ∧
  ∃ add_hosts n s s', zeroconf_hosts = Some add_hosts ∧ add_hosts n s = (None, s').

Definition list_post {A} (where_ : cstr) (P : A → Prop) (o : outcome A) (_ : hstate) : Prop :=
  match o with
  | Ok a => P a
  | Fail c => parse_error c ∨ c = 1%Z ∧ no_zeroconf_hosts where_
  | _ => False
  end.

Lemma no_zeroconf_app a w : no_zeroconf_hosts w → no_zeroconf_hosts (a ++ w).
Proof. intros [(x & y & ->) H]. split; [|done]. exists (a ++ x), y. by rewrite !app_assoc. Qed.

Lemma list_post_bind {A B} w (m : M hstate A) (k : A → M hstate B) (P : A → Prop) (Q : B → Prop) s :
  wp m (list_post w P) s → (∀ a s, P a → wp (k a) (list_post w Q) s) → wp (bind m k) (list_post w Q) s.
Proof. intros Hm Hk. apply wp_bind. eapply wp_mono; [exact Hm|]. intros [] s'; simpl; auto. Qed.

Lemma list_post_of {A} w (m : M hstate A) (P : A → Prop) s : wp m (parse_post P) s → wp m (list_post w P) s.
Proof. intros Hm. eapply wp_mono; [exact Hm|]. intros [] s'; simpl; auto. Qed.

Section laws.
Context {LAWS : ZeroconfLaws}.

Lemma token_hosts_post c w nhosts s :
  let n := strcspn (c :: w) token_seps in
  0 < n → wp (token_hosts (c :: w) n nhosts) (list_post (c :: w) (λ hosts, Forall host_wf hosts ∧ 0 < nhosts + length hosts)) s.
Proof.
  intros n Hpos. unfold token_hosts.
  assert (wp (let! h := parse_host (c :: w) n in ret [h])
    (list_post (c :: w) (λ hosts, Forall host_wf hosts ∧ 0 < nhosts + length hosts)) s) as Hh.
  { apply list_post_of. eapply parse_post_bind; [apply parse_host_post|]. intros h s2 (H1 & H2 & H3 & H4 & H5).
    apply wp_ret. split; [|simpl; lia]. constructor; [|done]. unfold host_wf. rewrite H5. simpl. split_and!; try done; try lia.
    - intros E. apply (f_equal length) in E. rewrite length_take in E. simpl in E. lia.
    - exact (strcspn_take (c :: w) token_seps). }
  destruct zeroconf_hosts as [add_hosts|] eqn:Ez; [|done].
  destruct (Nat.eqb_spec n (length ZEROCONF_MAGIC)) as [En|]; [|done].
  destruct (strncmp0 _ _ _) eqn:Es; [|done]. unfold wp. simpl.
  destruct (add_hosts nhosts s) as [[hosts|] s'] eqn:Ea; simpl.
  - by eapply zeroconf_wf.
  - right. split; [done|]. split; [|by eauto 10]. rewrite En, strncmp0_sym in Es.
    apply strncmp0_prefix in Es as [b Es]. by exists [], b.
Qed.

Lemma parse_loop_post fuel where_ flag nhosts s :
  length where_ < fuel →
  wp (parse_loop fuel where_ flag nhosts) (list_post where_ (λ r, Forall host_wf r.1)) s.
Proof.
  revert where_ flag nhosts s. induction fuel as [|fuel IH]; intros where_ flag nhosts s Hl; [lia|].
  destruct where_ as [|c w]; [apply (wp_ret ([], flag)); by apply Forall_nil|].
  simpl in Hl.
  assert (∀ a v flag nhosts s, c :: w = a ++ v → a ≠ [] → wp (parse_loop fuel v flag nhosts)
    (list_post (c :: w) (λ r, Forall host_wf r.1)) s) as Hrest.
  { intros a v flag' n' s' E Ha. eapply wp_mono.
    - apply IH. apply (f_equal length) in E. rewrite length_app in E. destruct a; [done|]. simpl in *. lia.
    - rewrite E. intros [] s'' H; simpl in *; try done. destruct H as [|[-> H]]; [by left|right]. split; [done|].
      by apply no_zeroconf_app. }
  cbn [parse_loop].
  destruct (ceqb c "#") eqn:Hh; [eapply (Hrest (c :: take _ w)); [by rewrite <- app_comm_cons, take_drop|done]|].
  destruct (isspace c) eqn:Hs; [by apply (Hrest [c])|].
  pose proof (token_len_pos c w Hs Hh) as Hpos. pose proof (token_hosts_post c w nhosts) as Htok.
  set (n := strcspn (c :: w) token_seps) in *.
  assert (take n (c :: w) ≠ []) as Hne.
  { intros E. apply (f_equal length) in E. rewrite length_take in E. simpl in E. lia. }
  assert (c :: w = take n (c :: w) ++ drop n (c :: w)) as Ecw by by rewrite take_drop.
  destruct (strncmp0 (c :: w) _ 11); [by eapply Hrest|].
  eapply (list_post_bind _ _ _ (λ _, True)); [by apply wp_gets|]. intros st s1 _. simpl in *.
  destruct (parse_localslots _ _ (local_cpp_slots st)) as [k|].
  { eapply (list_post_bind _ _ _ (λ _, True)); [by apply wp_modify|]. intros _ s2 _. by eapply Hrest. }
  destruct (parse_localslots _ _ (local_slots st)) as [k|].
  { eapply (list_post_bind _ _ _ (λ _, True)); [by apply wp_modify|]. intros _ s2 _. by eapply Hrest. }
  eapply list_post_bind; [by apply Htok|]. intros hosts s2 [Hwf _].
  eapply list_post_bind; [by eapply Hrest|]. intros r s3 Hr. apply wp_ret. simpl. by apply Forall_app.
Qed.

Lemma parse_more_hosts_post nhosts rand where_ s :
  wp (dcc_parse_more_hosts nhosts rand where_)
     (λ o s', (o = Undef ∧ nhosts ≠ 0) ∨ list_post where_ (λ hosts, Forall host_wf hosts ∧ 0 < nhosts + length hosts) o s') s.
Proof.
  unfold dcc_parse_more_hosts. apply wp_bind. eapply wp_mono; [apply parse_loop_post; lia|].
  intros [[hosts flag]|e|e|] s1 H; try done; [|by right]. simpl in H.
  destruct (Nat.eqb_spec (nhosts + length hosts) 0); [by right; left; left|].
  destruct flag; [|apply wp_ret; right; split; [done|lia]].
  destruct (Nat.eqb_spec nhosts 0) as [->|]; [|by left].
  eapply wp_mono; [|by intros o s' Ho; right; exact Ho].
  apply list_post_of. eapply parse_post_bind; [apply parse_post_malloc_or|]. intros _ s2 _. apply wp_ret.
  set (l := merge_sort _ _).
  assert (l.*1 ≡ₚ hosts) as Hp.
  { unfold l. rewrite merge_sort_Permutation. by rewrite fst_zip by (rewrite length_fmap, length_seq; done). }
  split; rewrite Hp; [done|lia].
Qed.

(** C40.  Whatever text the host list holds and whatever allocations fail,
    [dcc_parse_hosts] returns: a non-empty list of hosts that all have a mode, a
    usable name unless they are local, a nonzero number of slots, and a protocol
    version that fits their options; or EXIT_BAD_HOSTSPEC or EXIT_OUT_OF_MEMORY;
    or 1, only when the build has Avahi, the text contains "+zeroconf" and the
    hosts of zeroconf cannot be had.  (That those are well-formed is what
    zeroconf.c promises the parser.) *)
Theorem parse_hosts_wf (rand : nat → Z) (where_ : cstr) (s : hstate) :
  wp (dcc_parse_hosts rand where_)
     (λ o _, match o with
             | Ok hosts => hosts ≠ [] ∧ Forall host_wf hosts
             | Fail c => c = EXIT_BAD_HOSTSPEC ∨ c = EXIT_OUT_OF_MEMORY ∨ c = 1%Z ∧ no_zeroconf_hosts where_
             | _ => False
             end) s.
Proof.
  eapply wp_mono; [by apply parse_more_hosts_post|]. intros [hosts|e|e|] s' [[]|H]; try done.
  - destruct H as [Hwf Hl]. split; [|done]. intros ->. simpl in Hl. lia.
  - destruct H as [[]|]; auto.
Qed.
End laws.

(** --randomize only reorders: the list is a permutation of the
    parsed one, in the order of the random numbers drawn. *)
Lemma randomize_permutes (rand : nat → Z) (hosts : list dcc_hostdef) (s : hstate) :
  mem_ok s →
  ∃ l, dcc_randomize_host_list rand hosts s = (Ok l.*1, s) ∧
    l ≡ₚ zip hosts (rand <$> seq 0 (length hosts)) ∧ Sorted container_le l ∧ l.*1 ≡ₚ hosts.
Proof.
  intros Hm. unfold dcc_randomize_host_list. erewrite bind_Ok by by apply malloc_or_ok.
  eexists. split; [done|]. split; [apply merge_sort_Permutation|]. split.
  - apply Sorted_merge_sort. intros a b. unfold container_le. lia.
  - rewrite merge_sort_Permutation. by rewrite fst_zip by (rewrite length_fmap, length_seq; done).
Qed.

(** Versions and features correspond: the version chosen for a pair
    of features is one the server knows and stands for those features, and the
    only valid pair without a version is preprocessing on the server without
    compression. *)
Lemma protover_features (c : dcc_compress) (w : dcc_cpp_where) :
  c ≠ DCC_COMPRESS_INVALID →
  if decide (c = DCC_COMPRESS_NONE ∧ w = DCC_CPP_ON_SERVER)
  then dcc_get_protover_from_features c w = (-1)%Z
  else dcc_get_features_from_protover (dcc_get_protover_from_features c w) = (0%Z, c, w) ∧
       (1 ≤ dcc_get_protover_from_features c w ≤ DCC_VER_3)%Z.
Proof. unfold DCC_VER_3. destruct c, w; intros Hc; case_decide; simpl; try naive_solver lia. Qed.

(** ** Writing a host down *)

(** Letters, digits, dots and dashes. *)
Definition name_char (c : ascii) : bool :=
  isdigit c || ((65 <=? code c)%Z && (code c <=? 90)%Z) || ((97 <=? code c)%Z && (code c <=? 122)%Z)
  || ceqb c "." || ceqb c "-".

Definition plain_name (n : cstr) : Prop :=
  n ≠ [] ∧ Forall (λ c, name_char c = true) n ∧ cget n 0 ≠ "-"%char ∧ n ≠ "localhost"%cs.

Definition option_text (c : dcc_compress) (w : dcc_cpp_where) : cstr :=
  (if decide (c = DCC_COMPRESS_LZO1X) then ",lzo"%cs else []) ++
  (if decide (w = DCC_CPP_ON_SERVER) then ",cpp"%cs else []).

(** "NAME/SLOTS:PORT,OPTIONS" *)
Definition tcp_text (n : cstr) (slots prt : Z) (c : dcc_compress) (w : dcc_cpp_where) : cstr :=
  n ++ "/"%cs ++ dec slots ++ ":"%cs ++ dec prt ++ option_text c w.

Lemma name_char_seps c :
  name_char c = true → c ∉ host_seps ∧ c ∉ token_seps ∧ c ≠ "@"%char ∧ isspace c = false ∧
    c ≠ "["%char ∧ c ≠ "#"%char.
Proof.
  intros H. unfold host_seps, token_seps.
  destruct c as [[] [] [] [] [] [] [] []]; try (by vm_compute in H);
    (split_and!; [intros Hin|intros Hin|..]; try done;
     repeat (apply elem_of_cons in Hin as [Hin|Hin]; [discriminate|]); by apply elem_of_nil in Hin).
Qed.

Lemma strcspn_app a b sep :
  Forall (λ c, c ∉ sep) a → strcspn (a ++ b) sep = length a + strcspn b sep.
Proof.
  induction 1 as [|c a Hc _ IH]; simpl; [done|]. rewrite bool_decide_eq_false_2 by done. by rewrite IH.
Qed.

Lemma dup_part_app a b sep s :
  mem_ok s → a ≠ [] → Forall (λ c, c ∉ sep) a → strcspn b sep = 0 →
  dcc_dup_part (a ++ b) sep s = (Ok (Some a, b), s).
Proof.
  intros Hm Ha Hs Hb. unfold dcc_dup_part. rewrite strcspn_app, Hb, Nat.add_0_r by done.
  rewrite decide_False by (by destruct a). erewrite bind_Ok by by apply malloc_or_ok.
  by rewrite take_app_length, drop_app_length.
Qed.

Lemma skip_digits_dec ds rest :
  Forall (λ c, isdigit c = true) ds → match rest with c :: _ => isdigit c = false | [] => True end →
  skip_digits (ds ++ rest) = rest.
Proof.
  induction 1 as [|c ds Hc _ IH]; intros Hr; simpl.
  - destruct rest as [|r rest]; [done|]. simpl. by rewrite Hr.
  - rewrite Hc. auto.
Qed.

Lemma parse_options_text c w h :
  c ≠ DCC_COMPRESS_INVALID → ¬ (c = DCC_COMPRESS_NONE ∧ w = DCC_CPP_ON_SERVER) →
  dcc_parse_options (option_text c w) h =
    Ok ([], set_protover (dcc_get_protover_from_features c w) (set_options c w false (is_up h) h)).
Proof. intros Hc Hcw. destruct c, w; try done; exfalso; auto. Qed.

Lemma option_text_head c w :
  option_text c w = [] ∨ ∃ r, option_text c w = ","%char :: r.
Proof. unfold option_text. repeat case_decide; simpl; eauto. Qed.

(** The host [tcp_text] describes. *)
Definition tcp_host (n : cstr) (slots prt : Z) (c : dcc_compress) (w : dcc_cpp_where) : dcc_hostdef :=
  HostDef (Some DCC_MODE_TCP) None (Some n) prt None true slots (tcp_text n slots prt c w)
    (dcc_get_protover_from_features c w) c w false.

Lemma parse_tcp_text n slots prt c w str s :
  mem_ok s → plain_name n → (0 < slots < 2 ^ 31)%Z → (0 ≤ prt < 2 ^ 31)%Z →
  c ≠ DCC_COMPRESS_INVALID → ¬ (c = DCC_COMPRESS_NONE ∧ w = DCC_CPP_ON_SERVER) →
  dcc_parse_tcp_host (new_host str) (tcp_text n slots prt c w) s =
    (Ok (HostDef (Some DCC_MODE_TCP) None (Some n) prt None true slots str
           (dcc_get_protover_from_features c w) c w false), s).
Proof.
  intros Hm (Hn & Hch & Hdash & Hloc) Hsl Hp Hc Hcw. unfold dcc_parse_tcp_host, tcp_text.
  assert (ceqb (cget (n ++ "/"%cs ++ dec slots ++ ":"%cs ++ dec prt ++ option_text c w) 0) "[" = false)
    as ->.
  { destruct n as [|a n]; [done|]. inversion_clear Hch as [|?? Ha]. simpl.
    apply ceqb_false. by apply name_char_seps. }
  erewrite bind_Ok; [|apply (dup_part_app n); [done..| |reflexivity]].
  2:{ eapply Forall_impl; [exact Hch|]. intros x Hx. by apply name_char_seps. }
  cbn beta iota.
  destruct (dec_digits slots ltac:(lia)) as [Hs1 Hs2], (dec_digits prt ltac:(lia)) as [Hp1 Hp2].
  assert (no_digit (option_text c w) ∧
    match option_text c w with x :: _ => isdigit x = false | [] => True end) as [Hod Hod'].
  { destruct (option_text_head c w) as [->|[r ->]]; done. }
  assert (dcc_parse_multiplier ("/"%cs ++ dec slots ++ ":"%cs ++ dec prt ++ option_text c w) 4 =
    Ok (":"%cs ++ dec prt ++ option_text c w, slots)) as Hmul.
  { cbn [app dcc_parse_multiplier]. change (ceqb "/" "/") with true. cbn [orb].
    rewrite atoi_dec by (done || lia). rewrite (proj2 (Z.eqb_neq _ _)) by lia.
    by rewrite skip_digits_dec. }
  erewrite bind_Ok by exact (f_equal (λ o, (o, s)) Hmul). cbn beta iota.
  cbn [app cget lookup list_lookup default from_option id ceqb bool_decide decide decide_rel].
  change (ceqb (cget (":"%char :: dec prt ++ option_text c w) 0) ":") with true. cbn iota.
  change (drop 1 (":"%char :: dec prt ++ option_text c w)) with (dec prt ++ option_text c w).
  change (ceqb ":" ":") with true. cbn iota. rewrite strtol_dec by (done || lia). cbn beta iota. rewrite drop_app_length.
  assert (negb (ceqb (cget (option_text c w) 0) NUL) && negb (isspace (cget (option_text c w) 0))
     && negb (ceqb (cget (option_text c w) 0) "/") && negb (ceqb (cget (option_text c w) 0) ",") = false)
    as ->.
  { destruct (option_text_head c w) as [->|[r ->]]; done. }
  erewrite bind_Ok by done. cbn beta iota.
  assert (∀ k, dcc_parse_multiplier (option_text c w) k = Ok (option_text c w, k)) as Hmul2.
  { intros k. destruct (option_text_head c w) as [->|[r ->]]; done. }
  erewrite bind_Ok by (unfold throw; rewrite Hmul2; reflexivity). cbn beta iota.
  erewrite bind_Ok by (unfold throw; rewrite parse_options_text by done; reflexivity).
  unfold ret. simpl. by rewrite s32_id by lia.
Qed.

Lemma tcp_text_no_seps n slots prt c w :
  plain_name n → (0 < slots < 2 ^ 31)%Z → (0 ≤ prt < 2 ^ 31)%Z →
  Forall (λ x, x ∉ token_seps ∧ x ≠ "@"%char) (tcp_text n slots prt c w).
Proof.
  intros (Hn & Hch & _) Hsl Hp. unfold tcp_text.
  assert (∀ x, isdigit x = true → x ∉ token_seps ∧ x ≠ "@"%char) as Hdig.
  { intros x Hx. destruct (name_char_seps x) as (_ & ? & ? & _); [|done].
    unfold name_char. by rewrite Hx. }
  assert (∀ l, bool_decide (Forall (λ x, x ∉ token_seps ∧ x ≠ "@"%char) l) = true →
    Forall (λ x, x ∉ token_seps ∧ x ≠ "@"%char) l) as Hb by (intros l; apply bool_decide_eq_true).
  repeat (apply Forall_app; split).
  - eapply Forall_impl; [exact Hch|]. intros x Hx. by destruct (name_char_seps x Hx) as (_ & ? & ? & _).
  - by apply Hb.
  - eapply Forall_impl; [apply (dec_digits slots); lia|]. exact Hdig.
  - by apply Hb.
  - eapply Forall_impl; [apply (dec_digits prt); lia|]. exact Hdig.
  - apply Hb. by destruct c.
  - apply Hb. by destruct w.
Qed.

Lemma strcspn_all a sep : Forall (λ c, c ∉ sep) a → strcspn a sep = length a.
Proof.
  intros Ha. rewrite <- (app_nil_r a) at 1. rewrite strcspn_app by done. simpl. lia.
Qed.

(** The name is not taken for localhost. *)
Lemma tcp_text_not_local n rest :
  plain_name n →
  strncmp0 (n ++ "/"%cs ++ rest) "localhost"%cs 9 &&
    ((length (n ++ "/"%cs ++ rest) =? 9) || ceqb (cget (n ++ "/"%cs ++ rest) 9) "/") = false.
Proof.
  intros (Hn & Hch & _ & Hloc). apply andb_false_iff.
  destruct (strncmp0 _ "localhost"%cs 9) eqn:E; [right|by left].
  rewrite strncmp0_sym in E.
  apply (strncmp0_prefix "localhost"%cs) in E as [k Hk].
  assert (9 < length n) as Hl.
  { destruct (decide (length n < 9)) as [Hlt|Hge].
    - assert (("localhost"%cs ++ k) !! length n = Some "/"%char) as Hx.
      { rewrite <- Hk, lookup_app_r, Nat.sub_diag by lia. done. }
      rewrite lookup_app_l in Hx by (simpl; lia). apply list_elem_of_lookup_2 in Hx.
      exfalso. by vm_compute in Hx; repeat (apply elem_of_cons in Hx as [Hx|Hx]; [discriminate|]);
        apply elem_of_nil in Hx.
    - destruct (decide (length n = 9)) as [H9|]; [|lia]. exfalso. apply Hloc.
      apply (f_equal (take 9)) in Hk. rewrite take_app_length' in Hk by done.
      by rewrite take_app_length' in Hk by done. }
  apply orb_false_iff. split.
  - apply Nat.eqb_neq. rewrite length_app. simpl. lia.
  - rewrite cget_app_l by done. apply ceqb_false. unfold cget.
    destruct (lookup_lt_is_Some_2 n 9 Hl) as [x Hx]. rewrite Hx. simpl.
    rewrite Forall_lookup in Hch. apply Hch in Hx. apply name_char_seps in Hx as (Hs & _).
    intros ->. apply Hs. unfold host_seps. by left.
Qed.

(** A TCP host written as "NAME/SLOTS:PORT,OPTIONS" parses back to
    exactly the host described: name, slots, port, compression, place of
    preprocessing and the protocol version they imply. *)
Lemma tcp_host_roundtrip (rand : nat → Z) (n : cstr) (slots prt : Z) (c : dcc_compress)
    (w : dcc_cpp_where) (s : hstate) :
  mem_ok s → plain_name n → (0 < slots < 2 ^ 31)%Z → (0 ≤ prt < 2 ^ 31)%Z →
  c ≠ DCC_COMPRESS_INVALID → ¬ (c = DCC_COMPRESS_NONE ∧ w = DCC_CPP_ON_SERVER) →
  dcc_parse_hosts rand (tcp_text n slots prt c w) s = (Ok [tcp_host n slots prt c w], s).
Proof.
  intros Hm Hn Hsl Hp Hc Hcw. unfold dcc_parse_hosts, dcc_parse_more_hosts.
  pose proof (tcp_text_no_seps n slots prt c w Hn Hsl Hp) as Hseps.
  pose proof (tcp_text_not_local n (dec slots ++ ":"%cs ++ dec prt ++ option_text c w) Hn) as Hnl.
  fold (tcp_text n slots prt c w) in Hnl.
  pose proof (parse_tcp_text n slots prt c w (tcp_text n slots prt c w) s Hm Hn Hsl Hp Hc Hcw) as Htcp.
  assert (strcspn (tcp_text n slots prt c w) token_seps = length (tcp_text n slots prt c w)) as Hlen.
  { apply strcspn_all. eapply Forall_impl; [exact Hseps|]. naive_solver. }
  assert (∃ a t, tcp_text n slots prt c w = a :: t ∧ name_char a = true ∧ a ≠ "-"%char) as
    (a & t & Ht & Ha & Hdash).
  { destruct Hn as (Hn0 & Hch & Hd & _). destruct n as [|a n]; [done|].
    inversion_clear Hch. by do 2 eexists. }
  assert (a ≠ "+"%char) as Hplus by by intros ->.
  apply name_char_seps in Ha as (_ & _ & _ & Hsp & _ & Hhash).
  assert (∀ key, ceqb "-" (cget key 0) = true → strncmp0 (tcp_text n slots prt c w) key (length key) = false)
    as Hkey.
  { intros [|x key] Hx; [done|]. change (ceqb "-" x = true) in Hx. apply ceqb_true in Hx. subst x.
    rewrite Ht. cbn [length strncmp0]. apply andb_false_iff. left. by apply ceqb_false. }
  assert (parse_host (tcp_text n slots prt c w) (length (tcp_text n slots prt c w)) s =
    (Ok (tcp_host n slots prt c w), s)) as Hph.
  { unfold parse_host. do 2 erewrite bind_Ok by by apply malloc_or_ok.
    rewrite take_ge by done. rewrite Hnl. rewrite bool_decide_eq_false_2; [exact Htcp|].
    intros Hin. rewrite Forall_forall in Hseps. by apply Hseps in Hin as [_ ?]. }
  assert (token_hosts (tcp_text n slots prt c w) (length (tcp_text n slots prt c w)) 0 s = (Ok [tcp_host n slots prt c w], s)) as Hth.
  { unfold token_hosts. destruct zeroconf_hosts; [|by rewrite (bind_Ok _ _ _ _ _ Hph)].
    assert (∀ k, 0 < k → strncmp0 (tcp_text n slots prt c w) ZEROCONF_MAGIC k = false) as ->.
    { intros [|k] Hk; [lia|]. rewrite Ht. simpl. apply andb_false_iff. left. by apply ceqb_false. }
    - by rewrite andb_false_r, (bind_Ok _ _ _ _ _ Hph).
    - rewrite Ht. simpl. lia. }
  assert (parse_loop (S (length (tcp_text n slots prt c w))) (tcp_text n slots prt c w) false 0 s =
    (Ok ([tcp_host n slots prt c w], false), s)) as Hloop.
  { rewrite Ht at 2. cbn [parse_loop]. rewrite <- Ht.
    rewrite (proj2 (ceqb_false a "#")), Hsp by done.
    rewrite (Hkey "--randomize"%cs eq_refl : strncmp0 _ _ 11 = false). erewrite bind_Ok by done. unfold parse_localslots.
    rewrite !Hkey by done. cbn beta iota. rewrite Hlen, drop_ge by done.
    rewrite (bind_Ok _ _ _ _ _ Hth). destruct (length (tcp_text n slots prt c w)) eqn:El;
      [by rewrite Ht in El|]. done. }
  rewrite (bind_Ok _ _ _ _ _ Hloop). done.
Qed.
End Hosts.

Lemma no_zeroconf_laws : ZeroconfLaws (ZC := no_zeroconf).
Proof. split. done. Qed.

(** ** Oddities *)

(** Three things the parser accepts: an IPv6 address keeps its opening
    bracket in the hostname, a negative multiplier becomes the number of slots,
    and "--localslots=0" is taken for the name of a TCP host. *)
Lemma parse_hosts_quirks :
  let parse w := match (dcc_parse_hosts (Cfg := usual_config) (ZC := no_zeroconf) (λ _, 0%Z) w (HState [] 8 8)).1 with
                 | Ok [h] => Some (mode h, hostname h, n_slots h)
                 | _ => None
                 end in
  parse "[::1]:3632"%cs = Some (Some DCC_MODE_TCP, Some "[::1"%cs, 4%Z) ∧
  parse "fast/-3"%cs = Some (Some DCC_MODE_TCP, Some "fast"%cs, (-3)%Z) ∧
  parse "--localslots=0"%cs = Some (Some DCC_MODE_TCP, Some "--localslots=0"%cs, 4%Z).
Proof. vm_compute. repeat split. Qed.

(** ** Witnesses *)

Lemma randomize_permutes_witness :
  let hosts := [new_host "a"%cs; new_host "b"%cs; new_host "c"%cs] in
  let rand i := (5 - Z.of_nat i)%Z in
  ∃ l, dcc_randomize_host_list rand hosts (HState [] 8 8) = (Ok l.*1, HState [] 8 8) ∧
    l ≡ₚ zip hosts (rand <$> seq 0 (length hosts)) ∧ Sorted container_le l ∧ l.*1 ≡ₚ hosts.
Proof.
  apply (randomize_permutes (λ i, 5 - Z.of_nat i)%Z
    [new_host "a"%cs; new_host "b"%cs; new_host "c"%cs] (HState [] 8 8)). reflexivity.
Defined.

Lemma protover_features_witness :
  dcc_get_features_from_protover (dcc_get_protover_from_features DCC_COMPRESS_LZO1X DCC_CPP_ON_SERVER) =
    (0%Z, DCC_COMPRESS_LZO1X, DCC_CPP_ON_SERVER) ∧
  (1 ≤ dcc_get_protover_from_features DCC_COMPRESS_LZO1X DCC_CPP_ON_SERVER ≤ DCC_VER_3)%Z.
Proof. apply (protover_features DCC_COMPRESS_LZO1X DCC_CPP_ON_SERVER). discriminate. Defined.

Lemma tcp_host_roundtrip_witness :
  dcc_parse_hosts (Cfg := usual_config) (ZC := no_zeroconf) (λ _, 0%Z) "build-1.example.org/8:4000,lzo,cpp"%cs (HState [] 8 8) =
    (Ok [tcp_host "build-1.example.org"%cs 8 4000 DCC_COMPRESS_LZO1X DCC_CPP_ON_SERVER], HState [] 8 8).
Proof.
  apply (tcp_host_roundtrip (Cfg := usual_config) (ZC := no_zeroconf) (λ _, 0%Z) "build-1.example.org"%cs 8 4000
    DCC_COMPRESS_LZO1X DCC_CPP_ON_SERVER (HState [] 8 8)); try reflexivity; try discriminate; try lia;
    [|by intros [? _]].
  split_and!; try discriminate. apply (bool_decide_unpack _). vm_compute. exact I.
Defined.

(** A network with one host. *)
Definition ex_zeroconf : ZeroconfHosts := {|
  zeroconf_hosts := Some (λ _ s, (Some [tcp_host "h"%cs 4 3632 DCC_COMPRESS_NONE DCC_CPP_ON_CLIENT], s))
|}.

Lemma ex_zeroconf_laws : ZeroconfLaws (ZC := ex_zeroconf).
Proof.
  split. intros add_hosts n s hosts s' [= <-] [= <- <-]. split; [|simpl; lia]. constructor; [|done].
  split_and!; try done; [|by apply (bool_decide_unpack _); vm_compute].
  exists "h"%cs. split_and!; [done..|]. by apply (bool_decide_unpack _); vm_compute.
Qed.

Lemma parse_hosts_wf_witness :
  match (dcc_parse_hosts (Cfg := usual_config) (ZC := ex_zeroconf) (λ _, 0%Z) "a +zeroconf"%cs (HState [] 8 8)).1 with
  | Ok hosts => length hosts = 2 ∧ Forall host_wf hosts
  | _ => False
  end.
Proof.
  pose proof (parse_hosts_wf (Cfg := usual_config) (ZC := ex_zeroconf) (LAWS := ex_zeroconf_laws) (λ _, 0%Z)
    "a +zeroconf"%cs (HState [] 8 8)) as H. unfold wp in H.
  assert (length <$> (match (dcc_parse_hosts (Cfg := usual_config) (ZC := ex_zeroconf) (λ _, 0%Z) "a +zeroconf"%cs
    (HState [] 8 8)).1 with Ok l => Some l | _ => None end) = Some 2) as E by (vm_compute; reflexivity).
  destruct (dcc_parse_hosts _ _ _) as [[l| | |] s]; try discriminate E. injection E as E. split; [exact E|apply H].
Defined.
