(* ===== verification/Access.v ===== *)
(** * access.c and srvnet.c: which clients may connect

    Addresses are kept as the code keeps them, as bytes in network order in
    memory; an [in_addr] is also read and written as a 32-bit integer in the
    byte order of the machine.  The resolver and the printing of addresses
    belong to the C library and are parameters. *)

From S2P Require Import Prelude CLib Util.

(** ** Integers in memory *)

(** The integer whose bytes, least significant first, are [l]. *)
Fixpoint load_le (l : list Z) : Z :=
  match l with
  | [] => 0
  | b :: r => Z.lor b (Z.shiftl (load_le r) 8)
  end.

Fixpoint store_le (n : nat) (z : Z) : list Z :=
  match n with
  | 0 => []
  | S n => Z.land z 255 :: store_le n (Z.shiftr z 8)
  end.

Section access.
Context `{Config}.

(** A [uint32_t] object, in the byte order of the machine. *)
Definition load32 (l : list Z) : Z := load_le (if little_endian then l else reverse l).
Definition store32 (z : Z) : list Z :=
  if little_endian then store_le 4 z else reverse (store_le 4 z).

Definition htonl (z : Z) : Z :=
  if little_endian then load_le (reverse (store_le 4 z)) else z.

(** ** Addresses *)

Definition AF_UNIX : Z := 1.
Definition AF_INET : Z := 2.
Definition AF_INET6 : Z := 10.

(** What [accept] and [getaddrinfo] hand over. *)
Inductive sockaddr :=
| Sa_in (sin_addr : list Z) (sin_port : Z)
| Sa_in6 (sin6_addr : list Z) (sin6_port : Z)
| Sa_un (sun_path : cstr)
| Sa_other (sa_family : Z).

(** [dcc_address_t]: a family and the bytes of the union.  Without RFC 2553
    it is an [in_addr], whose family is always [AF_INET]. *)
Record dcc_address := Address { family : Z; addr : list Z }.

(** The library calls that read and print numeric addresses. *)
Class Resolver := {
  inet_aton : cstr → option (list Z);
  getaddrinfo : cstr → option sockaddr;
  getnameinfo : sockaddr → option (cstr * cstr);
  inet_ntoa : list Z → cstr
}.
Context `{Resolver}.

Definition allones : Z := 0xffffffff.
Definition allones8 : Z := 0xff.

(** Overwrite the first bytes of an object. *)
Definition overwrite (new old : list Z) : list Z := new ++ drop (length new) old.

Definition split_mask {St} `{MemState St} (spec : cstr) : M St (cstr * option cstr) :=
  let value_len := strcspn spec "/"%cs in
  do! malloc_or (-1);
  ret (take value_len spec,
       if negb (ceqb (cget spec value_len) NUL) && negb (ceqb (cget spec (value_len + 1)) NUL)
       then Some (drop (value_len + 1) spec) else None).

Definition set_allones (a : dcc_address) : dcc_address :=
  if ENABLE_RFC2553 then Address (family a) (repeat allones8 16)
  else Address (family a) (store32 allones).

(** [~x] on [uint32_t] and on [uint8_t]. *)
Definition set_mask_inet (a : list Z) (mask_bits : Z) : list Z :=
  overwrite (store32 (htonl (u32 (Z.lnot (Z.shiftr allones mask_bits))))) a.

Definition set_mask_inet6 (a : list Z) (mask_bits : Z) : list Z :=
  let allones_count := Z.to_nat (Z.quot mask_bits 8) in
  let a := foldl (λ a i, <[i := allones8]> a) a (seq 0 allones_count) in
  let a := <[allones_count := (Z.lnot (Z.shiftr allones8 (Z.rem mask_bits 8)) mod 256)%Z]> a in
  foldl (λ a i, <[i := 0%Z]> a) a (seq (S allones_count) (16 - S allones_count)).

Definition set_mask (mask : dcc_address) (mask_bits : Z) : dcc_address :=
  if ENABLE_RFC2553 then
    if (family mask =? AF_INET)%Z
    then Address (family mask) (set_mask_inet (addr mask) mask_bits)
    else Address (family mask) (set_mask_inet6 (addr mask) mask_bits)
  else Address (family mask) (set_mask_inet (addr mask) mask_bits).

(** The value part of the specification. *)
Definition parse_value (value_str : cstr) (value : dcc_address) : option dcc_address :=
  if ENABLE_RFC2553 then
    match getaddrinfo value_str with
    | Some (Sa_in a _) => Some (Address AF_INET (overwrite a (addr value)))
    | Some (Sa_in6 a _) => Some (Address AF_INET6 (overwrite a (addr value)))
    | _ => None
    end
  else
    match inet_aton value_str with
    | Some a => Some (Address AF_INET a)
    | None => None
    end.

(** [value] and [mask] are the objects the caller passes, as it left them. *)
Definition dcc_parse_mask {St} `{MemState St} (spec : cstr) (value mask : dcc_address) :
    M St (dcc_address * dcc_address) :=
  let! r := attempt (split_mask spec) in
  match r with
  | inr _ => fail EXIT_OUT_OF_MEMORY
  | inl (value_str, mask_str) =>
      match parse_value value_str value with
      | None => fail EXIT_BAD_ARGUMENTS
      | Some value =>
          let mask := Address (family value) (addr mask) in
          match mask_str with
          | None => ret (value, set_allones mask)
          | Some mask_str =>
              let mask_max_bits :=
                if ENABLE_RFC2553 then if (family mask =? AF_INET)%Z then 32%Z else 128%Z
                else 32%Z in
              let mask_bits := atoi mask_str in
              if (mask_bits <? 0)%Z || (mask_max_bits <? mask_bits)%Z
              then fail EXIT_BAD_ARGUMENTS
              else if (mask_bits =? mask_max_bits)%Z then ret (value, set_allones mask)
              else ret (value, set_mask mask mask_bits)
          end
      end
  end.

(** The first four bytes of the union, read as [s_addr]. *)
Definition s_addr (a : list Z) : Z := load32 (take 4 a).

(** 0 when the client may connect, as the code has it. *)
Definition check_address_inet (client value mask : list Z) : Z :=
  if (Z.land (s_addr client) (s_addr mask) =? Z.land (s_addr value) (s_addr mask))%Z
  then 0 else EXIT_ACCESS_DENIED.

Fixpoint compare_address_inet6 (n : nat) (client value mask : list Z) : bool :=
  match n with
  | 0 => true
  | S n =>
      if (Z.land (default 0%Z (head client)) (default 0%Z (head mask)) =?
          Z.land (default 0%Z (head value)) (default 0%Z (head mask)))%Z
      then compare_address_inet6 n (tail client) (tail value) (tail mask)
      else false
  end.

Definition check_address_inet6 (client value mask : list Z) : Z :=
  if compare_address_inet6 16 client value mask then 0 else EXIT_ACCESS_DENIED.

Definition inet_from_inet6 (a : list Z) : Z :=
  foldl (λ dest i, Z.lor dest (u32 (Z.shiftl (a !!! (12 + i)) (8 * (3 - Z.of_nat i)))))
    0%Z (seq 0 4).

Definition IN6_IS_ADDR_V4MAPPED (a : list Z) : bool :=
  bool_decide (take 12 a = repeat 0%Z 10 ++ [255; 255]%Z).
Definition IN6_IS_ADDR_V4COMPAT (a : list Z) : bool :=
  bool_decide (take 12 a = repeat 0%Z 12) && (1 <? load_le (reverse (take 4 (drop 12 a))))%Z.

Definition dcc_check_address (client : sockaddr) (value mask : dcc_address) : Z :=
  match client with
  | Sa_in cli_addr _ =>
      if ENABLE_RFC2553 then
        if (family value =? AF_INET)%Z
        then check_address_inet cli_addr (addr value) (addr mask)
        else EXIT_ACCESS_DENIED
      else check_address_inet cli_addr (addr value) (addr mask)
  | Sa_in6 a6 _ =>
      if ENABLE_RFC2553 then
        if (family value =? AF_INET)%Z then
          if IN6_IS_ADDR_V4MAPPED a6 || IN6_IS_ADDR_V4COMPAT a6
          then check_address_inet (store32 (inet_from_inet6 a6)) (addr value) (addr mask)
          else EXIT_ACCESS_DENIED
        else check_address_inet6 a6 (addr value) (addr mask)
      else EXIT_ACCESS_DENIED
  | _ => EXIT_ACCESS_DENIED
  end.

(** ** The server's check *)

(** The job summary (trace.c) is a static buffer of 4096 bytes. *)
Record job_state := JobState { j_mem : list bool; job_summary : cstr }.

#[export, refine] Instance job_mem_state : MemState job_state := {|
  get_mem := j_mem;
  set_mem := λ l s, JobState l (job_summary s)
|}.
Proof. all: by try intros []. Defined.

Definition dcc_job_summary_clear : M job_state unit := modify (λ s, JobState (j_mem s) []).

(** [strncat(job_summary, s, 4096 - strlen(job_summary))] writes its
    terminator after the characters it copies. *)
Definition dcc_job_summary_append (x : cstr) : M job_state unit :=
  let! old := gets job_summary in
  let new := old ++ take (4096 - length old) x in
  if (length new + 1 <=? 4096) then modify (λ s, JobState (j_mem s) new) else ub.

(** The string is NULL when the allocation fails. *)
Definition dcc_sockaddr_to_string (sa : option sockaddr) : M job_state (option cstr) :=
  let s :=
    match sa with
    | None => "NOTSOCKET"%cs
    | Some (Sa_un path) => "UNIX-DOMAIN "%cs ++ path
    | Some (Sa_other f) => "UNKNOWN-FAMILY "%cs ++ dec f
    | Some sa =>
        if ENABLE_RFC2553 then
          match getnameinfo sa with
          | None => "(UNKNOWN)"%cs
          | Some (host, port) => host ++ ":"%cs ++ port
          end
        else
          match sa with
          | Sa_in a port => inet_ntoa a ++ ":"%cs ++ dec port
          | _ => "UNKNOWN-FAMILY "%cs ++ dec AF_INET6
          end
    end in
  let! b := malloc in ret (if b then Some s else None).

Fixpoint check_list (psa : sockaddr) (l : list (dcc_address * dcc_address)) (ret0 : Z) : Z :=
  match l with
  | [] => ret0
  | (value, mask) :: l =>
      let r := dcc_check_address psa value mask in
      if (r =? EXIT_ACCESS_DENIED)%Z then check_list psa l r else r
  end.

(** Returns the code of the check. *)
Definition dcc_check_client (psa : option sockaddr) (allowed : list (dcc_address * dcc_address)) :
    M job_state Z :=
  let! client_ip := dcc_sockaddr_to_string psa in
  match client_ip with
  | None => ub
  | Some client_ip =>
      do! dcc_job_summary_append "client: "%cs;
      do! dcc_job_summary_append client_ip;
      match psa, allowed with
      | None, _ => ret 0%Z
      | _, [] => ret 0%Z
      | Some psa, _ => ret (check_list psa allowed 0)
      end
  end.

(** ** Bits *)

Definition is_byte (b : Z) : Prop := (0 ≤ b < 256)%Z.

(** The bits of an address, most significant first. *)
Definition byte_bits (b : Z) : list bool := Z.testbit b <$> [7; 6; 5; 4; 3; 2; 1; 0]%Z.
Definition addr_bits (a : list Z) : list bool := a ≫= byte_bits.

(** The network mask of [n] bits on [len] bytes. *)
Fixpoint mask_bytes (n len : nat) : list Z :=
  match len with
  | 0 => []
  | S len => (255 - Z.shiftr 255 (Z.of_nat n `min` 8))%Z :: mask_bytes (n - 8) len
  end.
Arguments mask_bytes : simpl nomatch.

Definition masked (a m : list Z) : list Z := zip_with Z.land a m.

Lemma byte_forall (P : Z → bool) b :
  forallb P (Z.of_nat <$> seq 0 256) = true → is_byte b → P b = true.
Proof.
  intros HP Hb. rewrite forallb_forall in HP. apply HP, list_elem_of_In, list_elem_of_fmap.
  exists (Z.to_nat b). rewrite elem_of_seq. unfold is_byte in Hb. lia.
Qed.

(** Masking a byte keeps exactly its leading bits. *)
Lemma byte_mask_bits b n : is_byte b →
  take n (byte_bits (Z.land b (255 - Z.shiftr 255 (Z.of_nat n `min` 8)))) = take n (byte_bits b) ∧
  Z.land b (255 - Z.shiftr 255 (Z.of_nat n `min` 8)) =
    load_le [foldl (λ v x, 2 * v + Z.b2z x)%Z 0%Z (take n (byte_bits b) ++ repeat false (8 - n))].
Proof.
  intros Hb.
  assert (n ≤ 8 ∨ 8 < n) as [Hn|Hn] by lia.
  - assert (In n (seq 0 9)) as Hin by (apply in_seq; lia). simpl in Hin.
    set (P n := λ b, bool_decide
      (take n (byte_bits (Z.land b (255 - Z.shiftr 255 (Z.of_nat n `min` 8)))) = take n (byte_bits b) ∧
       Z.land b (255 - Z.shiftr 255 (Z.of_nat n `min` 8)) =
       load_le [foldl (λ v x, 2 * v + Z.b2z x)%Z 0%Z (take n (byte_bits b) ++ repeat false (8 - n))])).
    enough (P n b = true) as HP by exact (bool_decide_eq_true_1 _ HP).
    apply byte_forall; [|done].
    repeat (destruct Hin as [<-|Hin]; [vm_compute; reflexivity|]). done.
  - replace (Z.of_nat n `min` 8)%Z with 8%Z by lia.
    replace (8 - n) with 0 by lia. rewrite !(take_ge (byte_bits _)) by (simpl; lia).
    set (P := λ b, bool_decide
      (byte_bits (Z.land b (255 - Z.shiftr 255 8)) = byte_bits b ∧
       Z.land b (255 - Z.shiftr 255 8) =
       load_le [foldl (λ v x, 2 * v + Z.b2z x)%Z 0%Z (byte_bits b ++ repeat false 0)])).
    enough (P b = true) as HP by exact (bool_decide_eq_true_1 _ HP).
    apply byte_forall; [vm_compute; reflexivity|done].
Qed.

(** Two addresses agree under the mask iff their first [n] bits do. *)
Lemma masked_prefix len n a b :
  length a = len → length b = len → Forall is_byte a → Forall is_byte b →
  masked a (mask_bytes n len) = masked b (mask_bytes n len) ↔
  take n (addr_bits a) = take n (addr_bits b).
Proof.
  revert n a b. induction len as [|len IH]; intros n [|x a] [|y b] La Lb Ha Hb; try done.
  apply Forall_cons in Ha as [Hx Ha], Hb as [Hy Hb].
  unfold addr_bits. rewrite !bind_cons, !take_app.
  replace (length (byte_bits x)) with 8 by done. replace (length (byte_bits y)) with 8 by done.
  unfold masked. simpl mask_bytes. simpl zip_with.
  destruct (byte_mask_bits x n Hx) as [Hx1 Hx2], (byte_mask_bits y n Hy) as [Hy1 Hy2].
  split.
  - intros [= E1 E2]. f_equal; [by rewrite <- Hx1, <- Hy1, E1|].
    apply IH; try done; simpl in *; lia.
  - intros [E1 E2]%app_inj_1; [|by rewrite !length_take].
    f_equal; [by rewrite Hx2, Hy2, E1|]. apply (IH (n - 8) a b); try done; simpl in *; lia.
Qed.

(** ** Integers and bytes *)

Lemma byte_testbit b i : is_byte b → (8 ≤ i)%Z → Z.testbit b i = false.
Proof.
  intros [Hb0 Hb] Hi. rewrite <- (Z.mod_small b 256) by lia.
  change 256%Z with (2 ^ 8)%Z. by rewrite Z.mod_pow2_bits_high by lia.
Qed.

Lemma load_le_testbit b r i : is_byte b → (0 ≤ i)%Z →
  Z.testbit (load_le (b :: r)) i =
    if (i <? 8)%Z then Z.testbit b i else Z.testbit (load_le r) (i - 8).
Proof.
  intros Hb Hi. simpl. rewrite Z.lor_spec, Z.shiftl_spec by done.
  destruct (Z.ltb_spec i 8).
  - rewrite (Z.testbit_neg_r _ (i - 8)) by lia. by rewrite orb_false_r.
  - by rewrite byte_testbit.
Qed.

Lemma land_byte b m : is_byte b → is_byte m → is_byte (Z.land b m).
Proof.
  intros Hb [Hm0 Hm]. assert (0 ≤ Z.land b m)%Z by (apply Z.land_nonneg; auto).
  split; [done|]. destruct (Z.lt_ge_cases (Z.land b m) 256) as [|Hge]; [done|].
  assert (8 ≤ Z.log2 (Z.land b m))%Z.
  { change 8%Z with (Z.log2 256). by apply Z.log2_le_mono. }
  exfalso. assert (Z.testbit (Z.land b m) (Z.log2 (Z.land b m)) = true) as E by (apply Z.bit_log2; lia).
  rewrite Z.land_spec, byte_testbit in E by done. done.
Qed.

Lemma load_le_masked a m : length a = length m → Forall is_byte a → Forall is_byte m →
  load_le (masked a m) = Z.land (load_le a) (load_le m).
Proof.
  revert m. induction a as [|x a IH]; intros [|y m] L Ha Hm; try done.
  apply Forall_cons in Ha as [Hx Ha], Hm as [Hy Hm].
  apply Z.bits_inj'. intros i Hi. unfold masked. simpl zip_with.
  rewrite Z.land_spec, !load_le_testbit by (try apply land_byte; done).
  destruct (Z.ltb_spec i 8); [by rewrite Z.land_spec|].
  fold (masked a m). rewrite IH by (auto; simpl in *; lia). by rewrite Z.land_spec.
Qed.

Lemma load_le_inj a b : length a = length b → Forall is_byte a → Forall is_byte b →
  load_le a = load_le b → a = b.
Proof.
  revert b. induction a as [|x a IH]; intros [|y b] L Ha Hb E; try done.
  apply Forall_cons in Ha as [Hx Ha], Hb as [Hy Hb].
  assert (∀ i, (0 ≤ i)%Z → Z.testbit (load_le (x :: a)) i = Z.testbit (load_le (y :: b)) i)
    as Hbit by (by rewrite E).
  f_equal.
  - apply Z.bits_inj'. intros i Hi. destruct (Z.lt_ge_cases i 8).
    + specialize (Hbit i Hi). rewrite !load_le_testbit in Hbit by done.
      by destruct (Z.ltb_spec i 8); [|lia].
    + by rewrite !byte_testbit.
  - apply IH; auto. apply Z.bits_inj'. intros i Hi.
    specialize (Hbit (i + 8)%Z ltac:(lia)). rewrite !load_le_testbit in Hbit by (done || lia).
    destruct (Z.ltb_spec (i + 8) 8); [lia|]. by rewrite Z.add_simpl_r in Hbit.
Qed.

Lemma Forall_masked a m : Forall is_byte a → Forall is_byte m → Forall is_byte (masked a m).
Proof.
  intros Ha. revert m. induction Ha as [|x a Hx Ha IH]; intros m Hm; [done|].
  destruct Hm as [|y m Hy Hm]; constructor; [by apply land_byte|by apply IH].
Qed.

Lemma masked_reverse a m : length a = length m → masked (reverse a) (reverse m) = reverse (masked a m).
Proof.
  revert m. induction a as [|x a IH]; intros [|y m] L; try done.
  rewrite !reverse_cons. unfold masked. simpl in L.
  rewrite zip_with_app by (rewrite !length_reverse; lia). simpl.
  rewrite reverse_cons. f_equal. apply IH. lia.
Qed.

(** The masked comparison of integers is the one of bytes, whatever the byte
    order. *)
Lemma check_address_inet_spec c v m :
  4 ≤ length c → 4 ≤ length v → 4 ≤ length m →
  Forall is_byte (take 4 c) → Forall is_byte (take 4 v) → Forall is_byte (take 4 m) →
  check_address_inet c v m = 0%Z ↔ masked (take 4 c) (take 4 m) = masked (take 4 v) (take 4 m).
Proof.
  intros Lc Lv Lm Hc Hv Hm. unfold check_address_inet, s_addr.
  assert (∀ l, Forall is_byte (take 4 l) → Forall is_byte (if little_endian then take 4 l else reverse (take 4 l)))
    as HR by (intros l Hl; destruct little_endian; [done|by apply Forall_reverse]).
  assert (∀ l : list Z, 4 ≤ length l → length (if little_endian then take 4 l else reverse (take 4 l)) = 4) as HL.
  { intros l Hl. destruct little_endian; rewrite ?length_reverse, length_take; lia. }
  unfold load32. rewrite <- !load_le_masked by (auto; by rewrite !HL).
  destruct (Z.eqb_spec (load_le (masked (if little_endian then take 4 c else reverse (take 4 c)) (if little_endian then take 4 m else reverse (take 4 m))))
    (load_le (masked (if little_endian then take 4 v else reverse (take 4 v)) (if little_endian then take 4 m else reverse (take 4 m))))) as [E|E].
  - split; [intros _|done]. apply load_le_inj in E.
    + destruct little_endian; [done|]. rewrite !masked_reverse in E by (rewrite !length_take; lia).
      by apply (inj reverse) in E.
    + unfold masked. by rewrite !length_zip_with, !HL.
    + by apply Forall_masked; auto.
    + by apply Forall_masked; auto.
  - split; [done|]. intros E'. destruct E. f_equal. destruct little_endian; [done|].
    rewrite !masked_reverse by (rewrite !length_take; lia). by rewrite E'.
Qed.

Lemma compare_address_inet6_spec n c v m :
  length c = n → length v = n → length m = n →
  compare_address_inet6 n c v m = true ↔ masked c m = masked v m.
Proof.
  revert c v m. induction n as [|n IH]; intros [|x c] [|y v] [|z m] Lc Lv Lm; try done.
  simpl. destruct (Z.eqb_spec (Z.land x z) (Z.land y z)) as [E|E].
  - rewrite IH by (simpl in *; lia). unfold masked. simpl. rewrite E. split; congruence.
  - split; [done|]. unfold masked. simpl. congruence.
Qed.

(** ** The masks *)

Lemma set_mask_inet_bytes a n : 4 ≤ length a → (0 ≤ n < 32)%Z →
  take 4 (set_mask_inet a n) = mask_bytes (Z.to_nat n) 4.
Proof.
  intros La Hn.
  assert (∀ k, k < 32 → store32 (htonl (u32 (Z.lnot (Z.shiftr allones (Z.of_nat k))))) = mask_bytes k 4) as Hk.
  { intros k Hk. assert (In k (seq 0 32)) as Hin by (apply in_seq; lia). simpl in Hin.
    unfold store32, htonl. destruct little_endian;
      repeat (destruct Hin as [<-|Hin]; [vm_compute; reflexivity|]); done. }
  unfold set_mask_inet, overwrite. rewrite <- (Z2Nat.id n) at 1 by lia. rewrite Hk by lia.
  apply take_app_length'. done.
Qed.

Lemma set_mask_inet6_bytes a n : length a = 16 → (0 ≤ n < 128)%Z →
  set_mask_inet6 a n = mask_bytes (Z.to_nat n) 16.
Proof.
  intros La Hn. do 16 (destruct a as [|? a]; [done|]). destruct a; [|done]. clear La.
  rewrite <- (Z2Nat.id n) at 1 by lia.
  assert (In (Z.to_nat n) (seq 0 128)) as Hin by (apply in_seq; lia).
  revert Hin. generalize (Z.to_nat n). simpl seq. intros k Hin.
  repeat (destruct Hin as [<-|Hin]; [vm_compute; reflexivity|]). done.
Qed.

Lemma mask_bytes_full n len : 8 * len ≤ n → mask_bytes n len = repeat 255%Z len.
Proof.
  revert n. induction len as [|len IH]; intros n Hn; [done|]. simpl.
  rewrite IH by lia. by replace (Z.of_nat n `min` 8)%Z with 8%Z by lia.
Qed.

Lemma mask_bytes_byte n len : Forall is_byte (mask_bytes n len).
Proof.
  revert n. induction len as [|len IH]; intros n; [done|]. constructor; [|apply IH].
  assert (0 ≤ Z.of_nat n `min` 8 < 9)%Z as Hk by lia. revert Hk.
  generalize (Z.of_nat n `min` 8)%Z. intros k Hk.
  rewrite Z.shiftr_div_pow2 by lia.
  assert (0 ≤ 255 / 2 ^ k ≤ 255)%Z; [|unfold is_byte; lia].
  split; [apply Z.div_pos; lia|]. apply Z.div_le_upper_bound; [lia|]. nia.
Qed.

Lemma length_mask_bytes n len : length (mask_bytes n len) = len.
Proof. revert n. induction len as [|len IH]; intros n; simpl; [done|]. by rewrite IH. Qed.

(** ** What a mask specification admits *)

(** The address in a socket address of a family the build supports. *)
Definition native (sa : sockaddr) : option (Z * list Z) :=
  match sa with
  | Sa_in a _ => Some (AF_INET, a)
  | Sa_in6 a _ => if ENABLE_RFC2553 then Some (AF_INET6, a) else None
  | _ => None
  end.

Definition wf_sockaddr (sa : sockaddr) : Prop :=
  match sa with
  | Sa_in a _ => length a = 4 ∧ Forall is_byte a
  | Sa_in6 a _ => length a = 16 ∧ Forall is_byte a
  | _ => True
  end.

(** What the build's resolver makes of a numeric host. *)
Definition resolve (host : cstr) : option sockaddr :=
  if ENABLE_RFC2553 then getaddrinfo host
  else a ← inet_aton host; Some (Sa_in a 0).

(** The address of the client as an entry of family [f] sees it.  An IPv6 address
    that embeds an IPv4 one counts as that for an IPv4 entry, with its bytes
    reversed when the machine is little-endian. *)
Definition seen_as (f : Z) (client : sockaddr) : option (list Z) :=
  match client with
  | Sa_in c _ => if (f =? AF_INET)%Z then Some c else None
  | Sa_in6 c _ =>
      if negb ENABLE_RFC2553 then None
      else if (f =? AF_INET6)%Z then Some c
      else if IN6_IS_ADDR_V4MAPPED c || IN6_IS_ADDR_V4COMPAT c
      then Some (if little_endian then reverse (drop 12 c) else drop 12 c)
      else None
  | _ => None
  end.

(** The address of the client, so seen, matches the first [n] bits of the address
    [a] of family [f]. *)
Definition admits (f : Z) (a : list Z) (n : nat) (client : sockaddr) : Prop :=
  ∃ c, seen_as f client = Some c ∧ take n (addr_bits c) = take n (addr_bits a).

(** What [dcc_parse_mask] stores for a mask of [n] bits. *)
Record mask_for (f : Z) (a : list Z) (n : nat) (v m : dcc_address) : Prop := MaskFor {
  mf_family : family v = f;
  mf_value : take (length a) (addr v) = a;
  mf_len : f = AF_INET6 → addr v = a ∧ length (addr m) = 16;
  mf_mask : take (length a) (addr m) = mask_bytes n (length a)
}.

Lemma split_mask_bits {St} `{MemState St} host n (σ : St) :
  mem_ok σ → "/"%char ∉ host → (0 ≤ n < 10 ^ 18)%Z →
  split_mask (host ++ "/"%cs ++ dec n) σ = (Ok (host, Some (dec n)), σ).
Proof.
  intros Hm Hh Hn. unfold split_mask.
  assert (strcspn (host ++ "/"%cs ++ dec n) "/"%cs = length host) as ->.
  { clear Hm. induction host as [|x host IH]; [done|]. simpl. apply not_elem_of_cons in Hh as [Hx Hh].
    rewrite bool_decide_eq_false_2 by set_solver. f_equal. by apply IH. }
  rewrite (bind_Ok _ _ _ () σ) by (by apply malloc_or_ok).
  rewrite take_app_length, app_assoc, Nat.add_1_r.
  rewrite drop_app_length' by (rewrite length_app; simpl; lia).
  destruct (dec_digits n Hn) as [Hne Hd]. destruct (dec n) as [|d l] eqn:E; [done|].
  apply Forall_cons in Hd as [Hd _].
  rewrite <- app_assoc. unfold cget.
  rewrite lookup_app_r, Nat.sub_diag by lia. simpl.
  rewrite lookup_app_r, Nat.sub_succ_l, Nat.sub_diag by lia. simpl.
  destruct (ceqb d NUL) eqn:Ed; [|done]. apply ceqb_true in Ed. by subst d.
Qed.

Lemma split_mask_plain {St} `{MemState St} host (σ : St) :
  mem_ok σ → "/"%char ∉ host → split_mask host σ = (Ok (host, None), σ).
Proof.
  intros Hm Hh. unfold split_mask.
  assert (strcspn host "/"%cs = length host) as ->.
  { clear Hm. induction host as [|x host IH]; [done|]. simpl. apply not_elem_of_cons in Hh as [Hx Hh].
    rewrite bool_decide_eq_false_2 by set_solver. f_equal. by apply IH. }
  rewrite (bind_Ok _ _ _ () σ) by (by apply malloc_or_ok).
  rewrite take_ge by done. unfold cget. by rewrite lookup_ge_None_2.
Qed.

(** The size of the objects the caller passes. *)
Definition address_size : nat := if ENABLE_RFC2553 then 16 else 4.

Lemma parse_value_native host sa f a value :
  resolve host = Some sa → wf_sockaddr sa → native sa = Some (f, a) →
  length (addr value) = address_size →
  ∃ v, parse_value host value = Some v ∧ family v = f ∧ take (length a) (addr v) = a ∧
       (f = AF_INET6 → addr v = a) ∧
       (f = AF_INET ∧ length a = 4 ∨ f = AF_INET6 ∧ length a = 16 ∧ ENABLE_RFC2553 = true).
Proof.
  unfold resolve, parse_value, native, address_size. intros Hr Hw Hn Hl.
  destruct ENABLE_RFC2553.
  - rewrite Hr. destruct sa; simplify_eq; eexists; (split; [done|]); simpl in *;
      (split_and!; [done|by apply take_app_length|..]); try naive_solver.
    intros _. unfold overwrite. rewrite drop_ge by lia. by rewrite app_nil_r.
  - destruct (inet_aton host) as [b|]; simplify_eq/=. eexists. split; [done|]. simpl.
    rewrite take_ge by lia. naive_solver.
Qed.

Lemma set_allones_bytes f (a : list Z) n m :
  (f = AF_INET ∧ length a = 4 ∨ f = AF_INET6 ∧ length a = 16 ∧ ENABLE_RFC2553 = true) →
  n = 8 * length a →
  take (length a) (addr (set_allones m)) = mask_bytes n (length a) ∧
  (f = AF_INET6 → length (addr (set_allones m)) = 16).
Proof.
  intros Hf ->. rewrite mask_bytes_full by lia. unfold set_allones, store32.
  destruct ENABLE_RFC2553; [|destruct little_endian]; destruct Hf as [[-> ->]|(-> & -> & ?)]; done.
Qed.

Lemma set_mask_bytes f (a : list Z) n m :
  (f = AF_INET ∧ length a = 4 ∨ f = AF_INET6 ∧ length a = 16 ∧ ENABLE_RFC2553 = true) →
  length (addr m) = address_size → family m = f → (0 ≤ n < 8 * Z.of_nat (length a))%Z →
  take (length a) (addr (set_mask m n)) = mask_bytes (Z.to_nat n) (length a) ∧
  (f = AF_INET6 → length (addr (set_mask m n)) = 16).
Proof.
  intros Hf Hl Hfm Hn. unfold set_mask, address_size in *. rewrite Hfm.
  destruct Hf as [[-> L]|(-> & L & Hc)]; rewrite L in *.
  - destruct ENABLE_RFC2553; simpl; (split; [|done]); rewrite set_mask_inet_bytes; try done; lia.
  - rewrite Hc in *. simpl. rewrite set_mask_inet6_bytes by (done || lia).
    rewrite take_ge by (by rewrite length_mask_bytes). by rewrite length_mask_bytes.
Qed.

(** The value and the mask that a specification with [n] bits gives. *)
Lemma parse_mask_for {St} `{MemState St} spec host sa f a n value mask (σ : St) :
  mem_ok σ → "/"%char ∉ host → resolve host = Some sa → wf_sockaddr sa →
  native sa = Some (f, a) → n ≤ 8 * length a →
  length (addr value) = address_size → length (addr mask) = address_size →
  (spec = host ++ "/"%cs ++ dec (Z.of_nat n) ∨ spec = host ∧ n = 8 * length a) →
  ∃ v m, dcc_parse_mask spec value mask σ = (Ok (v, m), σ) ∧ mask_for f a n v m.
Proof.
  intros Hm Hh Hr Hw Hn Hle Hlv Hlm Hspec.
  destruct (parse_value_native _ _ _ _ value Hr Hw Hn Hlv) as (v & Ev & Hfv & Hv & Hv6 & Hf).
  assert (length a ≤ 16) as La by naive_solver lia.
  set (m0 := Address (family v) (addr mask)).
  destruct Hspec as [->|[-> Hfull]].
  - exists v, (if decide (n = 8 * length a) then set_allones m0 else set_mask m0 (Z.of_nat n)).
    unfold dcc_parse_mask. unfold bind at 1, attempt. rewrite split_mask_bits by (done || lia).
    rewrite Ev. rewrite <- (app_nil_r (dec _)), atoi_dec by (simpl; lia || done).
    assert ((if ENABLE_RFC2553 then if (family m0 =? AF_INET)%Z then 32%Z else 128%Z else 32%Z) =
            8 * Z.of_nat (length a))%Z as Emax.
    { simpl. rewrite Hfv. destruct Hf as [[-> ->]|(-> & -> & ->)]; [by destruct ENABLE_RFC2553|done]. }
    fold m0. rewrite Emax.
    destruct (Z.ltb_spec (Z.of_nat n) 0); [lia|].
    destruct (Z.ltb_spec (8 * Z.of_nat (length a)) (Z.of_nat n)); [lia|]. simpl orb. cbv iota.
    destruct (Z.eqb_spec (Z.of_nat n) (8 * Z.of_nat (length a))), (decide (n = 8 * length a)); try lia.
    + split; [done|]. destruct (set_allones_bytes f a n m0 Hf) as [? ?]; [done|].
      constructor; naive_solver.
    + split; [done|]. destruct (set_mask_bytes f a (Z.of_nat n) m0 Hf) as [E ?]; [done..|lia|].
      rewrite Nat2Z.id in E. constructor; naive_solver.
  - exists v, (set_allones m0). unfold dcc_parse_mask. unfold bind at 1, attempt.
    rewrite split_mask_plain by done. rewrite Ev. split; [done|].
    destruct (set_allones_bytes f a n m0 Hf) as [? ?]; [done|]. constructor; naive_solver.
Qed.

Lemma store_load l : Forall is_byte l → store_le (length l) (load_le l) = l.
Proof.
  induction 1 as [|b l Hb Hl IH]; [done|]. cbn [length store_le].
  assert (Z.shiftr (load_le (b :: l)) 8 = load_le l) as E2.
  { apply Z.bits_inj'. intros i Hi. rewrite Z.shiftr_spec, load_le_testbit by (done || lia).
    destruct (Z.ltb_spec (i + 8) 8); [lia|]. f_equal. lia. }
  rewrite E2, IH. f_equal. apply Z.bits_inj'. intros i Hi.
  change 255%Z with (Z.ones 8). rewrite Z.land_spec, load_le_testbit by done.
  destruct (Z.ltb_spec i 8); [rewrite Z.ones_spec_low by lia; by rewrite andb_true_r|].
  rewrite (byte_testbit b i) by done. rewrite Z.ones_spec_high by lia. by rewrite andb_false_r.
Qed.

Lemma shifted_byte b k : is_byte b → (0 ≤ k ≤ 24)%Z → u32 (Z.shiftl b k) = Z.shiftl b k.
Proof.
  intros [Hb0 Hb] Hk. apply u32_id. rewrite Z.shiftl_mul_pow2 by lia. split; [nia|].
  apply Z.lt_le_trans with (256 * 2 ^ k)%Z; [nia|].
  change (2 ^ 32)%Z with (256 * 2 ^ 24)%Z. apply Z.mul_le_mono_nonneg_l; [lia|].
  apply Z.pow_le_mono_r; lia.
Qed.

Lemma inet_from_inet6_load pre w x y z : length pre = 12 → Forall is_byte [w; x; y; z] →
  inet_from_inet6 (pre ++ [w; x; y; z]) = load_le [z; y; x; w].
Proof.
  intros Lp Hb. repeat (apply Forall_cons in Hb as [? Hb]). unfold inet_from_inet6. simpl seq. simpl foldl.
  rewrite !list_lookup_total_alt, !lookup_app_r, Lp by lia. simpl.
  rewrite !shifted_byte by (done || lia). rewrite Z.lor_0_r, Z.shiftl_0_r.
  rewrite !Z.shiftl_lor, !Z.shiftl_shiftl by lia.
  apply Z.bits_inj'. intros i Hi. rewrite !Z.lor_spec.
  change (8 * (3 - Z.of_nat 0))%Z with 24%Z. change (8 * (3 - Z.of_nat 1))%Z with 16%Z.
  change (8 * (3 - Z.of_nat 2))%Z with 8%Z. change (8 + 8)%Z with 16%Z. change (8 + 16)%Z with 24%Z.
  rewrite Z.bits_0. by destruct (Z.testbit (Z.shiftl w 24) i), (Z.testbit (Z.shiftl x 16) i),
    (Z.testbit (Z.shiftl y 8) i), (Z.testbit z i).
Qed.

(** The bytes that the check of an embedded IPv4 address compares. *)
Lemma embedded_bytes c : length c = 16 → Forall is_byte c →
  store32 (inet_from_inet6 c) = if little_endian then reverse (drop 12 c) else drop 12 c.
Proof.
  intros Lc Hc. rewrite <- (take_drop 12 c) at 1. assert (length (drop 12 c) = 4) as Ld by (rewrite length_drop; lia).
  assert (Forall is_byte (drop 12 c)) as Hd by by apply Forall_drop.
  destruct (drop 12 c) as [|w [|x [|y [|z []]]]]; try discriminate Ld.
  rewrite inet_from_inet6_load by (rewrite ?length_take; done || lia).
  unfold store32. change 4 with (length [z; y; x; w]). rewrite store_load; [by destruct little_endian|].
  change (Forall is_byte (reverse [w; x; y; z])). by apply Forall_reverse.
Qed.

Lemma check_address_spec sa f a n v m client :
  wf_sockaddr sa → native sa = Some (f, a) → mask_for f a n v m → wf_sockaddr client →
  dcc_check_address client v m = 0%Z ↔ admits f a n client.
Proof.
  intros Hwa Hna [Hf Hv Hl Hm] Hwc. unfold admits.
  assert (∀ l k, take 4 (addr v) = l → mask_bytes k 4 = take 4 (addr m) → length l = 4 → Forall is_byte l →
    ∀ c, length c = 4 → Forall is_byte c → check_address_inet c (addr v) (addr m) = 0%Z ↔
         take k (addr_bits c) = take k (addr_bits l)) as H4.
  { intros l k El Em Ll Hl4 c Lc Hc4.
    rewrite check_address_inet_spec, El, <- Em, (take_ge c) by (try lia; first
      [ by rewrite take_ge by lia | by rewrite El | by rewrite <- Em; apply mask_bytes_byte
      | rewrite <- El, length_take in Ll; lia
      | pose proof (length_mask_bytes k 4) as L; rewrite Em, length_take in L; lia ]).
    by apply masked_prefix. }
  assert (∀ (c d : list Z) (P : list Z → Prop), (∃ c', Some c = Some c' ∧ P c') ↔ P c) as HE by naive_solver.
  unfold dcc_check_address, seen_as, native in *. rewrite Hf.
  destruct sa as [b p|b p|?|?]; try done.
  - assert (a = b ∧ f = AF_INET) as [-> ->] by (by injection Hna). destruct Hwa as [La Hba]. rewrite La in *.
    destruct client as [c q|c q|?|?]; simpl in Hwc |- *; try (split; [done|]; by intros (? & ? & ?)).
    + destruct Hwc as [Lc Hbc]. rewrite HE by done. destruct ENABLE_RFC2553; by rewrite (H4 b n).
    + destruct ENABLE_RFC2553; simpl; [|split; [done|]; by intros (? & ? & ?)].
      destruct (_ || _); [|split; [done|]; by intros (? & ? & ?)]. destruct Hwc as [Lc Hbc].
      rewrite embedded_bytes, HE by done. assert (length (drop 12 c) = 4) as Ld by (rewrite length_drop; lia).
      assert (Forall is_byte (drop 12 c)) as Hd by by apply Forall_drop.
      apply H4; try done; destruct little_endian; rewrite ?length_reverse; try done. by apply Forall_reverse.
  - destruct ENABLE_RFC2553; [|done]. simpl.
    assert (a = b ∧ f = AF_INET6) as [-> ->] by (by injection Hna). destruct Hwa as [La Hba].
    destruct client as [c q|c q|?|?]; simpl in Hwc |- *; try (split; [done|]; by intros (? & ? & ?)).
    destruct Hwc as [Lc Hbc], Hl as [-> Lm]; [done|]. rewrite La, take_ge in Hm by lia.
    rewrite HE by done. unfold check_address_inet6. rewrite Hm.
    pose proof (compare_address_inet6_spec 16 c b (mask_bytes n 16) Lc La (length_mask_bytes _ _)) as Hc.
    rewrite masked_prefix in Hc by done. destruct (compare_address_inet6 _ _ _ _).
    + split; [intros _; by apply Hc|done].
    + split; [done|]. intros E. by apply Hc in E.
Qed.

(** C29.  Parsing "HOST/BITS" (or a bare HOST, which means all its bits) with a
    host the resolver knows gives a value and a mask under which
    [dcc_check_address] admits exactly the clients whose address, as the entry
    sees it, has the first BITS bits of HOST, in both byte orders and both
    builds; every other client is refused.  The entry sees the address of a
    client of its own family; an IPv4 entry also sees the IPv4 address that a
    mapped or compatible IPv6 address embeds, on a big-endian machine as it is,
    but on a little-endian machine with its bytes reversed, so that there
    10.0.0.0/8 admits the mapped client 1.2.3.10 and not 10.1.2.3. *)
Theorem parse_mask_admits {St} `{MemState St} spec host sa f a n value mask (σ : St) :
  mem_ok σ → "/"%char ∉ host → resolve host = Some sa → wf_sockaddr sa →
  native sa = Some (f, a) → n ≤ 8 * length a →
  length (addr value) = address_size → length (addr mask) = address_size →
  (spec = host ++ "/"%cs ++ dec (Z.of_nat n) ∨ spec = host ∧ n = 8 * length a) →
  ∃ v m, dcc_parse_mask spec value mask σ = (Ok (v, m), σ) ∧
    ∀ client, wf_sockaddr client → dcc_check_address client v m = 0%Z ↔ admits f a n client.
Proof.
  intros Hm Hh Hr Hw Hn Hle Hlv Hlm Hs.
  destruct (parse_mask_for spec host sa f a n value mask σ) as (v & m & E & Hmf); try done.
  exists v, m. split; [done|]. intros client Hwc. exact (check_address_spec sa f a n v m client Hw Hn Hmf Hwc).
Qed.

(** An IPv6 client that embeds the IPv4 address w.x.y.z is checked against
    an IPv4 mask as w.x.y.z on a big-endian machine, but as z.y.x.w on a
    little-endian one: the 32 bits are extracted in host order where the mask
    is in network order. *)
Lemma mapped_client_order w x y z port port' v m :
  ENABLE_RFC2553 = true → family v = AF_INET → Forall is_byte [w; x; y; z] →
  dcc_check_address (Sa_in6 (repeat 0%Z 10 ++ [255; 255; w; x; y; z]%Z) port) v m =
  dcc_check_address (Sa_in (if little_endian then [z; y; x; w] else [w; x; y; z]) port') v m.
Proof.
  intros Hc Hf Hb. unfold dcc_check_address. rewrite Hc, Hf.
  change (AF_INET =? AF_INET)%Z with true.
  assert (IN6_IS_ADDR_V4MAPPED (repeat 0%Z 10 ++ [255; 255; w; x; y; z]%Z) = true) as ->.
  { apply bool_decide_eq_true_2. reflexivity. }
  simpl orb. cbv iota. f_equal.
  rewrite embedded_bytes; [by destruct little_endian|done|].
  apply Forall_app; split; [by repeat constructor|]. by repeat (constructor; [done|]).
Qed.

(** ** The allow list *)

Lemma check_address_cases client v m :
  dcc_check_address client v m = 0%Z ∨ dcc_check_address client v m = EXIT_ACCESS_DENIED.
Proof.
  unfold dcc_check_address, check_address_inet, check_address_inet6.
  repeat case_match; auto.
Qed.

Lemma check_list_spec psa l : l ≠ [] →
  (check_list psa l 0 = 0%Z ∧ Exists (λ e, dcc_check_address psa e.1 e.2 = 0%Z) l) ∨
  (check_list psa l 0 = EXIT_ACCESS_DENIED ∧ ¬ Exists (λ e, dcc_check_address psa e.1 e.2 = 0%Z) l).
Proof.
  assert (∀ r, r = 0%Z ∨ r = EXIT_ACCESS_DENIED → (l = [] → r = EXIT_ACCESS_DENIED) →
    (check_list psa l r = 0%Z ∧ Exists (λ e, dcc_check_address psa e.1 e.2 = 0%Z) l) ∨
    (check_list psa l r = EXIT_ACCESS_DENIED ∧ ¬ Exists (λ e, dcc_check_address psa e.1 e.2 = 0%Z) l))
    as Hr; [|intros Hl; apply Hr; naive_solver].
  induction l as [|[v m] l IH]; intros r Hr Hl.
  { right. split; [by apply Hl|]. by intros ?%Exists_nil. }
  simpl. destruct (check_address_cases psa v m) as [E|E]; rewrite E; simpl.
  - left. split; [done|]. by left.
  - destruct (IH EXIT_ACCESS_DENIED) as [[E1 H1]|[E1 H1]]; [by right|done|..]; [left|right]; (split; [done|]).
    + by right.
    + intros [H2|H2]%Exists_cons; [|done]. simpl in H2. by rewrite E in H2.
Qed.

Lemma job_summary_append_fits x s :
  length (job_summary s) + length x < 4096 →
  dcc_job_summary_append x s = (Ok (), JobState (j_mem s) (job_summary s ++ x)).
Proof.
  intros Hl. unfold dcc_job_summary_append, bind, gets, modify.
  rewrite take_ge by lia. destruct (Nat.leb_spec (length (job_summary s ++ x) + 1) 4096) as [|Hn]; [done|].
  rewrite length_app in Hn. lia.
Qed.

(** An allow list made from mask specifications: each entry with the address
    and the number of bits it was made from. *)
Definition from_specs (specs : list (Z * list Z * nat)) (allowed : list (dcc_address * dcc_address)) : Prop :=
  Forall2 (λ s e, ∃ sa, wf_sockaddr sa ∧ native sa = Some s.1 ∧ mask_for s.1.1 s.1.2 s.2 e.1 e.2)
    specs allowed.

(** C39.  [dcc_check_client] admits a client iff it has no socket address, the
    list is empty, or some entry of the list admits it, and it logs the client
    in the job summary; it refuses every other client with
    EXIT_ACCESS_DENIED.  An IPv4 entry admits the clients with the same first
    bits, and among those of a dual-stack socket, whose IPv4 address comes
    embedded in an IPv6 one, the ones whose embedded address has them: as it is
    on a big-endian machine, with its bytes reversed on a little-endian one. *)
Theorem check_client_spec psa specs allowed ip s :
  dcc_sockaddr_to_string psa s = (Ok (Some ip), s) →
  length (job_summary s) + 8 + length ip < 4096 →
  from_specs specs allowed →
  (∀ client, psa = Some client → wf_sockaddr client) →
  ∃ r, dcc_check_client psa allowed s =
         (Ok r, JobState (j_mem s) (job_summary s ++ "client: "%cs ++ ip)) ∧
    (r = 0%Z ∨ r = EXIT_ACCESS_DENIED) ∧
    (r = 0%Z ↔ psa = None ∨ specs = [] ∨
       ∃ client, psa = Some client ∧ Exists (λ e, admits e.1.1 e.1.2 e.2 client) specs).
Proof.
  intros Es Hl Hf Hw. unfold dcc_check_client. rewrite (bind_Ok _ _ _ _ _ Es).
  rewrite (bind_Ok _ _ _ () (JobState (j_mem s) (job_summary s ++ "client: "%cs)))
    by (apply job_summary_append_fits; simpl; lia).
  rewrite (bind_Ok _ _ _ () (JobState (j_mem s) (job_summary s ++ "client: "%cs ++ ip))).
  2: { rewrite job_summary_append_fits; simpl; [by rewrite <- app_assoc|rewrite length_app; simpl; lia]. }
  destruct psa as [client|]; [|exists 0%Z; naive_solver].
  destruct allowed as [|e allowed].
  { apply Forall2_nil_inv_r in Hf as ->. exists 0%Z. naive_solver. }
  pose proof (Hw client eq_refl) as Hwc.
  assert (Exists (λ e, dcc_check_address client e.1 e.2 = 0%Z) (e :: allowed) ↔
          Exists (λ e, admits e.1.1 e.1.2 e.2 client) specs) as HE.
  { clear Es Hl Hw. induction Hf as [|[[f a] n] [v m] specs' l (sa & Hws & Hns & Hmf) Hf IH].
    - by rewrite !Exists_nil.
    - rewrite !Exists_cons, IH by done. simpl in *.
      by rewrite (check_address_spec sa f a n v m client). }
  eexists. split; [done|].
  assert (specs ≠ []) as Hne by (intros ->; by inversion Hf).
  destruct (check_list_spec client (e :: allowed)) as [[E H1]|[E H1]]; [done|..];
    rewrite E, HE in *; (split; [auto|]).
  - split; [|done]. intros _. right; right. eauto.
  - split; [done|]. intros [?|[?|(c & [= <-] & ?)]]; done.
Qed.
End access.

(** ** Examples *)

(** A resolver that knows two numeric hosts. *)
Definition ex_resolver : Resolver := {|
  inet_aton s := if streq s "10.0.0.0"%cs then Some [10; 0; 0; 0]%Z else None;
  getaddrinfo s :=
    if streq s "10.0.0.0"%cs then Some (Sa_in [10; 0; 0; 0]%Z 0)
    else if streq s "::1"%cs then Some (Sa_in6 (repeat 0%Z 15 ++ [1%Z]) 0)
    else None;
  getnameinfo _ := Some ("10.1.2.3"%cs, "4000"%cs);
  inet_ntoa _ := "10.1.2.3"%cs
|}.

Definition blank : dcc_address := Address 0 (repeat 0%Z 16).

Lemma parse_mask_admits_witness :
  let _ := usual_config in let _ := ex_resolver in
  ∃ v m, dcc_parse_mask "10.0.0.0/8"%cs blank blank ([] : list bool) = (Ok (v, m), []) ∧
    ∀ client, wf_sockaddr client → dcc_check_address client v m = 0%Z ↔ admits AF_INET [10; 0; 0; 0]%Z 8 client.
Proof.
  intros ? ?.
  apply (parse_mask_admits "10.0.0.0/8"%cs "10.0.0.0"%cs (Sa_in [10; 0; 0; 0]%Z 0) AF_INET
           [10; 0; 0; 0]%Z 8 blank blank ([] : list bool)); try reflexivity.
  - by apply (bool_decide_eq_true_1 _).
  - by repeat constructor.
  - simpl. lia.
  - by left.
Defined.

(** 10.0.0.1, seen through IPv6, is refused by 10.0.0.0/8. *)
Lemma mapped_client_order_witness :
  @dcc_check_address usual_config (Sa_in6 (repeat 0%Z 10 ++ [255; 255; 10; 0; 0; 1]%Z) 0)
    (Address AF_INET [10; 0; 0; 0]%Z) (Address AF_INET [255; 0; 0; 0]%Z) = EXIT_ACCESS_DENIED.
Proof.
  etransitivity.
  - apply (@mapped_client_order usual_config 10 0 0 1 0 0 (Address AF_INET [10; 0; 0; 0]%Z)
      (Address AF_INET [255; 0; 0; 0]%Z)); try reflexivity.
    by repeat constructor.
  - reflexivity.
Defined.

Lemma check_client_spec_witness :
  let _ := usual_config in let _ := ex_resolver in
  ∃ r, dcc_check_client (Some (Sa_in [10; 1; 2; 3]%Z 4000))
         [(Address AF_INET [10; 0; 0; 0]%Z, Address AF_INET [255; 0; 0; 0]%Z)] (JobState [] []) =
         (Ok r, JobState [] ("client: 10.1.2.3:4000"%cs)) ∧
    (r = 0%Z ∨ r = EXIT_ACCESS_DENIED) ∧
    (r = 0%Z ↔ Some (Sa_in [10; 1; 2; 3]%Z 4000) = None ∨ [(AF_INET, [10; 0; 0; 0]%Z, 8)] = [] ∨
       ∃ client, Some (Sa_in [10; 1; 2; 3]%Z 4000) = Some client ∧
         Exists (λ e, admits e.1.1 e.1.2 e.2 client) [(AF_INET, [10; 0; 0; 0]%Z, 8)]).
Proof.
  intros ? ?. apply (check_client_spec (Some (Sa_in [10; 1; 2; 3]%Z 4000)) [(AF_INET, [10; 0; 0; 0]%Z, 8)]
    [(Address AF_INET [10; 0; 0; 0]%Z, Address AF_INET [255; 0; 0; 0]%Z)] "10.1.2.3:4000"%cs (JobState [] [])).
  - reflexivity.
  - simpl. lia.
  - constructor; [|constructor]. exists (Sa_in [10; 0; 0; 0]%Z 0). split; [by repeat constructor|].
    split; [done|]. by constructor.
  - intros client [= <-]. by repeat constructor.
Defined.
