(* ===== verification/Dirs.v ===== *)
(** * tempfile.c, loadfile.c, hostfile.c, hosts.c: configuration files

    The directories below DISTCC_DIR, and where the host list comes from.
    [conf] is a process with the statics these functions keep: the cached
    directory names and the default numbers of local slots. *)

From S2P Require Import Prelude CLib Util World Io Rpc Tempfile Bulk Results Hosts.

Record conf := Conf {
  cf_w : world;
  cf_top : option cstr;          (** [cached] of [dcc_get_top_dir] *)
  cf_lock : option cstr;         (** of [dcc_get_lock_dir] *)
  cf_state : option cstr;        (** of [dcc_get_state_dir] *)
  cf_slots : Z * Z               (** [dcc_hostdef_local] and its _cpp: n_slots *)
}.

Definition set_cf_w (w : world) (c : conf) : conf := Conf w (cf_top c) (cf_lock c) (cf_state c) (cf_slots c).
Definition set_cf_top (d : cstr) (c : conf) : conf := Conf (cf_w c) (Some d) (cf_lock c) (cf_state c) (cf_slots c).
Definition set_cf_lock (d : cstr) (c : conf) : conf := Conf (cf_w c) (cf_top c) (Some d) (cf_state c) (cf_slots c).
Definition set_cf_state (d : cstr) (c : conf) : conf := Conf (cf_w c) (cf_top c) (cf_lock c) (Some d) (cf_slots c).

Definition on_cw {A} : M world A → M conf A := zoom cf_w set_cf_w.

(** The host parser, with the memory and the local slots of the process. *)
Definition on_parser {A} : M hstate A → M conf A :=
  zoom (λ c, HState (get_mem (cf_w c)) (cf_slots c).1 (cf_slots c).2)
       (λ h c, Conf (set_mem (h_mem h) (cf_w c)) (cf_top c) (cf_lock c) (cf_state c)
                 (local_slots h, local_cpp_slots h)).

(** ** tempfile.c *)

Definition dcc_get_top_dir : M conf cstr :=
  let! cached := gets cf_top in
  match cached with
  | Some cached => ret cached
  | None =>
      let! env := on_cw (getenv "DISTCC_DIR"%cs) in
      match env with
      | Some env =>
          do! on_cw (malloc_or EXIT_OUT_OF_MEMORY);
          do! modify (set_cf_top env);
          ret env
      | None =>
          let! env := on_cw (getenv "HOME"%cs) in
          match env with
          | None => fail EXIT_BAD_ARGUMENTS
          | Some env =>
              do! on_cw (malloc_or EXIT_OUT_OF_MEMORY);
              let path := env ++ "/.distcc"%cs in
              do! on_cw (dcc_mkdir path);
              do! modify (set_cf_top path);
              ret path
          end
      end
  end.

Definition dcc_get_subdir (name : cstr) : M conf cstr :=
  let! topdir := dcc_get_top_dir in
  do! on_cw (malloc_or EXIT_OUT_OF_MEMORY);
  let dir := topdir ++ "/"%cs ++ name in
  do! on_cw (dcc_mkdir dir);
  ret dir.

Definition dcc_get_lock_dir : M conf cstr :=
  let! cached := gets cf_lock in
  match cached with
  | Some cached => ret cached
  | None =>
      let! dir := dcc_get_subdir "lock"%cs in
      do! modify (set_cf_lock dir);
      ret dir
  end.

Definition dcc_get_state_dir : M conf cstr :=
  let! cached := gets cf_state in
  match cached with
  | Some cached => ret cached
  | None =>
      let! dir := dcc_get_subdir "state"%cs in
      do! modify (set_cf_state dir);
      ret dir
  end.

(** ** loadfile.c *)

(** [1<<20] *)
Definition load_limit : Z := 1048576.

Definition close_and {A} (fd : nat) (m : M world A) : M world A := do! attempt (dcc_close fd); m.

Definition dcc_load_file_string (filename : cstr) : M world cstr :=
  let! fd := sys_open_read filename in
  match fd with
  | inr EEXIST => fail EXIT_NO_SUCH_FILE
  | inr _ => fail EXIT_IO_ERROR
  | inl fd =>
      let! sb := sys_fstat fd in
      match sb with
      | inr _ => close_and fd (fail EXIT_IO_ERROR)
      | inl st_size =>
          if (load_limit <? Z.of_nat st_size)%Z then close_and fd (fail EXIT_OUT_OF_MEMORY)
          else
            let! buf := malloc in
            if negb buf then close_and fd (fail EXIT_OUT_OF_MEMORY)
            else
              let! r := sys_read fd st_size in
              match r with
              | inr _ => close_and fd (fail EXIT_IO_ERROR)
              | inl bytes => close_and fd (ret (c_string bytes))
              end
      end
  end.

(** ** hostfile.c, hosts.c *)

(** [access(path, R_OK) == 0] *)
Definition sys_access_read (p : cstr) : M world (unit + errno) :=
  fs_call (let! f := lookup_file p in ret (match f with Some _ => inl () | None => inr ENOENT end)).

Section hostlist.
(** [rand()], and the build-time [SYSCONFDIR]. *)
Context {Cfg : Config} {ZC : ZeroconfHosts} (rand : nat → Z) (SYSCONFDIR : cstr).

Definition dcc_parse_hosts_file (fname : cstr) : M conf (list dcc_hostdef) :=
  let! body := on_cw (dcc_load_file_string fname) in
  on_parser (dcc_parse_hosts rand body).

(** The file in a directory when there is memory for its name and it can be
    read. *)
Definition readable (path : cstr) : M conf bool :=
  let! ok := on_cw malloc in
  if negb ok then ret false
  else
    let! r := on_cw (sys_access_read path) in
    ret (match r with inl _ => true | inr _ => false end).

(** Read [path] when it is readable, else go on. *)
Definition hosts_file_or (path : cstr) (next : M conf (list dcc_hostdef)) : M conf (list dcc_hostdef) :=
  let! r := readable path in
  if r : bool then dcc_parse_hosts_file path else next.

Definition dcc_get_hostlist : M conf (list dcc_hostdef) :=
  let! env := on_cw (getenv "DISTCC_HOSTS"%cs) in
  match env with
  | Some env => on_parser (dcc_parse_hosts rand env)
  | None =>
      let! top := attempt dcc_get_top_dir in
      let system := hosts_file_or (SYSCONFDIR ++ "/distcc/hosts"%cs) (fail EXIT_BAD_HOSTSPEC) in
      match top with
      | inl top => hosts_file_or (top ++ "/hosts"%cs) system
      | inr _ => system
      end
  end.
End hostlist.

(** ** Loading *)

Lemma wp_close_and {A} fd (m : M world A) Q w : (∀ w', wp m Q w') → wp (close_and fd m) Q w.
Proof.
  intros Hm. apply wp_bind, wp_attempt. unfold dcc_close. apply wp_bind, wp_fs_call; [intros; apply Hm|].
  intros l. apply wp_bind, wp_gets. case_match; [apply wp_bind, wp_modify, wp_ret|apply wp_ret]; apply Hm.
Qed.

Definition load_codes : list Z := [EXIT_NO_SUCH_FILE; EXIT_IO_ERROR; EXIT_OUT_OF_MEMORY].

(** Whatever the kernel does, what is loaded is a text at the start of the file,
    which is not larger than the limit; the rest are three error codes. *)
Lemma load_file_string_wp f w :
  wp (dcc_load_file_string f)
     (λ o _, match o with
             | Ok s => ∃ data k, c_files (w_core w) !! f = Some (NFile data) ∧
                         (Z.of_nat (length data) ≤ load_limit)%Z ∧ s = c_string (take k data)
             | Fail c => c ∈ load_codes
             | _ => False
             end) w.
Proof.
  assert (Hio : EXIT_IO_ERROR ∈ load_codes) by set_solver.
  assert (Hoom : EXIT_OUT_OF_MEMORY ∈ load_codes) by set_solver.
  apply wp_bind, wp_fs_call; [intros [] l; apply wp_throw; set_solver|].
  intros l. apply wp_bind, wp_gets. cbn [w_core set_fs].
  destruct (c_files (w_core w) !! f) as [[data| |]|] eqn:Ef; try by apply wp_ret.
  apply wp_bind. unfold add_fd, wp at 1. cbn [fst snd]. apply wp_ret.
  apply wp_bind, wp_fs_call; [intros; by apply wp_close_and|].
  intros l'. apply wp_bind, wp_gets, wp_ret. cbn. rewrite lookup_insert_eq. cbn.
  destruct (Z.ltb_spec load_limit (Z.of_nat (length data))) as [|Hl]; [by apply wp_close_and|].
  apply wp_bind. unfold malloc, wp at 1. cbn.
  assert (Hrd : ∀ w1, c_fds (w_core w1) !! new_fd (c_fds (w_core w)) = Some (Fd data [] None) →
    wp (let! r := sys_read (new_fd (c_fds (w_core w))) (length data) in
        match r with
        | inr _ => close_and (new_fd (c_fds (w_core w))) (fail EXIT_IO_ERROR)
        | inl bytes => close_and (new_fd (c_fds (w_core w))) (ret (c_string bytes))
        end) (λ o _, match o with
             | Ok s => ∃ data' k, Some (NFile data) = Some (NFile data') ∧
                         (Z.of_nat (length data') ≤ load_limit)%Z ∧ s = c_string (take k data')
             | Fail c => c ∈ load_codes
             | _ => False
             end) w1).
  { intros w1 Hfd. apply wp_bind. unfold sys_read, wp at 1. rewrite Hfd.
    destruct (next_xfer _ w1) as [[n|e] w2]; cbn; apply wp_close_and; intros w3; [|done].
    apply wp_ret. eauto. }
  destruct (w_mem w) as [|[] mem]; cbn; try (apply Hrd; cbn; apply lookup_insert_eq). by apply wp_close_and.
Qed.

(** Finding a directory fails only with these codes, whatever the kernel does. *)
Definition dir_codes : list Z := [EXIT_OUT_OF_MEMORY; EXIT_BAD_ARGUMENTS; EXIT_IO_ERROR].
Definition dir_post (o : outcome cstr) (_ : conf) : Prop :=
  match o with Ok _ => True | Fail e => e ∈ dir_codes | _ => False end.

Ltac dir_code := by apply (bool_decide_eq_true_1 (_ ∈ dir_codes)).

Lemma mkdir_wp p (Q : outcome unit → world → Prop) w :
  (∀ w', Q (Ok ()) w') → (∀ w', Q (Fail EXIT_IO_ERROR) w') → wp (dcc_mkdir p) Q w.
Proof.
  intros HO HF. apply wp_bind, wp_fs_call; [intros []; intros; first [apply HO|apply HF]|].
  intros l. apply wp_bind, wp_gets, wp_bind, wp_gets. repeat case_match;
    first [apply wp_bind, wp_modify, wp_ret, HO | apply wp_ret; first [apply HO|apply HF]].
Qed.

Lemma get_top_dir_wp c : wp dcc_get_top_dir dir_post c.
Proof.
  assert (Hm : ∀ {A} (k : M conf A) (Q : outcome A → conf → Prop) c, (∀ c', wp k Q c') →
    (∀ c', Q (Fail EXIT_OUT_OF_MEMORY) c') → wp (do! on_cw (malloc_or EXIT_OUT_OF_MEMORY); k) Q c).
  { intros A k Q c0 Hk HF. apply wp_bind, wp_zoom, wp_malloc_or; intros l; auto. }
  unfold dcc_get_top_dir. apply wp_bind, wp_gets. case_match; [done|].
  apply wp_bind, wp_zoom, wp_gets. cbn beta iota. case_match.
  - apply Hm; [|intros; dir_code]. intros c1. apply wp_bind, wp_modify. done.
  - apply wp_bind, wp_zoom, wp_gets. cbn beta iota. destruct (w_env _ !! "HOME"%cs) as [h|]; [|dir_code].
    apply Hm; [|intros; dir_code]. intros c1. apply wp_bind, wp_zoom, mkdir_wp; intros w; [|dir_code].
    apply wp_bind, wp_modify. done.
Qed.

Lemma get_subdir_wp name c : wp (dcc_get_subdir name) dir_post c.
Proof.
  apply wp_bind. eapply wp_mono; [apply get_top_dir_wp|]. intros [d|e|e|] c1 Hd; try done.
  apply wp_bind, wp_zoom, wp_malloc_or; intros l; [|dir_code].
  apply wp_bind, wp_zoom, mkdir_wp; intros w; [done|dir_code].
Qed.

Lemma get_state_dir_wp c : wp dcc_get_state_dir dir_post c.
Proof.
  apply wp_bind, wp_gets. case_match; [done|]. apply wp_bind. eapply wp_mono; [apply get_subdir_wp|].
  by intros [d|e|e|] c1 Hd.
Qed.

Lemma get_lock_dir_wp c : wp dcc_get_lock_dir dir_post c.
Proof.
  apply wp_bind, wp_gets. case_match; [done|]. apply wp_bind. eapply wp_mono; [apply get_subdir_wp|].
  by intros [d|e|e|] c1 Hd.
Qed.

(** ** Where the host list comes from *)

(** What a file gives when it is loaded. *)
Definition file_text (n : node) : outcome cstr :=
  match n with
  | NFile data => if (load_limit <? Z.of_nat (length data))%Z then Fail EXIT_OUT_OF_MEMORY else Ok (c_string data)
  | _ => Fail EXIT_IO_ERROR
  end.

Lemma load_file_string_quiet f n w :
  quiet w → c_files (w_core w) !! f = Some n → dcc_load_file_string f w = (file_text n, w).
Proof.
  intros (Hx & Hf & Hm) Hn. unfold dcc_load_file_string, sys_open_read, fs_call, next_fs, lookup_file, bind, gets.
  rewrite Hf, Hn. destruct n as [data| |t]; try done.
  unfold add_fd, sys_fstat, fs_call, next_fs, bind, gets. cbn. rewrite Hf. cbn. rewrite lookup_insert_eq. cbn.
  assert (Hclose : ∀ w1 {A} (m : M world A), w_fs w1 = [] →
    c_fds (w_core w1) !! new_fd (c_fds (w_core w)) = Some (Fd [] [] None) ∨ c_fds (w_core w1) !! new_fd (c_fds (w_core w)) = Some (Fd data [] None) →
    close_and (new_fd (c_fds (w_core w))) m w1 =
      m (set_core (set_fds (delete (new_fd (c_fds (w_core w))) (c_fds (w_core w1))) (w_core w1)) w1)).
  { intros w1 A m Hf1 Hfd. unfold close_and, dcc_close, sys_close, fs_call, next_fs, bind, attempt, gets. rewrite Hf1.
    by destruct Hfd as [-> | ->]. }
  assert (Hback : ∀ d, set_core (set_fds (delete (new_fd (c_fds (w_core w))) (<[new_fd (c_fds (w_core w)) := d]> (c_fds (w_core w))))
    (w_core w)) w = w).
  { intros d. rewrite delete_insert_id by apply new_fd_fresh. by destruct w as [[]]. }
  destruct (Z.ltb_spec load_limit (Z.of_nat (length data))).
  - rewrite Hclose by (cbn; rewrite ?lookup_insert_eq; auto). unfold fail, throw. f_equal. apply Hback.
  - unfold malloc. cbn. rewrite Hm. cbn. unfold sys_read. cbn. rewrite lookup_insert_eq. unfold next_xfer. cbn. rewrite Hx. cbn.
    rewrite Hclose by (cbn; rewrite ?lookup_insert_eq; auto; left; do 2 f_equal; apply drop_ge; lia).
    unfold ret. rewrite take_ge by lia. f_equal. cbn. rewrite insert_insert_eq. apply Hback.
Qed.

Section source.
Context {Cfg : Config} {ZC : ZeroconfHosts} (rand : nat → Z) (SYSCONFDIR : cstr).

Abbreviation files c := (c_files (w_core (cf_w c))).
Abbreviation env c := (w_env (cf_w c)).

(** The directory of the user, when there is one or it can be made. *)
Definition top_name (c : conf) : option cstr :=
  match cf_top c, env c !! "DISTCC_DIR"%cs, env c !! "HOME"%cs with
  | Some d, _, _ | None, Some d, _ => Some d
  | None, None, Some h =>
      let p := h ++ "/.distcc"%cs in
      if decide (is_Some (files c !! p) ∨ parent_exists p (files c) = true) then Some p else None
  | None, None, None => None
  end.

(** The environment first, then the user's file, then the system's. *)
Definition hosts_text (c : conf) : outcome cstr :=
  match env c !! "DISTCC_HOSTS"%cs with
  | Some t => Ok t
  | None =>
      match top_name c ≫= λ top, files c !! (top ++ "/hosts"%cs) with
      | Some n => file_text n
      | None =>
          match files c !! (SYSCONFDIR ++ "/distcc/hosts"%cs) with
          | Some n => file_text n
          | None => Fail EXIT_BAD_HOSTSPEC
          end
      end
  end.

(** From [c] to [c']: at most the user's directory was made. *)
Definition top_made (c c' : conf) : Prop :=
  quiet (cf_w c') ∧ cf_slots c' = cf_slots c ∧
  ∀ p, files c' !! p = files c !! p ∨ (∃ h, p = h ++ "/.distcc"%cs).

Lemma top_dir_quiet c : quiet (cf_w c) →
  ∃ o c', dcc_get_top_dir c = (o, c') ∧ top_made c c' ∧
    match o with Ok d => top_name c = Some d | Fail _ => top_name c = None | _ => False end.
Proof.
  intros Hq. pose proof Hq as (Hx & Hf & Hm).
  assert (Hrefl : top_made c c) by (split; [done|split; [done|by left]]).
  unfold dcc_get_top_dir, top_name, bind, gets. cbn.
  destruct (cf_top c) as [d|] eqn:Et; [by eexists _, _|].
  unfold on_cw, zoom, getenv, gets. cbn. destruct (env c !! "DISTCC_DIR"%cs) as [d|] eqn:Ed.
  { rewrite malloc_or_ok by done. by eexists _, _. }
  cbn. destruct (env c !! "HOME"%cs) as [h|]; [|by eexists _, _].
  rewrite malloc_or_ok by done. unfold dcc_mkdir, sys_mkdir, fs_call, next_fs, lookup_file, bind, gets. cbn.
  rewrite Hf. cbn. destruct (files c !! (h ++ "/.distcc"%cs)) as [n|] eqn:En.
  { cbn. rewrite decide_True by eauto. by eexists _, _. }
  destruct (parent_exists (h ++ "/.distcc"%cs) (files c)) eqn:Ep; cbn.
  - rewrite decide_True by auto. eexists _, _. split; [done|]. split; [|done]. split; [done|split; [done|]].
    intros p. cbn. destruct (decide (p = h ++ "/.distcc"%cs)) as [->|]; [by eauto|left; by rewrite lookup_insert_ne].
  - rewrite decide_False; [by eexists _, _|]. intros [[? [=]]|[=]].
Qed.

Lemma readable_quiet p c : quiet (cf_w c) → readable p c = (Ok (bool_decide (is_Some (files c !! p))), c).
Proof.
  intros (Hx & Hf & Hm). destruct c as [w t l st sl]. cbn in *.
  unfold readable, on_cw, zoom, sys_access_read, fs_call, next_fs, lookup_file, bind, gets, malloc. cbn. rewrite Hm. cbn.
  rewrite Hf. cbn. by destruct (c_files (w_core w) !! p).
Qed.

(** The outcome of parsing a text that may not be there. *)
Definition parsed (c : conf) (o : outcome cstr) : outcome (list dcc_hostdef) :=
  match o with
  | Ok t => (dcc_parse_hosts rand t (HState [] (cf_slots c).1 (cf_slots c).2)).1
  | Fail e => Fail e
  | Exit e => Exit e
  | Undef => Undef
  end.

Lemma parse_quiet t c : quiet (cf_w c) → (on_parser (dcc_parse_hosts rand t) c).1 = parsed c (Ok t).
Proof. intros (_ & _ & Hm). unfold on_parser, zoom. cbn. rewrite Hm. by destruct (dcc_parse_hosts _ _ _). Qed.

Lemma hosts_file_or_quiet p next c : quiet (cf_w c) →
  (hosts_file_or rand p next c).1 =
    match files c !! p with Some n => parsed c (file_text n) | None => (next c).1 end.
Proof.
  intros Hq. unfold hosts_file_or, bind. rewrite readable_quiet by done.
  destruct (files c !! p) as [n|] eqn:En; [|done]. rewrite bool_decide_eq_true_2 by eauto.
  unfold dcc_parse_hosts_file, bind, on_cw, zoom. rewrite (load_file_string_quiet p n _ Hq En).
  replace (set_cf_w (cf_w c) c) with c by by destruct c.
  destruct (file_text n) as [txt|e|e|]; try done. by apply parse_quiet.
Qed.

Lemma made_elsewhere c c' x : top_made c c' → files c' !! (x ++ "/hosts"%cs) = files c !! (x ++ "/hosts"%cs).
Proof.
  intros (_ & _ & H). destruct (H (x ++ "/hosts"%cs)) as [?|(h & E)]; [done|].
  apply (f_equal (λ l, last l)) in E. by rewrite !last_app in E.
Qed.

(** Where the host list comes from.  With a kernel that does as it is told
    and any environment and files, [dcc_get_hostlist] is the parser applied to
    $DISTCC_HOSTS, else to the hosts file of the user's directory, else to the
    one of the system; a file that is too large or cannot be read is an error
    and not a reason to look further. *)
Lemma get_hostlist_source (c : conf) :
  quiet (cf_w c) →
  (dcc_get_hostlist rand SYSCONFDIR c).1 =
    match hosts_text c with
    | Ok t => (dcc_parse_hosts rand t (HState [] (cf_slots c).1 (cf_slots c).2)).1
    | Fail e => Fail e
    | Exit e => Exit e
    | Undef => Undef
    end.
Proof.
  intros Hq. change ((dcc_get_hostlist rand SYSCONFDIR c).1 = parsed c (hosts_text c)).
  unfold dcc_get_hostlist, hosts_text, on_cw at 1, zoom at 1, getenv, gets, bind at 1.
  replace (set_cf_w (cf_w c) c) with c by by destruct c.
  destruct (env c !! "DISTCC_HOSTS"%cs) as [t|] eqn:Eh; [by apply parse_quiet|].
  destruct (top_dir_quiet c Hq) as (o & c1 & E & Hmade & Ho). pose proof Hmade as (Hq1 & Hs & _).
  assert (Hp : ∀ x, parsed c1 x = parsed c x) by (intros []; unfold parsed; by rewrite ?Hs).
  assert (Hsys : (hosts_file_or rand (SYSCONFDIR ++ "/distcc/hosts"%cs) (fail EXIT_BAD_HOSTSPEC) c1).1 =
    parsed c (match files c !! (SYSCONFDIR ++ "/distcc/hosts"%cs) with
              | Some n => file_text n | None => Fail EXIT_BAD_HOSTSPEC end)).
  { rewrite hosts_file_or_quiet by done. change "/distcc/hosts"%cs with ("/distcc"%cs ++ "/hosts"%cs).
    rewrite app_assoc, (made_elsewhere c c1) by done. by destruct (files c !! _). }
  unfold bind, attempt. rewrite E. destruct o as [top|e|e|]; try done; rewrite Ho; cbn; [|exact Hsys].
  rewrite hosts_file_or_quiet, (made_elsewhere c c1) by done. destruct (files c !! (top ++ "/hosts"%cs)); [apply Hp|exact Hsys].
Qed.
End source.

(** ** Witness *)

Definition ex_conf : conf :=
  Conf (World (Core ∅ {["/h"%cs := NDir; "/h/.distcc/hosts"%cs := NFile "alpha/4,lzo beta"%cs]} [] 10 DCC_PHASE_STARTUP)
          [] [] [] [] 0 {["HOME"%cs := "/h"%cs]}) None None None (4, 8)%Z.

Lemma get_hostlist_source_witness :
  match (dcc_get_hostlist (Cfg := usual_config) (ZC := no_zeroconf) (λ _, 0%Z) "/etc"%cs ex_conf).1 with
  | Ok l => hostname <$> l
  | _ => []
  end = [Some "alpha"%cs; Some "beta"%cs].
Proof.
  rewrite (get_hostlist_source (Cfg := usual_config) (ZC := no_zeroconf) (λ _, 0%Z) "/etc"%cs ex_conf); [by vm_compute|].
  split; [reflexivity|split; reflexivity].
Defined.
