(* ===== verification/Zeroconf.v ===== *)
(** * zeroconf.c: hosts that announce themselves

    A background daemon keeps a linked list of the services Avahi reports and
    writes the ones it could resolve to a file, which the clients read as a
    host list.  The list is modelled with its pointers: [zd_heap] is the memory
    that holds it, and using a host that was freed is undefined.  Avahi is the
    class [Avahi]; what it reports are the events of [zevent], and the daemon is
    followed for as many turns of its loop as it is given.  [read_hosts] and
    [dcc_zeroconf_add_hosts] are the client's side. *)

From S2P Require Import Prelude CLib Snprintf Util World Io Rpc Tempfile Bulk Results Hosts Dirs.

Class Avahi := {
  avahi_address : Type;
  (** is [proto] AVAHI_PROTO_INET6 *)
  avahi_inet6 : avahi_address → bool;
  avahi_address_snprint : avahi_address → cstr;
  avahi_domain_equal : cstr → cstr → bool
}.

Section zeroconf.
Context `{Avahi}.

(** [struct host] without its pointers; [z_address] is [None] until it is
    known, [z_resolver] tells that the resolver is not NULL. *)
Record zdata := ZData {
  z_interface : Z; z_protocol : Z; z_service : cstr; z_domain : cstr;
  z_address : option avahi_address; z_port : Z; z_n_cpus : Z; z_resolver : bool
}.
Record zhost := ZHost { z_data : zdata; z_next : option nat }.

(** [struct daemon_data]. *)
Record zdaemon := ZDaemon {
  zd_w : world;
  zd_heap : gmap nat zhost;
  zd_top : nat;                 (** the next address [malloc] gives *)
  zd_hosts : option nat;
  zd_fd : nat;
  zd_n_slots : Z;
  zd_quit : bool                (** the event loop was told to end *)
}.
Definition set_zd_w (w : world) (d : zdaemon) : zdaemon :=
  ZDaemon w (zd_heap d) (zd_top d) (zd_hosts d) (zd_fd d) (zd_n_slots d) (zd_quit d).
Definition set_zd_heap (m : gmap nat zhost) (d : zdaemon) : zdaemon :=
  ZDaemon (zd_w d) m (zd_top d) (zd_hosts d) (zd_fd d) (zd_n_slots d) (zd_quit d).
Definition set_zd_top (n : nat) (d : zdaemon) : zdaemon :=
  ZDaemon (zd_w d) (zd_heap d) n (zd_hosts d) (zd_fd d) (zd_n_slots d) (zd_quit d).
Definition set_zd_hosts (o : option nat) (d : zdaemon) : zdaemon :=
  ZDaemon (zd_w d) (zd_heap d) (zd_top d) o (zd_fd d) (zd_n_slots d) (zd_quit d).
Definition set_zd_fd (fd : nat) (d : zdaemon) : zdaemon :=
  ZDaemon (zd_w d) (zd_heap d) (zd_top d) (zd_hosts d) fd (zd_n_slots d) (zd_quit d).
Definition set_zd_quit (d : zdaemon) : zdaemon :=
  ZDaemon (zd_w d) (zd_heap d) (zd_top d) (zd_hosts d) (zd_fd d) (zd_n_slots d) true.
Definition on_zw {A} : M world A → M zdaemon A := zoom zd_w set_zd_w.

(** ** Pointers *)

Definition deref (p : nat) : M zdaemon zhost := λ d,
  match zd_heap d !! p with Some h => (Ok h, d) | None => (Undef, d) end.

Definition assign (p : nat) (f : zhost → zhost) : M zdaemon unit :=
  let! h := deref p in
  modify (λ d, set_zd_heap (<[p := f h]> (zd_heap d)) d).

Definition set_next (o : option nat) (h : zhost) : zhost := ZHost (z_data h) o.

Definition free_host (p : nat) : M zdaemon unit :=
  let! _ := deref p in
  modify (λ d, set_zd_heap (delete p (zd_heap d)) d).

(** ** The list *)

(** The inner loop: [host2] runs behind [prev]. *)
Fixpoint dup_inner (fuel host1 prev : nat) (host2 : option nat) : M zdaemon unit :=
  match fuel with
  | 0 => ub
  | S fuel =>
      match host2 with
      | None => ret ()
      | Some host2 =>
          let! h1 := deref host1 in
          let! h2 := deref host2 in
          let! prev :=
            (if streq (z_service (z_data h1)) (z_service (z_data h2)) then
               do! assign prev (set_next (z_next h2));
               do! free_host host2;
               ret prev
             else ret host2) in
          let! hp := deref prev in
          dup_inner fuel host1 prev (z_next hp)
      end
  end.

Fixpoint dup_outer (fuel : nat) (host1 : option nat) : M zdaemon unit :=
  match fuel with
  | 0 => ub
  | S fuel' =>
      match host1 with
      | None => ret ()
      | Some host1 =>
          let! h1 := deref host1 in
          do! dup_inner fuel host1 host1 (z_next h1);
          let! h1 := deref host1 in
          dup_outer fuel' (z_next h1)
      end
  end.

(** Every round meets another host in memory. *)
Definition list_fuel (d : zdaemon) : nat := S (size (zd_heap d)).

Definition remove_duplicate_services : M zdaemon unit := λ d,
  dup_outer (list_fuel d) (zd_hosts d) d.

Definition same_service (interface protocol : Z) (name domain : cstr) (x : zdata) : bool :=
  (z_interface x =? interface)%Z && (z_protocol x =? protocol)%Z &&
  streq (z_service x) name && avahi_domain_equal (z_domain x) domain.

(** [p] is the host before [h]. *)
Fixpoint unlink_loop (fuel : nat) (h p : option nat) (interface protocol : Z) (name domain : cstr) :
    M zdaemon unit :=
  match fuel with
  | 0 => ub
  | S fuel =>
      match h with
      | None => ret ()
      | Some hp =>
          let! x := deref hp in
          if same_service interface protocol name domain (z_data x) then
            do! (match p with
                 | Some p => assign p (set_next (z_next x))
                 | None => modify (set_zd_hosts (z_next x))
                 end);
            free_host hp
          else unlink_loop fuel (z_next x) (Some hp) interface protocol name domain
      end
  end.

Definition remove_service (interface protocol : Z) (name domain : cstr) : M zdaemon unit := λ d,
  unlink_loop (list_fuel d) (zd_hosts d) None interface protocol name domain d.

(** ** The file *)

(** Taking and giving back a lock, and seeking: calls that may fail.  The
    other processes are not modelled. *)
Definition generic_lock (fd : nat) : M world (unit + errno) := fs_call (ret (inl ())).
Definition sys_lseek (fd : nat) : M world (unit + errno) := fs_call (ret (inl ())).

Definition sys_ftruncate (fd : nat) : M world (unit + errno) :=
  fs_call (do! modify_core (λ c, match c_fds c !! fd ≫= fd_file with
                                 | Some p => set_files (<[p := NFile []]> (c_files c)) c
                                 | None => c
                                 end);
           ret (inl ())).

(** The product is an [int]. *)
Definition slots_of (n_slots n_cpus : Z) : outcome Z :=
  let v := (n_slots * n_cpus)%Z in
  if (v <=? INT_MAX)%Z && (- 2 ^ 31 <=? v)%Z then Ok v else Undef.

(** The line of a host, in a buffer of 256 bytes. *)
Definition host_line (n_slots : Z) (x : zdata) : outcome cstr :=
  match z_address x with
  | None => Undef
  | Some a =>
      match slots_of n_slots (z_n_cpus x) with
      | Ok v =>
          let text := avahi_address_snprint a in
          let name := if avahi_inet6 a then "["%cs ++ text ++ "]"%cs else text in
          Ok (take 255 (name ++ ":"%cs ++ dec (z_port x) ++ "/"%cs ++ decimal v ++ ["010"%char]))
      | _ => Undef
      end
  end.

(** A write that fails ends the loop; the result stays 0. *)
Fixpoint write_loop (fuel : nat) (h : option nat) : M zdaemon unit :=
  match fuel with
  | 0 => ub
  | S fuel =>
      match h with
      | None => ret ()
      | Some p =>
          let! x := deref p in
          if z_resolver (z_data x) then write_loop fuel (z_next x)
          else
            let! d := gets (λ d, d) in
            let! t := throw (host_line (zd_n_slots d) (z_data x)) in
            let! r := attempt (on_zw (dcc_writex (zd_fd d) t)) in
            match r with
            | inl _ => write_loop fuel (z_next x)
            | inr _ => ret ()
            end
      end
  end.

Definition write_hosts : M zdaemon unit :=
  let! fd := gets zd_fd in
  let! r := on_zw (generic_lock fd) in
  match r with
  | inr _ => fail (-1)
  | inl _ =>
      let! r := on_zw (sys_lseek fd) in
      match r with
      | inr _ => fail (-1)
      | inl _ =>
          let! r := on_zw (sys_ftruncate fd) in
          match r with
          | inr _ => fail (-1)
          | inl _ =>
              do! remove_duplicate_services;
              do! (λ d, write_loop (list_fuel d) (zd_hosts d) d);
              let! _ := on_zw (generic_lock fd) in
              ret ()
          end
      end
  end.

(** ** The callbacks *)

(** A pair of a TXT record; a key may stand without a value. *)
Definition txt_pair : Type := cstr * option cstr.

(** [atoi] of a missing value reads a null pointer. *)
Fixpoint read_txt (txt : list txt_pair) (n_cpus : Z) : outcome Z :=
  match txt with
  | [] => Ok n_cpus
  | (key, value) :: txt =>
      if streq key "cpus"%cs then
        match value with
        | None => Undef
        | Some value => read_txt txt (if (atoi value <=? 0)%Z then 1 else atoi value)
        end
      else read_txt txt n_cpus
  end.

Definition set_resolved (a : avahi_address) (port n_cpus : Z) (x : zdata) : zdata :=
  ZData (z_interface x) (z_protocol x) (z_service x) (z_domain x) (Some a) port n_cpus false.

Definition resolve_found (h : nat) (a : avahi_address) (port : Z) (txt : list txt_pair) : M zdaemon unit :=
  let! x := deref h in
  let! n_cpus := throw (read_txt txt (z_n_cpus (z_data x))) in
  do! assign h (λ x, ZHost (set_resolved a port n_cpus (z_data x)) (z_next x));
  let! _ := attempt write_hosts in
  ret ().

Definition resolve_failure (h : nat) : M zdaemon unit := free_host h.

(** [mem]: whether there is memory, which is asserted; [resolver]: whether the
    resolver could be made. *)
Definition browse_new (mem resolver : bool) (interface protocol : Z) (name domain : cstr) : M zdaemon unit :=
  if negb mem then ub
  else if resolver then
    modify (λ d, ZDaemon (zd_w d)
      (<[zd_top d := ZHost (ZData interface protocol name domain None 0 1 true) (zd_hosts d)]> (zd_heap d))
      (S (zd_top d)) (Some (zd_top d)) (zd_fd d) (zd_n_slots d) (zd_quit d))
  else ret ().

Definition browse_remove (interface protocol : Z) (name domain : cstr) : M zdaemon unit :=
  do! remove_service interface protocol name domain;
  let! _ := attempt write_hosts in
  ret ().

(** What Avahi reports. *)
Inductive zevent :=
| EvNew (mem resolver : bool) (interface protocol : Z) (name domain : cstr)
| EvRemove (interface protocol : Z) (name domain : cstr)
| EvFound (h : nat) (a : avahi_address) (port : Z) (txt : list txt_pair)
| EvFailure (h : nat)
| EvQuit                        (** the browser or the client failed *)
| EvOther.

Definition handle (e : zevent) : M zdaemon unit :=
  match e with
  | EvNew m r i p n dom => browse_new m r i p n dom
  | EvRemove i p n dom => browse_remove i p n dom
  | EvFound h a port txt => resolve_found h a port txt
  | EvFailure h => resolve_failure h
  | EvQuit => modify set_zd_quit
  | EvOther => ret ()
  end.

(** What Avahi reports next, seeing the resolvers there are. *)
Definition report : Type := zdaemon → zevent.

(** The callbacks of one turn of the event loop, one after another. *)
Fixpoint handle_all (rs : list report) : M zdaemon unit :=
  match rs with
  | [] => ret ()
  | r :: rs => do! (λ d, handle (r d) d); handle_all rs
  end.

(** ** The daemon *)

Definition MAX_IDLE_TIME : Z := 20.

(** [fstat] and [time] may fail; a file that was read in the future is an
    assertion that fails. *)
Definition fd_last_used (st_atime now : option Z) (clip_time : Z) : outcome Z :=
  match st_atime, now with
  | Some st_atime, Some now =>
      let ft := if (clip_time =? 0)%Z then st_atime
                else if (st_atime <? clip_time)%Z then clip_time else st_atime in
      if (ft <=? now)%Z then Ok (now - ft)%Z else Undef
  | _, _ => Ok (-1)%Z
  end.

(** A turn: the times, what Avahi reports, and whether the loop fails. *)
Record zturn := Turn {
  t_atime : option Z; t_now : option Z; t_reports : list report; t_fails : bool
}.

(** The endless loop for as many turns as there are; [None]: still running.
    [avahi_simple_poll_iterate] fails once the loop was told to quit. *)
Fixpoint daemon_turns (clip_time : Z) (turns : list zturn) : M zdaemon (option Z) :=
  match turns with
  | [] => ret None
  | t :: turns =>
      let! idle := throw (fd_last_used (t_atime t) (t_now t) clip_time) in
      if (idle <=? MAX_IDLE_TIME)%Z then
        do! handle_all (t_reports t);
        let! quit := gets zd_quit in
        if quit || t_fails t then ret (Some 1%Z) else daemon_turns clip_time turns
      else ret (Some 0%Z)
  end.

(** [while (d.hosts) ...] *)
Fixpoint free_hosts (fuel : nat) : M zdaemon unit :=
  match fuel with
  | 0 => ub
  | S fuel =>
      let! h := gets zd_hosts in
      match h with
      | None => ret ()
      | Some p =>
          let! x := deref p in
          do! modify (set_zd_hosts (z_next x));
          do! free_host p;
          free_hosts fuel
      end
  end.

(** [open(p, O_RDWR|O_CREAT)] *)
Definition sys_open_rw (p : cstr) : M world (nat + errno) :=
  fs_call (let! f := lookup_file p in
           match f with
           | None =>
               do! modify_core (λ c, set_files (<[p := NFile []]> (c_files c)) c);
               let! fd := add_fd (Fd [] [] (Some p)) in ret (inl fd)
           | Some (NFile data) => let! fd := add_fd (Fd data [] (Some p)) in ret (inl fd)
           | Some _ => ret (inr EOTHER)
           end).

(** The label [finish]; what is still running does not get there. *)
Definition daemon_finish (lock_fd : option nat) (fd : option nat) (ret_ : option Z) : M zdaemon (option Z) :=
  match ret_ with
  | None => ret None
  | Some r =>
      do! (match lock_fd with
           | Some lock_fd =>
               let! _ := on_zw (generic_lock lock_fd) in
               let! _ := on_zw (sys_close lock_fd) in
               ret ()
           | None => ret ()
           end);
      do! (match fd with
           | Some fd => let! _ := on_zw (sys_close fd) in ret ()
           | None => ret ()
           end);
      do! (λ d, free_hosts (list_fuel d) d);
      ret (Some r)
  end.

(** [ready]: the poll object, the client and the browser could be made. *)
Definition daemon_proc (host_file lock_file : cstr) (n_slots clip_time : Z) (ready : bool) (turns : list zturn) :
    M zdaemon (option Z) :=
  do! modify (λ d, ZDaemon (zd_w d) ∅ 0 None 0 n_slots false);
  let! lock_fd := on_zw (sys_open_rw lock_file) in
  match lock_fd with
  | inr _ => daemon_finish None None (Some 1%Z)
  | inl lock_fd =>
      let! r := on_zw (generic_lock lock_fd) in
      match r with
      | inr _ => daemon_finish (Some lock_fd) None (Some 1%Z)
      | inl _ =>
          let! fd := on_zw (sys_open_rw host_file) in
          match fd with
          | inr _ => daemon_finish (Some lock_fd) None (Some 1%Z)
          | inl fd =>
              do! modify (set_zd_fd fd);
              let! _ := attempt write_hosts in
              if ready then
                let! r := daemon_turns clip_time turns in
                daemon_finish (Some lock_fd) (Some fd) r
              else daemon_finish (Some lock_fd) (Some fd) (Some 1%Z)
          end
      end
  end.

(** ** The list in memory *)

(** A host with its address. *)
Abbreviation cell := (nat * zdata)%type.

Definition first_ptr (l : list cell) : option nat := fst <$> head l.

(** The memory that holds a list, and nothing else. *)
Fixpoint mem_of (l : list cell) : gmap nat zhost :=
  match l with
  | [] => ∅
  | (p, x) :: l => <[p := ZHost x (first_ptr l)]> (mem_of l)
  end.

(** The daemon keeps exactly [l]: nothing is lost, nothing is left. *)
Record zlisted (d : zdaemon) (l : list cell) : Prop := ZListed {
  l_heap : zd_heap d = mem_of l;
  l_head : zd_hosts d = first_ptr l;
  l_distinct : NoDup l.*1;
  l_below : Forall (λ c, c.1 < zd_top d) l
}.

Lemma mem_of_dom l q : is_Some (mem_of l !! q) ↔ q ∈ l.*1.
Proof.
  induction l as [|[p x] l IH]; cbn [mem_of fmap list_fmap fst].
  - rewrite lookup_empty, elem_of_nil. split; [by intros [? ?]|done].
  - rewrite elem_of_cons, <- IH. destruct (decide (p = q)) as [->|Hpq].
    + rewrite lookup_insert_eq. split; [by left|by eexists].
    + rewrite lookup_insert_ne by done. naive_solver.
Qed.

Lemma mem_of_None l q : q ∉ l.*1 → mem_of l !! q = None.
Proof. rewrite <- mem_of_dom. by rewrite eq_None_not_Some. Qed.

Lemma mem_of_lookup l p x r :
  p ∉ l.*1 → mem_of (l ++ (p, x) :: r) !! p = Some (ZHost x (first_ptr r)).
Proof.
  induction l as [|[q y] l IH]; cbn [app mem_of fmap list_fmap fst]; intros Hn.
  - by rewrite lookup_insert_eq.
  - apply not_elem_of_cons in Hn as [Hq Hn]. rewrite lookup_insert_ne by done. by apply IH.
Qed.

Lemma mem_of_elem l p x : NoDup l.*1 → (p, x) ∈ l → ∃ n, mem_of l !! p = Some (ZHost x n).
Proof.
  intros Hd (l1 & l2 & ->)%list_elem_of_split. rewrite fmap_app in Hd. apply NoDup_app in Hd as (_ & Hd & _).
  exists (first_ptr l2). apply mem_of_lookup. intros Hp. apply (Hd p Hp). by left.
Qed.

Lemma first_ptr_app l (c : cell) r r' : first_ptr (l ++ c :: r) = first_ptr (l ++ c :: r').
Proof. by destruct l. Qed.

Lemma mem_of_update l p x r x' r' :
  p ∉ l.*1 → mem_of r = mem_of r' →
  <[p := ZHost x' (first_ptr r')]> (mem_of (l ++ (p, x) :: r)) = mem_of (l ++ (p, x') :: r').
Proof.
  intros Hn Hr. induction l as [|[q y] l IH]; cbn [app mem_of fmap list_fmap fst] in *.
  - by rewrite insert_insert_eq, Hr.
  - apply not_elem_of_cons in Hn as [Hq Hn]. rewrite insert_insert_ne by done.
    rewrite IH by done. do 2 f_equal. by destruct l.
Qed.

(** Taking out the host behind [p]. *)
Lemma mem_of_unlink l p x q y r :
  NoDup (l ++ (p, x) :: (q, y) :: r).*1 →
  delete q (<[p := ZHost x (first_ptr r)]> (mem_of (l ++ (p, x) :: (q, y) :: r))) = mem_of (l ++ (p, x) :: r).
Proof.
  induction l as [|[a z] l IH]; cbn [app mem_of fmap list_fmap fst]; intros Hd.
  - rewrite !NoDup_cons in Hd. destruct Hd as (Hp & Hq & _). rewrite not_elem_of_cons in Hp.
    rewrite insert_insert_eq, delete_insert_ne by naive_solver. by rewrite delete_insert_id by by apply mem_of_None.
  - rewrite NoDup_cons, fmap_app in Hd. destruct Hd as [Ha Hd]. rewrite elem_of_app in Ha. cbn in Ha.
    rewrite !elem_of_cons in Ha. rewrite <- IH by by rewrite fmap_app.
    rewrite insert_insert_ne, delete_insert_ne by naive_solver. do 2 f_equal. by destruct l.
Qed.

Lemma mem_of_unlink_head q y r : NoDup ((q, y) :: r).*1 → delete q (mem_of ((q, y) :: r)) = mem_of r.
Proof. cbn. rewrite NoDup_cons. intros [Hq _]. by rewrite delete_insert_id by by apply mem_of_None. Qed.

Lemma mem_of_size l : NoDup l.*1 → size (mem_of l) = length l.
Proof.
  induction l as [|[p x] l IH]; cbn [mem_of fmap list_fmap fst length]; [done|]. rewrite NoDup_cons. intros [Hp Hd].
  rewrite map_size_insert_None by by apply mem_of_None. by rewrite IH.
Qed.
(** ** What the list operations do *)

Definition service_of (c : cell) : cstr := z_service c.2.

(** The first host of every service name. *)
Fixpoint first_of_each (seen : list cstr) (l : list cell) : list cell :=
  match l with
  | [] => []
  | c :: l =>
      if bool_decide (service_of c ∈ seen) then first_of_each seen l
      else c :: first_of_each (service_of c :: seen) l
  end.

Definition others (s : cstr) (l : list cell) : list cell := filter (λ c, service_of c ≠ s) l.

Lemma first_of_each_ext seen seen' l :
  (∀ s, s ∈ seen ↔ s ∈ seen') → first_of_each seen l = first_of_each seen' l.
Proof.
  revert seen seen'. induction l as [|c l IH]; intros seen seen' Hs; cbn [first_of_each]; [done|].
  rewrite (bool_decide_ext _ _ (Hs (service_of c))). rewrite (IH _ _ Hs).
  case_match; [done|]. f_equal. apply IH. intros s. rewrite !elem_of_cons. naive_solver.
Qed.

Lemma first_of_each_others s seen l : first_of_each (s :: seen) l = first_of_each seen (others s l).
Proof.
  revert seen. induction l as [|c l IH]; intros seen; [done|].
  unfold others. cbn [first_of_each]. rewrite filter_cons. fold (others s l).
  destruct (decide (service_of c = s)) as [<-|Hne].
  - rewrite bool_decide_eq_true_2 by by left. rewrite decide_False by naive_solver. apply IH.
  - rewrite decide_True by done. cbn [first_of_each].
    assert (service_of c ∈ s :: seen ↔ service_of c ∈ seen) as He by (rewrite elem_of_cons; naive_solver).
    rewrite (bool_decide_ext _ _ He). case_match; [apply IH|]. f_equal.
    rewrite <- (IH (service_of c :: seen)). apply first_of_each_ext. intros t. rewrite !elem_of_cons. naive_solver.
Qed.

Lemma first_of_each_sublist seen l : first_of_each seen l `sublist_of` l.
Proof.
  revert seen. induction l as [|c l IH]; intros seen; cbn [first_of_each]; [done|].
  case_match; [by apply sublist_cons|by apply sublist_skip].
Qed.

Lemma first_of_each_distinct seen l :
  NoDup (service_of <$> first_of_each seen l) ∧ (∀ s, s ∈ seen → s ∉ service_of <$> first_of_each seen l).
Proof.
  revert seen. induction l as [|c l IH]; intros seen; cbn [first_of_each].
  - split; [constructor|]. intros s _. apply not_elem_of_nil.
  - destruct (bool_decide_reflect (service_of c ∈ seen)) as [_|Hn]; [apply IH|].
    destruct (IH (service_of c :: seen)) as [Hd Hs]. cbn [fmap list_fmap]. split.
    + constructor; [apply Hs; by left|done].
    + intros s Hin. apply not_elem_of_cons. split; [naive_solver|]. apply Hs. by right.
Qed.

Lemma first_of_each_id l : NoDup (service_of <$> l) → first_of_each [] l = l.
Proof.
  assert (∀ seen, NoDup (service_of <$> l) → (∀ c, c ∈ l → service_of c ∉ seen) → first_of_each seen l = l) as H0.
  { induction l as [|c l IH]; intros seen Hd Hs; cbn [first_of_each]; [done|].
    cbn [fmap list_fmap] in Hd. apply NoDup_cons in Hd as [Hc Hd].
    rewrite bool_decide_eq_false_2 by (apply Hs; by left). f_equal. apply IH; [done|].
    intros c' Hin. apply not_elem_of_cons. split; [|apply Hs; by right].
    intros E. apply Hc. rewrite <- E. by apply list_elem_of_fmap_2. }
  intros Hd. apply H0; [done|]. intros c _. apply not_elem_of_nil.
Qed.

Lemma deref_run p x d : zd_heap d !! p = Some x → deref p d = (Ok x, d).
Proof. unfold deref. by intros ->. Qed.

Lemma assign_run p f x d :
  zd_heap d !! p = Some x → assign p f d = (Ok (), set_zd_heap (<[p := f x]> (zd_heap d)) d).
Proof. intros E. unfold assign. by rewrite (bind_Ok _ _ _ _ _ (deref_run _ _ _ E)). Qed.

Lemma free_run p x d :
  zd_heap d !! p = Some x → free_host p d = (Ok (), set_zd_heap (delete p (zd_heap d)) d).
Proof. intros E. unfold free_host. by rewrite (bind_Ok _ _ _ _ _ (deref_run _ _ _ E)). Qed.

Lemma streq_comm a b : streq a b = streq b a.
Proof. destruct (streq a b) eqn:E1, (streq b a) eqn:E2; try done;
  [apply streq_true in E1 as ->|apply streq_true in E2 as ->]; by rewrite streq_refl in *. Qed.

(** The inner loop takes out the later hosts of the same service. *)
Lemma dup_inner_run fuel h1 x1 front prev xp rest d :
  zd_heap d = mem_of (front ++ (prev, xp) :: rest) → NoDup (front ++ (prev, xp) :: rest).*1 →
  (h1, x1) ∈ front ++ [(prev, xp)] → length rest < fuel →
  dup_inner fuel h1 prev (first_ptr rest) d =
    (Ok (), set_zd_heap (mem_of (front ++ (prev, xp) :: others (z_service x1) rest)) d).
Proof.
  revert front prev xp rest d. induction fuel as [|fuel IH]; intros front prev xp rest d Hh Hd H1 Hf; [lia|].
  destruct rest as [|[q y] rest]; cbn [dup_inner first_ptr head fmap option_fmap option_map fst].
  { unfold ret. by destruct d; cbn in *; subst. }
  assert (prev ∉ front.*1 ∧ q ∉ (front ++ [(prev, xp)]).*1) as [Hp Hq].
  { rewrite fmap_app in Hd |- *. apply NoDup_app in Hd as (_ & Hx & Hd). cbn in *.
    apply NoDup_cons in Hd as [Hpq _]. split.
    - intros Hin. apply (Hx _ Hin). by left.
    - intros [Hin|Hin%list_elem_of_singleton]%elem_of_app; [apply (Hx _ Hin); right; by left|].
      subst. apply Hpq. by left. }
  destruct (mem_of_elem (front ++ (prev, xp) :: (q, y) :: rest) h1 x1) as [n1 E1]; [done| |].
  { rewrite elem_of_app in H1 |- *. rewrite list_elem_of_singleton in H1. rewrite elem_of_cons. naive_solver. }
  assert (mem_of (front ++ (prev, xp) :: (q, y) :: rest) !! q = Some (ZHost y (first_ptr rest))) as E2.
  { rewrite cons_middle, app_assoc. by apply mem_of_lookup. }
  rewrite <- Hh in E1, E2. rewrite (bind_Ok _ _ _ _ _ (deref_run _ _ _ E1)), (bind_Ok _ _ _ _ _ (deref_run _ _ _ E2)).
  cbn [z_data z_next]. unfold others. rewrite filter_cons. change (service_of (q, y)) with (z_service y).
  assert (zd_heap d !! prev = Some (ZHost xp (Some q))) as Ep by (rewrite Hh; by apply mem_of_lookup).
  destruct (streq (z_service x1) (z_service y)) eqn:Es.
  - apply streq_true in Es. rewrite decide_False by naive_solver.
    erewrite bind_Ok; [|rewrite (bind_Ok _ _ _ _ _ (assign_run _ _ _ _ Ep)); erewrite bind_Ok; [reflexivity|]].
    2:{ eapply free_run. cbn [zd_heap set_zd_heap]. rewrite lookup_insert_ne; [exact E2|].
        intros ->. apply Hq. rewrite fmap_app. apply elem_of_app. right. by left. }
    unfold set_next. cbn [zd_heap set_zd_heap z_data]. rewrite Hh, mem_of_unlink by done.
    erewrite bind_Ok by (apply deref_run; cbn [zd_heap set_zd_heap]; by apply mem_of_lookup). cbn [z_next].
    rewrite (IH front prev xp); [done|done| |done|cbn in Hf; lia].
    rewrite fmap_app in Hd |- *. cbn in Hd |- *. eapply sublist_NoDup; [exact Hd|].
    apply sublist_app; [done|]. apply sublist_skip. by apply sublist_cons.
  - apply streq_false in Es. rewrite decide_True by naive_solver.
    erewrite bind_Ok by reflexivity. rewrite (bind_Ok _ _ _ _ _ (deref_run _ _ _ E2)). cbn [z_next].
    rewrite cons_middle, app_assoc in Hh, Hd. rewrite (IH (front ++ [(prev, xp)]) q y rest d Hh Hd);
      [by rewrite <- app_assoc|by rewrite elem_of_app; left|cbn in Hf; lia].
Qed.

Lemma others_length s l : length (others s l) ≤ length l.
Proof. apply sublist_length, sublist_filter. Qed.

Lemma dup_outer_run fuel done rest d :
  zd_heap d = mem_of (done ++ rest) → NoDup (done ++ rest).*1 → length rest < fuel →
  dup_outer fuel (first_ptr rest) d = (Ok (), set_zd_heap (mem_of (done ++ first_of_each [] rest)) d).
Proof.
  revert done rest d. induction fuel as [|fuel IH]; intros done rest d Hh Hd Hf; [lia|].
  destruct rest as [|[p x] rest]; cbn [dup_outer first_ptr head fmap option_fmap option_map fst].
  { unfold ret. by destruct d; cbn in *; subst. }
  assert (p ∉ done.*1) as Hp.
  { rewrite fmap_app in Hd. apply NoDup_app in Hd as (_ & Hx & _). intros Hin. apply (Hx _ Hin). by left. }
  assert (zd_heap d !! p = Some (ZHost x (first_ptr rest))) as Ep by (rewrite Hh; by apply mem_of_lookup).
  rewrite (bind_Ok _ _ _ _ _ (deref_run _ _ _ Ep)). cbn [z_next length] in *.
  rewrite (bind_Ok _ _ _ _ _ (dup_inner_run (S fuel) p x done p x rest d Hh Hd
    ltac:(apply elem_of_app; right; by left) ltac:(lia))).
  erewrite bind_Ok by (apply deref_run, (mem_of_lookup done p x _ Hp)). cbn [z_next].
  cbn [first_of_each]. rewrite bool_decide_eq_false_2 by apply not_elem_of_nil.
  rewrite first_of_each_others. change (service_of (p, x)) with (z_service x).
  rewrite (IH (done ++ [(p, x)]) (others (z_service x) rest)).
  - by rewrite <- app_assoc.
  - by rewrite <- app_assoc.
  - rewrite <- app_assoc. eapply sublist_NoDup; [exact Hd|]. apply fmap_sublist, sublist_app; [done|].
    apply sublist_skip, sublist_filter.
  - pose proof (others_length (z_service x) rest). lia.
Qed.

(** Removing duplicates keeps the first host of every name. *)
Lemma remove_duplicates_run d l :
  zlisted d l →
  ∃ d', remove_duplicate_services d = (Ok (), d') ∧ zlisted d' (first_of_each [] l) ∧ 
    d' = set_zd_heap (mem_of (first_of_each [] l)) d.
Proof.
  intros [Hh Hf Hd Hb]. unfold remove_duplicate_services. rewrite Hf, (dup_outer_run _ [] l d) by
    (done || unfold list_fuel; rewrite Hh, mem_of_size by done; lia).
  eexists. split; [done|]. split; [|done]. split; cbn [zd_heap zd_hosts zd_top set_zd_heap app].
  - done.
  - rewrite Hf. destruct l as [|c l]; [done|]. cbn [first_of_each].
    by rewrite bool_decide_eq_false_2 by apply not_elem_of_nil.
  - eapply sublist_NoDup; [exact Hd|]. apply fmap_sublist, first_of_each_sublist.
  - rewrite Forall_forall in Hb |- *. intros c Hc. eapply Hb, elem_of_sublist; [exact Hc|]. apply first_of_each_sublist.
Qed.

(** The list without the first host that is meant. *)
Fixpoint drop_first (f : zdata → bool) (l : list cell) : list cell :=
  match l with
  | [] => []
  | c :: l => if f c.2 then l else c :: drop_first f l
  end.

Lemma drop_first_sublist f l : drop_first f l `sublist_of` l.
Proof.
  induction l as [|c l IH]; cbn [drop_first]; [done|]. case_match; [by apply sublist_cons|by apply sublist_skip].
Qed.

Lemma listed_sublist d l l' d' :
  zlisted d l → l' `sublist_of` l → zd_heap d' = mem_of l' → zd_hosts d' = first_ptr l' → zd_top d' = zd_top d →
  zlisted d' l'.
Proof.
  intros [Hh Hf Hd Hb] Hs H1 H2 H3. split; [done..| |].
  - eapply sublist_NoDup; [exact Hd|by apply fmap_sublist].
  - rewrite H3, Forall_forall in *. intros c Hc. by eapply Hb, elem_of_sublist.
Qed.

Lemma unlink_loop_run fuel i pr n dom front rest d :
  zd_heap d = mem_of (front ++ rest) → zd_hosts d = first_ptr (front ++ rest) → NoDup (front ++ rest).*1 →
  length rest < fuel →
  unlink_loop fuel (first_ptr rest) (fst <$> last front) i pr n dom d =
    (Ok (), set_zd_hosts (first_ptr (front ++ drop_first (same_service i pr n dom) rest))
              (set_zd_heap (mem_of (front ++ drop_first (same_service i pr n dom) rest)) d)).
Proof.
  revert front rest d. induction fuel as [|fuel IH]; intros front rest d Hh Hf Hd Hl; [lia|].
  destruct rest as [|[q y] rest]; cbn [unlink_loop first_ptr head fmap option_fmap option_map fst].
  { unfold ret. cbn [drop_first]. rewrite <- Hh, <- Hf. by destruct d. }
  assert (q ∉ front.*1) as Hq.
  { rewrite fmap_app in Hd. apply NoDup_app in Hd as (_ & Hx & _). intros Hin. apply (Hx _ Hin). by left. }
  assert (zd_heap d !! q = Some (ZHost y (first_ptr rest))) as E2 by (rewrite Hh; by apply mem_of_lookup).
  rewrite (bind_Ok _ _ _ _ _ (deref_run _ _ _ E2)). cbn [z_data z_next drop_first].
  change ((q, y).2) with y. destruct (same_service i pr n dom y).
  - destruct front as [|[p x] front _] using rev_ind; cbn [last fmap option_fmap option_map app] in *.
    + erewrite bind_Ok by reflexivity. erewrite free_run by exact E2. cbn [zd_heap set_zd_hosts].
      rewrite Hh, mem_of_unlink_head by done. by destruct d.
    + rewrite last_snoc. cbn [fmap option_fmap option_map fst]. rewrite <- app_assoc in *. cbn [app] in *.
      assert (p ∉ front.*1) as Hp.
      { rewrite fmap_app in Hd. apply NoDup_app in Hd as (_ & Hx & _). intros Hin. apply (Hx _ Hin). by left. }
      assert (zd_heap d !! p = Some (ZHost x (Some q))) as Ep by (rewrite Hh; by apply mem_of_lookup).
      rewrite (bind_Ok _ _ _ _ _ (assign_run _ _ _ _ Ep)). erewrite free_run.
      2:{ cbn [zd_heap set_zd_heap]. rewrite lookup_insert_ne; [exact E2|]. intros ->.
          apply Hq. rewrite fmap_app. apply elem_of_app. right. by left. }
      unfold set_next. cbn [zd_heap set_zd_heap z_data]. rewrite Hh, mem_of_unlink by done.
      assert (first_ptr (front ++ (p, x) :: rest) = zd_hosts d) as -> by (rewrite Hf; apply first_ptr_app).
      by destruct d.
  - rewrite cons_middle, app_assoc in Hh, Hf, Hd.
    replace (Some q) with (fst <$> last (front ++ [(q, y)])) by by rewrite last_snoc.
    rewrite (IH _ _ _ Hh Hf Hd) by (cbn in Hl; lia). by rewrite <- !app_assoc.
Qed.

Lemma remove_service_run i pr n dom d l :
  zlisted d l →
  ∃ d', remove_service i pr n dom d = (Ok (), d') ∧ zlisted d' (drop_first (same_service i pr n dom) l) ∧
    zd_w d' = zd_w d ∧ zd_fd d' = zd_fd d ∧ zd_n_slots d' = zd_n_slots d ∧ zd_top d' = zd_top d.
Proof.
  intros Hl. pose proof Hl as [Hh Hf Hd Hb]. unfold remove_service. rewrite Hf.
  rewrite (unlink_loop_run _ i pr n dom [] l d) by
    (done || unfold list_fuel; rewrite Hh, mem_of_size by done; lia).
  eexists. split; [done|]. split; [|done]. eapply listed_sublist; [done|apply drop_first_sublist|done..].
Qed.

(** ** The file *)

(** A host whose line can be written: the number of jobs fits, and the address
    of a resolved host is known. *)
Definition zpresentable (n_slots : Z) (x : zdata) : Prop :=
  (- 2 ^ 31 ≤ n_slots * z_n_cpus x ≤ INT_MAX)%Z ∧ (z_resolver x = false → is_Some (z_address x)).

Definition line_of (n_slots : Z) (c : cell) : cstr :=
  if z_resolver c.2 then [] else match host_line n_slots c.2 with Ok t => t | _ => [] end.

(** The lines of the hosts that are resolved, in order. *)
Definition published (n_slots : Z) (l : list cell) : cstr := l ≫= line_of n_slots.

Lemma host_line_ok n_slots x :
  zpresentable n_slots x → z_resolver x = false → ∃ t, host_line n_slots x = Ok t.
Proof.
  intros [Hs Ha] Hr. unfold host_line. destruct (Ha Hr) as [a ->]. unfold slots_of.
  rewrite (proj2 (Z.leb_le _ INT_MAX)), (proj2 (Z.leb_le _ _)) by lia. cbn [andb]. eauto.
Qed.

(** Whatever the kernel does the list is not touched. *)
Lemma write_loop_any fuel front rest d :
  zd_heap d = mem_of (front ++ rest) → NoDup (front ++ rest).*1 →
  Forall (λ c, zpresentable (zd_n_slots d) c.2) rest → length rest < fuel →
  wp (write_loop fuel (first_ptr rest))
     (λ o d', (o = Ok () ∨ o = Exit EXIT_BAD_ARGUMENTS) ∧ ∃ w', d' = set_zd_w w' d) d.
Proof.
  revert front rest d. induction fuel as [|fuel IH]; intros front rest d Hh Hd Hp Hl; [lia|].
  destruct rest as [|[q y] rest]; cbn [write_loop first_ptr head fmap option_fmap option_map fst].
  { apply wp_ret. split; [by left|]. exists (zd_w d). by destruct d. }
  apply Forall_cons in Hp as [Hy Hp]. cbn [snd] in Hy.
  assert (q ∉ front.*1) as Hq.
  { rewrite fmap_app in Hd. apply NoDup_app in Hd as (_ & Hx & _). intros Hin. apply (Hx _ Hin). by left. }
  apply wp_bind. eapply wp_run; [apply deref_run; rewrite Hh; by apply mem_of_lookup|]. cbn [z_data z_next].
  rewrite cons_middle, app_assoc in Hh, Hd. cbn [length] in Hl.
  destruct (z_resolver y) eqn:Er; [apply (IH (front ++ [(q, y)])); [done..|lia]|].
  apply wp_bind, wp_gets, wp_bind. destruct (host_line_ok _ _ Hy Er) as [t ->]. apply wp_throw.
  apply wp_bind, wp_attempt, wp_zoom. eapply wp_mono; [apply (writex_loop_any (io_fuel (length t) (zd_w d))); lia|].
  intros [[]|c|c|] w' Ho; cbn in Ho; try done.
  - eapply wp_mono; [apply (IH (front ++ [(q, y)]) rest (set_zd_w w' d)); [done..|lia]|].
    intros o d' (Ho' & w2 & ->). split; [done|]. by exists w2.
  - apply wp_ret. split; [by left|]. by exists w'.
  - destruct Ho as [-> _]. split; [by right|]. by exists w'.
Qed.

Lemma write_loop_run fuel front rest d fd :
  zd_heap d = mem_of (front ++ rest) → NoDup (front ++ rest).*1 →
  Forall (λ c, zpresentable (zd_n_slots d) c.2) rest → length rest < fuel →
  io_ok (zd_w d) → c_fds (w_core (zd_w d)) !! zd_fd d = Some fd →
  ∃ w', write_loop fuel (first_ptr rest) d = (Ok (), set_zd_w w' d) ∧ io_ok w' ∧
    w_core w' = put (zd_fd d) fd (published (zd_n_slots d) rest) (w_core (zd_w d)).
Proof.
  revert front rest d fd. induction fuel as [|fuel IH]; intros front rest d fd Hh Hd Hp Hl Hw Hfd; [lia|].
  destruct rest as [|[q y] rest]; cbn [write_loop first_ptr head fmap option_fmap option_map fst].
  { exists (zd_w d). rewrite put_nil by done. split; [by destruct d|done]. }
  apply Forall_cons in Hp as [Hy Hp]. cbn [snd] in Hy.
  assert (q ∉ front.*1) as Hq.
  { rewrite fmap_app in Hd. apply NoDup_app in Hd as (_ & Hx & _). intros Hin. apply (Hx _ Hin). by left. }
  erewrite bind_Ok by (apply deref_run; rewrite Hh; by apply mem_of_lookup). cbn [z_data z_next].
  rewrite cons_middle, app_assoc in Hh, Hd. cbn [length] in Hl.
  unfold published. cbn [mbind list_bind]. unfold line_of at 1. cbn [snd].
  destruct (z_resolver y) eqn:Er; [apply (IH (front ++ [(q, y)])); [done..|lia|done|done]|].
  erewrite bind_Ok by reflexivity. destruct (host_line_ok _ _ Hy Er) as [t Ht]. rewrite Ht.
  erewrite bind_Ok by reflexivity.
  destruct (writex_loop_ok (io_fuel (length t) (zd_w d)) (zd_fd d) t fd (zd_w d) (le_n _) Hw Hfd)
    as (w1 & E1 & Hc1 & Hw1 & _).
  erewrite bind_Ok; [|unfold attempt, on_zw, zoom, dcc_writex; rewrite E1; reflexivity]. cbv iota.
  destruct (IH (front ++ [(q, y)]) rest (set_zd_w w1 d) (Fd (fd_in fd) (fd_out fd ++ t) (fd_file fd)))
    as (w2 & E2 & Hw2 & Hc2); [done..|lia|done| |].
  { cbn [zd_w set_zd_w zd_fd]. rewrite Hc1. apply put_lookup. }
  exists w2. cbn [zd_w set_zd_w zd_fd zd_n_slots] in *. rewrite E2. split; [done|]. split; [done|].
  rewrite Hc2, Hc1. by apply put_put.
Qed.

(** What no operation on the file changes. *)
Definition same_daemon (d d' : zdaemon) : Prop :=
  zd_top d' = zd_top d ∧ zd_fd d' = zd_fd d ∧ zd_n_slots d' = zd_n_slots d ∧ zd_quit d' = zd_quit d.

Lemma listed_w d l w : zlisted d l → zlisted (set_zd_w w d) l.
Proof. by intros []. Qed.

Lemma first_of_each_presentable n seen l :
  Forall (λ c, zpresentable n c.2) l → Forall (λ c, zpresentable n c.2) (first_of_each seen l).
Proof.
  rewrite !Forall_forall. intros H1 c Hc. eapply H1, elem_of_sublist; [exact Hc|]. apply first_of_each_sublist.
Qed.

Lemma write_loop_fuel d l : zlisted d l → length l < list_fuel d.
Proof. intros [Hh _ Hd _]. unfold list_fuel. rewrite Hh, mem_of_size by done. lia. Qed.

Lemma write_hosts_any d l :
  zlisted d l → Forall (λ c, zpresentable (zd_n_slots d) c.2) l →
  wp write_hosts
     (λ o d', (o = Ok () ∨ o = Fail (-1)%Z ∨ o = Exit EXIT_BAD_ARGUMENTS) ∧ same_daemon d d' ∧
       ∃ l', l' `sublist_of` l ∧ zlisted d' l') d.
Proof.
  intros Hl Hp.
  assert (∀ w', same_daemon d (set_zd_w w' d) ∧ ∃ l', l' `sublist_of` l ∧ zlisted (set_zd_w w' d) l') as Hno.
  { intros w'. split; [done|]. exists l. split; [done|by apply listed_w]. }
  apply wp_bind, wp_gets.
  apply wp_bind, wp_zoom, wp_fs_call; intros; [split; [by auto|by apply Hno]|].
  apply wp_ret. cbn beta iota.
  apply wp_bind, wp_zoom, wp_fs_call; intros; [split; [by auto|by apply (Hno (set_fs _ (set_fs _ _)))]|].
  apply wp_ret. cbn beta iota.
  apply wp_bind, wp_zoom, wp_fs_call; intros; [split; [by auto|by apply (Hno (set_fs _ (set_fs _ (set_fs _ _))))]|].
  apply wp_bind, wp_modify, wp_ret. cbn beta iota.
  match goal with |- wp _ _ ?d1 => set (d1' := d1) end.
  assert (zlisted d1' l) as Hl1 by by destruct Hl.
  assert (same_daemon d d1') as Hs1 by done. clearbody d1'.
  destruct (remove_duplicates_run d1' l Hl1) as (d2 & E2 & Hl2 & Ed2).
  apply wp_bind. eapply wp_run; [exact E2|]. cbn beta iota.
  assert (zd_n_slots d2 = zd_n_slots d) as Hn by (rewrite Ed2; apply Hs1).
  apply wp_bind. unfold wp at 1. rewrite (l_head _ _ Hl2).
  pose proof (write_loop_any (list_fuel d2) [] (first_of_each [] l) d2 (l_heap _ _ Hl2) (l_distinct _ _ Hl2)
    ltac:(rewrite Hn; by apply first_of_each_presentable) (write_loop_fuel _ _ Hl2)) as Hw. unfold wp in Hw.
  destruct (write_loop _ _ d2) as [o d3]. cbn [fst snd] in *. destruct Hw as (Ho & w3 & ->).
  assert (same_daemon d (set_zd_w w3 d2)) as Hs3 by (rewrite Ed2; exact Hs1).
  assert (∀ w, ∃ l', l' `sublist_of` l ∧ zlisted (set_zd_w w d2) l') as Hl3.
  { intros w. exists (first_of_each [] l). split; [apply first_of_each_sublist|by apply listed_w]. }
  destruct Ho as [-> | ->]; [|by auto].
  apply wp_bind, wp_zoom, wp_fs_call; intros; apply wp_ret; (split; [by auto|]); (split; [done|apply Hl3]).
Qed.

Lemma write_hosts_run d l fd p :
  zlisted d l → Forall (λ c, zpresentable (zd_n_slots d) c.2) l →
  io_ok (zd_w d) → c_fds (w_core (zd_w d)) !! zd_fd d = Some fd → fd_file fd = Some p →
  ∃ d' fd', write_hosts d = (Ok (), d') ∧ same_daemon d d' ∧ zlisted d' (first_of_each [] l) ∧
    io_ok (zd_w d') ∧ c_fds (w_core (zd_w d')) !! zd_fd d = Some fd' ∧ fd_file fd' = Some p ∧
    c_files (w_core (zd_w d')) =
      <[p := NFile (published (zd_n_slots d) (first_of_each [] l))]> (c_files (w_core (zd_w d))).
Proof.
  intros Hl Hp Hw Hfd Hpath. unfold write_hosts. erewrite bind_Ok by reflexivity.
  destruct (runs_fs_call (ret (inl () : unit + errno)) _ _ _ (runs_ret (inl ()) (w_core (zd_w d))) (zd_w d) eq_refl Hw)
    as (w1 & E1 & Hc1 & Hw1 & _).
  erewrite bind_Ok by (unfold on_zw, zoom, generic_lock; rewrite E1; reflexivity). cbv iota.
  destruct (runs_fs_call (ret (inl () : unit + errno)) _ _ _ (runs_ret (inl ()) (w_core w1)) w1 eq_refl Hw1)
    as (w2 & E2 & Hc2 & Hw2 & _).
  erewrite bind_Ok by (unfold on_zw, zoom, sys_lseek; cbn [zd_w set_zd_w]; rewrite E2; reflexivity). cbv iota.
  set (f := λ c, match c_fds c !! zd_fd d ≫= fd_file with
    | Some p => set_files (<[p := NFile []]> (c_files c)) c | None => c end).
  destruct (runs_fs_call (do! modify_core f; ret (inl () : unit + errno)) _ _ _
    (runs_bind _ _ _ _ _ _ _ (runs_modify_core f (w_core w2)) (runs_ret (inl ()) _)) w2 eq_refl Hw2)
    as (w3 & E3 & Hc3 & Hw3 & _).
  change (sys_ftruncate (zd_fd d) w2 = (Ok (inl ()), w3)) in E3.
  erewrite bind_Ok by (unfold on_zw, zoom; cbn [zd_w set_zd_w]; rewrite E3; reflexivity). cbv iota.
  assert (w_core w3 = set_files (<[p := NFile []]> (c_files (w_core (zd_w d)))) (w_core (zd_w d))) as Hc.
  { rewrite Hc3, Hc2, Hc1. subst f. cbn beta. by rewrite Hfd; cbn; rewrite Hpath. }
  set (d3 := set_zd_w w3 (set_zd_w w2 (set_zd_w w1 d))).
  destruct (remove_duplicates_run d3 l ltac:(by destruct Hl)) as (d4 & E4 & Hl4 & Ed4).
  rewrite (bind_Ok _ _ _ _ _ E4).
  destruct (write_loop_run (list_fuel d4) [] (first_of_each [] l) d4 fd (l_heap _ _ Hl4) (l_distinct _ _ Hl4))
    as (w5 & E5 & Hw5 & Hc5); [|by apply write_loop_fuel|by rewrite Ed4|by rewrite Ed4; cbn; rewrite Hc|].
  { rewrite Ed4. by apply first_of_each_presentable. }
  rewrite <- (l_head _ _ Hl4) in E5. erewrite bind_Ok by exact E5.
  destruct (runs_fs_call (ret (inl () : unit + errno)) _ _ _ (runs_ret (inl ()) (w_core w5)) w5 eq_refl Hw5)
    as (w6 & E6 & Hc6 & Hw6 & _).
  erewrite bind_Ok by (unfold on_zw, zoom, generic_lock; cbn [zd_w set_zd_w]; rewrite E6; reflexivity).
  eexists _, _. split; [reflexivity|]. cbn [zd_w set_zd_w]. rewrite Hc6, Hc5, Ed4. cbn.
  split; [done|]. split; [rewrite Ed4 in Hl4; by destruct Hl4|]. split; [done|].
  rewrite lookup_insert_eq. split; [done|]. split; [done|]. rewrite Hpath, Hc. cbn.
  by rewrite lookup_insert_eq, insert_insert_eq.
Qed.

(** ** What the callbacks do *)

(** The TXT record tells a number of processors that can be used. *)
Definition txt_fine (n_slots : Z) (kv : txt_pair) : Prop :=
  kv.1 = "cpus"%cs → ∃ v, kv.2 = Some v ∧ (n_slots * Z.max 1 (atoi v) ≤ INT_MAX)%Z.

(** What Avahi may report: only a resolver that is still there finds something.
    Failures of a resolver, a new host without memory for it, and TXT records
    that cannot be used are left out. *)
Definition happens (d : zdaemon) (e : zevent) : Prop :=
  match e with
  | EvNew mem _ _ _ _ _ => mem = true
  | EvFound h a port txt =>
      (∃ x n, zd_heap d !! h = Some (ZHost x n) ∧ z_resolver x = true) ∧ Forall (txt_fine (zd_n_slots d)) txt
  | EvFailure _ => False
  | _ => True
  end.

Definition cpus_of (txt : list txt_pair) (n : Z) : Z :=
  match read_txt txt n with Ok n => n | _ => n end.

(** The list after the resolver of [h] answered. *)
Definition resolve_in (h : nat) (a : avahi_address) (port : Z) (txt : list txt_pair) (l : list cell) : list cell :=
  (λ c, if decide (c.1 = h) then (c.1, set_resolved a port (cpus_of txt (z_n_cpus c.2)) c.2) else c) <$> l.

(** The list after an event; [top] is the next address [malloc] gives. *)
Definition after_event (top : nat) (l : list cell) (e : zevent) : list cell :=
  match e with
  | EvNew _ true i pr n dom => (top, ZData i pr n dom None 0 1 true) :: l
  | EvRemove i pr n dom => first_of_each [] (drop_first (same_service i pr n dom) l)
  | EvFound h a port txt => first_of_each [] (resolve_in h a port txt l)
  | _ => l
  end.

(** Every host can be presented, and the default number of slots is one. *)
Record sound_list (d : zdaemon) (l : list cell) : Prop := SoundList {
  s_listed : zlisted d l;
  s_hosts : Forall (λ c, zpresentable (zd_n_slots d) c.2) l;
  s_slots : (0 < zd_n_slots d ≤ INT_MAX)%Z
}.

Lemma sound_sublist d d' l l' :
  sound_list d l → zlisted d' l' → l' `sublist_of` l → zd_n_slots d' = zd_n_slots d → sound_list d' l'.
Proof.
  intros [Hl Hp Hn] Hl' Hs Hd. split; [done| |by rewrite Hd].
  rewrite Hd. rewrite Forall_forall in *. intros c Hc. by eapply Hp, elem_of_sublist.
Qed.

Lemma read_txt_fine n_slots txt n :
  (0 < n_slots ≤ INT_MAX)%Z → Forall (txt_fine n_slots) txt → (- 2 ^ 31 ≤ n_slots * n ≤ INT_MAX)%Z →
  ∃ m, read_txt txt n = Ok m ∧ (- 2 ^ 31 ≤ n_slots * m ≤ INT_MAX)%Z.
Proof.
  intros Hn Ht. revert n. induction Ht as [|[k v] txt Hkv _ IH]; intros n Hr; cbn [read_txt]; [eauto|].
  destruct (streq k "cpus"%cs) eqn:Ek; [|by apply IH]. apply streq_true in Ek.
  destruct (Hkv Ek) as (w & Hw & Hle). cbn in Hw. rewrite Hw. apply IH.
  destruct (Z.leb_spec (atoi w) 0); [lia|]. rewrite Z.max_r in Hle by lia. nia.
Qed.

(** The list around a host. *)
Lemma resolve_in_split h a port txt x l1 l2 :
  NoDup (l1 ++ (h, x) :: l2).*1 →
  resolve_in h a port txt (l1 ++ (h, x) :: l2) =
    l1 ++ (h, set_resolved a port (cpus_of txt (z_n_cpus x)) x) :: l2.
Proof.
  intros Hd. rewrite fmap_app in Hd. apply NoDup_app in Hd as (_ & H1 & Hd). cbn in Hd.
  apply NoDup_cons in Hd as [H2 _].
  assert (∀ l : list cell, h ∉ l.*1 → resolve_in h a port txt l = l) as Hid.
  { intros l Hn. unfold resolve_in. rewrite <- (list_fmap_id l) at 2. apply list_fmap_ext. intros i c Hc.
    rewrite decide_False; [done|]. intros <-. apply Hn, list_elem_of_fmap_2. by eapply list_elem_of_lookup_2. }
  unfold resolve_in in *. rewrite fmap_app. cbn [fmap list_fmap]. rewrite decide_True by done.
  rewrite Hid, Hid; [done|done|]. intros Hin. apply (H1 _ Hin). by left.
Qed.

Lemma heap_cell d l h x n : zlisted d l → zd_heap d !! h = Some (ZHost x n) → (h, x) ∈ l.
Proof.
  intros [Hh _ Hd _] E. rewrite Hh in E. clear Hh. induction l as [|[q y] l IH]; cbn [mem_of] in E.
  - by rewrite lookup_empty in E.
  - cbn in Hd. apply NoDup_cons in Hd as [Hq Hd]. destruct (decide (q = h)) as [->|Hne].
    + rewrite lookup_insert_eq in E. injection E as -> _. by left.
    + rewrite lookup_insert_ne in E by done. right. by apply IH.
Qed.

(** The state in which the found host is written. *)
Lemma found_run d l h a port txt :
  sound_list d l → happens d (EvFound h a port txt) →
  ∃ d', resolve_found h a port txt d = (let! _ := attempt write_hosts in ret ()) d' ∧
    sound_list d' (resolve_in h a port txt l) ∧ zd_w d' = zd_w d ∧ same_daemon d d'.
Proof.
  intros [Hl Hp Hn] [(x & n & Ex & Hr) Ht]. pose proof (heap_cell _ _ _ _ _ Hl Ex) as Hin.
  assert (zpresentable (zd_n_slots d) x) as [Hx _] by (rewrite Forall_forall in Hp; apply (Hp _ Hin)).
  destruct (read_txt_fine _ _ _ Hn Ht Hx) as (m & Em & Hm).
  apply list_elem_of_split in Hin as (l1 & l2 & ->). pose proof Hl as [Hh Hf Hd Hb].
  rewrite resolve_in_split by done. assert (cpus_of txt (z_n_cpus x) = m) as -> by (unfold cpus_of; by rewrite Em).
  unfold resolve_found. rewrite (bind_Ok _ _ _ _ _ (deref_run _ _ _ Ex)). cbn [z_data].
  erewrite bind_Ok by (unfold throw; rewrite Em; reflexivity).
  rewrite (bind_Ok _ _ _ _ _ (assign_run _ _ _ _ Ex)). cbn [z_data z_next].
  assert (h ∉ l1.*1) as Hh1.
  { rewrite fmap_app in Hd. apply NoDup_app in Hd as (_ & H1 & _). intros Hin. apply (H1 _ Hin). by left. }
  assert (n = first_ptr l2) as ->.
  { rewrite Hh, mem_of_lookup in Ex by done. by injection Ex. }
  eexists. split; [reflexivity|]. split; [|done]. split; [|..|done].
  - split; cbn [zd_heap zd_hosts set_zd_heap zd_top].
    + rewrite Hh. by apply mem_of_update.
    + rewrite Hf. by destruct l1.
    + rewrite fmap_app in Hd |- *. exact Hd.
    + rewrite Forall_app, Forall_cons in Hb |- *. exact Hb.
  - rewrite Forall_app, Forall_cons in Hp |- *. split; [apply Hp|]. split; [|apply Hp].
    split; [exact Hm|]. cbn. by eexists.
Qed.

Lemma new_sound d l i pr n dom :
  sound_list d l →
  ∃ d', browse_new true true i pr n dom d = (Ok (), d') ∧
    sound_list d' ((zd_top d, ZData i pr n dom None 0 1 true) :: l) ∧
    zd_w d' = zd_w d ∧ zd_fd d' = zd_fd d ∧ zd_n_slots d' = zd_n_slots d ∧ zd_top d' = S (zd_top d).
Proof.
  intros [[Hh Hf Hd Hb] Hp Hn]. eexists. split; [reflexivity|]. split; [|done]. split; [|..|done].
  - split; cbn.
    + by rewrite Hh, Hf.
    + done.
    + constructor; [|done]. intros (c & Hc & Hin)%list_elem_of_fmap. rewrite Forall_forall in Hb.
      specialize (Hb _ Hin). lia.
    + constructor; [cbn; lia|]. eapply Forall_impl; [exact Hb|]. cbn. intros c Hc. lia.
  - constructor; [|done]. split; [cbn; unfold INT_MAX in *; lia|done].
Qed.

(** Under any kernel the daemon keeps its list in order; it may only end over an
    unusable DISTCC_IO_TIMEOUT. *)
Lemma handle_any d l e :
  sound_list d l → happens d e →
  wp (handle e) (λ o d', (o = Ok () ∨ o = Exit EXIT_BAD_ARGUMENTS) ∧ zd_n_slots d' = zd_n_slots d ∧ ∃ l', sound_list d' l') d.
Proof.
  intros Hs He.
  assert (∀ d0 l0, sound_list d0 l0 → wp (let! _ := attempt write_hosts in ret ())
    (λ o d', (o = Ok () ∨ o = Exit EXIT_BAD_ARGUMENTS) ∧ zd_n_slots d' = zd_n_slots d0 ∧ ∃ l', sound_list d' l') d0) as Hwrite.
  { intros d0 l0 [H1 H2 H3]. apply wp_bind, wp_attempt. eapply wp_mono; [by apply write_hosts_any|].
    intros o d' (Ho & (_ & _ & Hn & _) & l' & Hl' & Hd').
    assert (∃ l', sound_list d' l') by (exists l'; by eapply (sound_sublist d0 d' l0)).
    destruct Ho as [-> |[-> | ->]]; cbn beta iota; [apply wp_ret|apply wp_ret|]; auto. }
  destruct e as [mem res i pr n dom|i pr n dom|h a port txt|h| |]; cbn [handle happens] in *.
  - subst mem. destruct res; [|split; [by left|split; [done|by exists l]]].
    destruct (new_sound d l i pr n dom Hs) as (d' & E & Hs' & _ & _ & Hn & _). unfold wp. rewrite E.
    split; [by left|split; [done|by eexists]].
  - destruct (remove_service_run i pr n dom d l (s_listed _ _ Hs)) as (d1 & E1 & Hl1 & _ & _ & Hn & _).
    apply wp_bind. eapply wp_run; [exact E1|]. cbn beta iota. rewrite <- Hn.
    eapply Hwrite, sound_sublist; [done..| |done]. apply drop_first_sublist.
  - destruct (found_run d l h a port txt Hs He) as (d1 & E1 & Hs1 & _ & (_ & _ & <- & _)).
    unfold wp. rewrite E1. by eapply Hwrite.
  - done.
  - apply wp_modify. split; [by left|]. split; [done|]. exists l. by destruct Hs as [[]].
  - apply wp_ret. split; [by left|split; [done|by exists l]].
Qed.

(** ** The daemon on any kernel *)

Definition ends_well {A} (P : A → zdaemon → Prop) (o : outcome A) (d : zdaemon) : Prop :=
  match o with
  | Ok a => P a d
  | Exit c => c = EXIT_BAD_ARGUMENTS
  | _ => False
  end.

Lemma ends_well_bind {A B} (m : M zdaemon A) (k : A → M zdaemon B) P Q d :
  wp m (ends_well P) d → (∀ a d', P a d' → wp (k a) (ends_well Q) d') → wp (bind m k) (ends_well Q) d.
Proof. intros Hm Hk. apply wp_bind. eapply wp_mono; [exact Hm|]. intros [] d'; simpl; auto. Qed.

(** The list is sound, and [n_slots] is what the daemon was started with. *)
Definition sound_at (n_slots : Z) (d : zdaemon) : Prop := zd_n_slots d = n_slots ∧ ∃ l, sound_list d l.

(** What is reported may happen, in every state. *)
Definition report_fine (n_slots : Z) (r : report) : Prop := ∀ d, zd_n_slots d = n_slots → happens d (r d).

Lemma handle_all_any n rs d :
  Forall (report_fine n) rs → sound_at n d → wp (handle_all rs) (ends_well (λ _, sound_at n)) d.
Proof.
  intros Hrs. revert d. induction Hrs as [|r rs Hr _ IH]; intros d Hs; cbn [handle_all]; [by apply wp_ret|].
  eapply (ends_well_bind _ _ (λ _, sound_at n)); [|intros _; apply IH].
  destruct Hs as [<- [l Hs]]. pose proof (handle_any d l (r d) Hs (Hr d eq_refl)) as Hh. unfold wp in *.
  destruct (handle (r d) d) as [o d']. cbn in *. destruct Hh as [[-> | ->] ?]; done.
Qed.

(** A turn of the event loop that the code is made for: the clock has not been
    set back (the assertion of [fd_last_used] holds), no resolver fails, memory
    for a new host is there, and the TXT records of the hosts that are resolved
    are usable ([txt_fine]). *)
Definition turn_fine (n_slots clip_time : Z) (t : zturn) : Prop :=
  fd_last_used (t_atime t) (t_now t) clip_time ≠ Undef ∧ Forall (report_fine n_slots) (t_reports t).

Lemma fd_last_used_cases a n c :
  fd_last_used a n c = Undef ∨ ∃ z, fd_last_used a n c = Ok z.
Proof. unfold fd_last_used. repeat case_match; eauto. Qed.

Lemma daemon_turns_any n clip_time turns d :
  Forall (turn_fine n clip_time) turns → sound_at n d →
  wp (daemon_turns clip_time turns) (ends_well (λ _, sound_at n)) d.
Proof.
  intros Ht. revert d. induction Ht as [|t turns [Hu Hr] _ IH]; intros d Hs; cbn [daemon_turns]; [by apply wp_ret|].
  destruct (fd_last_used_cases (t_atime t) (t_now t) clip_time) as [|[z ->]]; [done|].
  apply wp_bind, wp_throw. cbn beta iota. case_match; [|by apply wp_ret].
  eapply ends_well_bind; [by apply handle_all_any|]. intros [] d1 Hs1. apply wp_bind, wp_gets.
  case_match; [by apply wp_ret|by apply IH].
Qed.

Lemma free_hosts_run fuel l d :
  zlisted d l → length l < fuel →
  ∃ d', free_hosts fuel d = (Ok (), d') ∧ zd_heap d' = ∅ ∧ zd_hosts d' = None ∧ zd_w d' = zd_w d.
Proof.
  revert l d. induction fuel as [|fuel IH]; intros l d [Hh Hf Hd Hb] Hl; [lia|]. cbn [free_hosts].
  erewrite bind_Ok by reflexivity. destruct l as [|[p x] l]; rewrite Hf; cbn [first_ptr head fmap option_fmap option_map fst].
  { exists d. by rewrite Hf, Hh. }
  assert (zd_heap d !! p = Some (ZHost x (first_ptr l))) as Ep by (rewrite Hh; apply (mem_of_lookup []), not_elem_of_nil).
  rewrite (bind_Ok _ _ _ _ _ (deref_run _ _ _ Ep)). erewrite bind_Ok by reflexivity.
  erewrite bind_Ok by (apply (free_run p (ZHost x (first_ptr l))); exact Ep). cbn [zd_heap set_zd_hosts z_next].
  destruct (IH l (set_zd_heap (delete p (zd_heap d)) (set_zd_hosts (first_ptr l) d))) as (d' & E & Hd').
  - cbn in Hd, Hb. split; cbn [zd_heap zd_hosts zd_top set_zd_heap set_zd_hosts].
    + rewrite Hh. by apply mem_of_unlink_head.
    + done.
    + by apply NoDup_cons in Hd as [_ ?].
    + by apply Forall_cons in Hb as [_ ?].
  - cbn in Hl. lia.
  - by exists d'.
Qed.

(** No host is left when the daemon has ended. *)
Definition all_freed (n_slots : Z) (r : option Z) (d : zdaemon) : Prop :=
  match r with
  | Some _ => zd_heap d = ∅
  | None => sound_at n_slots d
  end.

Lemma wp_zw {A} (m : M world A) (k : A → M zdaemon (option Z)) Q d :
  (∀ Q' w, (∀ a w', Q' (Ok a) w') → wp m Q' w) →
  (∀ a w', wp (k a) Q (set_zd_w w' d)) → wp (bind (on_zw m) k) Q d.
Proof. intros Hm Hk. apply wp_bind, wp_zoom, Hm. intros a w'. apply Hk. Qed.

Lemma answers_lock fd Q w : (∀ a w', Q (Ok a) w') → wp (generic_lock fd) Q w.
Proof. intros HQ. apply wp_fs_call; intros; [apply HQ|apply wp_ret, HQ]. Qed.

Lemma answers_close fd Q w : (∀ a w', Q (Ok a) w') → wp (sys_close fd) Q w.
Proof.
  intros HQ. apply wp_fs_call; intros; [apply HQ|]. apply wp_bind, wp_gets.
  case_match; [apply wp_bind, wp_modify, wp_ret, HQ|apply wp_ret, HQ].
Qed.

Lemma answers_open_rw p Q w : (∀ a w', Q (Ok a) w') → wp (sys_open_rw p) Q w.
Proof.
  intros HQ. apply wp_fs_call; intros; [apply HQ|]. apply wp_bind, wp_gets.
  repeat case_match; try (apply wp_ret, HQ); unfold wp; cbn; apply HQ.
Qed.

Lemma sound_w n d w : sound_at n d → sound_at n (set_zd_w w d).
Proof. intros [? [l [[] ? ?]]]. split; [done|]. exists l. by split. Qed.

Lemma finish_any n lock_fd fd r d :
  sound_at n d → wp (daemon_finish lock_fd fd r) (ends_well (all_freed n)) d.
Proof.
  intros Hs. destruct r as [r|]; [|by apply wp_ret]. cbn [daemon_finish].
  apply (ends_well_bind _ _ (λ _, sound_at n)).
  { destruct lock_fd as [lock_fd|]; [|by apply wp_ret].
    apply wp_bind, wp_zoom, answers_lock. intros a w. cbn beta iota.
    apply wp_bind, wp_zoom, answers_close. intros a' w'. apply wp_ret. by apply sound_w, sound_w. }
  intros [] d1 Hs1. apply (ends_well_bind _ _ (λ _, sound_at n)).
  { destruct fd as [fd|]; [|by apply wp_ret]. apply wp_bind, wp_zoom, answers_close. intros a w. apply wp_ret.
    by apply sound_w. }
  intros [] d2 [_ [l [Hl _ _]]]. apply wp_bind. destruct (free_hosts_run (list_fuel d2) l d2 Hl) as (d3 & E & Hh & _).
  { by apply write_loop_fuel. }
  unfold wp at 1. rewrite E. by apply wp_ret.
Qed.

Lemma fresh_sound w fd n_slots :
  (0 < n_slots ≤ INT_MAX)%Z → sound_list (ZDaemon w ∅ 0 None fd n_slots false) [].
Proof. intros Hn. split; [split; [done|done|constructor|constructor]|constructor|done]. Qed.

(** C12. The daemon's list.  Whatever the kernel answers to the daemon's system
    calls, and whatever services come and go, the daemon never uses a host it has
    given back: its list is well formed in every turn, and when it ends no host
    is left in memory; the only exit is that of a bad DISTCC_IO_TIMEOUT.  This
    holds under [turn_fine], which leaves out what the code does not survive:
    a clock that was set back since the host file was last used (an assertion
    fails, [clock_set_back]); a TXT record with a "cpus" that has no value (a
    null pointer) or so large a value that the number of slots does not fit an
    int ([txt_trusted]); a resolver that reports a failure; and a new host for
    which there is no memory. *)
Theorem zeroconf_daemon_safe (host_file lock_file : cstr) (n_slots clip_time : Z) (ready : bool)
    (turns : list zturn) (d : zdaemon) :
  (0 < n_slots ≤ INT_MAX)%Z → Forall (turn_fine n_slots clip_time) turns →
  wp (daemon_proc host_file lock_file n_slots clip_time ready turns)
     (λ o d', match o with
              | Ok (Some _) => zd_heap d' = ∅
              | Ok None => ∃ l, sound_list d' l
              | Exit c => c = EXIT_BAD_ARGUMENTS
              | _ => False
              end) d.
Proof.
  intros Hn Ht. apply wp_bind, wp_modify. cbn beta iota.
  apply (wp_mono _ (ends_well (all_freed n_slots))); [|intros [[]|c|c|] d'; cbn; auto; by intros [_ ?]].
  set (d1 := ZDaemon _ _ _ _ _ _ _).
  assert (sound_at n_slots d1) as Hs by (split; [done|exists []; by apply fresh_sound]). clearbody d1.
  apply wp_bind, wp_zoom, answers_open_rw. intros lock w1. cbn beta iota.
  apply (sound_w _ _ w1) in Hs. destruct lock as [lock|e]; [|by apply finish_any].
  apply wp_bind, wp_zoom, answers_lock. intros locked w2. cbn beta iota.
  apply (sound_w _ _ w2) in Hs. destruct locked as [[]|e]; [|by apply finish_any].
  apply wp_bind, wp_zoom, answers_open_rw. intros fd w3. cbn beta iota.
  apply (sound_w _ _ w3) in Hs. destruct fd as [fd|e]; [|by apply finish_any].
  apply wp_bind, wp_modify. cbn beta iota.
  set (d2 := set_zd_w w3 _) in *. clearbody d2. destruct Hs as (Hn2 & l & Hs).
  assert (sound_list (set_zd_fd fd d2) l) as [Hl Hp _] by by destruct Hs as [[]].
  apply wp_bind, wp_attempt. eapply wp_mono; [apply (write_hosts_any (set_zd_fd fd d2) l); done|].
  intros o d3 (Ho & (_ & _ & Hn3 & _) & l' & Hsub & Hl3).
  assert (sound_at n_slots d3) as Hs3.
  { split; [by rewrite Hn3|]. exists l'. by eapply (sound_sublist d2 d3 l). }
  assert (wp (if ready then let! r := daemon_turns clip_time turns in daemon_finish (Some lock) (Some fd) r
              else daemon_finish (Some lock) (Some fd) (Some 1%Z)) (ends_well (all_freed n_slots)) d3) as Hgo.
  { destruct ready; [|by apply finish_any]. eapply ends_well_bind; [by apply daemon_turns_any|].
    intros r d4 Hs4. by apply finish_any. }
  by destruct Ho as [-> |[-> | ->]].
Qed.

(** ** The file under a cooperative kernel *)

(** The file [p] shows the list. *)
Record in_sync (p : cstr) (d : zdaemon) (l : list cell) : Prop := InSync {
  y_sound : sound_list d l;
  y_io : io_ok (zd_w d);
  y_fd : ∃ fd, c_fds (w_core (zd_w d)) !! zd_fd d = Some fd ∧ fd_file fd = Some p;
  y_file : c_files (w_core (zd_w d)) !! p = Some (NFile (published (zd_n_slots d) l))
}.

Fixpoint after_events (top : nat) (l : list cell) (es : list zevent) : list cell :=
  match es with
  | [] => l
  | e :: es =>
      after_events (match e with EvNew _ true _ _ _ _ => S top | _ => top end) (after_event top l e) es
  end.

(** Every event may happen when its turn comes. *)
Fixpoint all_happen (es : list zevent) (d : zdaemon) : Prop :=
  match es with
  | [] => True
  | e :: es => happens d e ∧ all_happen es (handle e d).2
  end.

Definition only_file (p : cstr) (d d' : zdaemon) : Prop :=
  ∀ q, q ≠ p → c_files (w_core (zd_w d')) !! q = c_files (w_core (zd_w d)) !! q.

Lemma write_sync p d l w0 :
  sound_list d l → io_ok (zd_w d) →
  (∃ fd, c_fds (w_core (zd_w d)) !! zd_fd d = Some fd ∧ fd_file fd = Some p) → zd_w d = w0 →
  ∃ d', (let! _ := attempt write_hosts in ret ()) d = (Ok (), d') ∧ in_sync p d' (first_of_each [] l) ∧
    (zd_top d' = zd_top d ∧ zd_n_slots d' = zd_n_slots d) ∧
    ∀ q, q ≠ p → c_files (w_core (zd_w d')) !! q = c_files (w_core w0) !! q.
Proof.
  intros [Hl Hp Hn] Hw (fd & Hfd & Hpath) <-.
  destruct (write_hosts_run d l fd p Hl Hp Hw Hfd Hpath) as (d' & fd' & E & (Ht & Hzf & Hzn & _) & Hl' & Hw' & Hfd' & Hp' & Hf).
  exists d'. erewrite bind_Ok by (unfold attempt; rewrite E; reflexivity). split; [done|]. split; [|split; [done|]].
  - split; [split|done|exists fd'; by rewrite Hzf|].
    + done.
    + rewrite Hzn. by apply first_of_each_presentable.
    + by rewrite Hzn.
    + by rewrite Hf, Hzn, lookup_insert_eq.
  - intros q Hq. by rewrite Hf, lookup_insert_ne.
Qed.

Lemma handle_run p d l e :
  in_sync p d l → happens d e →
  ∃ d', handle e d = (Ok (), d') ∧ in_sync p d' (after_event (zd_top d) l e) ∧ only_file p d d' ∧
    zd_top d' = match e with EvNew _ true _ _ _ _ => S (zd_top d) | _ => zd_top d end ∧
    zd_n_slots d' = zd_n_slots d.
Proof.
  intros [Hs Hw Hfd Hf] He. destruct e as [mem res i pr n dom|i pr n dom|h a port txt|h| |]; cbn [handle happens after_event] in *.
  - subst mem. destruct res; [|by exists d].
    destruct (new_sound d l i pr n dom Hs) as (d' & E & Hs' & Ew & Ef & En & Et). exists d'. split; [done|].
    split; [|split; [by intros q _; rewrite Ew|done]]. split; rewrite ?Ew, ?Ef; [done..|]. by rewrite En.
  - destruct (remove_service_run i pr n dom d l (s_listed _ _ Hs)) as (d1 & E1 & Hl1 & Ew & Ef & En & Et).
    unfold browse_remove. rewrite (bind_Ok _ _ _ _ _ E1).
    destruct (write_sync p d1 (drop_first (same_service i pr n dom) l) (zd_w d)) as (d2 & E2 & Hs2 & (Ht2 & Hn2) & Ho2);
      [|by rewrite Ew|by rewrite Ew, Ef|done|].
    + eapply sound_sublist; [done..|apply drop_first_sublist|done].
    + exists d2. rewrite E2, Ht2, Hn2. done.
  - destruct (found_run d l h a port txt Hs He) as (d1 & -> & Hs1 & Ew & (Et & Ef & En & _)).
    destruct (write_sync p d1 (resolve_in h a port txt l) (zd_w d)) as (d2 & E2 & Hs2 & (Ht2 & Hn2) & Ho2);
      [done|by rewrite Ew|by rewrite Ew, Ef|done|].
    exists d2. rewrite E2, Ht2, Hn2. done.
  - done.
  - eexists. split; [reflexivity|]. split; [|done]. destruct Hs as [[]]. by split.
  - by exists d.
Qed.

(** The host file.  Under a kernel without hard errors, after any events the
    host file holds exactly the lines of the resolved hosts of the list, which
    is the one an abstract list of services would be: a service that
    came is in front, one that left or that doubles an earlier name is gone.
    No other file is touched. *)
Lemma handle_all_run (p : cstr) (es : list zevent) (d : zdaemon) (l : list cell) :
  in_sync p d l → all_happen es d →
  ∃ d', handle_all ((λ e _, e) <$> es) d = (Ok (), d') ∧ in_sync p d' (after_events (zd_top d) l es) ∧
    only_file p d d' ∧ zd_n_slots d' = zd_n_slots d.
Proof.
  revert d l. induction es as [|e es IH]; intros d l Hs He; [by exists d|].
  destruct He as [He Hes]. destruct (handle_run p d l e Hs He) as (d1 & E1 & Hs1 & Ho1 & Et1 & En1).
  rewrite E1 in Hes. destruct (IH d1 _ Hs1 Hes) as (d2 & E2 & Hs2 & Ho2 & En2). exists d2.
  cbn [fmap list_fmap handle_all after_events]. erewrite bind_Ok by exact E1. rewrite E2, <- Et1.
  split; [done|]. split; [done|]. split; [|by rewrite En2]. intros q Hq. by rewrite Ho2, Ho1.
Qed.
End zeroconf.

(** ** The client's side *)

Definition MAX_FILE_SIZE : Z := 1024 * 100.

(** A client: its configuration and the static [cached] of [get_zeroconf_dir]. *)
Record zclient := ZClient { zc_conf : conf; zc_cached : option cstr }.
Definition set_zc_conf (c : conf) (z : zclient) : zclient := ZClient c (zc_cached z).
Definition on_zc {A} : M conf A → M zclient A := zoom zc_conf set_zc_conf.
Definition on_zcw {A} (m : M world A) : M zclient A := on_zc (on_cw m).

Definition get_zeroconf_dir : M zclient cstr :=
  let! cached := gets zc_cached in
  match cached with
  | Some cached => ret cached
  | None =>
      let! dir := on_zc (dcc_get_subdir "zeroconf"%cs) in
      do! modify (λ z, ZClient (zc_conf z) (Some dir));
      ret dir
  end.

(** From the lock to the end of the text. *)
Definition read_locked (host_fd : nat) : M world cstr :=
  let! r := generic_lock host_fd in
  match r with
  | inr _ => fail (-1)
  | inl _ =>
      let! st := sys_fstat host_fd in
      match st with
      | inr _ => fail (-1)
      | inl st_size =>
          if (MAX_FILE_SIZE <=? Z.of_nat st_size)%Z then fail (-1)
          else
            let! s := malloc in
            if negb s then ub
            else
              let! r := attempt (dcc_readx host_fd st_size) in
              match r with
              | inl bytes => ret (c_string bytes)
              | inr _ => fail (-1)
              end
      end
  end.

Section adding.
(** [nhosts]: how many hosts the caller's list has. *)
Context {Cfg : Config} {ZC : ZeroconfHosts} (rand : nat → Z) (nhosts : nat).

(** The host file, from [open] on. *)
Definition read_hosts (host_file : cstr) : M zclient (list dcc_hostdef) :=
  let! host_fd := on_zcw (sys_open_read host_file) in
  match host_fd with
  | inr _ => fail (-1)
  | inl host_fd =>
      let! r := attempt (let! s := on_zcw (read_locked host_fd) in on_zc (on_parser (dcc_parse_more_hosts nhosts rand s))) in
      let! _ := on_zcw (generic_lock host_fd) in
      let! _ := on_zcw (sys_close host_fd) in
      match r with
      | inl hosts => ret hosts
      | inr _ => fail (-1)
      end
  end.

(** [spawn host_file lock_file n_slots]: [fork], the daemon in the child, and
    the second the parent waits for it. *)
Definition dcc_zeroconf_add_hosts (spawn : cstr → cstr → Z → M world (unit + errno)) (n_slots : Z) :
    M zclient (list dcc_hostdef) :=
  let! dir := attempt get_zeroconf_dir in
  match dir with
  | inr _ => fail (-1)
  | inl dir =>
      let! b := on_zcw malloc in
      if negb b then ub
      else
        let lock_file := dir ++ "/lock"%cs in
        let! b := on_zcw malloc in
        if negb b then ub
        else
          let host_file := dir ++ "/hosts"%cs in
          let! lock_fd := on_zcw (sys_open_rw lock_file) in
          match lock_fd with
          | inr _ => fail (-1)
          | inl lock_fd =>
              let! r := on_zcw (generic_lock lock_fd) in
              let fork_daemon := match r with inl _ => true | inr _ => false end in
              do! (if fork_daemon then let! _ := on_zcw (generic_lock lock_fd) in ret () else ret ());
              let! _ := on_zcw (sys_close lock_fd) in
              if fork_daemon then
                let! r := on_zcw (spawn host_file lock_file n_slots) in
                match r with
                | inr _ => fail (-1)
                | inl _ => read_hosts host_file
                end
              else read_hosts host_file
          end
  end.
End adding.

(** ** What the parser of the host list relies on *)

Section provider.
Context {Cfg : Config} (rand : nat → Z) (spawn : cstr → cstr → Z → M world (unit + errno)) (z : zclient).

(** The memory and the local slots of the process. *)
Definition with_parser (s : hstate) : zclient :=
  set_zc_conf (let c := zc_conf z in
               Conf (set_mem (h_mem s) (cf_w c)) (cf_top c) (cf_lock c) (cf_state c) (local_slots s, local_cpp_slots s)) z.
Definition parser_of (z : zclient) : hstate :=
  let c := zc_conf z in HState (get_mem (cf_w c)) (cf_slots c).1 (cf_slots c).2.

(** The hosts of zeroconf for a client in the state [z]; the host file itself does
    not refer to zeroconf again.  An assertion that fails counts as an error. *)
Definition zeroconf_now : ZeroconfHosts := {|
  zeroconf_hosts := Some (λ nhosts s,
    let '(o, z') := dcc_zeroconf_add_hosts (ZC := no_zeroconf) rand nhosts spawn 4 (with_parser s) in
    (match o with Ok hosts => Some hosts | _ => None end, parser_of z'))
|}.

(** Whatever [m] does, what it returns satisfies [P]. *)
Definition yields {S A} (P : A → Prop) (m : M S A) : Prop := ∀ s, match (m s).1 with Ok a => P a | _ => True end.

Lemma yields_bind {S A B} (Q : A → Prop) (P : B → Prop) (m : M S A) (k : A → M S B) :
  yields Q m → (∀ a, Q a → yields P (k a)) → yields P (bind m k).
Proof. intros Hm Hk s. specialize (Hm s). unfold bind. destruct (m s) as [[] s']; simpl in *; [by apply Hk|done..]. Qed.
Lemma yields_any {S A} (m : M S A) : yields (λ _, True) m.
Proof. intros s. by destruct (m s).1. Qed.
Lemma yields_ret {S A} (P : A → Prop) (a : A) : P a → yields (S := S) P (ret a).
Proof. by intros ? s. Qed.
Lemma yields_throw {S A} (P : A → Prop) (o : outcome A) : (∀ a, o ≠ Ok a) → yields (S := S) P (throw o).
Proof. intros H s. simpl. destruct o; [by destruct (H a)|done..]. Qed.
Lemma yields_attempt {S A} (P : A → Prop) (m : M S A) : yields P m → yields (λ r, match r with inl a => P a | _ => True end) (attempt m).
Proof. intros Hm s. specialize (Hm s). unfold attempt. by destruct (m s) as [[] s']. Qed.
Lemma yields_zoom {S T A} (get : T → S) (put : S → T → T) (P : A → Prop) (m : M S A) : yields P m → yields P (zoom get put m).
Proof. intros Hm t. specialize (Hm (get t)). unfold zoom. by destruct (m (get t)). Qed.

Ltac yields :=
  repeat first
    [ progress intros
    | lazymatch goal with
      | |- yields _ (bind _ _) => apply (yields_bind (λ _, True)); [apply yields_any|]
      | |- yields _ (throw _) => by apply yields_throw
      | |- yields _ (fail _) => by apply yields_throw
      | |- yields _ ub => by apply yields_throw
      | |- yields _ (match _ with _ => _ end) => case_match
      | |- yields _ (let _ := _ in _) => cbv zeta
      end ].

Definition usable (nhosts : nat) (hosts : list dcc_hostdef) : Prop := Forall host_wf hosts ∧ 0 < nhosts + length hosts.

Lemma read_hosts_usable nhosts p : yields (usable nhosts) (read_hosts (ZC := no_zeroconf) rand nhosts p).
Proof.
  unfold read_hosts. apply (yields_bind (λ _, True)); [apply yields_any|]. intros [fd|?] _; [|by apply yields_throw].
  eapply yields_bind; [apply yields_attempt, (yields_bind (λ _, True)); [apply yields_any|]; intros s _;
    do 2 apply yields_zoom; intros h;
    pose proof (parse_more_hosts_post (ZC := no_zeroconf) (LAWS := no_zeroconf_laws) nhosts rand s h) as H; unfold wp in H;
    destruct (dcc_parse_more_hosts _ _ _ _) as [[] ?]; try done; destruct H as [[]|H]; [done|exact H]|].
  intros [hosts|?] Hh; yields. by apply yields_ret.
Qed.

(** dcc_zeroconf_add_hosts keeps what the parser asks of it. *)
Lemma zeroconf_now_laws : ZeroconfLaws (ZC := zeroconf_now).
Proof.
  split. intros add_hosts n s hosts s' [= <-].
  assert (yields (usable n) (dcc_zeroconf_add_hosts (ZC := no_zeroconf) rand n spawn 4)) as H.
  { unfold dcc_zeroconf_add_hosts. yields; apply read_hosts_usable. }
  specialize (H (with_parser s)). destruct (dcc_zeroconf_add_hosts _ _ _ _ _) as [o z']. intros E.
  destruct o; simplify_eq. exact H.
Qed.
End provider.

(** ** Reading the file *)

(** Numbers and dots, as an IPv4 address is written. *)
Definition dotted (n : cstr) : Prop := n ≠ [] ∧ Forall (λ c, isdigit c = true ∨ c = "."%char) n.

(** "ADDRESS:PORT/SLOTS" *)
Definition host_entry (n : cstr) (prt slots : Z) : cstr := n ++ ":"%cs ++ dec prt ++ "/"%cs ++ dec slots.

Definition entry_host (n : cstr) (prt slots : Z) : dcc_hostdef :=
  HostDef (Some DCC_MODE_TCP) None (Some n) prt None true slots (host_entry n prt slots)
    1 DCC_COMPRESS_NONE DCC_CPP_ON_CLIENT false.

Lemma dotted_name c : isdigit c = true ∨ c = "."%char → name_char c = true.
Proof. unfold name_char. intros [-> | ->]; done. Qed.

Lemma entry_parses {Cfg : Config} n prt slots str rest s :
  mem_ok s → dotted n → (0 < slots < 2 ^ 31)%Z → (0 ≤ prt < 2 ^ 31)%Z →
  dcc_parse_tcp_host (new_host str) (host_entry n prt slots ++ "010"%char :: rest) s =
    (Ok (HostDef (Some DCC_MODE_TCP) None (Some n) prt None true slots str
           1 DCC_COMPRESS_NONE DCC_CPP_ON_CLIENT false), s).
Proof.
  intros Hm (Hn & Hch) Hsl Hp. unfold dcc_parse_tcp_host, host_entry. rewrite <- !app_assoc.
  assert (Forall (λ c, name_char c = true) n) as Hnc by (eapply Forall_impl; [exact Hch|apply dotted_name]).
  assert (∀ x, ceqb (cget (n ++ x) 0) "[" = false) as ->.
  { intros x. destruct n as [|a n]; [done|]. inversion_clear Hnc as [|?? Ha]. simpl.
    apply ceqb_false. by apply name_char_seps. }
  erewrite bind_Ok; [|apply (dup_part_app n); [done..| |reflexivity]].
  2:{ eapply Forall_impl; [exact Hnc|]. intros x Hx. by apply name_char_seps. }
  cbn beta iota. erewrite bind_Ok by reflexivity. cbn beta iota.
  change (ceqb (cget (":"%cs ++ dec prt ++ "/"%cs ++ dec slots ++ "010"%char :: rest) 0) ":") with true.
  cbn beta iota. change (drop 1 (":"%cs ++ dec prt ++ "/"%cs ++ dec slots ++ "010"%char :: rest))
    with (dec prt ++ "/"%cs ++ dec slots ++ "010"%char :: rest).
  rewrite strtol_dec by (done || lia). cbn beta iota. rewrite drop_app_length.
  erewrite bind_Ok by reflexivity. cbn beta iota.
  assert (dcc_parse_multiplier ("/"%cs ++ dec slots ++ "010"%char :: rest) 4 = Ok ("010"%char :: rest, slots)) as Hmul.
  { cbn [app dcc_parse_multiplier]. change (ceqb "/" "/") with true. cbn [orb].
    rewrite atoi_dec by (done || lia). rewrite (proj2 (Z.eqb_neq _ _)) by lia.
    destruct (dec_digits slots ltac:(lia)) as [_ Hd]. by rewrite skip_digits_dec. }
  erewrite bind_Ok by exact (f_equal (λ o, (o, s)) Hmul). cbn beta iota.
  erewrite bind_Ok by reflexivity. unfold ret. simpl. by rewrite s32_id by lia.
Qed.

Lemma entry_chars n prt slots :
  dotted n → (0 < slots < 2 ^ 31)%Z → (0 ≤ prt < 2 ^ 31)%Z →
  Forall (λ x, x ∉ token_seps ∧ x ≠ "@"%char) (host_entry n prt slots).
Proof.
  intros (Hn & Hch) Hsl Hp. unfold host_entry.
  assert (∀ x, isdigit x = true ∨ x = "."%char → x ∉ token_seps ∧ x ≠ "@"%char) as Hdig.
  { intros x Hx%dotted_name. by destruct (name_char_seps x Hx) as (_ & ? & ? & _). }
  assert (∀ l, bool_decide (Forall (λ x, x ∉ token_seps ∧ x ≠ "@"%char) l) = true →
    Forall (λ x, x ∉ token_seps ∧ x ≠ "@"%char) l) as Hb by (intros l; apply bool_decide_eq_true).
  repeat (apply Forall_app; split); [by eapply Forall_impl|by apply Hb| |by apply Hb|].
  - eapply Forall_impl; [apply (dec_digits prt); lia|]. auto.
  - eapply Forall_impl; [apply (dec_digits slots); lia|]. auto.
Qed.

(** A file of such lines. *)
Definition entries (l : list (cstr * Z * Z)) : cstr :=
  l ≫= λ '(n, prt, slots), host_entry n prt slots ++ ["010"%char].

Definition host_entry_ok (e : cstr * Z * Z) : Prop :=
  let '(n, prt, slots) := e in dotted n ∧ (0 < slots < 2 ^ 31)%Z ∧ (0 ≤ prt < 2 ^ 31)%Z.

Definition entry_def (e : cstr * Z * Z) : dcc_hostdef := let '(n, prt, slots) := e in entry_host n prt slots.

Lemma entry_round {Cfg : Config} {ZC : ZeroconfHosts} fuel n prt slots rest flag nhosts s :
  mem_ok s → host_entry_ok (n, prt, slots) →
  parse_loop (S (S fuel)) (host_entry n prt slots ++ "010"%char :: rest) flag nhosts s =
    (let! r := parse_loop fuel rest flag (nhosts + 1) in ret (entry_host n prt slots :: r.1, r.2)) s.
Proof.
  intros Hm (Hn & Hsl & Hp).
  pose proof (entry_chars n prt slots Hn Hsl Hp) as Hseps.
  assert (∃ a t, host_entry n prt slots = a :: t ∧ (isdigit a = true ∨ a = "."%char)) as (a & t & Et & Ha).
  { destruct Hn as [Hn Hch]. destruct n as [|a n]; [done|]. inversion_clear Hch. by do 2 eexists. }
  assert (a ≠ "-"%char ∧ a ≠ "l"%char ∧ a ≠ "+"%char) as (Hdash & Hl & Hplus)
    by (split_and!; intros E; rewrite E in Ha; by destruct Ha).
  apply dotted_name, name_char_seps in Ha as (_ & _ & _ & Hsp & _ & Hhash).
  set (where_ := host_entry n prt slots ++ "010"%char :: rest).
  assert (where_ = a :: t ++ "010"%char :: rest) as Ew by (unfold where_; by rewrite Et).
  assert (∀ key k, ceqb a (cget key 0) = false → key ≠ [] → 0 < k → strncmp0 where_ key k = false) as Hkey.
  { intros [|x key] [|k] Hx Hne Hk; try done; [lia|]. rewrite Ew. cbn [strncmp0].
    change (ceqb a x = false) in Hx. by rewrite Hx. }
  assert (strcspn where_ token_seps = length (host_entry n prt slots)) as Hlen.
  { unfold where_. rewrite strcspn_app by (eapply Forall_impl; [exact Hseps|naive_solver]). change (strcspn ("010"%char :: rest) token_seps) with 0. lia. }
  assert (parse_host where_ (length (host_entry n prt slots)) s = (Ok (entry_host n prt slots), s)) as Hph.
  { unfold parse_host. do 2 erewrite bind_Ok by by apply malloc_or_ok.
    rewrite (Hkey "localhost"%cs 9) by (done || (by apply ceqb_false) || lia). cbn [andb].
    unfold where_. rewrite !take_app_length. rewrite bool_decide_eq_false_2; [by apply entry_parses|].
    intros Hin. rewrite Forall_forall in Hseps. by apply Hseps in Hin as [_ ?]. }
  assert (token_hosts where_ (length (host_entry n prt slots)) nhosts s = (Ok [entry_host n prt slots], s)) as Hth.
  { unfold token_hosts. destruct zeroconf_hosts; [|by rewrite (bind_Ok _ _ _ _ _ Hph)].
    rewrite (Hkey ZEROCONF_MAGIC), andb_false_r by (done || (by apply ceqb_false) || (rewrite Et; simpl; lia)).
    by rewrite (bind_Ok _ _ _ _ _ Hph). }
  assert (ceqb a "-" = false) as Ha by by apply ceqb_false.
  rewrite Ew. cbn [parse_loop]. rewrite <- Ew. rewrite (proj2 (ceqb_false a "#")), Hsp by done.
  rewrite (Hkey "--randomize"%cs 11) by (done || lia). erewrite bind_Ok by reflexivity. unfold parse_localslots.
  rewrite !Hkey by (done || (simpl; lia)). cbn beta iota.
  rewrite Hlen. rewrite (bind_Ok _ _ _ _ _ Hth).
  unfold where_. rewrite drop_app_length. reflexivity.
Qed.

Lemma entries_loop {Cfg : Config} {ZC : ZeroconfHosts} l fuel flag nhosts s :
  mem_ok s → Forall host_entry_ok l → length (entries l) < fuel →
  parse_loop fuel (entries l) flag nhosts s = (Ok (entry_def <$> l, flag), s).
Proof.
  intros Hm Hl. revert fuel nhosts. induction Hl as [|[[n prt] slots] l He _ IH]; intros fuel nhosts Hf.
  - by destruct fuel; [cbn in Hf; lia|].
  - unfold entries in *. cbn [mbind list_bind] in *. rewrite <- app_assoc in *. cbn [app] in *.
    rewrite length_app in Hf. cbn [length] in Hf.
    assert (0 < length (host_entry n prt slots)).
    { destruct He as ((Hn & _) & _). unfold host_entry. rewrite length_app. destruct n; [done|]. simpl. lia. }
    destruct fuel as [|[|fuel]]; [lia..|]. rewrite entry_round by done.
    by rewrite (bind_Ok _ _ _ _ _ (IH fuel (nhosts + 1) ltac:(lia))).
Qed.

Section reading.
Context `{Avahi}.

(** What the manual of avahi_address_snprint says: an IPv4 address comes out as
    numbers and dots, and no address needs more than 40 bytes. *)
Class AvahiLaws : Prop := {
  inet4_dotted a : avahi_inet6 a = false → dotted (avahi_address_snprint a);
  address_short a : length (avahi_address_snprint a) < 40
}.
Context `{AvahiLaws}.

Abbreviation cell := (nat * zdata)%type.

(** The resolved hosts, as a client is to see them. *)
Definition offered (n_slots : Z) (l : list cell) : list (cstr * Z * Z) :=
  omap (λ c, if z_resolver c.2 then None
             else (λ a, (avahi_address_snprint a, z_port c.2, (n_slots * z_n_cpus c.2)%Z)) <$> z_address c.2) l.

Definition inet4_host (x : zdata) : Prop :=
  z_resolver x = false → match z_address x with Some a => avahi_inet6 a = false | None => True end.

(** A host with an IPv4 address, a port, and at least one slot. *)
Definition offerable (n_slots : Z) (x : zdata) : Prop :=
  zpresentable n_slots x ∧ inet4_host x ∧ (0 < n_slots * z_n_cpus x)%Z ∧ (0 ≤ z_port x < 2 ^ 16)%Z.

Lemma dec_short z : (0 ≤ z < 2 ^ 31)%Z → length (dec z) ≤ 10.
Proof.
  intros Hz. rewrite <- convert_dec, length_reverse by lia. unfold convert. rewrite length_take.
  pose proof (convert_loop_length 20 false z (proj1 Hz) 10). lia.
Qed.

Lemma published_entries n_slots l :
  Forall (λ c, offerable n_slots c.2) l → published n_slots l = entries (offered n_slots l).
Proof.
  induction 1 as [|[p x] l ((Hr & Ha) & H4 & Hs & Hp) _ IH]; [done|].
  unfold published, offered, line_of in *. cbn [mbind list_bind omap list_omap snd] in *. rewrite IH.
  destruct (z_resolver x) eqn:Er; [done|]. destruct (Ha eq_refl) as [a Ea]. specialize (H4 Er). rewrite Ea in *.
  cbn [fmap option_fmap option_map]. unfold entries. cbn [mbind list_bind]. f_equal.
  unfold host_line. rewrite Ea. unfold slots_of.
  rewrite (proj2 (Z.leb_le _ INT_MAX)), (proj2 (Z.leb_le _ _)) by lia. cbn [andb]. rewrite H4.
  unfold decimal. rewrite (proj2 (Z.ltb_ge _ _)) by lia. unfold host_entry. rewrite <- !app_assoc. apply take_ge.
  rewrite !length_app. pose proof (address_short a). pose proof (dec_short (z_port x)). pose proof (dec_short (n_slots * z_n_cpus x)).
  unfold INT_MAX in *. simpl. lia.
Qed.

Lemma offered_ok n_slots l : Forall (λ c, offerable n_slots c.2) l → Forall host_entry_ok (offered n_slots l).
Proof.
  induction 1 as [|[p x] l ((Hr & Ha) & H4 & Hs & Hp) _ IH]; [constructor|].
  unfold offered in *. cbn [omap list_omap snd] in *. destruct (z_resolver x) eqn:Er; [done|].
  specialize (H4 Er). destruct (z_address x) as [a|]; [|done]. cbn [fmap option_fmap option_map].
  constructor; [|done]. cbn. unfold INT_MAX in *. split; [by apply inet4_dotted|lia].
Qed.

(** What the daemon writes a client reads: the lines of a list of IPv4 hosts
    parse to exactly those that are resolved, in order, each with its address, its
    port and the slots of all its processors. *)
Lemma published_parses {Cfg : Config} {ZC : ZeroconfHosts} (rand : nat → Z) (nhosts : nat) (n_slots : Z) (l : list cell)
    (s : hstate) :
  mem_ok s → Forall (λ c, offerable n_slots c.2) l → offered n_slots l ≠ [] →
  dcc_parse_more_hosts nhosts rand (published n_slots l) s = (Ok (entry_def <$> offered n_slots l), s).
Proof.
  intros Hm Hl Hne. unfold dcc_parse_more_hosts. rewrite published_entries by done.
  rewrite (bind_Ok _ _ _ _ _ (entries_loop _ (S (length (entries (offered n_slots l)))) false nhosts s Hm
    (offered_ok _ _ Hl) ltac:(lia))). destruct (offered n_slots l); [done|]. simpl. by rewrite Nat.add_succ_r.
Qed.

Lemma entries_nul_free l : Forall host_entry_ok l → nul_free (entries l).
Proof.
  unfold nul_free. intros Hl Hin. apply list_elem_of_bind in Hin as ([[n prt] slots] & Hin & He).
  rewrite Forall_forall in Hl. destruct (Hl _ He) as (Hn & Hsl & Hp).
  apply elem_of_app in Hin as [Hin|Hin%list_elem_of_singleton]; [|done].
  destruct Hn as [_ Hn]. unfold host_entry in Hin. rewrite !elem_of_app in Hin.
  assert (∀ ds, Forall (λ c, isdigit c = true) ds → NUL ∉ ds) as Hd.
  { intros ds Hds Hx. rewrite Forall_forall in Hds. by specialize (Hds _ Hx). }
  destruct Hin as [Hin|[Hin|[Hin|[Hin|Hin]]]].
  - rewrite Forall_forall in Hn. by destruct (Hn _ Hin).
  - by apply list_elem_of_singleton in Hin.
  - by apply (Hd _ (proj2 (dec_digits prt ltac:(lia)))) in Hin.
  - by apply list_elem_of_singleton in Hin.
  - by apply (Hd _ (proj2 (dec_digits slots ltac:(lia)))) in Hin.
Qed.

Lemma read_locked_runs fd data x c :
  c_fds c !! fd = Some (Fd data [] x) → (Z.of_nat (length data) < MAX_FILE_SIZE)%Z →
  runs (read_locked fd) (Ok (c_string data)) c (set_fds (<[fd := Fd [] [] x]> (c_fds c)) c).
Proof.
  intros Hfd Hl. eapply runs_bind; [apply runs_fs_call, runs_ret|]. cbn beta iota.
  eapply runs_bind.
  { apply runs_fs_call. eapply runs_bind; [apply (runs_gets (λ c, c_fds c !! fd))|]. rewrite Hfd. apply runs_ret. }
  cbn beta iota. cbn [fd_in]. rewrite (proj2 (Z.leb_gt _ _)) by done.
  eapply runs_bind; [apply runs_malloc|]. cbn [negb].
  eapply runs_bind; [eapply runs_attempt_Ok, (readx_runs fd (Fd data [] x) data []); [done|]|apply runs_ret].
  cbn. by rewrite app_nil_r.
Qed.

Lemma zcw_run {A} (m : M world A) o c c' z :
  runs m o c c' → io_ok (cf_w (zc_conf z)) → w_core (cf_w (zc_conf z)) = c →
  ∃ w', on_zcw m z = (o, ZClient (set_cf_w w' (zc_conf z)) (zc_cached z)) ∧ io_ok w' ∧ w_core w' = c'.
Proof.
  intros Hm Hw Hc. destruct (Hm _ Hc Hw) as (w' & E & Hc' & Hw' & _). exists w'.
  unfold on_zcw, on_zc, on_cw, zoom. by rewrite E.
Qed.

(** Reading a file that can be read is parsing it. *)
Lemma read_hosts_run {Cfg : Config} {ZC : ZeroconfHosts} (rand : nat → Z) (nhosts : nat) (p : cstr) (data : cstr)
    (hosts : list dcc_hostdef) (z : zclient) :
  io_ok (cf_w (zc_conf z)) → c_files (w_core (cf_w (zc_conf z))) !! p = Some (NFile data) →
  nul_free data → (Z.of_nat (length data) < MAX_FILE_SIZE)%Z →
  (∀ s, mem_ok s → dcc_parse_more_hosts nhosts rand data s = (Ok hosts, s)) →
  (read_hosts rand nhosts p z).1 = Ok hosts.
Proof.
  intros Hw Hf Hn Hl Hp. unfold read_hosts.
  destruct (zcw_run _ _ _ _ z (sys_open_read_runs p data _ Hf) Hw eq_refl) as (w1 & E1 & Hw1 & Hc1).
  rewrite (bind_Ok _ _ _ _ _ E1). cbv iota. set (fd := new_fd _) in *.
  set (z1 := ZClient (set_cf_w w1 (zc_conf z)) (zc_cached z)).
  assert (c_fds (w_core w1) !! fd = Some (Fd data [] None)) as Hfd by (rewrite Hc1; apply lookup_insert_eq).
  destruct (zcw_run _ _ _ _ z1 (read_locked_runs fd data None _ Hfd Hl) Hw1 eq_refl) as (w2 & E2 & Hw2 & Hc2).
  rewrite (c_string_nul_free _ Hn) in E2.
  set (z2 := ZClient (set_cf_w w2 (zc_conf z1)) (zc_cached z1)) in *.
  assert (∃ z3, on_zc (on_parser (dcc_parse_more_hosts nhosts rand data)) z2 = (Ok hosts, z3)) as [z3 E3].
  { unfold on_zc, on_parser, zoom. cbn. rewrite Hp by apply Hw2. by eexists. }
  erewrite bind_Ok; [|unfold attempt; rewrite (bind_Ok _ _ _ _ _ E2), E3; reflexivity].
  change (wp (let! _ := on_zcw (generic_lock fd) in let! _ := on_zcw (sys_close fd) in ret hosts) (λ o _, o = Ok hosts) z3).
  apply wp_bind, wp_zoom, wp_zoom, answers_lock. intros a w. cbn beta iota.
  apply wp_bind, wp_zoom, wp_zoom, answers_close. intros a' w'. by apply wp_ret.
Qed.

(** C11. From the network to the client.  Services come and go in any order, under
    a kernel without hard errors; every resolver that reports something has
    found its host, with a TXT record that can be used ([all_happen]: no resolver
    fails, memory for a new host is there, and "cpus" has a value that is not too
    large).  If then the hosts of the list that are resolved have IPv4 addresses,
    ports and at least one slot ([offerable]), there is at least one, and the
    host file stays within its maximal size, a client that reads the file gets
    exactly the resolved hosts of the list, in order: address, port, and the
    slots of all processors.  (A host with an IPv6 address is delivered with a
    name that cannot be used: [inet6_unusable].) *)
Theorem zeroconf_delivers {Cfg : Config} {ZC : ZeroconfHosts} (rand : nat → Z) (nhosts : nat) (p : cstr) (es : list zevent) (d : zdaemon) (l : list cell) :
  in_sync p d l → all_happen es d →
  let l' := after_events (zd_top d) l es in
  Forall (λ c, offerable (zd_n_slots d) c.2) l' → offered (zd_n_slots d) l' ≠ [] →
  (Z.of_nat (length (published (zd_n_slots d) l')) < MAX_FILE_SIZE)%Z →
  ∃ d', handle_all ((λ e _, e) <$> es) d = (Ok (), d') ∧ zlisted d' l' ∧
    ∀ z, io_ok (cf_w (zc_conf z)) →
      c_files (w_core (cf_w (zc_conf z))) = c_files (w_core (zd_w d')) →
      (read_hosts rand nhosts p z).1 = Ok (entry_def <$> offered (zd_n_slots d) l').
Proof.
  intros Hs He l' Ho Hne Hsz. destruct (handle_all_run p es d l Hs He) as (d' & E & [Hs' _ _ Hf'] & _ & Hn).
  exists d'. split; [exact E|]. split; [apply Hs'|]. intros z Hz Hfiles. rewrite Hn in Hf'.
  eapply read_hosts_run; [done|by rewrite Hfiles| |done|].
  - rewrite published_entries by done. by apply entries_nul_free, offered_ok.
  - intros s Hm. by apply published_parses.
Qed.
End reading.

(** ** What goes wrong *)

(** A network for the examples: address 0 is an IPv6 address. *)
#[local] Instance ex_avahi : Avahi := {|
  avahi_address := nat;
  avahi_inet6 := λ a, a =? 0;
  avahi_address_snprint := λ a,
    if a =? 0 then "fe80::1"%cs else "10.0.0."%cs ++ [dec_digit (Z.of_nat a mod 10)];
  avahi_domain_equal := streq
|}.

Lemma ex_avahi_laws : AvahiLaws.
Proof.
  split.
  - intros a Ha. cbn in Ha |- *. rewrite Ha. split; [done|].
    do 7 (constructor; [vm_compute; auto|]). constructor; [|constructor]. left.
    apply dec_digit_spec. apply Z.mod_pos_bound. lia.
  - intros a. cbn. destruct (a =? 0); simpl; lia.
Qed.

(** A daemon with an empty list and its host file open. *)
Definition ex_zcore : core :=
  Core {[ 5 := Fd [] [] (Some "hosts"%cs) ]} {[ "hosts"%cs := NFile [] ]} [] 0 DCC_PHASE_STARTUP.
Definition ex_zdaemon : zdaemon :=
  ZDaemon (World ex_zcore [XErr EINTR; XN 3] [] [] [] 0 ∅) ∅ 0 None 5 4 false.

Definition play (es : list zevent) : outcome unit * option node :=
  let '(o, d) := handle_all ((λ e _, e) <$> es) ex_zdaemon in
  (o, c_files (w_core (zd_w d)) !! "hosts"%cs).

Definition ex_new (i : Z) (n : cstr) : zevent := EvNew true true i 0 n "local"%cs.

(** A resolver that fails: its host is given back but stays in the list, and the
    next look at the list uses it. *)
Lemma failed_resolver_dangles :
  play [ex_new 1 "distcc@a"%cs; EvFailure 0; EvRemove 1 0 "distcc@b"%cs "local"%cs] = (Undef, Some (NFile [])).
Proof. vm_compute. reflexivity. Qed.

(** A service that shows up on a second interface: the new host, without an
    address yet, displaces the one that could be used. *)
Lemma duplicate_hides :
  play [ex_new 1 "distcc@a"%cs; EvFound 0 7 3632 []] = (Ok (), Some (NFile ("10.0.0.7:3632/4"%cs ++ ["010"%char]))) ∧
  play [ex_new 1 "distcc@a"%cs; EvFound 0 7 3632 []; ex_new 2 "distcc@a"%cs; EvRemove 1 0 "distcc@b"%cs "local"%cs] =
    (Ok (), Some (NFile [])).
Proof. split; vm_compute; reflexivity. Qed.

(** An IPv6 address is written in brackets, of which the parser of the host list
    keeps the first. *)
Lemma inet6_unusable :
  let text := "[fe80::1]:3632/4"%cs ++ ["010"%char] in
  play [ex_new 1 "distcc@a"%cs; EvFound 0 0 3632 []] = (Ok (), Some (NFile text)) ∧
  match (dcc_parse_hosts (Cfg := usual_config) (ZC := no_zeroconf) (λ _, 0%Z) text (HState [] 8 8)).1 with
  | Ok [h] => hostname h = Some "[fe80::1"%cs
  | _ => False
  end.
Proof. split; vm_compute; reflexivity. Qed.

(** What comes over the network is trusted: a key without a value is a null
    pointer, and a large number of processors overflows an int. *)
Lemma txt_trusted :
  (play [ex_new 1 "distcc@a"%cs; EvFound 0 7 3632 [("cpus"%cs, None)]]).1 = Undef ∧
  (play [ex_new 1 "distcc@a"%cs; EvFound 0 7 3632 [("cpus"%cs, Some "1000000000"%cs)]]).1 = Undef.
Proof. split; vm_compute; reflexivity. Qed.

(** The daemon ends itself when the clock is set back. *)
Lemma clock_set_back : fd_last_used (Some 100%Z) (Some 99%Z) 0 = Undef.
Proof. reflexivity. Qed.

(** ** Witnesses *)

(** A network with one service: it comes, and is resolved as soon as it waits
    for that. *)
Definition ex_report (d : zdaemon) : zevent :=
  match zd_heap d !! 0 with
  | Some (ZHost x _) => if z_resolver x then EvFound 0 7 3632 [("cpus"%cs, Some "2"%cs)] else EvOther
  | None => ex_new 1 "distcc@a"%cs
  end.

Definition ex_turn (last : bool) : zturn :=
  Turn (Some 0%Z) (Some 3%Z) (if last then [ex_report; λ _, EvQuit] else [ex_report]) false.

Lemma ex_turn_fine last : turn_fine 4 0 (ex_turn last).
Proof.
  assert (report_fine 4 ex_report) as Hr.
  { intros d Hd. unfold ex_report. destruct (zd_heap d !! 0) as [[x n]|] eqn:E; [|done].
    destruct (z_resolver x) eqn:Er; [|done]. split; [by exists x, n|]. rewrite Hd.
    constructor; [|constructor]. intros _. exists "2"%cs. split; [done|]. vm_compute. done. }
  split; [by vm_compute|]. destruct last; repeat constructor; done.
Qed.

Lemma zeroconf_daemon_safe_witness :
  match daemon_proc "hosts"%cs "lock"%cs 4 0 true [ex_turn false; ex_turn true] ex_zdaemon with
  | (Ok (Some _), d') => zd_heap d' = ∅
  | _ => False
  end.
Proof.
  assert (0 < 4 ≤ INT_MAX)%Z as Hn by done.
  assert (Forall (turn_fine 4 0) [ex_turn false; ex_turn true]) as Ht
    by (constructor; [apply ex_turn_fine|constructor; [apply ex_turn_fine|constructor]]).
  pose proof (zeroconf_daemon_safe "hosts"%cs "lock"%cs 4 0 true [ex_turn false; ex_turn true] ex_zdaemon Hn Ht) as Hw.
  unfold wp in Hw.
  assert ((daemon_proc "hosts"%cs "lock"%cs 4 0 true [ex_turn false; ex_turn true] ex_zdaemon).1 = Ok (Some 1%Z)) as E
    by (vm_compute; reflexivity).
  destruct (daemon_proc _ _ _ _ _ _ _) as [o d']. cbn in E, Hw. subst o. exact Hw.
Defined.

Definition ex_events : list zevent :=
  [ex_new 1 "distcc@a"%cs; EvFound 0 7 3632 [("cpus"%cs, Some "2"%cs)];
   ex_new 1 "distcc@b"%cs; EvFound 1 8 3632 []; EvRemove 1 0 "distcc@a"%cs "local"%cs].

Definition ex_zclient (c : core) : zclient :=
  ZClient (Conf (World c [] [] [] [] 0 ∅) None None None (8, 8)%Z) None.

Lemma ex_sync : in_sync "hosts"%cs ex_zdaemon [].
Proof.
  split.
  - split; [split|constructor|done]; [done|done|constructor|constructor].
  - split; [|constructor|constructor|done|by right].
    constructor; [by right|constructor; [simpl; lia|constructor]].
  - exists (Fd [] [] (Some "hosts"%cs)). split; [|done]. vm_compute. reflexivity.
  - vm_compute. reflexivity.
Qed.

Lemma ex_events_happen : all_happen ex_events ex_zdaemon.
Proof.
  split; [done|]. split; [|split; [done|split; [|done]]].
  - split; [eexists _, _; vm_compute; done|].
    constructor; [|constructor]. intros _. exists "2"%cs. split; [done|]. vm_compute. done.
  - split; [eexists _, _; vm_compute; done|constructor].
Qed.

Lemma zeroconf_delivers_witness :
  ∃ d', handle_all ((λ e _, e) <$> ex_events) ex_zdaemon = (Ok (), d') ∧
    (read_hosts (Cfg := usual_config) (ZC := no_zeroconf) (λ _, 0%Z) 0 "hosts"%cs (ex_zclient (w_core (zd_w d')))).1 =
      Ok [entry_host "10.0.0.8"%cs 3632 4].
Proof.
  pose proof ex_avahi_laws.
  pose proof (zeroconf_delivers (Cfg := usual_config) (ZC := no_zeroconf) (λ _, 0%Z) 0 "hosts"%cs ex_events ex_zdaemon []
    ex_sync ex_events_happen) as Hz. cbv zeta in Hz.
  assert (after_events (zd_top ex_zdaemon) [] ex_events =
    [(1, ZData 1 0 "distcc@b"%cs "local"%cs (Some (8 : avahi_address)) 3632 1 false)]) as El by (vm_compute; reflexivity).
  rewrite El in Hz. destruct Hz as (d' & E & _ & Hr).
  - constructor; [|constructor]. split; [split; [done|by eexists]|]. split; [done|]. split; [done|]. split; done.
  - done.
  - vm_compute. done.
  - exists d'. split; [exact E|].
    rewrite (Hr (ex_zclient (w_core (zd_w d')))); [vm_compute; reflexivity| |done].
    split; [constructor..|done|by right].
Defined.
