(* ===== verification/Lock.v ===== *)
(** * lock.c, where.c, timefile.c, backoff.c: choosing a host

    Every slot of every host has a lock file; a client takes the first slot
    whose file it can lock.  [shared] is what all the processes of a user see:
    the files with their modification times, the advisory locks with the
    process that holds them, and the clock.  [proc] is one process. *)

From S2P Require Import Prelude CLib Util World Rpc Bulk Results Hosts.

Record shared := Shared {
  sh_files : gmap cstr Z;
  sh_locks : gmap cstr nat;
  sh_now : Z
}.

Record proc := Proc {
  p_pid : nat;
  p_mem : list bool;
  p_sys : list (option errno);     (** failures the kernel injects *)
  p_lock_dir : cstr + Z;           (** what [dcc_get_lock_dir] gives *)
  p_fds : gmap nat cstr;           (** open lock files *)
  p_env : gmap cstr cstr;
  p_backoff_period : Z;            (** [dcc_backoff_period] *)
  p_local_slot : Z;                (** [local_state.slot] *)
  p_remote_slot : Z;               (** [remote_state.slot] *)
  p_phase : phase;
  (** what the other processes do during each sleep *)
  p_others : list (shared → shared)
}.

Record sched := Sched { s_sh : shared; s_pr : proc }.

Definition set_p_mem (l : list bool) (p : proc) : proc :=
  Proc (p_pid p) l (p_sys p) (p_lock_dir p) (p_fds p) (p_env p) (p_backoff_period p)
    (p_local_slot p) (p_remote_slot p) (p_phase p) (p_others p).
Definition set_p_sys (l : list (option errno)) (p : proc) : proc :=
  Proc (p_pid p) (p_mem p) l (p_lock_dir p) (p_fds p) (p_env p) (p_backoff_period p)
    (p_local_slot p) (p_remote_slot p) (p_phase p) (p_others p).
Definition set_p_fds (m : gmap nat cstr) (p : proc) : proc :=
  Proc (p_pid p) (p_mem p) (p_sys p) (p_lock_dir p) m (p_env p) (p_backoff_period p)
    (p_local_slot p) (p_remote_slot p) (p_phase p) (p_others p).
Definition set_p_backoff (z : Z) (p : proc) : proc :=
  Proc (p_pid p) (p_mem p) (p_sys p) (p_lock_dir p) (p_fds p) (p_env p) z
    (p_local_slot p) (p_remote_slot p) (p_phase p) (p_others p).
Definition set_p_slot (local : bool) (z : Z) (p : proc) : proc :=
  Proc (p_pid p) (p_mem p) (p_sys p) (p_lock_dir p) (p_fds p) (p_env p) (p_backoff_period p)
    (if local then z else p_local_slot p) (if local then p_remote_slot p else z) (p_phase p) (p_others p).
Definition set_p_phase (ph : phase) (p : proc) : proc :=
  Proc (p_pid p) (p_mem p) (p_sys p) (p_lock_dir p) (p_fds p) (p_env p) (p_backoff_period p)
    (p_local_slot p) (p_remote_slot p) ph (p_others p).
Definition set_p_others (l : list (shared → shared)) (p : proc) : proc :=
  Proc (p_pid p) (p_mem p) (p_sys p) (p_lock_dir p) (p_fds p) (p_env p) (p_backoff_period p)
    (p_local_slot p) (p_remote_slot p) (p_phase p) l.

Definition set_sh_files (m : gmap cstr Z) (s : shared) : shared := Shared m (sh_locks s) (sh_now s).
Definition set_sh_locks (m : gmap cstr nat) (s : shared) : shared := Shared (sh_files s) m (sh_now s).

Definition mod_pr (f : proc → proc) : M sched unit := modify (λ s, Sched (s_sh s) (f (s_pr s))).
Definition mod_sh (f : shared → shared) : M sched unit := modify (λ s, Sched (f (s_sh s)) (s_pr s)).

#[export, refine] Instance sched_mem_state : MemState sched := {|
  get_mem := λ s, p_mem (s_pr s);
  set_mem := λ l s, Sched (s_sh s) (set_p_mem l (s_pr s))
|}.
Proof. all: by try intros [? []]. Defined.

(** ** System calls *)

(** The failure the kernel injects into the next call. *)
Definition sys_fault : M sched (option errno) := λ s,
  match p_sys (s_pr s) with
  | [] => (Ok None, s)
  | e :: l => (Ok e, Sched (s_sh s) (set_p_sys l (s_pr s)))
  end.

(** [open(fname, O_WRONLY|O_CREAT, 0666)] *)
Definition open_creat (fname : cstr) : M sched (nat + errno) :=
  let! e := sys_fault in
  match e with
  | Some e => ret (inr e)
  | None =>
      do! mod_sh (λ h, match sh_files h !! fname with
                       | Some _ => h
                       | None => set_sh_files (<[fname := sh_now h]> (sh_files h)) h
                       end);
      let! fds := gets (λ s, p_fds (s_pr s)) in
      do! mod_pr (λ p, set_p_fds (<[new_fd fds := fname]> fds) p);
      ret (inl (new_fd fds))
  end.

(** Release the lock of the process on [f], if it holds it. *)
Definition release (f : cstr) (pid : nat) (h : shared) : shared :=
  if decide (sh_locks h !! f = Some pid) then set_sh_locks (delete f (sh_locks h)) h else h.

(** [close]: a process loses its record locks on a file when it closes any
    descriptor of it. *)
Definition close_lock (fd : nat) : M sched (unit + errno) :=
  let! f := gets (λ s, p_fds (s_pr s) !! fd) in
  let! pid := gets (λ s, p_pid (s_pr s)) in
  let! e := sys_fault in
  match e, f with
  | Some e, _ => ret (inr e)
  | _, None => ret (inr EOTHER)
  | None, Some f =>
      do! mod_sh (release f pid);
      do! mod_pr (λ p, set_p_fds (delete fd (p_fds p)) p);
      ret (inl ())
  end.

(** [fcntl(fd, F_SETLK, F_WRLCK)]: the non-blocking lock.  Locks belong to the
    process: asking again for one's own lock succeeds. *)
Definition sys_lock (fd : option nat) : M sched (unit + errno) :=
  let! fds := gets (λ s, p_fds (s_pr s)) in
  let! pid := gets (λ s, p_pid (s_pr s)) in
  let! e := sys_fault in
  match e, fd ≫= λ n, fds !! n with
  | Some e, _ => ret (inr e)
  | None, None => ret (inr EOTHER)
  | None, Some f =>
      let! locks := gets (λ s, sh_locks (s_sh s)) in
      match locks !! f with
      | Some q => if decide (q = pid) then ret (inl ()) else ret (inr EAGAIN)
      | None => do! mod_sh (λ h, set_sh_locks (<[f := pid]> locks) h); ret (inl ())
      end
  end.

(** ** lock.c *)

(** [%d] *)
Definition print_d (z : Z) : cstr := if (z <? 0)%Z then "-"%char :: dec (- z) else dec z.

(** The names are formed from the pieces in the code's order. *)
Definition lock_name (lockdir lockname : cstr) (host : dcc_hostdef) (iter : Z) : option cstr :=
  match mode host with
  | Some DCC_MODE_LOCAL =>
      Some (lockdir ++ "/"%cs ++ lockname ++ "_localhost_"%cs ++ print_d iter)
  | Some DCC_MODE_TCP =>
      Some (lockdir ++ "/"%cs ++ lockname ++ "_tcp_"%cs ++ default [] (hostname host) ++
            "_"%cs ++ print_d (port host) ++ "_"%cs ++ print_d iter)
  | Some DCC_MODE_SSH =>
      Some (lockdir ++ "/"%cs ++ lockname ++ "_ssh_"%cs ++ default [] (hostname host) ++
            "_"%cs ++ print_d iter)
  | None => None
  end.

Definition dcc_make_lock_filename (lockname : cstr) (host : dcc_hostdef) (iter : Z) : M sched cstr :=
  let! d := gets (λ s, p_lock_dir (s_pr s)) in
  match d with
  | inr e => fail e
  | inl lockdir =>
      match lock_name lockdir lockname host iter with
      | None => fail EXIT_PROTOCOL_ERROR
      | Some f => do! malloc_or EXIT_OUT_OF_MEMORY; ret f
      end
  end.

Definition dcc_unlock (lock_fd : nat) : M sched unit :=
  let! f := gets (λ s, p_fds (s_pr s) !! lock_fd) in
  let! pid := gets (λ s, p_pid (s_pr s)) in
  let! e := sys_fault in
  match e, f with
  | Some _, _ | _, None => let! _ := close_lock lock_fd in fail EXIT_IO_ERROR
  | None, Some f =>
      do! mod_sh (release f pid);
      let! r := close_lock lock_fd in
      match r with
      | inr _ => fail EXIT_IO_ERROR
      | inl _ => ret ()
      end
  end.

(** [None] is the descriptor -1, which the code lets pass when errno is
    EEXIST. *)
Definition dcc_open_lockfile (fname : cstr) : M sched (option nat) :=
  let! r := open_creat fname in
  match r with
  | inl fd => ret (Some fd)
  | inr EEXIST => ret None
  | inr _ => fail EXIT_IO_ERROR
  end.

(** With [block] = 0, the only value the sources pass. *)
Definition dcc_lock_host (lockname : cstr) (host : dcc_hostdef) (slot : Z) : M sched nat :=
  if negb (is_up host) then fail EXIT_BUSY
  else
    let! fname := dcc_make_lock_filename lockname host slot in
    let! lock_fd := dcc_open_lockfile fname in
    let! r := sys_lock lock_fd in
    match r, lock_fd with
    | inl _, Some fd => ret fd
    | inl _, None => ub
    | inr e, _ =>
        let! _ := match lock_fd with Some fd => close_lock fd | None => ret (inr EOTHER) end in
        match e with
        | EAGAIN | EACCES => fail EXIT_BUSY
        | _ => fail EXIT_IO_ERROR
        end
    end.

(** The two static hosts; the slot counts come from the host list. *)
Definition dcc_hostdef_local (slots : Z) : dcc_hostdef :=
  HostDef (Some DCC_MODE_LOCAL) None (Some "localhost"%cs) 0 None true slots "localhost"%cs
    1 DCC_COMPRESS_NONE DCC_CPP_ON_CLIENT false.

(** ** where.c *)

(** state.c: note the slot in the local or the remote record. *)
Definition dcc_note_state_slot (slot : Z) (local : bool) : M sched unit :=
  mod_pr (set_p_slot local slot).

(** The inner loop: [None] when no host has this slot free. *)
Fixpoint lock_hosts (i_cpu : Z) (hostlist : list dcc_hostdef) : M sched (option (dcc_hostdef * nat)) :=
  match hostlist with
  | [] => ret None
  | h :: hostlist =>
      if (i_cpu >=? n_slots h)%Z then lock_hosts i_cpu hostlist
      else
        let! r := attempt (dcc_lock_host "cpu"%cs h i_cpu) in
        match r with
        | inl fd =>
            do! dcc_note_state_slot i_cpu (streq (default [] (hostname h)) "localhost"%cs);
            ret (Some (h, fd))
        | inr e =>
            if (e =? EXIT_BUSY)%Z then lock_hosts i_cpu hostlist else fail e
        end
  end.

(** The loop over slots, [n] of them from [i_cpu]. *)
Fixpoint lock_slots (n : nat) (i_cpu : Z) (hostlist : list dcc_hostdef) :
    M sched (option (dcc_hostdef * nat)) :=
  match n with
  | 0 => ret None
  | S n =>
      let! r := lock_hosts i_cpu hostlist in
      match r with
      | Some x => ret (Some x)
      | None => lock_slots n (i_cpu + 1) hostlist
      end
  end.

(** usleep: the other processes run. *)
Definition dcc_lock_pause : M sched unit := λ s,
  match p_others (s_pr s) with
  | [] => (Ok (), s)
  | f :: l => (Ok (), Sched (f (s_sh s)) (set_p_others l (s_pr s)))
  end.

(** [None] after [fuel] rounds that found nothing: still waiting. *)
Fixpoint dcc_lock_one (fuel : nat) (hostlist : list dcc_hostdef) : M sched (option (dcc_hostdef * nat)) :=
  match fuel with
  | 0 => ret None
  | S fuel =>
      let! r := lock_slots 50 0 hostlist in
      match r with
      | Some x => ret (Some x)
      | None => do! dcc_lock_pause; dcc_lock_one fuel hostlist
      end
  end.

Definition dcc_lock_local (fuel : nat) (slots : Z) : M sched (option nat) :=
  let! r := dcc_lock_one fuel [dcc_hostdef_local slots] in ret (snd <$> r).

Definition dcc_lock_local_cpp (fuel : nat) (slots : Z) : M sched (option nat) :=
  let! r := dcc_lock_one fuel [dcc_hostdef_local slots] in
  match r with
  | Some (_, fd) => do! mod_pr (set_p_phase DCC_PHASE_CPP); ret (Some fd)
  | None => ret None
  end.

(** ** timefile.c *)

(** [write(fd, "x", 1) != 1] *)
Definition touch (fd : nat) : M sched bool :=
  let! e := sys_fault in
  let! f := gets (λ s, p_fds (s_pr s) !! fd) in
  match e, f with
  | None, Some f => do! mod_sh (λ h, set_sh_files (<[f := sh_now h]> (sh_files h)) h); ret true
  | _, _ => ret false
  end.

Definition dcc_mark_timefile (lockname : cstr) (host : dcc_hostdef) : M sched unit :=
  let! filename := dcc_make_lock_filename lockname host 0 in
  let! fd := dcc_open_lockfile filename in
  match fd with
  | None => fail EXIT_IO_ERROR
  | Some fd =>
      let! ok := touch fd in
      let! _ := close_lock fd in
      if ok then ret () else fail EXIT_IO_ERROR
  end.

(** The code's last statement is [return 0]. *)
Definition dcc_remove_timefile (lockname : cstr) (host : dcc_hostdef) : M sched unit :=
  let! filename := dcc_make_lock_filename lockname host 0 in
  let! e := sys_fault in
  match e with
  | Some _ => ret ()
  | None => mod_sh (λ h, set_sh_files (delete filename (sh_files h)) h)
  end.

Definition dcc_check_timefile (lockname : cstr) (host : dcc_hostdef) : M sched Z :=
  let! filename := dcc_make_lock_filename lockname host 0 in
  let! e := sys_fault in
  let! t := gets (λ s, sh_files (s_sh s) !! filename) in
  match e, t with
  | Some ENOENT, _ => ret 0%Z
  | Some _, _ => fail EXIT_IO_ERROR
  | None, None => ret 0%Z
  | None, Some mtime => ret mtime
  end.

(** ** backoff.c *)

Definition backoff_env : M sched (option cstr) :=
  gets (λ s, p_env (s_pr s) !! "DISTCC_BACKOFF_PERIOD"%cs).

Definition dcc_enjoyed_host (host : dcc_hostdef) : M sched unit :=
  let! bp := backoff_env in
  match bp with
  | Some bp => if (atoi bp =? 0)%Z then ret () else dcc_remove_timefile "backoff"%cs host
  | None => dcc_remove_timefile "backoff"%cs host
  end.

Definition dcc_disliked_host (host : dcc_hostdef) : M sched unit :=
  let! bp := backoff_env in
  match bp with
  | Some bp => if (atoi bp =? 0)%Z then ret () else dcc_mark_timefile "backoff"%cs host
  | None => dcc_mark_timefile "backoff"%cs host
  end.

Definition dcc_check_backoff (host : dcc_hostdef) : M sched unit :=
  let! mtime := dcc_check_timefile "backoff"%cs host in
  let! now := gets (λ s, sh_now (s_sh s)) in
  let! period := gets (λ s, p_backoff_period (s_pr s)) in
  if (now - mtime <? period)%Z then fail EXIT_BUSY else ret ().

Fixpoint remove_loop (hostlist : list dcc_hostdef) : M sched (list dcc_hostdef) :=
  match hostlist with
  | [] => ret []
  | h :: hostlist =>
      let! r := attempt (dcc_check_backoff h) in
      let! rest := remove_loop hostlist in
      ret (match r with inr _ => rest | inl _ => h :: rest end)
  end.

Definition dcc_remove_disliked (hostlist : list dcc_hostdef) : M sched (list dcc_hostdef) :=
  let! bp := backoff_env in
  do! match bp with Some bp => mod_pr (set_p_backoff (atoi bp)) | None => ret () end;
  let! period := gets (λ s, p_backoff_period (s_pr s)) in
  if (period =? 0)%Z then ret hostlist else remove_loop hostlist.

(** [hostlist] is what [dcc_get_hostlist] gives. *)
Definition dcc_pick_host_from_list_and_lock_it (fuel : nat) (hostlist : outcome (list dcc_hostdef)) :
    M sched (option (dcc_hostdef * nat)) :=
  match hostlist with
  | Ok hostlist =>
      let! hostlist := dcc_remove_disliked hostlist in
      match hostlist with
      | [] => fail EXIT_NO_HOSTS
      | _ => dcc_lock_one fuel hostlist
      end
  | _ => fail EXIT_NO_HOSTS
  end.

(** ** Lock names *)

(** What a lock name depends on besides the slot. *)
Definition host_key (h : dcc_hostdef) : option (dcc_mode * cstr * Z) :=
  match mode h with
  | Some DCC_MODE_LOCAL => Some (DCC_MODE_LOCAL, [], 0%Z)
  | Some DCC_MODE_TCP => Some (DCC_MODE_TCP, default [] (hostname h), port h)
  | Some DCC_MODE_SSH => Some (DCC_MODE_SSH, default [] (hostname h), 0%Z)
  | None => None
  end.

(** A number an [int] counts up to. *)
Definition small (z : Z) : Prop := (0 ≤ z < 2 ^ 31)%Z.

Lemma print_d_inj a b : small a → small b → print_d a = print_d b → a = b.
Proof.
  unfold small, print_d. intros Ha Hb. destruct (Z.ltb_spec a 0), (Z.ltb_spec b 0); try lia.
  intros E. rewrite <- (atoi_dec a []), <- (atoi_dec b []), E by (done || lia). done.
Qed.

Lemma print_d_underscore a : small a → "_"%char ∉ print_d a.
Proof.
  unfold small, print_d. intros Ha. destruct (Z.ltb_spec a 0); [lia|].
  destruct (dec_digits a) as [_ Hd]; [lia|]. intros Hin.
  by eapply Forall_forall in Hd; [|exact Hin].
Qed.

Lemma app_underscore_inj (a b x y : cstr) : "_"%char ∉ x → "_"%char ∉ y →
  a ++ "_"%cs ++ x = b ++ "_"%cs ++ y → a = b ∧ x = y.
Proof.
  intros Hx Hy E. apply app_eq_inv in E as [([|c k] & -> & E)|([|c k] & -> & E)]; simpl in E.
  - rewrite app_nil_r. by injection E.
  - injection E as <- ->. destruct Hy. apply elem_of_app. right. left.
  - rewrite app_nil_r. by injection E.
  - injection E as <- ->. destruct Hx. apply elem_of_app. right. left.
Qed.

(** The name determines the host and the slot. *)
Lemma lock_name_inj d l h h' i i' f :
  small i → small i' → small (port h) → small (port h') →
  lock_name d l h i = Some f → lock_name d l h' i' = Some f → host_key h = host_key h' ∧ i = i'.
Proof.
  unfold lock_name, host_key. intros Hi Hi' Hp Hp' E E'.
  destruct (mode h) as [[]|], (mode h') as [[]|]; try done;
    rewrite <- E in E'; apply Some_inj in E'; do 3 apply app_inv_head in E'; try done.
  - rewrite !(app_assoc "_"%cs (print_d _)), !(app_assoc (default _ _)) in E'.
    apply app_inv_head in E'.
    apply app_underscore_inj in E' as [E' Ei]; [|by apply print_d_underscore..].
    apply print_d_inj in Ei as ->; [|done..].
    rewrite <- !(app_assoc (default _ _)) in E'. apply app_underscore_inj in E' as [-> Ep]; [|by apply print_d_underscore..].
    by apply print_d_inj in Ep as ->.
  - apply app_inv_head in E'. apply app_underscore_inj in E' as [-> Ei]; [|by apply print_d_underscore..].
    by apply print_d_inj in Ei as ->.
  - apply app_inv_head in E'. by apply print_d_inj in E' as ->.
Qed.

(** The locks and the time files of a directory are different files. *)
Lemma lock_name_kind d h h' i i' f :
  lock_name d "cpu"%cs h i = Some f → lock_name d "backoff"%cs h' i' ≠ Some f.
Proof.
  unfold lock_name. intros E E'.
  destruct (mode h) as [[]|], (mode h') as [[]|]; try done;
    rewrite <- E in E'; apply Some_inj in E'; do 2 apply app_inv_head in E'; done.
Qed.

(** ** What one operation can change *)

(** From [s] to [s'] the process keeps its identity and its descriptors but
    [x], and nobody loses a lock but the process the one on [f]. *)
Record frame (x : option nat) (f : cstr) (s s' : sched) : Prop := Frame {
  fr_pid : p_pid (s_pr s') = p_pid (s_pr s);
  fr_dir : p_lock_dir (s_pr s') = p_lock_dir (s_pr s);
  fr_fds fd g : Some fd ≠ x → p_fds (s_pr s) !! fd = Some g → p_fds (s_pr s') !! fd = Some g;
  fr_locks g q : ¬ (g = f ∧ q = p_pid (s_pr s)) →
    sh_locks (s_sh s) !! g = Some q → sh_locks (s_sh s') !! g = Some q
}.

Lemma frame_refl x f s : frame x f s s.
Proof. done. Qed.

Lemma frame_trans x f s1 s2 s3 : frame x f s1 s2 → frame x f s2 s3 → frame x f s1 s3.
Proof.
  intros [P1 D1 F1 L1] [P2 D2 F2 L2]. split; try congruence; eauto.
  intros g q Hn Hl. apply L2; [by rewrite P1|]. by apply L1.
Qed.

Lemma wp_sys_fault Q s :
  (∀ e l, Q (Ok e) (Sched (s_sh s) (set_p_sys l (s_pr s)))) → wp sys_fault Q s.
Proof.
  intros HQ. unfold wp, sys_fault. destruct (p_sys (s_pr s)) as [|e l] eqn:E; simpl; [|done].
  destruct s as [h []]. simpl in *. subst. apply HQ.
Qed.

Lemma wp_make_lock_filename lockname h i d f Q s :
  p_lock_dir (s_pr s) = inl d → lock_name d lockname h i = Some f →
  (∀ l, Q (Ok f) (Sched (s_sh s) (set_p_mem l (s_pr s)))) →
  (∀ l, Q (Fail EXIT_OUT_OF_MEMORY) (Sched (s_sh s) (set_p_mem l (s_pr s)))) →
  wp (dcc_make_lock_filename lockname h i) Q s.
Proof.
  intros Hd Hf HO HE. unfold dcc_make_lock_filename. apply wp_bind, wp_gets. rewrite Hd, Hf.
  by apply wp_bind, wp_malloc_or.
Qed.

(** Opening adds a fresh descriptor. *)
Lemma wp_open_creat fname Q s :
  (∀ h l, sh_locks h = sh_locks (s_sh s) →
     Q (Ok (inl (new_fd (p_fds (s_pr s)))))
       (Sched h (set_p_fds (<[new_fd (p_fds (s_pr s)) := fname]> (p_fds (s_pr s))) (set_p_sys l (s_pr s))))) →
  (∀ e l, Q (Ok (inr e)) (Sched (s_sh s) (set_p_sys l (s_pr s)))) →
  wp (open_creat fname) Q s.
Proof.
  intros HO HE. unfold open_creat. apply wp_bind, wp_sys_fault. intros [e|] l; [apply HE|].
  unfold mod_sh, mod_pr. apply wp_bind, wp_modify, wp_bind, wp_gets, wp_bind, wp_modify, wp_ret.
  apply HO. simpl. by destruct (sh_files (s_sh s) !! fname).
Qed.

Lemma release_locks f pid h g q : ¬ (g = f ∧ q = pid) →
  sh_locks h !! g = Some q → sh_locks (release f pid h) !! g = Some q.
Proof.
  intros Hn Hg. unfold release. destruct (decide _) as [E|]; [|done]. simpl.
  destruct (decide (g = f)) as [->|]; [|by rewrite lookup_delete_ne]. naive_solver.
Qed.

(** Closing a descriptor of [f]. *)
Lemma wp_close_lock fd f s : p_fds (s_pr s) !! fd = Some f →
  wp (close_lock fd) (λ o s', (o = Ok (inl ()) ∨ ∃ e, o = Ok (inr e)) ∧ frame (Some fd) f s s') s.
Proof.
  intros Hf. unfold close_lock. apply wp_bind, wp_gets, wp_bind, wp_gets, wp_bind, wp_sys_fault.
  intros [e|] l; [apply wp_ret; split; [eauto|done]|]. rewrite Hf.
  apply wp_bind. unfold mod_sh, mod_pr. apply wp_modify, wp_bind, wp_modify, wp_ret.
  split; [auto|]. split; simpl; [done..| |].
  - intros fd' g Hne Hg. rewrite lookup_delete_ne; [done|]. congruence.
  - intros g q Hn Hg. by apply release_locks.
Qed.

(** [dcc_lock_host] on the file [f]: with success the process holds the lock
    under a fresh descriptor. *)
Lemma lock_host_frame lockname h i d f s :
  p_lock_dir (s_pr s) = inl d → lock_name d lockname h i = Some f →
  wp (dcc_lock_host lockname h i) (λ o s', frame None f s s' ∧
    match o with
    | Ok fd => p_fds (s_pr s) !! fd = None ∧ p_fds (s_pr s') !! fd = Some f ∧
               sh_locks (s_sh s') !! f = Some (p_pid (s_pr s))
    | Fail _ => True
    | _ => False
    end) s.
Proof.
  intros Hd Hf. unfold dcc_lock_host. destruct (is_up h); [|by apply wp_throw]. simpl negb. cbv iota.
  apply wp_bind. eapply wp_make_lock_filename; [done..| |by intros l].
  intros l. apply wp_bind. unfold dcc_open_lockfile. apply wp_bind, wp_open_creat; simpl.
  - intros h' l' Hl'. apply wp_ret.
    pose proof (new_fd_fresh (p_fds (s_pr s))) as Hfr. set (fd := new_fd _) in *.
    set (s1 := Sched h' _).
    assert (frame None f s s1) as F1.
    { split; simpl; [done..| |].
      - intros fd' g _ Hg. rewrite lookup_insert_ne; [done|]. congruence.
      - intros g q _. by rewrite Hl'. }
    assert (p_fds (s_pr s1) !! fd = Some f) as Hs1 by apply lookup_insert_eq.
    apply wp_bind. unfold sys_lock. apply wp_bind, wp_gets, wp_bind, wp_gets, wp_bind, wp_sys_fault.
    assert (∀ l2 e, wp (let! _ := close_lock fd in
       match e with EAGAIN | EACCES => fail EXIT_BUSY | _ => fail EXIT_IO_ERROR end)
      (λ (o : outcome nat) s', frame None f s s' ∧ match o with Ok fd => False | Fail _ => True | _ => False end)
      (Sched (s_sh s1) (set_p_sys l2 (s_pr s1)))) as Hclose.
    { intros l2 e. apply wp_bind. eapply wp_mono; [by apply (wp_close_lock fd f)|].
      intros o s2 [Ho F2].
      assert (frame None f s s2) as F.
      { destruct F1 as [P1 D1 FF1 L1], F2 as [P2 D2 FF2 L2]. split; [by rewrite P2|by rewrite D2|..].
        - intros fd' g _ Hg. apply FF2; [congruence|]. by apply FF1.
        - intros g q Hn Hg. apply L2; [by rewrite <- P1 in Hn|]. by apply L1. }
      destruct Ho as [-> | [e' ->]]; destruct e; by apply wp_throw. }
    intros [e|] l2.
    + apply wp_ret. eapply wp_mono; [apply (Hclose l2 e)|]. intros [] ?; naive_solver.
    + simpl. rewrite lookup_insert_eq. apply wp_bind, wp_gets. simpl.
      destruct (sh_locks h' !! f) as [q|] eqn:Eq; [destruct (decide _) as [->|Hq]|].
      * apply wp_ret, wp_ret. split; [by destruct F1|]. simpl. by rewrite lookup_insert_eq.
      * apply wp_ret. eapply wp_mono; [apply (Hclose l2 EAGAIN)|]. intros [] ?; naive_solver.
      * unfold mod_sh. apply wp_bind, wp_modify, wp_ret, wp_ret. split.
        -- destruct F1 as [P1 D1 FF1 L1]. split; [done..|]. simpl. intros g q Hn Hg.
           rewrite lookup_insert_ne; [by rewrite Hl'|]. intros <-. rewrite Hl' in Eq. congruence.
        -- simpl. by rewrite !lookup_insert_eq.
  - intros e l'. assert (wp (A := option nat) (match e with EEXIST => ret None | _ => fail EXIT_IO_ERROR end)
      (λ o s', s' = Sched (s_sh s) (set_p_sys l' (set_p_mem l (s_pr s))) ∧ 
         (o = Ok None ∨ o = Fail EXIT_IO_ERROR)) (Sched (s_sh s) (set_p_sys l' (set_p_mem l (s_pr s))))) as He.
    { destruct e; (split; [done|auto]). }
    eapply wp_mono; [exact He|]. intros o s' [-> [-> | ->]]; [|done].
    apply wp_bind. unfold sys_lock. apply wp_bind, wp_gets, wp_bind, wp_gets, wp_bind, wp_sys_fault.
    intros e2 l2. destruct e2 as [e2|]; apply wp_ret, wp_bind, wp_ret; [destruct e2|]; by apply wp_throw.
Qed.

Lemma unlock_frame fd f s : p_fds (s_pr s) !! fd = Some f →
  wp (dcc_unlock fd) (λ _ s', frame (Some fd) f s s') s.
Proof.
  intros Hf. unfold dcc_unlock. apply wp_bind, wp_gets, wp_bind, wp_gets, wp_bind, wp_sys_fault.
  intros e l. rewrite Hf. destruct e as [e|].
  - apply wp_bind. eapply wp_mono; [by apply (wp_close_lock fd f)|].
    intros o s' [[-> | [e' ->]] F]; by destruct F.
  - unfold mod_sh. apply wp_bind, wp_modify, wp_bind.
    eapply wp_mono; [by apply (wp_close_lock fd f)|]. intros o s' [Ho F].
    assert (frame (Some fd) f s s') as F'.
    { eapply frame_trans; [|exact F]. split; simpl; [done..|]. intros g q Hn Hg. by apply release_locks. }
    by destruct Ho as [-> | [e' ->]].
Qed.

Lemma mark_timefile_frame lockname h d f s :
  p_lock_dir (s_pr s) = inl d → lock_name d lockname h 0 = Some f →
  wp (dcc_mark_timefile lockname h) (λ _ s', frame None f s s') s.
Proof.
  intros Hd Hf. unfold dcc_mark_timefile. apply wp_bind.
  eapply wp_make_lock_filename; [done..| |by intros l].
  intros l. apply wp_bind. unfold dcc_open_lockfile. apply wp_bind, wp_open_creat; simpl.
  - intros h' l' Hl'. apply wp_ret.
    pose proof (new_fd_fresh (p_fds (s_pr s))) as Hfr. set (fd := new_fd _) in *.
    apply wp_bind. unfold touch. apply wp_bind, wp_sys_fault. intros e l2.
    apply wp_bind, wp_gets. simpl. rewrite lookup_insert_eq.
    assert (∀ h2 b, sh_locks h2 = sh_locks h' → wp (let! _ := close_lock fd in if b : bool then ret () else fail EXIT_IO_ERROR)
      (λ _ s', frame None f s s')
      (Sched h2 (set_p_sys l2 (set_p_fds (<[fd:=f]> (p_fds (s_pr s))) (set_p_sys l' (set_p_mem l (s_pr s))))))) as Hc.
    { intros h2 b Hh2. apply wp_bind. eapply wp_mono; [apply (wp_close_lock fd f); simpl; by rewrite lookup_insert_eq|].
      intros o s2 [Ho [P2 D2 FF2 L2]]. simpl in *.
      assert (frame None f s s2) as F.
      { split; [done..| |].
        - intros fd' g _ Hg. apply FF2; [congruence|]. rewrite lookup_insert_ne; congruence.
        - intros g q Hn Hg. apply L2; [done|]. by rewrite Hh2, Hl'. }
      destruct Ho as [-> | [e' ->]]; by destruct b. }
    destruct e as [e|].
    + by apply wp_ret, (Hc h' false).
    + apply wp_bind. unfold mod_sh. by apply wp_modify, wp_ret, (Hc _ true).
  - intros e l'. destruct e; by apply wp_throw.
Qed.

Lemma remove_timefile_frame lockname h d f x g s :
  p_lock_dir (s_pr s) = inl d → lock_name d lockname h 0 = Some f →
  wp (dcc_remove_timefile lockname h) (λ _ s', frame x g s s') s.
Proof.
  intros Hd Hf. unfold dcc_remove_timefile. apply wp_bind.
  eapply wp_make_lock_filename; [done..| |by intros l].
  intros l. apply wp_bind, wp_sys_fault. by intros [e|] l'.
Qed.

(** ** The processes of a user *)

(** All processes, and the claims: which process got which lock file from
    [dcc_lock_host] under which descriptor, and has not given it back. *)
Record system := System {
  y_sh : shared;
  y_procs : gmap nat proc;
  y_claims : gmap (nat * nat) cstr
}.

Definition after (y : system) (p : nat) (s : sched) (claims : gmap (nat * nat) cstr) : system :=
  System (s_sh s) (<[p := s_pr s]> (y_procs y)) claims.

(** The processes use the lock directory [d].  A process does not ask for a
    lock it has (lock.c: one local and one remote lock at a time); it gives
    back the locks it got; the kernel releases the locks of a process that
    ends. *)
Inductive sys_step (d : cstr) : system → system → Prop :=
| step_start y p pr :
    y_procs y !! p = None → p_pid pr = p → p_lock_dir pr = inl d →
    sys_step d y (System (y_sh y) (<[p := pr]> (y_procs y)) (y_claims y))
| step_lock y p pr h i f o s :
    y_procs y !! p = Some pr → lock_name d "cpu"%cs h i = Some f →
    (∀ fd, y_claims y !! (p, fd) ≠ Some f) →
    dcc_lock_host "cpu"%cs h i (Sched (y_sh y) pr) = (o, s) →
    sys_step d y (after y p s (match o with Ok fd => <[(p, fd) := f]> (y_claims y) | _ => y_claims y end))
| step_unlock y p pr fd f o s :
    y_procs y !! p = Some pr → y_claims y !! (p, fd) = Some f →
    dcc_unlock fd (Sched (y_sh y) pr) = (o, s) →
    sys_step d y (after y p s (delete (p, fd) (y_claims y)))
| step_mark y p pr h f o s :
    y_procs y !! p = Some pr → lock_name d "backoff"%cs h 0 = Some f →
    dcc_mark_timefile "backoff"%cs h (Sched (y_sh y) pr) = (o, s) →
    sys_step d y (after y p s (y_claims y))
| step_remove y p pr h f o s :
    y_procs y !! p = Some pr → lock_name d "backoff"%cs h 0 = Some f →
    dcc_remove_timefile "backoff"%cs h (Sched (y_sh y) pr) = (o, s) →
    sys_step d y (after y p s (y_claims y))
| step_tick y t :
    (sh_now (y_sh y) ≤ t)%Z →
    sys_step d y (System (Shared (sh_files (y_sh y)) (sh_locks (y_sh y)) t) (y_procs y) (y_claims y))
| step_exit y p :
    sys_step d y (System (set_sh_locks (filter (λ kv, kv.2 ≠ p) (sh_locks (y_sh y))) (y_sh y))
                    (delete p (y_procs y)) (filter (λ kv, kv.1.1 ≠ p) (y_claims y))).

(** A claim is backed by a lock, and no lock backs two claims. *)
Record sys_inv (d : cstr) (y : system) : Prop := SysInv {
  inv_proc p pr : y_procs y !! p = Some pr → p_pid pr = p ∧ p_lock_dir pr = inl d;
  inv_claim p fd f : y_claims y !! (p, fd) = Some f →
    (∃ pr, y_procs y !! p = Some pr ∧ p_fds pr !! fd = Some f) ∧
    sh_locks (y_sh y) !! f = Some p ∧ ∃ h i, lock_name d "cpu"%cs h i = Some f;
  inv_inj k k' f : y_claims y !! k = Some f → y_claims y !! k' = Some f → k = k'
}.

(** A step of one process that is a frame around the claims that stay. *)
Lemma inv_after d y p pr x g s claims :
  sys_inv d y → y_procs y !! p = Some pr → frame x g (Sched (y_sh y) pr) s →
  claims ⊆ y_claims y → (∀ fd f, claims !! (p, fd) = Some f → Some fd ≠ x ∧ f ≠ g) →
  sys_inv d (after y p s claims).
Proof.
  intros [Hp Hc Hi] Hpr [P D F L] Hsub Hx. destruct (Hp p pr Hpr) as [Epid Edir].
  split; simpl in *.
  - intros q pr' Hq. destruct (decide (q = p)) as [->|].
    + rewrite lookup_insert_eq in Hq. injection Hq as <-. by rewrite P, D.
    + rewrite lookup_insert_ne in Hq by done. by apply Hp.
  - intros q fd f Hq. destruct (Hc q fd f) as ((pr' & Hpr' & Hfd) & Hl & Hn); [by eapply lookup_weaken|].
    split_and!; [| |done].
    + destruct (decide (q = p)) as [->|]; [|rewrite lookup_insert_ne by done; eauto].
      rewrite lookup_insert_eq. eexists. split; [done|]. apply F; [by eapply Hx|]. congruence.
    + apply L; [|done]. intros [-> ->]. rewrite Epid in Hq. by destruct (Hx fd g Hq).
  - intros k k' f Hk Hk'. apply (Hi k k' f); by eapply lookup_weaken.
Qed.

Lemma inv_lock d y p pr h i f o s :
  sys_inv d y → y_procs y !! p = Some pr → lock_name d "cpu"%cs h i = Some f →
  (∀ fd, y_claims y !! (p, fd) ≠ Some f) →
  dcc_lock_host "cpu"%cs h i (Sched (y_sh y) pr) = (o, s) →
  sys_inv d (after y p s (match o with Ok fd => <[(p, fd) := f]> (y_claims y) | _ => y_claims y end)).
Proof.
  intros Hinv Hpr Hf Hcl Hrun. pose proof Hinv as [Hp Hc Hi].
  destruct (Hp p pr Hpr) as [Epid Edir].
  pose proof (lock_host_frame "cpu"%cs h i d f (Sched (y_sh y) pr) Edir Hf) as Hw.
  unfold wp in Hw. rewrite Hrun in Hw. simpl in Hw. destruct Hw as [F Ho].
  assert (sys_inv d (after y p s (y_claims y))) as Hinv'.
  { eapply inv_after; [done..|]. intros fd g Hg. split; [done|]. intros ->. by eapply Hcl. }
  destruct o as [fd|c|c|]; [|done..]. destruct Ho as (Hfree & Hfd & Hl). rewrite Epid in Hl.
  destruct Hinv' as [Hp' Hc' Hi']. simpl in *.
  assert (∀ k, y_claims y !! k ≠ Some f) as Hnone.
  { intros [q fd'] Hq. destruct (Hc' q fd' f Hq) as (_ & Hl' & _).
    assert (q = p) as -> by congruence. by eapply Hcl. }
  split; simpl; [done| |].
  + intros q fd' g Hq. destruct (decide ((p, fd) = (q, fd'))) as [[= <- <-]|].
    * rewrite lookup_insert_eq in Hq. injection Hq as <-. rewrite lookup_insert_eq. eauto 10.
    * rewrite lookup_insert_ne in Hq by done. by apply Hc'.
  + intros k k' g Hk Hk'. apply lookup_insert_Some in Hk as [[<- <-]|[? Hk]],
      Hk' as [[<- E]|[? Hk']]; [done| |subst|by eapply Hi]; exfalso; by eapply Hnone.
Qed.

Lemma inv_step d y y' : sys_step d y y' → sys_inv d y → sys_inv d y'.
Proof.
  intros Hs Hinv. pose proof Hinv as [Hp Hc Hi].
  destruct Hs as [y p pr Hn Hpid Hdir|y p pr h i f o s Hpr Hf Hcl Hrun|y p pr fd f o s Hpr Hcl Hrun
    |y p pr h f o s Hpr Hf Hrun|y p pr h f o s Hpr Hf Hrun|y t Ht|y p].
  - split; simpl; [| |done].
    + intros q pr' Hq. destruct (decide (q = p)) as [->|]; [|rewrite lookup_insert_ne in Hq by done; by apply Hp].
      rewrite lookup_insert_eq in Hq. by injection Hq as <-.
    + intros q fd f Hq. destruct (Hc q fd f Hq) as ((pr' & ? & ?) & ? & ?). split_and!; [|done..].
      exists pr'. by rewrite lookup_insert_ne by congruence.
  - by eapply inv_lock.
  - destruct (Hc p fd f Hcl) as ((pr' & Hpr' & Hfd) & _). assert (pr' = pr) as -> by congruence.
    pose proof (unlock_frame fd f (Sched (y_sh y) pr) Hfd) as F. unfold wp in F. rewrite Hrun in F.
    eapply inv_after; [done..|apply delete_subseteq|].
    intros fd' g Hg. apply lookup_delete_Some in Hg as [Hne Hg]. split; [congruence|]. intros ->.
    apply Hne. by eapply Hi.
  - destruct (Hp p pr Hpr) as [Epid Edir].
    pose proof (mark_timefile_frame "backoff"%cs h d f (Sched (y_sh y) pr) Edir Hf) as F.
    unfold wp in F. rewrite Hrun in F. eapply inv_after; [done..|]. intros fd g Hg. split; [done|].
    intros ->. destruct (Hc p fd f Hg) as (_ & _ & h' & i' & E). by eapply lock_name_kind.
  - destruct (Hp p pr Hpr) as [Epid Edir].
    pose proof (remove_timefile_frame "backoff"%cs h d f None f (Sched (y_sh y) pr) Edir Hf) as F.
    unfold wp in F. rewrite Hrun in F. eapply inv_after; [done..|]. intros fd g Hg. split; [done|].
    intros ->. destruct (Hc p fd f Hg) as (_ & _ & h' & i' & E). by eapply lock_name_kind.
  - by split.
  - split; simpl.
    + intros q pr Hq. apply lookup_delete_Some in Hq as [_ Hq]. by apply Hp.
    + intros q fd f Hq. apply map_lookup_filter_Some in Hq as [Hq Hne]. simpl in Hne.
      destruct (Hc q fd f Hq) as ((pr & ? & ?) & ? & ?). split_and!; [|by apply map_lookup_filter_Some|done].
      exists pr. by rewrite lookup_delete_ne.
    + intros k k' f Hk Hk'. apply map_lookup_filter_Some in Hk as [Hk _], Hk' as [Hk' _]. by eapply Hi.
Qed.

Lemma inv_reach d y y' : rtc (sys_step d) y y' → sys_inv d y → sys_inv d y'.
Proof. induction 1; eauto using inv_step. Qed.

(** C4.  Of all the distcc processes of a user, in any interleaving of taking
    and returning locks, marking and clearing hosts, starting, ending and
    waiting, at most [n] hold one of the first [n] slots of a host at a time,
    and no slot is held twice. *)
Theorem host_capacity (d : cstr) (sh : shared) (y : system) (h : dcc_hostdef) (n : nat) :
  rtc (sys_step d) (System sh ∅ ∅) y →
  size (filter (λ kv, kv.2 ∈ omap (λ i, lock_name d "cpu"%cs h (Z.of_nat i)) (seq 0 n)) (y_claims y)) ≤ n ∧
  ∀ k k' f, y_claims y !! k = Some f → y_claims y !! k' = Some f → k = k'.
Proof.
  intros Hr. assert (sys_inv d y) as [_ _ Hi].
  { eapply inv_reach; [exact Hr|]. by split. }
  split; [|done]. set (names := omap _ _). set (m := filter _ _).
  assert (NoDup (map_to_list m).*2) as Hnd.
  { apply NoDup_fmap_2_strong; [|apply NoDup_map_to_list]. intros [k f] [k' f'] Hk Hk' [= ->].
    apply elem_of_map_to_list, map_lookup_filter_Some in Hk as [Hk _], Hk' as [Hk' _].
    f_equal. by eapply Hi. }
  apply Nat.le_trans with (length names).
  - rewrite <- length_map_to_list, <- (length_fmap snd). apply submseteq_length, NoDup_submseteq; [done|].
    intros f Hf. apply list_elem_of_fmap in Hf as ([k f'] & -> & Hk).
    by apply elem_of_map_to_list, map_lookup_filter_Some in Hk as [_ Hk].
  - unfold names. rewrite <- (length_seq n 0) at 2. generalize (seq 0 n). intros l.
    induction l as [|x l IH]; [done|]. cbn. destruct (lock_name _ _ _ _); simpl; lia.
Qed.

(** ** Which slot a process gets *)

(** The kernel and the allocator cooperate, and the lock directory is [d]. *)
Record coop (d : cstr) (p : proc) : Prop := Coop {
  co_mem : p_mem p = [];
  co_sys : p_sys p = [];
  co_dir : p_lock_dir p = inl d
}.

(** No other process holds the lock of slot [i] of [h]. *)
Definition slot_free (d : cstr) (locks : gmap cstr nat) (pid : nat) (x : Z * dcc_hostdef) : bool :=
  is_up x.2 &&
  match lock_name d "cpu"%cs x.2 x.1 with
  | Some f => match locks !! f with Some q => bool_decide (q = pid) | None => true end
  | None => false
  end.

(** The slots in the order in which they are tried: slot 0 of every host, then
    slot 1 of every host that has one, and so on. *)
Definition row (i : Z) (hosts : list dcc_hostdef) : list (Z * dcc_hostdef) :=
  pair i <$> filter (λ h, (i < n_slots h)%Z) hosts.
Definition slots_from (n : nat) (i : Z) (hosts : list dcc_hostdef) : list (Z * dcc_hostdef) :=
  seqZ i (Z.of_nat n) ≫= λ i, row i hosts.

Definition with_files (fs : gmap cstr Z) (s : sched) : sched := Sched (set_sh_files fs (s_sh s)) (s_pr s).

(** The state after the process got slot [x]; [fs] are the files. *)
Definition got_slot (d : cstr) (x : Z * dcc_hostdef) (fs : gmap cstr Z) (s : sched) : sched :=
  let f := default [] (lock_name d "cpu"%cs x.2 x.1) in
  Sched (Shared fs (<[f := p_pid (s_pr s)]> (sh_locks (s_sh s))) (sh_now (s_sh s)))
    (set_p_fds (<[new_fd (p_fds (s_pr s)) := f]> (p_fds (s_pr s))) (s_pr s)).

Lemma lock_host_coop d h i s :
  coop d (s_pr s) → is_Some (mode h) →
  ∃ fs, dcc_lock_host "cpu"%cs h i s =
    if slot_free d (sh_locks (s_sh s)) (p_pid (s_pr s)) (i, h)
    then (Ok (new_fd (p_fds (s_pr s))), got_slot d (i, h) fs s)
    else (Fail EXIT_BUSY, with_files fs s).
Proof.
  intros [Hm Hs Hd] Hmode. unfold dcc_lock_host, slot_free. simpl.
  destruct (is_up h); simpl; [|exists (sh_files (s_sh s)); by destruct s as [[]]].
  destruct (lock_name d "cpu"%cs h i) as [f|] eqn:Ef.
  2: { unfold lock_name in Ef. by destruct (mode h) as [[]|]. }
  destruct s as [[files locks now] [pid mem sys dir fds env period ls rs ph others]]. simpl in *. subst.
  exists (match files !! f with Some _ => files | None => <[f := now]> files end).
  unfold dcc_make_lock_filename, dcc_open_lockfile, open_creat, sys_lock, sys_fault, malloc_or, malloc,
    mod_sh, mod_pr, bind, gets, modify, ret, fail, throw. simpl. rewrite Ef. simpl.
  rewrite !lookup_insert_eq. unfold got_slot, with_files. simpl. rewrite Ef. simpl.
  destruct (files !! f) as [t|] eqn:Efile; simpl;
    (destruct (locks !! f) as [q|] eqn:El; simpl; [|done]);
    (destruct (decide (q = pid)) as [->|Hq]; [rewrite bool_decide_eq_true_2 by done|
      rewrite bool_decide_eq_false_2 by done]; simpl;
     [by rewrite (insert_id locks) by done|]);
    unfold close_lock, sys_fault, mod_sh, mod_pr, release, bind, gets, modify, ret; simpl;
    rewrite lookup_insert_eq; simpl; rewrite decide_False by congruence;
    rewrite delete_insert_id by apply new_fd_fresh; done.
Qed.

(** The result of trying the slots [xs] in turn. *)
Definition first_slot (d : cstr) (xs : list (Z * dcc_hostdef)) (s s' : sched)
    (o : outcome (option (dcc_hostdef * nat))) : Prop :=
  ∃ fs, match filter (λ x, slot_free d (sh_locks (s_sh s)) (p_pid (s_pr s)) x = true) xs with
        | [] => o = Ok None ∧ s' = with_files fs s
        | x :: _ =>
            o = Ok (Some (x.2, new_fd (p_fds (s_pr s)))) ∧
            let g := got_slot d x fs s in
            s' = Sched (s_sh g) (set_p_slot (streq (default [] (hostname x.2)) "localhost"%cs) x.1 (s_pr g))
        end.

Lemma first_slot_none d xs ys s s1 s2 o :
  first_slot d xs s s1 (Ok None) → first_slot d ys s1 s2 o → first_slot d (xs ++ ys) s s2 o.
Proof.
  intros [fs H1] [fs' H2]. unfold first_slot. rewrite filter_app.
  destruct (filter _ xs) as [|x l]; simpl; [|by destruct H1].
  destruct H1 as [_ ->]. exists fs'. by destruct s as [[]].
Qed.

Lemma first_slot_some d xs ys s s1 x :
  first_slot d xs s s1 (Ok (Some x)) → first_slot d (xs ++ ys) s s1 (Ok (Some x)).
Proof.
  intros [fs H1]. exists fs. rewrite filter_app. destruct (filter _ xs); simpl; [by destruct H1|done].
Qed.

Lemma lock_hosts_first d i hosts s :
  coop d (s_pr s) → Forall (λ h, is_Some (mode h)) hosts →
  ∃ o s', lock_hosts i hosts s = (o, s') ∧ first_slot d (row i hosts) s s' o.
Proof.
  intros Hc Hm. revert s Hc. induction Hm as [|h hosts Hmode Hm IH]; intros s Hc.
  { exists (Ok None), s. split; [done|]. exists (sh_files (s_sh s)). by destruct s as [[]]. }
  simpl lock_hosts. unfold row. rewrite filter_cons.
  destruct (Z.geb_spec i (n_slots h)).
  { rewrite decide_False by lia. by apply IH. }
  rewrite decide_True by lia. destruct (lock_host_coop d h i s Hc Hmode) as [fs E].
  unfold bind, attempt. rewrite E. destruct (slot_free _ _ _ (i, h)) eqn:Ef; simpl.
  - eexists _, _. split; [done|]. exists fs. rewrite filter_cons_True by done. done.
  - destruct (IH (with_files fs s)) as (o & s' & E' & fs' & H'); [done|].
    eexists _, _. split; [exact E'|]. exists fs'. rewrite filter_cons_False by (simpl; congruence).
    by destruct s as [[]].
Qed.

Lemma lock_slots_first d n i hosts s :
  coop d (s_pr s) → Forall (λ h, is_Some (mode h)) hosts →
  ∃ o s', lock_slots n i hosts s = (o, s') ∧ first_slot d (slots_from n i hosts) s s' o.
Proof.
  intros Hc Hm. revert i s Hc. induction n as [|n IH]; intros i s Hc.
  { exists (Ok None), s. split; [done|]. exists (sh_files (s_sh s)). by destruct s as [[]]. }
  unfold slots_from. rewrite Nat2Z.inj_succ, seqZ_cons, bind_cons, Z.pred_succ by lia.
  destruct (lock_hosts_first d i hosts s Hc Hm) as (o & s1 & E & H1).
  unfold lock_slots at 1. fold lock_slots. unfold bind. rewrite E, <- Z.add_1_r.
  pose proof H1 as [fs H2]. destruct (filter _ _) as [|x l]; destruct H2 as [-> Es1].
  - destruct (IH (i + 1)%Z s1) as (o2 & s2 & E2 & H2); [by subst|].
    exists o2, s2. split; [done|]. by eapply first_slot_none.
  - eexists _, s1. split; [done|]. by apply first_slot_some.
Qed.

Lemma lock_one_round d fuel hosts s :
  coop d (s_pr s) → Forall (λ h, is_Some (mode h)) hosts →
  match filter (λ x, slot_free d (sh_locks (s_sh s)) (p_pid (s_pr s)) x = true) (slots_from 50 0 hosts) with
  | (i, h) :: _ => ∃ s', dcc_lock_one (S fuel) hosts s = (Ok (Some (h, new_fd (p_fds (s_pr s)))), s') ∧
      first_slot d (slots_from 50 0 hosts) s s' (Ok (Some (h, new_fd (p_fds (s_pr s)))))
  | [] => ∃ fs, dcc_lock_one (S fuel) hosts s = (do! dcc_lock_pause; dcc_lock_one fuel hosts) (with_files fs s)
  end.
Proof.
  intros Hc Hm. destruct (lock_slots_first d 50 0 hosts s Hc Hm) as (o & s' & E & H1).
  change (dcc_lock_one (S fuel) hosts s) with
    ((let! r := lock_slots 50 0 hosts in
      match r with Some x => ret (Some x) | None => do! dcc_lock_pause; dcc_lock_one fuel hosts end) s).
  pose proof H1 as [fs H2]. destruct (filter _ _) as [|[i h] l] eqn:El; destruct H2 as [-> E2].
  - exists fs. rewrite (bind_Ok _ _ _ _ _ E). by subst.
  - exists s'. split; [|exact H1]. by rewrite (bind_Ok _ _ _ _ _ E).
Qed.

(** C31.  A process that looks for a slot gets, without waiting, the first free
    one in the order slot by slot across the host list (so the load spreads
    over the hosts before any of them gets a second job): it holds its lock
    under a new descriptor and has noted the slot, and nothing else has
    changed but the lock files created on the way.  When no slot is free it
    sleeps and tries again. *)
Theorem lock_one_first_free (d : cstr) (fuel : nat) (hosts : list dcc_hostdef) (s : sched) :
  coop d (s_pr s) → Forall (λ h, is_Some (mode h)) hosts →
  match filter (λ x, slot_free d (sh_locks (s_sh s)) (p_pid (s_pr s)) x = true) (slots_from 50 0 hosts) with
  | (i, h) :: _ => ∃ s', dcc_lock_one (S fuel) hosts s = (Ok (Some (h, new_fd (p_fds (s_pr s)))), s') ∧
      first_slot d (slots_from 50 0 hosts) s s' (Ok (Some (h, new_fd (p_fds (s_pr s)))))
  | [] => ∃ fs, dcc_lock_one (S fuel) hosts s = (do! dcc_lock_pause; dcc_lock_one fuel hosts) (with_files fs s)
  end.
Proof. apply lock_one_round. Qed.

(** C34.  Once another process gives back, during some sleep, the lock of a slot
    of a host that is up, the wait ends: [dcc_lock_one] returns with a slot of
    a host of its list at the latest in the round after that sleep, whatever
    the others do meanwhile. *)
Theorem lock_one_returns (d : cstr) (hosts : list dcc_hostdef) (pre post : list (shared → shared))
    (g : shared → shared) (i : Z) (h : dcc_hostdef) (f : cstr) (s : sched) :
  coop d (s_pr s) → Forall (λ h, is_Some (mode h)) hosts →
  p_others (s_pr s) = pre ++ g :: post →
  (i, h) ∈ slots_from 50 0 hosts → is_up h = true → lock_name d "cpu"%cs h i = Some f →
  (∀ sh, sh_locks (g sh) !! f = None) →
  ∃ h' fd s', dcc_lock_one (length pre + 2) hosts s = (Ok (Some (h', fd)), s') ∧ h' ∈ hosts ∧ is_up h' = true.
Proof.
  intros Hc Hm Ho Hin Hup Hf Hg.
  assert (∀ s' fuel, coop d (s_pr s') →
    match filter (λ x, slot_free d (sh_locks (s_sh s')) (p_pid (s_pr s')) x = true) (slots_from 50 0 hosts) with
    | [] => True
    | _ => ∃ h' fd s'', dcc_lock_one (S fuel) hosts s' = (Ok (Some (h', fd)), s'') ∧ h' ∈ hosts ∧ is_up h' = true
    end) as Hnow.
  { intros s' fuel Hc'. pose proof (lock_one_round d fuel hosts s' Hc' Hm) as H1.
    destruct (filter _ _) as [|[i' h'] l] eqn:El; [done|]. destruct H1 as (s'' & E & _).
    exists h', (new_fd (p_fds (s_pr s'))), s''. split; [done|].
    assert ((i', h') ∈ filter (λ x, slot_free d (sh_locks (s_sh s')) (p_pid (s_pr s')) x = true) (slots_from 50 0 hosts))
      as Hx by (rewrite El; left).
    apply list_elem_of_filter in Hx as [Hfree Hx]. unfold slot_free in Hfree. simpl in Hfree.
    apply andb_true_iff in Hfree as [Hup' _]. split; [|done].
    unfold slots_from in Hx. apply list_elem_of_bind in Hx as (j & Hx & _). unfold row in Hx.
    apply list_elem_of_fmap in Hx as (h2 & [= -> ->] & Hx). by apply list_elem_of_filter in Hx as [_ ?]. }
  revert s Hc Ho. induction pre as [|g' pre IH]; intros s Hc Ho.
  - change (length [] + 2) with 2. pose proof (Hnow s 1 Hc) as H1. pose proof (lock_one_round d 1 hosts s Hc Hm) as H2.
    destruct (filter _ _) as [|x l] eqn:El; [|done]. destruct H2 as [fs ->].
    unfold bind, dcc_lock_pause. simpl s_pr. rewrite Ho. simpl app. cbv iota beta.
    set (s1 := Sched _ _). assert (coop d (s_pr s1)) as Hc1 by (by destruct Hc).
    clear El. pose proof (Hnow s1 0 Hc1) as H3. destruct (filter _ _) as [|x l] eqn:El1; [|done].
    exfalso. assert ((i, h) ∈ @nil (Z * dcc_hostdef)) as Hx; [|by apply not_elem_of_nil in Hx].
    rewrite <- El1. apply list_elem_of_filter. split; [|done].
    unfold slot_free, s1. simpl. by rewrite Hup, Hf, Hg.
  - change (length (g' :: pre) + 2) with (S (length pre + 2)).
    pose proof (Hnow s (length pre + 2) Hc) as H1.
    pose proof (lock_one_round d (length pre + 2) hosts s Hc Hm) as H2.
    destruct (filter _ _) as [|x l] eqn:El; [|done]. destruct H2 as [fs ->].
    unfold bind, dcc_lock_pause. simpl s_pr. rewrite Ho. simpl app. cbv iota beta.
    apply IH; [by destruct Hc|done].
Qed.

(** When every host of the list is down or has no slots, the search never
    ends, however long it goes on and whatever the other processes do. *)
Lemma lock_one_never (d : cstr) (fuel : nat) (hosts : list dcc_hostdef) (s : sched) :
  coop d (s_pr s) → Forall (λ h, is_Some (mode h)) hosts →
  Forall (λ h, is_up h = false ∨ (n_slots h ≤ 0)%Z) hosts →
  ∃ s', dcc_lock_one fuel hosts s = (Ok None, s').
Proof.
  intros Hc Hm Hdown. revert s Hc. induction fuel as [|fuel IH]; intros s Hc; [by eexists|].
  pose proof (lock_one_round d fuel hosts s Hc Hm) as H1.
  destruct (filter _ _) as [|[i h] l] eqn:El.
  - destruct H1 as [fs ->]. unfold bind, dcc_lock_pause. simpl s_pr.
    destruct (p_others (s_pr s)); apply IH; by destruct Hc.
  - exfalso.
    assert ((i, h) ∈ filter (λ x, slot_free d (sh_locks (s_sh s)) (p_pid (s_pr s)) x = true) (slots_from 50 0 hosts))
      as Hx by (rewrite El; left).
    apply list_elem_of_filter in Hx as [Hfree Hx]. unfold slot_free in Hfree. simpl in Hfree.
    apply andb_true_iff in Hfree as [Hup _].
    apply list_elem_of_bind in Hx as (j & Hx & Hj). apply elem_of_seqZ in Hj.
    apply list_elem_of_fmap in Hx as (h2 & [= -> ->] & Hx). apply list_elem_of_filter in Hx as [Hlt Hx].
    eapply Forall_forall in Hdown as [?|?]; [| |exact Hx]; [congruence|lia].
Qed.

(** ** Backing off from hosts that failed *)

(** The period in force, in seconds. *)
Definition period (p : proc) : Z :=
  match p_env p !! "DISTCC_BACKOFF_PERIOD"%cs with Some bp => atoi bp | None => p_backoff_period p end.

(** When the host was last marked; 0 if it is not marked. *)
Definition marked (d : cstr) (files : gmap cstr Z) (h : dcc_hostdef) : Z :=
  default 0%Z (lock_name d "backoff"%cs h 0 ≫= λ f, files !! f).

Lemma lock_name_mode d l h i : is_Some (mode h) → is_Some (lock_name d l h i).
Proof. unfold lock_name. by destruct (mode h) as [[]|]; intros []. Qed.

Lemma make_lock_filename_coop d l h i f s :
  coop d (s_pr s) → lock_name d l h i = Some f → dcc_make_lock_filename l h i s = (Ok f, s).
Proof.
  intros [Hm Hs Hd] Hf. unfold dcc_make_lock_filename, bind, gets. rewrite Hd, Hf.
  by rewrite malloc_or_ok by done.
Qed.

Lemma sys_fault_coop d s : coop d (s_pr s) → sys_fault s = (Ok None, s).
Proof. intros [Hm Hs Hd]. unfold sys_fault. by rewrite Hs. Qed.

Lemma check_backoff_coop d h s :
  coop d (s_pr s) → is_Some (mode h) →
  dcc_check_backoff h s =
    (if decide (p_backoff_period (s_pr s) ≤ sh_now (s_sh s) - marked d (sh_files (s_sh s)) h)%Z
     then Ok () else Fail EXIT_BUSY, s).
Proof.
  intros Hc Hm. destruct (lock_name_mode d "backoff"%cs h 0 Hm) as [f Hf].
  unfold dcc_check_backoff, dcc_check_timefile, marked. rewrite Hf. simpl. unfold bind at 1 2.
  rewrite (make_lock_filename_coop d _ _ _ f) by done. unfold bind. rewrite (sys_fault_coop d) by done.
  unfold gets. simpl. destruct (sh_files (s_sh s) !! f) as [t|]; simpl;
    (case Z.ltb_spec; intros; case_decide; first [done|lia]).
Qed.

Lemma remove_loop_coop d hosts s :
  coop d (s_pr s) → Forall (λ h, is_Some (mode h)) hosts →
  remove_loop hosts s =
    (Ok (filter (λ h, (p_backoff_period (s_pr s) ≤ sh_now (s_sh s) - marked d (sh_files (s_sh s)) h)%Z) hosts), s).
Proof.
  intros Hc Hm. induction Hm as [|h hosts Hh Hm IH]; [done|]. simpl. unfold bind, attempt.
  rewrite (check_backoff_coop d) by done. rewrite filter_cons. by destruct (decide _); rewrite IH.
Qed.

Lemma remove_disliked_coop d hosts s :
  coop d (s_pr s) → Forall (λ h, is_Some (mode h)) hosts → period (s_pr s) ≠ 0%Z →
  ∃ s', dcc_remove_disliked hosts s =
    (Ok (filter (λ h, (period (s_pr s) ≤ sh_now (s_sh s) - marked d (sh_files (s_sh s)) h)%Z) hosts), s') ∧
    s_sh s' = s_sh s.
Proof.
  intros Hc Hm Hp. unfold dcc_remove_disliked, backoff_env, period, bind, gets, mod_pr, modify in *.
  destruct (p_env (s_pr s) !! _) as [bp|]; simpl.
  - rewrite (proj2 (Z.eqb_neq _ _)) by done.
    rewrite (remove_loop_coop d) by (done || by destruct Hc). eexists. split; reflexivity.
  - rewrite (proj2 (Z.eqb_neq _ _)) by done. rewrite (remove_loop_coop d) by done. eauto.
Qed.

(** The same state with the clock at [t]. *)
Definition at_time (t : Z) (s : sched) : sched :=
  Sched (Shared (sh_files (s_sh s)) (sh_locks (s_sh s)) t) (s_pr s).

Lemma backoff_enabled {A} p (m m' : M sched A) s :
  period p ≠ 0%Z → s_pr s = p →
  (let! bp := backoff_env in
   match bp with Some bp => if (atoi bp =? 0)%Z then m' else m | None => m end) s = m s.
Proof.
  intros Hp <-. unfold period in Hp. unfold backoff_env, bind, gets.
  destruct (p_env (s_pr s) !! _) as [bp|]; [|done]. by rewrite (proj2 (Z.eqb_neq _ _)).
Qed.

Lemma disliked_coop d h f s :
  coop d (s_pr s) → lock_name d "backoff"%cs h 0 = Some f → period (s_pr s) ≠ 0%Z →
  ∃ s', dcc_disliked_host h s = (Ok (), s') ∧ s_pr s' = s_pr s ∧
    sh_files (s_sh s') = <[f := sh_now (s_sh s)]> (sh_files (s_sh s)).
Proof.
  intros Hc Hf Hp. unfold dcc_disliked_host.
  rewrite (backoff_enabled (s_pr s)) by done. unfold dcc_mark_timefile, bind at 1.
  rewrite (make_lock_filename_coop d _ _ _ f) by done. destruct Hc as [Hm Hs Hd].
  destruct s as [[files locks now] [pid mem sys dir fds env per ls rs ph others]]. simpl in *. subst.
  unfold dcc_open_lockfile, open_creat, touch, close_lock, sys_fault, mod_sh, mod_pr, bind, gets, modify, ret.
  simpl. rewrite !lookup_insert_eq. simpl. rewrite !lookup_insert_eq. simpl.
  unfold release. simpl. destruct (files !! f) as [t|]; simpl; (destruct (decide _); simpl); eexists;
    (split; [reflexivity|]); simpl; rewrite delete_insert_id by apply new_fd_fresh;
    rewrite ?insert_insert_eq; done.
Qed.

Lemma enjoyed_coop d h f s :
  coop d (s_pr s) → lock_name d "backoff"%cs h 0 = Some f → period (s_pr s) ≠ 0%Z →
  ∃ s', dcc_enjoyed_host h s = (Ok (), s') ∧ s_pr s' = s_pr s ∧ sh_now (s_sh s') = sh_now (s_sh s) ∧
    sh_files (s_sh s') = delete f (sh_files (s_sh s)).
Proof.
  intros Hc Hf Hp. unfold dcc_enjoyed_host. rewrite (backoff_enabled (s_pr s)) by done.
  unfold dcc_remove_timefile, bind. rewrite (make_lock_filename_coop d _ _ _ f) by done.
  rewrite (sys_fault_coop d) by done. eexists. by split.
Qed.

(** C38.  A host that failed is left out of the list for the backoff period and
    comes back afterwards, and a success brings it back at once (provided the
    clock itself is past one period); all this goes for every entry of the
    list that names the same machine.  Entries that name another machine are
    kept or dropped as before. *)
Theorem backoff_respected (d : cstr) (h : dcc_hostdef) (hosts : list dcc_hostdef) (s : sched) (t : Z) :
  coop d (s_pr s) → is_Some (mode h) → Forall (λ h, is_Some (mode h)) hosts → period (s_pr s) ≠ 0%Z →
  ∃ s1 l s2 s3 l' s4,
    dcc_disliked_host h s = (Ok (), s1) ∧ dcc_remove_disliked hosts (at_time t s1) = (Ok l, s2) ∧
    dcc_enjoyed_host h (at_time t s1) = (Ok (), s3) ∧ dcc_remove_disliked hosts s3 = (Ok l', s4) ∧
    ∀ h', if decide (lock_name d "backoff"%cs h' 0 = lock_name d "backoff"%cs h 0)
      then (h' ∈ l ↔ h' ∈ hosts ∧ (period (s_pr s) ≤ t - sh_now (s_sh s))%Z) ∧
           (h' ∈ l' ↔ h' ∈ hosts ∧ (period (s_pr s) ≤ t)%Z)
      else (h' ∈ l ↔ h' ∈ hosts ∧ (period (s_pr s) ≤ t - marked d (sh_files (s_sh s)) h')%Z) ∧
           (h' ∈ l' ↔ h' ∈ l).
Proof.
  intros Hc Hh Hm Hp. destruct (lock_name_mode d "backoff"%cs h 0 Hh) as [f Hf].
  destruct (disliked_coop d h f s Hc Hf Hp) as (s1 & E1 & P1 & F1).
  destruct (remove_disliked_coop d hosts (at_time t s1)) as (s2 & E2 & _); [simpl; by rewrite P1|done|simpl; by rewrite P1|].
  destruct (enjoyed_coop d h f (at_time t s1)) as (s3 & E3 & P3 & N3 & F3); [simpl; by rewrite P1|done|simpl; by rewrite P1|].
  destruct (remove_disliked_coop d hosts s3) as (s4 & E4 & _); [by rewrite P3; simpl; rewrite P1|done|by rewrite P3; simpl; rewrite P1|].
  eexists s1, _, s2, s3, _, s4. do 4 (split; [done|]). intros h'.
  assert (period (s_pr s3) = period (s_pr s) ∧ sh_now (s_sh s3) = t ∧
    sh_files (s_sh s3) = delete f (<[f := sh_now (s_sh s)]> (sh_files (s_sh s)))) as (-> & -> & ->).
  { rewrite P3, N3, F3. simpl. by rewrite P1, F1. }
  change (s_pr (at_time t s1)) with (s_pr s1). change (sh_now (s_sh (at_time t s1))) with t.
  change (sh_files (s_sh (at_time t s1))) with (sh_files (s_sh s1)). rewrite P1, F1, Hf. unfold marked.
  destruct (decide _) as [E|Hne]; rewrite !list_elem_of_filter.
  - rewrite E. simpl. rewrite lookup_insert_eq, lookup_delete_eq. simpl. rewrite Z.sub_0_r. tauto.
  - destruct (lock_name d "backoff"%cs h' 0) as [f'|]; simpl; [|tauto].
    rewrite lookup_delete_ne, lookup_insert_ne by congruence. tauto.
Qed.

(** ** Examples *)

Definition ex_host (name : cstr) (slots : Z) : dcc_hostdef :=
  HostDef (Some DCC_MODE_TCP) None (Some name) 3632 None true slots name 1 DCC_COMPRESS_NONE
    DCC_CPP_ON_CLIENT false.

Definition ex_proc (pid : nat) (others : list (shared → shared)) : proc :=
  Proc pid [] [] (inl "/l"%cs) ∅ ∅ 60 0 0 DCC_PHASE_STARTUP others.

Definition ex_hosts : list dcc_hostdef := [ex_host "a"%cs 2; ex_host "b"%cs 1].

(** Process 1 holds the first slot of "a", another process that of "b". *)
Definition ex_shared : shared :=
  Shared ∅ {["/l/cpu_tcp_a_3632_0"%cs := 1; "/l/cpu_tcp_b_3632_0"%cs := 2]} 1000.

Definition ex_lock_step : sched :=
  (dcc_lock_host "cpu"%cs (ex_host "a"%cs 2) 0 (Sched (Shared ∅ ∅ 0) (ex_proc 1 []))).2.

Definition ex_system : system := System (Shared ∅ ∅ 0) (<[1 := ex_proc 1 []]> ∅) ∅.

Lemma host_capacity_witness :
  let y := after ex_system 1 ex_lock_step (<[(1, 0) := "/l/cpu_tcp_a_3632_0"%cs]> ∅) in
  size (filter (λ kv, kv.2 ∈ omap (λ i, lock_name "/l"%cs "cpu"%cs (ex_host "a"%cs 2) (Z.of_nat i)) (seq 0 1))
    (y_claims y)) ≤ 1 ∧
  ∀ k k' f, y_claims y !! k = Some f → y_claims y !! k' = Some f → k = k'.
Proof.
  intros y. apply (host_capacity "/l"%cs (Shared ∅ ∅ 0)).
  apply (rtc_l _ _ ex_system); [by apply (step_start "/l"%cs (System (Shared ∅ ∅ 0) ∅ ∅) 1 (ex_proc 1 []))|].
  apply rtc_once.
  apply (step_lock "/l"%cs ex_system 1 (ex_proc 1 [])
    (ex_host "a"%cs 2) 0 "/l/cpu_tcp_a_3632_0"%cs (Ok 0) ex_lock_step); try reflexivity.
  by intros fd.
Defined.

Lemma ex_modes : Forall (λ h, is_Some (mode h)) ex_hosts.
Proof. by repeat constructor. Qed.

(** Process 3 gets the second slot of "a". *)
Lemma lock_one_first_free_witness :
  ∃ s', dcc_lock_one 1 ex_hosts (Sched ex_shared (ex_proc 3 [])) = (Ok (Some (ex_host "a"%cs 2, 0)), s').
Proof.
  pose proof (lock_one_first_free "/l"%cs 0 ex_hosts (Sched ex_shared (ex_proc 3 []))
    ltac:(by split) ex_modes) as H.
  vm_compute in H. destruct H as (s' & E & _). by exists s'.
Defined.

Lemma lock_one_returns_witness :
  ∃ h' fd s', dcc_lock_one 2 [ex_host "b"%cs 1]
    (Sched ex_shared (ex_proc 3 [set_sh_locks ∅])) = (Ok (Some (h', fd)), s') ∧
    h' ∈ [ex_host "b"%cs 1] ∧ is_up h' = true.
Proof.
  apply (lock_one_returns "/l"%cs [ex_host "b"%cs 1] [] [] (set_sh_locks ∅) 0 (ex_host "b"%cs 1)
    "/l/cpu_tcp_b_3632_0"%cs (Sched ex_shared (ex_proc 3 [set_sh_locks ∅]))); try done.
  - by repeat constructor.
  - vm_compute. left.
Defined.

Lemma lock_one_never_witness :
  ∃ s', dcc_lock_one 100 [ex_host "a"%cs (-1)] (Sched ex_shared (ex_proc 3 [])) = (Ok None, s').
Proof.
  apply (lock_one_never "/l"%cs); [done|by repeat constructor|].
  constructor; [right; simpl; lia|constructor].
Defined.

Lemma backoff_respected_witness :
  ∃ s1 l s2 s3 l' s4,
    dcc_disliked_host (ex_host "a"%cs 2) (Sched ex_shared (ex_proc 3 [])) = (Ok (), s1) ∧
    dcc_remove_disliked ex_hosts (at_time 1010 s1) = (Ok l, s2) ∧
    dcc_enjoyed_host (ex_host "a"%cs 2) (at_time 1010 s1) = (Ok (), s3) ∧
    dcc_remove_disliked ex_hosts s3 = (Ok l', s4) ∧ ex_host "a"%cs 2 ∉ l ∧ ex_host "a"%cs 2 ∈ l'.
Proof.
  destruct (backoff_respected "/l"%cs (ex_host "a"%cs 2) ex_hosts (Sched ex_shared (ex_proc 3 [])) 1010
    ltac:(done) ltac:(by eexists) ex_modes ltac:(done)) as (s1 & l & s2 & s3 & l' & s4 & E1 & E2 & E3 & E4 & H).
  exists s1, l, s2, s3, l', s4. do 4 (split; [done|]).
  specialize (H (ex_host "a"%cs 2)). rewrite decide_True in H by done. destruct H as [H1 H2].
  rewrite H1, H2. split; [intros [_ ?]; by vm_compute in H|]. split; [left|]. by vm_compute.
Defined.
