(* ===== verification/Dotd.v ===== *)
(** * dotd.c: dependency files

    Where the client expects the .d file of a compilation, and the rewriting
    of a .d file made on the server into the one the client wants. *)

From S2P Require Import Prelude CLib Util Filename Argv Arg ArgScan World Io Rpc Tempfile Bulk Results.

(** ** Rewriting *)

(** [hay_size] is the size of the buffer that holds [haystack]. *)
Definition dcc_strgraft (haystack : cstr) (hay_size : nat) (needle new_needle : cstr) : outcome cstr :=
  match strstr haystack needle with
  | None => Ok haystack
  | Some found =>
      if decide (hay_size < length haystack - length needle + length new_needle + 1) then Fail 1
      else Ok (take found haystack ++ new_needle ++ drop (found + length needle) haystack)
  end.

(** The loop that cuts [root_dir] out of the buffer, from [found] on. *)
Fixpoint trim_loop (fuel : nat) (root_dir buf : cstr) (pos : nat) : outcome cstr :=
  match fuel with
  | 0 => Undef
  | S fuel =>
      match strstr (drop pos buf) root_dir with
      | None => Ok buf
      | Some i =>
          let found := pos + i in
          trim_loop fuel root_dir (take found buf ++ drop (found + length root_dir) buf) found
      end
  end.

(** Buffered input: one line of at most [n - 1] characters, and whether the
    end of the file was met on the way. *)
Fixpoint take_line (n : nat) (s : cstr) : cstr :=
  match n, s with
  | S n, c :: s => c :: (if ceqb c "010" then [] else take_line n s)
  | _, _ => []
  end.

Inductive fgets_result := FgetsEof | FgetsLine (l : cstr) (eof : bool).

Definition fgets (n fd : nat) : M world (fgets_result + errno) :=
  fs_call (let! d := gets (λ w, c_fds (w_core w) !! fd) in
           match d with
           | None => ret (inr EOTHER)
           | Some d =>
               match fd_in d with
               | [] => ret (inl FgetsEof)
               | s =>
                   let l := take_line (n - 1) s in
                   do! modify_core (λ c, set_fds (<[fd := Fd (drop (length l) s) (fd_out d) (fd_file d)]>
                                                    (c_fds c)) c);
                   ret (inl (FgetsLine l ((length l <? n - 1) &&
                                          negb (bool_decide ("010"%char ∈ l)))))
               end
           end).

(** Buffered output: everything, or an error. *)
Definition fputs (fd : nat) (s : cstr) : M world (unit + errno) :=
  fs_call (let! d := gets (λ w, c_fds (w_core w) !! fd) in
           match d with
           | None => ret (inr EOTHER)
           | Some d => do! modify_core (put fd d s); ret (inl ())
           end).

Section cleanup.
(** [MAX_DOTD_LINE_LEN], twice the system's MAXPATHLEN. *)
Context (MAX_DOTD_LINE_LEN : nat).

Definition lift {A} (o : outcome A) : M world A := throw o.

(** Both files are closed when the loop gives up. *)
Definition give_up_dotd {A} (dotd tmp_dotd : nat) : M world A :=
  let! _ := sys_close dotd in
  let! _ := sys_close tmp_dotd in
  fail 1.

Fixpoint cleanup_lines (fuel : nat) (dotd tmp_dotd : nat) (root_dir client_out server_out : cstr) :
    M world unit :=
  match fuel with
  | 0 => ub
  | S fuel =>
      let! r := fgets MAX_DOTD_LINE_LEN dotd in
      match r with
      | inr _ => fail 1
      | inl FgetsEof =>
          let! _ := sys_close dotd in
          let! r := sys_close tmp_dotd in
          match r with inr _ => fail 1 | inl _ => ret () end
      | inl (FgetsLine l eof) =>
          let buf := c_string l in
          if negb (bool_decide ("010"%char ∈ buf)) && negb eof then give_up_dotd dotd tmp_dotd
          else
            match dcc_strgraft buf (2 * MAX_DOTD_LINE_LEN) server_out client_out with
            | Ok buf =>
                let! buf := lift (trim_loop (S (length buf)) root_dir buf 0) in
                let! r := fputs tmp_dotd buf in
                match r with
                | inr _ => give_up_dotd dotd tmp_dotd
                | inl _ => cleanup_lines fuel dotd tmp_dotd root_dir client_out server_out
                end
            | _ => give_up_dotd dotd tmp_dotd
            end
      end
  end.

(** The name of the new file. *)
Definition dcc_cleanup_dotd (pid tv_sec tv_usec : Z) (dotd_fname root_dir client_out server_out : cstr) :
    M world cstr :=
  let! r := sys_open_read dotd_fname in
  match r with
  | inr _ => fail 1
  | inl dotd =>
      let! n := attempt (dcc_make_tmpnam pid tv_sec tv_usec
                           (default [] (dcc_find_basename (Some dotd_fname))) ".d"%cs) in
      match n with
      | inr e => let! _ := sys_close dotd in fail e
      | inl new_dotd_fname =>
          let! r := sys_open_trunc new_dotd_fname in
          match r with
          | inr _ => let! _ := sys_close dotd in fail 1
          | inl tmp_dotd =>
              let! text := gets (λ w, c_fds (w_core w) !! dotd) in
              do! cleanup_lines (S (length (default [] (fd_in <$> text)))) dotd tmp_dotd
                    root_dir client_out server_out;
              ret new_dotd_fname
          end
      end
  end.
End cleanup.

(** ** Where the .d file goes *)

Record dotd_scan := DotdScan {
  needs_dotd : bool;
  sets_dotd_target : bool;
  deps_output : option cstr;
  has_dash_o : bool
}.

(** The loop over the arguments. *)
Fixpoint dotd_loop (a : cvec) (st : dotd_scan) : outcome dotd_scan :=
  match a with
  | Null :: _ => Ok st
  | Str s :: rest =>
      if streq s "-MT"%cs || streq s "-MQ"%cs then
        match rest with
        | _ :: rest => dotd_loop rest (DotdScan (needs_dotd st) true (deps_output st) (has_dash_o st))
        | [] => Undef
        end
      else
        let st := if strncmp0 s "-M"%cs 2
                  then DotdScan true (sets_dotd_target st) (deps_output st) (has_dash_o st) else st in
        if streq s "-MF"%cs then
          match rest with
          | Str f :: rest =>
              dotd_loop rest (DotdScan (needs_dotd st) (sets_dotd_target st) (Some f) (has_dash_o st))
          | Null :: rest =>
              dotd_loop rest (DotdScan (needs_dotd st) (sets_dotd_target st) None (has_dash_o st))
          | _ => Undef
          end
        else if strncmp0 s "-MF"%cs 3 then
          dotd_loop rest (DotdScan (needs_dotd st) (sets_dotd_target st) (Some (drop 3 s)) (has_dash_o st))
        else if streq s "-o"%cs then
          dotd_loop rest (DotdScan (needs_dotd st) (sets_dotd_target st) (deps_output st) true)
        else dotd_loop rest st
  | _ => Undef
  end.

(** The name derived from the object or the source file. *)
Definition dotd_from_name (name : cstr) : M world cstr :=
  match dcc_find_extension name with
  | Some dot => ret (take dot name ++ ".d"%cs)
  | None =>
      if decide (length name = 0) then ub
      else
        do! malloc_or EXIT_OUT_OF_MEMORY;
        ret (if ceqb (cget name (length name - 1)) "." then name ++ "d"%cs else name ++ ".d"%cs)
  end.

Record dotd_info := DotdInfo {
  di_fname : cstr;
  di_needs : bool;
  di_sets_target : bool;
  di_target : option cstr
}.

Definition dcc_get_dotd_info `{Config} (argv : cvec) : M world dotd_info :=
  let! env_var := getenv "DEPENDENCIES_OUTPUT"%cs in
  let! st := throw (dotd_loop argv (DotdScan (bool_decide (is_Some env_var)) false None false)) in
  let out f target := ret (DotdInfo f (needs_dotd st) (sets_dotd_target st) target) in
  match deps_output st, env_var with
  | Some f, _ => do! malloc_or EXIT_OUT_OF_MEMORY; out f None
  | None, Some e =>
      do! malloc_or EXIT_OUT_OF_MEMORY;
      match strchr e " " with
      | Some i => out (take i e) (Some (drop (i + 1) e))
      | None => out e None
      end
  | None, None =>
      (* the return code of [dcc_scan_args] is not looked at *)
      let! r := attempt (dcc_scan_args_full argv) in
      match r with
      | inr _ => ub
      | inl sc =>
          match (if has_dash_o st then sc_output sc else sc_input sc) with
          | None => ub
          | Some name =>
              do! malloc_or EXIT_OUT_OF_MEMORY;
              let! f := dotd_from_name name in out f None
          end
      end
  end.

(** ** What the rewriting does *)

(** [cut root s t]: [t] is [s] without the occurrences of [root], found from
    left to right. *)
Inductive cut (root : cstr) : cstr → cstr → Prop :=
| cut_none s : absent root s → cut root s s
| cut_first a b t : leftmost root a b → cut root b t → cut root (a ++ root ++ b) (a ++ t).

(** [grafted x y s t]: [t] is [s] with [y] in the place of the first [x]. *)
Inductive grafted (x y : cstr) : cstr → cstr → Prop :=
| grafted_none s : absent x s → grafted x y s s
| grafted_first a b : leftmost x a b → grafted x y (a ++ x ++ b) (a ++ y ++ b).

(** The graft is done, or the buffer is too small for it. *)
Lemma strgraft_spec l size x y :
  match dcc_strgraft l size x y with
  | Ok g => grafted x y l g
  | Fail _ => size < length l - length x + length y + 1
  | _ => False
  end.
Proof.
  unfold dcc_strgraft. destruct (strstr l x) as [i|] eqn:E; [|by apply grafted_none, strstr_absent].
  apply strstr_leftmost in E as (a & b & -> & -> & Hl). destruct (decide _); [done|].
  rewrite take_app_length, <- drop_drop, drop_app_length, drop_app_length. by apply grafted_first.
Qed.

(** The loop on the buffer computes it; it ends because every turn makes the
    buffer shorter. *)
Lemma trim_loop_cut fuel root pre s :
  root ≠ [] → length s < fuel →
  ∃ t, cut root s t ∧ trim_loop fuel root (pre ++ s) (length pre) = Ok (pre ++ t).
Proof.
  intros Hr. revert pre s. induction fuel as [|fuel IH]; intros pre s Hl; [lia|]. simpl.
  rewrite drop_app_length. destruct (strstr s root) as [i|] eqn:E;
    [|exists s; split; [by apply cut_none, strstr_absent|done]].
  apply strstr_leftmost in E as (a & b & -> & -> & Hf). rewrite !length_app in Hl.
  destruct (IH (pre ++ a) b) as (t & Ht & Et).
  { destruct root; [done|]. simpl in Hl. lia. }
  exists (a ++ t). split; [by apply cut_first|].
  rewrite take_app_add, take_app_length, <- Nat.add_assoc, drop_app_add, <- drop_drop, !drop_app_length.
  rewrite length_app in Et. by rewrite Et, <- app_assoc.
Qed.

(** An empty [root_dir] is found again and again at the same place. *)
Lemma trim_loop_empty fuel buf pos : trim_loop fuel [] buf pos = Undef.
Proof.
  revert buf pos. induction fuel as [|fuel IH]; intros buf pos; [done|]. simpl.
  destruct (strstr (drop pos buf) []) as [i|] eqn:E; [apply IH|].
  by apply strstr_None with (a := []) (b := drop pos buf) in E.
Qed.

(** What becomes of a line. *)
Definition rewritten (root client server l o : cstr) : Prop := ∃ g, grafted server client l g ∧ cut root g o.

(** A line of the file: a newline at its end and nowhere else, no NUL, short
    enough to be read at once and, rewritten, for the buffer. *)
Record good_line (max : nat) (client server l : cstr) : Prop := GoodLine {
  gl_body : ∃ b, l = b ++ NL ∧ "010"%char ∉ b;
  gl_nul : nul_free l;
  gl_len : length l < max;
  gl_fits : length l + length client < 2 * max
}.

Lemma take_line_good b rest n : "010"%char ∉ b → length b < n → take_line n (b ++ NL ++ rest) = b ++ NL.
Proof.
  revert n. induction b as [|c b IH]; intros n Hb Hn; (destruct n as [|n]; [simpl in *; lia|]).
  - done.
  - simpl in *. apply not_elem_of_cons in Hb as [Hc Hb].
    destruct (ceqb c "010") eqn:E; [apply ceqb_true in E; congruence|]. by rewrite IH by (done || lia).
Qed.

Section cleanup_proof.
Context (max : nat) (c : core) (rd wr : nat) (name : cstr).
Context (Hrw : rd ≠ wr) (Hrd : c_fds c !! rd = None) (Hwr : c_fds c !! wr = None).

(** While the loop runs: [text] is still to be read, [out] was written. *)
Definition dotd_core (text out : cstr) : core :=
  set_fds (<[wr := Fd [] out (Some name)]> (<[rd := Fd text [] None]> (c_fds c)))
    (set_files (<[name := NFile out]> (c_files c)) c).

Lemma fgets_line_runs client server l rest out :
  good_line max client server l →
  runs (fgets max rd) (Ok (inl (FgetsLine l false))) (dotd_core (l ++ rest) out) (dotd_core rest out).
Proof.
  intros [(b & -> & Hb) _ Hl _]. rewrite length_app in Hl. simpl in Hl.
  apply runs_fs_call. eapply runs_bind; [apply (runs_gets (λ c, c_fds c !! rd))|].
  cbn beta. unfold dotd_core at 1. simpl c_fds. rewrite lookup_insert_ne, lookup_insert_eq by done.
  simpl fd_in. rewrite <- app_assoc. destruct (b ++ NL ++ rest) as [|x s] eqn:Es; [by destruct b|].
  rewrite <- Es, take_line_good by (done || lia).
  eapply runs_bind; [apply runs_modify_core|]. cbn beta.
  assert ("010"%char ∈ b ++ NL) as Hin by (apply elem_of_app; right; left).
  rewrite (bool_decide_eq_true_2 _ Hin), andb_false_r.
  rewrite app_assoc, drop_app_length. simpl.
  match goal with |- runs _ _ ?a ?b => replace a with b; [apply runs_ret|] end.
  unfold dotd_core, set_fds, set_files. simpl. f_equal.
  rewrite (insert_insert_ne _ rd wr) by done. by rewrite insert_insert_eq.
Qed.

Lemma fputs_runs s text out :
  runs (fputs wr s) (Ok (inl ())) (dotd_core text out) (dotd_core text (out ++ s)).
Proof.
  apply runs_fs_call. eapply runs_bind; [apply (runs_gets (λ c, c_fds c !! wr))|].
  cbn beta. unfold dotd_core at 1. simpl c_fds. rewrite lookup_insert_eq.
  eapply runs_bind; [apply runs_modify_core|]. cbn beta.
  match goal with |- runs _ _ ?a ?b => replace a with b; [apply runs_ret|] end.
  unfold put, dotd_core, set_fds, set_files, append_file. simpl.
  by rewrite lookup_insert_eq, !insert_insert_eq.
Qed.

Lemma dotd_eof_runs out :
  runs (fgets max rd) (Ok (inl FgetsEof)) (dotd_core [] out) (dotd_core [] out).
Proof.
  apply runs_fs_call. eapply runs_bind; [apply (runs_gets (λ c, c_fds c !! rd))|].
  cbn beta. unfold dotd_core at 1. simpl c_fds. rewrite lookup_insert_ne, lookup_insert_eq by done.
  apply runs_ret.
Qed.

Lemma cleanup_lines_runs root client server lines fuel out :
  root ≠ [] → Forall (good_line max client server) lines → length lines < fuel →
  ∃ outs, Forall2 (rewritten root client server) lines outs ∧
    runs (cleanup_lines max fuel rd wr root client server) (Ok ()) (dotd_core (concat lines) out)
      (set_files (<[name := NFile (out ++ concat outs)]> (c_files c)) c).
Proof.
  intros Hr Hg. revert fuel out. induction Hg as [|l lines Hl Hg IH]; intros fuel out Hf;
    (destruct fuel as [|fuel]; [simpl in Hf; lia|]).
  - exists []. split; [constructor|]. cbn [cleanup_lines concat]. rewrite app_nil_r.
    eapply runs_bind; [apply dotd_eof_runs|]. cbn beta iota.
    eapply runs_bind; [eapply close_runs; simpl; by rewrite lookup_insert_ne, lookup_insert_eq|].
    eapply runs_bind; [eapply close_runs; simpl; by rewrite lookup_delete_ne, lookup_insert_eq|].
    cbn beta iota. match goal with |- runs _ _ ?a ?b => replace a with b; [apply runs_ret|] end.
    unfold dotd_core, set_fds, set_files. simpl. f_equal.
    rewrite delete_insert_ne, delete_insert_id, delete_insert_id by (done || by rewrite delete_insert_id).
    done.
  - pose proof Hl as [(b & Eb & Hb) Hnul Hlen Hfit].
    pose proof (strgraft_spec l (2 * max) server client) as Hgr.
    destruct (dcc_strgraft l (2 * max) server client) as [g|?|?|] eqn:Eg; [|lia|done..].
    destruct (trim_loop_cut (S (length g)) root [] g Hr) as (o & Ho & Et); [lia|].
    change ([] ++ g) with g in Et. change ([] ++ o) with o in Et. change (length []) with 0 in Et.
    simpl in Hf. destruct (IH fuel (out ++ o)) as (outs & Houts & Hruns); [lia|].
    exists (o :: outs). split; [constructor; [by exists g|done]|].
    cbn [cleanup_lines concat]. eapply runs_bind; [by eapply fgets_line_runs|]. cbn beta iota.
    assert (c_string l = l) as ->.
    { by apply c_string_nul_free. }
    assert ("010"%char ∈ l) as Hin by (rewrite Eb; apply elem_of_app; right; left).
    rewrite (bool_decide_eq_true_2 _ Hin). simpl negb. simpl andb. cbv iota. rewrite Eg.
    eapply runs_bind; [unfold lift; rewrite Et; apply runs_throw|]. cbn beta.
    eapply runs_bind; [apply fputs_runs|]. cbn beta iota. by rewrite app_assoc.
Qed.
End cleanup_proof.

Lemma concat_length_ge max client server lines :
  Forall (good_line max client server) lines → length lines ≤ length (concat lines).
Proof.
  induction 1 as [|l lines [(b & -> & _) _ _ _] _ IH]; simpl; [done|].
  rewrite !length_app. simpl. lia.
Qed.

(** C32.  [dcc_cleanup_dotd] turns the server's .d file into a new temporary file
    in which, line by line, the first occurrence of the server's output name is
    replaced by the client's and every occurrence of the server-side root
    directory, found from left to right, is cut; it touches no other file and leaves no descriptor open. *)
Theorem cleanup_dotd_rewrites (max : nat) (pid tv_sec tv_usec : Z) (fname root client server : cstr)
    (lines : list cstr) (w : world) :
  io_ok w → cleanups_wf (w_core w) → c_files (w_core w) !! tmp_top (w_env w) = Some NDir →
  (Z.of_nat (size (c_files (w_core w))) < 2 ^ 32)%Z →
  root ≠ [] → Forall (good_line max client server) lines →
  c_files (w_core w) !! fname = Some (NFile (concat lines)) →
  ∃ name outs w', dcc_cleanup_dotd max pid tv_sec tv_usec fname root client server w = (Ok name, w') ∧
    c_files (w_core w) !! name = None ∧
    Forall2 (rewritten root client server) lines outs ∧
    c_files (w_core w') = <[name := NFile (concat outs)]> (c_files (w_core w)) ∧
    c_fds (w_core w') = c_fds (w_core w).
Proof.
  intros Hw Hwf Htop Hsz Hr Hg Hf. unfold dcc_cleanup_dotd.
  destruct (sys_open_read_runs fname (concat lines) (w_core w) Hf w eq_refl Hw) as (w1 & E1 & C1 & Hw1 & Env1).
  rewrite (bind_Ok _ _ _ _ _ E1). cbv beta iota. set (rd := new_fd (c_fds (w_core w))) in *.
  assert (c_fds (w_core w) !! rd = None) as Hrd by apply new_fd_fresh.
  destruct (make_tmpnam_ok pid tv_sec tv_usec (default [] (dcc_find_basename (Some fname))) ".d"%cs w1)
    as (name & w2 & E2 & Hn & _ & Hw2 & _ & C2); [done|..].
  { by rewrite C1. }
  { by rewrite C1, Env1. }
  { by rewrite C1. }
  assert (∀ (m : M world cstr) a s s', m s = (Ok a, s') → attempt m s = (Ok (inl a), s')) as Hatt
    by (intros m a s s' E; unfold attempt; by rewrite E).
  rewrite (bind_Ok _ _ _ _ _ (Hatt _ _ _ _ E2)). cbv beta iota. rewrite C1 in C2, Hn. simpl in Hn.
  set (c2 := registered name (set_files (<[name := NFile []]> (c_files (w_core w))) (w_core w))) in *.
  assert (w_core w2 = opened rd (Fd (concat lines) [] None) c2) as C2' by (by rewrite C2).
  set (wr := new_fd (c_fds (w_core w2))).
  assert (rd ≠ wr) as Hne.
  { intros E. pose proof (new_fd_fresh (c_fds (w_core w2))) as Hx. fold wr in Hx.
    rewrite <- E, C2' in Hx. simpl in Hx. by rewrite lookup_insert_eq in Hx. }
  destruct (open_trunc_runs name (w_core w2)) with (w := w2) as (w3 & E3 & C3 & Hw3 & _); [|done..|].
  { rewrite C2'. simpl. by rewrite lookup_insert_eq. }
  rewrite (bind_Ok _ _ _ _ _ E3). cbv beta iota. fold wr. fold wr in C3.
  assert (w_core w3 = dotd_core c2 rd wr name (concat lines) []) as C3'.
  { rewrite C3, C2'. unfold dotd_core, opened, set_fds, set_files. simpl. done. }
  unfold bind at 1, gets. rewrite C3'. unfold dotd_core at 1. simpl c_fds.
  rewrite lookup_insert_ne, lookup_insert_eq by done. simpl fd_in. simpl default.
  destruct (cleanup_lines_runs max c2 rd wr name Hne) with (root := root) (client := client) (server := server)
    (lines := lines) (fuel := S (length (concat lines))) (out := @nil ascii) as (outs & Houts & Hruns); try done.
  { pose proof (new_fd_fresh (c_fds (w_core w2))) as Hx. fold wr in Hx. rewrite C2' in Hx. simpl in Hx.
    by rewrite lookup_insert_ne in Hx. }
  { pose proof (concat_length_ge _ _ _ _ Hg). lia. }
  destruct (Hruns w3 C3' Hw3) as (w4 & E4 & C4 & _).
  exists name, outs, w4. rewrite (bind_Ok _ _ _ _ _ E4). split; [done|]. split; [done|]. split; [done|].
  rewrite C4. simpl. by rewrite insert_insert_eq.
Qed.

(** ** Dependency lines *)

(** [root] occurs in [a ++ root] only at the end. *)
Definition clean (root a : cstr) : Prop := strstr (a ++ root) root = Some (length a).

Lemma clean_app root a b : clean root a → strstr (a ++ root ++ b) root = Some (length a).
Proof.
  intros Hc. destruct (strstr (a ++ root ++ b) root) as [i|] eqn:E.
  - pose proof (strstr_first _ _ _ a b E eq_refl) as Hle.
    destruct (decide (i = length a)) as [->|Hne]; [done|]. exfalso.
    apply strstr_Some_app in E as (x & y & Exy & ->).
    assert (∃ y', a ++ root = x ++ root ++ y') as [y' E'].
    { rewrite !app_assoc in Exy. apply app_eq_inv in Exy as [(k & E1 & E2)|(k & E1 & E2)].
      - exists k. by rewrite app_assoc.
      - exists []. rewrite app_nil_r. assert (length k = 0) as ->%nil_length_inv; [|by rewrite app_nil_r in E1].
        apply (f_equal length) in E1. rewrite !length_app in E1. lia. }
    apply (strstr_first _ _ _ x y') in Hc; [lia|done].
  - exfalso. apply (proj1 (strstr_None _ _) E a b eq_refl).
Qed.

Lemma clean_none root a : root ≠ [] → clean root a → strstr a root = None.
Proof.
  intros Hr Hc. apply strstr_None. intros x y ->.
  assert (((x ++ root ++ y) ++ root) = x ++ root ++ (y ++ root)) as E by by rewrite <- !app_assoc.
  apply (strstr_first _ _ _ _ _ Hc) in E. rewrite !length_app in E. destruct root; [done|]. simpl in E. lia.
Qed.

(** The text [a0 root a1 root a2 ...]. *)
Definition with_root (root a0 : cstr) (segs : list cstr) : cstr := a0 ++ concat ((app root) <$> segs).

Lemma cut_segments root a0 segs :
  root ≠ [] → clean root a0 → Forall (clean root) segs →
  cut root (with_root root a0 segs) (a0 ++ concat segs).
Proof.
  intros Hr H0 Hs. revert a0 H0. induction Hs as [|a segs Ha Hs IH]; intros a0 H0; unfold with_root; simpl.
  - rewrite app_nil_r. apply cut_none, strstr_absent. by apply clean_none.
  - rewrite <- app_assoc. pose proof (clean_app root a0 (a ++ concat (app root <$> segs)) H0) as E.
    apply cut_first; [|by apply IH]. intros a' b'. by apply strstr_first.
Qed.

Lemma cut_det root s t t' : cut root s t → cut root s t' → t = t'.
Proof.
  intros H. revert t'. induction H as [s E|a b t E H IH]; intros t' H'; inversion H' as [? E'|a' b' t'' E' H'' Es Et]; subst.
  - done.
  - by destruct (E a' b').
  - by destruct (E' a b).
  - pose proof (E' _ _ Es). apply eq_sym, E in Es as ?. apply app_inj_1 in Es as [-> ?%app_inv_head]; [|lia].
    subst. f_equal. by apply IH.
Qed.

(** The dependency line the server made, "server-name a0 root/a1 root/a2
    ...", becomes the line "client-name a0 /a1 /a2 ..." the client would have
    got, when the root directory occurs nowhere else in it and the buffer is
    large enough. *)
Lemma dotd_line_rewritten (size : nat) (root client server a0 : cstr) (segs : list cstr) :
  root ≠ [] → clean root (client ++ a0) → Forall (clean root) segs →
  length (server ++ with_root root a0 segs) + length client < size →
  ∃ g, dcc_strgraft (server ++ with_root root a0 segs) size server client = Ok g ∧
    trim_loop (S (length g)) root g 0 = Ok (client ++ a0 ++ concat segs).
Proof.
  intros Hr Hc Hs Hsz. unfold dcc_strgraft.
  assert (strstr (server ++ with_root root a0 segs) server = Some 0) as ->.
  { destruct (strstr _ server) as [i|] eqn:E.
    - apply (strstr_first _ _ _ [] (with_root root a0 segs)) in E; [|done]. simpl in E. f_equal. lia.
    - exfalso. apply (proj1 (strstr_None _ _) E [] (with_root root a0 segs) eq_refl). }
  rewrite decide_False by lia. rewrite Nat.add_0_l, drop_app_length. simpl take. simpl app.
  eexists. split; [done|].
  destruct (trim_loop_cut (S (length (client ++ with_root root a0 segs))) root [] (client ++ with_root root a0 segs))
    as (t & Ht & Et); [done|lia|].
  change ([] ++ t) with t in Et. etransitivity; [exact Et|]. f_equal.
  eapply cut_det; [exact Ht|]. rewrite app_assoc. unfold with_root. rewrite app_assoc.
  by apply cut_segments.
Qed.

(** ** The name of the .d file *)

(** [name] with its extension, if it has one, changed to ".d". *)
Inductive dotd_named : cstr → cstr → Prop :=
| named_ext b e : e ≠ [] → "."%char ∉ e → dotd_named (b ++ "."%cs ++ e) (b ++ ".d"%cs)
| named_dot b : dotd_named (b ++ "."%cs) (b ++ ".d"%cs)
| named_plain b : b ≠ [] → "."%char ∉ b → dotd_named b (b ++ ".d"%cs).

Lemma dotd_from_name_spec name w : mem_ok w → name ≠ [] → nul_free name →
  ∃ f, dotd_from_name name w = (Ok f, w) ∧ dotd_named name f.
Proof.
  intros Hm Hne Hnul. unfold dotd_from_name, dcc_find_extension.
  destruct (strrchr name ".") as [dot|] eqn:E.
  - apply strrchr_Some in E as (b & e & -> & He & ->). destruct e as [|x e].
    + unfold cget at 1. rewrite lookup_ge_None_2 by (rewrite length_app; simpl; lia). simpl.
      rewrite decide_False by (rewrite length_app; simpl; lia).
      rewrite (bind_Ok _ _ _ () w) by (by apply malloc_or_ok).
      unfold cget. rewrite length_app, lookup_app_r by (simpl; lia). simpl.
      replace (length b + 1 - 1 - length b) with 0 by lia. simpl.
      eexists. split; [done|]. rewrite <- app_assoc. apply named_dot.
    + assert (cget (b ++ "."%char :: x :: e) (length b + 1) = x) as ->.
      { by rewrite cget_app_r. }
      assert (ceqb x NUL = false) as ->.
      { apply ceqb_false. intros ->. apply Hnul. apply elem_of_app. right. right. left. }
      eexists. split; [done|]. rewrite take_app_length. by apply named_ext.
  - apply strrchr_None in E. rewrite decide_False by (destruct name; [done|simpl; lia]).
    rewrite (bind_Ok _ _ _ () w) by (by apply malloc_or_ok).
    assert (ceqb (cget name (length name - 1)) "." = false) as ->.
    { apply ceqb_false. intros Ec. apply E. unfold cget in Ec.
      destruct (name !! (length name - 1)) as [x|] eqn:El; [|done]. simpl in Ec. subst.
      by eapply list_elem_of_lookup_2. }
    eexists. split; [done|]. by apply named_plain.
Qed.

Lemma dotd_loop_plain args st :
  Forall (λ s, s ≠ "-MT"%cs ∧ s ≠ "-MQ"%cs ∧ ¬ "-MF"%cs `prefix_of` s) args →
  dotd_loop (vec args) st =
    Ok (DotdScan (needs_dotd st || existsb (str_startswith "-M"%cs) args) (sets_dotd_target st)
          (deps_output st) (has_dash_o st || argv_contains args "-o"%cs)).
Proof.
  intros Ha. revert st. induction Ha as [|s args (H1 & H2 & H3) Ha IH]; intros st.
  { destruct st. simpl. by rewrite !orb_false_r. }
  change (vec (s :: args)) with (Str s :: vec args). cbn [dotd_loop].
  rewrite (proj2 (streq_false s "-MT"%cs)), (proj2 (streq_false s "-MQ"%cs)) by done. simpl orb. cbv iota.
  assert (strncmp0 s "-MF"%cs 3 = false) as E3.
  { apply not_true_iff_false. intros E. apply H3. rewrite strncmp0_sym in E. by apply strncmp0_prefix. }
  assert (streq s "-MF"%cs = false) as ->.
  { apply streq_false. intros ->. by apply H3. }
  rewrite E3. cbn [existsb argv_contains]. unfold str_startswith at 1. rewrite (strncmp0_sym "-M"%cs).
  change (length "-M"%cs) with 2.
  destruct (strncmp0 s "-M"%cs 2), (streq s "-o"%cs); rewrite IH; simpl; f_equal; f_equal;
    by rewrite ?orb_true_r, ?orb_assoc.
Qed.

(** For a command line the client accepts, without -MT, -MQ or -MF and
    without DEPENDENCIES_OUTPUT, the .d file is named after the output file if
    there is an argument "-o", else after the input file, the extension
    replaced by ".d"; and one is expected iff some option starts with -M. *)
Lemma dotd_info_default `{Config} (args : list cstr) (i o : cstr) (nv : cvec) (w : world) :
  mem_ok w → w_env w !! "DEPENDENCIES_OUTPUT"%cs = None →
  Forall (λ s, s ≠ "-MT"%cs ∧ s ≠ "-MQ"%cs ∧ ¬ "-MF"%cs `prefix_of` s) args →
  dcc_scan_args (vec args) w = (Ok (Some i, Some o, nv), w) →
  i ≠ [] → o ≠ [] → nul_free i → nul_free o →
  ∃ f, dcc_get_dotd_info (vec args) w =
      (Ok (DotdInfo f (existsb (str_startswith "-M"%cs) args) false None), w) ∧
    dotd_named (if argv_contains args "-o"%cs then o else i) f.
Proof.
  intros Hm He Ha Hs Hi Ho Hni Hno.
  unfold dcc_get_dotd_info, getenv. unfold bind at 1, gets at 1. rewrite He.
  unfold bind at 1, throw. rewrite dotd_loop_plain by done. cbn [needs_dotd sets_dotd_target deps_output has_dash_o].
  rewrite bool_decide_eq_false_2 by (by intros []). simpl orb.
  apply bind_inv_Ok in Hs as (sc & w1 & E1 & E2).
  destruct (sc_ret sc =? 0)%Z; [|done]. injection E2 as E2 E3 _ ->.
  rewrite (bind_Ok _ _ _ (inl sc) w) by (unfold attempt; by rewrite E1).
  assert ((if argv_contains args "-o"%cs then sc_output sc else sc_input sc) =
    Some (if argv_contains args "-o"%cs then o else i)) as -> by (by destruct (argv_contains _ _)).
  rewrite (bind_Ok _ _ _ () w) by (by apply malloc_or_ok).
  destruct (dotd_from_name_spec (if argv_contains args "-o"%cs then o else i) w) as (f & Ef & Hf);
    [done|by destruct (argv_contains _ _)..|].
  exists f. split; [|done]. by rewrite (bind_Ok _ _ _ _ _ Ef).
Qed.

(** ** Examples *)

(** Corners of the same function: an output given as "-osub/x.o" is not
    seen, so the .d file is sought under the name of the source; a dot in a
    directory name counts as an extension; "-MTfoo" makes a .d file expected
    but is not taken as a target; and a "-MT" at the end of the command line
    makes the loop read past the terminating NULL. *)
Lemma dotd_info_quirks :
  let info args := (dcc_get_dotd_info (H := usual_config) (vec args) ex_tmp).1 in
  info ["cc"; "-MD"; "-osub/x.o"; "-c"; "x.c"]%cs = Ok (DotdInfo "x.d"%cs true false None) ∧
  info ["cc"; "-MD"; "-o"; "out.dir/x"; "-c"; "x.c"]%cs = Ok (DotdInfo "out.d"%cs true false None) ∧
  info ["cc"; "-MTfoo"; "-o"; "x.o"; "-c"; "x.c"]%cs = Ok (DotdInfo "x.d"%cs true false None) ∧
  info ["cc"; "-c"; "x.c"; "-MT"]%cs = Undef.
Proof. vm_compute. done. Qed.

(** An empty root directory makes [dcc_cleanup_dotd] loop forever on any
    line: the cutting loop finds it again wherever it stands. *)
Lemma trim_empty_root_never (fuel : nat) (buf : cstr) (pos : nat) :
  trim_loop fuel [] buf pos = Undef.
Proof. apply trim_loop_empty. Qed.

Lemma dotd_info_default_witness :
  ∃ f, dcc_get_dotd_info (H := usual_config) (vec ["cc"; "-MD"; "-c"; "x.c"; "-o"; "sub/x.o"]%cs) ex_tmp =
      (Ok (DotdInfo f true false None), ex_tmp) ∧ dotd_named "sub/x.o"%cs f.
Proof.
  apply (@dotd_info_default usual_config ["cc"; "-MD"; "-c"; "x.c"; "-o"; "sub/x.o"]%cs "x.c"%cs "sub/x.o"%cs
    (vec ["cc"; "-MD"; "-c"; "x.c"; "-o"; "sub/x.o"]%cs ++ [Garbage; Garbage]) ex_tmp);
    try reflexivity; try done.
  - repeat (constructor; [split_and!; [done..|]; by intros [? [=]]|]). constructor.
  - by apply (bool_decide_eq_true_1 _).
  - by apply (bool_decide_eq_true_1 _).
Defined.

Lemma dotd_line_rewritten_witness :
  ∃ g, dcc_strgraft "/tmp/s.o: /root9/a.c /root9/a.h"%cs 100 "/tmp/s.o"%cs "a.o"%cs = Ok g ∧
    trim_loop (S (length g)) "/root9"%cs g 0 = Ok "a.o: /a.c /a.h"%cs.
Proof.
  apply (dotd_line_rewritten 100 "/root9"%cs "a.o"%cs "/tmp/s.o"%cs ": "%cs ["/a.c "; "/a.h"]%cs);
    [done|reflexivity|by repeat constructor|simpl; lia].
Defined.

Definition ex_dotd : world :=
  World (Core ∅ {["/tmp"%cs := NDir; "/s/x.d"%cs := NFile ("s.o: /r/x.c"%cs ++ NL)]} [] 10 DCC_PHASE_STARTUP)
        [] [] [] [] 0 ∅.

Lemma cleanup_dotd_rewrites_witness :
  ∃ name outs w', dcc_cleanup_dotd 20 1 2 3 "/s/x.d"%cs "/r"%cs "x.o"%cs "s.o"%cs ex_dotd = (Ok name, w') ∧
    c_files (w_core ex_dotd) !! name = None ∧
    Forall2 (rewritten "/r"%cs "x.o"%cs "s.o"%cs) ["s.o: /r/x.c"%cs ++ NL] outs ∧
    c_files (w_core w') = <[name := NFile (concat outs)]> (c_files (w_core ex_dotd)) ∧
    c_fds (w_core w') = c_fds (w_core ex_dotd).
Proof.
  apply (cleanup_dotd_rewrites 20 1 2 3 "/s/x.d"%cs "/r"%cs "x.o"%cs "s.o"%cs ["s.o: /r/x.c"%cs ++ NL] ex_dotd);
    try reflexivity; try done.
  - constructor; [constructor..|reflexivity|by right].
  - unfold cleanups_wf. simpl. lia.
  - constructor; [|constructor]. split; simpl; [|by apply (bool_decide_eq_true_1 _)|lia..].
    exists "s.o: /r/x.c"%cs. split; [done|]. by apply (bool_decide_eq_true_1 _).
Defined.
