(* ===== verification/Request.v ===== *)
(** * remote.c, serve.c: the request

    What the client sends for a file it preprocessed itself, and what the
    server makes of it before it runs the compiler.  The theorem at the end
    puts the components together: argument scanning and rewriting, the wire
    format, file transfer, temporary files. *)

From S2P Require Import Prelude CLib Util Filename Argv Arg ArgScan ArgRewrite World.
From S2P Require Import Io Rpc Tempfile Bulk Results Hosts.

Section request.
Context {Cfg : Config} {LZO : Lzo}.

(** ** remote.c *)

Definition dcc_send_header (cwd : option cstr) (net_fd : nat) (argv : cvec) (host : dcc_hostdef) :
    M world unit :=
  do! dcc_x_req_header net_fd (protover host);
  do! match cpp_where host with
      | DCC_CPP_ON_SERVER => dcc_x_cwd cwd net_fd
      | DCC_CPP_ON_CLIENT => ret ()
      end;
  dcc_x_argv net_fd "ARGC"%cs "ARGV"%cs argv.

(** The sending half of [dcc_compile_remote] when the client preprocesses and
    its preprocessor has succeeded. *)
Definition send_request (net_fd : nat) (argv : cvec) (cpp_fname : cstr) (host : dcc_hostdef) :
    M world unit :=
  do! dcc_note_state DCC_PHASE_SEND;
  do! dcc_send_header None net_fd argv host;
  do! dcc_x_file net_fd cpp_fname "DOTI"%cs (compr host);
  dcc_note_state DCC_PHASE_COMPILE.

(** ** serve.c *)

(** getpid and two readings of the clock. *)
Record seed := Seed { sd_pid : Z; sd_sec : Z; sd_usec : Z; sd_sec' : Z; sd_usec' : Z }.

Definition dcc_input_tmpnam (pid sec usec : Z) (orig_input : cstr) : M world cstr :=
  let input_exten := dcc_find_extension orig_input ≫= λ dot, dcc_preproc_exten (drop dot orig_input) in
  dcc_make_tmpnam pid sec usec "distccd"%cs (default ".tmp"%cs input_exten).

Definition dcc_r_token_file (in_fd : nat) (token fname : cstr) (compr : dcc_compress) : M world unit :=
  let! i_size := dcc_r_token_int in_fd token in
  dcc_r_file_timed in_fd fname i_size compr.

(** What [dcc_run_job] knows when it is about to run the compiler. *)
Record job := Job {
  j_protover : Z;
  j_compr : dcc_compress;
  j_argv : cvec;
  j_orig_input : cstr;
  j_orig_output : cstr;
  j_temp_i : cstr;
  j_temp_o : cstr
}.

(** The part of [dcc_run_job] that reads the request; [None] when the request
    is for preprocessing on the server. *)
Definition receive_request (sd : seed) (in_fd : nat) : M world (option job) :=
  let! protover := dcc_r_request_header in_fd in
  let '(_, compr, cpp_where) := dcc_get_features_from_protover protover in
  match cpp_where with
  | DCC_CPP_ON_SERVER => ret None
  | DCC_CPP_ON_CLIENT =>
      let! argv := dcc_r_argv in_fd "ARGC"%cs "ARGV"%cs in
      let! sc := dcc_scan_args argv in
      let '(input, output, tweaked_argv) := sc in
      match input, output with
      | Some orig_input, Some orig_output =>
          let! b1 := malloc in
          let! b2 := malloc in
          if negb (b1 && b2) then fail EXIT_OUT_OF_MEMORY
          else
            let! temp_o := dcc_make_tmpnam (sd_pid sd) (sd_sec sd) (sd_usec sd) "distccd"%cs ".o"%cs in
            let! temp_i := dcc_input_tmpnam (sd_pid sd) (sd_sec' sd) (sd_usec' sd) orig_input in
            do! dcc_r_token_file in_fd "DOTI"%cs temp_i compr;
            let! argv := dcc_set_input tweaked_argv temp_i in
            let! argv := dcc_set_output argv temp_o in
            ret (Some (Job protover compr argv orig_input orig_output temp_i temp_o))
      | _, _ => ub
      end
  end.

(** ** The request on the wire *)

Definition request (v : Z) (args : list cstr) (body : cstr) : cstr :=
  ("DIST"%cs ++ hex8 v) ++
  (("ARGC"%cs ++ hex8 (Z.of_nat (length args))) ++ (args ≫= string_bytes "ARGV"%cs)) ++
  file_bytes "DOTI"%cs body.

Context {LAWS : LzoLaws}.

Lemma send_request_runs fd d args tl cpp_fname host data body c :
  cpp_where host = DCC_CPP_ON_CLIENT → (0 ≤ protover host < 2 ^ 32)%Z →
  Forall wire_str args → (Z.of_nat (length args) < 2 ^ 32)%Z →
  (Z.of_nat (length data) < 2 ^ 32)%Z → wire_body (compr host) data body →
  c_fds c !! fd = Some d → fd_file d = None → c_files c !! cpp_fname = Some (NFile data) →
  runs (send_request fd (vec args ++ tl) cpp_fname host) (Ok ()) c
    (set_phase DCC_PHASE_COMPILE (put fd d (request (protover host) args body) c)).
Proof.
  intros Hw Hv Ha Hl Hdl Hb Hd Hdf Hf. unfold send_request.
  eapply runs_bind; [apply runs_modify_core|].
  eapply runs_bind.
  { unfold dcc_send_header. rewrite Hw.
    apply (sends_bind (λ fd, dcc_x_req_header fd (protover host))
      (λ fd, do! ret (); dcc_x_argv fd "ARGC"%cs "ARGV"%cs (vec args ++ tl)) ("DIST"%cs ++ hex8 (protover host))
      (("ARGC"%cs ++ hex8 (Z.of_nat (length args))) ++ (args ≫= string_bytes "ARGV"%cs))); [| |exact Hd].
    - unfold dcc_x_req_header. intros fd' d' c' Hd'.
      rewrite <- (u32_id (protover host)) at 2 by lia. by apply x_token_int_sends.
    - intros fd' d' c' Hd'. eapply runs_bind; [apply runs_ret|]. by apply x_argv_sends. }
  eapply runs_bind.
  { apply (x_file_runs fd (Fd (fd_in d) (fd_out d ++ ("DIST"%cs ++ hex8 (protover host)) ++
      ("ARGC"%cs ++ hex8 (Z.of_nat (length args))) ++ (args ≫= string_bytes "ARGV"%cs)) (fd_file d))
      cpp_fname "DOTI"%cs (compr host) data body); try done; [apply put_lookup|].
    unfold put. rewrite Hdf. done. }
  rewrite put_put by done. rewrite <- app_assoc. exact (runs_modify_core _ _).
Qed.

(** ** Names of temporary files *)

Lemma hex8_no_slash v : "/"%char ∉ hex8 v.
Proof.
  intros Hin. unfold hex8 in Hin. apply list_elem_of_fmap in Hin as (sh & E & Hsh).
  assert (0 ≤ sh)%Z as Hs by (repeat (apply elem_of_cons in Hsh as [->|Hsh]; [done|]); by apply elem_of_nil in Hsh).
  destruct (hex_at_spec v sh (2 ^ sh)) as (D & _); [done..|]. by rewrite <- E in D.
Qed.

Lemma preproc_exten_no_slash x e : dcc_preproc_exten x = Some e → "/"%char ∉ e.
Proof.
  unfold dcc_preproc_exten. repeat case_match; intros; simplify_eq; by apply (bool_decide_eq_true_1 _).
Qed.

(** The last slash is the one before the base name. *)
Lemma strrchr_slash d b : "/"%char ∉ b → strrchr (d ++ "/"%cs ++ b) "/" = Some (length d).
Proof. intros Hb. apply strrchr_Some. by exists d, b. Qed.

Definition tmp_base (suffix : cstr) (bits : Z) : cstr :=
  "distccd_"%cs ++ hex8 (Z.land bits 4294967295) ++ suffix.

Lemma tmp_name_base d suffix bits :
  tmp_name d "distccd"%cs suffix bits = d ++ "/"%cs ++ tmp_base suffix bits.
Proof. done. Qed.

Lemma tmp_base_no_slash suffix bits : "/"%char ∉ suffix → "/"%char ∉ tmp_base suffix bits.
Proof.
  intros Hs [H|[H|H]%elem_of_app]%elem_of_app; [|by apply hex8_no_slash in H|done].
  by apply (bool_decide_eq_true_2 _) in H.
Qed.

Lemma tmp_name_dirname d suffix bits :
  "/"%char ∉ suffix → dcc_truncate_to_dirname (tmp_name d "distccd"%cs suffix bits) = d.
Proof.
  intros Hs. rewrite tmp_name_base. unfold dcc_truncate_to_dirname.
  rewrite strrchr_slash by by apply tmp_base_no_slash. by rewrite take_app_length.
Qed.

Lemma tmp_name_not_local d suffix bits :
  "/"%char ∉ suffix → dcc_source_needs_local (tmp_name d "distccd"%cs suffix bits) = 0%Z.
Proof.
  intros Hs. rewrite tmp_name_base. unfold dcc_source_needs_local, dcc_find_basename.
  rewrite strrchr_slash by by apply tmp_base_no_slash.
  rewrite cget_app_r. replace (cget ("/"%cs ++ tmp_base suffix bits) 1) with "d"%char by done.
  rewrite <- drop_drop, drop_app_length. done.
Qed.

Lemma tmp_name_dash d suffix bits :
  d ≠ [] → dash d = false → dash (tmp_name d "distccd"%cs suffix bits) = false.
Proof. intros Hd. rewrite tmp_name_base. by destruct d. Qed.

Lemma tmp_top_ne env : tmp_top env ≠ [].
Proof. unfold tmp_top. by destruct (env !! _) as [[|? ?]|]. Qed.

Lemma registered_wf f c : cleanups_wf c → cleanups_wf (registered f c).
Proof.
  unfold cleanups_wf, registered, grown_size. simpl. rewrite length_app. simpl.
  repeat case_decide; lia.
Qed.

(** ** The rewriting of the command line *)

(** A command line the server can redirect: one source word, the options that
    take an argument apart, and an output that [dcc_set_output] can find. *)
Record redirectable (args : list cstr) (us1 us2 : list wunit) (i o : cstr) (args' : list cstr) : Prop :=
Redirectable {
  rd_units : units args = Some (us1 ++ W1 i :: us2);
  rd_head : head_ok args;
  rd_dash : dash i = false;
  rd_source : dcc_is_source i = true;
  rd_first : Forall (λ w, dcc_is_source w = false) (words us1);
  rd_scan : scan_spec args (items (us1 ++ W1 i :: us2)) = Some (i, o, args');
  rd_no_dasho : Forall no_dasho_arg (us1 ++ W1 i :: us2);
  rd_out : outputs (items (us1 ++ W1 i :: us2)) = [] ∨ Exists dasho_unit (us1 ++ W1 i :: us2)
}.

Lemma dasho_unit_replace us1 us2 i ifname :
  dash i = false → Exists dasho_unit (us1 ++ W1 i :: us2) → Exists dasho_unit (us1 ++ W1 ifname :: us2).
Proof.
  intros Hi. rewrite !Exists_app, !Exists_cons. intros [?|[[_ E]|?]]; [by left| |by right; right].
  by rewrite Hi in E.
Qed.

Lemma final_units_dasho us o :
  Forall no_dasho_arg us → outputs (items us) = [] ∨ Exists dasho_unit us →
  Forall no_dasho_arg (final_units us o) ∧ Exists dasho_unit (final_units us o).
Proof.
  intros Hn Ho. unfold final_units. destruct (outputs (items us)).
  - split.
    + apply Forall_app. split; [done|]. by repeat constructor.
    + apply Exists_app. right. by left.
  - destruct Ho as [|Ho]; done.
Qed.

Lemma str_words_inj (l k : list cstr) : Str <$> l = Str <$> k → l = k.
Proof. revert k. induction l as [|a l IH]; intros [|b k] E; simplify_eq/=; [done|]. f_equal. auto. Qed.

(** Scanning, redirecting the input and the output, and scanning again; nothing
    but the names has changed. *)
Lemma redirect args us1 us2 i o args' ifname ofname :
  redirectable args us1 us2 i o args' →
  dash ifname = false → dcc_is_source ifname = true → dcc_source_needs_local ifname = 0%Z →
  ofname ≠ [] → ofname ≠ "-"%cs →
  ∃ nv argv1 us3, ∀ w : world, mem_ok w →
    dcc_scan_args (vec args) w = (Ok (Some i, Some o, nv), w) ∧
    dcc_set_input nv ifname w = (Ok argv1, w) ∧
    dcc_set_output argv1 ofname w = (Ok (vec (words us3) ++ spare args args'), w) ∧
    units (words us3) = Some us3 ∧ anonymous <$> us3 = anonymous <$> final_units (us1 ++ W1 i :: us2) o ∧
    ∀ tl, ∃ nv', dcc_scan_args (vec (words us3) ++ tl) w = (Ok (Some ifname, Some ofname, nv'), w).
Proof.
  intros [Hu Hh Hdi Hsi Hpre Hs Hno Ho] Hdf Hsf Hnf Hof Hof'.
  destruct (final_units_dasho _ o Hno Ho) as [Hno' Ho'].
  pose proof (λ w : world, set_input_final args us1 us2 i o ifname args' (spare args args') w) as HI.
  destruct (HI ex_tmp) as (us2' & Hfin & _ & Hwf & Hh' & Hs'); try done. rewrite Hfin in Hno', Ho'.
  set (us' := us1 ++ W1 ifname :: us2') in *.
  assert (Forall no_dasho_arg us') as Hno2.
  { apply Forall_app in Hno' as [? [_ ?]%Forall_cons]. apply Forall_app. by split; [|constructor]. }
  assert (units (words us') = Some us') as Hu' by by apply units_of_words.
  assert (Exists dasho_unit us') as Ho2 by by apply (dasho_unit_replace _ _ i).
  pose proof (λ w : world, set_output_final (words us') us' ifname o ofname (words us') (spare args args') w) as HO.
  destruct (HO ex_tmp) as (ws & Ew & Hscan); try done; [by right|].
  rewrite (set_output_units us' ofname (spare args args') ex_tmp) in Ew by done.
  destruct (set_out_units us' ofname) as [us3|] eqn:E3; [|done].
  assert (ws = words us3) as ->.
  { injection Ew as Ew. apply app_inv_tail in Ew. unfold vec in Ew. apply app_inv_tail in Ew. symmetry. by apply str_words_inj. }
  destruct (set_out_units_items us' us3 ofname Hof Hwf E3) as [Hwf3 _].
  exists (vec args' ++ spare args args'), (vec (words us') ++ spare args args'), us3.
  intros w Hm. split_and!.
  - pose proof (scan_args_run args (us1 ++ W1 i :: us2) [] w Hm Hu Hh) as E. rewrite app_nil_r, Hs in E. exact E.
  - destruct (HI w) as (us2'' & Hfin' & E & _); try done. rewrite Hfin in Hfin'.
    apply app_inv_head in Hfin'. injection Hfin' as <-. exact E.
  - by rewrite (set_output_units us' ofname (spare args args') w Hm Hwf Hno2), E3.
  - by apply units_of_words.
  - rewrite (anonymous_set_out _ _ _ Hof E3), Hfin. unfold us'. rewrite !fmap_app. cbn [fmap list_fmap]. f_equal. f_equal.
    by apply anonymous_source.
  - intros tl. eexists. by apply Hscan.
Qed.

(** ** Receiving *)

Lemma r_request_header_reads v :
  (0 ≤ v ≤ 3)%Z → reads dcc_r_request_header ("DIST"%cs ++ hex8 v) v.
Proof.
  intros Hv. unfold dcc_r_request_header. rewrite <- (app_nil_r (_ ++ _)).
  apply (reads_bind (λ fd, dcc_r_token_int fd "DIST"%cs)
    (λ vers _, if (DCC_VER_3 <? vers)%Z then fail EXIT_PROTOCOL_ERROR else ret vers) _ _ v).
  - apply r_token_int_reads; [done|lia].
  - unfold DCC_VER_3. destruct (Z.ltb_spec 3 v); [lia|]. apply reads_nil.
Qed.

Lemma r_token_file_runs fd d fname compr data body rest c :
  wire_body compr data body → (Z.of_nat (length data) < 2 ^ 32)%Z → (Z.of_nat (length body) < 2 ^ 32)%Z →
  can_create fname c → c_fds c !! fd = Some d → fd_in d = file_bytes "DOTI"%cs body ++ rest →
  runs (dcc_r_token_file fd "DOTI"%cs fname compr) (Ok ()) c (received fd d rest fname data c).
Proof.
  intros Hb Hl Hbl Hcc Hd Hin. unfold dcc_r_token_file, dcc_r_file_timed.
  unfold file_bytes in Hin. rewrite <- !app_assoc in Hin.
  eapply runs_bind.
  { apply (token_reads_runs fd d "DOTI"%cs (Z.of_nat (length body)) (body ++ rest)); [done|lia|done|exact Hin]. }
  cbn beta.
  unfold received. rewrite <- (taken_taken fd d (body ++ rest) rest).
  exact (r_file_runs fd _ fname compr data body rest (taken fd d (body ++ rest) c)
    Hb Hl Hcc (taken_lookup _ _ _ _) eq_refl).
Qed.

Lemma malloc_io_ok w : io_ok w → malloc w = (Ok true, w).
Proof. intros Hw. unfold malloc. simpl. by rewrite io_mem. Qed.

(** The version and the features of a host that leaves preprocessing to the
    client. *)
Definition client_cpp (host : dcc_hostdef) : Prop :=
  cpp_where host = DCC_CPP_ON_CLIENT ∧ compr host ≠ DCC_COMPRESS_INVALID ∧
  protover host = dcc_get_protover_from_features (compr host) DCC_CPP_ON_CLIENT.

Lemma client_cpp_features host : client_cpp host →
  (1 ≤ protover host ≤ 2)%Z ∧
  dcc_get_features_from_protover (protover host) = (0%Z, compr host, DCC_CPP_ON_CLIENT).
Proof. intros (_ & Hc & ->). by destruct (compr host). Qed.

(** The two temporary files of a job. *)
Lemma job_tmpnams sd i w :
  dcc_is_source i = true → io_ok w → cleanups_wf (w_core w) →
  c_files (w_core w) !! tmp_top (w_env w) = Some NDir →
  (Z.of_nat (size (c_files (w_core w))) + 1 < 2 ^ 32)%Z →
  ∃ temp_o temp_i w3 w4 e bo bi,
    dcc_find_extension i ≫= (λ dot, dcc_preproc_exten (drop dot i)) = Some e ∧ "/"%char ∉ e ∧
    dcc_make_tmpnam (sd_pid sd) (sd_sec sd) (sd_usec sd) "distccd"%cs ".o"%cs w = (Ok temp_o, w3) ∧
    dcc_input_tmpnam (sd_pid sd) (sd_sec' sd) (sd_usec' sd) i w3 = (Ok temp_i, w4) ∧ io_ok w4 ∧
    temp_o = tmp_name (tmp_top (w_env w)) "distccd"%cs ".o"%cs bo ∧
    temp_i = tmp_name (tmp_top (w_env w)) "distccd"%cs e bi ∧
    c_files (w_core w) !! temp_o = None ∧ c_files (w_core w) !! temp_i = None ∧ temp_i ≠ temp_o ∧
    c_files (w_core w4) = <[temp_i := NFile []]> (<[temp_o := NFile []]> (c_files (w_core w))) ∧
    c_fds (w_core w4) = c_fds (w_core w) ∧ w_env w4 = w_env w ∧ cleanups_wf (w_core w4) ∧
    c_cleanups (w_core w4) = c_cleanups (w_core w) ++ [temp_o; temp_i].
Proof.
  intros Hi Hw Hwf Htop Hsz.
  destruct (make_tmpnam_ok (sd_pid sd) (sd_sec sd) (sd_usec sd) "distccd"%cs ".o"%cs w)
    as (temp_o & w3 & E3 & No & (bo & Eo) & Hw3 & V3 & C3); [done..|lia|].
  destruct (preproc_exten_source i [] Hi) as (dot & e & Edot & Ee & _ & _).
  destruct (make_tmpnam_ok (sd_pid sd) (sd_sec' sd) (sd_usec' sd) "distccd"%cs e w3)
    as (temp_i & w4 & E4 & Ni & (bi & Ei) & Hw4 & V4 & C4).
  { done. }
  { rewrite C3. by apply registered_wf. }
  { rewrite C3, V3. simpl. rewrite lookup_insert_ne; [done|]. intros E'. by rewrite E', Htop in No. }
  { rewrite C3. simpl. rewrite map_size_insert_None by done. lia. }
  rewrite V3 in Ei. rewrite C3 in Ni, C4. simpl in Ni.
  assert (temp_i ≠ temp_o ∧ c_files (w_core w) !! temp_i = None) as [Hne Ni0].
  { destruct (decide (temp_i = temp_o)) as [->|]; [by rewrite lookup_insert_eq in Ni|].
    by rewrite lookup_insert_ne in Ni. }
  exists temp_o, temp_i, w3, w4, e, bo, bi. rewrite C4. unfold dcc_input_tmpnam. rewrite Edot. simpl. rewrite Ee.
  split_and!; try done; [by eapply preproc_exten_no_slash|congruence| |simpl; by rewrite <- app_assoc].
  apply registered_wf. change (cleanups_wf (registered temp_o (w_core w))). by apply registered_wf.
Qed.

(** The server's half. *)
Lemma receive_request_ok (host : dcc_hostdef) (args : list cstr) us1 us2 i o args' (data body rest : cstr)
    (sd : seed) (fd : nat) (d : fdesc) (w : world) :
  client_cpp host → redirectable args us1 us2 i o args' →
  Forall wire_str args → (Z.of_nat (length args) < 2 ^ 32)%Z →
  (Z.of_nat (length data) < 2 ^ 32)%Z → (Z.of_nat (length body) < 2 ^ 32)%Z →
  wire_body (compr host) data body →
  io_ok w → cleanups_wf (w_core w) → c_files (w_core w) !! tmp_top (w_env w) = Some NDir →
  dash (tmp_top (w_env w)) = false → (Z.of_nat (size (c_files (w_core w))) + 1 < 2 ^ 32)%Z →
  c_fds (w_core w) !! fd = Some d → fd_in d = request (protover host) args body ++ rest →
  ∃ j w', receive_request sd fd w = (Ok (Some j), w') ∧
    j_orig_input j = i ∧ j_orig_output j = o ∧ j_compr j = compr host ∧
    c_files (w_core w) !! j_temp_i j = None ∧ c_files (w_core w) !! j_temp_o j = None ∧
    j_temp_i j ≠ j_temp_o j ∧
    c_files (w_core w') = <[j_temp_i j := NFile data]> (<[j_temp_o j := NFile []]> (c_files (w_core w))) ∧
    c_fds (w_core w') = <[fd := Fd rest (fd_out d) (fd_file d)]> (c_fds (w_core w)) ∧
    io_ok w' ∧ w_env w' = w_env w ∧ cleanups_wf (w_core w') ∧ j_protover j = protover host ∧
    c_cleanups (w_core w') = c_cleanups (w_core w) ++ [j_temp_o j; j_temp_i j] ∧
    (∃ e b, j_temp_o j = tmp_name (tmp_top (w_env w)) "distccd"%cs e b) ∧
    (∃ e b, j_temp_i j = tmp_name (tmp_top (w_env w)) "distccd"%cs e b) ∧
    ∃ us3 tl, j_argv j = vec (words us3) ++ tl ∧ units (words us3) = Some us3 ∧
      anonymous <$> us3 = anonymous <$> final_units (us1 ++ W1 i :: us2) o ∧
      ∀ (w : world) tl, mem_ok w → ∃ nv, dcc_scan_args (vec (words us3) ++ tl) w = (Ok (Some (j_temp_i j), Some (j_temp_o j), nv), w).
Proof.
  intros Hh Hrd Ha Hal Hdl Hbl Hb Hw Hwf Htop Hdash Hsz Hd Hin.
  destruct (client_cpp_features host Hh) as [Hv Hfeat].
  unfold request in Hin. rewrite <- !app_assoc in Hin. rewrite (app_assoc "DIST"%cs) in Hin.
  set (rest2 := file_bytes "DOTI"%cs body ++ rest) in *. set (rest1 := "ARGC"%cs ++ _) in *.
  (* the header and the arguments *)
  destruct (r_request_header_reads (protover host) ltac:(lia) fd d (w_core w) rest1 Hd Hin w eq_refl Hw)
    as (w1 & E1 & C1 & Hw1 & V1).
  unfold receive_request. rewrite (bind_Ok _ _ _ _ _ E1), Hfeat.
  destruct (r_argv_reads "ARGC"%cs "ARGV"%cs args eq_refl eq_refl Ha Hal fd (Fd rest1 (fd_out d) (fd_file d))
    (w_core w1) rest2) with (w := w1) as (w2 & E2 & C2 & Hw2 & V2); [rewrite C1; apply taken_lookup| |done..|].
  { cbn [fd_in]. unfold rest1. by rewrite <- !app_assoc. }
  rewrite (bind_Ok _ _ _ _ _ E2). rewrite C1, taken_taken in C2.
  assert (w_env w2 = w_env w) as V by congruence.
  (* the temporary files and the source *)
  destruct (job_tmpnams sd i w2 (rd_source _ _ _ _ _ _ Hrd)) as
    (temp_o & temp_i & w3 & w4 & e & bo & bi & Eext & Hslash & E3 & E4 & Hw4 & Eo & Ei & No & Ni0 & Hne & Hf4 & Hfd4 & V4 & Hwf4 & Hcl4);
    [done|by rewrite C2|by rewrite V, C2|rewrite C2; simpl; lia|].
  rewrite V in Eo, Ei. rewrite C2 in No, Ni0, Hf4, Hfd4. simpl in No, Ni0, Hf4, Hfd4.
  destruct (r_token_file_runs fd (Fd rest2 (fd_out d) (fd_file d)) temp_i (compr host) data body rest (w_core w4))
    with (w := w4) as (w5 & E5 & C5 & Hw5 & V5); [done..| |by rewrite Hfd4, lookup_insert_eq|done|done|done|].
  { split; [right; rewrite Ei at 1; rewrite tmp_name_dirname by done|]; rewrite Hf4.
    - rewrite lookup_insert_ne, lookup_insert_ne; [done|intros E'; by rewrite E', Htop in No|
        intros E'; by rewrite E', Htop in Ni0].
    - by rewrite lookup_insert_eq. }
  (* the command line *)
  destruct (preproc_exten_source i (tmp_top (w_env w) ++ "/distccd_"%cs ++ hex8 (Z.land bi 4294967295))
    (rd_source _ _ _ _ _ _ Hrd)) as (dot' & e' & Edot' & Ee' & _ & Hsrc).
  assert (e' = e) as -> by (rewrite Edot' in Eext; simpl in Eext; congruence).
  destruct (redirect args us1 us2 i o args' temp_i temp_o Hrd) as (nv & argv1 & us3 & Hredir).
  { rewrite Ei. apply tmp_name_dash; [apply tmp_top_ne|done]. }
  { rewrite Ei, tmp_name_base. unfold tmp_base. rewrite <- !app_assoc in Hsrc. exact Hsrc. }
  { rewrite Ei. by apply tmp_name_not_local. }
  { rewrite Eo, tmp_name_base. by destruct (tmp_top (w_env w)). }
  { rewrite Eo, tmp_name_base. by destruct (tmp_top (w_env w)) as [|? [|? ?]]. }
  destruct (Hredir w2 (io_mem w2 Hw2)) as (S1 & _).
  destruct (Hredir w5 (io_mem w5 Hw5)) as (_ & S2 & S3 & Hu3 & Ha3 & _).
  exists (Job (protover host) (compr host) (vec (words us3) ++ spare args args') i o temp_i temp_o), w5. simpl. split.
  { rewrite (bind_Ok _ _ _ _ _ S1), (bind_Ok _ _ _ _ _ (malloc_io_ok w2 Hw2)),
      (bind_Ok _ _ _ _ _ (malloc_io_ok w2 Hw2)). change (negb (true && true)) with false. cbv iota.
    rewrite (bind_Ok _ _ _ _ _ E3), (bind_Ok _ _ _ _ _ E4), (bind_Ok _ _ _ _ _ E5), (bind_Ok _ _ _ _ _ S2).
    by rewrite (bind_Ok _ _ _ _ _ S3). }
  split_and!; try done.
  - rewrite C5. unfold received. simpl. rewrite Hf4. by rewrite insert_insert_eq.
  - rewrite C5. unfold received, taken. simpl. by rewrite Hfd4, insert_insert_eq.
  - congruence.
  - by rewrite C5.
  - rewrite C5. unfold received. simpl. rewrite Hcl4, C2. done.
  - by eexists _, _.
  - by eexists _, _.
  - exists us3, (spare args args'). split_and!; try done. intros w0 tl Hm. by destruct (Hredir w0 Hm) as (_ & _ & _ & _ & _ & Hsc).
Qed.

(** C2.  A compilation request arrives as it was meant.  The client sends the
    header, the command line and the preprocessed source; the server, reading
    those bytes under any cooperative kernel, finds the client's input and
    output names, stores exactly the client's preprocessed source (compressed
    on the way or not) in a new temporary file, creates another new one for
    the object, changes no other file, and ends with a command line that scans
    to these two files and is the client's in everything but the two names; what
    follows the request is left unread. *)
Theorem request_roundtrip (host : dcc_hostdef) (args : list cstr) us1 us2 (i o : cstr) args' (tl : cvec)
    (cpp_fname data body rest : cstr) (sd : seed) (fds fdr : nat) (ds dr : fdesc) (cs : core) (w : world) :
  client_cpp host → redirectable args us1 us2 i o args' →
  Forall wire_str args → (Z.of_nat (length args) < 2 ^ 32)%Z →
  (Z.of_nat (length data) < 2 ^ 32)%Z → (Z.of_nat (length body) < 2 ^ 32)%Z →
  wire_body (compr host) data body →
  c_fds cs !! fds = Some ds → fd_file ds = None → c_files cs !! cpp_fname = Some (NFile data) →
  io_ok w → cleanups_wf (w_core w) → c_files (w_core w) !! tmp_top (w_env w) = Some NDir →
  dash (tmp_top (w_env w)) = false → (Z.of_nat (size (c_files (w_core w))) + 1 < 2 ^ 32)%Z →
  c_fds (w_core w) !! fdr = Some dr → fd_in dr = request (protover host) args body ++ rest →
  runs (send_request fds (vec args ++ tl) cpp_fname host) (Ok ()) cs
    (set_phase DCC_PHASE_COMPILE (put fds ds (request (protover host) args body) cs)) ∧
  ∃ j w', receive_request sd fdr w = (Ok (Some j), w') ∧
    j_orig_input j = i ∧ j_orig_output j = o ∧ j_compr j = compr host ∧
    c_files (w_core w) !! j_temp_i j = None ∧ c_files (w_core w) !! j_temp_o j = None ∧
    j_temp_i j ≠ j_temp_o j ∧
    c_files (w_core w') = <[j_temp_i j := NFile data]> (<[j_temp_o j := NFile []]> (c_files (w_core w))) ∧
    fd_in <$> c_fds (w_core w') !! fdr = Some rest ∧
    (∃ nv, dcc_scan_args (j_argv j) w' = (Ok (Some (j_temp_i j), Some (j_temp_o j), nv), w')) ∧
    ∃ us3 tl', j_argv j = vec (words us3) ++ tl' ∧ units (words us3) = Some us3 ∧
      anonymous <$> us3 = anonymous <$> final_units (us1 ++ W1 i :: us2) o.
Proof.
  intros Hh Hrd Ha Hal Hdl Hbl Hb Hds Hdf Hcf Hw Hwf Htop Hdash Hsz Hdr Hin. split.
  - destruct (client_cpp_features host Hh) as [Hv _].
    apply (send_request_runs fds ds args tl cpp_fname host data body cs); try done; [by destruct Hh|lia].
  - destruct (receive_request_ok host args us1 us2 i o args' data body rest sd fdr dr w) as
      (j & w' & E & E1 & E2 & E3 & E4 & E5 & E6 & E7 & E8 & Hw' & _ & _ & _ & _ & _ & _ & us3 & tl' & Ej & Hu3 & Ha3 & Hsc); [done..|].
    exists j, w'. split_and!; try done; [by rewrite E8, lookup_insert_eq| |by exists us3, tl'].
    rewrite Ej. by apply Hsc, io_mem.
Qed.
End request.

(** ** Witness *)

Definition ex_req_host : dcc_hostdef :=
  HostDef (Some DCC_MODE_TCP) None (Some "h"%cs) 3632 None true 4 "h"%cs 1 DCC_COMPRESS_NONE
    DCC_CPP_ON_CLIENT false.

Definition ex_req_args : list cstr := ["cc"; "-c"; "x.c"; "-o"; "x.o"]%cs.

Definition ex_req_client : core :=
  Core {[3 := Fd [] [] None]} {["/tmp/x.i"%cs := NFile "int x;"%cs]} [] 10 DCC_PHASE_CPP.

Definition ex_req_server : world :=
  World (Core {[4 := Fd (request 1 ex_req_args "int x;"%cs) [] None]} {["/tmp"%cs := NDir]} [] 10 DCC_PHASE_STARTUP)
        [] [] [] [] 0 ∅.

Lemma ex_req_redirectable :
  @redirectable usual_config ex_req_args [W1 "cc"%cs; W1 "-c"%cs] [W2 "-o"%cs "x.o"%cs] "x.c"%cs "x.o"%cs ex_req_args.
Proof.
  split; try reflexivity.
  - by repeat constructor.
  - repeat (constructor; [first [done | by intros Hx; vm_compute in Hx]|]). constructor.
  - right. do 3 right. by left.
Qed.

Lemma request_roundtrip_witness :
  runs (send_request (Cfg := usual_config) 3 (vec ex_req_args) "/tmp/x.i"%cs ex_req_host) (Ok ()) ex_req_client
    (set_phase DCC_PHASE_COMPILE (put 3 (Fd [] [] None) (request 1 ex_req_args "int x;"%cs) ex_req_client)) ∧
  ∃ j w', receive_request (Cfg := usual_config) (Seed 7 1 2 3 4) 4 ex_req_server = (Ok (Some j), w') ∧
    c_files (w_core w') !! j_temp_i j = Some (NFile "int x;"%cs).
Proof.
  destruct (@request_roundtrip usual_config stored_lzo stored_lzo_laws ex_req_host ex_req_args
    [W1 "cc"%cs; W1 "-c"%cs] [W2 "-o"%cs "x.o"%cs] "x.c"%cs "x.o"%cs ex_req_args [] "/tmp/x.i"%cs
    "int x;"%cs "int x;"%cs [] (Seed 7 1 2 3 4) 3 4 (Fd [] [] None)
    (Fd (request 1 ex_req_args "int x;"%cs) [] None) ex_req_client ex_req_server)
    as (Hs & j & w' & E & _ & _ & _ & _ & _ & _ & Hf & _).
  - by split_and!.
  - exact ex_req_redirectable.
  - repeat (constructor; [split; [by apply (bool_decide_eq_true_1 _)|by vm_compute]|]). constructor.
  - by vm_compute.
  - by vm_compute.
  - by vm_compute.
  - reflexivity.
  - reflexivity.
  - reflexivity.
  - reflexivity.
  - constructor; [constructor..|reflexivity|by right].
  - unfold cleanups_wf. simpl. lia.
  - reflexivity.
  - reflexivity.
  - by vm_compute.
  - reflexivity.
  - simpl fd_in. by rewrite app_nil_r.
  - split; [exact Hs|]. exists j, w'. split; [exact E|]. rewrite Hf. apply lookup_insert_eq.
Defined.
