(* ===== verification/Lsdistcc.v ===== *)
(** * lsdistcc.c, rslave.c: which machines of a network serve

    lsdistcc looks up the names it is given, a few at a time, through slave
    processes that do nothing but wait for the resolver, connects to every machine
    it finds without blocking, sends a small compilation, and prints the names of
    those that answer.  Each machine is a state machine ([status_e]) driven by one
    loop around poll.  What the kernel and the slaves answer are the records
    [ls_kernel] and [poll_round]; times are microseconds. *)

From S2P Require Import Prelude CLib Snprintf Rpc Bulk Results Request.

(** ** Options *)

Definition MAXHOSTS : nat := 500.
Definition MAXTRIES : nat := 5.
Definition DEFAULT_PORT : Z := 3632.

Record lsopts := LsOpts {
  lo_match : Z; lo_bigtimeout_sec : Z; lo_dnstimeout_ms : Z; lo_conntimeout_ms : Z; lo_comptimeout_ms : Z;
  lo_overlap : Z; lo_dnsgap : Z; lo_protocol : Z; lo_port : Z; lo_compiler : option cstr;
  lo_latency : bool; lo_numeric : bool; lo_bang_down : bool; lo_verbose : Z; lo_domain : Z
}.

Definition ls_defaults : lsopts :=
  LsOpts 0 7 500 900 1500 1 0 1 DEFAULT_PORT None false false false 0 0.

(** One option: the letter and what follows it; [None] is the usage message. *)
Definition ls_option (letter : ascii) (arg : cstr) (o : lsopts) : option lsopts :=
  let '(LsOpts m t h c k ov g pr po comp l n x v d) := o in
  let num := atoi arg in
  if ceqb letter "m" then
    if (31 <? num)%Z || (num <? 0)%Z then None else Some (LsOpts num t h c k ov g pr po comp l n x v d)
  else if ceqb letter "t" then
    if (num <? 0)%Z then None else Some (LsOpts m num h c k ov g pr po comp l n x v d)
  else if ceqb letter "h" then
    if (num <? 0)%Z then None else Some (LsOpts m t num c k ov g pr po comp l n x v d)
  else if ceqb letter "c" then
    if (num <? 0)%Z then None else Some (LsOpts m t h num k ov g pr po comp l n x v d)
  else if ceqb letter "k" then
    if (num <? 0)%Z then None else Some (LsOpts m t h c num ov g pr po comp l n x v d)
  else if ceqb letter "o" then
    if (num <? 0)%Z then None else Some (LsOpts m t h c k num g pr po comp l n x v d)
  else if ceqb letter "g" then
    if (num <? 0)%Z then None else Some (LsOpts m t h c k ov num pr po comp l n x v d)
  else if ceqb letter "P" then
    if (num <=? 0)%Z || (3 <? num)%Z then None else Some (LsOpts m t h c k ov g num po comp l n x v d)
  else if ceqb letter "p" then
    match arg with [] => None | _ => Some (LsOpts m t h c k ov g pr po (Some arg) l n x v d) end
  else if ceqb letter "r" then
    if (num <=? 0)%Z then None else Some (LsOpts m t h c k ov g pr num comp l n x v d)
  else if ceqb letter "l" then Some (LsOpts m t h c k ov g pr po comp true n x v d)
  else if ceqb letter "n" then Some (LsOpts m t h c k ov g pr po comp l true x v d)
  else if ceqb letter "x" then Some (LsOpts m t h c k ov g pr po comp l n true v d)
  else if ceqb letter "v" then Some (LsOpts m t h c k ov g pr po comp l n x (v + 1) d)
  else if ceqb letter "d" then Some (LsOpts m t h c k ov g pr po comp l n x v (d + 1))
  else None.

(** [for (opti = 1; opti < argc && argv[opti][0] == '-'; opti++)]: the options and
    the words that are left.  [usage] exits with 1. *)
Fixpoint ls_options (argv : list cstr) (o : lsopts) : outcome (lsopts * list cstr) :=
  match argv with
  | [] => Ok (o, [])
  | a :: rest =>
      if ceqb (cget a 0) "-" then
        match ls_option (cget a 1) (drop 2 a) o with
        | Some o => ls_options rest o
        | None => Exit 1
        end
      else Ok (o, argv)
  end.

(** ** Addresses *)

(** [memcmp(a, b, n)] is not zero. *)
Definition bytes_differ (a b : list Z) (n : nat) : bool := negb (bool_decide (take n a = take n b)).

(** [for (i=0; i<n; i++) mask |= (1 << (7-i))] *)
Fixpoint high_mask (n : nat) : Z :=
  match n with
  | 0 => 0
  | S n => Z.lor (high_mask n) (Z.shiftl 1 (7 - Z.of_nat n))
  end.

(** Is the result not zero. *)
Definition bitcompare (a b : list Z) (nbits : nat) : bool :=
  let fullbytes := nbits / 8 in
  let leftoverbits := nbits mod 8 in
  bytes_differ a b fullbytes ||
  (if decide (leftoverbits = 0) then false
   else negb (Z.land (Z.lxor (nth fullbytes a 0%Z) (nth fullbytes b 0%Z)) (high_mask leftoverbits) =? 0)%Z).

(** ** The domain of this machine (util.c) *)

(** HOST and HOSTNAME of the environment, what gethostname gives, and the full
    name gethostbyname finds for it. *)
Record dns_env := DnsEnv {
  dn_host : option cstr; dn_hostname : option cstr; dn_self : option cstr; dn_full : cstr → option cstr
}.

Definition MAXDOMAINLEN : nat := 512.

Definition isalnum (c : ascii) : bool :=
  isdigit c || ((65 <=? code c) && (code c <=? 90) || (97 <=? code c) && (code c <=? 122))%Z.

Definition is_legal_domain_char (c : ascii) : bool := isalnum c || ceqb c "-" || ceqb c ".".

Definition has_dot (s : cstr) : bool := bool_decide ("."%char ∈ s).

Definition with_dot (s : option cstr) : option cstr :=
  match s with Some s => if has_dot s then Some s else None | None => None end.

(** The longer of the two variables. *)
Definition better (envh envh2 : option cstr) : option cstr :=
  match envh, envh2 with
  | Some h, Some h2 => if (length h <? length h2) then Some h2 else Some h
  | None, _ => envh2
  | _, None => envh
  end.

(** The real way; the buffer has 1024 bytes.  [None]: the function returns -1. *)
Definition real_name (e : dns_env) : option cstr :=
  match dn_self e with
  | None => None
  | Some self => if has_dot self then Some self else take 1024 <$> dn_full e self
  end.

Definition dcc_get_dns_domain (e : dns_env) : option cstr :=
  match (match better (with_dot (dn_host e)) (with_dot (dn_hostname e)) with Some h => Some h | None => real_name e end) with
  | None => None
  | Some envh =>
      if (S MAXDOMAINLEN <? length envh) || negb (forallb is_legal_domain_char envh) then None
      else
        match strchr envh "." with
        | None => None
        | Some i => match drop (S i) envh with [] => None | domain => Some domain end
        end
  end.

(** ** The compilation to try *)

Section query.
Context {LZ : Lzo}.

Definition ls_program : cstr := "int foo(){return 0;}"%cs.

(** The text up to the source: "%08x" of the lengths. *)
Definition query_head (protocol : Z) (compiler : cstr) : cstr :=
  (if (protocol =? 3)%Z then "DIST00000003CDIR00000001/"%cs
   else if (protocol =? 2)%Z then "DIST00000002"%cs else "DIST00000001"%cs) ++
  "ARGC00000005"%cs ++
  ("ARGV"%cs ++ hex8 (u32 (Z.of_nat (length compiler))) ++ compiler) ++
  "ARGV00000002-c"%cs ++ "ARGV00000007hello.c"%cs ++ "ARGV00000002-o"%cs ++ "ARGV00000007hello.o"%cs ++
  (if (protocol =? 3)%Z then "NFIL00000001"%cs ++ "NAME00000008/hello.c"%cs ++ "FILE"%cs else "DOTI"%cs).

(** [canned_query]: an array of 1000 bytes, and [sprintf] puts a terminator
    behind its text.  The result of the compression is not looked at. *)
Definition generate_query (protocol : Z) (compiler : cstr) : outcome cstr :=
  match (if (protocol =? 1)%Z then Some ls_program else lzo1x_1_compress ls_program) with
  | None => Undef
  | Some body =>
      let head := query_head protocol compiler ++ hex8 (u32 (Z.of_nat (length body))) in
      let text := if (protocol =? 1)%Z then head ++ ls_program else head in
      if (length text <? 1000) && (length (head ++ body) <=? 1000) then Ok (head ++ body) else Undef
  end.
End query.

(** ** The state *)

Inductive status_e :=
| STATE_LOOKUP | STATE_CONNECT | STATE_CONNECTING | STATE_READ_DONEPKT | STATE_READ_STATPKT
| STATE_READ_REST | STATE_CLOSE | STATE_DONE.

#[export] Instance status_eq_dec : EqDecision status_e.
Proof. solve_decision. Defined.

(** [st_hdr]: the [curhdrlen] bytes of [curhdrbuf]; [st_fd]: [None] for -1. *)
Record state_s := State {
  st_hname : cstr; st_addr : list Z; st_start : Z; st_deadline : Z; st_hdr : cstr;
  st_status : status_e; st_ntries : nat; st_fd : option nat; st_up : bool
}.

(** The globals, and the locals of [detect_distcc_servers]. *)
Record lsd := Lsd {
  ld_states : list state_s;         (** [states], from 0 *)
  ld_fd2state : gmap nat nat;       (** zero where nothing was stored *)
  ld_nok : Z; ld_ndone : Z;
  ld_tries : list Z;                (** [nwithtries] *)
  ld_gotaddr : Z; ld_baddns : Z;
  ld_first : list Z;                (** [firstipaddr] *)
  ld_out : list cstr                (** the lines printed *)
}.

Definition set_ld_states (s : list state_s) (d : lsd) : lsd :=
  Lsd s (ld_fd2state d) (ld_nok d) (ld_ndone d) (ld_tries d) (ld_gotaddr d) (ld_baddns d) (ld_first d) (ld_out d).
Definition set_ld_fd2state (m : gmap nat nat) (d : lsd) : lsd :=
  Lsd (ld_states d) m (ld_nok d) (ld_ndone d) (ld_tries d) (ld_gotaddr d) (ld_baddns d) (ld_first d) (ld_out d).
Definition set_ld_counts (nok ndone : Z) (d : lsd) : lsd :=
  Lsd (ld_states d) (ld_fd2state d) nok ndone (ld_tries d) (ld_gotaddr d) (ld_baddns d) (ld_first d) (ld_out d).
Definition set_ld_tries (t : list Z) (d : lsd) : lsd :=
  Lsd (ld_states d) (ld_fd2state d) (ld_nok d) (ld_ndone d) t (ld_gotaddr d) (ld_baddns d) (ld_first d) (ld_out d).
Definition set_ld_dns (got bad : Z) (first : list Z) (d : lsd) : lsd :=
  Lsd (ld_states d) (ld_fd2state d) (ld_nok d) (ld_ndone d) (ld_tries d) got bad first (ld_out d).
Definition add_ld_out (line : cstr) (d : lsd) : lsd :=
  Lsd (ld_states d) (ld_fd2state d) (ld_nok d) (ld_ndone d) (ld_tries d) (ld_gotaddr d) (ld_baddns d) (ld_first d)
    (ld_out d ++ [line]).

Definition set_st_status (s : status_e) (x : state_s) : state_s :=
  State (st_hname x) (st_addr x) (st_start x) (st_deadline x) (st_hdr x) s (st_ntries x) (st_fd x) (st_up x).
Definition set_st_up (x : state_s) : state_s :=
  State (st_hname x) (st_addr x) (st_start x) (st_deadline x) (st_hdr x) (st_status x) (st_ntries x) (st_fd x) true.
Definition set_st_fd (fd : option nat) (x : state_s) : state_s :=
  State (st_hname x) (st_addr x) (st_start x) (st_deadline x) (st_hdr x) (st_status x) (st_ntries x) fd (st_up x).
Definition set_st_hdr (h : cstr) (x : state_s) : state_s :=
  State (st_hname x) (st_addr x) (st_start x) (st_deadline x) h (st_status x) (st_ntries x) (st_fd x) (st_up x).
Definition set_st_times (start deadline : Z) (x : state_s) : state_s :=
  State (st_hname x) (st_addr x) start deadline (st_hdr x) (st_status x) (st_ntries x) (st_fd x) (st_up x).
Definition set_st_ntries (n : nat) (x : state_s) : state_s :=
  State (st_hname x) (st_addr x) (st_start x) (st_deadline x) (st_hdr x) (st_status x) n (st_fd x) (st_up x).
Definition set_st_addr (a : list Z) (x : state_s) : state_s :=
  State (st_hname x) a (st_start x) (st_deadline x) (st_hdr x) (st_status x) (st_ntries x) (st_fd x) (st_up x).

(** [states[i]] *)
Definition ls_get (i : nat) : M lsd state_s := λ d,
  match ld_states d !! i with Some x => (Ok x, d) | None => (Undef, d) end.
Definition ls_set (i : nat) (x : state_s) : M lsd unit := modify (λ d, set_ld_states (<[i := x]> (ld_states d)) d).

(** ** A single server *)

(** What the kernel answers to the calls for a server: a socket or none,
    whether the connection is on its way, the error of the connection, how much
    was written, what there is to read ([Some []]: the end), and the clock. *)
Record ls_kernel := Kernel {
  k_socket : option nat; k_connect : bool; k_sockerr : option Z; k_sent : nat;
  k_read : option cstr; k_now : Z; k_later : Z
}.

Section server.
Context (o : lsopts) (canned_query : cstr).

(** Is the header the one that is expected. *)
Definition header_is (token : cstr) (value : Z) (hdr : cstr) : bool :=
  streq (take 4 hdr) token && (s32 (strtol 16 (drop 4 hdr)).1 =? value)%Z.

(** [read] takes at most the bytes that are missing. *)
Definition server_read_packet_header (k : ls_kernel) (sp : state_s) : outcome state_s :=
  match k_read k with
  | Some [] => Ok (set_st_status STATE_CLOSE sp)
  | r =>
      let hdr := match r with Some bytes => st_hdr sp ++ take (12 - length (st_hdr sp)) bytes | None => st_hdr sp end in
      let sp := set_st_hdr hdr sp in
      if (length hdr <? 12) then Ok sp
      else
        match st_status sp with
        | STATE_READ_DONEPKT =>
            Ok (if header_is "DONE"%cs (lo_protocol o) hdr
                then set_st_status STATE_READ_STATPKT (set_st_hdr [] sp) else set_st_status STATE_CLOSE sp)
        | STATE_READ_STATPKT =>
            Ok (if header_is "STAT"%cs 0 hdr
                then set_st_status STATE_READ_REST (set_st_hdr [] sp) else set_st_status STATE_CLOSE sp)
        | _ => Exit 1
        end
  end.

(** [deadline = now + 1000 * ms], the product an [int]. *)
Definition deadline_after (now ms : Z) : outcome Z :=
  match int_val (1000 * ms) with Ok us => Ok (now + us)%Z | _ => Undef end.

(** [fd2state] has room for MAXHOSTS+1000 descriptors. *)
Definition note_fd (fd i : nat) : M lsd unit :=
  if (fd <? MAXHOSTS + 1000) then modify (λ d, set_ld_fd2state (<[fd := i]> (ld_fd2state d)) d) else ub.

Definition latency_ms (now start : Z) : Z :=
  (Z.quot (now mod 1000000 - start mod 1000000) 1000 + 1000 * (now / 1000000 - start / 1000000))%Z.

Definition dotted_addr (a : list Z) : cstr :=
  decimal (nth 0 a 0%Z) ++ "."%cs ++ decimal (nth 1 a 0%Z) ++ "."%cs ++ decimal (nth 2 a 0%Z) ++ "."%cs ++
  decimal (nth 3 a 0%Z).

Definition protocol_suffix (p : Z) : cstr :=
  if (p =? 3)%Z then ",lzo,cpp"%cs else if (p =? 2)%Z then ",lzo"%cs else [].

Definition server_line (now : Z) (sp : state_s) : cstr :=
  (if lo_numeric o then dotted_addr (st_addr sp) else st_hname sp) ++
  (if (lo_port o =? DEFAULT_PORT)%Z then [] else ":"%cs ++ decimal (lo_port o)) ++
  protocol_suffix (lo_protocol o) ++
  (if lo_bang_down o && negb (st_up sp) then ",down"%cs else []) ++
  (if lo_latency o then " "%cs ++ decimal (latency_ms now (st_start sp)) else []).

(** STATE_CLOSE *)
Definition server_close (k : ls_kernel) (i : nat) (sp : state_s) : M lsd unit :=
  do! (if lo_bang_down o || st_up sp then modify (add_ld_out (server_line (k_later k) sp)) else ret ());
  do! ls_set i (set_st_status STATE_DONE (set_st_fd None sp));
  modify (λ d, set_ld_counts (ld_nok d + 1) (ld_ndone d + 1) d).

(** The other states. *)
Definition server_step (k : ls_kernel) (i : nat) (sp : state_s) : M lsd unit :=
  match st_status sp with
  | STATE_CONNECT =>
      if (lo_conntimeout_ms o =? 0)%Z then ls_set i (set_st_status STATE_CLOSE (set_st_up (set_st_fd None sp)))
      else
        match k_socket k with
        | None => ls_set i (set_st_status STATE_DONE (set_st_fd None sp))
        | Some fd =>
            if negb (k_connect k) then ls_set i (set_st_status STATE_CLOSE (set_st_fd (Some fd) sp))
            else
              do! note_fd fd i;
              let! deadline := throw (deadline_after (k_later k) (lo_conntimeout_ms o)) in
              ls_set i (set_st_times (k_later k) deadline (set_st_status STATE_CONNECTING (set_st_fd (Some fd) sp)))
        end
  | STATE_CONNECTING =>
      match k_sockerr k with
      | None => ls_set i (set_st_status STATE_CLOSE sp)
      | Some connecterr =>
          if negb (connecterr =? 0)%Z then ls_set i (set_st_status STATE_CLOSE sp)
          else if (lo_comptimeout_ms o =? 0)%Z || bool_decide (lo_compiler o = None)
          then ls_set i (set_st_status STATE_CLOSE (set_st_up sp))
          else if negb (k_sent k =? length canned_query) then ls_set i (set_st_status STATE_CLOSE sp)
          else
            let! deadline := throw (deadline_after (k_now k) (lo_comptimeout_ms o)) in
            ls_set i (set_st_times (st_start sp) deadline (set_st_hdr [] (set_st_status STATE_READ_DONEPKT sp)))
      end
  | STATE_READ_DONEPKT | STATE_READ_STATPKT =>
      let! sp := throw (server_read_packet_header k sp) in
      ls_set i sp
  | STATE_READ_REST =>
      match k_read k with
      | Some [] => ls_set i (set_st_status STATE_CLOSE (set_st_up sp))
      | _ => ret ()
      end
  | _ => ret ()
  end.

(** One transition; [STATE_CLOSE] is passed through. *)
Definition server_handle_event (k : ls_kernel) (i : nat) : M lsd unit :=
  let! sp := ls_get i in
  if decide (st_status sp = STATE_CLOSE) then server_close k i sp
  else
    do! server_step k i sp;
    let! sp := ls_get i in
    if decide (st_status sp = STATE_CLOSE) then server_close k i sp else ret ().

(** ** One turn of the loop *)

(** [nwithtries[n] += x]: an array of MAXTRIES+1 counters. *)
Definition count_tries (n : nat) (x : Z) : M lsd unit := λ d,
  match ld_tries d !! n with
  | Some v => (Ok (), set_ld_tries (<[n := (v + x)%Z]> (ld_tries d)) d)
  | None => (Undef, d)
  end.

(** What a turn sees: does poll fail; may the slaves be written to; an answer of
    the slaves ([Some None]: it cannot be read) with its number, whether it is an
    error, and the address; the clock; the descriptors with events; and the
    answers to the calls for each server. *)
Record poll_round := PollRound {
  r_fails : bool; r_pollout : bool; r_result : option (option (nat * bool * list Z)); r_now : Z;
  r_ready : nat → bool; r_kernel : nat → ls_kernel
}.

Definition is_reading (s : status_e) : bool :=
  match s with STATE_READ_DONEPKT | STATE_READ_STATPKT | STATE_READ_REST => true | _ => false end.

(** The descriptors of interest, in the order of the servers. *)
Definition poll_fds (states : list state_s) (js : list nat) : list (option nat) :=
  omap (λ i, match states !! i with
             | Some sp => if bool_decide (st_status sp = STATE_CONNECTING) || is_reading (st_status sp)
                          then Some (st_fd sp) else None
             | None => None
             end) js.

(** May a request for a name be sent. *)
Definition slaves_wanted (overlap : Z) (end_state : nat) (d : lsd) : bool :=
  let t n := nth n (ld_tries d) 0%Z in
  (t 1%nat <=? overlap)%Z &&
  (t 1%nat + t 2%nat + t 3%nat + t 4%nat + ld_gotaddr d <? Z.of_nat end_state)%Z.

(** A request is sent, or sent again. *)
Definition one_more_try (i : nat) (sp : state_s) : M lsd unit :=
  do! count_tries (st_ntries sp) (-1);
  do! ls_set i (set_st_ntries (S (st_ntries sp)) sp);
  count_tries (S (st_ntries sp)) 1.

(** The timeouts, until one is found whose request is to be sent again. *)
Fixpoint timeout_loop (r : poll_round) (js : list nat) : M lsd (option nat) :=
  match js with
  | [] => ret None
  | i :: js =>
      let! sp := ls_get i in
      let late := (st_deadline sp <? r_now r)%Z in
      if bool_decide (st_status sp = STATE_LOOKUP) && (0 <? st_ntries sp) && (st_ntries sp <? MAXTRIES) && late then
        do! one_more_try i sp;
        ret (Some i)
      else
        do! (if (bool_decide (st_status sp = STATE_CONNECTING) || is_reading (st_status sp)) && late then
               do! ls_set i (set_st_status STATE_CLOSE sp);
               server_handle_event (r_kernel r i) i
             else ret ());
        timeout_loop r js
  end.

(** A name nothing was sent for yet. *)
Fixpoint fresh_loop (js : list nat) : M lsd (option nat) :=
  match js with
  | [] => ret None
  | i :: js =>
      let! sp := ls_get i in
      if bool_decide (st_status sp = STATE_LOOKUP) && (st_ntries sp =? 0) then
        do! one_more_try i sp;
        ret (Some i)
      else fresh_loop js
  end.

(** The last server a request was sent for. *)
Fixpoint highest_tried (states : list state_s) (js : list nat) (highest : nat) : nat :=
  match js with
  | [] => highest
  | i :: js =>
      highest_tried states js
        (match states !! i with Some sp => if (0 <? st_ntries sp) then i else highest | None => highest end)
  end.

(** An answer of the slaves. *)
Definition dns_result (r : poll_round) (start_state end_state id : nat) (err : bool) (addr : list Z) : M lsd nat :=
  if negb ((start_state <=? id) && (id <=? end_state)) then ub
  else
    let! sp := ls_get id in
    if negb (bool_decide (st_status sp = STATE_LOOKUP)) then ret end_state
    else
      do! count_tries (st_ntries sp) (-1);
      let sp := set_st_addr addr sp in
      do! ls_set id sp;
      do! modify (λ d, set_ld_dns (ld_gotaddr d + 1) (ld_baddns d)
                         (if (0 <? lo_match o)%Z && (ld_gotaddr d + 1 =? 1)%Z then addr else ld_first d) d);
      let! d := gets (λ d, d) in
      let err := err || ((0 <? lo_match o)%Z && negb (ld_gotaddr d =? 1)%Z &&
                         bitcompare (ld_first d) addr (Z.to_nat (lo_match o))) in
      if err then
        do! ls_set id (set_st_status STATE_DONE sp);
        do! modify (λ d, set_ld_dns (ld_gotaddr d) (ld_baddns d + 1) (ld_first d)
                           (set_ld_counts (ld_nok d) (ld_ndone d + 1) d));
        let! d := gets (λ d, d) in
        if (lo_dnsgap o <? ld_baddns d)%Z then
          ret (highest_tried (ld_states d) (seq start_state (S end_state - start_state)) 0)
        else ret end_state
      else
        do! ls_set id (set_st_status STATE_CONNECT sp);
        do! server_handle_event (r_kernel r id) id;
        ret end_state.

(** The servers whose descriptors had events; every descriptor that was polled
    is looked up in [fd2state]. *)
Fixpoint grind (r : poll_round) (fds : list (option nat)) : M lsd unit :=
  match fds with
  | [] => ret ()
  | fd :: fds =>
      let! d := gets (λ d, d) in
      do! (match fd with
           | Some fd =>
               if negb (fd <? MAXHOSTS + 1000) then ub
               else if r_ready r fd then
                 let i := default 0 (ld_fd2state d !! fd) in
                 server_handle_event (r_kernel r i) i
               else ret ()
           | None => ub
           end);
      grind r fds
  end.

Definition one_poll_loop (r : poll_round) (start_state end_state : nat) : M lsd nat :=
  let js := seq start_state (S end_state - start_state) in
  let! d := gets (λ d, d) in
  let fds := poll_fds (ld_states d) js in
  let pollout := r_pollout r && slaves_wanted (lo_overlap o) end_state d in
  if r_fails r then exit_ 1
  else
    let! found := timeout_loop r js in
    let! d := gets (λ d, d) in
    let! found :=
      (match found with
       | Some i => ret (Some i)
       | None => if (nth 1%nat (ld_tries d) 0 <=? lo_overlap o)%Z && pollout then fresh_loop js else ret None
       end) in
    do! (match found with
         | Some i =>
             let! sp := ls_get i in
             let! deadline := throw (deadline_after (r_now r) (lo_dnstimeout_ms o)) in
             ls_set i (set_st_times (st_start sp) deadline sp)
         | None => ret ()
         end);
    let! end_state :=
      (match r_result r with
       | Some (Some (id, err, addr)) => dns_result r start_state end_state id err addr
       | _ => ret end_state
       end) in
    do! grind r fds;
    ret end_state.

(** [be_a_dnsslave]: the answer to a request, from what gethostbyname gave (the
    first address, with its length) and h_errno. *)
Definition dnsslave_result (id : nat) (h : option (list Z)) (h_errno : Z) : nat * Z * list Z :=
  match h with
  | Some a => if (length a =? 4) then (id, 0, a)%Z else (id, h_errno, [0; 0; 0; 0])%Z
  | None => (id, h_errno, [0; 0; 0; 0])%Z
  end.

(** ** The search *)

(** The loop over groups of servers, with as many turns as there are; [None]: it
    is still going on.  What a turn sees may depend on what was asked. *)
Fixpoint search (fuel : nat) (rounds : list (lsd → poll_round)) (n maxfds start_state end_state orig : nat) :
    M lsd (option unit) :=
  match fuel with
  | 0 => ub
  | S fuel =>
      let! d := gets (λ d, d) in
      if (ld_ndone d <? Z.of_nat end_state)%Z then
        match rounds with
        | [] => ret None
        | r :: rounds =>
            let! end' := one_poll_loop (r d) start_state end_state in
            search fuel rounds n maxfds start_state end' orig
        end
      else if (end_state <? orig) then ret (Some ())
      else
        let start_state := S end_state in
        if (n <? start_state) then ret (Some ())
        else
          let end_state := Nat.min (start_state + maxfds - 2) n in
          search fuel rounds n maxfds start_state end_state end_state
  end.

Definition search_fuel (rounds : list (lsd → poll_round)) (n : nat) : nat := S (length rounds + S n).

(** [get_thename]; the array has 256 bytes.  The format is [sprintf]'s. *)
Definition get_thename (sformat : list cstr) (domain_name : cstr) (i : nat) : outcome cstr :=
  match sformat with
  | [] => Undef
  | format :: _ =>
      let name :=
        match strstr format "%d"%cs with
        | Some _ => match format_output format [VaInt (Z.of_nat i)] with Ok (s, _) => Some s | _ => None end
        | None => sformat !! (i - 1)
        end in
      match name with
      | None => Undef
      | Some name =>
          let name := if (lo_domain o =? 0)%Z then name else name ++ "."%cs ++ domain_name in
          if (length name <? 256) then Ok name else Undef
      end
  end.

(** "distcc%d" *)
Definition DEFAULT_FORMAT : cstr := "distcc%d"%cs.
Definition rslave_HOSTLEN : nat := 200.

(** How many servers, and where their names come from. *)
Definition how_many (args : list cstr) : nat * list cstr :=
  match args with
  | [] => (MAXHOSTS, [DEFAULT_FORMAT])
  | a :: _ => (match strstr a "%d"%cs with Some _ => MAXHOSTS | None => length args end, args)
  end.

(** The servers start in STATE_LOOKUP; [states] has MAXHOSTS+1 elements. *)
Fixpoint init_states (sformat : list cstr) (domain_name : cstr) (js : list nat) : M lsd unit :=
  match js with
  | [] => ret ()
  | i :: js =>
      let! name := throw (get_thename sformat domain_name i) in
      let! sp := ls_get i in
      do! ls_set i (State (take rslave_HOSTLEN name) (st_addr sp) (st_start sp) (st_deadline sp) (st_hdr sp)
                      STATE_LOOKUP 0 (st_fd sp) (st_up sp));
      do! count_tries 0 1;
      init_states sformat domain_name js
  end.

(** How many descriptors a group may use: [cur] is the limit of the process,
    [cur'] the limit after asking for more. *)
Definition group_fds (n : nat) (cur cur' : nat) : nat :=
  if (cur <? n + 10) && (14 <? cur') then cur' - 10 else MAXHOSTS + 10.

Definition blank_state : state_s := State [] [] 0 0 [] STATE_LOOKUP 0 (Some 0) false.

(** The number of servers found.  [slaves]: could they be started.  The alarm ends what is still going on, with
    status 0. *)
Definition detect_distcc_servers (args : list cstr) (e : dns_env) (cur cur' : nat) (slaves : bool)
    (rounds : list (lsd → poll_round)) : M lsd Z :=
  let domain := if (lo_domain o =? 0)%Z then None else dcc_get_dns_domain e in
  if negb (lo_domain o =? 0)%Z && bool_decide (domain = None) then exit_ 1
  else
    let '(n, sformat) := how_many args in
    let maxfds := group_fds n cur cur' in
    if negb slaves then ret 0%Z
    else
      do! modify (λ _, Lsd (replicate (S MAXHOSTS) blank_state) ∅ 0 0 (replicate (S MAXTRIES) 0%Z) 0 0 [] []);
      do! init_states sformat (default [] domain) (seq 1 n);
      let end_state := Nat.min (1 + maxfds - 2) n in
      let! r := search (search_fuel rounds n) rounds n maxfds 1 end_state end_state in
      match r with
      | None => exit_ 0
      | Some _ => gets ld_nok
      end.
End server.

(** The exit status is nonzero when nothing was found. *)
Definition ls_main `{Lzo} (argv : list cstr) (e : dns_env) (cur cur' : nat) (slaves : bool)
    (rounds : list (lsd → poll_round)) : M lsd Z :=
  let! (o, args) := throw (ls_options argv ls_defaults) in
  let! canned_query :=
    (match lo_compiler o with
     | Some compiler => throw (generate_query (lo_protocol o) compiler)
     | None => ret []
     end) in
  let! nfound := detect_distcc_servers o canned_query args e cur cur' slaves rounds in
  ret (if (0 <? nfound)%Z then 0%Z else 1%Z).

(** ** Counting servers *)

Definition olen {A} (x : option A) : Z := match x with Some _ => 1 | None => 0 end.

(** What [f] says about the servers 1 to [n], in order. *)
Definition collect {A} (f : state_s → option A) (n : nat) (s : list state_s) : list A :=
  omap (λ i, s !! i ≫= f) (seq 1 n).

Lemma omap_same {A B} (f g : A → option B) (l : list A) : (∀ x, x ∈ l → f x = g x) → omap f l = omap g l.
Proof.
  induction l as [|x l IH]; intros Hfg; [done|]. cbn. rewrite (Hfg x) by by left.
  rewrite IH; [done|]. intros y Hy. apply Hfg. by right.
Qed.

Lemma omap_snoc {A B} (f : A → option B) (l1 : list A) x l2 :
  omap f (l1 ++ x :: l2) = omap f l1 ++ option_list (f x) ++ omap f l2.
Proof. rewrite omap_app. cbn. by destruct (f x). Qed.

Lemma collect_split {A} (f : state_s → option A) n s i x :
  1 ≤ i ≤ n → s !! i = Some x →
  ∃ l1 l2, collect f n s = l1 ++ option_list (f x) ++ l2 ∧
    ∀ y, collect f n (<[i := y]> s) = l1 ++ option_list (f y) ++ l2.
Proof.
  intros Hi Hx. assert (seq 1 n = seq 1 (i - 1) ++ i :: seq (S i) (n - i)) as Hs.
  { replace n with ((i - 1) + S (n - i)) at 1 by lia. rewrite seq_app. cbn [seq]. by replace (1 + (i - 1)) with i by lia. }
  unfold collect. rewrite Hs. exists (omap (λ i, s !! i ≫= f) (seq 1 (i - 1))), (omap (λ i, s !! i ≫= f) (seq (S i) (n - i))).
  split; [by rewrite omap_snoc, Hx|]. intros y. rewrite omap_snoc, list_lookup_insert_eq by by apply lookup_lt_Some in Hx.
  f_equal; [|f_equal]; apply omap_same; intros j Hj%elem_of_seq; by rewrite list_lookup_insert_ne by lia.
Qed.

Lemma collect_length {A} (f : state_s → option A) n s i x y :
  1 ≤ i ≤ n → s !! i = Some x →
  Z.of_nat (length (collect f n (<[i := y]> s))) = (Z.of_nat (length (collect f n s)) - olen (f x) + olen (f y))%Z.
Proof.
  intros Hi Hx. destruct (collect_split f n s i x Hi Hx) as (l1 & l2 & -> & Hy). rewrite Hy.
  rewrite !length_app. destruct (f x), (f y); cbn; lia.
Qed.

Lemma collect_new {A} (f : state_s → option A) n s i x y :
  1 ≤ i ≤ n → s !! i = Some x → f x = None →
  collect f n (<[i := y]> s) ≡ₚ collect f n s ++ option_list (f y).
Proof.
  intros Hi Hx Hn. destruct (collect_split f n s i x Hi Hx) as (l1 & l2 & -> & Hy). rewrite Hy, Hn. cbn.
  rewrite <- app_assoc. by rewrite (Permutation_app_comm (option_list (f y))).
Qed.

Lemma collect_same {A} (f : state_s → option A) n s i x y :
  1 ≤ i ≤ n → s !! i = Some x → f y = f x → collect f n (<[i := y]> s) = collect f n s.
Proof. intros Hi Hx Hn. destruct (collect_split f n s i x Hi Hx) as (l1 & l2 & -> & Hy). by rewrite Hy, Hn. Qed.

Section counting.
Context (o : lsopts) (canned_query : cstr) (names : list cstr).

(** The options of the plain list: no marks for servers that are down, no
    latencies, and timeouts whose microseconds fit an int. *)
Record plain_list : Prop := Plain {
  pl_down : lo_bang_down o = false;
  pl_latency : lo_latency o = false;
  pl_conn : (0 ≤ 1000 * lo_conntimeout_ms o ≤ INT_MAX)%Z;
  pl_comp : (0 ≤ 1000 * lo_comptimeout_ms o ≤ INT_MAX)%Z;
  pl_dns : (0 ≤ 1000 * lo_dnstimeout_ms o ≤ INT_MAX)%Z
}.

Definition waits (k : nat) (x : state_s) : option unit :=
  if bool_decide (st_status x = STATE_LOOKUP) && (st_ntries x =? k) then Some () else None.
Definition is_done (x : state_s) : option unit :=
  if bool_decide (st_status x = STATE_DONE) then Some () else None.
Definition listed_line (x : state_s) : option cstr :=
  if bool_decide (st_status x = STATE_DONE) && st_up x then Some (server_line o 0 x) else None.

Definition in_use (x : state_s) : Prop := st_status x = STATE_CONNECTING ∨ is_reading (st_status x) = true.
Definition has_fd (x : state_s) : Prop := ∃ fd, st_fd x = Some fd ∧ fd < MAXHOSTS + 1000.

(** A server between two events. *)
Definition server_fine (x : state_s) : Prop :=
  st_status x ≠ STATE_CLOSE ∧ st_status x ≠ STATE_CONNECT ∧ st_ntries x ≤ MAXTRIES ∧
  (st_ntries x = 0 → st_status x = STATE_LOOKUP) ∧ (st_up x = true → st_status x = STATE_DONE) ∧
  (in_use x → has_fd x).

Notation n := (length names).

(** Everything is counted: requests by the number of tries, servers that are
    done, and a line for each of those that are up; nothing was done for the
    servers behind [e], which are given up only when the DNS did not know more
    than [dnsgap] names. *)
Record ls_inv (e : nat) (d : lsd) : Prop := LsInv {
  co_len : length (ld_states d) = S MAXHOSTS;
  co_n : n ≤ MAXHOSTS;
  co_zero : ∃ x, ld_states d !! 0 = Some x ∧ st_status x = STATE_LOOKUP;
  co_tries : length (ld_tries d) = S MAXTRIES ∧
    ∀ k v, ld_tries d !! k = Some v → v = Z.of_nat (length (collect (waits k) n (ld_states d)));
  co_done : ld_ndone d = Z.of_nat (length (collect is_done n (ld_states d)));
  co_nok : ld_nok d = (ld_ndone d - ld_baddns d)%Z;
  co_out : ld_out d ≡ₚ collect listed_line n (ld_states d);
  co_fds : map_Forall (λ _ i, i ≤ n) (ld_fd2state d);
  co_beyond : ∀ i x, e < i ≤ n → ld_states d !! i = Some x → st_ntries x = 0;
  co_fine : ∀ i x, 1 ≤ i ≤ n → ld_states d !! i = Some x → server_fine x;
  co_names : ∀ i x a, ld_states d !! S i = Some x → names !! i = Some a → st_hname x = take rslave_HOSTLEN a;
  co_gap : e < n → (lo_dnsgap o < ld_baddns d)%Z
}.

(** One server changed, and the counters with it. *)
Lemma ls_inv_update e d d' i x y :
  ls_inv e d → 1 ≤ i ≤ e → e ≤ n → ld_states d !! i = Some x → server_fine y → st_hname y = st_hname x →
  ld_states d' = <[i := y]> (ld_states d) →
  (length (ld_tries d') = S MAXTRIES ∧ ∀ k v, ld_tries d' !! k = Some v →
     ∃ u, ld_tries d !! k = Some u ∧ v = (u - olen (waits k x) + olen (waits k y))%Z) →
  ld_ndone d' = (ld_ndone d - olen (is_done x) + olen (is_done y))%Z →
  ld_nok d' = (ld_ndone d' - ld_baddns d')%Z →
  (listed_line x = None ∧ ld_out d' = ld_out d ++ option_list (listed_line y)) →
  map_Forall (λ _ j, j ≤ n) (ld_fd2state d') → (ld_baddns d ≤ ld_baddns d')%Z →
  ls_inv e d'.
Proof.
  intros [Hl Hn0 H0 [Ht1 Ht2] Hd Hk Ho Hf Hb Hs Hn Hg] Hi He Hx Hy Hname Hst [Ht3 Ht4] Hdone Hnok [Hlx Hout] Hfd Hbad.
  assert (i < length (ld_states d)) as Hlt by by apply lookup_lt_Some in Hx.
  split; rewrite ?Hst.
  - by rewrite length_insert.
  - done.
  - by rewrite list_lookup_insert_ne by lia.
  - split; [done|]. intros k v Hv. destruct (Ht4 k v Hv) as (u & Hu & ->). rewrite (Ht2 _ _ Hu).
    symmetry. apply collect_length; [lia|done].
  - rewrite Hdone, Hd. symmetry. apply collect_length; [lia|done].
  - done.
  - rewrite Hout, Ho. symmetry. by apply (collect_new _ _ _ _ x); [lia|..].
  - done.
  - intros j z Hj Hz. rewrite list_lookup_insert_ne in Hz by lia. by eapply Hb.
  - intros j z Hj Hz. destruct (decide (i = j)) as [->|Hne].
    + rewrite list_lookup_insert_eq in Hz by done. by injection Hz as <-.
    + rewrite list_lookup_insert_ne in Hz by done. by eapply Hs.
  - intros j z a Hz Ha. destruct (decide (i = S j)) as [->|Hne].
    + rewrite list_lookup_insert_eq in Hz by done. injection Hz as <-. rewrite Hname. by eapply Hn.
    + rewrite list_lookup_insert_ne in Hz by done. by eapply Hn.
  - intros Hlt'. specialize (Hg Hlt'). lia.
Qed.

(** What the kernel has to give: sockets, with numbers that [fd2state] has room for. *)
Definition kernel_fine (k : ls_kernel) : Prop := ∃ fd, k_socket k = Some fd ∧ fd < MAXHOSTS + 1000.

(** Server [i] goes from [x] to [y]. *)
Record sv_moved (i : nat) (x y : state_s) (d d' : lsd) : Prop := Moved {
  mv_states : ld_states d' = <[i := y]> (ld_states d);
  mv_tries : ld_tries d' = ld_tries d;
  mv_bad : ld_baddns d' = ld_baddns d;
  mv_done : ld_ndone d' = (ld_ndone d + olen (is_done y))%Z;
  mv_nok : ld_nok d' = (ld_nok d + olen (is_done y))%Z;
  mv_out : ld_out d' = ld_out d ++ option_list (listed_line y);
  mv_fds : ∀ b, i ≤ b → map_Forall (λ _ j, j ≤ b) (ld_fd2state d) → map_Forall (λ _ j, j ≤ b) (ld_fd2state d');
  mv_name : st_hname y = st_hname x;
  mv_ntries : st_ntries y = st_ntries x;
  mv_status : st_status y = STATE_CONNECTING ∨ is_reading (st_status y) = true ∨ st_status y = STATE_DONE;
  mv_up : st_up y = true → st_status y = STATE_DONE;
  mv_fd : in_use y → has_fd y
}.

Lemma server_line_now now x f : lo_latency o = false → lo_bang_down o = false →
  server_line o now x = server_line o 0 (set_st_status STATE_DONE (set_st_fd f x)).
Proof. intros Hl Hb. unfold server_line. by rewrite Hl, Hb. Qed.

Lemma server_close_moves k i x z d :
  plain_list → i < length (ld_states d) → st_hname x = st_hname z → st_ntries x = st_ntries z →
  ∃ y d', server_close o k i x d = (Ok (), d') ∧ sv_moved i z y d d' ∧ st_status y = STATE_DONE ∧ st_up y = st_up x.
Proof.
  intros [Hb Hl _ _ _] Hi Hname Hn. exists (set_st_status STATE_DONE (set_st_fd None x)).
  unfold server_close, bind, modify, ls_set. rewrite Hb. cbn [orb].
  unfold ret. destruct (st_up x) eqn:E; cbn; (eexists; split; [reflexivity|]); (split; [|done]).
  all: split; try done; try (by left); try (by right; right); try (by intros [?|?]).
  all: unfold listed_line; cbn; rewrite E; cbn.
  - by rewrite <- (server_line_now (k_later k) x None).
  - by rewrite app_nil_r.
Qed.

(** A server that goes on to be read from, or to be connected. *)
Definition goes_on (y : state_s) : Prop := in_use y ∧ st_up y = false ∧ has_fd y.

Lemma moved_on i x y d d' :
  goes_on y → st_hname y = st_hname x → st_ntries y = st_ntries x →
  d' = set_ld_states (<[i := y]> (ld_states d)) d ∨
  (∃ fd, d' = set_ld_states (<[i := y]> (ld_states d)) (set_ld_fd2state (<[fd := i]> (ld_fd2state d)) d)) →
  sv_moved i x y d d'.
Proof.
  intros (Hs & Hu & Hfd) Hn Ht Hd.
  assert (is_done y = None) as Hdone by (unfold is_done; destruct Hs as [->|Hs]; [done|]; by destruct (st_status y)).
  assert (listed_line y = None) as Hline by (unfold listed_line; by rewrite Hu, andb_false_r).
  destruct Hd as [-> | [fd ->]]; split; rewrite ?Hdone, ?Hline; cbn; rewrite ?Z.add_0_r, ?app_nil_r; auto;
    try (unfold in_use in Hs; tauto); rewrite ?Hu; try done. intros b Hb Hm. by apply map_Forall_insert_2.
Qed.

(** One transition of a server that is being tried. *)
Definition being_tried (x : state_s) : Prop :=
  (st_status x = STATE_CONNECT ∨ st_status x = STATE_CONNECTING ∨ is_reading (st_status x) = true ∨
   st_status x = STATE_CLOSE) ∧ st_up x = false.

Definition put_server (i : nat) (y : state_s) (m : gmap nat nat) (d : lsd) : lsd :=
  set_ld_states (<[i := y]> (ld_states d)) (set_ld_fd2state m d).

Definition fd_noted (i : nat) (m m' : gmap nat nat) : Prop := m' = m ∨ ∃ fd, m' = <[fd := i]> m.

Definition sv_stepped (i : nat) (x : state_s) (d : lsd) (r : outcome unit * lsd) : Prop := ∃ y m,
  r = (Ok (), put_server i y m d) ∧ fd_noted i (ld_fd2state d) m ∧ st_hname y = st_hname x ∧
  st_ntries y = st_ntries x ∧
  (st_status y = STATE_CLOSE ∨ goes_on y).

Lemma stepped_set i x y d :
  st_hname y = st_hname x → st_ntries y = st_ntries x →
  (st_status y = STATE_CLOSE ∨ goes_on y) →
  sv_stepped i x d (ls_set i y d).
Proof. intros. exists y, (ld_fd2state d). split; [by destruct d|]. split; [by left|]. done. Qed.

Lemma deadline_fine now ms : (0 ≤ 1000 * ms ≤ INT_MAX)%Z → deadline_after now ms = Ok (now + 1000 * ms)%Z.
Proof. intros H. unfold deadline_after. rewrite int_val_in by lia. done. Qed.

Lemma goes_on_from x y :
  has_fd x → st_fd y = st_fd x → st_up y = false → is_reading (st_status y) = true → goes_on y.
Proof. intros (fd & Hx & Hlt) Hy Hu Hr. split; [by right|]. split; [done|]. exists fd. by rewrite Hy. Qed.

Lemma read_header_moves k x :
  st_status x = STATE_READ_DONEPKT ∨ st_status x = STATE_READ_STATPKT → st_up x = false → has_fd x →
  ∃ y, server_read_packet_header o k x = Ok y ∧ st_hname y = st_hname x ∧ st_ntries y = st_ntries x ∧
    (st_status y = STATE_CLOSE ∨ goes_on y).
Proof.
  intros Hs Hu Hfd. assert (is_reading (st_status x) = true) as Hr by by destruct Hs as [-> | ->].
  unfold server_read_packet_header.
  destruct (k_read k) as [[|b bs]|]; [eexists; split; [done|]; cbn; auto| |];
    (case_match; [eexists; split; [done|]; cbn; split; [done|]; split; [done|]; right; by apply (goes_on_from x)|]);
    cbn [st_status set_st_hdr]; destruct Hs as [Hs|Hs]; rewrite Hs;
    (eexists; split; [done|]); (case_match; cbn; (split; [done|]); (split; [done|]);
      [right; by apply (goes_on_from x)|by left]).
Qed.

Lemma server_step_moves k i x d :
  plain_list → kernel_fine k → ld_states d !! i = Some x → being_tried x → (in_use x → has_fd x) →
  st_status x ≠ STATE_CLOSE → sv_stepped i x d (server_step o canned_query k i x d).
Proof.
  intros Hp (fd & Hk & Hfd) Hx [Hs Hu] Huse Hc. unfold server_step, in_use in *.
  destruct (st_status x) eqn:E; try (by destruct Hs as [?|[?|[?|?]]]).
  - destruct (lo_conntimeout_ms o =? 0)%Z; [apply stepped_set; auto|]. rewrite Hk.
    destruct (k_connect k); cbn [negb]; [|apply stepped_set; auto].
    unfold bind, note_fd, modify, throw. rewrite (proj2 (Nat.ltb_lt _ _) Hfd), deadline_fine by apply Hp.
    eexists _, _. split; [reflexivity|]. split; [right; by exists fd|]. split; [done|]. split; [done|]. right.
    split; [by left|]. split; [done|]. by exists fd.
  - destruct (k_sockerr k) as [err|]; [|apply stepped_set; auto].
    repeat (case_match; [apply stepped_set; auto|]).
    unfold bind, throw. rewrite deadline_fine by apply Hp. apply stepped_set; [done|done|]. right.
    apply (goes_on_from x); auto.
  - destruct (read_header_moves k x) as (y & Hy & Hn & Ht & Hst); [by left|done|by apply Huse; right|].
    unfold bind, throw. rewrite Hy. by apply stepped_set.
  - destruct (read_header_moves k x) as (y & Hy & Hn & Ht & Hst); [by right|done|by apply Huse; right|].
    unfold bind, throw. rewrite Hy. by apply stepped_set.
  - assert (sv_stepped i x d (ret () d)) as Hret.
    { exists x, (ld_fd2state d). unfold put_server. rewrite list_insert_id by done.
      split; [by destruct d|]. split; [by left|]. split; [done|]. split; [done|]. right.
      apply (goes_on_from x); rewrite ?E; auto. }
    destruct (k_read k) as [[|b bs]|]; [apply stepped_set; auto|done|done].
Qed.

Lemma handle_event_moves k i x d :
  plain_list → kernel_fine k → ld_states d !! i = Some x → being_tried x → (in_use x → has_fd x) →
  ∃ y d', server_handle_event o canned_query k i d = (Ok (), d') ∧ sv_moved i x y d d'.
Proof.
  intros Hp Hk Hx Hb Huse. assert (i < length (ld_states d)) as Hi by by apply lookup_lt_Some in Hx.
  unfold server_handle_event. rewrite (bind_Ok (ls_get i) _ d x d) by (unfold ls_get; by rewrite Hx).
  destruct (decide (st_status x = STATE_CLOSE)) as [Hc|Hc].
  { destruct (server_close_moves k i x x d) as (y & d' & Hy & Hm & _); [done..|]. by exists y, d'. }
  destruct (server_step_moves k i x d Hp Hk Hx Hb Huse Hc) as (y & m & Hy & Hm & Hn & Ht & Hst).
  rewrite (bind_Ok _ _ _ _ _ Hy).
  assert (ld_states (put_server i y m d) !! i = Some y) as Hget by (cbn; by rewrite list_lookup_insert_eq).
  rewrite (bind_Ok (ls_get i) _ _ y (put_server i y m d)) by (unfold ls_get; by rewrite Hget).
  destruct Hst as [Hst|Hst].
  - rewrite decide_True by done.
    destruct (server_close_moves k i y x (put_server i y m d)) as (z & d' & Hz & Hmz & _);
      [done|by cbn; rewrite length_insert|done..|].
    exists z, d'. split; [done|]. destruct Hmz as [M1 M2 M3 M4 M5 M6 M7 M8 M9 M10 M11 M12]. split; try done.
    + rewrite M1. cbn. by rewrite list_insert_insert_eq.
    + intros b Hib Hf. apply M7; [done|]. cbn. destruct Hm as [-> | [fd ->]]; [done|by apply map_Forall_insert_2].
  - rewrite decide_False by (destruct Hst as [[Hst|Hst] _]; [by rewrite Hst|by intros Hc'; rewrite Hc' in Hst]).
    exists y, (put_server i y m d). split; [done|]. apply moved_on; try done.
    unfold put_server. destruct Hm as [-> | [fd ->]]; [left; by destruct d|right; by exists fd].
Qed.

(** What was tried stays tried. *)
Definition later (d d' : lsd) : Prop :=
  ∀ i x, ld_states d !! i = Some x → 0 < st_ntries x → ∃ y, ld_states d' !! i = Some y ∧ 0 < st_ntries y.

#[local] Instance later_preorder : PreOrder later.
Proof.
  split.
  - intros d i x Hx Hn. by exists x.
  - intros d1 d2 d3 H1 H2 i x Hx Hn. destruct (H1 i x Hx Hn) as (y & Hy & Hny). by apply (H2 i y).
Qed.

Lemma later_insert d d' i x y :
  ld_states d !! i = Some x → ld_states d' = <[i := y]> (ld_states d) → st_ntries x ≤ st_ntries y → later d d'.
Proof.
  intros Hx Hd Hle j z Hz Hn. rewrite Hd. destruct (decide (i = j)) as [->|Hne].
  - simplify_eq. exists y. split; [|lia]. apply list_lookup_insert_eq. by eapply lookup_lt_Some.
  - exists z. split; [|done]. by rewrite list_lookup_insert_ne.
Qed.

(** A transition keeps the invariant; [x0] is what the server was when the
    invariant held. *)
Lemma moved_inv e d d1 d' i x0 x y :
  ls_inv e d → e ≤ n → 1 ≤ i ≤ e → ld_states d !! i = Some x0 →
  st_status x0 = STATE_CONNECTING ∨ is_reading (st_status x0) = true →
  sv_moved i x y d1 d' → d1 = set_ld_states (<[i := x]> (ld_states d)) d →
  st_hname x = st_hname x0 → st_ntries x = st_ntries x0 → ls_inv e d' ∧ later d d'.
Proof.
  intros Hinv He Hi Hx0 Hs0 [M1 M2 M3 M4 M5 M6 M7 M8 M9 M10 M11 M12] -> Hn Ht. cbn in *.
  rewrite list_insert_insert_eq in M1.
  destruct (co_fine _ _ Hinv i x0) as (_ & _ & Hmax & Hz & Hup0 & _); [lia|done|].
  assert (st_status x0 ≠ STATE_LOOKUP ∧ st_status x0 ≠ STATE_DONE) as [Hnl Hnd] by
    (by split; intros E; rewrite E in Hs0; destruct Hs0).
  assert (st_status y ≠ STATE_LOOKUP) as Hyl by (by intros E; rewrite E in M10; destruct M10 as [?|[?|?]]).
  split; [|eapply later_insert; [done|done|by rewrite M9, Ht]].
  apply (ls_inv_update e d d' i x0 y); try done.
  - split; [by intros E; rewrite E in M10; destruct M10 as [?|[?|?]]|].
    split; [by intros E; rewrite E in M10; destruct M10 as [?|[?|?]]|].
    rewrite M9, Ht. split; [done|]. split; [|by split]. intros E. by apply Hz in E.
  - by rewrite M8.
  - rewrite M2. split; [apply (co_tries _ _ Hinv)|]. intros k v Hv. exists v. split; [done|].
    unfold waits. rewrite !bool_decide_eq_false_2 by done. cbn. lia.
  - rewrite M4. unfold is_done at 2. rewrite bool_decide_eq_false_2 by done. cbn. lia.
  - rewrite M5, M4, M3, (co_nok _ _ Hinv). lia.
  - split; [|done]. unfold listed_line. by rewrite bool_decide_eq_false_2 by done.
  - apply M7; [lia|]. apply (co_fds _ _ Hinv).
  - rewrite M3. lia.
Qed.

Lemma ls_inv_get e i d : ls_inv e d → i ≤ n → ∃ x, ld_states d !! i = Some x.
Proof.
  intros Hinv Hi. apply lookup_lt_is_Some. rewrite (co_len _ _ Hinv).
  pose proof (co_n _ _ Hinv). lia.
Qed.

#[local] Instance being_tried_dec x : Decision (being_tried x).
Proof. unfold being_tried. apply _. Defined.

(** An event for any server. *)
Lemma handle_event_inv k e i d :
  plain_list → kernel_fine k → ls_inv e d → e ≤ n → i ≤ n →
  ∃ d', server_handle_event o canned_query k i d = (Ok (), d') ∧ ls_inv e d' ∧ later d d'.
Proof.
  intros Hp Hk Hinv He Hi.
  destruct (ls_inv_get e i d Hinv Hi) as [x Hx].
  destruct (decide (being_tried x)) as [Hb|Hb].
  - destruct (decide (i = 0)) as [->|Hi0].
    { destruct (co_zero _ _ Hinv) as (x' & Hx' & Hs). simplify_eq. destruct Hb as [Hb _]. rewrite Hs in Hb. naive_solver. }
    destruct (co_fine _ _ Hinv i x) as (Hc & Hc2 & _ & Hz & _ & Hfd); [lia|done|].
    assert (i ≤ e) as Hie.
    { destruct (decide (i ≤ e)) as [|Hgt]; [done|]. destruct Hb as [Hb _].
      rewrite (Hz (co_beyond _ _ Hinv i x ltac:(lia) Hx)) in Hb. naive_solver. }
    destruct (handle_event_moves k i x d) as (y & d' & Hrun & Hm); [done..|].
    exists d'. split; [done|]. apply (moved_inv e d d d' i x x y); try done; [lia| |].
    + destruct Hb as [Hb _]. naive_solver.
    + rewrite list_insert_id by done. by destruct d.
  - exists d. split; [|split; [done|reflexivity]].
    unfold server_handle_event. rewrite (bind_Ok (ls_get i) _ d x d) by (unfold ls_get; by rewrite Hx).
    assert (st_status x = STATE_LOOKUP ∨ st_status x = STATE_DONE) as Hs.
    { destruct (decide (i = 0)) as [->|Hi0].
      { destruct (co_zero _ _ Hinv) as (x' & Hx' & Hs). simplify_eq. by left. }
      destruct (co_fine _ _ Hinv i x) as (Hc & Hc2 & _ & _ & Hup & _); [lia|done|].
      unfold being_tried in Hb. destruct (st_up x); [by right; apply Hup|].
      destruct (st_status x); auto; exfalso; apply Hb; naive_solver. }
    rewrite decide_False by (by destruct Hs as [-> | ->]).
    rewrite (bind_Ok _ _ d () d) by (unfold server_step; by destruct Hs as [-> | ->]).
    rewrite (bind_Ok (ls_get i) _ d x d) by (unfold ls_get; by rewrite Hx).
    rewrite decide_False by (by destruct Hs as [-> | ->]). done.
Qed.

(** [m] succeeds and keeps the invariant. *)
Definition ls_keeps {A} (e : nat) (m : M lsd A) (d : lsd) (P : A → lsd → Prop) : Prop :=
  ∃ a d', m d = (Ok a, d') ∧ ls_inv e d' ∧ later d d' ∧ P a d'.

Lemma ls_keeps_bind {A B} e (m : M lsd A) (k : A → M lsd B) d P Q :
  ls_keeps e m d P → (∀ a d', ls_inv e d' → later d d' → P a d' → ls_keeps e (k a) d' Q) →
  ls_keeps e (bind m k) d Q.
Proof.
  intros (a & d1 & H1 & Hi & Hl & HP) Hk. destruct (Hk a d1 Hi Hl HP) as (b & d2 & H2 & Hi2 & Hl2 & HQ).
  exists b, d2. rewrite (bind_Ok _ _ _ _ _ H1). split; [done|]. split; [done|]. split; [by transitivity d1|done].
Qed.

Lemma ls_keeps_ret {A} e (a : A) d (P : A → lsd → Prop) : ls_inv e d → P a d → ls_keeps e (ret a) d P.
Proof. intros. exists a, d. split; [done|]. split; [done|]. split; [reflexivity|done]. Qed.

Lemma ls_keeps_get {B} e i d (k : state_s → M lsd B) P :
  ls_inv e d → i ≤ n → (∀ x, ld_states d !! i = Some x → ls_keeps e (k x) d P) →
  ls_keeps e (bind (ls_get i) k) d P.
Proof.
  intros Hinv Hi Hk. destruct (ls_inv_get e i d Hinv Hi) as [x Hx].
  destruct (Hk x Hx) as (b & d' & H & Hrest). exists b, d'.
  by rewrite (bind_Ok (ls_get i) _ d x d) by (unfold ls_get; by rewrite Hx).
Qed.

Lemma ls_keeps_gets {A B} e (f : lsd → A) (k : A → M lsd B) d P :
  ls_keeps e (k (f d)) d P → ls_keeps e (bind (gets f) k) d P.
Proof. done. Qed.

Lemma handle_event_keeps k e i d :
  plain_list → kernel_fine k → ls_inv e d → e ≤ n → i ≤ n →
  ls_keeps e (server_handle_event o canned_query k i) d (λ _ _, True).
Proof.
  intros. destruct (handle_event_inv k e i d) as (d' & Hd & Hinv & Hl); [done..|]. by exists (), d'.
Qed.

(** Setting what is not counted. *)
Lemma ls_set_keeps e i x y d :
  plain_list → ls_inv e d → 1 ≤ i ≤ n → ld_states d !! i = Some x →
  st_hname y = st_hname x → st_ntries y = st_ntries x → st_status y = st_status x → st_up y = st_up x →
  st_addr y = st_addr x → st_fd y = st_fd x →
  ls_keeps e (ls_set i y) d (λ _ _, True).
Proof.
  intros Hp Hinv Hi Hx E1 E2 E3 E4 E5 E6. exists (), (set_ld_states (<[i := y]> (ld_states d)) d).
  split; [done|]. split; [|split; [eapply later_insert; [done|done|by rewrite E2]|done]].
  destruct Hinv as [Hl Hn0 H0 [Ht1 Ht2] Hd Hk Ho Hf Hb Hs Hn].
  assert (i < length (ld_states d)) as Hlt by by apply lookup_lt_Some in Hx.
  split; cbn; try done.
  - by rewrite length_insert.
  - by rewrite list_lookup_insert_ne by lia.
  - split; [done|]. intros k v Hv. rewrite (Ht2 k v Hv). f_equal. symmetry. f_equal.
    apply (collect_same _ _ _ _ x); [lia|done|]. unfold waits. by rewrite E2, E3.
  - rewrite Hd. f_equal. f_equal. symmetry. apply (collect_same _ _ _ _ x); [lia|done|]. unfold is_done. by rewrite E3.
  - rewrite Ho. symmetry. apply reflexive_eq, (collect_same _ _ _ _ x); [lia|done|].
    unfold listed_line, server_line. by rewrite E1, E3, E4, E5, (pl_latency Hp).
  - intros j z Hj Hz. destruct (decide (i = j)) as [->|Hne].
    + rewrite list_lookup_insert_eq in Hz by done. injection Hz as <-. rewrite E2. by eapply Hb.
    + rewrite list_lookup_insert_ne in Hz by done. by eapply Hb.
  - intros j z Hj Hz. destruct (decide (i = j)) as [->|Hne].
    + rewrite list_lookup_insert_eq in Hz by done. injection Hz as <-. unfold server_fine, in_use, has_fd. rewrite E2, E3, E4, E6.
      by apply (Hs j x).
    + rewrite list_lookup_insert_ne in Hz by done. by eapply Hs.
  - intros j z a Hz Ha. destruct (decide (i = S j)) as [->|Hne].
    + rewrite list_lookup_insert_eq in Hz by done. injection Hz as <-. rewrite E1. by eapply Hn.
    + rewrite list_lookup_insert_ne in Hz by done. by eapply Hn.
Qed.

(** A request is sent, or sent again. *)
Lemma one_more_try_keeps e i x d :
  ls_inv e d → 1 ≤ i ≤ e → e ≤ n → ld_states d !! i = Some x → st_status x = STATE_LOOKUP → st_ntries x < MAXTRIES →
  ls_keeps e (one_more_try i x) d (λ _ _, True).
Proof.
  intros Hinv Hi He Hx Hs Hlt. destruct (co_tries _ _ Hinv) as [Ht1 Ht2].
  destruct (lookup_lt_is_Some_2 (ld_tries d) (st_ntries x)) as [u Hu]; [lia|].
  destruct (lookup_lt_is_Some_2 (ld_tries d) (S (st_ntries x))) as [v Hv]; [lia|].
  eexists (), _. split.
  { unfold one_more_try, bind, count_tries, ls_set, modify. rewrite Hu. cbn.
    rewrite list_lookup_insert_ne, Hv by lia. reflexivity. }
  split; [|split; [apply (later_insert d _ i x (set_st_ntries (S (st_ntries x)) x)); [done|reflexivity|cbn; lia]|done]].
  destruct (co_fine _ _ Hinv i x) as (H1 & H2 & H3 & H4 & H5 & H6); [lia|done|].
  eapply (ls_inv_update e d _ i x (set_st_ntries (S (st_ntries x)) x)); try done; cbn.
  - split; [by rewrite !length_insert|]. intros k w Hw.
    unfold waits. cbn [st_status st_ntries set_st_ntries]. rewrite Hs, !(bool_decide_eq_true_2 (STATE_LOOKUP = STATE_LOOKUP)) by done. cbn [andb].
    destruct (decide (k = S (st_ntries x))) as [->|Hk1].
    { rewrite list_lookup_insert_eq in Hw by (rewrite length_insert; lia). injection Hw as <-. exists v. split; [done|].
      rewrite (proj2 (Nat.eqb_neq (st_ntries x) (S (st_ntries x)))) by lia. rewrite Nat.eqb_refl. cbn. lia. }
    rewrite list_lookup_insert_ne in Hw by done. rewrite (proj2 (Nat.eqb_neq (S (st_ntries x)) k)) by done.
    destruct (decide (k = st_ntries x)) as [->|Hk2].
    { rewrite list_lookup_insert_eq in Hw by lia. injection Hw as <-. exists u. split; [done|].
      rewrite Nat.eqb_refl. cbn. lia. }
    rewrite list_lookup_insert_ne in Hw by done. exists w. split; [done|].
    rewrite (proj2 (Nat.eqb_neq (st_ntries x) k)) by done. cbn. lia.
  - unfold is_done. cbn. lia.
  - apply (co_nok _ _ Hinv).
  - unfold listed_line. cbn. rewrite Hs. cbn. by rewrite app_nil_r.
  - apply (co_fds _ _ Hinv).
Qed.

Section turn.
Context (r : poll_round).
Hypothesis Hplain : plain_list.
Hypothesis Hkernel : ∀ i, kernel_fine (r_kernel r i).

Lemma timeout_loop_keeps e js d :
  ls_inv e d → e ≤ n → Forall (λ i, 1 ≤ i ≤ e) js →
  ls_keeps e (timeout_loop o canned_query r js) d (λ found _, from_option (λ i, 1 ≤ i ≤ e) True found).
Proof.
  intros Hinv He Hjs. revert d Hinv. induction Hjs as [|i js Hi _ IH]; intros d Hinv; cbn [timeout_loop]; [by apply ls_keeps_ret|].
  apply ls_keeps_get; [done|lia|]. intros x Hx. cbv zeta.
  match goal with |- context [if ?b then _ else _] => destruct b eqn:Hr end.
  { rewrite !andb_true_iff, bool_decide_eq_true in Hr. destruct Hr as [[[Hs _] Hlt%Nat.ltb_lt] _].
    eapply ls_keeps_bind; [by apply one_more_try_keeps|]. intros a d' Hinv' _ _. by apply ls_keeps_ret. }
  eapply (ls_keeps_bind _ _ _ _ (λ _ _, True)); [|intros a d' Hinv' _ _; by apply IH].
  destruct ((_ || _) && _) eqn:Hc; [|by apply ls_keeps_ret].
  rewrite andb_true_iff, orb_true_iff, bool_decide_eq_true in Hc. destruct Hc as [Hs _].
  destruct (co_fine _ _ Hinv i x) as (_ & _ & _ & _ & Hup & Hfd); [lia|done|].
  assert (st_up x = false) as Hu.
  { destruct (st_up x); [|done]. rewrite Hup in Hs by done. naive_solver. }
  set (x' := set_st_status STATE_CLOSE x).
  destruct (handle_event_moves (r_kernel r i) i x' (set_ld_states (<[i := x']> (ld_states d)) d)) as (y & d' & Hrun & Hm).
  { done. } { done. } { cbn. apply list_lookup_insert_eq. by eapply lookup_lt_Some. }
  { split; [naive_solver|done]. } { by intros [?|?]. }
  unfold bind, ls_set, modify. exists (), d'. split; [done|].
  destruct (moved_inv e d _ d' i x x' y Hinv He Hi Hx Hs Hm) as [Hinv' Hl]; [done..|]. done.
Qed.

Lemma fresh_loop_keeps e js d :
  ls_inv e d → e ≤ n → Forall (λ i, 1 ≤ i ≤ e) js →
  ls_keeps e (fresh_loop js) d (λ found _, from_option (λ i, 1 ≤ i ≤ e) True found).
Proof.
  intros Hinv He Hjs. revert d Hinv. induction Hjs as [|i js Hi _ IH]; intros d Hinv; cbn [fresh_loop]; [by apply ls_keeps_ret|].
  apply ls_keeps_get; [done|lia|]. intros x Hx.
  destruct (bool_decide _ && _) eqn:Hr; [|by apply IH].
  rewrite andb_true_iff, bool_decide_eq_true, Nat.eqb_eq in Hr. destruct Hr as [Hs Hz].
  eapply ls_keeps_bind; [apply one_more_try_keeps; try done; rewrite Hz; unfold MAXTRIES; lia|].
  intros a d' Hinv' _ _. by apply ls_keeps_ret.
Qed.

Definition polled (fd : option nat) : Prop := ∃ f, fd = Some f ∧ f < MAXHOSTS + 1000.

Lemma poll_fds_polled e js d :
  ls_inv e d → e ≤ n → Forall (λ i, 1 ≤ i ≤ e) js → Forall polled (poll_fds (ld_states d) js).
Proof.
  intros Hinv He Hjs. apply Forall_forall. intros fd Hfd. unfold poll_fds in Hfd.
  apply list_elem_of_omap in Hfd as (i & Hi & Hfd). rewrite Forall_forall in Hjs. specialize (Hjs i Hi).
  destruct (ld_states d !! i) as [x|] eqn:Hx; [|done].
  destruct (co_fine _ _ Hinv i x) as (_ & _ & _ & _ & _ & Huse); [lia|done|].
  destruct (_ || _) eqn:E; [|done]. injection Hfd as <-. apply Huse.
  rewrite orb_true_iff, bool_decide_eq_true in E. done.
Qed.

Lemma grind_keeps e fds d :
  ls_inv e d → e ≤ n → Forall polled fds → ls_keeps e (grind o canned_query r fds) d (λ _ _, True).
Proof.
  intros Hinv He Hfds. revert d Hinv.
  induction Hfds as [|fd fds (f & -> & Hf) _ IH]; intros d Hinv; cbn [grind]; [by apply ls_keeps_ret|].
  apply ls_keeps_gets. eapply (ls_keeps_bind _ _ _ _ (λ _ _, True)); [|intros a d' Hinv' _ _; by apply IH].
  rewrite (proj2 (Nat.ltb_lt _ _) Hf). cbn [negb]. destruct (r_ready r f); [|by apply ls_keeps_ret].
  apply handle_event_keeps; try done. destruct (ld_fd2state d !! f) as [j|] eqn:E; cbn; [|lia].
  by apply (co_fds _ _ Hinv f j).
Qed.

Lemma highest_tried_bounds states m a h :
  h ≤ a → let t := highest_tried states (seq a m) h in
  h ≤ t ∧ t ≤ Nat.max h (a + m - 1) ∧
  ∀ i x, a ≤ i < a + m → states !! i = Some x → 0 < st_ntries x → i ≤ t.
Proof.
  revert a h. induction m as [|m IH]; intros a h Hh; cbn [seq highest_tried]; [split; [done|]; split; lia|].
  set (h' := match states !! a with Some sp => if 0 <? st_ntries sp then a else h | None => h end).
  assert (h ≤ h' ≤ a) as Hh'.
  { unfold h'. destruct (states !! a) as [sp|]; [|lia]. destruct (0 <? st_ntries sp); lia. }
  destruct (IH (S a) h') as (H1 & H2 & H3); [lia|]. split; [lia|].
  assert (h' = h ∨ h' = a) as Hor.
  { unfold h'. destruct (states !! a) as [sp|]; [|by left]. destruct (0 <? st_ntries sp); auto. }
  split; [lia|]. intros i x Hi Hx Hn. destruct (decide (i = a)) as [->|Hne]; [|apply (H3 i x); [lia|done..]].
  assert (h' = a) as Ha; [|lia]. unfold h'. rewrite Hx. by rewrite (proj2 (Nat.ltb_lt _ _) Hn).
Qed.

Lemma ls_inv_lower e e' d :
  ls_inv e d → (∀ i x, e' < i ≤ n → ld_states d !! i = Some x → st_ntries x = 0) →
  (lo_dnsgap o < ld_baddns d)%Z → ls_inv e' d.
Proof. intros [] H Hg. by split. Qed.

(** A server that was looked up is now something else. *)
Lemma answered_inv e d d' id x y u :
  ls_inv e d → 1 ≤ id ≤ e → e ≤ n → ld_states d !! id = Some x → st_status x = STATE_LOOKUP → 0 < st_ntries x →
  ld_tries d !! st_ntries x = Some u →
  st_hname y = st_hname x → st_ntries y = st_ntries x → (st_up y = true → st_status y = STATE_DONE) →
  st_status y = STATE_CONNECTING ∨ is_reading (st_status y) = true ∨ st_status y = STATE_DONE →
  (in_use y → has_fd y) → ld_states d' = <[id := y]> (ld_states d) →
  ld_tries d' = <[st_ntries x := (u + -1)%Z]> (ld_tries d) →
  ld_ndone d' = (ld_ndone d + olen (is_done y))%Z → ld_nok d' = (ld_ndone d' - ld_baddns d')%Z →
  ld_out d' = ld_out d ++ option_list (listed_line y) → map_Forall (λ _ j, j ≤ n) (ld_fd2state d') →
  (ld_baddns d ≤ ld_baddns d')%Z → ls_inv e d' ∧ later d d'.
Proof.
  intros Hinv Hid He Hx Hs Hn Hu Hname Hny Hup Hst Huse Hd1 Hd2 Hd3 Hd4 Hd5 Hd6 Hd7.
  destruct (co_fine _ _ Hinv id x) as (_ & _ & Hmax & _ & _); [lia|done|].
  assert (st_status y ≠ STATE_LOOKUP ∧ st_status y ≠ STATE_CLOSE ∧ st_status y ≠ STATE_CONNECT) as (Hyl & Hyc & Hyn).
  { repeat split; intros E; rewrite E in Hst; naive_solver. }
  split; [|eapply later_insert; [done|done|by rewrite Hny]].
  apply (ls_inv_update e d d' id x y); try done.
  - unfold server_fine. rewrite Hny. repeat split; try done. lia.
  - destruct (co_tries _ _ Hinv) as [Ht1 Ht2]. rewrite Hd2, length_insert. split; [done|]. intros k v Hv.
    unfold waits. rewrite (bool_decide_eq_false_2 (st_status y = _)), Hs, bool_decide_eq_true_2 by done. cbn [andb olen].
    destruct (decide (k = st_ntries x)) as [->|Hk].
    + rewrite list_lookup_insert_eq in Hv by lia. injection Hv as <-. exists u. split; [done|].
      rewrite Nat.eqb_refl. cbn. lia.
    + rewrite list_lookup_insert_ne in Hv by done. exists v. split; [done|].
      rewrite (proj2 (Nat.eqb_neq (st_ntries x) k)) by done. cbn. lia.
  - rewrite Hd3. unfold is_done at 2. rewrite Hs, bool_decide_eq_false_2 by done. cbn. lia.
  - split; [|done]. unfold listed_line. by rewrite Hs, bool_decide_eq_false_2 by done.
Qed.

(** An answer of the slaves, for a name that was asked for. *)
Lemma dns_result_inv e id err addr d x :
  ls_inv e d → e ≤ n → id ≤ n → 1 ≤ id → ld_states d !! id = Some x → 0 < st_ntries x →
  ∃ e' d', dns_result o canned_query r 1 e id err addr d = (Ok e', d') ∧ e' ≤ e ∧ ls_inv e' d' ∧ later d d'.
Proof.
  intros Hinv He Hid H1 Hx Hn. unfold dns_result.
  assert (id ≤ e) as Hide.
  { destruct (decide (id ≤ e)) as [|Hgt]; [done|]. rewrite (co_beyond _ _ Hinv id x) in Hn by (done || lia). lia. }
  rewrite (proj2 (Nat.leb_le 1 id)), (proj2 (Nat.leb_le id e)) by done. cbn [andb negb].
  rewrite (bind_Ok (ls_get id) _ d x d) by (unfold ls_get; by rewrite Hx).
  destruct (bool_decide (st_status x = STATE_LOOKUP)) eqn:Hs; cbn [negb];
    [|exists e, d; split; [done|]; split; [done|]; split; [done|reflexivity]].
  apply bool_decide_eq_true in Hs.
  destruct (co_fine _ _ Hinv id x) as (_ & _ & Hmax & _ & Hup & _); [lia|done|].
  assert (st_up x = false) as Hu by (destruct (st_up x); [|done]; specialize (Hup eq_refl); congruence).
  destruct (co_tries _ _ Hinv) as [Ht1 Ht2].
  destruct (lookup_lt_is_Some_2 (ld_tries d) (st_ntries x)) as [u Hu']; [lia|].
  rewrite (bind_Ok (count_tries _ _) _ d () (set_ld_tries (<[st_ntries x := (u + -1)%Z]> (ld_tries d)) d))
    by (unfold count_tries; by rewrite Hu').
  set (d1 := set_ld_tries _ d). set (sp := set_st_addr addr x).
  rewrite (bind_Ok (ls_set id sp) _ d1 () (set_ld_states (<[id := sp]> (ld_states d)) d1)) by done.
  set (d2 := set_ld_states _ d1). cbv zeta.
  match goal with |- context [bind (modify ?f) _] => rewrite (bind_Ok (modify f) _ d2 () (f d2)) by done; set (d3 := f d2) end.
  rewrite (bind_Ok (gets _) _ d3 d3 d3) by done. cbv zeta.
  assert (id < length (ld_states d)) as Hlt by by eapply lookup_lt_Some.
  match goal with |- context [if ?b then _ else _] => destruct b end.
  - set (y := set_st_status STATE_DONE sp).
    set (d4 := set_ld_dns (ld_gotaddr d3) (ld_baddns d3 + 1) (ld_first d3) (set_ld_counts (ld_nok d3) (ld_ndone d3 + 1)
      (set_ld_states (<[id := y]> (ld_states d3)) d3))).
    destruct (answered_inv e d d4 id x y u) as [Hinv' Hl]; try done; cbn.
    + by right; right.
    + by intros [?|?].
    + by rewrite list_insert_insert_eq.
    + rewrite (co_nok _ _ Hinv). lia.
    + unfold listed_line. cbn. by rewrite Hu, app_nil_r.
    + apply (co_fds _ _ Hinv).
    + lia.
    + change (∃ e' d', (if (lo_dnsgap o <? ld_baddns d4)%Z
        then ret (highest_tried (ld_states d4) (seq 1 (S e - 1)) 0) else ret e) d4 = (Ok e', d') ∧
        e' ≤ e ∧ ls_inv e' d' ∧ later d d').
      destruct (highest_tried_bounds (ld_states d4) (S e - 1) 1 0) as (_ & Hhi & Hlast); [lia|].
      destruct (Z.ltb_spec (lo_dnsgap o) (ld_baddns d4)) as [Hgap|]; [|exists e, d4; split; [reflexivity|]; by split].
      exists (highest_tried (ld_states d4) (seq 1 (S e - 1)) 0), d4. split; [done|]. split; [lia|]. split; [|done].
      apply (ls_inv_lower e); [done| |exact Hgap]. intros i z Hi Hz.
      destruct (decide (i ≤ e)) as [Hie|Hie]; [|apply (co_beyond _ _ Hinv' i z); [lia|done]].
      destruct (decide (st_ntries z = 0)) as [|Hnz]; [done|]. specialize (Hlast i z ltac:(lia) Hz). lia.
  - set (x' := set_st_status STATE_CONNECT sp).
    rewrite (bind_Ok (ls_set id x') _ d3 () (set_ld_states (<[id := x']> (ld_states d3)) d3)) by done.
    set (d4 := set_ld_states _ d3).
    destruct (handle_event_moves (r_kernel r id) id x' d4) as (y & d' & Hrun & [M1 M2 M3 M4 M5 M6 M7 M8 M9 M10 M11 M12]).
    { done. } { done. } { cbn. rewrite list_insert_insert_eq. by apply list_lookup_insert_eq. }
    { split; [by left|done]. } { by intros [?|?]. }
    rewrite (bind_Ok _ _ _ _ _ Hrun). exists e, d'. split; [done|]. split; [done|].
    apply (answered_inv e d d' id x y u); try done.
    + rewrite M1. cbn. by rewrite !list_insert_insert_eq.
    + rewrite M5, M4, M3. cbn. rewrite (co_nok _ _ Hinv). lia.
    + apply M7; [lia|]. apply (co_fds _ _ Hinv).
    + rewrite M3. cbn. lia.
Qed.
End turn.

(** What a turn may see: sockets can be made, and the slaves answer what they
    were asked. *)
Definition round_fine (f : lsd → poll_round) : Prop := ∀ d,
  (∀ i, kernel_fine (r_kernel (f d) i)) ∧
  ∀ id err addr, r_result (f d) = Some (Some (id, err, addr)) →
    1 ≤ id ≤ n ∧ ∃ x, ld_states d !! id = Some x ∧ 0 < st_ntries x.

Lemma one_poll_loop_inv f e d :
  plain_list → round_fine f → ls_inv e d → e ≤ n →
  (r_fails (f d) = true ∧ one_poll_loop o canned_query (f d) 1 e d = (Exit 1, d)) ∨
  ∃ e' d', one_poll_loop o canned_query (f d) 1 e d = (Ok e', d') ∧ e' ≤ e ∧ ls_inv e' d'.
Proof.
  intros Hp Hf Hinv He. destruct (Hf d) as [Hk Hres]. set (r := f d) in *. unfold one_poll_loop.
  rewrite (bind_Ok (gets _) _ d d d) by done. cbv zeta.
  destruct (r_fails r) eqn:Efail; [by left|]. right.
  assert (Forall (λ i, 1 ≤ i ≤ e) (seq 1 (S e - 1))) as Hjs.
  { apply Forall_forall. intros i Hi%elem_of_seq. lia. }
  destruct (timeout_loop_keeps r Hp Hk e _ d Hinv He Hjs) as (found & d1 & H1 & Hinv1 & Hl1 & Hf1).
  rewrite (bind_Ok _ _ _ _ _ H1), (bind_Ok (gets _) _ d1 d1 d1) by done.
  match goal with |- context [bind ?m _] =>
    assert (ls_keeps e m d1 (λ found _, from_option (λ i, 1 ≤ i ≤ e) True found)) as (found' & d2 & H2 & Hinv2 & Hl2 & Hf2)
  end.
  { destruct found as [i|]; [by apply ls_keeps_ret|]. destruct (_ && _); [|by apply ls_keeps_ret].
    by apply fresh_loop_keeps. }
  rewrite (bind_Ok _ _ _ _ _ H2).
  match goal with |- context [bind ?m _] =>
    assert (ls_keeps e m d2 (λ _ _, True)) as ([] & d3 & H3 & Hinv3 & Hl3 & _)
  end.
  { destruct found' as [i|]; [|by apply ls_keeps_ret]. cbn in Hf2. apply ls_keeps_get; [done|lia|]. intros x Hx.
    rewrite deadline_fine by apply Hp. cbn [throw bind]. by apply (ls_set_keeps _ _ x); [|done|lia|..]. }
  rewrite (bind_Ok _ _ _ _ _ H3).
  assert (later d d3) as Hl by (by transitivity d1; [|transitivity d2]).
  match goal with |- context [bind ?m _] =>
    assert (∃ e' d4, m d3 = (Ok e', d4) ∧ e' ≤ e ∧ ls_inv e' d4) as (e' & d4 & H4 & He' & Hinv4)
  end.
  { destruct (r_result r) as [[[[id err] addr]|]|] eqn:E; [|by exists e, d3..].
    destruct (Hres _ _ _ eq_refl) as (Hid & x & Hx & Hn). destruct (Hl id x Hx Hn) as (x' & Hx' & Hn').
    destruct (dns_result_inv r Hp Hk e id err addr d3 x') as (e' & d4 & H4 & He' & Hinv4 & _); [done..|lia|lia|done|done|].
    by exists e', d4. }
  rewrite (bind_Ok _ _ _ _ _ H4).
  destruct (grind_keeps r Hp Hk e' (poll_fds (ld_states d) (seq 1 (S e - 1))) d4 Hinv4) as ([] & d5 & H5 & Hinv5 & _);
    [lia|by apply (poll_fds_polled e)|].
  rewrite (bind_Ok _ _ _ _ _ H5). by exists e', d5.
Qed.

Lemma omap_full {A B} (g : A → option B) (l : list A) :
  length l ≤ length (omap g l) → ∀ x, x ∈ l → is_Some (g x).
Proof.
  assert (∀ l : list A, length (omap g l) ≤ length l) as Hle.
  { intros l0. induction l0 as [|x l0 IH]; [done|]. cbn. destruct (g x); cbn; lia. }
  induction l as [|x l IH]; intros Hl y Hy; [by apply elem_of_nil in Hy|]. cbn in Hl. specialize (Hle l).
  destruct (g x) eqn:E; [|cbn in Hl; lia]. apply elem_of_cons in Hy as [->|Hy]; [by eexists|]. apply IH; [|done].
  cbn in Hl. lia.
Qed.

(** When as many are done as there are, all are. *)
Lemma all_done e d :
  ls_inv e d → e ≤ n → (Z.of_nat e ≤ ld_ndone d)%Z →
  ∀ i x, 1 ≤ i ≤ e → ld_states d !! i = Some x → st_status x = STATE_DONE.
Proof.
  intros Hinv He Hd i x Hi Hx. rewrite (co_done _ _ Hinv) in Hd. unfold collect in Hd.
  replace n with (e + (n - e)) in Hd by lia. rewrite seq_app, omap_app, length_app in Hd.
  rewrite (omap_same _ (λ _, None) (seq (1 + e) (n - e))) in Hd.
  2: { intros j Hj%elem_of_seq. destruct (ls_inv_get e j d Hinv) as [z Hz]; [lia|]. rewrite Hz. cbn.
       destruct (co_fine _ _ Hinv j z) as (_ & _ & _ & Hz0 & _); [lia|done|].
       unfold is_done. rewrite Hz0; [done|]. apply (co_beyond _ _ Hinv j z); [lia|done]. }
  assert (∀ l : list nat, omap (λ _, @None ()) l = []) as Hnone by (induction l; done).
  rewrite Hnone in Hd. cbn [length] in Hd.
  destruct (omap_full (λ i, ld_states d !! i ≫= is_done) (seq 1 e)) with i as [y Hy].
  { rewrite length_seq. lia. } { apply elem_of_seq. lia. }
  rewrite Hx in Hy. cbn in Hy. unfold is_done in Hy. by case_bool_decide.
Qed.

Definition ls_ended (d : lsd) : Prop := ∃ e, e ≤ n ∧ ls_inv e d ∧
  ∀ i x, 1 ≤ i ≤ e → ld_states d !! i = Some x → st_status x = STATE_DONE.

(** The rounds are over (the alarm), and a server is not done yet. *)
Definition ls_cut_off (d : lsd) : Prop := ∃ e, e ≤ n ∧ ls_inv e d ∧ (ld_ndone d < Z.of_nat e)%Z.

(** [poll] failed in this state. *)
Definition poll_failed (rounds : list (lsd → poll_round)) (d : lsd) : Prop := ∃ f, f ∈ rounds ∧ r_fails (f d) = true.

(** The search in one group. *)
Lemma search_inv rounds fuel maxfds e d :
  plain_list → Forall round_fine rounds → ls_inv e d → e ≤ n → length rounds < fuel →
  ∃ res d', search o canned_query fuel rounds n maxfds 1 e n d = (res, d') ∧
    (res = Exit 1 ∧ poll_failed rounds d' ∨ res = Ok None ∧ ls_cut_off d' ∨ res = Ok (Some ()) ∧ ls_ended d').
Proof.
  intros Hp Hr. revert fuel e d. induction Hr as [|f rounds Hf Hr IH]; intros [|fuel] e d Hinv He Hfuel;
    cbn [length] in Hfuel; try lia; cbn [search]; rewrite (bind_Ok (gets _) _ d d d) by done.
  all: destruct (Z.ltb_spec (ld_ndone d) (Z.of_nat e)) as [Hlt|Hge].
  2, 4: exists (Ok (Some ())), d; split;
    [destruct (Nat.ltb_spec e n); [done|]; by rewrite (proj2 (Nat.ltb_lt n (S e))) by lia
    |right; right; split; [done|]; exists e; split; [done|]; split; [done|]; by apply all_done].
  - exists (Ok None), d. split; [done|]. right. left. split; [done|]. by exists e.
  - destruct (one_poll_loop_inv f e d Hp Hf Hinv He) as [[Hf' H]|(e' & d' & H & He' & Hinv')].
    + exists (Exit 1), d. split; [by unfold bind; rewrite H|left]. split; [done|]. exists f. split; [set_solver|done].
    + rewrite (bind_Ok _ _ _ _ _ H). destruct (IH fuel e' d' Hinv') as (res & d2 & Hs & Hres); [lia|lia|].
      exists res, d2. split; [done|]. destruct Hres as [[-> (g & Hg & Hgf)]|Hres]; [left|by right].
      split; [done|]. exists g. split; [set_solver|done].
Qed.

(** The servers at the start. *)
Definition named (name : cstr) (x : state_s) : state_s :=
  State (take rslave_HOSTLEN name) (st_addr x) (st_start x) (st_deadline x) (st_hdr x) STATE_LOOKUP 0 (st_fd x) (st_up x).

Lemma init_loop_run sformat domain (nm : nat → cstr) m a d t :
  (∀ i, a ≤ i < a + m → get_thename o sformat domain i = Ok (nm i)) →
  a + m ≤ length (ld_states d) → ld_tries d !! 0 = Some t →
  ∃ s, init_states o sformat domain (seq a m) d =
         (Ok (), set_ld_tries (<[0 := (t + Z.of_nat m)%Z]> (ld_tries d)) (set_ld_states s d)) ∧
    length s = length (ld_states d) ∧
    ∀ i, s !! i = if decide (a ≤ i < a + m) then named (nm i) <$> ld_states d !! i else ld_states d !! i.
Proof.
  revert a d t. induction m as [|m IH]; intros a d t Hnm Hlen Ht; cbn [seq init_states].
  - exists (ld_states d). rewrite Z.add_0_r, list_insert_id by done. split; [by destruct d|]. split; [done|].
    intros i. by rewrite decide_False by lia.
  - rewrite (bind_Ok (throw _) _ d (nm a) d) by (unfold throw; by rewrite Hnm by lia).
    destruct (lookup_lt_is_Some_2 (ld_states d) a) as [x Hx]; [lia|].
    rewrite (bind_Ok (ls_get a) _ d x d) by (unfold ls_get; by rewrite Hx).
    set (d1 := set_ld_states (<[a := named (nm a) x]> (ld_states d)) d).
    rewrite (bind_Ok (ls_set a _) _ d () d1) by done.
    rewrite (bind_Ok (count_tries 0 1) _ d1 () (set_ld_tries (<[0 := (t + 1)%Z]> (ld_tries d)) d1))
      by (unfold count_tries; cbn; by rewrite Ht).
    destruct (IH (S a) (set_ld_tries (<[0 := (t + 1)%Z]> (ld_tries d)) d1) (t + 1)%Z) as (s & Hs & Hl & Hi).
    { intros i Hi. apply Hnm. lia. } { cbn. rewrite length_insert. lia. }
    { cbn. apply list_lookup_insert_eq. by eapply lookup_lt_Some. }
    exists s. rewrite Hs. cbn. rewrite list_insert_insert_eq. split; [by replace (t + Z.of_nat (S m))%Z with (t + 1 + Z.of_nat m)%Z by lia|].
    cbn in Hl, Hi. rewrite length_insert in Hl. split; [done|]. intros i. rewrite Hi.
    destruct (decide (i = a)) as [->|Hne].
    + rewrite decide_False, decide_True by lia. by rewrite list_lookup_insert_eq, Hx by lia.
    + rewrite list_lookup_insert_ne by done. by repeat case_decide; try lia.
Qed.

Lemma collect_const {A} (f : state_s → option A) c s m :
  (∀ i x, 1 ≤ i ≤ m → s !! i = Some x → f x = c) → m < length s →
  length (collect f m s) = match c with Some _ => m | None => 0 end.
Proof.
  intros Hf Hm. unfold collect. rewrite (omap_same _ (λ _, c)).
  - assert (∀ l : list nat, length (omap (λ _, c) l) = match c with Some _ => length l | None => 0 end) as Hl.
    { intros l. induction l as [|x l IH]; [by destruct c|]. cbn. destruct c; cbn in *; by rewrite ?IH. }
    by rewrite Hl, length_seq.
  - intros i Hi%elem_of_seq. destruct (lookup_lt_is_Some_2 s i) as [x Hx]; [lia|]. rewrite Hx. cbn. apply (Hf i); [lia|done].
Qed.

Lemma ls_inv_start s d :
  n ≤ MAXHOSTS → length s = S MAXHOSTS →
  (∀ i, s !! i = if decide (1 ≤ i < 1 + n) then named (default [] (names !! (i - 1))) <$> replicate (S MAXHOSTS) blank_state !! i
                 else replicate (S MAXHOSTS) blank_state !! i) →
  d = Lsd s ∅ 0 0 (<[0 := Z.of_nat n]> (replicate (S MAXTRIES) 0%Z)) 0 0 [] [] →
  ls_inv n d.
Proof.
  intros Hn Hl Hs ->.
  assert (∀ i x, 1 ≤ i ≤ n → s !! i = Some x → x = named (default [] (names !! (i - 1))) blank_state) as Hx.
  { intros i x Hi Hx. rewrite Hs, decide_True, lookup_replicate_2 in Hx by lia. by injection Hx as <-. }
  split; cbn [ld_states ld_fd2state ld_nok ld_ndone ld_tries ld_baddns ld_out]; try done.
  - exists blank_state. split; [|done]. by rewrite Hs, decide_False by lia.
  - split; [done|]. intros k v Hv. destruct (decide (k = 0)) as [->|Hk].
    + rewrite list_lookup_insert_eq in Hv by (cbn; lia). injection Hv as <-.
      rewrite (collect_const _ (Some ())); [done| |lia]. intros i x Hi Hxi. by rewrite (Hx i x Hi Hxi).
    + rewrite list_lookup_insert_ne in Hv by done. apply lookup_replicate in Hv as [-> _].
      rewrite (collect_const _ None); [done| |lia]. intros i x Hi Hxi. rewrite (Hx i x Hi Hxi). unfold waits, named. cbn.
      by destruct k.
  - rewrite (collect_const _ None); [done| |lia]. intros i x Hi Hxi. by rewrite (Hx i x Hi Hxi).
  - apply reflexive_eq. symmetry. apply nil_length_inv.
    rewrite (collect_const _ None); [done| |lia]. intros i x Hi Hxi. by rewrite (Hx i x Hi Hxi).
  - intros i x Hi. lia.
  - intros i x Hi Hxi. rewrite (Hx i x Hi Hxi). unfold server_fine, named, MAXTRIES. cbn.
    repeat split; try done; [lia|by intros [?|?]].
  - intros i x a Hxi Ha. assert (i < n) as Hi by by eapply lookup_lt_Some.
    rewrite (Hx (S i) x) by (done || lia). cbn. by rewrite Nat.sub_0_r, Ha.
  - lia.
Qed.

End counting.

Lemma get_thename_list o names domain i a :
  lo_domain o = 0%Z → from_option (λ a, strstr a "%d"%cs = None) False (head names) →
  names !! (i - 1) = Some a → length a < 256 → get_thename o names domain i = Ok a.
Proof.
  intros Hd Hf Ha Hl. destruct names as [|b names]; [done|]. cbn in Hf. unfold get_thename. rewrite Hf, Ha, Hd. cbn [Z.eqb].
  by rewrite (proj2 (Nat.ltb_lt _ _) Hl).
Qed.


(** ** A server that is read from *)

Section probing.
Context (o : lsopts) (canned_query : cstr).

(** How much a read asks for. *)
Definition read_size (x : state_s) : nat :=
  match st_status x with
  | STATE_READ_DONEPKT | STATE_READ_STATPKT => 12 - length (st_hdr x)
  | STATE_READ_REST => 1000
  | _ => 0
  end.

(** The stream [s] as it comes: [S sz] bytes are there for the next read, or
    nothing is left. *)
Fixpoint probe (i : nat) (k : ls_kernel) (s : cstr) (sizes : list nat) : M lsd unit :=
  match sizes with
  | [] => ret ()
  | sz :: sizes =>
      let! x := ls_get i in
      let got := take (Nat.min (S sz) (read_size x)) s in
      do! server_handle_event o canned_query
        (Kernel (k_socket k) (k_connect k) (k_sockerr k) (k_sent k) (Some got) (k_now k) (k_later k)) i;
      probe i k (drop (length got) s) sizes
  end.

(** What a good answer is. *)
Definition good_answer (s : cstr) : bool :=
  (24 <=? length s) && header_is "DONE"%cs (lo_protocol o) (take 12 s) && header_is "STAT"%cs 0 (take 12 (drop 12 s)).

(** What will be found, when the rest of the stream is [s]. *)
Definition sv_verdict (x : state_s) (s : cstr) : bool :=
  match st_status x with
  | STATE_READ_DONEPKT => good_answer (st_hdr x ++ s)
  | STATE_READ_STATPKT =>
      (12 <=? length (st_hdr x ++ s)) && header_is "STAT"%cs 0 (take 12 (st_hdr x ++ s))
  | STATE_READ_REST => true
  | _ => st_up x
  end.

Definition reading (x : state_s) : Prop :=
  is_reading (st_status x) = true ∧ length (st_hdr x) < 12 ∧ st_up x = false.

(** One read: what the server has become, but for the way through STATE_CLOSE. *)
Definition read_next (k : ls_kernel) (x : state_s) : state_s :=
  match st_status x with
  | STATE_READ_REST =>
      match k_read k with Some [] => set_st_status STATE_CLOSE (set_st_up x) | _ => x end
  | _ => match server_read_packet_header o k x with Ok y => y | _ => x end
  end.

Lemma read_header_ok k x :
  st_status x = STATE_READ_DONEPKT ∨ st_status x = STATE_READ_STATPKT →
  ∃ y, server_read_packet_header o k x = Ok y.
Proof.
  intros Hs. unfold server_read_packet_header. destruct (k_read k) as [[|b bs]|]; [by eexists| |].
  all: case_match; [by eexists|]; cbn [st_status set_st_hdr]; destruct Hs as [-> | ->]; by eexists.
Qed.

Lemma read_event k i d x :
  ld_states d !! i = Some x → reading x →
  ∃ d' y, server_handle_event o canned_query k i d = (Ok (), d') ∧ ld_states d' !! i = Some y ∧
    (if decide (st_status (read_next k x) = STATE_CLOSE)
     then st_status y = STATE_DONE ∧ st_up y = st_up (read_next k x) else y = read_next k x).
Proof.
  intros Hx (Hr & Hlen & Hu). assert (i < length (ld_states d)) as Hi by by eapply lookup_lt_Some.
  assert (∃ d1, server_step o canned_query k i x d = (Ok (), d1) ∧ ld_states d1 = <[i := read_next k x]> (ld_states d))
    as (d1 & Hstep & Hd1).
  { unfold server_step, read_next. destruct (st_status x) eqn:E; try done.
    1, 2: destruct (read_header_ok k x) as [y Hy]; [auto|]; unfold bind, throw; rewrite Hy;
      by eexists.
    destruct (k_read k) as [[|b bs]|]; [by eexists| |]; exists d; by rewrite list_insert_id. }
  unfold server_handle_event. rewrite (bind_Ok (ls_get i) _ d x d) by (unfold ls_get; by rewrite Hx).
  rewrite decide_False by (intros E; by rewrite E in Hr). rewrite (bind_Ok _ _ _ _ _ Hstep).
  assert (ld_states d1 !! i = Some (read_next k x)) as Hget by (rewrite Hd1; by apply list_lookup_insert_eq).
  rewrite (bind_Ok (ls_get i) _ d1 (read_next k x) d1) by (unfold ls_get; by rewrite Hget).
  destruct (decide _); [|by exists d1, (read_next k x)].
  unfold server_close, bind, modify, ls_set, ret. destruct (_ || _); cbn.
  all: eexists _, _; split; [reflexivity|]; split; [cbn; apply list_lookup_insert_eq; rewrite Hd1; by rewrite length_insert|done].
Qed.

(** Events for a server that is done change nothing. *)
Lemma probe_done i k s sizes d x :
  ld_states d !! i = Some x → st_status x = STATE_DONE → probe i k s sizes d = (Ok (), d).
Proof.
  intros Hx Hs. revert s. induction sizes as [|sz sizes IH]; intros s; cbn [probe]; [done|].
  rewrite (bind_Ok (ls_get i) _ d x d) by (unfold ls_get; by rewrite Hx).
  rewrite (bind_Ok _ _ d () d); [by apply IH|].
  unfold server_handle_event. rewrite (bind_Ok (ls_get i) _ d x d) by (unfold ls_get; by rewrite Hx).
  rewrite decide_False by (by rewrite Hs). unfold server_step. rewrite Hs.
  rewrite (bind_Ok (ret ()) _ d () d), (bind_Ok (ls_get i) _ d x d) by (done || (unfold ls_get; by rewrite Hx)).
  by rewrite decide_False by (by rewrite Hs).
Qed.

(** A header, read to its end or not. *)
Lemma header_bytes (hdr s : cstr) m :
  length hdr < 12 → let got := take (Nat.min m (12 - length hdr)) s in
  hdr ++ take (12 - length hdr) got = hdr ++ got ∧ (hdr ++ got) ++ drop (length got) s = hdr ++ s ∧
  (12 ≤ length (hdr ++ got) → hdr ++ got = take 12 (hdr ++ s) ∧ drop (length got) s = drop 12 (hdr ++ s)).
Proof.
  intros Hlen got. assert (length got ≤ 12 - length hdr) as Hg by (unfold got; rewrite length_take; lia).
  assert ((hdr ++ got) ++ drop (length got) s = hdr ++ s) as Happ.
  { rewrite <- app_assoc. f_equal. unfold got at 2. rewrite length_take. unfold got.
    destruct (decide (Nat.min m (12 - length hdr) ≤ length s)).
    - replace (Nat.min _ (length s)) with (Nat.min m (12 - length hdr)) by lia. by rewrite take_drop.
    - rewrite take_ge, drop_ge by lia. by rewrite app_nil_r. }
  split; [by rewrite take_ge|]. split; [done|]. intros H12. rewrite <- Happ. rewrite length_app in H12.
  assert (length (hdr ++ got) = 12) as E by (rewrite length_app; lia).
  split; [by rewrite take_app_length'|by rewrite drop_app_length'].
Qed.

(** A read and the verdict. *)
Lemma read_next_verdict k x s m :
  reading x → 0 < m → k_read k = Some (take (Nat.min m (read_size x)) s) →
  let y := read_next k x in let got := take (Nat.min m (read_size x)) s in
  (st_status y = STATE_CLOSE ∧ st_up y = sv_verdict x s) ∨
  (reading y ∧ got ≠ [] ∧ sv_verdict y (drop (length got) s) = sv_verdict x s).
Proof.
  intros (Hr & Hlen & Hu) Hm Hk. cbv zeta. unfold read_next. rewrite Hk.
  destruct (st_status x) eqn:E; try done.
  3: { unfold read_size, sv_verdict. rewrite E. destruct s as [|a s]; [rewrite take_nil; by left|].
       replace (Nat.min m 1000) with (S (Nat.min (m - 1) 999)) by lia. right. cbn [firstn]. unfold reading. by rewrite E. }
  all: unfold server_read_packet_header; rewrite Hk; unfold read_size; rewrite E;
    destruct (header_bytes (st_hdr x) s m Hlen) as (H1 & H2 & H3);
    set (got := take (Nat.min m (12 - length (st_hdr x))) s) in *;
    assert (got = [] → s = []) as Hnil by
      (intros Eg; destruct s; [done|]; unfold got in Eg;
       replace (Nat.min m (12 - length (st_hdr x))) with (S (Nat.min m (12 - length (st_hdr x)) - 1)) in Eg by lia; done).
  all: destruct (decide (got = [])) as [Eg|Hne];
    [left; pose proof (Hnil Eg) as ->; rewrite Eg; split; [done|]; cbn [set_st_status st_up];
     rewrite Hu; unfold sv_verdict, good_answer; rewrite E, app_nil_r;
     rewrite (proj2 (Nat.leb_gt _ _)); [done|lia]|].
  all: clear Hk; clearbody got; destruct got as [|b bs]; [done|]; set (got := b :: bs) in *; cbv zeta; rewrite H1;
    destruct (Nat.ltb_spec (length (st_hdr x ++ got)) 12) as [Hlt|Hge];
    [right; cbv beta iota zeta; unfold reading, sv_verdict; cbn [set_st_hdr st_status st_hdr st_up]; rewrite E, H2; done|].
  all: destruct (H3 Hge) as [H4 H5]; cbv beta iota zeta; cbn [set_st_hdr st_status st_hdr st_up]; rewrite E;
    assert (12 ≤ length (st_hdr x ++ s)) as Ht by (rewrite H4, length_take in Hge; lia);
    rewrite H4, H5; set (t := st_hdr x ++ s) in *.
  - assert (sv_verdict x s = good_answer t) as -> by (unfold sv_verdict; by rewrite E). unfold good_answer.
    destruct (header_is "DONE"%cs (lo_protocol o) (take 12 t)); [right|left; split; [done|]; cbn; by rewrite andb_false_r].
    split; [split; [done|]; split; [cbn; lia|done]|]. split; [done|]. unfold sv_verdict. cbn [set_st_hdr set_st_status st_status st_hdr app]. rewrite andb_true_r.
    f_equal. rewrite length_drop. destruct (Nat.leb_spec 12 (length t - 12)), (Nat.leb_spec 24 (length t)); lia || done.
  - assert (sv_verdict x s = header_is "STAT"%cs 0 (take 12 t)) as ->.
    { unfold sv_verdict. rewrite E. fold t. by rewrite (proj2 (Nat.leb_le 12 _) Ht). }
    destruct (header_is "STAT"%cs 0 (take 12 t)); [right|left; by split].
    split; [split; [done|]; split; [cbn; lia|done]|done].
Qed.

(** However the stream is cut into reads, the server ends as the stream says. *)
Lemma probe_verdict i k s sizes d x :
  ld_states d !! i = Some x → reading x → length s < length sizes →
  ∃ d' y, probe i k s sizes d = (Ok (), d') ∧ ld_states d' !! i = Some y ∧ st_status y = STATE_DONE ∧
    st_up y = sv_verdict x s.
Proof.
  revert s d x. induction sizes as [|sz sizes IH]; intros s d x Hx Hrd Hlen; cbn [length] in Hlen; [lia|].
  cbn [probe]. rewrite (bind_Ok (ls_get i) _ d x d) by (unfold ls_get; by rewrite Hx). cbv zeta.
  set (got := take (Nat.min (S sz) (read_size x)) s). set (k' := Kernel _ _ _ _ (Some got) _ _).
  destruct (read_event k' i d x Hx Hrd) as (d1 & y & Hrun & Hy & Hcase).
  rewrite (bind_Ok _ _ _ _ _ Hrun).
  destruct (read_next_verdict k' x s (S sz)) as [[Hc Hv]|(Hrd' & Hne & Hv)]; [done|lia|done| |].
  - rewrite decide_True in Hcase by done. destruct Hcase as [Hs Hup].
    exists d1, y. rewrite (probe_done _ _ _ _ _ y) by done. by rewrite Hup.
  - rewrite decide_False in Hcase by (destruct Hrd' as [Hrd' _]; intros Ec; by rewrite Ec in Hrd'). subst y.
    fold got in Hne, Hv.
    destruct (IH (drop (length got) s) d1 (read_next k' x) Hy Hrd') as (d' & y & Hp & Hy' & Hs & Hup).
    { rewrite length_drop. assert (length got ≤ length s) by (unfold got; rewrite length_take; lia).
      destruct got; [done|]. cbn [length] in *. lia. }
    exists d', y. by rewrite Hup.
Qed.

Lemma header_is_hex8 t v value :
  length t = 4 → (0 ≤ v < 2 ^ 32)%Z → header_is t value (t ++ hex8 v) = (s32 v =? value)%Z.
Proof.
  intros Ht Hv. unfold header_is. rewrite take_app_length', drop_app_length' by done.
  by rewrite streq_refl, strtol_hex8.
Qed.

Lemma s32_u32 z : (- 2 ^ 31 ≤ z < 2 ^ 31)%Z → s32 (u32 z) = z.
Proof.
  intros Hz. unfold s32, u32. rewrite Zplus_mod_idemp_l, Z.mod_small; lia.
Qed.

(** What a server writes is a good answer when it speaks the protocol and the
    compilation succeeded. *)
Lemma good_answer_answer protover status serr sout doto :
  (- 2 ^ 31 ≤ protover < 2 ^ 31)%Z → (- 2 ^ 31 ≤ status < 2 ^ 31)%Z →
  good_answer (answer protover status serr sout doto) = (protover =? lo_protocol o)%Z && (status =? 0)%Z.
Proof.
  intros Hp Hs. unfold answer. set (rest := file_bytes _ _ ++ _ ++ _). unfold good_answer.
  rewrite take_app_length' by done. rewrite drop_app_length' by done. rewrite take_app_length' by done.
  rewrite !header_is_hex8 by (done || apply u32_range).
  rewrite (u32_id (u32 status)) by apply u32_range. rewrite !s32_u32 by done.
  rewrite (proj2 (Nat.leb_le 24 _)); [done|]. rewrite !length_app. cbn. lia.
Qed.

End probing.

(** C14.  A server whose connection came about and that took the whole request
    ends up done when its answer has come, and it counts as up exactly when the
    stream is DONE with the protocol of the option -P and STAT with 0, however the
    kernel cuts it into reads: what a distcc daemon writes after a compilation is
    taken for an answer exactly when the daemon speaks the protocol and the
    status is 0, and a stream that ends within the headers never is. *)
Theorem lsdistcc_probe (o : lsopts) (canned_query : cstr) (i : nat) (k : ls_kernel) (s : cstr) (sizes : list nat)
    (d : lsd) (x : state_s) :
  ld_states d !! i = Some x → st_status x = STATE_CONNECTING → st_up x = false →
  (0 < 1000 * lo_comptimeout_ms o ≤ INT_MAX)%Z → lo_compiler o ≠ None →
  k_sockerr k = Some 0%Z → k_sent k = length canned_query → length s < length sizes →
  ∃ d' y,
    bind (server_handle_event o canned_query k i) (λ _, probe o canned_query i k s sizes) d = (Ok (), d') ∧
    ld_states d' !! i = Some y ∧ st_status y = STATE_DONE ∧ st_up y = good_answer o s ∧
    ∀ protover status serr sout doto, (- 2 ^ 31 ≤ protover < 2 ^ 31)%Z → (- 2 ^ 31 ≤ status < 2 ^ 31)%Z →
      s = answer protover status serr sout doto →
      st_up y = (protover =? lo_protocol o)%Z && (status =? 0)%Z.
Proof.
  intros Hx Hs Hu Hct Hcomp Herr Hsent Hlen.
  assert (i < length (ld_states d)) as Hi by by eapply lookup_lt_Some.
  set (z := set_st_times (st_start x) (k_now k + 1000 * lo_comptimeout_ms o) (set_st_hdr [] (set_st_status STATE_READ_DONEPKT x))).
  set (d1 := set_ld_states (<[i := z]> (ld_states d)) d).
  assert (ld_states d1 !! i = Some z) as Hz by by apply list_lookup_insert_eq.
  assert (server_handle_event o canned_query k i d = (Ok (), d1)) as Hrun.
  { unfold server_handle_event. rewrite (bind_Ok (ls_get i) _ d x d) by (unfold ls_get; by rewrite Hx).
    rewrite decide_False by (by rewrite Hs). rewrite (bind_Ok _ _ d () d1).
    - rewrite (bind_Ok (ls_get i) _ d1 z d1) by (unfold ls_get; by rewrite Hz). by rewrite decide_False.
    - unfold server_step. rewrite Hs, Herr. cbn [Z.eqb negb]. rewrite bool_decide_eq_false_2 by done.
      rewrite (proj2 (Z.eqb_neq _ _)) by lia. rewrite Hsent, Nat.eqb_refl. cbn [orb negb].
      by rewrite (bind_Ok (throw _) _ d (k_now k + 1000 * lo_comptimeout_ms o)%Z d)
        by (unfold throw; by rewrite deadline_fine by lia). }
  destruct (probe_verdict o canned_query i k s sizes d1 z) as (d' & y & Hp & Hy & Hd & Hup); [done| |done|].
  { split; [done|]. split; [cbn; lia|done]. }
  exists d', y. rewrite (bind_Ok _ _ _ _ _ Hrun). split; [done|]. split; [done|]. split; [done|].
  assert (st_up y = good_answer o s) as Hgood by (rewrite Hup; unfold sv_verdict; done). split; [done|].
  intros protover status serr sout doto Hr1 Hr2 ->. rewrite Hgood. by apply good_answer_answer.
Qed.

(** ** The request *)

Section request_text.
Context {LZ : Lzo} {LAWS : LzoLaws}.

Definition query_args (compiler : cstr) : list cstr := [compiler; "-c"%cs; "hello.c"%cs; "-o"%cs; "hello.o"%cs].

(** The request of server-side preprocessing: one file, in the root directory. *)
Definition pump_query (args : list cstr) (body : cstr) : cstr :=
  ("DIST"%cs ++ hex8 3) ++ string_bytes "CDIR"%cs "/"%cs ++
  (("ARGC"%cs ++ hex8 (Z.of_nat (length args))) ++ (args ≫= string_bytes "ARGV"%cs)) ++
  ("NFIL"%cs ++ hex8 1) ++ string_bytes "NAME"%cs "/hello.c"%cs ++ file_bytes "FILE"%cs body.

Lemma args_bytes compiler :
  (Z.of_nat (length compiler) < 2 ^ 32)%Z →
  ("ARGC"%cs ++ hex8 (Z.of_nat (length (query_args compiler)))) ++ (query_args compiler ≫= string_bytes "ARGV"%cs) =
  "ARGC00000005"%cs ++ ("ARGV"%cs ++ hex8 (u32 (Z.of_nat (length compiler))) ++ compiler) ++
  "ARGV00000002-c"%cs ++ "ARGV00000007hello.c"%cs ++ "ARGV00000002-o"%cs ++ "ARGV00000007hello.o"%cs.
Proof.
  intros Hc. rewrite u32_id by lia. unfold query_args. rewrite bind_cons. by rewrite app_assoc.
Qed.

Lemma query_bytes protocol compiler body :
  (1 ≤ protocol ≤ 3)%Z → (Z.of_nat (length compiler) < 2 ^ 32)%Z → (Z.of_nat (length body) < 2 ^ 32)%Z →
  query_head protocol compiler ++ hex8 (u32 (Z.of_nat (length body))) ++ body =
  if (protocol =? 3)%Z then pump_query (query_args compiler) body else request protocol (query_args compiler) body.
Proof.
  intros Hp Hc Hb. unfold query_head, pump_query, request, file_bytes. rewrite args_bytes by done.
  rewrite (u32_id (Z.of_nat (length body))) by lia.
  assert (protocol = 1 ∨ protocol = 2 ∨ protocol = 3)%Z as [-> |[-> | ->]] by lia; cbn [Z.eqb Pos.eqb].
  all: by rewrite <- !app_assoc.
Qed.

Lemma query_head_length protocol compiler : length (query_head protocol compiler) ≤ 200 + length compiler.
Proof.
  unfold query_head. rewrite !length_app, length_hex8.
  destruct (protocol =? 3)%Z, (protocol =? 2)%Z; cbn; lia.
Qed.

(** The query put together by sprintf is the request a distcc client sends
    for the command [compiler -c hello.c -o hello.o] and the program: for
    protocols 1 and 2 with the preprocessed source behind it, for protocol 3 with
    the file in the root directory; it fits the array when the compiler's name has
    at most 700 bytes. *)
Lemma lsdistcc_query (protocol : Z) (compiler body : cstr) :
  (1 ≤ protocol ≤ 3)%Z → length compiler ≤ 700 →
  wire_body (if (protocol =? 1)%Z then DCC_COMPRESS_NONE else DCC_COMPRESS_LZO1X) ls_program body →
  generate_query protocol compiler =
    Ok (if (protocol =? 3)%Z then pump_query (query_args compiler) body
        else request protocol (query_args compiler) body).
Proof.
  intros Hp Hlen Hb.
  assert (length body ≤ 39 ∧ (if (protocol =? 1)%Z then Some ls_program else lzo1x_1_compress ls_program) = Some body)
    as [Hbl Hsome].
  { destruct (protocol =? 1)%Z; cbn in Hb; [subst; split; [cbn; lia|done]|].
    rewrite decide_False in Hb by done. destruct Hb as [Hb _]. split; [|done].
    apply lzo_bound in Hb. change (length ls_program) with 20 in Hb. change (Z.of_nat 20 / 64)%Z with 0%Z in Hb. lia. }
  unfold generate_query. rewrite Hsome. cbv zeta.
  rewrite <- query_bytes by lia. rewrite app_assoc. pose proof (query_head_length protocol compiler) as Hh.
  set (head := query_head protocol compiler ++ _).
  assert (length head ≤ 908) as Hhead by (unfold head; rewrite length_app, length_hex8; lia).
  rewrite (proj2 (Nat.ltb_lt _ _)), (proj2 (Nat.leb_le _ _)); [done|rewrite length_app; lia|].
  destruct (protocol =? 1)%Z; rewrite ?length_app; [|lia].
  change (length ls_program) with 20. lia.
Qed.
End request_text.

(** ** Addresses and options *)

(** Bit [j] of an address, from the left. *)
Definition addr_bit (a : list Z) (j : nat) : bool := Z.testbit (nth (j / 8) a 0%Z) (7 - Z.of_nat (j mod 8)).

Lemma high_mask_bits m i :
  m ≤ 8 → (0 ≤ i)%Z → Z.testbit (high_mask m) i = ((8 - Z.of_nat m <=? i) && (i <=? 7))%Z.
Proof.
  intros Hm Hi. revert Hm. induction m as [|m IH]; intros Hm; cbn [high_mask].
  - rewrite Z.bits_0. destruct (Z.leb_spec (8 - Z.of_nat 0) i), (Z.leb_spec i 7); lia || done.
  - rewrite Z.lor_spec, Z.shiftl_1_l, Z.pow2_bits_eqb, IH by lia.
    destruct (Z.leb_spec (8 - Z.of_nat m) i), (Z.leb_spec (8 - Z.of_nat (S m)) i), (Z.leb_spec i 7),
      (Z.eqb_spec (7 - Z.of_nat m) i); lia || done.
Qed.

Lemma mask_same x y m :
  m ≤ 8 → (0 ≤ x < 256)%Z → (0 ≤ y < 256)%Z →
  Z.land (Z.lxor x y) (high_mask m) = 0%Z ↔
  ∀ j, j < m → Z.testbit x (7 - Z.of_nat j) = Z.testbit y (7 - Z.of_nat j).
Proof.
  intros Hm Hx Hy. split.
  - intros H j Hj. apply (f_equal (λ z, Z.testbit z (7 - Z.of_nat j))) in H.
    rewrite Z.bits_0, Z.land_spec, Z.lxor_spec, high_mask_bits in H by lia.
    rewrite (proj2 (Z.leb_le _ _)), (proj2 (Z.leb_le (7 - Z.of_nat j) 7)), !andb_true_r in H by lia.
    by destruct (Z.testbit x _), (Z.testbit y _).
  - intros H. apply Z.bits_inj'. intros i Hi. rewrite Z.bits_0, Z.land_spec, Z.lxor_spec, high_mask_bits by lia.
    destruct (Z.leb_spec (8 - Z.of_nat m) i), (Z.leb_spec i 7); try apply andb_false_r.
    specialize (H (Z.to_nat (7 - i)) ltac:(lia)). replace (7 - Z.of_nat (Z.to_nat (7 - i)))%Z with i in H by lia.
    rewrite H. by destruct (Z.testbit y i).
Qed.

Lemma byte_same x y :
  (0 ≤ x < 256)%Z → (0 ≤ y < 256)%Z →
  (∀ j, j < 8 → Z.testbit x (7 - Z.of_nat j) = Z.testbit y (7 - Z.of_nat j)) → x = y.
Proof.
  intros Hx Hy H. apply Z.bits_inj'. intros i Hi. destruct (decide (i < 8)%Z) as [Hlt|Hge].
  - specialize (H (Z.to_nat (7 - i)) ltac:(lia)). by replace (7 - Z.of_nat (Z.to_nat (7 - i)))%Z with i in H by lia.
  - assert (∀ z, (0 ≤ z < 256)%Z → Z.testbit z i = false) as Hz; [|by rewrite !Hz].
    intros z Hz. destruct (decide (z = 0)%Z) as [->|Hnz]; [apply Z.bits_0|]. apply Z.bits_above_log2; [lia|].
    apply Z.log2_lt_pow2; [lia|]. apply Z.lt_le_trans with (2 ^ 8)%Z; [lia|]. apply Z.pow_le_mono_r; lia.
Qed.

Lemma addr_bit_at a i j : j < 8 → addr_bit a (8 * i + j) = Z.testbit (nth i a 0%Z) (7 - Z.of_nat j).
Proof.
  intros Hj. unfold addr_bit. replace ((8 * i + j) / 8) with i by (apply (Nat.div_unique _ _ _ j); lia).
  by replace ((8 * i + j) mod 8) with j by (apply (Nat.mod_unique _ _ i j); lia).
Qed.

Definition addr_like (a : list Z) : Prop := length a = 4 ∧ Forall (λ x, 0 ≤ x < 256)%Z a.

Lemma addr_byte a i : addr_like a → (0 ≤ nth i a 0 < 256)%Z.
Proof.
  intros [_ Ha]. destruct (nth_in_or_default i a 0%Z) as [H|H]; [|lia].
  apply list_elem_of_In in H. rewrite Forall_forall in Ha. by apply Ha.
Qed.

Lemma bytes_same a b f :
  addr_like a → addr_like b → f ≤ 4 →
  take f a = take f b ↔ ∀ i, i < f → nth i a 0%Z = nth i b 0%Z.
Proof.
  intros [La _] [Lb _] Hf. split.
  - intros H i Hi. rewrite !nth_lookup. f_equal. rewrite <- (lookup_take_lt a f i), <- (lookup_take_lt b f i) by done. by rewrite H.
  - intros H. apply list_eq. intros i. destruct (decide (i < f)) as [Hi|Hi].
    + rewrite !lookup_take_lt by done. specialize (H i Hi). rewrite !nth_lookup in H.
      destruct (lookup_lt_is_Some_2 a i) as [x Hx]; [lia|]. destruct (lookup_lt_is_Some_2 b i) as [y Hy]; [lia|].
      rewrite Hx, Hy in *. cbn in H. by subst.
    + by rewrite !lookup_take_ge by lia.
Qed.

(** [bitcompare] compares the first bits of two addresses. *)
Lemma bitcompare_spec (a b : list Z) (nbits : nat) :
  addr_like a → addr_like b → nbits ≤ 32 →
  bitcompare a b nbits = false ↔ ∀ j, j < nbits → addr_bit a j = addr_bit b j.
Proof.
  intros Ha Hb Hn. unfold bitcompare, bytes_differ.
  assert (nbits = 8 * (nbits / 8) + nbits mod 8) as Hnb by apply Nat.div_mod_eq.
  assert (nbits mod 8 < 8) as Hl by (apply Nat.mod_upper_bound; lia).
  revert Hnb Hl. generalize (nbits / 8) (nbits mod 8). intros f l -> Hl. cbv zeta.
  rewrite orb_false_iff, negb_false_iff, bool_decide_eq_true, bytes_same by (done || lia).
  assert ((if decide (l = 0) then false else negb (Z.land (Z.lxor (nth f a 0%Z) (nth f b 0%Z)) (high_mask l) =? 0)%Z) = false ↔
    ∀ j, j < l → addr_bit a (8 * f + j) = addr_bit b (8 * f + j)) as ->.
  { destruct (decide (l = 0)) as [->|Hl0]; [split; [intros _ j Hj; lia|done]|].
    rewrite negb_false_iff, Z.eqb_eq, mask_same by (lia || by apply addr_byte).
    split; intros H j Hj; specialize (H j Hj); rewrite !addr_bit_at in * by lia; done. }
  split.
  - intros [H1 H2] j Hj. destruct (decide (j < 8 * f)) as [Hjf|Hjf].
    + rewrite (Nat.div_mod_eq j 8), !addr_bit_at by (apply Nat.mod_upper_bound; lia).
      rewrite H1; [done|]. apply Nat.Div0.div_lt_upper_bound. lia.
    + replace j with (8 * f + (j - 8 * f)) by lia. apply H2. lia.
  - intros H. split; [|intros j Hj; apply H; lia]. intros i Hi. apply byte_same; [by apply addr_byte..|].
    intros j Hj. rewrite <- !addr_bit_at by done. apply H. lia.
Qed.

(** What the slaves send is four bytes, as [bitcompare] needs them. *)
Lemma dnsslave_addr_like id h h_errno :
  (∀ a, h = Some a → Forall (λ x, 0 ≤ x < 256)%Z a) → addr_like (dnsslave_result id h h_errno).2.
Proof.
  intros Hh. unfold dnsslave_result, addr_like. destruct h as [a|]; [destruct (Nat.eqb_spec (length a) 4)|]; cbn.
  - split; [done|]. by apply Hh.
  - split; [done|]. repeat constructor; lia.
  - split; [done|]. repeat constructor; lia.
Qed.

(** A domain is what follows the first dot of a name of at most 513 legal
    characters, and it is not empty. *)
Lemma dns_domain_legal e domain :
  dcc_get_dns_domain e = Some domain →
  domain ≠ [] ∧ Forall is_legal_domain_char domain ∧
  ∃ host, "."%char ∉ host ∧ length (host ++ "."%char :: domain) ≤ S MAXDOMAINLEN ∧
    ((dn_host e = Some (host ++ "."%char :: domain) ∨ dn_hostname e = Some (host ++ "."%char :: domain)) ∨
     with_dot (dn_host e) = None ∧ with_dot (dn_hostname e) = None ∧ real_name e = Some (host ++ "."%char :: domain)).
Proof.
  unfold dcc_get_dns_domain. intros H.
  destruct (match better _ _ with Some h => Some h | None => real_name e end) as [envh|] eqn:Hsrc; [|done].
  destruct (_ || _) eqn:Hok; [done|]. apply orb_false_iff in Hok as [Hlen Hlegal].
  apply Nat.ltb_ge in Hlen. apply negb_false_iff in Hlegal. rewrite forallb_forall in Hlegal.
  destruct (strchr envh ".") as [i|] eqn:Hdot; [|done]. apply strchr_Some in Hdot as (host & rest & -> & Hno & ->).
  replace (drop (S (length host)) (host ++ "."%char :: rest)) with rest in H
    by (change (S (length host)) with (1 + length host); rewrite Nat.add_comm, <- drop_drop, drop_app_length; done).
  destruct rest as [|c rest]; [done|]. injection H as <-. split; [done|].
  split. { apply Forall_forall. intros x Hx. apply Is_true_true. apply Hlegal, list_elem_of_In, elem_of_app. right. by right. }
  exists host. split; [done|]. split; [done|].
  destruct (with_dot (dn_host e)) as [h|] eqn:E1, (with_dot (dn_hostname e)) as [h2|] eqn:E2; cbn in Hsrc.
  all: unfold with_dot in E1, E2; repeat case_match; simplify_eq; naive_solver.
Qed.

(** The ranges of the options; a protocol in range keeps the index of
    protocol_suffix in the array, and the bits that have to match keep
    [bitcompare] within the four bytes of an address. *)
Record ls_sane (o : lsopts) : Prop := LsSane {
  sa_match : (0 ≤ lo_match o ≤ 31)%Z;
  sa_times : (0 ≤ lo_bigtimeout_sec o ∧ 0 ≤ lo_dnstimeout_ms o ∧ 0 ≤ lo_conntimeout_ms o ∧ 0 ≤ lo_comptimeout_ms o)%Z;
  sa_dns : (0 ≤ lo_overlap o ∧ 0 ≤ lo_dnsgap o)%Z;
  sa_protocol : (1 ≤ lo_protocol o ≤ 3)%Z;
  sa_port : (0 < lo_port o)%Z;
  sa_compiler : lo_compiler o ≠ Some []
}.

Lemma ls_option_sane letter arg o o' : ls_sane o → ls_option letter arg o = Some o' → ls_sane o'.
Proof.
  intros [H1 H2 H3 H4 H5 H6] Ho. destruct o. unfold ls_option in Ho. cbn in *.
  repeat case_match; simplify_eq; split; cbn; btest; try done; lia.
Qed.

Lemma ls_options_sane argv o o' rest : ls_sane o → ls_options argv o = Ok (o', rest) → ls_sane o'.
Proof.
  revert o. induction argv as [|a argv IH]; intros o Ho H; cbn [ls_options] in H; [by simplify_eq|].
  repeat case_match; simplify_eq; [|done]. eapply IH; [|done]. by eapply ls_option_sane.
Qed.

(** ** Witnesses *)

Definition was_asked (d : lsd) (i : nat) : bool :=
  match ld_states d !! i with Some x => 0 <? st_ntries x | None => false end.

(** A network where all connections come about, and the slaves answer for [id]
    when they were asked. *)
Definition ex_round (id : nat) (err : bool) (connecterr : Z) (d : lsd) : poll_round :=
  PollRound false true
    (if (1 <=? id) && (id <=? 2) && was_asked d id then Some (Some (id, err, [10; 0; 0; Z.of_nat id]%Z)) else None) 0
    (λ _, true) (λ i, Kernel (Some (6 + Nat.min i 2)) true (Some connecterr) 0 None 0 0).

Definition lsx_names : list cstr := ["alpha"%cs; "beta"%cs].
Definition lsx_dns : dns_env := DnsEnv None None None (λ _, None).
Definition ex_lsd : lsd := Lsd [] ∅ 0 0 [] 0 0 [] [].

Lemma ex_round_fine id err connecterr : round_fine lsx_names (ex_round id err connecterr).
Proof.
  intros d. split; [intros i; eexists; split; [reflexivity|]; unfold MAXHOSTS; lia|].
  intros id' err' addr E. unfold ex_round, r_result in E.
  destruct ((1 <=? id) && (id <=? 2) && was_asked d id) eqn:H; [|done]. injection E as <- _ _.
  rewrite !andb_true_iff, !Nat.leb_le in H. destruct H as [[H1 H2] H3]. split; [done|].
  unfold was_asked in H3. destruct (ld_states d !! id) as [x|]; [|done]. exists x. by apply Nat.ltb_lt in H3.
Qed.

Lemma ls_defaults_plain : plain_list ls_defaults.
Proof. by split. Qed.

Definition ex_rounds (connecterr : Z) : list (lsd → poll_round) :=
  [ex_round 0 false connecterr; ex_round 2 false connecterr; ex_round 1 false connecterr; ex_round 2 false connecterr;
   ex_round 0 false connecterr; ex_round 0 false connecterr].


Definition ex_probed : state_s := State "alpha"%cs [] 0 0 [] STATE_CONNECTING 1 (Some 6) false.
Definition lsx_opts : lsopts := LsOpts 0 7 500 900 1500 1 0 1 DEFAULT_PORT (Some "cc"%cs) false false false 0 0.

Lemma lsdistcc_probe_witness :
  ∃ d' y,
    bind (server_handle_event lsx_opts "query"%cs (Kernel None true (Some 0%Z) 5 None 0 0) 0) (λ _,
      probe lsx_opts "query"%cs 0 (Kernel None true (Some 0%Z) 5 None 0 0) (answer 1 0 [] [] "obj"%cs) (replicate 80 4))
      (set_ld_states [ex_probed] ex_lsd) = (Ok (), d') ∧
    ld_states d' !! 0 = Some y ∧ st_status y = STATE_DONE ∧ st_up y = true.
Proof.
  destruct (lsdistcc_probe lsx_opts "query"%cs 0 (Kernel None true (Some 0%Z) 5 None 0 0) (answer 1 0 [] [] "obj"%cs)
    (replicate 80 4) (set_ld_states [ex_probed] ex_lsd) ex_probed) as (d' & y & Hrun & Hy & Hs & _ & Hup).
  - reflexivity.
  - reflexivity.
  - reflexivity.
  - unfold INT_MAX. simpl. lia.
  - done.
  - reflexivity.
  - reflexivity.
  - vm_compute. lia.
  - exists d', y. split; [exact Hrun|]. split; [exact Hy|]. split; [exact Hs|].
    apply (Hup 1%Z 0%Z [] [] "obj"%cs); [lia|lia|reflexivity].
Defined.

(** ** What the code does that it does not mean to *)

(** Every machine refuses the connection, nothing is printed, and the number of
    servers found is the number of machines. *)
Lemma lsdistcc_counts_down :
  let r := detect_distcc_servers ls_defaults [] lsx_names lsx_dns 1024 1024 true (ex_rounds 111) ex_lsd in
  r.1 = Ok 2%Z ∧ ld_out r.2 = [].
Proof. by vm_compute. Qed.

(** A server that no socket could be made for is done but not counted: the
    loop waits for it until the alarm. *)
Lemma no_socket_not_counted o canned_query k i d x :
  ld_states d !! i = Some x → st_status x = STATE_CONNECT → lo_conntimeout_ms o ≠ 0%Z → k_socket k = None →
  ∃ d', server_handle_event o canned_query k i d = (Ok (), d') ∧ ld_ndone d' = ld_ndone d ∧
    ∃ y, ld_states d' !! i = Some y ∧ st_status y = STATE_DONE.
Proof.
  intros Hx Hs Hc Hk. set (y := set_st_status STATE_DONE (set_st_fd None x)).
  set (d1 := set_ld_states (<[i := y]> (ld_states d)) d).
  assert (ld_states d1 !! i = Some y) as Hy by (apply list_lookup_insert_eq; by eapply lookup_lt_Some).
  exists d1. split; [|split; [done|by exists y]].
  unfold server_handle_event. rewrite (bind_Ok (ls_get i) _ d x d) by (unfold ls_get; by rewrite Hx).
  rewrite decide_False by (by rewrite Hs). rewrite (bind_Ok _ _ d () d1).
  - rewrite (bind_Ok (ls_get i) _ d1 y d1) by (unfold ls_get; by rewrite Hy). by rewrite decide_False.
  - unfold server_step. by rewrite Hs, (proj2 (Z.eqb_neq _ _) Hc), Hk.
Qed.

(** A slave that answers a request that was sent again, when the next group is
    searched: the assertion fails. *)
Lemma late_answer_aborts o canned_query r start_state end_state id err addr d :
  id < start_state → dns_result o canned_query r start_state end_state id err addr d = (Undef, d).
Proof. intros Hid. unfold dns_result. by rewrite (proj2 (Nat.leb_gt _ _) Hid). Qed.

(** The name of the compiler is not measured. *)
Lemma long_compiler_overruns `{Lzo} protocol compiler :
  1000 ≤ length compiler → generate_query protocol compiler = Undef.
Proof.
  intros Hc. unfold generate_query. case_match; [|done]. cbv zeta.
  rewrite (proj2 (Nat.ltb_ge _ 1000)); [done|].
  destruct (protocol =? 1)%Z; unfold query_head; rewrite !length_app; lia.
Qed.

(** More than 500 names are written behind the array of servers. *)
Lemma too_many_names :
  (detect_distcc_servers ls_defaults [] (replicate 501 "host"%cs) lsx_dns 1024 1024 true [] ex_lsd).1 = Undef.
Proof. by vm_compute. Qed.
