(* ===== verification/Exec.v ===== *)
(** * exec.c, safeguard.c, cpp.c: running programs

    A process starts a child, goes on, and later waits for it.  [os] extends
    the world of one process with its children and with what the kernel
    decides about them.  What a program does is the class [Programs]; the
    effect of a child on the files is taken at the moment it is collected. *)

From S2P Require Import Prelude CLib Util Filename Argv Arg Strip World Io Rpc Tempfile Bulk Results.

(** What [execvp] of a file with arguments, an environment and open files does:
    nothing when there is no such program, or a wait status and the core it
    leaves. *)
Class Programs := {
  exec_prog : cstr → list cstr → gmap cstr cstr → core → option (Z * core)
}.

Record child := Child {
  ch_argv : cvec;
  ch_stdin : option cstr;
  ch_stdout : option cstr;
  ch_stderr : option cstr
}.

(** What one [waitpid] finds. *)
Inductive wait_ev := WaitIntr | WaitErr | WaitRunning | WaitDone.

(** [connect] on a non-blocking socket, and the error it ends with. *)
Inductive conn_ev := ConnDone | ConnInProgress | ConnErr (e : errno).
Inductive so_ev := SoOk | SoInProgress | SoErr | SoFailed.

(** The kernel's record of the children of a process: one was collected with
    this wait status, one could not be made, one could not be waited for. *)
Inductive proc_ev := Reaped (ch : child) (status : Z) | NoFork (ch : child) | NoWait (ch : option child).

Record os := Os {
  os_w : world;
  os_pid : Z;
  os_fork : list bool;           (** does fork succeed; past the end it does *)
  os_wait : list wait_ev;        (** past the end the child has finished *)
  os_clock : list (Z * Z);       (** gettimeofday *)
  os_children : gmap nat child;  (** started and not collected *)
  os_killed : list nat;          (** children sent SIGTERM *)
  os_safeguard : Z;              (** [dcc_safeguard_level] *)
  os_conn : list conn_ev;
  os_so : list so_ev;
  os_streams : list cstr;        (** what the peers of new connections send *)
  os_log : list proc_ev          (** what happened to its children, latest
                                     first; no code looks at it *)
}.

Definition set_os_w (w : world) (o : os) : os :=
  Os w (os_pid o) (os_fork o) (os_wait o) (os_clock o) (os_children o) (os_killed o)
    (os_safeguard o) (os_conn o) (os_so o) (os_streams o) (os_log o).
Definition set_os_fork (l : list bool) (o : os) : os :=
  Os (os_w o) (os_pid o) l (os_wait o) (os_clock o) (os_children o) (os_killed o)
    (os_safeguard o) (os_conn o) (os_so o) (os_streams o) (os_log o).
Definition set_os_wait (l : list wait_ev) (o : os) : os :=
  Os (os_w o) (os_pid o) (os_fork o) l (os_clock o) (os_children o) (os_killed o)
    (os_safeguard o) (os_conn o) (os_so o) (os_streams o) (os_log o).
Definition set_os_clock (l : list (Z * Z)) (o : os) : os :=
  Os (os_w o) (os_pid o) (os_fork o) (os_wait o) l (os_children o) (os_killed o)
    (os_safeguard o) (os_conn o) (os_so o) (os_streams o) (os_log o).
Definition set_os_children (m : gmap nat child) (o : os) : os :=
  Os (os_w o) (os_pid o) (os_fork o) (os_wait o) (os_clock o) m (os_killed o)
    (os_safeguard o) (os_conn o) (os_so o) (os_streams o) (os_log o).
Definition set_os_killed (l : list nat) (o : os) : os :=
  Os (os_w o) (os_pid o) (os_fork o) (os_wait o) (os_clock o) (os_children o) l
    (os_safeguard o) (os_conn o) (os_so o) (os_streams o) (os_log o).
Definition set_os_safeguard (z : Z) (o : os) : os :=
  Os (os_w o) (os_pid o) (os_fork o) (os_wait o) (os_clock o) (os_children o) (os_killed o)
    z (os_conn o) (os_so o) (os_streams o) (os_log o).
Definition set_os_conn (l : list conn_ev) (o : os) : os :=
  Os (os_w o) (os_pid o) (os_fork o) (os_wait o) (os_clock o) (os_children o) (os_killed o)
    (os_safeguard o) l (os_so o) (os_streams o) (os_log o).
Definition set_os_so (l : list so_ev) (o : os) : os :=
  Os (os_w o) (os_pid o) (os_fork o) (os_wait o) (os_clock o) (os_children o) (os_killed o)
    (os_safeguard o) (os_conn o) l (os_streams o) (os_log o).
Definition set_os_streams (l : list cstr) (o : os) : os :=
  Os (os_w o) (os_pid o) (os_fork o) (os_wait o) (os_clock o) (os_children o) (os_killed o)
    (os_safeguard o) (os_conn o) (os_so o) l (os_log o).
Definition set_os_log (l : list proc_ev) (o : os) : os :=
  Os (os_w o) (os_pid o) (os_fork o) (os_wait o) (os_clock o) (os_children o) (os_killed o)
    (os_safeguard o) (os_conn o) (os_so o) (os_streams o) l.

(** Operations of the other components. *)
Definition on_w {A} : M world A → M os A := zoom os_w set_os_w.

(** [gettimeofday] *)
Definition sys_clock : M os (Z * Z) := λ o,
  match os_clock o with
  | [] => (Ok (0, 0)%Z, o)
  | t :: l => (Ok t, set_os_clock l o)
  end.

(** [fork]: does it succeed. *)
Definition sys_fork : M os bool := λ o,
  match os_fork o with
  | [] => (Ok true, o)
  | b :: l => (Ok b, set_os_fork l o)
  end.

(** [dcc_make_tmpnam] with the pid and the clock of the process. *)
Definition make_tmpnam (prefix suffix : cstr) : M os cstr :=
  let! pid := gets os_pid in
  let! t := sys_clock in
  on_w (dcc_make_tmpnam pid t.1 t.2 prefix suffix).

(** ** safeguard.c *)

Definition dcc_safeguard_name : cstr := "_DISTCC_SAFEGUARD"%cs.

Definition dcc_recursion_safeguard : M os Z :=
  let! env := on_w (getenv dcc_safeguard_name) in
  let level := match env with
               | Some env => if (atoi env =? 0)%Z then 1%Z else atoi env
               | None => 0%Z
               end in
  do! modify (set_os_safeguard level);
  ret level.

(** The last character of "_DISTCC_SAFEGUARD=1" becomes [level + '1'], a [char]. *)
Definition safeguard_digit (level : Z) : ascii :=
  if (level >? 0)%Z then ascii_of_N (Z.to_N ((level + 49) mod 256)) else "1"%char.

(** Writing a NUL there makes the value empty. *)
Definition dcc_increment_safeguard (level : Z) : M world unit :=
  putenv dcc_safeguard_name (c_string [safeguard_digit level]).

(** ** exec.c: inside the child *)

Definition STDIN_FILENO : nat := 0.
Definition STDERR_FILENO : nat := 2.

Inductive open_mode := O_RDONLY | O_TRUNC | O_APPEND.

Definition sys_open (mode : open_mode) (fname : cstr) : M world (nat + errno) :=
  match mode with
  | O_RDONLY => sys_open_read fname
  | O_TRUNC => sys_open_trunc fname
  | O_APPEND => sys_open_append fname
  end.

(** util.c *)
Definition dcc_redirect_fd (fd : nat) (fname : cstr) (mode : open_mode) : M world unit :=
  let! _ := sys_close fd in
  let! newfd := sys_open mode fname in
  match newfd with
  | inr _ => fail EXIT_IO_ERROR
  | inl newfd => if decide (newfd = fd) then ret () else fail EXIT_IO_ERROR
  end.

Definition dcc_redirect_fds (stdin_file stdout_file stderr_file : option cstr) : M world unit :=
  do! match stdin_file with Some f => dcc_redirect_fd STDIN_FILENO f O_RDONLY | None => ret () end;
  do! match stdout_file with Some f => dcc_redirect_fd STDOUT_FILENO f O_TRUNC | None => ret () end;
  match stderr_file with Some f => dcc_redirect_fd STDERR_FILENO f O_APPEND | None => ret () end.

Section Exec.
Context {Cfg : Config} {Progs : Programs}.

(** [execvp]: [false] when it returns. *)
Definition sys_execvp (file : cstr) (argv : list cstr) : M world (option Z) := λ w,
  match exec_prog file argv (w_env w) (w_core w) with
  | Some (status, c) => (Ok (Some status), set_core c w)
  | None => (Ok None, w)
  end.

Definition dcc_execvp (argv : cvec) : M world Z :=
  match argv with
  | Str argv0 :: _ =>
      let! args := argv_strings argv in
      let! r := sys_execvp argv0 args in
      match r with
      | Some status => ret status
      | None =>
          match strrchr argv0 "/" with
          | None => exit_ EXIT_COMPILER_MISSING
          | Some slash =>
              let! r := sys_execvp (drop (S slash) argv0) args in
              match r with
              | Some status => ret status
              | None => exit_ EXIT_COMPILER_MISSING
              end
          end
      end
  | _ => ub
  end.

Definition dcc_inside_child (level : Z) (argv : cvec) (stdin_file stdout_file stderr_file : option cstr) :
    M world Z :=
  do! dcc_increment_safeguard level;
  let! r := attempt (dcc_redirect_fds stdin_file stdout_file stderr_file) in
  match r with
  | inr e => exit_ e
  | inl _ => dcc_execvp argv
  end.

(** The wait status of a process: what its program left, [exit(c)], or a
    segmentation fault. *)
Definition wait_status {A} (o : outcome A) (of_ok : A → Z) : Z :=
  match o with
  | Ok a => of_ok a
  | Fail c | Exit c => Z.shiftl (Z.land c 255) 8
  | Undef => 11
  end.

(** The life of a child: its own copy of descriptors and environment, the
    common files. *)
Definition run_child (level : Z) (ch : child) (w : world) : Z * world :=
  let '(o, w') := dcc_inside_child level (ch_argv ch) (ch_stdin ch) (ch_stdout ch) (ch_stderr ch) w in
  (wait_status o id,
   set_fs (w_fs w') (set_core (set_files (c_files (w_core w')) (w_core w)) w)).

(** ** exec.c: the parent *)

(** [fork] for this child: its pid, if there is one. *)
Definition fork_child (ch : child) : M os (option nat) :=
  let! forks := sys_fork in
  if forks then
    let! pid := gets (λ o, new_fd (os_children o)) in
    do! modify (λ o, set_os_children (<[pid := ch]> (os_children o)) o);
    ret (Some pid)
  else
    do! modify (λ o, set_os_log (NoFork ch :: os_log o) o);
    ret None.

Definition dcc_spawn_child (argv : cvec) (stdin_file stdout_file stderr_file : option cstr) : M os nat :=
  let! pid := fork_child (Child argv stdin_file stdout_file stderr_file) in
  match pid with
  | None => fail EXIT_OUT_OF_MEMORY
  | Some pid => ret pid
  end.

(** A child ends, with what it did to the files, and is collected. *)
Definition reap (pid : nat) (ch : child) (o : os) : Z * os :=
  let '(status, w) := run_child (os_safeguard o) ch (os_w o) in
  (status, set_os_log (Reaped ch status :: os_log o)
             (set_os_w w (set_os_children (delete pid (os_children o)) o))).

(** The status of the child, [None] while it runs, or an error. *)
Definition sys_wait4 (pid : nat) (nohang : bool) : M os (option Z + errno) := λ o,
  let '(ev, o) := match os_wait o with
                  | [] => (WaitDone, o)
                  | e :: l => (e, set_os_wait l o)
                  end in
  match ev, os_children o !! pid with
  | WaitIntr, _ => (Ok (inr EINTR), o)
  | WaitErr, _ | _, None => (Ok (inr EOTHER), set_os_log (NoWait (os_children o !! pid) :: os_log o) o)
  | WaitRunning, Some ch =>
      if nohang then (Ok (inl None), o)
      else let '(status, o) := reap pid ch o in (Ok (inl (Some status)), o)
  | WaitDone, Some ch => let '(status, o) := reap pid ch o in (Ok (inl (Some status)), o)
  end.

(** [killpg(pid, SIGTERM)], or [kill] *)
Definition sys_kill (pid : nat) : M os unit := modify (λ o, set_os_killed (pid :: os_killed o) o).

(** [select] on one descriptor for a second; past the decisions nothing
    happens on it. *)
Definition select_1s : M world bool := λ w,
  match w_sel w with
  | [] => (Ok false, w)
  | SelReady :: l => (Ok true, set_sel l w)
  | _ :: l => (Ok false, set_sel l w)
  end.

(** The loop; every round uses up a decision about the child or ends. *)
Fixpoint collect_loop (fuel pid : nat) (in_fd : option nat) (lifetime wait_timeout_sec : Z) : M os Z :=
  match fuel with
  | 0 => ub
  | S fuel =>
      if negb (lifetime =? 0)%Z && (wait_timeout_sec <? 0)%Z then
        do! sys_kill pid; fail EXIT_TIMEOUT
      else
        let! r := sys_wait4 pid (bool_decide (is_Some in_fd)) in
        match r with
        | inl (Some status) => ret status
        | inr EOTHER | inr EAGAIN | inr EACCES | inr ENOENT | inr EEXIST => fail EXIT_DISTCC_FAILED
        | inr EINTR | inl None =>
            match in_fd with
            | None => collect_loop fuel pid in_fd lifetime (wait_timeout_sec - 1)
            | Some fd =>
                let! ready := on_w select_1s in
                if ready then
                  let! nread := on_w (sys_read fd 1) in
                  match nread with
                  | inl [] => do! sys_kill pid; fail EXIT_IO_ERROR
                  | _ => collect_loop fuel pid in_fd lifetime (wait_timeout_sec - 1)
                  end
                else collect_loop fuel pid in_fd lifetime (wait_timeout_sec - 1)
            end
        end
  end.

(** [lifetime]: [dcc_job_lifetime].  The counter goes down even in the round
    that finds it exhausted; only its sign matters. *)
Definition dcc_collect_child (lifetime : Z) (pid : nat) (in_fd : option nat) : M os Z := λ o,
  collect_loop (S (S (length (os_wait o)))) pid in_fd lifetime lifetime o.

(** [WIFSIGNALED], [WTERMSIG], [WEXITSTATUS] *)
Definition WTERMSIG (status : Z) : Z := Z.land status 127.
Definition WIFSIGNALED (status : Z) : bool :=
  negb ((WTERMSIG status =? 0)%Z || (WTERMSIG status =? 127)%Z).
Definition WEXITSTATUS (status : Z) : Z := Z.land (Z.shiftr status 8) 255.

Definition dcc_critique_status (status : Z) : Z :=
  if WIFSIGNALED status then 128 + WTERMSIG status
  else if (WEXITSTATUS status =? 1)%Z then WEXITSTATUS status
  else if negb (WEXITSTATUS status =? 0)%Z then WEXITSTATUS status
  else 0.

(** ** cpp.c *)

(** The file with the preprocessed source, and the preprocessor if one runs. *)
Definition dcc_cpp_maybe (argv : cvec) (input_fname : cstr) : M os (cstr * option nat) :=
  if dcc_is_preprocessed input_fname then
    do! on_w (malloc_or EXIT_OUT_OF_MEMORY); ret (input_fname, None)
  else
    let input_exten := dcc_find_extension input_fname in
    match input_exten ≫= λ dot, dcc_preproc_exten (drop dot input_fname) with
    | None => ub
    | Some output_exten =>
        let! cpp_fname := make_tmpnam "distcc"%cs output_exten in
        let! cpp_argv := on_w (dcc_strip_dasho argv) in
        let! cpp_argv := on_w (dcc_set_action_opt cpp_argv "-E"%cs) in
        let! cpp_pid := dcc_spawn_child cpp_argv (Some "/dev/null"%cs) (Some cpp_fname) None in
        ret (cpp_fname, Some cpp_pid)
    end.
End Exec.

(** ** Waiting *)

Section wait.
Context {Progs : Programs}.

(** What the parent knows after it waited: whether it collected the child (the
    status is then the one the kernel has on record for it), gave up on it or
    killed it, and how often it asked. *)
Definition collected (lifetime : Z) (pid : nat) (in_fd : option nat) (n : Z) (o : os)
    (r : outcome Z) (o' : os) : Prop :=
  (lifetime ≠ 0 → Z.of_nat (length (os_wait o)) ≤ Z.of_nat (length (os_wait o')) + n)%Z ∧
  match r with
  | Ok st => (∃ ch, os_children o !! pid = Some ch ∧ os_log o' = Reaped ch st :: os_log o) ∧
      os_children o' = delete pid (os_children o) ∧ os_killed o' = os_killed o
  | Fail c => os_children o' = os_children o ∧
      (c = EXIT_DISTCC_FAILED ∧ os_killed o' = os_killed o ∧
         os_log o' = NoWait (os_children o !! pid) :: os_log o ∨
       (c = EXIT_TIMEOUT ∧ lifetime ≠ 0%Z ∨ c = EXIT_IO_ERROR ∧ is_Some in_fd) ∧
       os_killed o' = pid :: os_killed o ∧ os_log o' = os_log o)
  | Exit _ | Undef => False
  end.

Definition same_children (o o1 : os) : Prop :=
  os_children o1 = os_children o ∧ os_killed o1 = os_killed o ∧ os_log o1 = os_log o.

(** Another round on a state that differs only in what the kernel decided. *)
Lemma collected_step lifetime pid in_fd n o o1 r o' :
  same_children o o1 → length (os_wait o) ≤ S (length (os_wait o1)) →
  collected lifetime pid in_fd (n - 1) o1 r o' → collected lifetime pid in_fd n o r o'.
Proof. intros (Hc & Hk & Hr') Hw [Hl Hr]. split; [lia|]. by rewrite <- Hc, <- Hk, <- Hr'. Qed.

Lemma wp_wait4 pid nohang Q o :
  (∀ o1, os_children o1 = os_children o → os_killed o1 = os_killed o →
     os_log o1 = NoWait (os_children o !! pid) :: os_log o →
     length (os_wait o) ≤ S (length (os_wait o1)) → Q (Ok (inr EOTHER)) o1) →
  (∀ o1, same_children o o1 → length (os_wait o) = S (length (os_wait o1)) → Q (Ok (inr EINTR)) o1) →
  (∀ o1, nohang = true → same_children o o1 →
     length (os_wait o) = S (length (os_wait o1)) → Q (Ok (inl None)) o1) →
  (∀ st ch o1, os_children o !! pid = Some ch → os_log o1 = Reaped ch st :: os_log o →
     os_children o1 = delete pid (os_children o) → os_killed o1 = os_killed o →
     length (os_wait o) ≤ S (length (os_wait o1)) → Q (Ok (inl (Some st))) o1) →
  wp (sys_wait4 pid nohang) Q o.
Proof.
  intros HE HI HN HS. unfold wp, sys_wait4, reap.
  destruct (os_wait o) as [|[] l] eqn:El, (os_children o !! pid) as [ch|] eqn:Ec; simpl; try rewrite El; simpl;
    rewrite ?Ec; simpl; try destruct nohang; simpl;
    try destruct (run_child _ _ _) as [st w'];
    (apply HE || apply HI || apply HN || eapply HS); simpl; rewrite ?El, ?Ec; simpl; eauto with lia; done.
Qed.

Lemma select_1s_Ok w : ∃ b w', select_1s w = (Ok b, w').
Proof. unfold select_1s. destruct (w_sel w) as [|[] ?]; eauto. Qed.

Lemma sys_read_Ok fd n w : ∃ b w', sys_read fd n w = (Ok b, w').
Proof.
  unfold sys_read. destruct (_ !! fd); [|eauto]. destruct (next_xfer n w) as [[] ?]; eauto.
Qed.

Lemma wp_on_w_Ok {A} (m : M world A) (Q : outcome A → os → Prop) o :
  (∀ w, ∃ a w', m w = (Ok a, w')) → (∀ a w, Q (Ok a) (set_os_w w o)) → wp (on_w m) Q o.
Proof.
  intros Hm HQ. apply wp_zoom. destruct (Hm (os_w o)) as (a & w' & E). by apply (wp_run _ _ _ _ _ E).
Qed.

Lemma wp_on_w_any {A} (m : M world A) (Q : outcome A → os → Prop) o :
  (∀ r w, Q r (set_os_w w o)) → wp (on_w m) Q o.
Proof. intros HQ. unfold on_w. apply wp_zoom. unfold wp. apply HQ. Qed.

Lemma collect_loop_returns fuel pid in_fd lifetime t o :
  length (os_wait o) + 2 ≤ fuel → (lifetime ≠ 0 → -1 ≤ t)%Z →
  wp (collect_loop fuel pid in_fd lifetime t) (collected lifetime pid in_fd (t + 1) o) o.
Proof.
  revert t o. induction fuel as [|fuel IH]; intros t o Hf Ht; [lia|]. simpl.
  destruct (negb (lifetime =? 0)%Z && (t <? 0)%Z) eqn:Hto.
  { apply andb_true_iff in Hto as [Hl Ht'].
    apply wp_bind. unfold sys_kill. apply wp_modify, wp_throw. split; [simpl; lia|]. simpl.
    split; [done|]. right. split; [left; split; [done|lia]|done]. }
  assert (lifetime ≠ 0%Z → (0 ≤ t)%Z) as Hpos.
  { intros Hl. apply andb_false_iff in Hto as [Hb|Hb]; lia. }
  assert (∀ o1, same_children o o1 → length (os_wait o) = S (length (os_wait o1)) →
    wp (collect_loop fuel pid in_fd lifetime (t - 1)) (collected lifetime pid in_fd (t + 1) o) o1) as Hrec.
  { intros o1 Hc Hw. eapply wp_mono; [apply IH; lia|]. intros r o' Hr.
    eapply collected_step; [done|lia|]. by replace (t + 1 - 1)%Z with (t - 1 + 1)%Z by lia. }
  assert (∀ o1, same_children o o1 → length (os_wait o) = S (length (os_wait o1)) → wp (match in_fd with
      | None => collect_loop fuel pid in_fd lifetime (t - 1)
      | Some fd =>
          let! ready := on_w select_1s in
          if ready then
            let! nread := on_w (sys_read fd 1) in
            match nread with
            | inl [] => do! sys_kill pid; fail EXIT_IO_ERROR
            | _ => collect_loop fuel pid in_fd lifetime (t - 1)
            end
          else collect_loop fuel pid in_fd lifetime (t - 1)
      end) (collected lifetime pid in_fd (t + 1) o) o1) as Hround.
  { intros o1 Hc Hw. destruct in_fd as [fd|]; [|by apply Hrec].
    apply wp_bind. apply wp_on_w_Ok; [by apply select_1s_Ok|]. intros [] w; [|by apply Hrec].
    apply wp_bind. apply wp_on_w_Ok; [by apply sys_read_Ok|].
    intros [[|? ?]|?] w'; try by apply Hrec.
    destruct Hc as (Hc & Hk & Hr). apply wp_bind. unfold sys_kill. apply wp_modify, wp_throw. split; [simpl; lia|].
    simpl. split; [done|]. right. rewrite Hk. split; [right; split; [done|by eexists]|done]. }
  apply wp_bind, wp_wait4.
  - intros o1 Hc Hk Hlog Hw. apply wp_throw. split; [lia|]. split; [done|]. by left.
  - intros o1 Hc Hw. by apply Hround.
  - intros o1 _ Hc Hw. by apply Hround.
  - intros st ch o1 Hs Hr Hc Hk Hw. apply wp_ret. split; [lia|]. split_and!; [by exists ch|done..].
Qed.

(** Waiting for a child always comes to an end: the child is collected, or
    the wait fails and the child is left, or (the time is up, or the client has
    gone) the child is killed.  With a lifetime of n seconds the child is asked
    about at most n + 1 times. *)
Lemma collect_child_returns (lifetime : Z) (pid : nat) (in_fd : option nat) (o : os) :
  (0 ≤ lifetime)%Z →
  wp (dcc_collect_child lifetime pid in_fd) (collected lifetime pid in_fd (lifetime + 1) o) o.
Proof. intros Hl. apply (collect_loop_returns _ pid in_fd lifetime lifetime o); lia. Qed.
End wait.

(** ** The status of a command *)

Lemma wtermsig_range s : (0 ≤ WTERMSIG s < 128)%Z.
Proof. unfold WTERMSIG. change 127%Z with (Z.ones 7). rewrite Z.land_ones by done. by apply Z.mod_pos_bound. Qed.

Lemma wexitstatus_range s : (0 ≤ WEXITSTATUS s < 256)%Z.
Proof. unfold WEXITSTATUS. change 255%Z with (Z.ones 8). rewrite Z.land_ones by done. by apply Z.mod_pos_bound. Qed.

(** What a wait status becomes: 0 exactly when the server, too, takes the
    status for a success, the exit code of a program that failed, 128 plus the
    signal that ended it otherwise; always a number the shell can report. *)
Lemma critique_status_spec (status : Z) :
  (dcc_critique_status status = 0%Z ↔ status_failed status = false) ∧
  (0 ≤ dcc_critique_status status ≤ 255)%Z ∧
  (dcc_critique_status status < 128 → WIFSIGNALED status = false)%Z ∧
  (∀ c, 0 ≤ c < 256 → dcc_critique_status (Z.shiftl c 8) = c)%Z ∧
  (∀ sig core, 0 < sig < 127 → dcc_critique_status (Z.lor sig (if core : bool then 128 else 0)) = 128 + sig)%Z.
Proof.
  pose proof (wtermsig_range status) as Ht. pose proof (wexitstatus_range status) as He.
  split_and!.
  - unfold dcc_critique_status, status_failed, WIFSIGNALED, WTERMSIG, WEXITSTATUS in *.
    repeat case_match; btest; lia.
  - unfold dcc_critique_status. repeat case_match; lia.
  - unfold dcc_critique_status. repeat case_match; lia.
  - unfold dcc_critique_status. destruct (WIFSIGNALED status) eqn:E; [|done].
    lia.
  - intros c Hc. unfold dcc_critique_status.
    assert (WTERMSIG (Z.shiftl c 8) = 0)%Z as E1.
    { unfold WTERMSIG. change 127%Z with (Z.ones 7). rewrite Z.land_ones, Z.shiftl_mul_pow2 by done.
      change (2 ^ 8)%Z with (2 * 2 ^ 7)%Z. by rewrite Z.mul_assoc, Z.mod_mul. }
    assert (WEXITSTATUS (Z.shiftl c 8) = c)%Z as E2.
    { unfold WEXITSTATUS. rewrite Z.shiftr_shiftl_l by done. change (8 - 8)%Z with 0%Z. rewrite Z.shiftl_0_r.
      change 255%Z with (Z.ones 8). rewrite Z.land_ones by done. by apply Z.mod_small. }
    unfold WIFSIGNALED. rewrite E1, E2. simpl. repeat case_match; lia.
  - intros sig core Hs. unfold dcc_critique_status, WIFSIGNALED.
    assert (WTERMSIG (Z.lor sig (if core then 128 else 0)) = sig)%Z as ->.
    { unfold WTERMSIG. rewrite Z.land_lor_distr_l. destruct core; simpl.
      - change (Z.land 128 127) with 0%Z. rewrite Z.lor_0_r. change 127%Z with (Z.ones 7).
        rewrite Z.land_ones by done. apply Z.mod_small. lia.
      - rewrite Z.lor_0_r. change 127%Z with (Z.ones 7). rewrite Z.land_ones by done. apply Z.mod_small. lia. }
    repeat case_match; btest; lia.
Qed.

(** ** Recursion *)

Lemma atoi_char (a : ascii) :
  (1 ≤ (if atoi (c_string [a]) =? 0 then 1 else atoi (c_string [a])) ≤ 9)%Z.
Proof. destruct a as [[] [] [] [] [] [] [] []]; by vm_compute. Qed.

(** A distcc started by a distcc knows it, however deep the recursion, so
    that it runs its command locally; up to the ninth level it also knows how
    deep it is. *)
Lemma safeguard_seen (level : Z) (w : world) (o : os) :
  ∃ n o', dcc_recursion_safeguard (set_os_w (dcc_increment_safeguard level w).2 o) = (Ok n, o') ∧
    os_safeguard o' = n ∧ (1 ≤ n ≤ 9)%Z ∧ ((0 ≤ level ≤ 8)%Z → n = (level + 1)%Z).
Proof.
  assert (w_env (dcc_increment_safeguard level w).2 !! dcc_safeguard_name =
    Some (c_string [safeguard_digit level])) as E by apply lookup_insert_eq.
  set (o1 := set_os_w (dcc_increment_safeguard level w).2 o).
  assert (on_w (getenv dcc_safeguard_name) o1 = (Ok (Some (c_string [safeguard_digit level])), o1)) as Eg.
  { unfold on_w, zoom, getenv, gets, o1. cbn [os_w set_os_w]. rewrite E. by destruct o. }
  eexists _, _. split; [unfold dcc_recursion_safeguard; by rewrite (bind_Ok _ _ _ _ _ Eg)|].
  split_and!; [done|apply atoi_char..|].
  intros Hl. assert (level ∈ [0; 1; 2; 3; 4; 5; 6; 7; 8]%Z) as Hin.
  { destruct (decide (level = 8%Z)); [subst; set_solver|].
    repeat (rewrite elem_of_cons). lia. }
  clear -Hin. repeat (apply elem_of_cons in Hin as [->|Hin]; [by vm_compute|]). by apply elem_of_nil in Hin.
Qed.

(** ** Witnesses *)

(** A child that is still running when it is asked about, four times. *)
Definition ex_waiting : os :=
  Os ex_tmp 7 [] [WaitRunning; WaitIntr; WaitRunning; WaitRunning] [] {[5 := Child (vec ["cc"%cs]) None None None]}
    [] 0 [] [] [] [].

Lemma collect_child_returns_witness :
  (0 ≤ 2)%Z ∧ wp (dcc_collect_child (Progs := {| exec_prog := λ _ _ _ _, None |}) 2 5 (Some 3))
    (collected 2 5 (Some 3) 3 ex_waiting) ex_waiting.
Proof. split; [lia|]. apply (collect_child_returns 2 5 (Some 3) ex_waiting). lia. Defined.
