(* ===== verification/Net.v ===== *)
(** * clinet.c, ssh.c: connections

    A connection is a descriptor whose input is what the peer will send.  The
    kernel decides how a [connect] goes ([os_conn], [os_so], [w_sel]). *)

From S2P Require Import Prelude CLib Util Argv World Io Exec.

(** The resolver: the addresses of a host and port. *)
Class Names := { host_addrs : cstr → Z → option (list cstr) }.

(** ** clinet.c *)

Definition sys_socket : M world (nat + errno) :=
  fs_call (let! fd := add_fd (Fd [] [] None) in ret (inl fd)).

Definition next_conn : M os conn_ev := λ o,
  match os_conn o with [] => (Ok ConnDone, o) | e :: l => (Ok e, set_os_conn l o) end.

Definition next_so : M os so_ev := λ o,
  match os_so o with [] => (Ok SoOk, o) | e :: l => (Ok e, set_os_so l o) end.

(** The connection stands: the peer's bytes can be read. *)
Definition attach (fd : nat) : M os unit := λ o,
  match os_streams o, c_fds (w_core (os_w o)) !! fd with
  | s :: l, Some d =>
      (Ok (), set_os_streams l
        (set_os_w (set_core (set_fds (<[fd := Fd s (fd_out d) (fd_file d)]>
           (c_fds (w_core (os_w o)))) (w_core (os_w o))) (os_w o)) o))
  | _, _ => (Ok (), o)
  end.

(** [do failed = connect(...) while (EINTR || (EAGAIN && tries-- && ...))] *)
Fixpoint connect_loop (fuel tries : nat) : M os unit :=
  match fuel with
  | 0 => ub
  | S fuel =>
      let! r := next_conn in
      match r with
      | ConnDone | ConnInProgress => ret ()
      | ConnErr EINTR => connect_loop fuel tries
      | ConnErr EAGAIN =>
          match tries with
          | 0 => fail EXIT_CONNECT_FAILED
          | S tries => connect_loop fuel tries
          end
      | ConnErr _ => fail EXIT_CONNECT_FAILED
      end
  end.

(** The loop around [getsockopt]. *)
Fixpoint so_loop (fuel fd : nat) : M os unit :=
  match fuel with
  | 0 => ub
  | S fuel =>
      do! on_w (dcc_select_for_write fd 4);
      let! r := next_so in
      match r with
      | SoInProgress => so_loop fuel fd
      | SoFailed | SoErr => fail EXIT_CONNECT_FAILED
      | SoOk => ret ()
      end
  end.

(** On failure the socket stays open. *)
Definition dcc_connect_by_addr (sa : cstr) : M os nat :=
  do! on_w (malloc_or EXIT_OUT_OF_MEMORY);
  let! fd := on_w sys_socket in
  match fd with
  | inr _ => fail EXIT_CONNECT_FAILED
  | inl fd =>
      let! n := gets (λ o, length (os_conn o)) in
      do! connect_loop (S n) 3;
      let! n := gets (λ o, length (os_so o)) in
      do! so_loop (S n) fd;
      do! attach fd;
      ret fd
  end.

(** Try each address; [ret] is what the last one gave. *)
Fixpoint try_addrs (addrs : list cstr) : M os nat :=
  match addrs with
  | [] => ub
  | [sa] => dcc_connect_by_addr sa
  | sa :: addrs =>
      let! r := attempt (dcc_connect_by_addr sa) in
      match r with
      | inl fd => ret fd
      | inr _ => try_addrs addrs
      end
  end.

Section net.
Context {Cfg : Config} {NAMES : Names}.

(** With RFC 2553 every address of the host is tried, without it the first. *)
Definition dcc_connect_by_name (host : cstr) (port : Z) : M os nat :=
  match host_addrs host port with
  | None => fail EXIT_CONNECT_FAILED
  | Some addrs =>
      if ENABLE_RFC2553 then try_addrs addrs
      else match addrs with sa :: _ => dcc_connect_by_addr sa | [] => ub end
  end.
End net.

(** ** ssh.c *)

(** Two descriptors connected to each other. *)
Definition fd_pair : M world (nat * nat + errno) :=
  fs_call (let! a := add_fd (Fd [] [] None) in
           let! b := add_fd (Fd [] [] None) in ret (inl (a, b))).

(** The parent: descriptors to read from and to write to the child. *)
Definition dcc_run_piped_cmd (argv : cvec) : M os (nat * nat * nat) :=
  let! to_child := on_w fd_pair in
  match to_child with
  | inr _ => fail EXIT_IO_ERROR
  | inl (to0, to1) =>
      let! from_child := on_w fd_pair in
      match from_child with
      | inr _ =>
          do! on_w (attempt (dcc_close to0));
          do! on_w (attempt (dcc_close to1));
          fail EXIT_IO_ERROR
      | inl (from0, from1) =>
          let! pid := attempt (dcc_spawn_child argv None None None) in
          match pid with
          | inr _ =>
              do! on_w (attempt (dcc_close to0));
              do! on_w (attempt (dcc_close to1));
              do! on_w (attempt (dcc_close from0));
              do! on_w (attempt (dcc_close from1));
              fail EXIT_IO_ERROR
          | inl pid =>
              let! r := on_w (attempt (dcc_close from1)) in
              match r with
              | inr _ => fail EXIT_IO_ERROR
              | inl _ =>
                  let! r := on_w (attempt (dcc_close to0)) in
                  match r with
                  | inr _ => fail EXIT_IO_ERROR
                  | inl _ => do! attach from0; ret (from0, to1, pid)
                  end
              end
          end
      end
  end.

(** The command line of the tunnel, in an array of 10. *)
Definition ssh_argv (ssh_cmd : cstr) (user : option cstr) (machine path : cstr) : list cstr :=
  [ssh_cmd] ++ match user with Some u => ["-l"%cs; u] | None => [] end ++ [machine; path; "--inetd"%cs].

(** [ssh_cmd] is NULL in the only call. *)
Definition dcc_ssh_connect (user machine path : option cstr) : M os (nat * nat * nat) :=
  let! e := on_w (getenv "DISTCC_SSH"%cs) in
  let ssh_cmd := default "ssh"%cs e in
  match machine with
  | None => fail EXIT_DISTCC_FAILED
  | Some machine =>
      let path := default "distccd"%cs path in
      match blit (replicate 10 Garbage) 0 (vec (ssh_argv ssh_cmd user machine path)) with
      | None => ub
      | Some child_argv => dcc_run_piped_cmd child_argv
      end
  end.

(** ** Connecting always ends *)

Lemma next_conn_run o :
  ∃ e o', next_conn o = (Ok e, o') ∧ os_so o' = os_so o ∧
    (os_conn o = [] ∧ e = ConnDone ∨ length (os_conn o) = S (length (os_conn o'))).
Proof. unfold next_conn. destruct (os_conn o) as [|e l] eqn:E; eexists _, _; (split; [done|]); simpl; auto. Qed.

Lemma connect_loop_returns fuel tries o :
  length (os_conn o) < fuel →
  wp (connect_loop fuel tries) (λ r o', match r with
    | Ok _ => os_so o' = os_so o | Fail c => c = EXIT_CONNECT_FAILED | _ => False end) o.
Proof.
  revert tries o. induction fuel as [|fuel IH]; intros tries o Hf; [lia|]. cbn [connect_loop].
  destruct (next_conn_run o) as (e & o1 & E & Hs & Hn). apply wp_bind, (wp_run _ _ _ _ _ E).
  assert (∀ tries, e ≠ ConnDone → wp (connect_loop fuel tries) (λ r o', match r with
    | Ok _ => os_so o' = os_so o | Fail c => c = EXIT_CONNECT_FAILED | _ => False end) o1) as Hrec.
  { intros t He. rewrite <- Hs. apply IH. destruct Hn as [[_ ?]|?]; [done|lia]. }
  destruct e as [| |[]]; try (by apply wp_ret); try (by apply wp_throw); [|by apply Hrec].
  destruct tries as [|tries]; [by apply wp_throw|]. by apply Hrec.
Qed.

Lemma select_for_write_run fd t w :
  ∃ r w', dcc_select_for_write fd t w = (r, w') ∧ (r = Ok () ∨ r = Fail EXIT_IO_ERROR).
Proof.
  unfold dcc_select_for_write. generalize (w_sel w). intros l.
  destruct (select_loop l) as [r l'] eqn:E. eexists _, _. split; [done|].
  revert E. induction l as [|[| |[]] l IH]; simpl; intros E; simplify_eq; auto.
Qed.

Lemma so_loop_returns fuel fd o :
  length (os_so o) < fuel →
  wp (so_loop fuel fd) (λ r o', match r with
    | Ok _ => True | Fail c => c = EXIT_CONNECT_FAILED ∨ c = EXIT_IO_ERROR | _ => False end) o.
Proof.
  revert o. induction fuel as [|fuel IH]; intros o Hf; [lia|]. cbn [so_loop].
  apply wp_bind. unfold on_w at 1. apply wp_zoom.
  destruct (select_for_write_run fd 4 (os_w o)) as (r & w' & E & [->| ->]); apply (wp_run _ _ _ _ _ E); [|by auto].
  set (o1 := set_os_w w' o). apply wp_bind. unfold wp at 1, next_so.
  change (os_so o1) with (os_so o). destruct (os_so o) as [|e l] eqn:El; simpl; [by apply wp_ret|].
  destruct e; try (by apply wp_ret); try (by apply wp_throw; auto).
  apply IH. simpl in *. lia.
Qed.

Lemma connect_by_addr_returns sa o :
  wp (dcc_connect_by_addr sa) (λ r _, match r with
    | Ok _ => True
    | Fail c => c = EXIT_CONNECT_FAILED ∨ c = EXIT_IO_ERROR ∨ c = EXIT_OUT_OF_MEMORY
    | _ => False end) o.
Proof.
  unfold dcc_connect_by_addr. apply wp_bind. unfold on_w at 1.
  apply wp_zoom, wp_malloc_or; intros l; [|by auto].
  apply wp_bind, wp_on_w_Ok.
  { intros w. unfold sys_socket, fs_call, bind, next_fs. destruct (w_fs w) as [|[e|] ?]; eauto. }
  intros [fd|e] w; [|by apply wp_throw; auto].
  apply wp_bind, wp_gets, wp_bind. eapply wp_mono; [apply connect_loop_returns; simpl; lia|].
  intros [] o1 H1; try done; [|by auto].
  apply wp_bind, wp_gets, wp_bind. eapply wp_mono; [apply so_loop_returns; simpl; lia|].
  intros [] o2 H2; try done; [|by destruct H2; auto].
  apply wp_bind. unfold wp at 1, attach. by repeat case_match.
Qed.

(** Connecting to a host always comes to an end, however the network
    behaves: with a descriptor, or with one of three error codes. *)
Lemma connect_by_name_returns {Cfg : Config} {NAMES : Names} (host : cstr) (port : Z) (o : os) :
  host_addrs host port ≠ Some [] →
  wp (dcc_connect_by_name host port) (λ r _, match r with
    | Ok _ => True
    | Fail c => c = EXIT_CONNECT_FAILED ∨ c = EXIT_IO_ERROR ∨ c = EXIT_OUT_OF_MEMORY
    | _ => False end) o.
Proof.
  intros Hne. unfold dcc_connect_by_name. destruct (host_addrs host port) as [addrs|]; [|by apply wp_throw; auto].
  destruct addrs as [|sa addrs]; [done|]. destruct ENABLE_RFC2553; [|apply connect_by_addr_returns].
  clear Hne. revert sa o. induction addrs as [|sa' addrs IH]; intros sa o; [apply connect_by_addr_returns|].
  cbn [try_addrs]. apply wp_bind, wp_attempt. eapply wp_mono; [apply connect_by_addr_returns|].
  intros [] o1 H; try done. apply (IH sa').
Qed.

Lemma connect_by_name_returns_witness :
  host_addrs (Names := {| host_addrs := λ _ _, Some ["addr"%cs] |}) "h"%cs 3632 ≠ Some [] ∧
  wp (dcc_connect_by_name (Cfg := usual_config) (NAMES := {| host_addrs := λ _ _, Some ["addr"%cs] |}) "h"%cs 3632)
    (λ r _, match r with
    | Ok _ => True
    | Fail c => c = EXIT_CONNECT_FAILED ∨ c = EXIT_IO_ERROR ∨ c = EXIT_OUT_OF_MEMORY
    | _ => False end) ex_waiting.
Proof. split; [done|]. by apply connect_by_name_returns. Defined.
