(* ===== verification/PumpMode.v ===== *)
(** * include_server_if.c, clirpc.c: preprocessing on the server

    The include server keeps a compressed mirror of the headers a source file
    may need; the client sends the mirror's files and links to the compile
    server, which rebuilds the tree in a directory of its own. *)

From S2P Require Import Prelude CLib Util Filename Argv Text Paths.
From S2P Require Import World Io Rpc Tempfile Bulk Results Exec Net.

(** ** include_server_if.c: names *)

(** [work = strchr(work + 1, '/')], [n] times; NULL makes the caller return 1. *)
Fixpoint drop_components (n : nat) (work : cstr) : outcome cstr :=
  match n with
  | 0 => Ok work
  | S n =>
      match work with
      | [] => Undef
      | _ :: work' =>
          match strchr work' "/" with
          | None => Fail 1
          | Some i => drop_components n (drop i work')
          end
      end
  end.

(** Remove the extension [ext] if [work] has it. *)
Definition cut_extension (ext work : cstr) : cstr :=
  match dcc_find_extension work with
  | Some dot => if streq (drop dot work) ext then take dot work else work
  | None => work
  end.

Definition INCLUDE_SERVER_DIR_DEPTH : nat := 3.

Section names.
Context {St : Type} {MS : MemState St}.

Definition dcc_get_original_fname (fname : cstr) : M St cstr :=
  do! malloc_or EXIT_OUT_OF_MEMORY;
  let! work := throw (drop_components INCLUDE_SERVER_DIR_DEPTH fname) in
  do! malloc_or EXIT_OUT_OF_MEMORY;
  ret (cut_extension ".lzo"%cs (cut_extension ".abs"%cs work)).
End names.

Definition dcc_count_slashes (path : cstr) : nat := length (filter (λ c, c = "/"%char) path).

(** Each round consumes three characters. *)
Fixpoint count_dotdots (fuel : nat) (path : cstr) : nat :=
  match fuel with
  | 0 => 0
  | S fuel => if str_startswith "../"%cs path then S (count_dotdots fuel (drop 3 path)) else 0
  end.
Definition dcc_count_leading_dotdots (path : cstr) : nat := count_dotdots (length path) path.

(** ** clirpc.c: links *)

(** At most MAXPATHLEN bytes of the target. *)
Definition dcc_read_link (fname : cstr) : M world cstr :=
  let! r := sys_readlink fname MAXPATHLEN in
  match r with
  | inr _ => fail EXIT_IO_ERROR
  | inl points_to => ret points_to
  end.

Definition dcc_is_link (fname : cstr) : M world bool :=
  let! r := sys_stat fname in
  match r with
  | inr _ => fail EXIT_IO_ERROR
  | inl n => ret (match n with NLink _ => true | _ => false end)
  end.

(** ** include_server_if.c: what a file is for *)

Inductive category := SYSTEMDIR | DIRECTORY | SYMLINK | FILE.

Definition forcing : cstr := "/forcing_technique_271828"%cs.

(** The line printed for a file: its category and original name. *)
Definition dcc_categorize_file (include_server_filename : cstr) : M world (category * cstr) :=
  let! is_symlink := dcc_is_link include_server_filename in
  let! link_target := (if is_symlink then dcc_read_link include_server_filename else ret []) in
  let! filename := dcc_get_original_fname include_server_filename in
  let is_forced_directory := str_endswith forcing filename in
  let filename := if is_forced_directory then take (length filename - length forcing) filename else filename in
  let leading_dotdots := dcc_count_leading_dotdots link_target in
  let is_system_include_directory :=
    is_symlink && (0 <? leading_dotdots) && (dcc_count_slashes filename <? leading_dotdots)
    && streq (drop (3 * leading_dotdots - 1) link_target) filename in
  ret (if is_system_include_directory then SYSTEMDIR
       else if is_forced_directory then DIRECTORY
       else if is_symlink then SYMLINK
       else FILE, filename).

(** ** include_server_if.c: the include server *)

(** [sizeof(sa.sun_path)] *)
Definition sun_path_size : nat := 108.

Definition dcc_talk_to_include_server (cwd : option cstr) (argv : cvec) : M os cvec :=
  let! stub := on_w (getenv "INCLUDE_SERVER_STUB"%cs) in
  match stub with
  | Some stub => on_w (dcc_tokenize_string stub)
  | None =>
      let! port := on_w (getenv "INCLUDE_SERVER_PORT"%cs) in
      match port with
      | None => fail 1
      | Some port =>
          if decide (sun_path_size - 1 ≤ length port) then fail 1
          else
            let! fd := attempt (dcc_connect_by_addr port) in
            match fd with
            | inr _ => fail 1
            | inl fd =>
                let! files := attempt (on_w (do! dcc_x_cwd cwd fd;
                                             do! dcc_x_argv fd "ARGC"%cs "ARGV"%cs argv;
                                             dcc_r_argv fd "ARGC"%cs "ARGV"%cs)) in
                match files with
                | inr _ => do! on_w (attempt (dcc_close fd)); fail 1
                | inl files =>
                    let! r := attempt (on_w (dcc_close fd)) in
                    match r with
                    | inr _ => fail 1
                    | inl _ =>
                        let! n := on_w (dcc_argv_len files) in
                        if decide (n = 0) then fail 1 else ret files
                    end
                end
            end
      end
  end.

Fixpoint categorize_all (files : cvec) : M world (list (category * cstr)) :=
  match files with
  | Str f :: files =>
      let! l := dcc_categorize_file f in
      let! r := categorize_all files in
      ret (l :: r)
  | Null :: _ => ret []
  | _ => ub
  end.

(** The --scan-includes option: the lines printed. *)
Definition dcc_approximate_includes (cpp : dcc_cpp_where) (cwd : option cstr) (argv : cvec) :
    M os (list (category * cstr)) :=
  match cpp with
  | DCC_CPP_ON_CLIENT => fail EXIT_DISTCC_FAILED
  | DCC_CPP_ON_SERVER =>
      let! files := dcc_talk_to_include_server cwd argv in
      on_w (categorize_all files)
  end.

(** ** clirpc.c: sending the files *)

Section send.
Context {Cfg : Config} {LZO : Lzo}.

Definition x_one_file (ofd : nat) (fname : cstr) : M world unit :=
  let! original_fname := dcc_get_original_fname fname in
  let! is_link := dcc_is_link fname in
  if is_link then
    let! link_points_to := dcc_read_link fname in
    do! dcc_x_token_string ofd "NAME"%cs original_fname;
    dcc_x_token_string ofd "LINK"%cs (c_string link_points_to)
  else
    do! dcc_x_token_string ofd "NAME"%cs original_fname;
    do! dcc_x_file ofd fname "FILE"%cs DCC_COMPRESS_NONE;
    ret ().

Fixpoint x_files_loop (ofd : nat) (fnames : cvec) : M world unit :=
  match fnames with
  | Null :: _ => ret ()
  | Str fname :: fnames => do! x_one_file ofd fname; x_files_loop ofd fnames
  | _ => ub
  end.

(** The code does not look at what sending the count returns. *)
Definition dcc_x_many_files (ofd : nat) (n_files : Z) (fnames : cvec) : M world unit :=
  do! attempt (dcc_x_token_int ofd "NFIL"%cs n_files);
  x_files_loop ofd fnames.
End send.

(** ** The files of a job, there and back *)

(** An entry of the mirror: its name there, its original name, and what it is;
    a file is stored compressed. *)
Inductive mirrored := MFile (data body : cstr) | MLink (target : cstr).
Record entry := Entry { e_fname : cstr; e_orig : cstr; e_what : mirrored }.

Definition mirror_node (e : entry) : node :=
  match e_what e with MFile _ body => NFile body | MLink t => NLink t end.

(** What the server is to have: a link to an absolute name stays inside its
    directory. *)
Definition rebuilt_node (dirname : cstr) (e : entry) : node :=
  match e_what e with
  | MFile data _ => NFile data
  | MLink t => NLink (if ceqb (cget t 0) "/" then dirname ++ t else t)
  end.

(** The original name, when the name is deep enough. *)
Definition original (fname : cstr) : option cstr :=
  match drop_components INCLUDE_SERVER_DIR_DEPTH fname with
  | Ok work => Some (cut_extension ".lzo"%cs (cut_extension ".abs"%cs work))
  | _ => None
  end.

Section roundtrip.
Context {Cfg : Config} {LZO : Lzo} {LAWS : LzoLaws}.

Definition entry_ok (compr : dcc_compress) (e : entry) : Prop :=
  original (e_fname e) = Some (e_orig e) ∧ wire_str (e_orig e) ∧
  match e_what e with
  | MFile data body =>
      (Z.of_nat (length data) < 2 ^ 32)%Z ∧ (Z.of_nat (length body) < 2 ^ 32)%Z ∧ wire_body compr data body
  | MLink t => wire_str t ∧ length t ≤ MAXPATHLEN
  end.

Definition entry_bytes (e : entry) : cstr :=
  string_bytes "NAME"%cs (e_orig e) ++
  match e_what e with
  | MFile _ body => file_bytes "FILE"%cs body
  | MLink t => string_bytes "LINK"%cs t
  end.

Definition many_bytes (es : list entry) : cstr :=
  ("NFIL"%cs ++ hex8 (Z.of_nat (length es))) ++ (es ≫= entry_bytes).

(** *** Sending *)

Lemma get_original_fname_runs fname orig c :
  original fname = Some orig → runs (dcc_get_original_fname fname) (Ok orig) c c.
Proof.
  unfold original, dcc_get_original_fname. intros E. eapply runs_bind; [apply runs_malloc_or|].
  destruct (drop_components _ fname) as [work| | |]; try done. injection E as <-.
  eapply runs_bind; [apply runs_throw|]. eapply runs_bind; [apply runs_malloc_or|]. apply runs_ret.
Qed.

Lemma is_link_runs fname n c :
  c_files c !! fname = Some n →
  runs (dcc_is_link fname) (Ok (match n with NLink _ => true | _ => false end)) c c.
Proof.
  intros Hn. unfold dcc_is_link. eapply runs_bind; [apply runs_sys_stat|]. rewrite Hn. apply runs_ret.
Qed.

Lemma x_one_file_runs fd d compr e b c :
  entry_ok compr e → fd_file d = None → c_files c !! e_fname e = Some (mirror_node e) →
  runs (x_one_file fd (e_fname e)) (Ok ()) (put fd d b c) (put fd d (b ++ entry_bytes e) c).
Proof.
  intros (Ho & Hw & Hk) Hd Hm. unfold x_one_file, mirror_node, entry_bytes in *.
  rewrite app_assoc.
  assert (c_files (put fd d b c) = c_files c) as Hf by by apply put_files_None.
  eapply runs_bind; [by apply get_original_fname_runs|].
  eapply runs_bind; [apply is_link_runs; by rewrite Hf|]. 
  assert (runs (dcc_x_token_string fd "NAME"%cs (e_orig e)) (Ok ()) (put fd d b c)
    (put fd d (b ++ string_bytes "NAME"%cs (e_orig e)) c)) as Hname.
  { apply runs_put_more. intros. by apply x_token_string_sends. }
  destruct (e_what e) as [data body|t]; cbn iota.
  - destruct Hk as (Hl & Hlb & Hb). eapply runs_bind; [exact Hname|].
    eapply runs_bind; [by apply (x_file_more fd d (e_fname e) "FILE"%cs DCC_COMPRESS_NONE body body)|].
    apply runs_ret.
  - destruct Hk as [Ht Hlt].
    eapply runs_bind.
    { unfold dcc_read_link. eapply runs_bind; [apply sys_readlink_runs; by rewrite Hf|]. apply runs_ret. }
    eapply runs_bind; [exact Hname|].
    rewrite take_ge by done. rewrite c_string_nul_free by apply Ht.
    apply runs_put_more. intros. by apply x_token_string_sends.
Qed.

Lemma x_files_loop_runs fd d compr es tl b c :
  Forall (entry_ok compr) es → fd_file d = None →
  Forall (λ e, c_files c !! e_fname e = Some (mirror_node e)) es →
  runs (x_files_loop fd (vec (e_fname <$> es) ++ tl)) (Ok ()) (put fd d b c)
    (put fd d (b ++ (es ≫= entry_bytes)) c).
Proof.
  intros He Hd. revert b. induction He as [|e es He _ IH]; intros b Hm; cbn [fmap list_fmap vec app x_files_loop mbind list_bind].
  - rewrite app_nil_r. apply runs_ret.
  - apply Forall_cons in Hm as [Hm Hms]. eapply runs_bind; [by eapply x_one_file_runs|].
    rewrite app_assoc. by apply IH.
Qed.

(** *** Receiving *)

Lemma sometoken_runs fd d t v rest c :
  length t = 4 → nul_free t → (0 ≤ v < 2 ^ 32)%Z → c_fds c !! fd = Some d → fd_in d = t ++ hex8 v ++ rest →
  runs (dcc_r_sometoken_int fd) (Ok (t, v)) c (taken fd d rest c).
Proof. intros Ht Hn Hv Hd Hin. apply r_sometoken_int_reads; try done. by rewrite <- app_assoc. Qed.

(** A name can be made: nothing is in its way. *)
Definition free_name (p : cstr) (c : core) : Prop :=
  c_files c !! p = None ∧ ∀ q, ancestor p q → c_files c !! q = None ∨ c_files c !! q = Some NDir.

Lemma made_dirs_taken p fd d rest c c' :
  made_dirs p (taken fd d rest c) c' → c_fds c' !! fd = Some (Fd rest (fd_out d) (fd_file d)).
Proof. intros (-> & _). apply taken_lookup. Qed.

Lemma ancestor_irrefl p : ¬ ancestor p p.
Proof. intros [_ [r E%(f_equal length)]]. rewrite length_app in E. simpl in E. lia. Qed.
Lemma registered_wf_files f c : cleanups_wf c → cleanups_wf (registered f c).
Proof.
  unfold cleanups_wf, registered, grown_size. simpl. rewrite length_app. simpl. repeat case_decide; lia.
Qed.

Lemma cleanup_or_unlink_runs name c :
  cleanups_wf c → runs (cleanup_or_unlink name) (Ok ()) c (registered name c).
Proof.
  intros Hc. unfold cleanup_or_unlink. eapply runs_bind; [by apply runs_attempt_Ok, add_cleanup_runs|]. apply runs_ret.
Qed.

Lemma prepend_runs dirname path c : runs (prepend_dir_to_name dirname path) (Ok (dirname ++ path)) c c.
Proof. eapply runs_bind; [apply runs_malloc_or|]. apply runs_ret. Qed.

Lemma sys_symlink_runs t p c :
  c_files c !! p = None → parent_exists p (c_files c) = true →
  runs (sys_symlink t p) (Ok (inl ())) c (set_files (<[p := NLink t]> (c_files c)) c).
Proof.
  intros Hp He. apply runs_fs_call. eapply runs_bind; [apply runs_lookup_file|].
  eapply runs_bind; [apply (runs_gets (λ c, parent_exists p (c_files c)))|]. rewrite Hp, He.
  eapply runs_bind; [apply runs_modify_core|]. apply runs_ret.
Qed.

(** [name] was made with contents [n], and directories on the way to it. *)
Definition made (name : cstr) (n : node) (m m' : gmap cstr node) : Prop :=
  m' !! name = Some n ∧
  ∀ q, q ≠ name → m' !! q = m !! q ∨ (ancestor name q ∧ m !! q = None ∧ m' !! q = Some NDir).

Lemma made_insert name n c c' :
  made_dirs name c c' → made name n (c_files c) (<[name := n]> (c_files c')).
Proof.
  intros (_ & _ & _ & Hm). split; [apply lookup_insert_eq|]. intros q Hq. rewrite lookup_insert_ne by done. apply Hm.
Qed.

Lemma r_one_file_runs fd d dirname compr e rest c :
  let name := dirname ++ e_orig e in
  entry_ok compr e → free_name name c → cleanups_wf c →
  c_fds c !! fd = Some d → fd_in d = entry_bytes e ++ rest →
  ∃ c' d', runs (r_one_file fd dirname compr) (Ok ()) c c' ∧
    c_fds c' !! fd = Some d' ∧ fd_in d' = rest ∧ cleanups_wf c' ∧
    made name (rebuilt_node dirname e) (c_files c) (c_files c').
Proof.
  intros name (_ & Hw & Hk) [Hfree Hanc] Hwf Hd Hin. unfold entry_bytes, rebuilt_node in *.
  rewrite <- app_assoc in Hin. unfold r_one_file.
  destruct (e_what e) as [data body|t].
  - destruct Hk as (Hl & Hlb & Hb). unfold file_bytes in Hin. rewrite <- !app_assoc in Hin.
    set (c2 := taken fd d (body ++ rest) c).
    destruct (mk_ancestors_makes name c2) as (c3 & Hr3 & Hm3 & Hp3); [done..|].
    assert (c_files c3 !! name = None) as Hn3.
    { destruct Hm3 as (_ & _ & _ & Hm). destruct (Hm name) as [->|(Ha & _)]; [done|]. by apply ancestor_irrefl in Ha. }
    eexists _, _. split; [|split].
    { eapply runs_bind; [by apply (r_token_string_reads "NAME"%cs (e_orig e) eq_refl Hw fd d c _ Hd Hin)|].
      eapply runs_bind; [apply prepend_runs|]. fold name.
      eapply runs_bind.
      { eapply (sometoken_runs fd _ "FILE"%cs (Z.of_nat (length body)) (body ++ rest)); [done|by apply (bool_decide_eq_true_1 _)|lia|apply taken_lookup|done]. }
      rewrite taken_taken. fold c2. cbn beta iota.
      change (strncmp0 "FILE"%cs "LINK"%cs 4) with false. change (strncmp0 "FILE"%cs "FILE"%cs 4) with true. cbn iota.
      eapply runs_bind; [|apply cleanup_or_unlink_runs].
      - eapply (r_file_runs_made fd _ name compr data body rest c2 c3 Hb Hl Hr3); [by rewrite Hn3|by eapply made_dirs_taken|done].
      - apply Hm3. }
    { simpl. apply lookup_insert_eq. }
    split_and!; [done|apply registered_wf_files, Hm3|]. simpl. by apply (made_insert _ _ c2 c3).
  - destruct Hk as [Ht Hlt]. unfold string_bytes in Hin at 2. rewrite <- !app_assoc in Hin.
    set (c2 := taken fd d rest c).
    destruct (mk_ancestors_makes name c2) as (c3 & Hr3 & Hm3 & Hp3); [done..|].
    assert (c_files c3 !! name = None) as Hn3.
    { destruct Hm3 as (_ & _ & _ & Hm). destruct (Hm name) as [->|(Ha & _)]; [done|]. by apply ancestor_irrefl in Ha. }
    eexists _, _. split; [|split].
    { eapply runs_bind; [by apply (r_token_string_reads "NAME"%cs (e_orig e) eq_refl Hw fd d c _ Hd Hin)|].
      eapply runs_bind; [apply prepend_runs|]. fold name.
      eapply runs_bind.
      { eapply (sometoken_runs fd _ "LINK"%cs (Z.of_nat (length t)) (t ++ rest)); [done|by apply (bool_decide_eq_true_1 _)|destruct Ht; lia|apply taken_lookup|done]. }
      rewrite taken_taken. cbn beta iota. change (strncmp0 "LINK"%cs "LINK"%cs 4) with true. cbn iota.
      eapply runs_bind; [by eapply (r_str_alloc_reads t (proj1 Ht) fd _ _ rest (taken_lookup _ _ _ _) eq_refl)|].
      rewrite taken_taken. fold c2.
      apply (runs_bind _ _ (if ceqb (cget t 0) "/" then dirname ++ t else t) _ _ c2).
      { destruct (ceqb (cget t 0) "/"); [apply prepend_runs|apply runs_ret]. }
      eapply runs_bind; [exact Hr3|].
      eapply runs_bind; [by apply sys_symlink_runs|]. cbn iota. apply cleanup_or_unlink_runs. apply Hm3. }
    { simpl. by eapply made_dirs_taken. }
    split_and!; [done|apply registered_wf_files, Hm3|]. simpl. by apply (made_insert _ _ c2 c3).
Qed.

(** The names of a job are different, and none is on the way to another. *)
Definition tree_names (names : list cstr) : Prop :=
  NoDup names ∧ ∀ p q, p ∈ names → ancestor p q → q ∉ names.

Lemma r_files_loop_runs dirname compr es : ∀ fd d rest c,
  Forall (entry_ok compr) es → tree_names ((λ e, dirname ++ e_orig e) <$> es) →
  Forall (λ e, free_name (dirname ++ e_orig e) c) es → cleanups_wf c →
  c_fds c !! fd = Some d → fd_in d = (es ≫= entry_bytes) ++ rest →
  ∃ c' d', runs (r_files_loop (length es) fd dirname compr) (Ok ()) c c' ∧
    c_fds c' !! fd = Some d' ∧ fd_in d' = rest ∧ cleanups_wf c' ∧
    Forall (λ e, c_files c' !! (dirname ++ e_orig e) = Some (rebuilt_node dirname e)) es ∧
    ∀ q, q ∉ (λ e, dirname ++ e_orig e) <$> es →
      c_files c' !! q = c_files c !! q ∨ (c_files c !! q = None ∧ c_files c' !! q = Some NDir).
Proof.
  induction es as [|e es IH]; intros fd d rest c He Ht Hf Hwf Hd Hin.
  { exists c, d. split_and!; auto. apply runs_ret. }
  cbn [fmap list_fmap mbind list_bind length r_files_loop] in *.
  apply Forall_cons in He as [He Hes]. apply Forall_cons in Hf as [Hf Hfs]. rewrite <- app_assoc in Hin.
  destruct Ht as [Hnd Htree]. apply NoDup_cons in Hnd as [Hnin Hnd].
  set (name := dirname ++ e_orig e) in *.
  destruct (r_one_file_runs fd d dirname compr e _ c He Hf Hwf Hd Hin) as (c1 & d1 & Hr1 & Hd1 & Hin1 & Hwf1 & Hn1 & Hm1).
  fold name in Hn1, Hm1.
  assert (∀ q, q ≠ name → ¬ ancestor name q → c_files c1 !! q = c_files c !! q) as Hsame.
  { intros q Hq Ha. by destruct (Hm1 q Hq) as [?|(? & _)]. }
  destruct (IH fd d1 rest c1) as (c2 & d2 & Hr2 & Hd2 & Hin2 & Hwf2 & Hall & Hrest); try done.
  - split; [done|]. intros p q Hp Ha Hq. eapply (Htree p q); [set_solver|done|set_solver].
  - apply Forall_forall. intros e' He'. assert (dirname ++ e_orig e' ∈ (λ e, dirname ++ e_orig e) <$> es) as Hin'.
    { apply list_elem_of_fmap. eauto. }
    rewrite Forall_forall in Hfs. destruct (Hfs e' He') as [Hf1 Hf2]. split.
    + rewrite Hsame; [done|by intros E; rewrite E in Hin'|]. intros Ha. eapply (Htree name); [set_solver|done|set_solver].
    + intros q Hq. destruct (decide (q = name)) as [->|Hne].
      * exfalso. eapply (Htree (dirname ++ e_orig e')); [set_solver|exact Hq|set_solver].
      * destruct (Hm1 q Hne) as [->|(_ & _ & ->)]; [by apply Hf2|by right].
  - exists c2, d2. split_and!; try done.
    + by eapply runs_bind.
    + constructor; [|done]. destruct (Hrest name Hnin) as [E|[? _]]; [|congruence].
      etransitivity; [exact E|exact Hn1].
    + intros q Hq. apply not_elem_of_cons in Hq as [Hq Hq'].
      destruct (Hrest q Hq') as [->|[Hx ->]], (Hm1 q Hq) as [Hy|(_ & ? & ?)]; auto.
      { right. by rewrite <- Hy. }

Qed.

(** C18. The files of a job preprocessed on the server: what the client sends of
    the include server's mirror (compressed files and links, under their
    original names), the compile server rebuilds below its own directory: every
    file with its contents, every link with its target, absolute targets moved
    below the directory; directories are made as needed, and nothing else
    changes. *)
Theorem many_files_roundtrip (fds fdr : nat) (ds dr : fdesc) (es : list entry) (dirname rest : cstr)
    (compr : dcc_compress) (cs cr : core) :
  Forall (entry_ok compr) es → (Z.of_nat (length es) < 2 ^ 32)%Z →
  c_fds cs !! fds = Some ds → fd_file ds = None →
  Forall (λ e, c_files cs !! e_fname e = Some (mirror_node e)) es →
  c_fds cr !! fdr = Some dr → fd_in dr = many_bytes es ++ rest → cleanups_wf cr →
  tree_names ((λ e, dirname ++ e_orig e) <$> es) →
  Forall (λ e, free_name (dirname ++ e_orig e) cr) es →
  runs (dcc_x_many_files fds (Z.of_nat (length es)) (vec (e_fname <$> es))) (Ok ()) cs
    (put fds ds (many_bytes es) cs) ∧
  ∃ c' d', runs (dcc_r_many_files fdr dirname compr) (Ok ()) cr c' ∧
    c_fds c' !! fdr = Some d' ∧ fd_in d' = rest ∧
    Forall (λ e, c_files c' !! (dirname ++ e_orig e) = Some (rebuilt_node dirname e)) es ∧
    ∀ q, q ∉ (λ e, dirname ++ e_orig e) <$> es →
      c_files c' !! q = c_files cr !! q ∨ (c_files cr !! q = None ∧ c_files c' !! q = Some NDir).
Proof.
  intros He Hn Hds Hdf Hm Hdr Hin Hwf Ht Hf. split.
  - unfold dcc_x_many_files, many_bytes. eapply runs_bind.
    { apply runs_attempt_Ok. apply x_token_int_sends; [done|exact Hds]. }
    rewrite u32_id by lia. rewrite <- (app_nil_r (vec _)). by eapply x_files_loop_runs.
  - unfold many_bytes in Hin. rewrite <- !app_assoc in Hin.
    destruct (r_files_loop_runs dirname compr es fdr _ rest (taken fdr dr ((es ≫= entry_bytes) ++ rest) cr) He Ht Hf Hwf
      (taken_lookup _ _ _ _) eq_refl) as (c' & d' & Hr & Hd' & Hin' & _ & Hall & Hrest).
    exists c', d'. split_and!; try done.
    eapply runs_bind; [apply (token_reads_runs fdr dr "NFIL"%cs (Z.of_nat (length es))); [done|lia|done|exact Hin]|].
    by rewrite Nat2Z.id.
Qed.
End roundtrip.

(** ** Witness *)

(** A header and a link in the include server's mirror. *)
Definition ex_entries : list entry :=
  [Entry "/s/i/u/inc/a.h.lzo"%cs "/inc/a.h"%cs (MFile "int a;"%cs "int a;"%cs);
   Entry "/s/i/u/inc/l"%cs "/inc/l"%cs (MLink "a.h"%cs)].

Definition ex_mirror : core :=
  Core {[7 := Fd [] [] None]}
    {["/s/i/u/inc/a.h.lzo"%cs := NFile "int a;"%cs; "/s/i/u/inc/l"%cs := NLink "a.h"%cs]} [] 0 DCC_PHASE_SEND.
Definition ex_rebuild : core :=
  Core {[3 := Fd (many_bytes ex_entries) [] None]} {["/tmp/d"%cs := NDir]} [] 0 DCC_PHASE_STARTUP.

Lemma ancestor_take p q : ancestor p q → q ∈ (λ n, take n p) <$> seq 0 (length p).
Proof.
  intros [_ [r ->]]. apply list_elem_of_fmap. exists (length q). rewrite take_app_length. split; [done|].
  apply elem_of_seq. rewrite length_app. simpl. lia.
Qed.

Lemma many_files_roundtrip_witness :
  Forall (entry_ok (LZO := stored_lzo) DCC_COMPRESS_NONE) ex_entries ∧
  runs (dcc_x_many_files (Cfg := usual_config) (LZO := stored_lzo) 7 2 (vec (e_fname <$> ex_entries))) (Ok ())
    ex_mirror (put 7 (Fd [] [] None) (many_bytes ex_entries) ex_mirror) ∧
  ∃ c' d', runs (dcc_r_many_files (LZO := stored_lzo) 3 "/tmp/d"%cs DCC_COMPRESS_NONE) (Ok ()) ex_rebuild c' ∧
    c_fds c' !! 3 = Some d' ∧ fd_in d' = [] ∧
    Forall (λ e, c_files c' !! ("/tmp/d"%cs ++ e_orig e) = Some (rebuilt_node "/tmp/d"%cs e)) ex_entries ∧
    ∀ q, q ∉ (λ e, "/tmp/d"%cs ++ e_orig e) <$> ex_entries →
      c_files c' !! q = c_files ex_rebuild !! q ∨ (c_files ex_rebuild !! q = None ∧ c_files c' !! q = Some NDir).
Proof.
  assert (Forall (entry_ok (LZO := stored_lzo) DCC_COMPRESS_NONE) ex_entries) as He.
  { repeat constructor; try (vm_compute; done). all: by apply (bool_decide_unpack _); vm_compute. }
  split; [exact He|].
  apply (many_files_roundtrip (LAWS := stored_lzo_laws) 7 3 (Fd [] [] None)
    (Fd (many_bytes ex_entries) [] None) ex_entries "/tmp/d"%cs [] DCC_COMPRESS_NONE ex_mirror ex_rebuild He);
    try done.
  - by repeat constructor.
  - unfold cleanups_wf. simpl. lia.
  - split; [by apply (bool_decide_unpack _); vm_compute|]. intros p q Hp Hq%ancestor_take.
    assert (Forall (λ p, Forall (λ q, q ∉ (λ e, "/tmp/d"%cs ++ e_orig e) <$> ex_entries)
      ((λ n, take n p) <$> seq 0 (length p))) ((λ e, "/tmp/d"%cs ++ e_orig e) <$> ex_entries)) as H
      by by apply (bool_decide_unpack _); vm_compute.
    rewrite Forall_forall in H. specialize (H p Hp). rewrite Forall_forall in H. by apply H.
  - assert (Forall (λ p, Forall (λ q, c_files ex_rebuild !! q = None ∨ c_files ex_rebuild !! q = Some NDir)
      ((λ n, take n p) <$> seq 0 (length p))) ((λ e, "/tmp/d"%cs ++ e_orig e) <$> ex_entries)) as H
      by by apply (bool_decide_unpack _); vm_compute.
    rewrite Forall_fmap in H. assert (Forall (λ e, c_files ex_rebuild !! ("/tmp/d"%cs ++ e_orig e) = None) ex_entries)
      as H' by by repeat constructor.
    eapply Forall_impl; [apply Forall_and; split; [exact H|exact H']|]. intros e [He' Hn]. split; [exact Hn|].
    intros q Hq%ancestor_take. by apply (proj1 (Forall_forall _ _) He' q).
Defined.
