(* ===== verification/FixDebug.v ===== *)
(** * fix_debug_info.c: the server's directory in debug information

    The object file is read into a block of memory, edited there, and written
    back.  Computations on the block have it as their state; an access outside
    it is [Undef]. *)

From S2P Require Import Prelude CLib Util World Io Tempfile Bulk Results Access.

(** ** Memory *)

Section memory.
Context {Cfg : Config}.

(** An unsigned field of [n] bytes, in the byte order of the machine. *)
Definition field_at (n : nat) (off : Z) (mem : cstr) : Z :=
  let bytes := code <$> take n (drop (Z.to_nat off) mem) in
  load_le (if little_endian then bytes else reverse bytes).

Definition rd (n : nat) (off : Z) : M cstr Z := λ mem,
  (if decide (0 ≤ off ∧ off + Z.of_nat n ≤ Z.of_nat (length mem))%Z then Ok (field_at n off mem) else Undef, mem).

(** [strcmp(base + off, s) == 0] *)
Fixpoint strcmp_at (off : Z) (s : cstr) : M cstr bool :=
  let! c := rd 1 off in
  match s with
  | [] => ret (c =? 0)%Z
  | x :: s => if (c =? code x)%Z then strcmp_at (off + 1) s else ret false
  end.

(** [memcmp(base + off, s, strlen(s)) == 0] *)
Definition memcmp_at (off : Z) (s : cstr) : M cstr bool := λ mem,
  (if decide (0 ≤ off ∧ off + Z.of_nat (length s) ≤ Z.of_nat (length mem))%Z
   then Ok (bool_decide (take (length s) (drop (Z.to_nat off) mem) = s)) else Undef, mem).

(** [memcpy(base + off, s, strlen(s))] *)
Definition patch (off : nat) (s mem : cstr) : cstr := take off mem ++ s ++ drop (off + length s) mem.

Definition memcpy_at (off : Z) (s : cstr) : M cstr unit := λ mem,
  if decide (0 ≤ off ∧ off + Z.of_nat (length s) ≤ Z.of_nat (length mem))%Z
  then (Ok (), patch (Z.to_nat off) s mem) else (Undef, mem).

(** ** ELF *)

(** Where the fields of the two kinds of headers are, and their widths. *)
Record layout := Layout {
  elf_class : Z;
  w_word : nat;            (** width of offsets and sizes *)
  sizeof_Ehdr : Z;
  at_e_shoff : Z;
  at_e_shnum : Z;
  at_e_shstrndx : Z;
  sizeof_Shdr : Z;
  at_sh_offset : Z;
  at_sh_size : Z;
  at_sh_link : Z
}.

Definition Elf32 : layout := Layout 1 4 52 32 48 50 40 16 20 24.
Definition Elf64 : layout := Layout 2 8 64 40 60 62 64 24 32 40.

Definition SHN_XINDEX : Z := 65535.

(** The loop over the section headers; the [i]th must lie in the block, so
    there are at most as many rounds as bytes. *)
Fixpoint section_loop (fuel : nat) (lay : layout) (sections string_section i num_sections : Z) (name : cstr) :
    M cstr (option Z) :=
  match fuel with
  | 0 => ub
  | S fuel =>
      if (num_sections <=? i)%Z then ret None
      else
        let hdr := (sections + i * sizeof_Shdr lay)%Z in
        let! strtab := rd (w_word lay) (string_section + at_sh_offset lay) in
        let! sh_name := rd 4 hdr in
        let! same := strcmp_at (strtab + sh_name) name in
        if same then ret (Some hdr)
        else section_loop fuel lay sections string_section (i + 1) num_sections name
  end.

(** One of the two copies of the search.  The first two fields are read before
    the size of the file is looked at. *)
Definition find_in (lay : layout) (name : cstr) : M cstr (option (Z * Z)) :=
  let! elf_size := gets (λ mem, Z.of_nat (length mem)) in
  let! e_shoff := rd (w_word lay) (at_e_shoff lay) in
  let! e_shstrndx := rd 2 (at_e_shstrndx lay) in
  if (elf_size <? sizeof_Ehdr lay)%Z then ret None
  else if (e_shoff <=? 0)%Z || (elf_size - sizeof_Shdr lay <? e_shoff)%Z then ret None
  else if (e_shstrndx =? 0)%Z then ret None
  else
    let! strndx := (if (e_shstrndx =? SHN_XINDEX)%Z then rd 4 (e_shoff + at_sh_link lay) else ret e_shstrndx) in
    let! e_shnum := rd 2 (at_e_shnum lay) in
    let! num_sections := (if (e_shnum =? 0)%Z
                          then let! n := rd (w_word lay) (e_shoff + at_sh_size lay) in ret (u32 n)
                          else ret e_shnum) in
    let! desired := section_loop (S (Z.to_nat elf_size)) lay e_shoff
                      (e_shoff + strndx * sizeof_Shdr lay) 0 num_sections name in
    match desired with
    | None => ret None
    | Some hdr =>
        let! sh_size := rd (w_word lay) (hdr + at_sh_size lay) in
        if (0 <? sh_size)%Z then
          let! sh_offset := rd (w_word lay) (hdr + at_sh_offset lay) in
          ret (Some (sh_offset, s32 sh_size))
        else ret None
    end.

Definition ELFMAG : cstr := ["127"; "E"; "L"; "F"]%char.

(** The start and the size of the section. *)
Definition FindElfSection (name : cstr) : M cstr (option (Z * Z)) :=
  let! mem := gets id in
  if decide (length mem < 4) then ret None
  else if negb (bool_decide (take 4 mem = ELFMAG)) then ret None
  else
    let! ei_data := rd 1 5 in
    if negb (ei_data =? (if little_endian then 1 else 2))%Z then ret None
    else
      let! ei_class := rd 1 4 in
      if (ei_class =? elf_class Elf32)%Z then find_in Elf32 name
      else if (ei_class =? elf_class Elf64)%Z then find_in Elf64 name
      else ret None.

(** ** Replacing *)

(** [n] positions from [p] on. *)
Fixpoint replace_loop (n : nat) (p : Z) (search replace : cstr) (count : Z) : M cstr Z :=
  match n with
  | 0 => ret count
  | S n =>
      let! same := memcmp_at p search in
      if same then do! memcpy_at p replace; replace_loop n (p + 1) search replace (count + 1)
      else replace_loop n (p + 1) search replace count
  end.

Definition replace_string (base size : Z) (search replace : cstr) : M cstr Z :=
  let search_len := Z.of_nat (length search) in
  if negb (length replace =? length search) then ub
  else if (size <? search_len + 1)%Z then ret 0%Z
  else replace_loop (Z.to_nat (size - search_len - 1)) base search replace 0.

Definition update_section (name search replace : cstr) : M cstr unit :=
  let! r := FindElfSection name in
  match r with
  | Some (desired_section, desired_section_size) =>
      if (0 <? desired_section_size)%Z then
        let! _ := replace_string desired_section desired_section_size search replace in ret ()
      else ret ()
  | None => ret ()
  end.

(** ** The file *)

(** [open(path, O_RDWR)] *)
Definition sys_open_rdwr (p : cstr) : M world (nat + errno) :=
  fs_call (let! f := lookup_file p in
           match f with
           | None => ret (inr ENOENT)
           | Some (NFile data) => let! fd := add_fd (Fd data [] (Some p)) in ret (inl fd)
           | Some _ => ret (inr EOTHER)
           end).

(** [lseek(fd, 0, SEEK_SET)] *)
Definition sys_rewind (fd : nat) : M world (unit + errno) := fs_call (ret (inl ())).

(** [write] at the start of the file. *)
Definition sys_write_start (fd : nat) (buf : cstr) : M world (nat + errno) := λ w,
  match c_fds (w_core w) !! fd with
  | None => (Ok (inr EOTHER), w)
  | Some d =>
      let '(x, w) := next_xfer (length buf) w in
      match x with
      | XErr e => (Ok (inr e), w)
      | XN n =>
          let k := Nat.min n (length buf) in
          (Ok (inl k), set_core (set_files (match fd_file d with
                                            | Some p => alter (λ f, match f with
                                                                    | NFile old => NFile (take k buf ++ drop k old)
                                                                    | _ => f
                                                                    end) p (c_files (w_core w))
                                            | None => c_files (w_core w)
                                            end) (w_core w)) w)
      end
  end.

(** With HAVE_SYS_MMAP_H, which is never defined, the file would be mapped. *)
Definition mmap_file (path : cstr) : M world (option (nat * cstr)) :=
  let! fd := sys_open_rdwr path in
  match fd with
  | inr _ => ret None
  | inl fd =>
      let! st_size := sys_fstat fd in
      match st_size with
      | inr _ | inl 0 => let! _ := sys_close fd in ret None
      | inl st_size =>
          let! ok := malloc in
          if negb ok then let! _ := sys_close fd in ret None
          else
            let! base := sys_read fd st_size in
            match base with
            | inl base =>
                if decide (length base = st_size) then ret (Some (fd, base))
                else let! _ := sys_close fd in ret None
            | inr _ => let! _ := sys_close fd in ret None
            end
      end
  end.

(** [true] when it went wrong. *)
Definition munmap_file (base : cstr) (fd : nat) : M world bool :=
  let! s := sys_rewind fd in
  let! status := (match s with
                  | inr _ => ret true
                  | inl _ =>
                      let! k := sys_write_start fd base in
                      ret (match k with
                           | inl k => negb (k =? length base)
                           | inr _ => true
                           end)
                  end) in
  let! c := sys_close fd in
  ret (match c with inl _ => status | inr _ => true end).

(** A file that cannot be read is left alone, and that is no error. *)
Definition update_debug_info (path search replace : cstr) : M world unit :=
  let! m := mmap_file path in
  match m with
  | None => ret ()
  | Some (fd, base) =>
      let '(o, base) := (do! update_section ".debug_info"%cs search replace;
                         update_section ".debug_str"%cs search replace) base in
      do! throw o;
      let! status := munmap_file base fd in
      if status then fail 1 else ret ()
  end.

Definition dcc_fix_debug_info (path client_path server_path : cstr) : M world unit :=
  if negb HAVE_ELF_H then ret ()
  else if decide (length server_path < length client_path) then ub
  else
    do! malloc_or 1;
    update_debug_info path server_path
      (client_path ++ replicate (length server_path - length client_path) "/"%char).

(** ** Replacing a name *)

(** [s] is in the block at [p]. *)
Definition occurs (s : cstr) (p : nat) (mem : cstr) : Prop := take (length s) (drop p mem) = s.

#[export] Instance occurs_dec s p mem : Decision (occurs s p mem).
Proof. unfold occurs. apply _. Defined.

(** Nothing has changed but between [lo] and [hi]. *)
Definition same_outside (lo hi : nat) (mem mem' : cstr) : Prop :=
  length mem' = length mem ∧ ∀ i, i < lo ∨ hi ≤ i → mem' !! i = mem !! i.

Lemma same_outside_refl lo hi mem : same_outside lo hi mem mem.
Proof. done. Qed.

Lemma same_outside_trans lo hi m1 m2 m3 :
  same_outside lo hi m1 m2 → same_outside lo hi m2 m3 → same_outside lo hi m1 m3.
Proof. intros [H1 H2] [H3 H4]. split; [congruence|]. intros i Hi. by rewrite H4, H2. Qed.

Lemma same_outside_mono lo hi lo' hi' m m' :
  lo' ≤ lo → hi ≤ hi' → same_outside lo hi m m' → same_outside lo' hi' m m'.
Proof. intros Hl Hh [H1 H2]. split; [done|]. intros i Hi. apply H2. lia. Qed.

Lemma same_outside_app (pre s t post : cstr) :
  length t = length s → same_outside (length pre) (length pre + length s) (pre ++ s ++ post) (pre ++ t ++ post).
Proof.
  intros Hl. split; [rewrite !length_app; lia|]. intros i [Hi|Hi]; [by rewrite !lookup_app_l|].
  rewrite !(lookup_app_r pre), !lookup_app_r by lia. f_equal. lia.
Qed.

Lemma occurs_lookup s p mem i : occurs s p mem → i < length s → mem !! (p + i) = s !! i.
Proof. intros Ho Hi. trans (take (length s) (drop p mem) !! i); [by rewrite lookup_take_lt, lookup_drop|by rewrite Ho]. Qed.

Lemma patch_same off s mem : off + length s ≤ length mem → same_outside off (off + length s) mem (patch off s mem).
Proof.
  intros Hl. unfold patch. split; [rewrite !length_app, length_take, length_drop; lia|].
  intros i [Hi|Hi].
  - rewrite lookup_app_l by (rewrite length_take; lia). by apply lookup_take_lt.
  - rewrite lookup_app_r by (rewrite length_take; lia). rewrite lookup_app_r by (rewrite length_take; lia).
    rewrite lookup_drop, length_take. f_equal. lia.
Qed.

Lemma patch_lookup off s mem i :
  off + length s ≤ length mem → i < length s → patch off s mem !! (off + i) = s !! i.
Proof.
  intros Hl Hi. unfold patch. rewrite lookup_app_r by (rewrite length_take; lia).
  rewrite length_take, lookup_app_l by lia. f_equal. lia.
Qed.

(** Text whose characters are not the last of [search] cannot complete an
    occurrence of it. *)
Lemma patch_no_occurrence search replace c p q mem :
  last search = Some c → c ∉ replace → length replace = length search → p + length replace ≤ length mem →
  q ≤ p → ¬ occurs search q mem ∨ q = p → ¬ occurs search q (patch p replace mem).
Proof.
  intros Hc Hin Hl Hp Hq Hn Ho. rewrite last_lookup in Hc.
  assert (0 < length search) as Hpos by (destruct search; simpl in *; [done|lia]).
  destruct (decide (p ≤ q + pred (length search))) as [Hle|Hgt].
  - pose proof (occurs_lookup _ _ _ (pred (length search)) Ho ltac:(lia)) as E. rewrite Hc in E.
    replace (q + pred (length search)) with (p + (q + pred (length search) - p)) in E by lia.
    rewrite patch_lookup in E by lia. apply Hin. by eapply list_elem_of_lookup_2.
  - destruct Hn as [Hn| ->]; [|lia]. apply Hn. unfold occurs in *.
    destruct (patch_same p replace mem Hp) as [El Es].
    trans (take (length search) (drop q (patch p replace mem))); [|done]. apply list_eq. intros i. destruct (decide (i < length search)).
    + rewrite !lookup_take_lt, !lookup_drop by done. symmetry. apply Es. left. lia.
    + rewrite !lookup_take_ge by lia. done.
Qed.

(** [swept x y s t]: [t] is [s] with [y], of the same length, in the place of every
    [x], found from left to right.  The search goes on behind the first
    character of what was put in, so that an [x] which begins there and
    ends in the text behind it is replaced too. *)
Inductive swept (x y : cstr) : cstr → cstr → Prop :=
| swept_none s : absent x s → swept x y s s
| swept_first a b t : leftmost x a b → swept x y (tail y ++ b) t →
    swept x y (a ++ x ++ b) (a ++ take 1 y ++ t).

Lemma swept_cons x y c s t : ¬ x `prefix_of` c :: s → swept x y s t → swept x y (c :: s) (c :: t).
Proof.
  intros Hn H. revert Hn. destruct H as [s' Ha|a b t' Hl Ht]; intros Hn.
  - apply swept_none. intros [|c' a] b E; [apply Hn; by exists b|]. injection E as -> E. by apply (Ha a b).
  - apply (swept_first x y (c :: a) b t'); [|done]. intros [|c' a'] b' E; [destruct Hn; by exists b'|].
    injection E as _ E. simpl. apply le_n_S. exact (Hl _ _ E).
Qed.

Lemma memcmp_at_run p s mem :
  p + length s ≤ length mem →
  memcmp_at (Z.of_nat p) s mem = (Ok (bool_decide (occurs s p mem)), mem).
Proof. intros Hp. unfold memcmp_at. rewrite decide_True by lia. by rewrite Nat2Z.id. Qed.

Lemma memcpy_at_run p s mem :
  p + length s ≤ length mem → memcpy_at (Z.of_nat p) s mem = (Ok (), patch p s mem).
Proof. intros Hp. unfold memcpy_at. rewrite decide_True by lia. by rewrite Nat2Z.id. Qed.

Lemma replace_loop_spec search replace c n : ∀ lo p mem count,
  last search = Some c → c ∉ replace → length replace = length search →
  lo ≤ p → p + n + length search ≤ length mem + 1 →
  (∀ q, lo ≤ q < p → ¬ occurs search q mem) →
  ∃ k mem', replace_loop n (Z.of_nat p) search replace count mem = (Ok k, mem') ∧
    same_outside p (p + n + length search) mem mem' ∧ ∀ q, lo ≤ q < p + n → ¬ occurs search q mem'.
Proof.
  intros lo p mem count Hc Hin Hl. revert p mem count. induction n as [|n IH]; intros p mem count Hp Hb Hno.
  - exists count, mem. split_and!; [done|done|]. intros q Hq. apply Hno. lia.
  - cbn [replace_loop]. rewrite (bind_Ok _ _ _ _ _ (memcmp_at_run p search mem ltac:(lia))).
    replace (Z.of_nat p + 1)%Z with (Z.of_nat (S p)) by lia.
    case_bool_decide as Ho.
    + rewrite (bind_Ok _ _ _ _ _ (memcpy_at_run p replace mem ltac:(lia))).
      destruct (patch_same p replace mem ltac:(lia)) as [El Es].
      destruct (IH (S p) (patch p replace mem) (count + 1)%Z) as (k & mem' & E & Hs & Hno'); [lia|lia|..].
      { intros q Hq. apply (patch_no_occurrence search replace c p q mem); try done; [lia|lia|].
        destruct (decide (q = p)); [by right|left; apply Hno; lia]. }
      exists k, mem'. split_and!; [done| |intros q Hq; apply Hno'; lia].
      eapply same_outside_trans; [|eapply same_outside_mono; [| |exact Hs]; lia].
      eapply same_outside_mono; [| |by split]; lia.
    + destruct (IH (S p) mem count) as (k & mem' & E & Hs & Hno'); [lia|lia| |].
      { intros q Hq. destruct (decide (q = p)) as [->|]; [done|apply Hno; lia]. }
      exists k, mem'. split_and!; [done| |intros q Hq; apply Hno'; lia].
      eapply same_outside_mono; [| |exact Hs]; lia.
Qed.

(** The loop in [pre ++ s ++ post], over the places of [s] where [search] fits. *)
Lemma replace_loop_swept search replace n : ∀ pre s post count,
  search ≠ [] → length replace = length search → S (length s) = n + length search →
  ∃ k t, replace_loop n (Z.of_nat (length pre)) search replace count (pre ++ s ++ post) = (Ok k, pre ++ t ++ post) ∧
    swept search replace s t ∧ length t = length s.
Proof.
  intros pre s post count Hne Hl. revert pre s count. induction n as [|n IH]; intros pre s count Hs.
  - exists count, s. split_and!; [done| |done]. apply swept_none. intros a b ->. rewrite !length_app in Hs. lia.
  - assert (0 < length search) by (destruct search; [done|simpl; lia]).
    destruct s as [|c s]; [simpl in Hs; lia|]. cbn [replace_loop]. simpl in Hs.
    rewrite (bind_Ok _ _ _ _ _ (memcmp_at_run (length pre) search (pre ++ (c :: s) ++ post) ltac:(rewrite !length_app; simpl; lia))).
    assert (occurs search (length pre) (pre ++ (c :: s) ++ post) ↔ search `prefix_of` c :: s) as Ho.
    { unfold occurs. rewrite drop_app_length, take_app_le by (simpl; lia). split; [|intros [b ->]; by rewrite take_app_length].
      intros E. exists (drop (length search) (c :: s)). by rewrite <- E, length_take, Nat.min_l, take_drop by (simpl; lia). }
    rewrite (bool_decide_ext _ _ Ho). replace (Z.of_nat (length pre) + 1)%Z with (Z.of_nat (S (length pre))) by lia.
    case_bool_decide as Hp.
    + destruct Hp as [b Eb]. rewrite Eb.
      rewrite (bind_Ok _ _ _ _ _ (memcpy_at_run (length pre) replace (pre ++ (search ++ b) ++ post) ltac:(rewrite !length_app; lia))).
      assert (patch (length pre) replace (pre ++ (search ++ b) ++ post) = pre ++ replace ++ b ++ post) as ->.
      { unfold patch. rewrite take_app_length, <- drop_drop, drop_app_length, <- (app_assoc search), Hl.
        by rewrite drop_app_length. }
      apply (f_equal length) in Eb. rewrite length_app in Eb. simpl in Eb.
      destruct replace as [|r0 r]; [simpl in Hl; lia|]. simpl in Hl.
      destruct (IH (pre ++ [r0]) (r ++ b) (count + 1)%Z) as (k & t & E & Ht & Et); [rewrite length_app; lia|].
      rewrite length_app, Nat.add_1_r in E. exists k, (r0 :: t). split_and!.
      * rewrite <- !app_assoc in E. exact E.
      * apply (swept_first search (r0 :: r) [] b t); [intros ???; simpl; lia|done].
      * simpl. rewrite Et, !length_app. lia.
    + destruct (IH (pre ++ [c]) s count) as (k & t & E & Ht & Et); [lia|].
      rewrite length_app, Nat.add_1_r in E. rewrite <- !app_assoc in E. exists k, (c :: t). split_and!; [done| |simpl; lia].
      by apply swept_cons.
Qed.

(** ** Finding a section *)

Lemma rd_run n off mem :
  (0 ≤ off)%Z → (off + Z.of_nat n ≤ Z.of_nat (length mem))%Z → rd n off mem = (Ok (field_at n off mem), mem).
Proof. intros H1 H2. unfold rd. by rewrite decide_True. Qed.

(** A string with its terminator. *)
Definition string_at (off : Z) (s mem : cstr) : Prop :=
  (0 ≤ off)%Z ∧ nul_free s ∧ take (S (length s)) (drop (Z.to_nat off) mem) = s ++ [NUL].

Lemma field_at_byte off c mem : mem !! Z.to_nat off = Some c → field_at 1 off mem = code c.
Proof.
  intros Hc. unfold field_at. rewrite (drop_S _ _ _ Hc). simpl.
  destruct little_endian; simpl; by rewrite Z.lor_0_r.
Qed.

Lemma code_inj a b : code a = code b → a = b.
Proof. unfold code. intros H%N2Z.inj. by rewrite <- (ascii_N_embedding a), H, ascii_N_embedding. Qed.

Lemma string_at_cons off c s mem :
  string_at off (c :: s) mem → mem !! Z.to_nat off = Some c ∧ c ≠ NUL ∧ string_at (off + 1) s mem.
Proof.
  intros (H0 & Hn & E). simpl in E. destruct (drop (Z.to_nat off) mem) as [|x m] eqn:Ed; [done|].
  apply not_elem_of_cons in Hn as [Hc Hn]. injection E as -> E.
  assert (mem !! Z.to_nat off = Some c) as Hl by (rewrite <- (Nat.add_0_r (Z.to_nat off)), <- lookup_drop; by rewrite Ed).
  split; [done|]. split; [congruence|]. split; [lia|]. split; [done|]. rewrite Z2Nat.inj_add by lia. change (Z.to_nat 1) with 1.
  rewrite <- drop_drop, Ed. done.
Qed.

Lemma string_at_nil off mem : string_at off [] mem → mem !! Z.to_nat off = Some NUL.
Proof.
  intros (H0 & _ & E). simpl in E. destruct (drop (Z.to_nat off) mem) as [|x m] eqn:Ed; [done|].
  injection E as ->. by rewrite <- (Nat.add_0_r (Z.to_nat off)), <- lookup_drop, Ed.
Qed.

Lemma strcmp_at_spec s : ∀ off name mem, string_at off name mem → nul_free s →
  strcmp_at off s mem = (Ok (bool_decide (name = s)), mem).
Proof.
  assert (∀ off c mem, (0 ≤ off)%Z → mem !! Z.to_nat off = Some c → rd 1 off mem = (Ok (code c), mem)) as Hrd.
  { intros off c mem H0 Hc. rewrite rd_run, (field_at_byte _ c) by (done || apply lookup_lt_Some in Hc; lia). done. }
  assert (∀ a b, (code a =? code b)%Z = bool_decide (a = b)) as Hcode.
  { intros a b. case_bool_decide as E; [subst; apply Z.eqb_refl|]. apply Z.eqb_neq. by intros ?%code_inj. }
  induction s as [|x s IH]; intros off name mem Hn Hs; cbn [strcmp_at]; destruct name as [|c name].
  - rewrite (bind_Ok _ _ _ _ _ (Hrd off NUL mem (proj1 Hn) (string_at_nil _ _ Hn))). done.
  - destruct (string_at_cons _ _ _ _ Hn) as (Hc & Hne & Hn').
    rewrite (bind_Ok _ _ _ _ _ (Hrd off c mem (proj1 Hn) Hc)). change 0%Z with (code NUL). rewrite Hcode.
    by rewrite !bool_decide_false by congruence.
  - rewrite (bind_Ok _ _ _ _ _ (Hrd off NUL mem (proj1 Hn) (string_at_nil _ _ Hn))). rewrite Hcode.
    apply not_elem_of_cons in Hs as [Hx _]. by rewrite !bool_decide_false by congruence.
  - destruct (string_at_cons _ _ _ _ Hn) as (Hc & Hne & Hn').
    rewrite (bind_Ok _ _ _ _ _ (Hrd off c mem (proj1 Hn) Hc)). rewrite Hcode.
    apply not_elem_of_cons in Hs as [Hx Hs]. case_bool_decide as E; [|by rewrite bool_decide_false by congruence].
    subst x. rewrite (IH _ name) by done. by rewrite (bool_decide_ext (name = s) (c :: name = c :: s)) by naive_solver.
Qed.

(** The section headers of a file: names, offsets and sizes. *)
Record section := Sect { s_name : cstr; s_offset : Z; s_size : Z }.

Definition header (lay : layout) (mem : cstr) (i : Z) : Z :=
  (field_at (w_word lay) (at_e_shoff lay) mem + i * sizeof_Shdr lay)%Z.

(** The index of the section with the names, and the number of sections: both
    may be kept in the first section header when they are too large. *)
Definition strndx (lay : layout) (mem : cstr) : Z :=
  let k := field_at 2 (at_e_shstrndx lay) mem in
  if (k =? SHN_XINDEX)%Z then field_at 4 (header lay mem 0 + at_sh_link lay) mem else k.
Definition shnum (lay : layout) (mem : cstr) : Z :=
  let n := field_at 2 (at_e_shnum lay) mem in
  if (n =? 0)%Z then u32 (field_at (w_word lay) (header lay mem 0 + at_sh_size lay) mem) else n.

(** A file of the kind [lay] with the sections [secs]: the headers and the
    names are inside the file. *)
Record elf (lay : layout) (secs : list section) (mem : cstr) : Prop := Elf {
  elf_magic : take 4 mem = ELFMAG;
  elf_data : field_at 1 5 mem = (if little_endian then 1 else 2)%Z;
  elf_kind : field_at 1 4 mem = elf_class lay;
  elf_header : (sizeof_Ehdr lay ≤ Z.of_nat (length mem))%Z;
  elf_shoff : (0 < header lay mem 0)%Z;
  elf_num : shnum lay mem = Z.of_nat (length secs);
  elf_table : (header lay mem (Z.of_nat (length secs)) ≤ Z.of_nat (length mem))%Z;
  elf_str : field_at 2 (at_e_shstrndx lay) mem ≠ 0%Z ∧ (0 ≤ strndx lay mem < Z.of_nat (length secs))%Z;
  elf_secs i s : secs !! i = Some s →
    let h := header lay mem (Z.of_nat i) in
    string_at (field_at (w_word lay) (header lay mem (strndx lay mem) + at_sh_offset lay) mem + field_at 4 h mem)
      (s_name s) mem ∧
    field_at (w_word lay) (h + at_sh_offset lay) mem = s_offset s ∧
    field_at (w_word lay) (h + at_sh_size lay) mem = s_size s
}.

(** The first section of that name, unless it is empty. *)
Definition first_section (name : cstr) (secs : list section) : option (Z * Z) :=
  match list_find (λ s, s_name s = name) secs with
  | Some (_, s) => if (0 <? s_size s)%Z then Some (s_offset s, s32 (s_size s)) else None
  | None => None
  end.

(** What the two kinds of files have in common. *)
Definition kind (lay : layout) : Prop := lay = Elf32 ∨ lay = Elf64.

Lemma kind_fits lay : kind lay →
  (0 < sizeof_Shdr lay ∧ 0 ≤ at_sh_link lay ∧ at_sh_link lay + 4 ≤ sizeof_Shdr lay ∧
   0 ≤ at_sh_offset lay ∧ at_sh_offset lay + Z.of_nat (w_word lay) ≤ sizeof_Shdr lay ∧
   0 ≤ at_sh_size lay ∧ at_sh_size lay + Z.of_nat (w_word lay) ≤ sizeof_Shdr lay ∧
   0 ≤ at_e_shoff lay ∧ at_e_shoff lay + Z.of_nat (w_word lay) ≤ sizeof_Ehdr lay ∧
   0 ≤ at_e_shnum lay ∧ at_e_shnum lay + 2 ≤ sizeof_Ehdr lay ∧
   0 ≤ at_e_shstrndx lay ∧ at_e_shstrndx lay + 2 ≤ sizeof_Ehdr lay ∧ 4 ≤ sizeof_Shdr lay ∧ 6 ≤ sizeof_Ehdr lay)%Z.
Proof. intros [-> | ->]; simpl; lia. Qed.

Section file.
Context (lay : layout) (secs : list section) (mem : cstr).
Context (Hk : kind lay) (Helf : elf lay secs mem).

Lemma header_fits i : (0 ≤ i < Z.of_nat (length secs))%Z →
  (0 < header lay mem i ∧ header lay mem i + sizeof_Shdr lay ≤ Z.of_nat (length mem))%Z.
Proof.
  intros Hi. pose proof (kind_fits lay Hk). pose proof (elf_shoff _ _ _ Helf). pose proof (elf_table _ _ _ Helf).
  unfold header in *. nia.
Qed.

Lemma section_loop_spec name fuel i :
  nul_free name → i ≤ length secs → length secs - i < fuel →
  ∃ r, section_loop fuel lay (header lay mem 0) (header lay mem (strndx lay mem)) (Z.of_nat i)
      (Z.of_nat (length secs)) name mem = (Ok r, mem) ∧
    r = match list_find (λ s, s_name s = name) (drop i secs) with
        | Some (j, _) => Some (header lay mem (Z.of_nat (i + j)))
        | None => None
        end.
Proof.
  intros Hn. pose proof (kind_fits lay Hk) as Hfit. revert i. induction fuel as [|fuel IH]; intros i Hi Hf; [lia|].
  cbn [section_loop]. destruct (Z.leb_spec (Z.of_nat (length secs)) (Z.of_nat i)).
  { rewrite drop_ge by lia. by eexists. }
  destruct (lookup_lt_is_Some_2 secs i) as [s Hs]; [lia|].
  rewrite (drop_S _ _ _ Hs). cbn [list_find].
  destruct (elf_secs _ _ _ Helf i s Hs) as (Hname & _). destruct (elf_str _ _ _ Helf) as [_ Hstr].
  replace (header lay mem 0 + Z.of_nat i * sizeof_Shdr lay)%Z with (header lay mem (Z.of_nat i)) by (unfold header; lia).
  pose proof (header_fits (Z.of_nat i) ltac:(lia)) as Hh. pose proof (header_fits _ Hstr) as Hh'.
  rewrite (bind_Ok _ _ _ _ _ (rd_run (w_word lay) (header lay mem (strndx lay mem) + at_sh_offset lay) mem ltac:(lia) ltac:(lia))).
  rewrite (bind_Ok _ _ _ _ _ (rd_run 4 (header lay mem (Z.of_nat i)) mem ltac:(lia) ltac:(lia))).
  rewrite (bind_Ok _ _ _ _ _ (strcmp_at_spec name _ _ _ Hname Hn)).
  case_bool_decide as E; [rewrite decide_True by done|rewrite decide_False by done].
  - eexists. split; [done|]. by rewrite Nat.add_0_r.
  - replace (Z.of_nat i + 1)%Z with (Z.of_nat (S i)) by lia.
    destruct (IH (S i)) as (r & Er & Hr); [lia|lia|]. exists r. split; [done|]. rewrite Hr.
    destruct (list_find _ (drop (S i) secs)) as [[j s']|]; [|done]. simpl. do 3 f_equal. lia.
Qed.

Lemma find_in_spec name : nul_free name → find_in lay name mem = (Ok (first_section name secs), mem).
Proof.
  intros Hn. pose proof (kind_fits lay Hk) as Hfit. pose proof (elf_header _ _ _ Helf) as Hsz.
  pose proof (elf_shoff _ _ _ Helf) as Hoff. destruct (elf_str _ _ _ Helf) as [Hk0 Hstr].
  pose proof (header_fits 0 ltac:(lia)) as Hh0. assert (header lay mem 0 = field_at (w_word lay) (at_e_shoff lay) mem) as E0
    by (unfold header; lia).
  unfold find_in. rewrite (bind_Ok _ _ _ _ _ (eq_refl : gets _ mem = (Ok _, mem))).
  rewrite (bind_Ok _ _ _ _ _ (rd_run (w_word lay) (at_e_shoff lay) mem ltac:(lia) ltac:(lia))), <- E0.
  rewrite (bind_Ok _ _ _ _ _ (rd_run 2 (at_e_shstrndx lay) mem ltac:(lia) ltac:(lia))).
  rewrite (proj2 (Z.ltb_ge _ _)) by lia. rewrite (proj2 (Z.leb_gt _ _)), (proj2 (Z.ltb_ge _ _)) by lia.
  rewrite (proj2 (Z.eqb_neq _ _)) by done. cbn [orb].
  rewrite (bind_Ok _ _ _ (strndx lay mem) mem).
  2: { unfold strndx. cbv zeta. case_match; [|done]. apply rd_run; lia. }
  rewrite (bind_Ok _ _ _ _ _ (rd_run 2 (at_e_shnum lay) mem ltac:(lia) ltac:(lia))).
  rewrite (bind_Ok _ _ _ (Z.of_nat (length secs)) mem).
  2: { rewrite <- (elf_num _ _ _ Helf). unfold shnum. cbv zeta. case_match; [|done].
       by rewrite (bind_Ok _ _ _ _ _ (rd_run (w_word lay) (header lay mem 0 + at_sh_size lay) mem ltac:(lia) ltac:(lia))). }
  replace (header lay mem 0 + strndx lay mem * sizeof_Shdr lay)%Z with (header lay mem (strndx lay mem))
    by (unfold header; lia).
  assert (length secs ≤ length mem) as Hlen.
  { pose proof (header_fits (Z.of_nat (length secs) - 1) ltac:(lia)). unfold header in *. nia. }
  destruct (section_loop_spec name (S (length mem)) 0 Hn ltac:(lia) ltac:(lia)) as (r & Er & Hr).
  rewrite Nat2Z.id. rewrite (bind_Ok _ _ _ _ _ Er), Hr. rewrite drop_0. unfold first_section.
  destruct (list_find _ secs) as [[j s]|] eqn:Ef; [|done].
  apply list_find_Some in Ef as (Hj & Hname & _).
  destruct (elf_secs _ _ _ Helf j s Hj) as (_ & Eoff & Esz).
  pose proof (header_fits (Z.of_nat j)) as Hhj. pose proof (lookup_lt_Some _ _ _ Hj). simpl plus.
  rewrite (bind_Ok _ _ _ _ _ (rd_run (w_word lay) (header lay mem (Z.of_nat j) + at_sh_size lay) mem ltac:(lia) ltac:(lia))).
  rewrite Esz. cbv beta. destruct (0 <? s_size s)%Z; [|done].
  rewrite (bind_Ok _ _ _ _ _ (rd_run (w_word lay) (header lay mem (Z.of_nat j) + at_sh_offset lay) mem ltac:(lia) ltac:(lia))).
  by rewrite Eoff.
Qed.

Lemma FindElfSection_spec name : nul_free name → FindElfSection name mem = (Ok (first_section name secs), mem).
Proof.
  intros Hn. pose proof (kind_fits lay Hk) as Hfit. pose proof (elf_header _ _ _ Helf) as Hsz.
  unfold FindElfSection. rewrite (bind_Ok _ _ _ _ _ (eq_refl : gets id mem = (Ok _, mem))). cbv beta. unfold id.
  rewrite decide_False by lia. rewrite bool_decide_true by apply Helf. cbn [negb].
  rewrite (bind_Ok _ _ _ _ _ (rd_run 1 5 mem ltac:(lia) ltac:(lia))).
  rewrite (elf_data _ _ _ Helf), Z.eqb_refl. cbn [negb].
  rewrite (bind_Ok _ _ _ _ _ (rd_run 1 4 mem ltac:(lia) ltac:(lia))), (elf_kind _ _ _ Helf).
  destruct Hk as [E|E]; rewrite E; simpl; rewrite <- E; by apply find_in_spec.
Qed.
End file.

(** ** The whole edit *)

(** The bytes of a section, [None] when there is none to edit. *)
Definition range (name : cstr) (secs : list section) : option (nat * nat) :=
  match first_section name secs with
  | Some (off, sz) => Some (Z.to_nat off, Z.to_nat (off + sz))
  | None => None
  end.

(** The bytes from [lo] to [hi]. *)
Definition slice (lo hi : nat) (mem : cstr) : cstr := take (hi - lo) (drop lo mem).

Lemma slice_split lo hi mem : lo ≤ hi ≤ length mem → mem = take lo mem ++ slice lo hi mem ++ drop hi mem.
Proof.
  intros H. unfold slice. replace (drop hi mem) with (drop (hi - lo) (drop lo mem)) by (rewrite drop_drop; f_equal; lia).
  by rewrite !take_drop.
Qed.

Lemma slice_app (pre s post : cstr) lo hi : length pre = lo → lo + length s = hi → slice lo hi (pre ++ s ++ post) = s.
Proof.
  intros <- <-. unfold slice. rewrite drop_app_length. replace (length pre + length s - length pre) with (length s) by lia.
  by rewrite take_app_length.
Qed.

Lemma slice_same lo hi lo' hi' mem mem' :
  same_outside lo hi mem mem' → hi' ≤ lo ∨ hi ≤ lo' → slice lo' hi' mem' = slice lo' hi' mem.
Proof.
  intros [_ Hs] Hd. apply list_eq. intros i. unfold slice. destruct (decide (i < hi' - lo')).
  - rewrite !lookup_take_lt, !lookup_drop by done. apply Hs. lia.
  - by rewrite !lookup_take_ge by lia.
Qed.

Definition sect_fits (len : nat) (s : section) : Prop :=
  (0 ≤ s_offset s ∧ 0 ≤ s_size s ∧ s_offset s + s_size s ≤ Z.of_nat len)%Z.

Lemma first_section_fits name secs len off sz :
  Forall (sect_fits len) secs → (Z.of_nat len < 2 ^ 31)%Z → first_section name secs = Some (off, sz) →
  (0 ≤ off ∧ 0 < sz ∧ off + sz ≤ Z.of_nat len)%Z.
Proof.
  intros Hs Hl. unfold first_section. destruct (list_find _ secs) as [[j s]|] eqn:Ef; [|done].
  apply list_find_Some in Ef as (Hj & _). rewrite Forall_lookup in Hs. destruct (Hs j s Hj) as (H1 & H2 & H3).
  destruct (Z.ltb_spec 0 (s_size s)); [|done]. intros ?; simplify_eq.
  rewrite s32_id by lia. lia.
Qed.

Lemma update_section_spec lay secs mem name search replace c :
  kind lay → elf lay secs mem → nul_free name → Forall (sect_fits (length mem)) secs → (Z.of_nat (length mem) < 2 ^ 31)%Z →
  last search = Some c → c ∉ replace → length replace = length search →
  ∃ mem', update_section name search replace mem = (Ok (), mem') ∧
    match range name secs with
    | Some (lo, hi) => same_outside lo (hi - 2) mem mem' ∧
        swept search replace (slice lo (hi - 2) mem) (slice lo (hi - 2) mem') ∧
        ∀ q, lo ≤ q → q + length search + 1 < hi → ¬ occurs search q mem'
    | None => mem' = mem
    end.
Proof.
  intros Hk He Hn Hs Hlen Hc Hin Hl. unfold update_section, range.
  rewrite (bind_Ok _ _ _ _ _ (FindElfSection_spec lay secs mem Hk He name Hn)).
  destruct (first_section name secs) as [[off sz]|] eqn:Ef; [|by exists mem].
  destruct (first_section_fits _ _ _ _ _ Hs Hlen Ef) as (H1 & H2 & H3). cbv beta iota.
  rewrite (proj2 (Z.ltb_lt _ _)) by done. unfold replace_string. rewrite Hl, Nat.eqb_refl. cbn [negb].
  assert (search ≠ []) as Hne by by intros ->.
  destruct (Z.ltb_spec sz (Z.of_nat (length search) + 1)).
  - exists mem. split_and!; [done|done| |intros q Hq1 Hq2; lia].
    apply swept_none. intros a b E. apply (f_equal length) in E. unfold slice in E.
    assert (0 < length search) by (destruct search; [done|simpl; lia]).
    rewrite !length_app, length_take in E. lia.
  - set (lo := Z.to_nat off). set (hi := Z.to_nat (off + sz)). assert (0 < length search) by (destruct search; [done|simpl; lia]).
    assert (lo + length search + 1 ≤ hi ∧ hi ≤ length mem) as [Hlo Hhi] by lia.
    pose proof (slice_split lo (hi - 2) mem ltac:(lia)) as Emem.
    assert (length (take lo mem) = lo) as Lpre by (rewrite length_take; lia).
    assert (length (slice lo (hi - 2) mem) = hi - 2 - lo) as Lsl by (unfold slice; rewrite length_take, length_drop; lia).
    destruct (replace_loop_swept search replace (Z.to_nat (sz - Z.of_nat (length search) - 1)) (take lo mem)
      (slice lo (hi - 2) mem) (drop (hi - 2) mem) 0%Z) as (k' & t & E' & Ht & Lt); [done|done|lia|].
    rewrite <- Emem, Lpre in E'.
    destruct (replace_loop_spec search replace c (Z.to_nat (sz - Z.of_nat (length search) - 1)) (Z.to_nat off) (Z.to_nat off)
      mem 0%Z) as (k & mem' & E & Hsame & Hno); try done; [lia|intros; lia|].
    fold lo in E. rewrite E' in E. injection E as <- <-. unfold lo in E'. rewrite Z2Nat.id in E' by lia.
    rewrite (bind_Ok _ _ _ _ _ E'). eexists. split_and!; [done|..].
    + rewrite Emem at 1. eapply same_outside_mono; [| |by apply same_outside_app]; fold lo; lia.
    + fold lo. rewrite (slice_app _ t) by lia. done.
    + intros q Hq1 Hq2. apply Hno. lia.
Qed.

Definition debug_sections : list cstr := [".debug_info"%cs; ".debug_str"%cs].

(** The block after the edit: in each debug section, up to its last two bytes, every
    [search] is replaced by [replace]; no other byte has changed; and [search] is
    gone from there. *)
Definition edited (secs : list section) (search replace mem mem' : cstr) : Prop :=
  length mem' = length mem ∧
  (∀ i, (∀ name lo hi, name ∈ debug_sections → range name secs = Some (lo, hi) → i < lo ∨ hi - 2 ≤ i) →
     mem' !! i = mem !! i) ∧
  ∀ name lo hi, name ∈ debug_sections → range name secs = Some (lo, hi) →
    swept search replace (slice lo (hi - 2) mem) (slice lo (hi - 2) mem') ∧
    ∀ q, lo ≤ q → q + length search + 1 < hi → ¬ occurs search q mem'.

(** The headers and names are not inside the first section edited, nor does
    the second overlap it. *)
Definition apart (lay : layout) (secs : list section) (mem : cstr) : Prop :=
  elf lay secs mem ∧
  ∀ lo hi, range ".debug_info"%cs secs = Some (lo, hi) →
    (∀ mem', same_outside lo hi mem mem' → elf lay secs mem') ∧
    ∀ lo' hi', range ".debug_str"%cs secs = Some (lo', hi') → hi ≤ lo' ∨ hi' ≤ lo.

Lemma occurs_same search q lo hi mem mem' :
  same_outside lo hi mem mem' → q + length search ≤ lo ∨ hi ≤ q → occurs search q mem' → occurs search q mem.
Proof.
  intros [El Es] Hq Ho. unfold occurs in *. trans (take (length search) (drop q mem')); [|done].
  apply list_eq. intros i. destruct (decide (i < length search)).
  - rewrite !lookup_take_lt, !lookup_drop by done. symmetry. apply Es. lia.
  - by rewrite !lookup_take_ge by lia.
Qed.

Lemma edit_spec lay secs mem search replace c :
  kind lay → apart lay secs mem → Forall (sect_fits (length mem)) secs → (Z.of_nat (length mem) < 2 ^ 31)%Z →
  last search = Some c → c ∉ replace → length replace = length search →
  ∃ mem', (do! update_section ".debug_info"%cs search replace; update_section ".debug_str"%cs search replace) mem =
      (Ok (), mem') ∧ edited secs search replace mem mem'.
Proof.
  intros Hk [He Ha] Hs Hlen Hc Hin Hl.
  destruct (update_section_spec lay secs mem ".debug_info"%cs search replace c) as (m1 & E1 & H1); try done.
  { by apply (bool_decide_unpack _). }
  assert (elf lay secs m1 ∧ length m1 = length mem) as [He1 Hl1].
  { destruct (range ".debug_info"%cs secs) as [[lo hi]|]; [|by subst].
    destruct H1 as [H1 _]. split; [|apply H1]. apply (proj1 (Ha lo hi eq_refl)). eapply same_outside_mono; [| |exact H1]; lia. }
  destruct (update_section_spec lay secs m1 ".debug_str"%cs search replace c) as (m2 & E2 & H2); rewrite ?Hl1; try done.
  { by apply (bool_decide_unpack _). }
  exists m2. split; [by rewrite (bind_Ok _ _ _ _ _ E1)|].
  unfold edited, debug_sections.
  assert (length m2 = length m1) as Hl2 by (destruct (range ".debug_str"%cs secs) as [[]|]; [apply H2|by subst]).
  split_and!; [congruence|..].
  - intros i Hi. trans (m1 !! i).
    + destruct (range ".debug_str"%cs secs) as [[lo hi]|] eqn:Er; [|by subst].
      apply H2, (Hi ".debug_str"%cs); [set_solver|done].
    + destruct (range ".debug_info"%cs secs) as [[lo hi]|] eqn:Er; [|by subst].
      apply H1, (Hi ".debug_info"%cs); [set_solver|done].
  - intros name lo hi Hname Hr. apply elem_of_cons in Hname as [->|Hname%list_elem_of_singleton].
    + rewrite Hr in H1. destruct H1 as (Hs1 & Hw1 & Hno1).
      destruct (range ".debug_str"%cs secs) as [[lo' hi']|] eqn:Er; [|by subst]. destruct H2 as (Hs2 & _ & _).
      pose proof (proj2 (Ha lo hi Hr) lo' hi' eq_refl). split.
      * by rewrite (slice_same _ _ _ _ _ _ Hs2) by lia.
      * intros q Hq1 Hq2 Ho. apply (Hno1 q Hq1 Hq2). eapply occurs_same; [exact Hs2| |exact Ho]. lia.
    + subst name. rewrite Hr in H2. destruct H2 as (Hs2 & Hw2 & Hno2). split; [|done].
      destruct (range ".debug_info"%cs secs) as [[lo' hi']|] eqn:Er; [|by subst]. destruct H1 as (Hs1 & _ & _).
      pose proof (proj2 (Ha lo' hi' eq_refl) lo hi Hr). by rewrite (slice_same _ _ _ _ _ _ Hs1) in Hw2 by lia.
Qed.

(** The process has the file open. *)
Definition opened (path mem rest : cstr) (w : world) : world :=
  let c := w_core w in
  set_core (set_fds (<[new_fd (c_fds c) := Fd rest [] (Some path)]> (c_fds c)) c) w.

Lemma mmap_file_run path mem w :
  quiet w → mem ≠ [] → c_files (w_core w) !! path = Some (NFile mem) →
  mmap_file path w = (Ok (Some (new_fd (c_fds (w_core w)), mem)), opened path mem [] w).
Proof.
  intros (Hx & Hf & Hm) Hne Hp. unfold mmap_file.
  assert (sys_open_rdwr path w = (Ok (inl (new_fd (c_fds (w_core w)))), opened path mem mem w)) as E1.
  { unfold sys_open_rdwr, fs_call, bind, next_fs, lookup_file, gets, add_fd. rewrite Hf, Hp. done. }
  rewrite (bind_Ok _ _ _ _ _ E1).
  assert (sys_fstat (new_fd (c_fds (w_core w))) (opened path mem mem w) = (Ok (inl (length mem)), opened path mem mem w)) as E2.
  { unfold sys_fstat, fs_call, bind, next_fs, gets, opened. cbn. rewrite Hf. cbn. by rewrite lookup_insert_eq. }
  rewrite (bind_Ok _ _ _ _ _ E2). destruct (length mem) as [|n] eqn:El; [by destruct mem|].
  assert (malloc (opened path mem mem w) = (Ok true, opened path mem mem w)) as E3 by (unfold malloc; cbn; by rewrite Hm).
  rewrite (bind_Ok _ _ _ _ _ E3). cbn [negb].
  assert (sys_read (new_fd (c_fds (w_core w))) (S n) (opened path mem mem w) = (Ok (inl mem), opened path mem [] w)) as E4.
  { unfold sys_read, next_xfer, opened. cbn. rewrite lookup_insert_eq, Hx. cbn.
    rewrite Nat.min_id, <- El, take_ge, drop_ge by lia. by rewrite insert_insert_eq. }
  rewrite (bind_Ok _ _ _ _ _ E4). by rewrite decide_True by done.
Qed.

Lemma munmap_file_run path mem mem' w :
  quiet w → c_files (w_core w) !! path = Some (NFile mem) → length mem' = length mem →
  munmap_file mem' (new_fd (c_fds (w_core w))) (opened path mem [] w) =
    (Ok false, set_core (set_files (<[path := NFile mem']> (c_files (w_core w))) (w_core w)) w).
Proof.
  intros (Hx & Hf & Hm) Hp Hl. unfold munmap_file.
  set (fd := new_fd (c_fds (w_core w))). set (w1 := opened path mem [] w).
  set (w2 := set_core (set_files (<[path := NFile mem']> (c_files (w_core w))) (w_core w1)) w1).
  assert (sys_rewind fd w1 = (Ok (inl ()), w1)) as E1.
  { unfold sys_rewind, fs_call, bind, next_fs, w1, opened. cbn. by rewrite Hf. }
  rewrite (bind_Ok _ _ _ _ _ E1).
  assert (sys_write_start fd mem' w1 = (Ok (inl (length mem')), w2)) as E2.
  { unfold sys_write_start, next_xfer, w2, w1, opened, fd. cbn. rewrite lookup_insert_eq, Hx. cbn.
    rewrite Nat.min_id. do 3 f_equal. unfold set_files. cbn. f_equal.
    apply map_eq. intros k. rewrite lookup_alter. case_decide as Hk; [subst k|by rewrite lookup_insert_ne].
    rewrite Hp, lookup_insert_eq. cbn. by rewrite take_ge, drop_ge, app_nil_r by lia. }
  rewrite (bind_Ok _ _ _ false w2).
  2: { rewrite (bind_Ok _ _ _ _ _ E2). by rewrite Nat.eqb_refl. }
  assert (sys_close fd w2 = (Ok (inl ()), set_core (set_files (<[path := NFile mem']> (c_files (w_core w))) (w_core w)) w)) as E3.
  { unfold sys_close, fs_call, bind, next_fs, gets, w2, w1, opened, fd. cbn. rewrite Hf. cbn. rewrite lookup_insert_eq.
    unfold modify_core, modify, ret, set_core, set_files, set_fds. cbn.
    rewrite delete_insert_eq, delete_id by apply new_fd_fresh. by destruct w as [[]]. }
  by rewrite (bind_Ok _ _ _ _ _ E3).
Qed.

(** C33. Debug information: for an ELF object file whose headers and names lie
    inside the file and whose debug sections do not overlap,
    [dcc_fix_debug_info] replaces, in the sections .debug_info and .debug_str up
    to their last two bytes, every occurrence of the server's directory by the
    client's, filled up with slashes to the same length, and changes nothing
    else in the file.  No occurrence is left there.  (An occurrence that ends in
    the last two bytes stays, also one that is followed by the terminator of the
    last string.)  The directory must not be empty, not end in a slash or a
    character of the client's, nor be shorter than the client's.  No access leaves
    the memory block, no other file changes and no descriptor stays open. *)
Theorem fix_debug_info_edits (path client_path server_path mem : cstr) (lay : layout) (secs : list section)
    (c : ascii) (w : world) :
  HAVE_ELF_H = true → quiet w → c_files (w_core w) !! path = Some (NFile mem) →
  kind lay → apart lay secs mem → Forall (sect_fits (length mem)) secs → (Z.of_nat (length mem) < 2 ^ 31)%Z →
  length client_path ≤ length server_path → last server_path = Some c → c ∉ client_path → c ≠ "/"%char →
  ∃ mem', dcc_fix_debug_info path client_path server_path w =
      (Ok (), set_core (set_files (<[path := NFile mem']> (c_files (w_core w))) (w_core w)) w) ∧
    edited secs server_path (client_path ++ replicate (length server_path - length client_path) "/"%char) mem mem'.
Proof.
  intros Hh Hq Hp Hk Ha Hs Hlen Hl Hc Hin Hne. unfold dcc_fix_debug_info. rewrite Hh, decide_False by lia. cbn [negb].
  rewrite (bind_Ok _ _ _ () w) by apply malloc_or_ok, Hq.
  set (replace := client_path ++ replicate _ _).
  destruct (edit_spec lay secs mem server_path replace c) as (mem' & E & He); try done.
  { unfold replace. intros [?|[? _]%elem_of_replicate]%elem_of_app; done. }
  { unfold replace. rewrite length_app, length_replicate. lia. }
  exists mem'. split; [|done]. unfold update_debug_info.
  rewrite (bind_Ok _ _ _ _ _ (mmap_file_run path mem w Hq ltac:(intros ->; destruct Ha as [[Hm]]; done) Hp)).
  cbv beta iota. rewrite E.
  rewrite (bind_Ok _ _ _ _ _ (eq_refl : throw (Ok ()) _ = (Ok (), _))).
  by rewrite (bind_Ok _ _ _ _ _ (munmap_file_run path mem mem' w Hq Hp (proj1 He))).
Qed.
End memory.

(** ** Witness *)

Definition bytes_of (l : list Z) : cstr := (λ z, ascii_of_N (Z.to_N z)) <$> l.

(** A 32-bit little-endian object file: the header, three section headers, the
    names, and a section with the server's directory /t/x. *)
Definition ex_elf_header : cstr :=
  ELFMAG ++ bytes_of ([1; 1; 1] ++ replicate 25 0 ++ [52; 0; 0; 0] ++ replicate 12 0 ++ [3; 0; 2; 0] ++
    replicate 40 0 ++
    [1; 0; 0; 0] ++ replicate 12 0 ++ [195; 0; 0; 0; 8; 0; 0; 0] ++ replicate 16 0 ++
    [13; 0; 0; 0] ++ replicate 12 0 ++ [172; 0; 0; 0; 23; 0; 0; 0] ++ replicate 16 0)%Z ++
  NUL :: ".debug_info"%cs ++ NUL :: ".shstrtab"%cs ++ [NUL].
Definition ex_elf : cstr := ex_elf_header ++ "/t/x/a"%cs ++ [NUL; NUL].
Definition ex_secs : list section :=
  [Sect [] 0 0; Sect ".debug_info"%cs 195 8; Sect ".shstrtab"%cs 172 23].

Lemma ex_elf_ok a b c d e f g h :
  elf (Cfg := usual_config) Elf32 ex_secs (ex_elf_header ++ [a; b; c; d; e; f; g; h]).
Proof.
  split; try (by vm_compute). intros i s Hi.
  assert (∀ n, bool_decide (NUL ∉ s_name s) = n → n = true → nul_free (s_name s)) as Hn
    by (intros n <- Hb; by apply bool_decide_eq_true in Hb).
  destruct i as [|[|[|i]]]; simplify_eq/=; (split_and!; [split_and!; [by vm_compute|by eapply Hn|by vm_compute]|by vm_compute..]).
Qed.

Lemma ex_elf_apart : apart (Cfg := usual_config) Elf32 ex_secs ex_elf.
Proof.
  split; [apply ex_elf_ok|]. intros lo hi Hr. vm_compute in Hr. simplify_eq. split; [|by vm_compute].
  intros mem' [Hl Hs].
  assert (take 195 mem' = ex_elf_header) as Ht.
  { apply list_eq. intros i. destruct (decide (i < 195)).
    - rewrite lookup_take_lt, Hs by lia. unfold ex_elf. by rewrite lookup_app_l by (vm_compute; lia).
    - rewrite lookup_take_ge by lia. symmetry. apply lookup_ge_None_2. vm_compute. lia. }
  rewrite <- (take_drop 195 mem'), Ht.
  assert (length (drop 195 mem') = 8) as Hd by (rewrite length_drop, Hl; by vm_compute).
  destruct (drop 195 mem') as [|? [|? [|? [|? [|? [|? [|? [|? [|]]]]]]]]]; try done. apply ex_elf_ok.
Qed.

Lemma fix_debug_info_edits_witness :
  let w := World (Core ∅ {["/tmp/x.o"%cs := NFile ex_elf]} [] 0 DCC_PHASE_STARTUP) [] [] [] [] 0 ∅ in
  (∃ mem', dcc_fix_debug_info (Cfg := usual_config) "/tmp/x.o"%cs "/"%cs "/t/x"%cs w =
      (Ok (), set_core (set_files (<["/tmp/x.o"%cs := NFile mem']> (c_files (w_core w))) (w_core w)) w) ∧
    edited ex_secs "/t/x"%cs "////"%cs ex_elf mem') ∧
  c_files (w_core (dcc_fix_debug_info (Cfg := usual_config) "/tmp/x.o"%cs "/"%cs "/t/x"%cs w).2) !! "/tmp/x.o"%cs =
    Some (NFile (ex_elf_header ++ "/////a"%cs ++ [NUL; NUL])).
Proof.
  split; [|vm_compute; reflexivity].
  apply (fix_debug_info_edits (Cfg := usual_config) "/tmp/x.o"%cs "/"%cs "/t/x"%cs ex_elf Elf32 ex_secs "x"%char).
  all: try done. 1: by left. 1: apply ex_elf_apart.
  - repeat constructor; vm_compute; done.
  - vm_compute. lia.
  - by apply (bool_decide_unpack _).
Defined.
