(* ===== verification/State.v ===== *)
(** * state.c, mon.c: what a monitor sees of the running jobs

    Every client keeps its state in a file that holds the memory image of a
    struct; a monitor reads all such files.  Sizes and offsets are those of a
    64-bit machine, integers in its byte order. *)

From stdpp Require Import sorting.
From S2P Require Import Prelude CLib Util Filename World Io Rpc Tempfile Bulk Results Hosts Access Dirs Lock FixDebug.

(** ** state.h *)

Inductive dcc_host := DCC_UNKNOWN | DCC_LOCAL | DCC_REMOTE.

Definition phase_num (p : phase) : Z :=
  match p with
  | DCC_PHASE_STARTUP => 0
  | DCC_PHASE_BLOCKED => 1
  | DCC_PHASE_CONNECT => 2
  | DCC_PHASE_CPP => 3
  | DCC_PHASE_SEND => 4
  | DCC_PHASE_COMPILE => 5
  | DCC_PHASE_RECEIVE => 6
  | DCC_PHASE_DONE => 7
  end.

Definition DCC_STATE_MAGIC : Z := 0x44494800.

(** [file] and [host] are arrays of 128 bytes; an enum read from a file can have
    any value. *)
Record dcc_task_state := Task {
  struct_size : Z;
  magic : Z;
  cpid : Z;
  ts_file : cstr;
  ts_host : cstr;
  ts_slot : Z;
  curr_phase : Z;
  ts_next : Z
}.

Definition sizeof_task : nat := 296.
Definition name_size : nat := 128.

(** Static storage. *)
Definition zero_task : dcc_task_state := Task 0 0 0 (repeat NUL name_size) (repeat NUL name_size) 0 0 0.

(** ** state.c *)

Definition dcc_get_phase_name (p : Z) : cstr :=
  if (p =? phase_num DCC_PHASE_STARTUP)%Z then "Startup"%cs
  else if (p =? phase_num DCC_PHASE_BLOCKED)%Z then "Blocked"%cs
  else if (p =? phase_num DCC_PHASE_COMPILE)%Z then "Compile"%cs
  else if (p =? phase_num DCC_PHASE_CPP)%Z then "Preprocess"%cs
  else if (p =? phase_num DCC_PHASE_CONNECT)%Z then "Connect"%cs
  else if (p =? phase_num DCC_PHASE_SEND)%Z then "Send"%cs
  else if (p =? phase_num DCC_PHASE_RECEIVE)%Z then "Receive"%cs
  else if (p =? phase_num DCC_PHASE_DONE)%Z then "Done"%cs
  else "Unknown"%cs.

(** A client: its configuration, its pid, and the statics of state.c.
    [my_state] is NULL at first. *)
Record noter := Noter {
  n_conf : conf;
  n_pid : Z;
  my_state : option bool;        (** the local one? *)
  local_state : dcc_task_state;
  remote_state : dcc_task_state
}.

Definition set_n_conf (c : conf) (n : noter) : noter :=
  Noter c (n_pid n) (my_state n) (local_state n) (remote_state n).
Definition on_conf {A} : M conf A → M noter A := zoom n_conf set_n_conf.
Definition on_nw {A} (m : M world A) : M noter A := on_conf (on_cw m).

(** [struct dcc_task_state *direct_my_state(target)]: [false] is NULL. *)
Definition direct_my_state (target : dcc_host) : M noter bool :=
  do! (match target with
       | DCC_LOCAL => modify (λ n, Noter (n_conf n) (n_pid n) (Some true) (local_state n) (remote_state n))
       | DCC_REMOTE => modify (λ n, Noter (n_conf n) (n_pid n) (Some false) (local_state n) (remote_state n))
       | DCC_UNKNOWN => ret ()
       end);
  gets (λ n, bool_decide (is_Some (my_state n))).

(** [*my_state], and assigning to it. *)
Definition mine (n : noter) : dcc_task_state :=
  match my_state n with Some true => local_state n | _ => remote_state n end.
Definition update (f : dcc_task_state → dcc_task_state) : M noter unit :=
  modify (λ n, match my_state n with
               | Some true => Noter (n_conf n) (n_pid n) (my_state n) (f (local_state n)) (remote_state n)
               | _ => Noter (n_conf n) (n_pid n) (my_state n) (local_state n) (f (remote_state n))
               end).

(** [strlcpy(dst, src, sizeof dst)]: the rest of the array stays. *)
Definition strlcpy (dst src : cstr) : cstr :=
  let s := take (length dst - 1) src in s ++ [NUL] ++ drop (S (length s)) dst.

Definition dcc_state_prefix : cstr := "binstate_"%cs.

Definition dcc_get_state_filename : M noter cstr :=
  let! dir := on_conf dcc_get_state_dir in
  do! on_nw (malloc_or EXIT_OUT_OF_MEMORY);
  let! pid := gets n_pid in
  ret (dir ++ "/"%cs ++ dcc_state_prefix ++ print_d pid).

Definition dcc_open_state (fname : cstr) : M world nat :=
  let! fd := sys_open_trunc fname in
  match fd with
  | inr _ => fail EXIT_IO_ERROR
  | inl fd => ret fd
  end.

Definition dcc_remove_state_file : M noter unit :=
  let! fname := attempt dcc_get_state_filename in
  match fname with
  | inr _ => ret ()
  | inl fname => let! _ := on_nw (sys_unlink fname) in ret ()
  end.

Section state.
Context {Cfg : Config}.

(** An integer of [n] bytes in memory. *)
Definition store (n : nat) (z : Z) : cstr :=
  (λ b, ascii_of_N (Z.to_N b)) <$> (if little_endian then store_le n z else reverse (store_le n z)).

(** The memory image of a task. *)
Definition image (t : dcc_task_state) : cstr :=
  store 8 (struct_size t) ++ store 8 (magic t) ++ store 8 (cpid t) ++ ts_file t ++ ts_host t ++
  store 4 (ts_slot t) ++ store 4 (curr_phase t) ++ store 8 (ts_next t).

Definition dcc_write_state (fd : nat) : M noter unit :=
  let! t := gets mine in on_nw (dcc_writex fd (image t)).

(** [dcc_note_state] *)
Definition note_state (state : phase) (source_file host : option cstr) (target : dcc_host) : M noter unit :=
  let! ok := direct_my_state target in
  if negb ok then fail (-1)
  else
    do! (let! pid := gets n_pid in
         update (λ t, Task (Z.of_nat sizeof_task) DCC_STATE_MAGIC pid (ts_file t) (ts_host t) (ts_slot t)
                        (curr_phase t) (ts_next t)));
    let! fname := dcc_get_state_filename in
    do! (match dcc_find_basename source_file with
         | Some f => update (λ t, Task (struct_size t) (magic t) (cpid t) (strlcpy (ts_file t) f) (ts_host t)
                                   (ts_slot t) (curr_phase t) (ts_next t))
         | None => ret ()
         end);
    do! (match host with
         | Some h => update (λ t, Task (struct_size t) (magic t) (cpid t) (ts_file t) (strlcpy (ts_host t) h)
                                   (ts_slot t) (curr_phase t) (ts_next t))
         | None => ret ()
         end);
    do! update (λ t, Task (struct_size t) (magic t) (cpid t) (ts_file t) (ts_host t) (ts_slot t)
                       (phase_num state) (ts_next t));
    let! fd := on_nw (dcc_open_state fname) in
    let! r := attempt (dcc_write_state fd) in
    do! attempt (on_nw (dcc_close fd));
    match r with
    | inr e => fail e
    | inl _ => ret ()
    end.

(** [dcc_note_state_slot] *)
Definition state_slot (slot : Z) (target : dcc_host) : M noter unit :=
  let! ok := direct_my_state target in
  if ok then update (λ t, Task (struct_size t) (magic t) (cpid t) (ts_file t) (ts_host t) slot (curr_phase t) (ts_next t))
  else ret ().

(** ** mon.c *)

(** [kill(pid, 0)] *)
Inductive kill_result := KillOk | KillPerm | KillNone | KillOther.

(** The modification time of a file, the time, and which processes there are. *)
Context (mtime : cstr → Z) (now : Z) (kill0 : Z → kill_result).

Definition dcc_phase_max_age : Z := 60.

(** [fd] is closed on failure. *)
Definition dcc_mon_kill_old (fd : nat) (fullpath : cstr) : M world unit :=
  let! st := sys_fstat fd in
  match st with
  | inr _ => do! attempt (dcc_close fd); fail EXIT_IO_ERROR
  | inl _ =>
      if (now - mtime fullpath >? dcc_phase_max_age)%Z then
        do! attempt (dcc_close fd);
        let! r := sys_unlink fullpath in
        match r with
        | inr _ => fail EXIT_IO_ERROR
        | inl _ => fail EXIT_GONE
        end
      else ret ()
  end.

(** The struct in a block of its size. *)
Definition task_of (mem : cstr) : dcc_task_state :=
  Task (field_at 8 0 mem) (field_at 8 8 mem) (field_at 8 16 mem)
    (take name_size (drop 24 mem)) (take name_size (drop 152 mem))
    (s32 (field_at 4 280 mem)) (field_at 4 284 mem) (field_at 8 288 mem).

(** [array[sizeof array - 1] = 0] *)
Definition terminate (l : cstr) : cstr := take (length l - 1) l ++ [NUL].

Definition dcc_mon_read_state (fd : nat) : M world dcc_task_state :=
  let! r := sys_read fd sizeof_task in
  match r with
  | inr _ => fail EXIT_IO_ERROR
  | inl bytes =>
      if decide (length bytes = sizeof_task) then
        let lp := task_of bytes in
        if negb (magic lp =? DCC_STATE_MAGIC)%Z then fail EXIT_IO_ERROR
        else if negb (struct_size lp =? Z.of_nat sizeof_task)%Z then fail EXIT_IO_ERROR
        else
          ret (Task (struct_size lp) (magic lp) (cpid lp) (terminate (ts_file lp)) (terminate (ts_host lp)) (ts_slot lp)
                 (if (curr_phase lp >? phase_num DCC_PHASE_DONE)%Z then phase_num DCC_PHASE_COMPILE else curr_phase lp) 0)
      else fail EXIT_IO_ERROR
  end.

Definition dcc_mon_check_orphans (monl : dcc_task_state) : M world unit :=
  match kill0 (s32 (cpid monl)) with
  | KillOk | KillPerm => ret ()
  | KillNone | KillOther => fail EXIT_GONE
  end.

Definition dcc_mon_load_state (fd : nat) : M world dcc_task_state :=
  do! malloc_or EXIT_OUT_OF_MEMORY;
  let! tl := dcc_mon_read_state fd in
  do! (if (curr_phase tl =? phase_num DCC_PHASE_DONE)%Z then ret () else dcc_mon_check_orphans tl);
  ret tl.

Definition dcc_mon_do_file (dirname filename : cstr) : M world (option dcc_task_state) :=
  if negb (str_startswith dcc_state_prefix filename) then ret None
  else
    do! malloc_or EXIT_OUT_OF_MEMORY;
    let fullpath := dirname ++ "/"%cs ++ filename in
    let! fd := sys_open_read fullpath in
    match fd with
    | inr ENOENT => ret None
    | inr _ => fail EXIT_IO_ERROR
    | inl fd =>
        do! dcc_mon_kill_old fd fullpath;
        let! r := attempt (dcc_mon_load_state fd) in
        do! attempt (dcc_close fd);
        match r with
        | inr e => fail e
        | inl tl => ret (Some tl)
        end
    end.

(** [strcmp], on unsigned characters. *)
Fixpoint strcmp (a b : cstr) : comparison :=
  match a, b with
  | [], [] => Eq
  | [], _ :: _ => Lt
  | _ :: _, [] => Gt
  | x :: a, y :: b => match (code x ?= code y)%Z with Eq => strcmp a b | c => c end
  end.

Definition host_of (t : dcc_task_state) : cstr := c_string (ts_host t).

Fixpoint dcc_mon_insert_sorted (lst : list dcc_task_state) (new : dcc_task_state) : list dcc_task_state :=
  match lst with
  | [] => [new]
  | i :: rest =>
      match strcmp (host_of i) (host_of new) with
      | Gt => new :: lst
      | Eq => if (ts_slot new <? ts_slot i)%Z then new :: lst else i :: dcc_mon_insert_sorted rest new
      | Lt => i :: dcc_mon_insert_sorted rest new
      end
  end.

(** [opendir] and [readdir]: the names in a directory, in some order. *)
Definition dir_names (dirname : cstr) (m : gmap cstr node) : list cstr :=
  omap (λ p, if bool_decide (parent p = dirname) then Some (drop (S (length dirname)) p) else None)
    (map_to_list m).*1.

Definition sys_opendir (dirname : cstr) : M world (list cstr + errno) :=
  fs_call (let! f := lookup_file dirname in
           match f with
           | Some NDir => let! l := gets (λ w, dir_names dirname (c_files (w_core w))) in ret (inl l)
           | Some _ => ret (inr EOTHER)
           | None => ret (inr ENOENT)
           end).

Fixpoint poll_loop (dirname : cstr) (names : list cstr) (lst : list dcc_task_state) :
    M world (list dcc_task_state) :=
  match names with
  | [] => ret lst
  | d_name :: names =>
      let! r := attempt (dcc_mon_do_file dirname d_name) in
      poll_loop dirname names (match r with inl (Some t) => dcc_mon_insert_sorted lst t | _ => lst end)
  end.

Definition dcc_mon_poll : M conf (list dcc_task_state) :=
  let! dirname := dcc_get_state_dir in
  let! d := on_cw (sys_opendir dirname) in
  match d with
  | inr _ => fail EXIT_IO_ERROR
  | inl names => on_cw (poll_loop dirname names [])
  end.
End state.

(** ** Integers in memory *)

Lemma store_le_length n z : length (store_le n z) = n.
Proof. revert z. induction n as [|n IH]; intros z; simpl; [done|]. by rewrite IH. Qed.

Lemma store_le_bytes n z : Forall is_byte (store_le n z).
Proof.
  revert z. induction n as [|n IH]; intros z; simpl; constructor; [|apply IH]. unfold is_byte.
  change 255%Z with (Z.ones 8). rewrite Z.land_ones by done. by apply Z.mod_pos_bound.
Qed.

Lemma load_store n z : load_le (store_le n z) = (z mod 2 ^ (8 * Z.of_nat n))%Z.
Proof.
  revert z. induction n as [|n IH]; intros z; [simpl; by rewrite Z.mod_1_r|].
  simpl store_le. apply Z.bits_inj'. intros i Hi.
  pose proof (store_le_bytes (S n) z) as Hb. simpl in Hb. apply Forall_cons in Hb as [Hb _].
  rewrite load_le_testbit by done. rewrite IH.
  change 255%Z with (Z.ones 8). destruct (Z.ltb_spec i 8) as [Hl|Hl].
  - rewrite Z.land_spec, Z.ones_spec_low, andb_true_r by lia. by rewrite Z.mod_pow2_bits_low by lia.
  - destruct (decide (i < 8 * Z.of_nat (S n))%Z) as [Hn|Hn].
    + rewrite !Z.mod_pow2_bits_low by lia. rewrite Z.shiftr_spec by lia. f_equal. lia.
    + rewrite !Z.mod_pow2_bits_high by lia. done.
Qed.

Lemma code_of_byte b : is_byte b → code (ascii_of_N (Z.to_N b)) = b.
Proof.
  intros [H0 H1]. unfold code. rewrite N_ascii_embedding by lia. lia.
Qed.

Section image.
Context {Cfg : Config}.

Lemma store_length n z : length (store n z) = n.
Proof. unfold store. rewrite length_fmap. destruct little_endian; rewrite ?length_reverse; apply store_le_length. Qed.

Lemma field_store n z pre post :
  field_at n (Z.of_nat (length pre)) (pre ++ store n z ++ post) = (z mod 2 ^ (8 * Z.of_nat n))%Z.
Proof.
  unfold field_at. rewrite Nat2Z.id, drop_app_length, take_app_length' by (by rewrite store_length).
  assert (Hc : code <$> store n z = if little_endian then store_le n z else reverse (store_le n z)).
  { unfold store. rewrite <- list_fmap_compose. rewrite <- (list_fmap_id (if little_endian then _ else _)) at 2.
    apply list_fmap_ext. intros i b Hb. apply code_of_byte.
    assert (b ∈ store_le n z) as Hin.
    { apply list_elem_of_lookup_2 in Hb. destruct little_endian; [done|by apply elem_of_reverse]. }
    pose proof (store_le_bytes n z) as Hf. rewrite Forall_forall in Hf. auto. }
  rewrite Hc. destruct little_endian; rewrite ?reverse_involutive; apply load_store.
Qed.

(** A task whose fields fit. *)
Definition fits (t : dcc_task_state) : Prop :=
  (0 ≤ struct_size t < 2 ^ 64)%Z ∧ (0 ≤ magic t < 2 ^ 64)%Z ∧ (0 ≤ cpid t < 2 ^ 64)%Z ∧
  length (ts_file t) = name_size ∧ length (ts_host t) = name_size ∧
  (- 2 ^ 31 ≤ ts_slot t < 2 ^ 31)%Z ∧ (0 ≤ curr_phase t < 2 ^ 32)%Z ∧ (0 ≤ ts_next t < 2 ^ 64)%Z.

Lemma image_length t : fits t → length (image t) = sizeof_task.
Proof.
  intros (_ & _ & _ & Hf & Hh & _). unfold image. rewrite !length_app, !store_length, Hf, Hh. done.
Qed.

Lemma s32_mod z : (- 2 ^ 31 ≤ z < 2 ^ 31)%Z → s32 (z mod 2 ^ 32) = z.
Proof.
  intros Hz. unfold s32. rewrite Zplus_mod_idemp_l. rewrite Z.mod_small by lia. lia.
Qed.

(** What is read from an image is the task. *)
Lemma task_of_image t : fits t → task_of (image t) = t.
Proof.
  intros (H1 & H2 & H3 & Hf & Hh & H6 & H7 & H8). unfold image.
  set (a := store 8 (struct_size t)). set (b := store 8 (magic t)). set (c := store 8 (cpid t)).
  set (e := store 4 (ts_slot t)). set (p := store 4 (curr_phase t)). set (x := store 8 (ts_next t)).
  assert (length a = 8 ∧ length b = 8 ∧ length c = 8 ∧ length e = 4 ∧ length p = 4) as (La & Lb & Lc & Le & Lp)
    by (split_and!; apply store_length).
  unfold task_of.
  assert (∀ pre n z post off, off = Z.of_nat (length pre) →
    field_at n off (pre ++ store n z ++ post) = (z mod 2 ^ (8 * Z.of_nat n))%Z) as F.
  { intros pre n z post off ->. apply field_store. }
  destruct t as [sz mg cp f h sl ph nx]. cbn [struct_size magic cpid ts_file ts_host ts_slot curr_phase ts_next] in *.
  f_equal.
  - etransitivity; [by apply (F [] 8 sz)|]. by apply Z.mod_small.
  - etransitivity; [apply (F a 8 mg); by rewrite La|]. by apply Z.mod_small.
  - rewrite app_assoc. etransitivity; [apply (F (a ++ b) 8 cp); by rewrite length_app, La, Lb|]. by apply Z.mod_small.
  - rewrite (app_assoc b), (app_assoc a). rewrite drop_app_length' by (rewrite !length_app; lia).
    by apply take_app_length'.
  - rewrite (app_assoc c), (app_assoc b), (app_assoc a).
    rewrite drop_app_length' by (rewrite !length_app, Hf; unfold name_size; lia). by apply take_app_length'.
  - rewrite (app_assoc f), (app_assoc c), (app_assoc b), (app_assoc a).
    etransitivity; [apply (f_equal s32), (F (a ++ b ++ c ++ f ++ h) 4 sl); rewrite !length_app, Hf, Hh; unfold name_size; lia|].
    by apply s32_mod.
  - rewrite (app_assoc h), (app_assoc f), (app_assoc c), (app_assoc b), (app_assoc a).
    etransitivity; [apply (F (a ++ b ++ c ++ f ++ h ++ e) 4 ph); rewrite !length_app, Hf, Hh; unfold name_size; lia|].
    by apply Z.mod_small.
  - rewrite <- (app_nil_r x). rewrite (app_assoc e), (app_assoc h), (app_assoc f), (app_assoc c), (app_assoc b), (app_assoc a).
    etransitivity; [apply (F (a ++ b ++ c ++ f ++ h ++ e ++ p) 8 nx); rewrite !length_app, Hf, Hh; unfold name_size; lia|].
    by apply Z.mod_small.
Qed.
End image.

(** ** The list of a monitor *)

Lemma strcmp_eq a b : strcmp a b = Eq → a = b.
Proof.
  revert b. induction a as [|x a IH]; intros [|y b]; simpl; try done.
  destruct (Z.compare_spec (code x) (code y)) as [E| |]; try done. intros ->%IH. f_equal. by apply code_inj.
Qed.

Lemma strcmp_opp a b : strcmp b a = CompOpp (strcmp a b).
Proof.
  revert b. induction a as [|x a IH]; intros [|y b]; simpl; try done.
  rewrite (Z.compare_antisym (code x)). destruct (code x ?= code y)%Z; simpl; auto.
Qed.

Lemma strcmp_lt_trans a b c : strcmp a b = Lt → strcmp b c = Lt → strcmp a c = Lt.
Proof.
  revert b c. induction a as [|x a IH]; intros [|y b] [|z c]; simpl; try done.
  destruct (Z.compare_spec (code x) (code y)), (Z.compare_spec (code y) (code z)), (Z.compare_spec (code x) (code z));
    try done; try lia. eauto.
Qed.

(** By host, then by slot. *)
Definition task_le (a b : dcc_task_state) : Prop :=
  match strcmp (host_of a) (host_of b) with Lt => True | Eq => (ts_slot a ≤ ts_slot b)%Z | Gt => False end.

#[export] Instance task_le_trans : Transitive task_le.
Proof.
  intros a b c. unfold task_le. destruct (strcmp (host_of a) (host_of b)) eqn:E1; [|destruct (strcmp (host_of b) (host_of c)) eqn:E2|done].
  - apply strcmp_eq in E1. rewrite E1. case_match; try done. lia.
  - apply strcmp_eq in E2. by rewrite <- E2, E1.
  - by rewrite (strcmp_lt_trans _ _ _ E1 E2).
  - done.
Qed.

Lemma insert_perm lst t : dcc_mon_insert_sorted lst t ≡ₚ t :: lst.
Proof.
  induction lst as [|i lst IH]; simpl; [done|]. repeat case_match; try done; rewrite IH; by constructor.
Qed.

Lemma insert_sorted lst t : StronglySorted task_le lst → StronglySorted task_le (dcc_mon_insert_sorted lst t).
Proof.
  induction 1 as [|i lst Hs IH Hi]; simpl; [by repeat constructor|].
  assert (Hfirst : task_le t i → StronglySorted task_le (t :: i :: lst)).
  { intros Ht. constructor; [by constructor|]. constructor; [done|]. eapply Forall_impl; [exact Hi|].
    intros x Hx. by transitivity i. }
  assert (Hlater : task_le i t → StronglySorted task_le (i :: dcc_mon_insert_sorted lst t)).
  { intros Ht. constructor; [done|]. rewrite insert_perm. by constructor. }
  unfold task_le in Hfirst, Hlater. rewrite (strcmp_opp (host_of i)) in Hfirst.
  destruct (strcmp (host_of i) (host_of t)); simpl in *; [|by apply Hlater|by apply Hfirst].
  destruct (Z.ltb_spec (ts_slot t) (ts_slot i)); [apply Hfirst|apply Hlater]; lia.
Qed.

(** What a monitor can rely on: strings that end, a phase with a name. *)
Definition presentable (t : dcc_task_state) : Prop :=
  magic t = DCC_STATE_MAGIC ∧ NUL ∈ ts_file t ∧ NUL ∈ ts_host t ∧
  length (ts_file t) ≤ name_size ∧ length (ts_host t) ≤ name_size ∧ (0 ≤ curr_phase t ≤ 7)%Z.

Section poll.
Context {Cfg : Config} (mtime : cstr → Z) (now : Z) (kill0 : Z → kill_result).

Lemma load_le_nonneg l : Forall (λ b, 0 ≤ b)%Z l → (0 ≤ load_le l)%Z.
Proof.
  induction 1 as [|b l Hb _ IH]; simpl; [done|]. apply Z.lor_nonneg. split; [done|]. by apply Z.shiftl_nonneg.
Qed.

Lemma field_nonneg n off mem : (0 ≤ field_at n off mem)%Z.
Proof.
  apply load_le_nonneg. set (l := code <$> _).
  assert (Forall (λ b, 0 ≤ b)%Z l) by (apply Forall_fmap, Forall_true; intros c; apply code_range).
  destruct little_endian; [done|by apply Forall_reverse].
Qed.

Lemma nul_terminate l : NUL ∈ terminate l.
Proof. unfold terminate. apply elem_of_app. right. by left. Qed.

Lemma terminate_length l : l ≠ [] → length (terminate l) = length l.
Proof. intros Hl. unfold terminate. rewrite length_app, length_take. destruct l; [done|]. simpl. lia. Qed.

(** Reading a state file gives a presentable task or an error. *)
Definition readable_task (o : outcome dcc_task_state) : Prop :=
  match o with Ok t => presentable t | Fail _ => True | _ => False end.

Lemma read_state_wp fd w : wp (dcc_mon_read_state fd) (λ o _, readable_task o) w.
Proof.
  unfold dcc_mon_read_state. apply wp_bind.
  assert (Hr : ∃ r w', sys_read fd sizeof_task w = (Ok r, w')).
  { unfold sys_read. case_match; [|eauto]. destruct (next_xfer _ _) as [[] ?]; eauto. }
  destruct Hr as (r & w1 & E). eapply wp_run; [exact E|]. cbn beta iota.
  destruct r as [bytes|e]; [|done]. case_decide as Hl; [|done].
  destruct (Z.eqb_spec (magic (task_of bytes)) DCC_STATE_MAGIC) as [Hm|]; simpl; [|done].
  case_match; [done|]. apply wp_ret.
  assert (Hlen : ∀ off, off + name_size ≤ sizeof_task → length (terminate (take name_size (drop off bytes))) ≤ name_size).
  { intros off Ho. assert (length (take name_size (drop off bytes)) = name_size) as E'
      by (rewrite length_take, length_drop, Hl; lia).
    rewrite terminate_length; [lia|]. intros E2. rewrite E2 in E'. done. }
  split_and!; simpl; try apply nul_terminate; try (apply Hlen; unfold name_size, sizeof_task; lia); [done|..].
  - case_match; [done|]. apply field_nonneg.
  - rewrite Z.gtb_ltb. destruct (Z.ltb_spec 7 (field_at 4 284 bytes)); [done|lia].
Qed.

Lemma wp_attempt_close {A} fd (m : M world A) Q w : (∀ w', wp m Q w') → wp (do! attempt (dcc_close fd); m) Q w.
Proof. apply wp_close_and. Qed.

Lemma do_file_wp dirname filename w :
  wp (dcc_mon_do_file mtime now kill0 dirname filename)
     (λ o _, match o with Ok (Some t) => presentable t | Ok None | Fail _ => True | _ => False end) w.
Proof.
  unfold dcc_mon_do_file. case_match; [done|]. apply wp_bind, wp_malloc_or; intros l; [|done].
  apply wp_bind, wp_fs_call; [by intros []|]. intros l1. apply wp_bind, wp_gets.
  case_match; [|done]. case_match; [|done..]. apply wp_bind. unfold add_fd, wp at 1. cbn [fst snd]. apply wp_ret.
  set (fd := new_fd _). apply wp_bind. unfold dcc_mon_kill_old. apply wp_bind, wp_fs_call.
  { intros e l2. apply wp_attempt_close. done. }
  intros l2. apply wp_bind, wp_gets, wp_ret. cbn [w_core set_fs set_core c_fds set_fds]. rewrite lookup_insert_eq.
  case_match.
  { apply wp_attempt_close. intros w1. apply wp_bind, wp_fs_call; [done|]. intros l3. apply wp_bind, wp_gets.
    repeat case_match; by apply wp_ret || (apply wp_bind, wp_modify, wp_ret). }
  apply wp_ret, wp_bind, wp_attempt. unfold dcc_mon_load_state. apply wp_bind, wp_malloc_or; intros l3.
  - apply wp_bind. eapply wp_mono; [apply read_state_wp|]. intros [t|e|e|] w1 Ht; try done.
    + apply wp_bind. unfold dcc_mon_check_orphans. repeat case_match; apply wp_ret || apply wp_throw;
        try apply wp_ret; by apply wp_attempt_close.
    + by apply wp_attempt_close.
  - by apply wp_attempt_close.
Qed.

Lemma poll_loop_wp dirname names lst w :
  StronglySorted task_le lst → Forall presentable lst →
  wp (poll_loop mtime now kill0 dirname names lst)
     (λ o _, match o with Ok l => StronglySorted task_le l ∧ Forall presentable l | _ => False end) w.
Proof.
  revert lst w. induction names as [|name names IH]; intros lst w Hs Hp; [done|]. simpl.
  apply wp_bind, wp_attempt. eapply wp_mono; [apply do_file_wp|]. intros [[t|]|e|e|] w1 Ht; try done; apply IH; try done.
  - by apply insert_sorted.
  - rewrite insert_perm. by constructor.
Qed.

(** C37. A monitor gets, whatever is in the state files and whatever the kernel
    does, a list that is ordered by host and slot, in which every string ends
    within its array and every phase has a name; or an error code. *)
Theorem mon_poll_sorted (c : conf) :
  wp (dcc_mon_poll mtime now kill0)
     (λ o _, match o with
             | Ok l => StronglySorted task_le l ∧ Forall presentable l
             | Fail e => e ∈ [EXIT_OUT_OF_MEMORY; EXIT_BAD_ARGUMENTS; EXIT_IO_ERROR]
             | _ => False
             end) c.
Proof.
  assert (Hdir : wp dcc_get_state_dir (λ o _, match o with
    | Ok _ => True | Fail e => e ∈ [EXIT_OUT_OF_MEMORY; EXIT_BAD_ARGUMENTS; EXIT_IO_ERROR] | _ => False end) c)
    by apply get_state_dir_wp.
  unfold dcc_mon_poll. apply wp_bind. eapply wp_mono; [exact Hdir|]. intros [d|e|e|] c1 Hd; try done.
  apply wp_bind, wp_zoom, wp_fs_call; [intros; apply wp_throw; set_solver|]. intros l. apply wp_bind, wp_gets.
  case_match; [|apply wp_ret, wp_throw; set_solver]. case_match; try (apply wp_ret, wp_throw; set_solver).
  apply wp_bind, wp_gets, wp_ret, wp_zoom. eapply wp_mono; [apply poll_loop_wp; constructor|]. by intros [].
Qed.
End poll.

(** ** What a client notes, a monitor sees *)

Abbreviation nw n := (cf_w (n_conf n)).
Definition set_nw (w : world) (n : noter) : noter := set_n_conf (set_cf_w w (n_conf n)) n.

Lemma nw_step {A} (m : M world A) o c' n :
  runs m o (w_core (nw n)) c' → io_ok (nw n) →
  ∃ w', on_nw m n = (o, set_nw w' n) ∧ w_core w' = c' ∧ io_ok w'.
Proof.
  intros Hm Hw. destruct (Hm _ eq_refl Hw) as (w' & E & Hc & Hok & _). exists w'.
  split; [|done]. unfold on_nw, on_conf, on_cw, zoom. by rewrite E.
Qed.

Definition upd (f : dcc_task_state → dcc_task_state) (n : noter) : noter :=
  match my_state n with
  | Some true => Noter (n_conf n) (n_pid n) (my_state n) (f (local_state n)) (remote_state n)
  | _ => Noter (n_conf n) (n_pid n) (my_state n) (local_state n) (f (remote_state n))
  end.

Lemma mine_upd f n : mine (upd f n) = f (mine n).
Proof. unfold mine, upd. by destruct (my_state n) as [[]|] eqn:E; rewrite E || simpl. Qed.

Lemma upd_conf f n : n_conf (upd f n) = n_conf n.
Proof. unfold upd. by destruct (my_state n) as [[]|]. Qed.
Lemma upd_pid f n : n_pid (upd f n) = n_pid n.
Proof. unfold upd. by destruct (my_state n) as [[]|]. Qed.
Lemma mine_set_nw w n : mine (set_nw w n) = mine n.
Proof. done. Qed.
Lemma mine_set_conf c n : mine (set_n_conf c n) = mine n.
Proof. done. Qed.

Section seen.
Context {Cfg : Config}.

(** Point [my_state] to a target. *)
Definition directed (target : dcc_host) (n : noter) : noter :=
  match target with
  | DCC_LOCAL => Noter (n_conf n) (n_pid n) (Some true) (local_state n) (remote_state n)
  | DCC_REMOTE => Noter (n_conf n) (n_pid n) (Some false) (local_state n) (remote_state n)
  | DCC_UNKNOWN => n
  end.

(** The task after a note: the fields given, the others as they were. *)
Definition noted (state : phase) (source_file host : option cstr) (pid : Z) (t : dcc_task_state) : dcc_task_state :=
  Task (Z.of_nat sizeof_task) DCC_STATE_MAGIC pid
    (match dcc_find_basename source_file with Some f => strlcpy (ts_file t) f | None => ts_file t end)
    (match host with Some h => strlcpy (ts_host t) h | None => ts_host t end)
    (ts_slot t) (phase_num state) (ts_next t).

Definition state_file (dir : cstr) (pid : Z) : cstr := dir ++ "/"%cs ++ dcc_state_prefix ++ print_d pid.

Lemma update_run f n : update f n = (Ok (), upd f n).
Proof. done. Qed.

(** The last part: the file is written anew. *)
Lemma write_out fname n :
  io_ok (nw n) →
  match c_files (w_core (nw n)) !! fname with Some NDir | Some (NLink _) => False | _ => True end →
  ∃ n', (let! fd := on_nw (dcc_open_state fname) in
         let! r := attempt (dcc_write_state fd) in
         do! attempt (on_nw (dcc_close fd));
         match r with inr e => fail e | inl _ => ret () end) n = (Ok (), n') ∧
    mine n' = mine n ∧
    c_files (w_core (nw n')) = <[fname := NFile (image (mine n))]> (c_files (w_core (nw n))).
Proof.
  intros Hok Hfile. set (c := w_core (nw n)) in *. set (fd := new_fd (c_fds c)).
  set (c2 := Bulk.opened fd (Fd [] [] (Some fname)) (set_files (<[fname := NFile []]> (c_files c)) c)).
  destruct (nw_step (dcc_open_state fname) (Ok fd) c2 n) as (w1 & E1 & C1 & Ok1); [|done|].
  { unfold dcc_open_state. eapply runs_bind; [by apply open_trunc_runs|apply runs_ret]. }
  rewrite (bind_Ok _ _ _ _ _ E1).
  destruct (nw_step (dcc_writex fd (image (mine n))) (Ok ()) (put fd (Fd [] [] (Some fname)) (image (mine n)) c2) (set_nw w1 n))
    as (w2 & E2 & C2 & Ok2); [|done|].
  { simpl. rewrite C1. apply writex_runs. unfold c2, Bulk.opened. simpl. apply lookup_insert_eq. }
  rewrite (bind_Ok _ _ _ (inl ()) (set_nw w2 (set_nw w1 n))).
  2: { unfold attempt, dcc_write_state. erewrite bind_Ok by done. rewrite mine_set_nw. by rewrite E2. }
  destruct (nw_step (dcc_close fd) (Ok ()) (set_fds (delete fd (c_fds (w_core w2))) (w_core w2)) (set_nw w2 (set_nw w1 n)))
    as (w3 & E3 & C3 & Ok3); [|done|].
  { unfold dcc_close. eapply runs_bind; [eapply close_runs; simpl; rewrite C2; simpl; apply lookup_insert_eq|apply runs_ret]. }
  rewrite (bind_Ok _ _ _ (inl ()) (set_nw w3 (set_nw w2 (set_nw w1 n)))) by (unfold attempt; by rewrite E3).
  eexists. split; [done|]. split; [done|]. simpl. rewrite C3. simpl. rewrite C2. simpl.
  rewrite lookup_insert_eq, insert_insert_eq. done.
Qed.

Lemma note_state_writes state source_file host target dir c1 n :
  is_Some (my_state (directed target n)) →
  dcc_get_state_dir (n_conf n) = (Ok dir, c1) → io_ok (cf_w c1) →
  match c_files (w_core (cf_w c1)) !! state_file dir (n_pid n) with Some NDir | Some (NLink _) => False | _ => True end →
  ∃ n', note_state state source_file host target n = (Ok (), n') ∧
    mine n' = noted state source_file host (n_pid n) (mine (directed target n)) ∧
    c_files (w_core (nw n')) = <[state_file dir (n_pid n) := NFile (image (mine n'))]> (c_files (w_core (cf_w c1))).
Proof.
  intros Hs Hdir Hok Hfile. unfold note_state.
  rewrite (bind_Ok _ _ n true (directed target n)).
  2: { unfold direct_my_state. destruct target; unfold bind, modify, gets, ret; simpl; try done.
       by rewrite bool_decide_eq_true_2. }
  cbn [negb]. set (n0 := directed target n) in *.
  assert (Hc0 : n_conf n0 = n_conf n) by (unfold n0; by destruct target).
  assert (Hp0 : n_pid n0 = n_pid n) by (unfold n0; by destruct target).
  set (f1 := λ pid t, Task (Z.of_nat sizeof_task) DCC_STATE_MAGIC pid (ts_file t) (ts_host t) (ts_slot t)
                        (curr_phase t) (ts_next t)).
  rewrite (bind_Ok _ _ n0 () (upd (f1 (n_pid n)) n0)).
  2: { erewrite bind_Ok by done. by rewrite Hp0. }
  rewrite (bind_Ok _ _ _ (state_file dir (n_pid n)) (set_n_conf c1 (upd (f1 (n_pid n)) n0))).
  2: { unfold dcc_get_state_filename, bind, on_conf, zoom. rewrite upd_conf, Hc0, Hdir.
       unfold on_nw, on_conf, on_cw, zoom. cbn. rewrite malloc_or_ok by apply Hok. cbn. unfold gets. cbn.
       rewrite upd_pid, Hp0. by destruct c1. }
  set (f2 := λ t, match dcc_find_basename source_file with
    | Some f => Task (struct_size t) (magic t) (cpid t) (strlcpy (ts_file t) f) (ts_host t) (ts_slot t) (curr_phase t) (ts_next t)
    | None => t end).
  set (f3 := λ t, match host with
    | Some h => Task (struct_size t) (magic t) (cpid t) (ts_file t) (strlcpy (ts_host t) h) (ts_slot t) (curr_phase t) (ts_next t)
    | None => t end).
  set (f4 := λ t, Task (struct_size t) (magic t) (cpid t) (ts_file t) (ts_host t) (ts_slot t) (phase_num state) (ts_next t)).
  assert (Hid : ∀ f m, (∀ t, f t = t) → upd f m = m).
  { intros f m Hf. unfold upd. destruct m as [? ? [[]|] ? ?]; simpl; by rewrite Hf. }
  set (n1 := set_n_conf c1 _). rewrite (bind_Ok _ _ n1 () (upd f2 n1)).
  2: { unfold f2. destruct (dcc_find_basename source_file); [done|]. by rewrite (Hid (λ t, t)). }
  rewrite (bind_Ok _ _ (upd f2 n1) () (upd f3 (upd f2 n1))).
  2: { unfold f3. destruct host; [done|]. by rewrite (Hid (λ t, t)). }
  rewrite (bind_Ok _ _ (upd f3 (upd f2 n1)) () (upd f4 (upd f3 (upd f2 n1)))) by done.
  set (n4 := upd f4 _).
  assert (n_conf n4 = c1) as Hc4 by (unfold n4; by rewrite !upd_conf).
  destruct (write_out (state_file dir (n_pid n)) n4) as (n' & E & Hm & Hf); [by rewrite Hc4|by rewrite Hc4|].
  exists n'. split; [exact E|]. rewrite Hm, Hf, Hc4. split; [|done].
  unfold n4, n1. rewrite !mine_upd, mine_set_conf, mine_upd. unfold noted, f1, f2, f3, f4.
  by destruct (dcc_find_basename source_file), host.
Qed.

Lemma c_string_app s r : nul_free s → c_string (s ++ NUL :: r) = s.
Proof.
  induction s as [|c s IH]; intros Hs; simpl; [done|]. apply not_elem_of_cons in Hs as [Hc Hs].
  destruct (ceqb c NUL) eqn:E; [btest; congruence|]. by rewrite IH.
Qed.

Lemma strlcpy_length dst src : dst ≠ [] → length (strlcpy dst src) = length dst.
Proof.
  intros Hd. unfold strlcpy. rewrite !length_app, length_drop, length_take. destruct dst; [done|]. simpl. lia.
Qed.

(** What a monitor reads of a name that was copied into its array. *)
Lemma terminate_strlcpy dst src :
  length dst = name_size → nul_free src → c_string (terminate (strlcpy dst src)) = take 127 src.
Proof.
  intros Hd Hs. unfold terminate. rewrite strlcpy_length, Hd by by destruct dst. unfold strlcpy. rewrite Hd.
  change (name_size - 1) with 127. set (s := take 127 src).
  assert (nul_free s) as Hn by (intros Hin; apply elem_of_take in Hin as (k & Hk & _); apply Hs; by eapply list_elem_of_lookup_2).
  assert (length s ≤ 127) as Hl by (unfold s; rewrite length_take; lia).
  rewrite take_app, (take_ge s) by lia. destruct (127 - length s) as [|k] eqn:E; simpl.
  - rewrite app_nil_r. by apply c_string_app.
  - rewrite <- app_assoc. simpl. by apply c_string_app.
Qed.

Lemma basename_copied dst src :
  length dst = name_size → nul_free src →
  c_string (terminate (match dcc_find_basename (Some src) with Some f => strlcpy dst f | None => dst end)) =
    take 127 (default [] (dcc_find_basename (Some src))).
Proof.
  intros Hd Hs. unfold dcc_find_basename. destruct (strrchr src "/") as [i|]; [|by apply terminate_strlcpy].
  destruct (ceqb _ NUL); apply terminate_strlcpy; try done.
  intros Hin. apply Hs. apply list_elem_of_lookup in Hin as (k & Hk). simpl in Hk. rewrite lookup_drop in Hk.
  by eapply list_elem_of_lookup_2.
Qed.

Lemma noted_fits state src host pid t :
  fits t → (0 ≤ pid < 2 ^ 31)%Z → fits (noted state src host pid t).
Proof.
  intros (_ & _ & _ & Hf & Hh & H6 & _ & H8) Hp. unfold fits, noted; simpl.
  assert (Hlen : ∀ l x, length l = name_size → length (strlcpy l x) = name_size)
    by (intros l x Hl; rewrite strlcpy_length; [done|by intros ->]).
  split_and!; try done; try lia.
  - case_match; auto.
  - case_match; auto.
  - by destruct state.
  - by destruct state.
Qed.

Context (mtime : cstr → Z) (now : Z) (kill0 : Z → kill_result).

(** Reading an image that the client wrote. *)
Lemma do_file_image dir name t w :
  quiet w → str_startswith dcc_state_prefix name = true →
  c_files (w_core w) !! (dir ++ "/"%cs ++ name) = Some (NFile (image t)) → fits t →
  magic t = DCC_STATE_MAGIC → struct_size t = Z.of_nat sizeof_task → (curr_phase t ≤ 7)%Z →
  (now - mtime (dir ++ "/"%cs ++ name) ≤ 60)%Z →
  (curr_phase t = 7 ∨ kill0 (s32 (cpid t)) = KillOk ∨ kill0 (s32 (cpid t)) = KillPerm)%Z →
  (dcc_mon_do_file mtime now kill0 dir name w).1 =
    Ok (Some (Task (struct_size t) (magic t) (cpid t) (terminate (ts_file t)) (terminate (ts_host t)) (ts_slot t)
                (curr_phase t) 0)).
Proof.
  intros (Hx & Hf & Hm) Hpre Hfile Hfit Hmag Hsz Hph Hage Halive.
  unfold dcc_mon_do_file. rewrite Hpre. cbn [negb]. erewrite bind_Ok by by apply malloc_or_ok.
  set (fd := new_fd (c_fds (w_core w))).
  set (w1 := set_core (set_fds (<[fd := Fd (image t) [] None]> (c_fds (w_core w))) (w_core w)) w).
  assert (E1 : sys_open_read (dir ++ "/"%cs ++ name) w = (Ok (inl fd), w1)).
  { unfold sys_open_read, fs_call, next_fs, lookup_file, bind, gets. by rewrite Hf, Hfile. }
  rewrite (bind_Ok _ _ _ _ _ E1).
  assert (E2 : dcc_mon_kill_old mtime now fd (dir ++ "/"%cs ++ name) w1 = (Ok (), w1)).
  { unfold dcc_mon_kill_old, sys_fstat, fs_call, next_fs, bind, gets, w1. cbn. rewrite Hf. cbn. rewrite lookup_insert_eq. cbn.
    rewrite Z.gtb_ltb. unfold dcc_phase_max_age. destruct (Z.ltb_spec 60 (now - mtime (dir ++ "/"%char :: name))) as [Hold|]; [simpl in Hage; lia|done]. }
  rewrite (bind_Ok _ _ _ _ _ E2). cbv beta iota.
  set (w2 := set_core (set_fds (<[fd := Fd [] [] None]> (c_fds (w_core w))) (w_core w)) w).
  set (t' := Task _ _ _ _ _ _ _ 0).
  assert (E3 : dcc_mon_load_state kill0 fd w1 = (Ok t', w2)).
  { unfold dcc_mon_load_state. erewrite bind_Ok by by apply malloc_or_ok.
    rewrite (bind_Ok _ _ w1 t' w2).
    - destruct (Z.eqb_spec (curr_phase t') (phase_num DCC_PHASE_DONE)) as [|Hne]; [done|].
      unfold dcc_mon_check_orphans, bind. cbn. by destruct Halive as [?|[-> | ->]].
    - unfold dcc_mon_read_state, bind, sys_read, w1, next_xfer. cbn [w_core set_core c_fds set_fds].
      rewrite lookup_insert_eq. cbn [w_xfer set_core]. rewrite Hx. cbn beta iota.
      pose proof (image_length t Hfit) as Hl. cbn [fd_in]. rewrite take_ge, drop_ge by (rewrite Hl; lia).
      rewrite decide_True by done. rewrite task_of_image, Hmag, Hsz, !Z.eqb_refl by done. cbn [negb].
      unfold ret. f_equal; [f_equal; unfold t'; f_equal|].
      + done.
      + done.
      + rewrite Z.gtb_ltb. simpl phase_num. destruct (Z.ltb_spec 7 (curr_phase t)); [lia|done].
      + unfold w2. cbn. by rewrite insert_insert_eq. }
  unfold bind at 1, attempt at 1. rewrite E3. cbv beta iota.
  unfold bind, attempt, dcc_close, sys_close, fs_call, next_fs, bind, gets, w2. cbn. rewrite Hf. cbn. by rewrite lookup_insert_eq.
Qed.

(** C36. What a client notes, a monitor sees.  When a client that has found its
    state directory notes a phase (under any cooperative kernel), a monitor that
    reads the state file while the client lives and the file is fresh gets the
    client's pid, the phase, the slot, and the names of the source and of the
    host cut to the 127 characters their arrays hold. *)
Theorem state_seen (state : phase) (source_file host : cstr) (target : dcc_host) (dir : cstr) (c1 : conf) (n : noter) :
  is_Some (my_state (directed target n)) → fits (mine (directed target n)) →
  (0 ≤ n_pid n < 2 ^ 31)%Z → nul_free source_file → nul_free host →
  dcc_get_state_dir (n_conf n) = (Ok dir, c1) → io_ok (cf_w c1) →
  match c_files (w_core (cf_w c1)) !! state_file dir (n_pid n) with Some NDir | Some (NLink _) => False | _ => True end →
  (now - mtime (state_file dir (n_pid n)) ≤ 60)%Z → kill0 (n_pid n) = KillOk →
  ∃ n', note_state state (Some source_file) (Some host) target n = (Ok (), n') ∧
    ∀ w, quiet w → c_files (w_core w) = c_files (w_core (nw n')) →
      ∃ t, (dcc_mon_do_file mtime now kill0 dir (dcc_state_prefix ++ print_d (n_pid n)) w).1 = Ok (Some t) ∧
        cpid t = n_pid n ∧ curr_phase t = phase_num state ∧ ts_slot t = ts_slot (mine (directed target n)) ∧
        host_of t = take 127 host ∧ c_string (ts_file t) = take 127 (default [] (dcc_find_basename (Some source_file))).
Proof.
  intros Hs Hfit Hpid Hsrc Hhost Hdir Hok Hfile Hage Halive.
  destruct (note_state_writes state (Some source_file) (Some host) target dir c1 n Hs Hdir Hok Hfile)
    as (n' & E & Hmine & Hfiles).
  exists n'. split; [exact E|]. intros w Hq Hw.
  pose proof (noted_fits state (Some source_file) (Some host) (n_pid n) _ Hfit Hpid) as Hfit'.
  rewrite <- Hmine in Hfit'. pose proof Hfit as (_ & _ & _ & Lf & Lh & _).
  eexists. split; [apply do_file_image; try done|].
  - rewrite Hw, Hfiles. apply lookup_insert_eq.
  - by rewrite Hmine.
  - by rewrite Hmine.
  - rewrite Hmine. simpl. by destruct state.
  - rewrite Hmine. simpl. rewrite s32_id by lia. auto.
  - rewrite Hmine. unfold host_of, noted. cbn [cpid curr_phase ts_slot ts_host ts_file].
    split_and!; [done..|by apply terminate_strlcpy|].
    apply basename_copied; [done|done].
Qed.
End seen.

(** ** Witness *)

Definition ex_noter : noter :=
  Noter (Conf (World (Core ∅ {["/d"%cs := NDir; "/d/state"%cs := NDir]} [] 10 DCC_PHASE_STARTUP) [] [] [] [] 0 ∅)
           (Some "/d"%cs) None (Some "/d/state"%cs) (4, 8)%Z) 77 None zero_task zero_task.

Lemma state_seen_witness :
  ∃ n', note_state (Cfg := usual_config) DCC_PHASE_COMPILE (Some "src/x.c"%cs) (Some "alpha"%cs) DCC_REMOTE ex_noter = (Ok (), n') ∧
    ∀ w, quiet w → c_files (w_core w) = c_files (w_core (nw n')) →
      ∃ t, (dcc_mon_do_file (Cfg := usual_config) (λ _, 100%Z) 120 (λ _, KillOk) "/d/state"%cs "binstate_77"%cs w).1 = Ok (Some t) ∧
        cpid t = 77%Z ∧ curr_phase t = 5%Z ∧ host_of t = "alpha"%cs ∧ c_string (ts_file t) = "x.c"%cs.
Proof.
  destruct (state_seen (Cfg := usual_config) (λ _, 100%Z) 120 (λ _, KillOk) DCC_PHASE_COMPILE "src/x.c"%cs "alpha"%cs DCC_REMOTE
    "/d/state"%cs (n_conf ex_noter) ex_noter) as (n' & E & H).
  - by eexists.
  - unfold fits. vm_compute. split_and!; congruence.
  - vm_compute. split; congruence.
  - by apply (bool_decide_eq_true_1 _).
  - by apply (bool_decide_eq_true_1 _).
  - reflexivity.
  - constructor; [constructor..|reflexivity|by right].
  - reflexivity.
  - vm_compute. congruence.
  - reflexivity.
  - exists n'. split; [exact E|]. intros w Hq Hw. destruct (H w Hq Hw) as (t & Et & H1 & H2 & _ & H4 & H5).
    exists t. split; [exact Et|]. split; [exact H1|]. split; [exact H2|]. split; [exact H4|exact H5].
Defined.
