(* ===== verification/Auth.v ===== *)
(** * auth_common.c, auth_distcc.c, auth_distccd.c: authentication

    Built with GSS-API, a client and a server authenticate each other before
    the request: an exchange of one character, then tokens made by the
    library until both sides have a context, then the server's verdict_char.  The
    library is a parameter, [Gss]; its own state is passed along.

    The two timed waits of the client ([select] for one second) have their own
    list of decisions, [in_wait]; past its end the socket is ready. *)

From stdpp Require Import sorting.
From S2P Require Import Prelude CLib Util World Io Rpc Tempfile Bulk State.

Definition EXIT_GSSAPI_FAILED : Z := 119.

(** auth.h *)
Definition HANDSHAKE : ascii := "*".
Definition ACCESS : ascii := "y".
Definition NO_ACCESS : ascii := "n".

(** ** The library *)

Inductive gss_OID := GSS_C_NT_HOSTBASED_SERVICE | GSS_C_NT_USER_NAME.

(** The values RFC 2744 gives. *)
Definition GSS_S_COMPLETE : Z := 0.
Definition GSS_S_CONTINUE_NEEDED : Z := 1.
Definition GSS_ERROR (major : Z) : bool := negb (Z.land major 0xffff0000 =? 0)%Z.
Definition GSS_C_MUTUAL_FLAG : Z := 2.
Definition GSS_C_REPLAY_FLAG : Z := 4.
Definition GSS_C_SEQUENCE_FLAG : Z := 8.

(** What a call that builds a context leaves: status, context handle
    ([None] is [GSS_C_NO_CONTEXT]), output token, services, and the library. *)
Record gss_result (ctx lib : Type) := GssResult {
  gr_major : Z; gr_ctx : option ctx; gr_out : cstr; gr_flags : Z; gr_lib : lib
}.
Arguments GssResult {ctx lib}.
Arguments gr_major {ctx lib}.
Arguments gr_ctx {ctx lib}.
Arguments gr_out {ctx lib}.
Arguments gr_flags {ctx lib}.
Arguments gr_lib {ctx lib}.

Class Gss := {
  gss_ctx_id : Type;
  gss_name : Type;
  gss_cred : Type;
  gss_lib : Type;
  gss_import_name : cstr → gss_OID → option gss_name;
  gss_display_name : gss_name → option cstr;
  gss_acquire_cred : gss_name → option gss_cred;
  gss_init_sec_context :
    gss_lib → option gss_ctx_id → gss_name → Z → cstr → gss_result gss_ctx_id gss_lib;
  gss_accept_sec_context :
    gss_lib → option gss_ctx_id → option gss_cred → cstr → gss_result gss_ctx_id gss_lib * gss_name
}.

(** The addresses of sockets and the names of addresses. *)
Class PeerNames := {
  getpeername : nat → option cstr;
  gethostbyaddr : cstr → option cstr
}.

(** dopt.c *)
Class AuthOpts := {
  dcc_auth_enabled : bool;
  opt_blacklist_enabled : bool;
  opt_whitelist_enabled : bool;
  arg_list_file : cstr
}.

(** ** auth_common.c *)

(** Each requested service must be granted. *)
Definition dcc_gssapi_compare_flags (req_flags ret_flags : Z) : Z :=
  if has_flag req_flags GSS_C_MUTUAL_FLAG && negb (has_flag ret_flags GSS_C_MUTUAL_FLAG)
  then EXIT_GSSAPI_FAILED
  else if has_flag req_flags GSS_C_REPLAY_FLAG && negb (has_flag ret_flags GSS_C_REPLAY_FLAG)
  then EXIT_GSSAPI_FAILED
  else if has_flag req_flags GSS_C_SEQUENCE_FLAG && negb (has_flag ret_flags GSS_C_SEQUENCE_FLAG)
  then EXIT_GSSAPI_FAILED
  else 0.

Definition send_token (sd : nat) (token : cstr) : M world unit :=
  do! dcc_x_token_int sd "TLEN"%cs (Z.of_nat (length token));
  dcc_writex sd token.

(** [if (output_tok.length > 0) send_token(...)], as both loops have it. *)
Definition send_output (sd : nat) (output_tok : cstr) : M world unit :=
  if (0 <? length output_tok) then send_token sd output_tok else ret ().

Definition recv_token (sd : nat) : M world cstr :=
  let! length := dcc_r_token_int sd "TLEN"%cs in
  if (INT_MAX <? length)%Z || (length =? 0)%Z then fail EXIT_IO_ERROR
  else
    do! malloc_or EXIT_OUT_OF_MEMORY;
    dcc_readx sd (Z.to_nat length).

Section auth.
Context `{Gss, PeerNames, AuthOpts}.

(** ** auth_distcc.c *)

Record initiator := Initiator {
  in_w : world;
  in_ctx : option gss_ctx_id;      (** [distcc_ctx_handle] *)
  in_lib : gss_lib;
  in_wait : list sel
}.
Definition set_in_w (w : world) (s : initiator) : initiator := Initiator w (in_ctx s) (in_lib s) (in_wait s).
Definition set_in_ctx (c : option gss_ctx_id) (s : initiator) : initiator :=
  Initiator (in_w s) c (in_lib s) (in_wait s).
Definition set_in_wait (l : list sel) (s : initiator) : initiator :=
  Initiator (in_w s) (in_ctx s) (in_lib s) l.
Definition on_iw {A} : M world A → M initiator A := zoom in_w set_in_w.

(** [select] for one second: unlike the waits of io.c it is not tried again
    after an interruption. *)
Definition select_second (fd : nat) : M initiator unit := λ s,
  match in_wait s with
  | [] => (Ok (), s)
  | SelReady :: l => (Ok (), set_in_wait l s)
  | SelTimeout :: l => (Fail EXIT_TIMEOUT, set_in_wait l s)
  | SelErr _ :: l => (Fail EXIT_IO_ERROR, set_in_wait l s)
  end.

Definition dcc_gssapi_send_handshake (to_net_sd from_net_sd : nat) : M initiator unit :=
  do! on_iw (dcc_writex to_net_sd [HANDSHAKE]);
  do! select_second from_net_sd;
  let! auth := on_iw (dcc_readx from_net_sd 1) in
  if ceqb (cget auth 0) HANDSHAKE then ret () else fail EXIT_GSSAPI_FAILED.

Definition dcc_gssapi_recv_notification (sd : nat) : M initiator unit :=
  do! select_second sd;
  let! notification := on_iw (dcc_readx sd 1) in
  if ceqb (cget notification 0) ACCESS then ret () else fail EXIT_ACCESS_DENIED.

Definition call_init (name : gss_name) (req_flags : Z) (input_tok : cstr) :
    M initiator (gss_result gss_ctx_id gss_lib) := λ s,
  let r := gss_init_sec_context (in_lib s) (in_ctx s) name req_flags input_tok in
  (Ok r, Initiator (in_w s) (gr_ctx r) (gr_lib r) (in_wait s)).

(** The loop of [dcc_gssapi_establish_secure_context]; gives [ret_flags]. *)
Fixpoint init_loop (fuel to_net_sd from_net_sd : nat) (name : gss_name) (req_flags : Z)
    (input_tok : cstr) : M initiator Z :=
  match fuel with
  | 0 => ub
  | S fuel =>
      let! r := call_init name req_flags input_tok in
      if GSS_ERROR (gr_major r) then fail EXIT_GSSAPI_FAILED
      else
        do! on_iw (send_output to_net_sd (gr_out r));
        let! input_tok :=
          (if (gr_major r =? GSS_S_CONTINUE_NEEDED)%Z then on_iw (recv_token from_net_sd) else ret []) in
        if (gr_major r =? GSS_S_COMPLETE)%Z then ret (gr_flags r)
        else init_loop fuel to_net_sd from_net_sd name req_flags input_tok
  end.

(** The name the server must prove: from the environment, or the host's. *)
Definition server_principal (princ_env_val : option cstr) (full_name : cstr) : cstr * gss_OID :=
  match princ_env_val with
  | Some p => (p ++ "@"%cs ++ full_name, GSS_C_NT_HOSTBASED_SERVICE)
  | None => ("host/"%cs ++ full_name, GSS_C_NT_USER_NAME)
  end.

Definition dcc_gssapi_establish_secure_context (fuel to_net_sd from_net_sd : nat) (req_flags : Z) :
    M initiator Z :=
  match getpeername to_net_sd with
  | None => fail EXIT_CONNECT_FAILED
  | Some addr =>
      match gethostbyaddr addr with
      | None => fail EXIT_CONNECT_FAILED
      | Some h_name =>
          do! on_iw (malloc_or EXIT_OUT_OF_MEMORY);
          let! princ_env_val := on_iw (getenv "DISTCC_PRINCIPAL"%cs) in
          do! on_iw (malloc_or EXIT_OUT_OF_MEMORY);
          let '(ext_princ_name, name_type) := server_principal princ_env_val h_name in
          match gss_import_name ext_princ_name name_type with
          | None => fail EXIT_GSSAPI_FAILED
          | Some int_serv_name =>
              do! dcc_gssapi_send_handshake to_net_sd from_net_sd;
              init_loop fuel to_net_sd from_net_sd int_serv_name req_flags []
          end
      end
  end.

Definition delete_in_ctx : M initiator unit := modify (set_in_ctx None).

Definition required_flags : Z :=
  Z.lor (Z.lor GSS_C_MUTUAL_FLAG GSS_C_REPLAY_FLAG) GSS_C_SEQUENCE_FLAG.

Definition dcc_gssapi_perform_requested_security (fuel to_net_sd from_net_sd : nat) : M initiator unit :=
  let! ret_flags := dcc_gssapi_establish_secure_context fuel to_net_sd from_net_sd required_flags in
  match dcc_gssapi_compare_flags required_flags ret_flags with
  | 0%Z =>
      let! r := attempt (dcc_gssapi_recv_notification from_net_sd) in
      match r with
      | inl _ => ret ()
      | inr c => do! delete_in_ctx; fail c
      end
  | c => do! delete_in_ctx; fail c
  end.

(** ** auth_distccd.c *)

Record acceptor := Acceptor {
  ac_w : world;
  ac_ctx : option gss_ctx_id;      (** [distccd_ctx_handle] *)
  ac_lib : gss_lib;
  ac_creds : option gss_cred;
  ac_list : list cstr;
  ac_count : nat                   (** [list_count] *)
}.
Definition set_ac_w (w : world) (s : acceptor) : acceptor :=
  Acceptor w (ac_ctx s) (ac_lib s) (ac_creds s) (ac_list s) (ac_count s).
Definition set_ac_ctx (c : option gss_ctx_id) (s : acceptor) : acceptor :=
  Acceptor (ac_w s) c (ac_lib s) (ac_creds s) (ac_list s) (ac_count s).
Definition set_ac_creds (c : option gss_cred) (s : acceptor) : acceptor :=
  Acceptor (ac_w s) (ac_ctx s) (ac_lib s) c (ac_list s) (ac_count s).
Definition set_ac_list (l : list cstr) (s : acceptor) : acceptor :=
  Acceptor (ac_w s) (ac_ctx s) (ac_lib s) (ac_creds s) l (ac_count s).
Definition set_ac_count (n : nat) (s : acceptor) : acceptor :=
  Acceptor (ac_w s) (ac_ctx s) (ac_lib s) (ac_creds s) (ac_list s) n.
Definition on_aw {A} : M world A → M acceptor A := zoom ac_w set_ac_w.

Definition dcc_gssapi_recv_handshake (from_net_sd to_net_sd : nat) : M acceptor unit :=
  let! auth := on_aw (dcc_readx from_net_sd 1) in
  if ceqb (cget auth 0) HANDSHAKE then on_aw (dcc_writex to_net_sd auth)
  else fail EXIT_GSSAPI_FAILED.

Definition call_accept (input_tok : cstr) :
    M acceptor (gss_result gss_ctx_id gss_lib * gss_name) := λ s,
  let r := gss_accept_sec_context (ac_lib s) (ac_ctx s) (ac_creds s) input_tok in
  (Ok r, Acceptor (ac_w s) (gr_ctx r.1) (gr_lib r.1) (ac_creds s) (ac_list s) (ac_count s)).

(** The loop of [dcc_gssapi_accept_secure_context]; gives [ret_flags] and
    the client's name. *)
Fixpoint accept_rounds (fuel to_net_sd from_net_sd : nat) : M acceptor (Z * gss_name) :=
  match fuel with
  | 0 => ub
  | S fuel =>
      let! input_tok := on_aw (recv_token from_net_sd) in
      let! (r, int_client_name) := call_accept input_tok in
      if GSS_ERROR (gr_major r) then fail EXIT_GSSAPI_FAILED
      else
        do! on_aw (send_output to_net_sd (gr_out r));
        if (gr_major r =? GSS_S_COMPLETE)%Z then ret (gr_flags r, int_client_name)
        else accept_rounds fuel to_net_sd from_net_sd
  end.

(** Every round takes a token off the connection. *)
Definition accept_fuel (from_net_sd : nat) (s : acceptor) : nat := S (length (stream from_net_sd (ac_w s))).

(** A name that cannot be printed leaves a null pointer for [strlen]. *)
Definition dcc_gssapi_accept_secure_context (to_net_sd from_net_sd : nat) : M acceptor (Z * cstr) :=
  do! dcc_gssapi_recv_handshake from_net_sd to_net_sd;
  let! (ret_flags, int_client_name) :=
    (λ s, accept_rounds (accept_fuel from_net_sd s) to_net_sd from_net_sd s) in
  match gss_display_name int_client_name with
  | None => ub
  | Some name =>
      do! on_aw (malloc_or EXIT_OUT_OF_MEMORY);
      ret (ret_flags, name)
  end.

Definition KEY_NOT_FOUND : Z := -1.

(** [bottom] and [top] are of type [int]: their sum must not exceed it. *)
Fixpoint bin_search_loop (fuel : nat) (key : cstr) (list : list cstr) (bottom top : Z) : outcome Z :=
  match fuel with
  | 0 => Undef
  | S fuel =>
      if (bottom <=? top)%Z then
        if (INT_MAX <? bottom + top)%Z then Undef
        else
          let middle := Z.quot (bottom + top) 2 in
          match list !! Z.to_nat middle with
          | None => Undef
          | Some entry =>
              match strcmp key entry with
              | Lt => bin_search_loop fuel key list bottom (middle - 1)
              | Gt => bin_search_loop fuel key list (middle + 1) top
              | Eq => Ok middle
              end
          end
      else Ok KEY_NOT_FOUND
  end.

Definition dcc_gssapi_bin_search (key : cstr) (s : acceptor) : outcome Z :=
  bin_search_loop (S (ac_count s)) key (ac_list s) 0 (Z.of_nat (ac_count s) - 1).

Definition dcc_gssapi_notify_client (sd : nat) (status : ascii) : M acceptor unit :=
  on_aw (dcc_writex sd [status]).

(** The part of a principal before the realm. *)
Definition short_name (principal : cstr) : cstr :=
  match strchr principal "@" with Some pos => take pos principal | None => principal end.

Definition dcc_gssapi_check_list (principal : cstr) (sd : nat) : M acceptor unit :=
  let principal := short_name principal in
  let! location := (λ s, (dcc_gssapi_bin_search principal s, s)) in
  if opt_blacklist_enabled then
    if (0 <=? location)%Z then
      do! attempt (dcc_gssapi_notify_client sd NO_ACCESS);
      fail EXIT_GSSAPI_FAILED
    else dcc_gssapi_notify_client sd ACCESS
  else
    if (0 <=? location)%Z then dcc_gssapi_notify_client sd ACCESS
    else
      do! attempt (dcc_gssapi_notify_client sd NO_ACCESS);
      fail EXIT_GSSAPI_FAILED.

Definition delete_ac_ctx : M acceptor unit := modify (set_ac_ctx None).

Definition dcc_gssapi_check_client (to_net_sd from_net_sd : nat) : M acceptor unit :=
  let! (ret_flags, principal) := dcc_gssapi_accept_secure_context to_net_sd from_net_sd in
  match dcc_gssapi_compare_flags required_flags ret_flags with
  | 0%Z =>
      let! r := attempt (if opt_blacklist_enabled || opt_whitelist_enabled
                         then dcc_gssapi_check_list principal to_net_sd
                         else dcc_gssapi_notify_client to_net_sd ACCESS) in
      match r with
      | inl _ => ret ()
      | inr c => do! delete_ac_ctx; fail c
      end
  | c => do! delete_ac_ctx; fail c
  end.

(** The lines [getline] gives, each with its end. *)
Fixpoint text_lines (line text : cstr) : list cstr :=
  match text with
  | [] => match line with [] => [] | _ => [line] end
  | c :: text =>
      if ceqb c "010" then (line ++ [c]) :: text_lines [] text else text_lines (line ++ [c]) text
  end.

(** What is kept of a line: no newline, and nothing behind a NUL. *)
Definition stored_line (line : cstr) : cstr :=
  let line := c_string line in
  match strchr line "010" with Some pos => take pos line | None => line end.

Fixpoint store_lines (lines : list cstr) : M acceptor (list cstr) :=
  match lines with
  | [] => ret []
  | line :: lines =>
      do! on_aw (malloc_or EXIT_OUT_OF_MEMORY);
      let! rest := store_lines lines in
      ret (stored_line line :: rest)
  end.

(** [qsort] leaves a sorted permutation. *)
Definition strcmp_le (a b : cstr) : Prop := strcmp a b ≠ Gt.
#[export] Instance strcmp_le_dec a b : Decision (strcmp_le a b).
Proof. unfold strcmp_le. apply _. Defined.

(** Read on to the end of the file. *)
Definition read_all (fd : nat) : M world cstr :=
  let! text := gets (stream fd) in
  do! modify_core (λ c, set_fds (alter (λ d, Fd [] (fd_out d) (fd_file d)) fd (c_fds c)) c);
  ret text.

(** [fseek(file, 0, SEEK_SET)] on a file that held [text]. *)
Definition rewind (fd : nat) (text : cstr) : M world (unit + errno) :=
  fs_call (do! modify_core (λ c, set_fds (alter (λ d, Fd text (fd_out d) (fd_file d)) fd (c_fds c)) c);
           ret (inl ())).

Definition dcc_gssapi_obtain_list : M acceptor unit :=
  let! file := on_aw (sys_open_read arg_list_file) in
  match file with
  | inr _ => fail EXIT_GSSAPI_FAILED
  | inl file =>
      let! text := on_aw (read_all file) in
      do! modify (λ s, set_ac_count (ac_count s + length (text_lines [] text)) s);
      let! r := on_aw (rewind file text) in
      let! file :=
        (match r with
         | inl _ => ret file
         | inr _ =>
             let! _ := on_aw (sys_close file) in
             let! again := on_aw (sys_open_read arg_list_file) in
             match again with inl file => ret file | inr _ => fail EXIT_GSSAPI_FAILED end
         end) in
      do! on_aw (malloc_or EXIT_OUT_OF_MEMORY);
      let! text := on_aw (read_all file) in
      let! lines := store_lines (text_lines [] text) in
      do! modify (set_ac_list (merge_sort strcmp_le lines));
      let! _ := on_aw (sys_close file) in
      ret ()
  end.

Definition dcc_gssapi_free_list : M acceptor unit := modify (set_ac_list []).

Definition dcc_gssapi_acquire_credentials : M acceptor unit :=
  let! princ_env_val := on_aw (getenv "DISTCCD_PRINCIPAL"%cs) in
  match princ_env_val with
  | None => fail EXIT_GSSAPI_FAILED
  | Some p =>
      let name_type := if decide ("@"%char ∈ p) then GSS_C_NT_HOSTBASED_SERVICE else GSS_C_NT_USER_NAME in
      match gss_import_name p name_type with
      | None => fail EXIT_GSSAPI_FAILED
      | Some int_princ_name =>
          match gss_acquire_cred int_princ_name with
          | None => fail EXIT_GSSAPI_FAILED
          | Some c => modify (set_ac_creds (Some c))
          end
      end
  end.

Definition dcc_gssapi_release_credentials : M acceptor unit := modify (set_ac_creds None).

(** ** The callers: daemon.c, serve.c, remote.c *)

(** What the daemon does before it serves. *)
Definition daemon_auth : M acceptor unit :=
  if dcc_auth_enabled then
    do! dcc_gssapi_acquire_credentials;
    if opt_blacklist_enabled || opt_whitelist_enabled then dcc_gssapi_obtain_list else ret ()
  else ret ().

(** The start of [dcc_service_job], which names the descriptors the other
    way round. *)
Definition service_auth (in_fd out_fd : nat) : M acceptor unit :=
  if dcc_auth_enabled then
    do! dcc_gssapi_check_client in_fd out_fd;
    delete_ac_ctx
  else ret ().

(** The start of [dcc_compile_remote]. *)
Definition remote_auth (authenticate : bool) (fuel to_net_fd from_net_fd : nat) : M initiator unit :=
  if authenticate then
    do! dcc_gssapi_perform_requested_security fuel to_net_fd from_net_fd;
    delete_in_ctx
  else ret ().
End auth.

(** ** Services *)

(** The connection is accepted only when all three services were granted. *)
Lemma compare_flags_required (ret_flags : Z) :
  dcc_gssapi_compare_flags required_flags ret_flags =
    if has_flag ret_flags GSS_C_MUTUAL_FLAG && has_flag ret_flags GSS_C_REPLAY_FLAG &&
       has_flag ret_flags GSS_C_SEQUENCE_FLAG
    then 0%Z else EXIT_GSSAPI_FAILED.
Proof.
  unfold dcc_gssapi_compare_flags.
  change (has_flag required_flags _) with true at 1. change (has_flag required_flags GSS_C_REPLAY_FLAG) with true.
  change (has_flag required_flags GSS_C_SEQUENCE_FLAG) with true. cbn [andb].
  by destruct (has_flag ret_flags GSS_C_MUTUAL_FLAG), (has_flag ret_flags GSS_C_REPLAY_FLAG),
    (has_flag ret_flags GSS_C_SEQUENCE_FLAG).
Qed.

(** ** The list of principals *)

Lemma strcmp_refl a : strcmp a a = Eq.
Proof. induction a as [|x a IH]; simpl; [done|]. by rewrite Z.compare_refl. Qed.

#[export] Instance strcmp_le_trans : Transitive strcmp_le.
Proof.
  intros a b c Hab Hbc. unfold strcmp_le in *.
  destruct (strcmp a b) eqn:E1; [apply strcmp_eq in E1 as ->; done| |done].
  destruct (strcmp b c) eqn:E2; [apply strcmp_eq in E2 as <-; by rewrite E1| |done].
  by rewrite (strcmp_lt_trans a b c).
Qed.

#[export] Instance strcmp_le_total : Total strcmp_le.
Proof.
  intros a b. unfold strcmp_le. rewrite (strcmp_opp a b). destruct (strcmp a b); simpl; auto.
Qed.

Lemma StronglySorted_lookup {A} (R : A → A → Prop) l i j a b :
  StronglySorted R l → l !! i = Some a → l !! j = Some b → i < j → R a b.
Proof.
  intros Hs. revert i j. induction Hs as [|x l _ IH Hx]; intros [|i] [|j]; simpl; try done; try lia.
  - intros [= <-] Hb _. rewrite Forall_forall in Hx. apply Hx. by eapply list_elem_of_lookup_2.
  - intros. apply (IH i j); auto with lia.
Qed.

(** An entry before the key, or behind it, leaves half of the range. *)
Lemma bin_search_half key l m entry i :
  StronglySorted strcmp_le l → l !! m = Some entry → l !! i = Some key →
  match strcmp key entry with Lt => i < m | Eq => True | Gt => m < i end.
Proof.
  intros Hs Hm Hi. destruct (strcmp key entry) eqn:E; [done|..].
  - destruct (decide (i < m)) as [|Hn]; [done|]. exfalso.
    destruct (decide (i = m)) as [->|]; [simplify_eq; by rewrite strcmp_refl in E|].
    apply (StronglySorted_lookup _ l m i entry key Hs Hm Hi); [lia|]. by rewrite strcmp_opp, E.
  - destruct (decide (m < i)) as [|Hn]; [done|]. exfalso.
    destruct (decide (i = m)) as [->|]; [simplify_eq; by rewrite strcmp_refl in E|].
    apply (StronglySorted_lookup _ l i m key entry Hs Hi Hm); [lia|]. done.
Qed.

Lemma bin_search_loop_spec fuel key l bottom top :
  StronglySorted strcmp_le l → (Z.of_nat (length l) ≤ 2 ^ 30)%Z →
  (0 ≤ bottom ≤ top + 1)%Z → (top < Z.of_nat (length l))%Z → (top - bottom + 1 < Z.of_nat fuel)%Z →
  (∀ i, l !! i = Some key → (bottom ≤ Z.of_nat i ≤ top)%Z) →
  ∃ r, bin_search_loop fuel key l bottom top = Ok r ∧
    (if decide (key ∈ l) then (0 ≤ r)%Z ∧ l !! Z.to_nat r = Some key else r = KEY_NOT_FOUND).
Proof.
  intros Hs Hlen. revert bottom top.
  induction fuel as [|fuel IH]; intros bottom top Hb Ht Hf Hin.
  all: assert ((top < bottom)%Z → key ∉ l) as Hno
    by (intros Hlt [i Hi]%list_elem_of_lookup; specialize (Hin i Hi); lia).
  all: cbn [bin_search_loop].
  { lia. }
  destruct (Z.leb_spec bottom top) as [Hle|Hlt].
  2:{ exists KEY_NOT_FOUND. split; [done|]. by rewrite decide_False by auto. }
  destruct (Z.ltb_spec INT_MAX (bottom + top)) as [Hbig|_]; [unfold INT_MAX in Hbig; lia|].
  pose proof (Z.quot_mul_le (bottom + top) 2) as Hq.
  assert (bottom ≤ Z.quot (bottom + top) 2 ≤ top)%Z as Hm by (Z.to_euclidean_division_equations; lia).
  set (m := Z.quot (bottom + top) 2) in *. clearbody m. clear Hq.
  destruct (l !! Z.to_nat m) as [entry|] eqn:Em; [|apply lookup_ge_None in Em; lia].
  pose proof (λ i, bin_search_half key l (Z.to_nat m) entry i Hs Em) as Hhalf.
  destruct (strcmp key entry) eqn:E.
  - apply strcmp_eq in E as <-. exists m. split; [done|].
    rewrite decide_True by (by eapply list_elem_of_lookup_2). split; [lia|done].
  - apply IH; [lia..|]. intros i Hi. specialize (Hhalf i Hi). specialize (Hin i Hi). lia.
  - apply IH; [lia..|]. intros i Hi. specialize (Hhalf i Hi). specialize (Hin i Hi). lia.
Qed.

(** Who is let in, given the lines of the list. *)
Definition list_admits `{AuthOpts} (lines : list cstr) (principal : cstr) : bool :=
  if opt_blacklist_enabled then bool_decide (short_name principal ∉ lines)
  else if opt_whitelist_enabled then bool_decide (short_name principal ∈ lines)
  else true.

Definition list_in_use `{AuthOpts} : bool := opt_blacklist_enabled || opt_whitelist_enabled.

Section checks.
Context `{Gss, PeerNames, AuthOpts}.

(** [bin_search] on the global list decides membership. *)
Lemma bin_search_spec (key : cstr) (s : acceptor) :
  StronglySorted strcmp_le (ac_list s) → ac_count s = length (ac_list s) →
  (Z.of_nat (ac_count s) ≤ 2 ^ 30)%Z →
  ∃ r, dcc_gssapi_bin_search key s = Ok r ∧ (0 <=? r)%Z = bool_decide (key ∈ ac_list s).
Proof.
  intros Hs Hc Hl. unfold dcc_gssapi_bin_search. rewrite Hc in *.
  destruct (bin_search_loop_spec (S (length (ac_list s))) key (ac_list s) 0
    (Z.of_nat (length (ac_list s)) - 1)) as (r & E & Hr); [done|done|lia..| |].
  { intros i Hi. apply lookup_lt_Some in Hi. lia. }
  exists r. split; [done|]. destruct (decide (key ∈ ac_list s)) as [Hk|Hk].
  - rewrite bool_decide_true by done. apply Z.leb_le. lia.
  - rewrite bool_decide_false by done. by subst r.
Qed.

(** The list the daemon has read: sorted, counted, and with these lines. *)
Record list_ok (lines : list cstr) (s : acceptor) : Prop := ListOk {
  lo_sorted : StronglySorted strcmp_le (ac_list s);
  lo_count : ac_count s = length (ac_list s);
  lo_bound : (Z.of_nat (ac_count s) ≤ 2 ^ 30)%Z;
  lo_perm : ac_list s ≡ₚ lines
}.

(** [m] on the daemon's state does what it does on the world. *)
Lemma on_aw_run {A} (m : M world A) o s w' :
  m (ac_w s) = (o, w') → on_aw m s = (o, set_ac_w w' s).
Proof. unfold on_aw, zoom. by intros ->. Qed.

Lemma list_ok_ext lines s s' :
  ac_list s' = ac_list s → ac_count s' = ac_count s → list_ok lines s → list_ok lines s'.
Proof. intros El Ec []. by constructor; rewrite ?El, ?Ec. Qed.

(** ** One socket *)

(** The connection [fd] with [inn] still to be read and [out] written. *)
Definition chat (fd : nat) (inn out : cstr) (c : core) : core :=
  set_fds (<[fd := Fd inn out None]> (c_fds c)) c.

Lemma chat_lookup fd inn out c : c_fds (chat fd inn out c) !! fd = Some (Fd inn out None).
Proof. apply lookup_insert_eq. Qed.

Lemma sends_chat tx b fd inn out c :
  sends tx b → runs (tx fd) (Ok ()) (chat fd inn out c) (chat fd inn (out ++ b) c).
Proof.
  intros Hs. pose proof (Hs fd _ _ (chat_lookup fd inn out c)) as Hr.
  replace (chat fd inn (out ++ b) c) with (put fd (Fd inn out None) b (chat fd inn out c)); [done|].
  unfold put, chat, set_files, set_fds. simpl. by rewrite insert_insert_eq.
Qed.

Lemma reads_chat {A} (rx : nat → M world A) b a fd rest out c :
  reads rx b a → runs (rx fd) (Ok a) (chat fd (b ++ rest) out c) (chat fd rest out c).
Proof.
  intros Hr. pose proof (Hr fd _ _ rest (chat_lookup fd (b ++ rest) out c) eq_refl) as H'.
  replace (chat fd rest out c) with (taken fd (Fd (b ++ rest) out None) rest (chat fd (b ++ rest) out c));
    [done|].
  unfold taken, chat, set_fds. simpl. by rewrite insert_insert_eq.
Qed.

Lemma writex_sends bs : sends (λ fd, dcc_writex fd bs) bs.
Proof. intros fd d c Hd. by apply writex_runs. Qed.

(** ** Tokens *)

(** A token the receiver takes. *)
Definition token_ok (t : cstr) : Prop := 0 < length t ∧ (Z.of_nat (length t) ≤ INT_MAX)%Z.
Definition token_bytes (t : cstr) : cstr := string_bytes "TLEN"%cs t.

Lemma send_token_sends t : token_ok t → sends (λ fd, send_token fd t) (token_bytes t).
Proof.
  intros [_ Hl]. unfold token_bytes, string_bytes. rewrite app_assoc.
  apply (sends_bind _ (λ fd, dcc_writex fd t)); [|apply writex_sends].
  pose proof (x_token_int_sends "TLEN"%cs (Z.of_nat (length t)) eq_refl) as Hs.
  rewrite u32_id in Hs by (unfold INT_MAX in Hl; lia). exact Hs.
Qed.

Lemma recv_token_reads t : token_ok t → reads recv_token (token_bytes t) t.
Proof.
  intros [Hp Hl]. unfold token_bytes, string_bytes. rewrite app_assoc. unfold INT_MAX in Hl.
  apply (reads_bind (λ fd, dcc_r_token_int fd "TLEN"%cs)
    (λ l fd, if (INT_MAX <? l)%Z || (l =? 0)%Z then fail EXIT_IO_ERROR
             else do! malloc_or EXIT_OUT_OF_MEMORY; dcc_readx fd (Z.to_nat l)) _ _ (Z.of_nat (length t))).
  - apply r_token_int_reads; [done|lia].
  - intros fd d c rest Hd Hin. unfold INT_MAX.
    rewrite (proj2 (Z.ltb_ge _ _)), (proj2 (Z.eqb_neq _ _)) by lia. cbn [orb].
    rewrite Nat2Z.id. eapply runs_bind; [apply runs_malloc_or|]. by apply readx_runs.
Qed.

(** ** The two sides at the socket *)

Definition in_at (fd : nat) (inn out : cstr) (c : core) (s : initiator) : Prop :=
  w_core (in_w s) = chat fd inn out c ∧ io_ok (in_w s).
Definition ac_at (fd : nat) (inn out : cstr) (c : core) (s : acceptor) : Prop :=
  w_core (ac_w s) = chat fd inn out c ∧ io_ok (ac_w s).

Lemma on_iw_runs {A} (m : M world A) o fd inn out inn' out' c s :
  runs m o (chat fd inn out c) (chat fd inn' out' c) → in_at fd inn out c s →
  ∃ w', on_iw m s = (o, set_in_w w' s) ∧ in_at fd inn' out' c (set_in_w w' s) ∧ w_env w' = w_env (in_w s).
Proof.
  intros Hr [Hc Hw]. destruct (Hr _ Hc Hw) as (w' & E & Hc' & Hw' & He). exists w'.
  unfold on_iw, zoom. by rewrite E.
Qed.

Lemma on_aw_runs {A} (m : M world A) o fd inn out inn' out' c s :
  runs m o (chat fd inn out c) (chat fd inn' out' c) → ac_at fd inn out c s →
  ∃ w', on_aw m s = (o, set_ac_w w' s) ∧ ac_at fd inn' out' c (set_ac_w w' s).
Proof.
  intros Hr [Hc Hw]. destruct (Hr _ Hc Hw) as (w' & E & Hc' & Hw' & _). exists w'.
  by rewrite (on_aw_run _ _ _ _ E).
Qed.

(** A token goes out unless it is empty. *)
Definition out_bytes (t : cstr) : cstr := match t with [] => [] | _ => token_bytes t end.

(** *** The library's half of the exchange *)

(** The two libraries talking to each other without a network: from the
    client's and the server's state and the client's input token, the tokens
    each makes, the services each reports, and the name the server learns.
    The client speaks first; the last word is the client's or the server's. *)
Inductive exchange (name : gss_name) (req : Z) (creds : option gss_cred) :
    gss_lib → option gss_ctx_id → cstr → gss_lib → option gss_ctx_id →
    list cstr → list cstr → Z → Z → gss_name → Prop :=
| ex_client_last li ci inp la ca r a n :
    gss_init_sec_context li ci name req inp = r → gr_major r = GSS_S_COMPLETE → token_ok (gr_out r) →
    gss_accept_sec_context la ca creds (gr_out r) = (a, n) → gr_major a = GSS_S_COMPLETE → gr_out a = [] →
    exchange name req creds li ci inp la ca [gr_out r] [] (gr_flags r) (gr_flags a) n
| ex_server_last li ci inp la ca r a n r' :
    gss_init_sec_context li ci name req inp = r → gr_major r = GSS_S_CONTINUE_NEEDED → token_ok (gr_out r) →
    gss_accept_sec_context la ca creds (gr_out r) = (a, n) → gr_major a = GSS_S_COMPLETE → token_ok (gr_out a) →
    gss_init_sec_context (gr_lib r) (gr_ctx r) name req (gr_out a) = r' →
    gr_major r' = GSS_S_COMPLETE → gr_out r' = [] →
    exchange name req creds li ci inp la ca [gr_out r] [gr_out a] (gr_flags r') (gr_flags a) n
| ex_more li ci inp la ca r a n ts us fi fa n' :
    gss_init_sec_context li ci name req inp = r → gr_major r = GSS_S_CONTINUE_NEEDED → token_ok (gr_out r) →
    gss_accept_sec_context la ca creds (gr_out r) = (a, n) → gr_major a = GSS_S_CONTINUE_NEEDED →
    token_ok (gr_out a) →
    exchange name req creds (gr_lib r) (gr_ctx r) (gr_out a) (gr_lib a) (gr_ctx a) ts us fi fa n' →
    exchange name req creds li ci inp la ca (gr_out r :: ts) (gr_out a :: us) fi fa n'.

Lemma send_output_sends t : t = [] ∨ token_ok t → sends (λ fd, send_output fd t) (out_bytes t).
Proof.
  unfold send_output. intros [-> |Ht]; [apply sends_nil|].
  pose proof (send_token_sends t Ht) as Hs. destruct Ht as [Hp _].
  rewrite (proj2 (Nat.ltb_lt _ _)) by done. destruct t; [simpl in Hp; lia|done].
Qed.

(** One round of the client that sends a token. *)
Lemma init_round fuel fd name req inp inn out c s r :
  gss_init_sec_context (in_lib s) (in_ctx s) name req inp = r →
  (gr_major r = GSS_S_COMPLETE ∨ gr_major r = GSS_S_CONTINUE_NEEDED) →
  gr_out r = [] ∨ token_ok (gr_out r) → in_at fd inn out c s →
  ∃ s', init_loop (S fuel) fd fd name req inp s =
      (if decide (gr_major r = GSS_S_COMPLETE) then (Ok (gr_flags r), s')
       else (let! t := on_iw (recv_token fd) in init_loop fuel fd fd name req t) s') ∧
    in_at fd inn (out ++ out_bytes (gr_out r)) c s' ∧
    in_lib s' = gr_lib r ∧ in_ctx s' = gr_ctx r ∧ in_wait s' = in_wait s.
Proof.
  intros Er Hm Ho Hs. cbn [init_loop]. unfold call_init, bind at 1. rewrite Er. cbn beta iota zeta.
  assert (GSS_ERROR (gr_major r) = false) as -> by (by destruct Hm as [-> | ->]).
  set (s1 := Initiator _ _ _ _).
  assert (in_at fd inn out c s1) as Hs1 by done.
  destruct (on_iw_runs _ _ _ _ _ _ _ _ _
    (sends_chat _ _ fd inn out c (send_output_sends (gr_out r) Ho)) Hs1) as (w' & E & Hs2 & He).
  exists (set_in_w w' s1). split; [|done]. rewrite (bind_Ok _ _ _ _ _ E).
  destruct Hm as [-> | ->]; simpl; [done|]. unfold bind.
  by destruct (on_iw (recv_token fd) (set_in_w w' s1)) as [[] ?].
Qed.

(** The bytes of a list of tokens. *)
Definition tokens_bytes (ts : list cstr) : cstr := ts ≫= token_bytes.

Lemma out_bytes_ok t : token_ok t → out_bytes t = token_bytes t.
Proof. intros []. destruct t; [simpl in *; lia|done]. Qed.

(** The client takes a token and goes on. *)
Lemma init_recv fuel fd name req t inn out c s :
  token_ok t → in_at fd (token_bytes t ++ inn) out c s →
  ∃ w', (let! t := on_iw (recv_token fd) in init_loop fuel fd fd name req t) s =
      init_loop fuel fd fd name req t (set_in_w w' s) ∧ in_at fd inn out c (set_in_w w' s).
Proof.
  intros Ht Hs. destruct (on_iw_runs _ _ _ _ _ _ _ _ _
    (reads_chat _ _ _ fd inn out c (recv_token_reads t Ht)) Hs) as (w' & E & Hs' & _).
  exists w'. by rewrite (bind_Ok _ _ _ _ _ E).
Qed.

Lemma init_loop_exchange name req creds li ci inp la ca ts us fi fa n :
  exchange name req creds li ci inp la ca ts us fi fa n →
  ∀ fuel fd rest out c s, length ts < fuel → in_lib s = li → in_ctx s = ci →
    in_at fd (tokens_bytes us ++ rest) out c s →
    ∃ s', init_loop fuel fd fd name req inp s = (Ok fi, s') ∧
      in_at fd rest (out ++ tokens_bytes ts) c s' ∧ in_wait s' = in_wait s.
Proof.
  unfold tokens_bytes.
  induction 1 as [li ci inp la ca r a n Er Mr Tr Ea Ma Ta|li ci inp la ca r a n r' Er Mr Tr Ea Ma Ta Er' Mr' Tr'
    |li ci inp la ca r a n ts us fi fa n' Er Mr Tr Ea Ma Ta Hex IH];
    intros fuel fd rest out c s Hf <- <- Hs; (destruct fuel as [|fuel]; [simpl in Hf; lia|]).
  - cbn [mbind list_bind] in *. rewrite app_nil_r.
    destruct (init_round fuel fd name req inp rest out c s r Er) as (s' & -> & Hs' & _ & _ & Hw);
      [by left|by right|exact Hs|].
    rewrite decide_True by done. exists s'. by rewrite out_bytes_ok in Hs'.
  - cbn [mbind list_bind] in *. rewrite app_nil_r in *.
    destruct (init_round fuel fd name req inp (token_bytes (gr_out a) ++ rest) out c s r Er) as (s1 & -> & Hs1 & Hl & Hc & Hw1);
      [by right|by right|exact Hs|].
    rewrite decide_False, out_bytes_ok in * by (done || by rewrite Mr).
    destruct (init_recv fuel fd name req (gr_out a) rest _ c s1 Ta Hs1) as (w' & -> & Hs2).
    destruct fuel as [|fuel]; [simpl in Hf; lia|].
    destruct (init_round fuel fd name req (gr_out a) rest (out ++ token_bytes (gr_out r)) c (set_in_w w' s1) r') as (s3 & -> & Hs3 & _ & _ & Hw3);
      [by rewrite <- Er', <- Hl, <- Hc|by left|by left|exact Hs2|].
    rewrite decide_True by done. exists s3. rewrite Tr' in Hs3. cbn [out_bytes] in Hs3. rewrite app_nil_r in Hs3.
    split; [done|]. split; [done|]. by rewrite Hw3.
  - cbn [mbind list_bind] in *. rewrite <- app_assoc in Hs.
    destruct (init_round fuel fd name req inp (token_bytes (gr_out a) ++ (us ≫= token_bytes) ++ rest) out c s r Er) as (s1 & -> & Hs1 & Hl & Hc & Hw1);
      [by right|by right|exact Hs|].
    rewrite decide_False, out_bytes_ok in * by (done || by rewrite Mr).
    destruct (init_recv fuel fd name req (gr_out a) _ _ c s1 Ta Hs1) as (w' & -> & Hs2).
    destruct (IH fuel fd rest (out ++ token_bytes (gr_out r)) c (set_in_w w' s1)) as (s3 & -> & Hs3 & Hw3);
      [simpl in Hf; lia|done|done|exact Hs2|].
    exists s3. rewrite app_assoc. split; [done|]. split; [done|]. by rewrite Hw3.
Qed.

(** One round of the server. *)
Lemma accept_round fuel fd t inn out c s a n :
  token_ok t → gss_accept_sec_context (ac_lib s) (ac_ctx s) (ac_creds s) t = (a, n) →
  (gr_major a = GSS_S_COMPLETE ∨ gr_major a = GSS_S_CONTINUE_NEEDED) →
  gr_out a = [] ∨ token_ok (gr_out a) → ac_at fd (token_bytes t ++ inn) out c s →
  ∃ s', accept_rounds (S fuel) fd fd s =
      (if decide (gr_major a = GSS_S_COMPLETE) then (Ok (gr_flags a, n), s')
       else accept_rounds fuel fd fd s') ∧
    ac_at fd inn (out ++ out_bytes (gr_out a)) c s' ∧ ac_lib s' = gr_lib a ∧ ac_ctx s' = gr_ctx a ∧
    ac_creds s' = ac_creds s ∧ ac_list s' = ac_list s ∧ ac_count s' = ac_count s.
Proof.
  intros Ht Ea Hm Ho Hs. cbn [accept_rounds].
  destruct (on_aw_runs _ _ _ _ _ _ _ _ _
    (reads_chat _ _ _ fd inn out c (recv_token_reads t Ht)) Hs) as (w1 & E1 & Hs1).
  rewrite (bind_Ok _ _ _ _ _ E1). unfold call_accept, bind at 1.
  change (gss_accept_sec_context _ _ _ _) with
    (gss_accept_sec_context (ac_lib s) (ac_ctx s) (ac_creds s) t). rewrite Ea. cbn beta iota zeta.
  assert (GSS_ERROR (gr_major a) = false) as -> by (by destruct Hm as [-> | ->]).
  set (s1 := Acceptor _ _ _ _ _ _).
  destruct (on_aw_runs _ _ fd _ _ _ _ c s1
    (sends_chat _ _ fd inn out c (send_output_sends (gr_out a) Ho)) Hs1) as (w2 & E2 & Hs2).
  rewrite (bind_Ok _ _ _ _ _ E2). exists (set_ac_w w2 s1). split; [|done].
  by destruct Hm as [-> | ->].
Qed.

Lemma accept_rounds_exchange name req creds li ci inp la ca ts us fi fa n :
  exchange name req creds li ci inp la ca ts us fi fa n →
  ∀ fuel fd rest out c s, length ts ≤ fuel → ac_lib s = la → ac_ctx s = ca → ac_creds s = creds →
    ac_at fd (tokens_bytes ts ++ rest) out c s →
    ∃ s', accept_rounds fuel fd fd s = (Ok (fa, n), s') ∧
      ac_at fd rest (out ++ tokens_bytes us) c s' ∧ ac_list s' = ac_list s ∧ ac_count s' = ac_count s.
Proof.
  unfold tokens_bytes.
  induction 1 as [li ci inp la ca r a n Er Mr Tr Ea Ma Ta|li ci inp la ca r a n r' Er Mr Tr Ea Ma Ta Er' Mr' Tr'
    |li ci inp la ca r a n ts us fi fa n' Er Mr Tr Ea Ma Ta Hex IH];
    intros fuel fd rest out c s Hf <- <- <- Hs; (destruct fuel as [|fuel]; [simpl in Hf; lia|]);
    cbn [mbind list_bind] in *; rewrite <- app_assoc in Hs.
  - destruct (accept_round fuel fd _ rest out c s a n Tr Ea) as (s' & -> & Hs' & _ & _ & _ & ? & ?);
      [by left|by left|exact Hs|].
    rewrite decide_True by done. exists s'. rewrite Ta in Hs'. done.
  - destruct (accept_round fuel fd _ rest out c s a n Tr Ea) as (s' & -> & Hs' & _ & _ & _ & ? & ?);
      [by left|by right|exact Hs|].
    rewrite decide_True by done. exists s'. rewrite out_bytes_ok in Hs' by done. by rewrite app_nil_r.
  - destruct (accept_round fuel fd _ ((ts ≫= token_bytes) ++ rest) out c s a n Tr Ea) as (s1 & -> & Hs1 & Hl & Hc & Hcr & Hli & Hco);
      [by right|by right|exact Hs|].
    rewrite decide_False, out_bytes_ok in * by (done || by rewrite Ma).
    destruct (IH fuel fd rest (out ++ token_bytes (gr_out a)) c s1) as (s3 & -> & Hs3 & Hli3 & Hco3); [simpl in Hf; lia|done..|].
    exists s3. rewrite app_assoc. split_and!; [done..|congruence|congruence].
Qed.

Lemma stream_at fd inn out c s : ac_at fd inn out c s → stream fd (ac_w s) = inn.
Proof. intros [Hc _]. unfold stream. by rewrite Hc, chat_lookup. Qed.

Lemma length_tokens ts : length ts ≤ length (tokens_bytes ts).
Proof.
  unfold tokens_bytes. induction ts as [|t ts IH]; [done|]. cbn [mbind list_bind length].
  unfold token_bytes at 1, string_bytes. rewrite !length_app. cbn [length]. lia.
Qed.

(** The same list, after a step that does not touch it. *)
Definition keeps_list (s s' : acceptor) : Prop := ac_list s' = ac_list s ∧ ac_count s' = ac_count s.

Lemma keeps_list_ok lines s s' : keeps_list s s' → list_ok lines s → list_ok lines s'.
Proof. intros []. by apply list_ok_ext. Qed.

Definition verdict_char (b : bool) : ascii := if b then ACCESS else NO_ACCESS.

Lemma notify_run fd b inn out c s :
  ac_at fd inn out c s →
  ∃ w', dcc_gssapi_notify_client fd (verdict_char b) s = (Ok (), set_ac_w w' s) ∧
    ac_at fd inn (out ++ [verdict_char b]) c (set_ac_w w' s).
Proof. intros Hs. exact (on_aw_runs _ _ _ _ _ _ _ _ _ (sends_chat _ _ fd inn out c (writex_sends [verdict_char b])) Hs). Qed.

(** Membership decides, and the client is told what was decided. *)
Lemma check_list_run lines principal fd inn out c s :
  list_ok lines s → list_in_use = true → ac_at fd inn out c s →
  ∃ w', dcc_gssapi_check_list principal fd s =
      (if list_admits lines principal then Ok () else Fail EXIT_GSSAPI_FAILED, set_ac_w w' s) ∧
    ac_at fd inn (out ++ [verdict_char (list_admits lines principal)]) c (set_ac_w w' s).
Proof.
  intros [Hsort Hcnt Hb Hp] Hl Hs.
  destruct (bin_search_spec (short_name principal) s Hsort Hcnt Hb) as (r & Er & Hr).
  unfold dcc_gssapi_check_list. rewrite (bind_Ok _ _ s r s) by (cbn beta; by rewrite Er).
  unfold list_admits, list_in_use in *. rewrite Hr.
  rewrite (bool_decide_ext (short_name principal ∈ ac_list s) (short_name principal ∈ lines)) by (by rewrite Hp).
  assert (bool_decide (short_name principal ∉ lines) = negb (bool_decide (short_name principal ∈ lines)))
    as -> by apply bool_decide_not.
  destruct (notify_run fd true inn out c s Hs) as (wy & Ey & Hy).
  destruct (notify_run fd false inn out c s Hs) as (wn & En & Hn).
  assert (attempt (dcc_gssapi_notify_client fd NO_ACCESS) s = (Ok (inl ()), set_ac_w wn s)) as En'
    by (unfold attempt; simpl in En; by rewrite En).
  destruct opt_blacklist_enabled, (bool_decide (short_name principal ∈ lines)); cbn [negb];
    try (destruct opt_whitelist_enabled; [|done]); try (exists wy; by split);
    exists wn; (split; [by rewrite (bind_Ok _ _ _ _ _ En')|done]).
Qed.

Lemma readx1_reads b : reads (λ fd, dcc_readx fd 1) [b] [b].
Proof. apply (readx_reads [b]). Qed.

(** What each side puts on the connection. *)
Definition client_bytes (ts : list cstr) : cstr := HANDSHAKE :: tokens_bytes ts.
Definition server_bytes (us : list cstr) (admitted : bool) : cstr :=
  HANDSHAKE :: tokens_bytes us ++ [verdict_char admitted].

Lemma recv_handshake_run fd inn out c s :
  ac_at fd (HANDSHAKE :: inn) out c s →
  ∃ w', dcc_gssapi_recv_handshake fd fd s = (Ok (), set_ac_w w' s) ∧
    ac_at fd inn (out ++ [HANDSHAKE]) c (set_ac_w w' s).
Proof.
  intros Hs.
  destruct (on_aw_runs _ _ _ _ _ _ _ _ _ (reads_chat _ _ _ fd inn out c (readx1_reads HANDSHAKE)) Hs)
    as (w1 & E1 & Hs1).
  destruct (on_aw_runs _ _ _ _ _ _ _ _ _ (sends_chat _ _ fd inn out c (writex_sends [HANDSHAKE])) Hs1)
    as (w2 & E2 & Hs2).
  exists w2. split; [|done]. unfold dcc_gssapi_recv_handshake. by rewrite (bind_Ok _ _ _ _ _ E1).
Qed.

(** The server's half of an exchange. *)
Lemma accept_context_run name req creds li ci inp la ts us fi fa n principal fd rest out c s :
  exchange name req creds li ci inp la None ts us fi fa n → gss_display_name n = Some principal →
  ac_lib s = la → ac_ctx s = None → ac_creds s = creds → ac_at fd (client_bytes ts ++ rest) out c s →
  ∃ s', dcc_gssapi_accept_secure_context fd fd s = (Ok (fa, principal), s') ∧
    ac_at fd rest (out ++ HANDSHAKE :: tokens_bytes us) c s' ∧ keeps_list s s'.
Proof.
  intros Hex Hn El Ec Ecr Hs. unfold dcc_gssapi_accept_secure_context.
  destruct (recv_handshake_run fd (tokens_bytes ts ++ rest) out c s Hs) as (w2 & E2 & Hs2).
  rewrite (bind_Ok _ _ _ _ _ E2).
  destruct (accept_rounds_exchange _ _ _ _ _ _ _ _ _ _ _ _ _ Hex
    (accept_fuel fd (set_ac_w w2 s)) fd rest (out ++ [HANDSHAKE]) c (set_ac_w w2 s))
    as (s3 & E3 & Hs3 & Hl3 & Hc3); [|done..|].
  { unfold accept_fuel. rewrite (stream_at _ _ _ _ _ Hs2), length_app. pose proof (length_tokens ts). lia. }
  rewrite (bind_Ok (λ s, accept_rounds (accept_fuel fd s) fd fd s) _ _ _ _ E3). cbn beta iota. rewrite Hn.
  destruct (on_aw_runs _ _ fd _ _ _ _ c s3 (runs_malloc_or EXIT_OUT_OF_MEMORY _) Hs3) as (w4 & E4 & Hs4).
  rewrite (bind_Ok _ _ _ _ _ E4). exists (set_ac_w w4 s3). split; [done|].
  rewrite <- app_assoc in Hs4. split; [exact Hs4|]. by split.
Qed.

(** The name the client asks the server to prove. *)
Definition target_name (fd : nat) (w : world) : option gss_name :=
  match getpeername fd ≫= gethostbyaddr with
  | None => None
  | Some h_name =>
      let '(p, t) := server_principal (w_env w !! "DISTCC_PRINCIPAL"%cs) h_name in gss_import_name p t
  end.

Lemma select_second_ready fd s : in_wait s = [] → select_second fd s = (Ok (), s).
Proof. intros Hw. unfold select_second. by rewrite Hw. Qed.

Lemma handshake_run fd inn out c s :
  in_wait s = [] → in_at fd (HANDSHAKE :: inn) out c s →
  ∃ w', dcc_gssapi_send_handshake fd fd s = (Ok (), set_in_w w' s) ∧
    in_at fd inn (out ++ [HANDSHAKE]) c (set_in_w w' s).
Proof.
  intros Hw Hs. unfold dcc_gssapi_send_handshake.
  destruct (on_iw_runs _ _ _ _ _ _ _ _ _ (sends_chat _ _ fd _ out c (writex_sends [HANDSHAKE])) Hs)
    as (w1 & E1 & Hs1 & _).
  rewrite (bind_Ok _ _ _ _ _ E1), (bind_Ok _ _ _ _ _ (select_second_ready fd (set_in_w w1 s) Hw)).
  destruct (on_iw_runs _ _ _ _ _ _ _ _ _ (reads_chat _ _ _ fd inn _ c (readx1_reads HANDSHAKE)) Hs1)
    as (w2 & E2 & Hs2 & _).
  rewrite (bind_Ok _ _ _ _ _ E2). exists w2. by split.
Qed.

Lemma notification_run fd b inn out c s :
  in_wait s = [] → in_at fd (verdict_char b :: inn) out c s →
  ∃ w', dcc_gssapi_recv_notification fd s =
      (if b then Ok () else Fail EXIT_ACCESS_DENIED, set_in_w w' s) ∧
    in_at fd inn out c (set_in_w w' s).
Proof.
  intros Hw Hs. unfold dcc_gssapi_recv_notification.
  rewrite (bind_Ok _ _ _ _ _ (select_second_ready fd s Hw)).
  destruct (on_iw_runs _ _ _ _ _ _ _ _ _ (reads_chat _ _ _ fd inn _ c (readx1_reads (verdict_char b))) Hs)
    as (w2 & E2 & Hs2 & _).
  rewrite (bind_Ok _ _ _ _ _ E2). exists w2. by destruct b.
Qed.

(** The client's half of an exchange. *)
Lemma establish_run name req creds la ca ts us fi fa n fuel fd rest out c s :
  exchange name req creds (in_lib s) None [] la ca ts us fi fa n → length ts < fuel →
  target_name fd (in_w s) = Some name → in_ctx s = None → in_wait s = [] →
  in_at fd (HANDSHAKE :: tokens_bytes us ++ rest) out c s →
  ∃ s', dcc_gssapi_establish_secure_context fuel fd fd req s = (Ok fi, s') ∧
    in_at fd rest (out ++ client_bytes ts) c s' ∧ in_wait s' = [].
Proof.
  intros Hex Hf Ht Hc Hw Hs. unfold dcc_gssapi_establish_secure_context.
  unfold target_name in Ht. destruct (getpeername fd) as [addr|]; [|done]. cbn [mbind option_bind] in Ht.
  destruct (gethostbyaddr addr) as [h_name|]; [|done].
  destruct (on_iw_runs _ _ fd _ _ _ _ c s (runs_malloc_or EXIT_OUT_OF_MEMORY _) Hs) as (w1 & E1 & Hs1 & He1).
  rewrite (bind_Ok _ _ _ _ _ E1). erewrite bind_Ok by done. cbn [w_env in_w set_in_w].
  destruct (on_iw_runs _ _ fd _ _ _ _ c _ (runs_malloc_or EXIT_OUT_OF_MEMORY _) Hs1) as (w2 & E2 & Hs2 & _).
  erewrite bind_Ok by exact E2. rewrite <- He1 in Ht. cbn [in_w set_in_w] in Ht.
  destruct (server_principal _ h_name) as [pn nt]. rewrite Ht.
  destruct (handshake_run fd _ out c (set_in_w w2 (set_in_w w1 s)) Hw Hs2) as (w3 & E3 & Hs3).
  erewrite bind_Ok by exact E3.
  destruct (init_loop_exchange _ _ _ _ _ _ _ _ _ _ _ _ _ Hex fuel fd rest (out ++ [HANDSHAKE]) c
    (set_in_w w3 (set_in_w w2 (set_in_w w1 s))) Hf eq_refl Hc Hs3)
    as (s4 & E4 & Hs4 & Hw4).
  exists s4. split; [exact E4|]. rewrite <- app_assoc in Hs4. split; [exact Hs4|]. by rewrite Hw4.
Qed.

(** All the services a side asked for. *)
Definition granted (flags : Z) : Prop := dcc_gssapi_compare_flags required_flags flags = 0%Z.

(** A client and a server whose libraries understand each other:
    the client's verdict_char is the server's. *)
Lemma remote_auth_run name creds la ca ts us fi fa n (b : bool) fuel fd rest out c s :
  exchange name required_flags creds (in_lib s) None [] la ca ts us fi fa n → length ts < fuel →
  granted fi → target_name fd (in_w s) = Some name → in_ctx s = None → in_wait s = [] →
  in_at fd (server_bytes us b ++ rest) out c s →
  ∃ s', remote_auth true fuel fd fd s = (if b then Ok () else Fail EXIT_ACCESS_DENIED, s') ∧
    in_at fd rest (out ++ client_bytes ts) c s' ∧ in_ctx s' = None.
Proof.
  intros Hex Hf Hg Ht Hc Hw Hs. unfold remote_auth, dcc_gssapi_perform_requested_security.
  unfold server_bytes in Hs. simpl in Hs. rewrite <- app_assoc in Hs.
  destruct (establish_run _ _ _ _ _ _ _ _ _ _ fuel fd _ out c s Hex Hf Ht Hc Hw Hs) as (s1 & E1 & Hs1 & Hw1).
  destruct (notification_run fd b rest _ c s1 Hw1 Hs1) as (w2 & E2 & Hs2).
  unfold bind at 1 2. rewrite E1, Hg.
  destruct b; unfold bind at 1, attempt; rewrite E2; (eexists; split; [done|]); done.
Qed.

Lemma service_auth_run lines name creds li ci inp ts us fi fa n principal fd rest out c s :
  dcc_auth_enabled = true → list_ok lines s →
  exchange name required_flags creds li ci inp (ac_lib s) None ts us fi fa n → granted fa →
  gss_display_name n = Some principal → ac_ctx s = None → ac_creds s = creds →
  ac_at fd (client_bytes ts ++ rest) out c s →
  ∃ s', service_auth fd fd s =
      (if list_admits lines principal then Ok () else Fail EXIT_GSSAPI_FAILED, s') ∧
    ac_at fd rest (out ++ server_bytes us (list_admits lines principal)) c s' ∧ ac_ctx s' = None ∧
    list_ok lines s'.
Proof.
  intros Hen Hlo Hex Hg Hn Hc Hcr Hs. unfold service_auth, dcc_gssapi_check_client. rewrite Hen.
  destruct (accept_context_run _ _ _ _ _ _ _ _ _ _ _ _ _ fd rest out c s Hex Hn eq_refl Hc Hcr Hs)
    as (s1 & E1 & Hs1 & Hl1).
  unfold bind at 1 2. rewrite E1, Hg. unfold server_bytes.
  pose proof (keeps_list_ok lines s s1 Hl1 Hlo) as Hlo1.
  assert (∃ w', (if opt_blacklist_enabled || opt_whitelist_enabled then dcc_gssapi_check_list principal fd
                 else dcc_gssapi_notify_client fd ACCESS) s1 =
      (if list_admits lines principal then Ok () else Fail EXIT_GSSAPI_FAILED, set_ac_w w' s1) ∧
      ac_at fd rest (out ++ HANDSHAKE :: tokens_bytes us ++ [verdict_char (list_admits lines principal)]) c (set_ac_w w' s1))
    as (w2 & E2 & Hs2).
  { replace (out ++ HANDSHAKE :: tokens_bytes us ++ [verdict_char (list_admits lines principal)])
      with ((out ++ HANDSHAKE :: tokens_bytes us) ++ [verdict_char (list_admits lines principal)])
      by (by rewrite <- app_assoc).
    destruct (opt_blacklist_enabled || opt_whitelist_enabled) eqn:El.
    - by apply check_list_run.
    - apply orb_false_iff in El as [Eb Ew].
      assert (list_admits lines principal = true) as -> by (unfold list_admits; by rewrite Eb, Ew).
      by apply (notify_run fd true). }
  destruct (list_admits lines principal); unfold bind at 1, attempt; rewrite E2;
    (eexists; split; [done|]); (split; [exact Hs2|]); (split; [done|]);
    by eapply list_ok_ext, Hlo1.
Qed.

(** ** Any client *)

(** [m] allocates nothing and reads nothing. *)
Definition wkeeps {A} (m : M world A) : Prop :=
  ∀ w, w_mem (m w).2 = w_mem w ∧ ∀ fd, stream fd (m w).2 = stream fd w.

Lemma wkeeps_bind {A B} (m : M world A) (k : A → M world B) :
  wkeeps m → (∀ a, wkeeps (k a)) → wkeeps (bind m k).
Proof.
  intros Hm Hk w. destruct (Hm w) as [Em Es]. unfold bind.
  destruct (m w) as [[a| | |] w1]; try (by split). simpl in *. destruct (Hk a w1) as [Em' Es'].
  split; [congruence|]. intros fd. by rewrite Es'.
Qed.

Lemma wkeeps_throw {A} (o : outcome A) : wkeeps (throw o).
Proof. by split. Qed.

Lemma writex_wkeeps fd buf : wkeeps (dcc_writex fd buf).
Proof.
  intros w. unfold dcc_writex. generalize (io_fuel (length buf) w) as fuel. intros fuel.
  revert w. change (wkeeps (writex_loop fuel fd buf)). revert buf.
  induction fuel as [|fuel IH]; intros buf; simpl; destruct (decide (length buf = 0)); try apply wkeeps_throw.
  apply wkeeps_bind.
  { intros w. destruct (write_any fd buf w) as (r & w1 & E & _ & Hst & _).
    split; [apply keeps_mem_write|]. by rewrite E. }
  intros [k|[]]; try apply wkeeps_throw; try apply IH.
  apply wkeeps_bind.
  { intros w. split; [apply timeout_keeps_mem|]. unfold dcc_get_io_timeout.
    destruct (_ <? _)%Z; [done|]. destruct (w_env w !! _); [|done]. by destruct (_ <=? _)%Z. }
  intros t. apply wkeeps_bind; [|intros _; apply IH].
  intros w. unfold dcc_select_for_write. by destruct (select_loop _).
Qed.

Lemma send_output_wkeeps fd t : wkeeps (send_output fd t).
Proof.
  unfold send_output, send_token, dcc_x_token_int. destruct (_ <? _)%nat; [|apply wkeeps_throw].
  apply wkeeps_bind; [|intros _; apply writex_wkeeps]. case_decide; [apply wkeeps_throw|apply writex_wkeeps].
Qed.

Lemma send_output_safe fd t : safe (send_output fd t).
Proof.
  unfold send_output, send_token, dcc_x_token_int. destruct (_ <? _)%nat; [|apply safe_ret].
  apply safe_bind; [|intros _; apply writex_safe]. case_decide; [apply safe_fail|apply writex_safe].
Qed.

Lemma recv_token_msafe fd : msafe (recv_token fd).
Proof.
  apply msafe_bind; [apply r_token_int_msafe|]. intros l. destruct (_ || _); [apply msafe_fail|].
  apply msafe_bind; [apply msafe_malloc_or|]. intros _. apply readx_msafe.
Qed.

(** A token uses up some of the stream. *)
Lemma recv_token_shrinks fd w t w' :
  recv_token fd w = (Ok t, w') → length (stream fd w') < length (stream fd w).
Proof.
  intros E. unfold recv_token in E. apply bind_inv_Ok in E as (l & w1 & E1 & E2).
  pose proof (r_token_int_total fd "TLEN"%cs w) as Ht. unfold wp in Ht. rewrite E1 in Ht.
  destruct Ht as (_ & digits & Hd & Hst & _). simpl in Hst.
  destruct (_ || _); [done|]. apply bind_inv_Ok in E2 as ([] & w2 & E2 & E3).
  pose proof (readx_any fd (Z.to_nat l) w2) as Hr. unfold wp in Hr. rewrite E3 in Hr. destruct Hr as [_ Hr].
  assert (stream fd w2 = stream fd w1) as Hs2.
  { unfold malloc_or, bind, malloc in E2. destruct (get_mem w1) as [|[] ?]; mred; by simplify_eq. }
  simpl in Hr. rewrite Hst, <- Hs2, Hr. simpl. rewrite !length_app. lia.
Qed.

(** Nothing undefined, no memory lost, and the list as it was. *)
Definition tame (s : acceptor) {A} (o : outcome A) (s' : acceptor) : Prop :=
  o ≠ Undef ∧ mem_ok (ac_w s') ∧ keeps_list s s'.

Lemma tame_trans {A} s s1 (o : outcome A) s' : keeps_list s s1 → tame s1 o s' → tame s o s'.
Proof. intros [] (? & ? & []). split_and!; [done..|]. split; congruence. Qed.

Lemma tame_bind {A B} (m : M acceptor A) (k : A → M acceptor B) s :
  tame s (m s).1 (m s).2 →
  (∀ a s', m s = (Ok a, s') → mem_ok (ac_w s') → keeps_list s s' → tame s' (k a s').1 (k a s').2) →
  tame s (bind m k s).1 (bind m k s).2.
Proof.
  intros Hm Hk. unfold bind. destruct (m s) as [[a| | |] s1] eqn:E; try (destruct Hm as (? & ? & ?); by split_and!).
  destruct Hm as (_ & ? & Hl). eapply tame_trans; [done|]. by apply Hk.
Qed.

Lemma tame_attempt {A} (m : M acceptor A) s :
  tame s (m s).1 (m s).2 → tame s (attempt m s).1 (attempt m s).2.
Proof. unfold attempt. destruct (m s) as [[] s']; intros (? & ? & ?); by split_and!. Qed.

Lemma tame_throw {A} (o : outcome A) s : o ≠ Undef → mem_ok (ac_w s) → tame s o s.
Proof. intros. by split_and!. Qed.

Lemma tame_on_aw {A} (m : M world A) s :
  msafe m → mem_ok (ac_w s) → tame s (on_aw m s).1 (on_aw m s).2.
Proof.
  intros Hm Hs. destruct (Hm _ Hs) as [Hu Hm']. unfold on_aw, zoom.
  destruct (m (ac_w s)) as [o w']. by split_and!.
Qed.

Lemma msafe_wkeeps {A} (m : M world A) : safe m → wkeeps m → msafe m.
Proof. intros Hs Hk. apply msafe_of; [done|]. intros w. apply Hk. Qed.

Lemma call_accept_run t s :
  ∃ r n s', call_accept t s = (Ok (r, n), s') ∧ ac_w s' = ac_w s ∧ keeps_list s s'.
Proof.
  unfold call_accept. destruct (gss_accept_sec_context _ _ _ _) as [r n] eqn:E.
  by eexists r, n, _.
Qed.

Lemma accept_rounds_total fuel to from s :
  mem_ok (ac_w s) → length (stream from (ac_w s)) < fuel →
  tame s (accept_rounds fuel to from s).1 (accept_rounds fuel to from s).2.
Proof.
  revert s. induction fuel as [|fuel IH]; intros s Hs Hf; [lia|]. cbn [accept_rounds].
  apply tame_bind; [apply tame_on_aw; [apply recv_token_msafe|done]|]. intros t s1 E1 Hm1 _.
  assert (length (stream from (ac_w s1)) < length (stream from (ac_w s))) as Hl1.
  { revert E1. unfold on_aw, zoom. destruct (recv_token from (ac_w s)) as [[] w'] eqn:E; intros [= <- <-].
    by eapply recv_token_shrinks. }
  destruct (call_accept_run t s1) as (r & n & s2 & Ea & Ew & Hl). rewrite (bind_Ok _ _ _ _ _ Ea). cbn beta iota.
  apply (tame_trans s1 s2); [done|]. rewrite <- Ew in Hm1, Hl1.
  destruct (GSS_ERROR _); [by apply tame_throw|]. apply tame_bind.
  { apply tame_on_aw; [|done]. apply msafe_wkeeps; [apply send_output_safe|apply send_output_wkeeps]. }
  intros [] s3 E3 Hm3 _. destruct (_ =? _)%Z; [by apply tame_throw|].
  unfold on_aw, zoom in E3. destruct (send_output_wkeeps to (gr_out r) (ac_w s2)) as [_ Hst3].
  destruct (send_output to (gr_out r) (ac_w s2)) as [[] w3]; simplify_eq. apply IH; [done|].
  simpl in *. rewrite Hst3. lia.
Qed.

Lemma writex_msafe fd buf : msafe (dcc_writex fd buf).
Proof. apply msafe_wkeeps; [apply writex_safe|apply writex_wkeeps]. Qed.

Lemma notify_tame fd b s :
  mem_ok (ac_w s) → tame s (dcc_gssapi_notify_client fd b s).1 (dcc_gssapi_notify_client fd b s).2.
Proof. intros. apply tame_on_aw; [apply writex_msafe|done]. Qed.

Lemma check_list_tame principal fd lines s :
  mem_ok (ac_w s) → list_ok lines s →
  tame s (dcc_gssapi_check_list principal fd s).1 (dcc_gssapi_check_list principal fd s).2.
Proof.
  intros Hm [Hs Hc Hb _]. unfold dcc_gssapi_check_list.
  destruct (bin_search_spec (short_name principal) s Hs Hc Hb) as (r & Er & _).
  rewrite (bind_Ok _ _ s r s) by (cbn beta; by rewrite Er).
  destruct opt_blacklist_enabled, (0 <=? r)%Z; try (by apply notify_tame);
    (apply tame_bind; [by apply tame_attempt, notify_tame|]); intros; by apply tame_throw.
Qed.

Lemma accept_context_tame to from s :
  mem_ok (ac_w s) → (∀ n, is_Some (gss_display_name n)) →
  tame s (dcc_gssapi_accept_secure_context to from s).1 (dcc_gssapi_accept_secure_context to from s).2.
Proof.
  intros Hm Hn. apply tame_bind.
  - apply tame_bind; [apply tame_on_aw; [apply readx_msafe|done]|]. intros auth s1 _ Hm1 _.
    destruct (ceqb _ _); [|by apply tame_throw]. apply tame_on_aw; [apply writex_msafe|done].
  - intros _ s1 _ Hm1 _. apply tame_bind.
    + apply accept_rounds_total; [done|]. unfold accept_fuel. lia.
    + intros [f n] s2 _ Hm2 _. destruct (Hn n) as [name ->].
      apply tame_bind; [apply tame_on_aw; [apply msafe_malloc_or|done]|]. intros; by apply tame_throw.
Qed.

Lemma check_client_tame to from lines s :
  mem_ok (ac_w s) → list_ok lines s → (∀ n, is_Some (gss_display_name n)) →
  tame s (dcc_gssapi_check_client to from s).1 (dcc_gssapi_check_client to from s).2.
Proof.
  intros Hm Hl Hn. apply tame_bind; [by apply accept_context_tame|]. intros [f p] s1 _ Hm1 Hl1.
  pose proof (keeps_list_ok lines s s1 Hl1 Hl) as Hlo.
  destruct (dcc_gssapi_compare_flags _ _); [|by split_and!..].
  apply tame_bind.
  - apply tame_attempt. destruct (_ || _); [by eapply check_list_tame|by apply notify_tame].
  - intros [] s2 _ Hm2 _; [by apply tame_throw|by split_and!].
Qed.

(** The server's half returns whatever bytes come in, also when the client
    never finishes its exchange: every round takes a token off the
    connection. *)
Lemma service_auth_total (to from : nat) (lines : list cstr) (s : acceptor) :
  mem_ok (ac_w s) → list_ok lines s → (∀ n, is_Some (gss_display_name n)) →
  (service_auth to from s).1 ≠ Undef.
Proof.
  intros Hm Hl Hn. unfold service_auth. destruct dcc_auth_enabled; [|done].
  destruct (check_client_tame to from lines s Hm Hl Hn) as [Hu _].
  unfold bind. by destruct (dcc_gssapi_check_client to from s) as [[] ?].
Qed.

(** At the end of the stream there is no token. *)
Lemma recv_token_eof fd out c s :
  ac_at fd [] out c s → ∃ e w', on_aw (recv_token fd) s = (Fail e, set_ac_w w' s).
Proof.
  intros Hs. pose proof (stream_at _ _ _ _ _ Hs) as Hst. destruct Hs as [_ Hio].
  pose proof (r_token_int_total fd "TLEN"%cs (ac_w s)) as Ht. unfold wp in Ht.
  unfold on_aw, zoom, recv_token, bind. destruct (dcc_r_token_int fd "TLEN"%cs (ac_w s)) as [[v|e|e|] w'].
  - destruct Ht as (_ & digits & _ & Hx & _). by rewrite Hst in Hx.
  - by eexists _, _.
  - by destruct Ht as [_ []], Hio.
  - done.
Qed.

(** A client that stops in the middle leaves its half of a context
    behind, and the next client of this process is accepted on top of it. *)
Lemma context_left_behind (fd : nat) (t out : cstr) (c : core) (s : acceptor)
    (r : gss_result gss_ctx_id gss_lib) (n : gss_name) :
  dcc_auth_enabled = true → ac_ctx s = None → token_ok t →
  gss_accept_sec_context (ac_lib s) None (ac_creds s) t = (r, n) →
  gr_major r = GSS_S_CONTINUE_NEEDED → gr_out r = [] ∨ token_ok (gr_out r) →
  ac_at fd (client_bytes [t]) out c s →
  ∃ e s', service_auth fd fd s = (Fail e, s') ∧ ac_ctx s' = gr_ctx r.
Proof.
  intros Hen Hc Ht Er Mr Hr Hs. unfold service_auth, dcc_gssapi_check_client. rewrite Hen.
  destruct (recv_handshake_run fd (tokens_bytes [t]) out c s Hs) as (w2 & E2 & Hs2).
  assert (∃ e s', dcc_gssapi_accept_secure_context fd fd s = (Fail e, s') ∧ ac_ctx s' = gr_ctx r)
    as (e & s' & E & Hc').
  2:{ exists e, s'. split; [|done]. unfold bind. by rewrite E. }
  unfold dcc_gssapi_accept_secure_context. rewrite (bind_Ok _ _ _ _ _ E2).
  assert (accept_fuel fd (set_ac_w w2 s) = S (length (tokens_bytes [t]))) as Hf
    by (unfold accept_fuel; by rewrite (stream_at _ _ _ _ _ Hs2)).
  unfold bind at 1. rewrite Hf.
  destruct (accept_round (length (tokens_bytes [t])) fd t [] (out ++ [HANDSHAKE]) c (set_ac_w w2 s) r n Ht)
    as (s3 & E3 & Hs3 & _ & Hc3 & _); [simpl; by rewrite Hc|by right|done|exact Hs2|].
  rewrite decide_False in E3 by (by rewrite Mr). rewrite E3.
  pose proof (length_tokens [t]) as Hl. destruct (length (tokens_bytes [t])) as [|k]; [simpl in Hl; lia|].
  destruct (recv_token_eof fd _ c s3 Hs3) as (e & w4 & E4).
  exists e, (set_ac_w w4 s3). split; [|done]. cbn [accept_rounds]. unfold bind. by rewrite E4.
Qed.

(** ** Reading the list *)

Lemma read_all_runs fd inn out c :
  runs (read_all fd) (Ok inn) (chat fd inn out c) (chat fd [] out c).
Proof.
  unfold read_all. eapply runs_bind.
  { apply (runs_gets (λ c, match c_fds c !! fd with Some d => fd_in d | None => [] end)). }
  cbn beta. rewrite chat_lookup. eapply runs_bind; [apply runs_modify_core|].
  unfold chat, set_fds. simpl. rewrite alter_insert_eq. apply runs_ret.
Qed.

Lemma rewind_runs fd text inn out c :
  runs (rewind fd text) (Ok (inl ())) (chat fd inn out c) (chat fd text out c).
Proof.
  apply runs_fs_call. eapply runs_bind; [apply runs_modify_core|].
  unfold chat, set_fds. simpl. rewrite alter_insert_eq. apply runs_ret.
Qed.

Lemma text_lines_app l line rest :
  "010"%char ∉ l → text_lines line (l ++ "010"%char :: rest) = (line ++ l ++ ["010"%char]) :: text_lines [] rest.
Proof.
  revert line. induction l as [|x l IH]; intros line Hl; simpl.
  - done.
  - apply not_elem_of_cons in Hl as [Hx Hl]. rewrite (proj2 (ceqb_false x "010")) by done.
    rewrite IH by done. by rewrite <- !app_assoc.
Qed.

Lemma stored_line_good l : "010"%char ∉ l → nul_free l → stored_line (l ++ ["010"%char]) = l.
Proof.
  intros Hl Hn. unfold stored_line. rewrite c_string_nul_free.
  2:{ unfold nul_free. rewrite elem_of_app, list_elem_of_singleton. by intros [?|?]. }
  assert (strchr (l ++ ["010"%char]) "010" = Some (length l)) as -> by (apply strchr_Some; eauto).
  by rewrite take_app_length.
Qed.

(** The text of a list: a name per line. *)
Definition list_text (names : list cstr) : cstr := names ≫= (λ l, l ++ ["010"%char]).

Lemma list_text_lines names :
  Forall (λ l, "010"%char ∉ l) names → text_lines [] (list_text names) = (λ l, l ++ ["010"%char]) <$> names.
Proof.
  induction 1 as [|l names Hl _ IH]; [done|]. unfold list_text. cbn [mbind list_bind].
  change (names ≫= _) with (list_text names). rewrite <- app_assoc. cbn [app].
  rewrite text_lines_app by done. by rewrite IH.
Qed.

Lemma store_lines_run names s :
  Forall (λ l, "010"%char ∉ l ∧ nul_free l) names → mem_ok (ac_w s) →
  store_lines ((λ l, l ++ ["010"%char]) <$> names) s = (Ok names, s).
Proof.
  intros Hn Hm. induction Hn as [|l names [Hl Hnul] _ IH]; [done|]. cbn [fmap list_fmap store_lines].
  rewrite (bind_Ok _ _ _ () s).
  2:{ unfold on_aw, zoom. rewrite malloc_or_ok by done. by destruct s. }
  rewrite (bind_Ok _ _ _ _ _ IH). by rewrite stored_line_good.
Qed.

(** A file with one principal per line becomes the sorted list of
    these principals, which [list_admits] is about. *)
Lemma obtain_list_reads (names : list cstr) (s : acceptor) :
  c_files (w_core (ac_w s)) !! arg_list_file = Some (NFile (list_text names)) →
  Forall (λ l, "010"%char ∉ l ∧ nul_free l) names → (Z.of_nat (length names) ≤ 2 ^ 30)%Z →
  io_ok (ac_w s) → ac_count s = 0 →
  ∃ s', dcc_gssapi_obtain_list s = (Ok (), s') ∧ list_ok names s' ∧ w_core (ac_w s') = w_core (ac_w s).
Proof.
  intros Hf Hn Hlen Hio Hcnt. set (c := w_core (ac_w s)). set (fd := new_fd (c_fds c)).
  destruct (sys_open_read_runs _ _ _ Hf _ eq_refl Hio) as (w1 & E1 & C1 & Hio1 & _).
  assert (ac_at fd (list_text names) [] c (set_ac_w w1 s)) as Hs1 by (split; [exact C1|done]).
  destruct (on_aw_runs _ _ _ _ _ _ _ _ _ (read_all_runs fd (list_text names) [] c) Hs1) as (w2 & E2 & Hs2).
  unfold dcc_gssapi_obtain_list. rewrite (bind_Ok _ _ _ _ _ (on_aw_run _ _ _ _ E1)).
  cbn beta iota. rewrite (bind_Ok _ _ _ _ _ E2).
  assert (Forall (λ l, "010"%char ∉ l) names) as Hnl by (eapply Forall_impl; [exact Hn|]; naive_solver).
  cbn beta. rewrite list_text_lines by done. rewrite length_fmap.
  erewrite bind_Ok by done. cbn [ac_count set_ac_w]. rewrite Hcnt. cbn [plus].
  set (s3 := set_ac_count _ _).
  destruct (on_aw_runs _ _ _ _ _ _ _ _ s3 (rewind_runs fd (list_text names) [] [] c) Hs2) as (w4 & E4 & Hs4).
  rewrite (bind_Ok _ _ _ _ _ E4). cbn beta iota. erewrite bind_Ok by done.
  destruct (on_aw_runs _ _ fd _ _ _ _ c _ (runs_malloc_or EXIT_OUT_OF_MEMORY _) Hs4) as (w5 & E5 & Hs5).
  rewrite (bind_Ok _ _ _ _ _ E5).
  destruct (on_aw_runs _ _ _ _ _ _ _ _ _ (read_all_runs fd (list_text names) [] c) Hs5) as (w6 & E6 & Hs6).
  rewrite (bind_Ok _ _ _ _ _ E6). cbn beta. rewrite list_text_lines by done.
  erewrite bind_Ok by (apply store_lines_run; [done|]; apply Hs6).
  erewrite bind_Ok by done. set (s7 := set_ac_list _ _).
  destruct Hs6 as [C6 Hio6].
  destruct (close_runs fd (Fd [] [] None) _ (chat_lookup fd [] [] c) w6 C6 Hio6) as (w8 & E8 & C8 & _).
  erewrite bind_Ok by (apply on_aw_run; exact E8).
  eexists. split; [done|]. split.
  - constructor; simpl.
    + apply StronglySorted_merge_sort; apply _.
    + by rewrite merge_sort_Permutation.
    + done.
    + apply merge_sort_Permutation.
  - simpl. rewrite C8. unfold chat, set_fds. simpl. rewrite delete_insert_eq, delete_id by apply new_fd_fresh.
    subst c. by destruct (w_core (ac_w s)).
Qed.

(** C10. Authentication agrees.  When the two libraries complete an exchange
    and grant the services, then the server, reading what the client writes,
    lets the client in exactly when the list of principals list_admits it, the
    client, reading what the server writes, goes on exactly then and otherwise
    reports that access was denied, and neither side keeps a context. *)
Theorem authentication_agrees (lines : list cstr) (name : gss_name) (ts us : list cstr) (fi fa : Z)
    (n : gss_name) (principal : cstr) (fuel fd fd' : nat) (rest out rest' out' : cstr) (c c' : core)
    (s : initiator) (a : acceptor) :
  exchange name required_flags (ac_creds a) (in_lib s) None [] (ac_lib a) None ts us fi fa n →
  granted fi → granted fa → gss_display_name n = Some principal →
  target_name fd (in_w s) = Some name → length ts < fuel → dcc_auth_enabled = true → list_ok lines a →
  in_ctx s = None → in_wait s = [] → ac_ctx a = None →
  let b := list_admits lines principal in
  in_at fd (server_bytes us b ++ rest) out c s → ac_at fd' (client_bytes ts ++ rest') out' c' a →
  (∃ s', remote_auth true fuel fd fd s = (if b then Ok () else Fail EXIT_ACCESS_DENIED, s') ∧
     in_at fd rest (out ++ client_bytes ts) c s' ∧ in_ctx s' = None) ∧
  (∃ a', service_auth fd' fd' a = (if b then Ok () else Fail EXIT_GSSAPI_FAILED, a') ∧
     ac_at fd' rest' (out' ++ server_bytes us b) c' a' ∧ ac_ctx a' = None ∧ list_ok lines a').
Proof.
  intros Hex Hi Ha Hn Ht Hf Hen Hlo Hci Hw Hca b Hs Hs'. split.
  - by eapply remote_auth_run.
  - by eapply service_auth_run.
Qed.
End checks.

(** ** Witnesses *)

(** A mechanism of three tokens. *)
Definition ex_init (l : unit) (ctx : option nat) (name : cstr) (req : Z) (tok : cstr) : gss_result nat unit :=
  match ctx with
  | None => GssResult GSS_S_CONTINUE_NEEDED (Some 1) ("init "%cs ++ name) 0 ()
  | Some _ => if streq tok "challenge"%cs then GssResult GSS_S_COMPLETE (Some 2) "response"%cs req ()
              else GssResult 0x90000 None [] 0 ()
  end.
Definition ex_accept (l : unit) (ctx : option nat) (cred : option unit) (tok : cstr) :
    gss_result nat unit * cstr :=
  match ctx with
  | None => (GssResult GSS_S_CONTINUE_NEEDED (Some 1) "challenge"%cs 0 (), [])
  | Some _ => if streq tok "response"%cs then (GssResult GSS_S_COMPLETE (Some 2) [] 14 (), "alice@EXAMPLE.ORG"%cs)
              else (GssResult 0x90000 None [] 0 (), [])
  end.
#[local] Instance ex_gss : Gss :=
  {| gss_ctx_id := nat; gss_name := cstr; gss_cred := unit; gss_lib := unit;
     gss_import_name := λ p _, Some p; gss_display_name := Some; gss_acquire_cred := λ _, Some ();
     gss_init_sec_context := ex_init; gss_accept_sec_context := ex_accept |}.
#[local] Instance ex_peers : PeerNames :=
  {| getpeername := λ _, Some "addr"%cs; gethostbyaddr := λ _, Some "server"%cs |}.
#[local] Instance ex_opts : AuthOpts :=
  {| dcc_auth_enabled := true; opt_blacklist_enabled := false; opt_whitelist_enabled := true;
     arg_list_file := "/etc/list"%cs |}.

Definition ex_auth_core : core := Core ∅ {["/etc/list"%cs := NFile (list_text ["bob"%cs; "alice"%cs])]} [] 0 DCC_PHASE_STARTUP.
Definition ex_in (inn : cstr) : initiator := Initiator (set_core (chat 3 inn [] ex_auth_core) ex_world) None () [].
Definition ex_ac (inn : cstr) (l : list cstr) (n : nat) : acceptor :=
  Acceptor (set_core (chat 4 inn [] ex_auth_core) ex_world) None () None l n.

Lemma ex_token t : bool_decide (0 < length t ∧ (Z.of_nat (length t) ≤ INT_MAX)%Z) = true → token_ok t.
Proof. apply bool_decide_eq_true. Qed.

Lemma ex_exchange :
  exchange "host/server"%cs required_flags None () None [] () None
    ["init host/server"%cs; "response"%cs] ["challenge"%cs] 14 14 "alice@EXAMPLE.ORG"%cs.
Proof.
  apply (ex_more (H := ex_gss) _ _ _ () None [] () None
    (GssResult (ctx := nat) (lib := unit) GSS_S_CONTINUE_NEEDED (Some 1) "init host/server"%cs 0 ())
    (GssResult (ctx := nat) (lib := unit) GSS_S_CONTINUE_NEEDED (Some 1) "challenge"%cs 0 ()) []
    ["response"%cs] []); [done|done|by apply ex_token|done|done|by apply ex_token|].
  apply (ex_client_last (H := ex_gss) _ _ _ () (Some 1) "challenge"%cs () (Some 1)
    (GssResult (ctx := nat) (lib := unit) GSS_S_COMPLETE (Some 2) "response"%cs 14 ())
    (GssResult (ctx := nat) (lib := unit) GSS_S_COMPLETE (Some 2) [] 14 ()));
    [done|done|by apply ex_token|done..].
Qed.

Lemma ex_list_ok inn : list_ok ["bob"%cs; "alice"%cs] (ex_ac inn ["alice"%cs; "bob"%cs] 2).
Proof.
  constructor; simpl; [|done|done|by apply Permutation_swap].
  repeat constructor; by vm_compute.
Qed.

Definition ex_ts : list cstr := ["init host/server"%cs; "response"%cs].
Definition ex_us : list cstr := ["challenge"%cs].

(** Alice is on the list. *)
Lemma authentication_agrees_witness :
  (∃ s', remote_auth true 3 3 3 (ex_in (server_bytes ex_us true)) = (Ok (), s') ∧
     in_at 3 [] (client_bytes ex_ts) ex_auth_core s' ∧ in_ctx s' = None) ∧
  (∃ a', service_auth 4 4 (ex_ac (client_bytes ex_ts) ["alice"%cs; "bob"%cs] 2) = (Ok (), a') ∧
     ac_at 4 [] (server_bytes ex_us true) ex_auth_core a' ∧ ac_ctx a' = None ∧
     list_ok ["bob"%cs; "alice"%cs] a').
Proof.
  refine (authentication_agrees ["bob"%cs; "alice"%cs] "host/server"%cs ex_ts ex_us 14 14
    "alice@EXAMPLE.ORG"%cs "alice@EXAMPLE.ORG"%cs 3 3 4 [] [] [] [] ex_auth_core ex_auth_core
    (ex_in (server_bytes ex_us true)) (ex_ac (client_bytes ex_ts) ["alice"%cs; "bob"%cs] 2)
    ex_exchange eq_refl eq_refl eq_refl eq_refl _ eq_refl (ex_list_ok _) eq_refl eq_refl eq_refl _ _).
  - simpl. lia.
  - split; [by rewrite app_nil_r|apply io_ok_set_core, ex_world_ok].
  - split; [by rewrite app_nil_r|apply io_ok_set_core, ex_world_ok].
Defined.

(** A file of two names. *)
Lemma obtain_list_reads_witness :
  ∃ s', dcc_gssapi_obtain_list (ex_ac [] [] 0) = (Ok (), s') ∧ list_ok ["bob"%cs; "alice"%cs] s' ∧
    w_core (ac_w s') = chat 4 [] [] ex_auth_core.
Proof.
  apply (obtain_list_reads ["bob"%cs; "alice"%cs] (ex_ac [] [] 0)).
  - reflexivity.
  - by apply (bool_decide_unpack _).
  - simpl. lia.
  - apply io_ok_set_core, ex_world_ok.
  - reflexivity.
Defined.

(** The client hangs up after its first token. *)
Lemma context_left_behind_witness :
  ∃ e s', service_auth 4 4 (ex_ac (client_bytes ["init x"%cs]) [] 0) = (Fail e, s') ∧ ac_ctx s' = Some 1.
Proof.
  apply (context_left_behind 4 "init x"%cs [] ex_auth_core (ex_ac (client_bytes ["init x"%cs]) [] 0)
    (GssResult (ctx := nat) (lib := unit) GSS_S_CONTINUE_NEEDED (Some 1) "challenge"%cs 0 ()) []);
    [reflexivity|reflexivity|by apply ex_token|reflexivity|reflexivity|right; by apply ex_token|].
  split; [reflexivity|apply io_ok_set_core, ex_world_ok].
Defined.

Lemma service_auth_total_witness :
  (service_auth 4 4 (ex_ac "*TLENxxxx"%cs ["alice"%cs; "bob"%cs] 2)).1 ≠ Undef.
Proof.
  apply (service_auth_total 4 4 ["bob"%cs; "alice"%cs]); [reflexivity|apply ex_list_ok|intros n; by eexists].
Defined.
