(* ===== verification/Serve.v ===== *)
(** * serve.c: the server's job

    [dcc_service_job] checks the client, reads the request, runs the compiler
    and sends the answer.  [server] is the serving process: the process itself
    ([os]), its job summary, and the statics of serve.c. *)

From S2P Require Import Prelude CLib Util Filename Argv Arg Strip Text Paths.
From S2P Require Import World Io Rpc Tempfile Bulk Results Hosts Access Lock Dotd Request Exec FixDebug.

(** stats.h *)
Inductive stats_e :=
  | STATS_TCP_ACCEPT | STATS_REJ_BAD_REQ | STATS_REJ_OVERLOAD | STATS_COMPILE_OK | STATS_COMPILE_ERROR
  | STATS_COMPILE_TIMEOUT | STATS_CLI_DISCONN | STATS_OTHER.

#[export] Instance stats_e_eq_dec : EqDecision stats_e.
Proof. solve_decision. Defined.

Definition stats_text (s : stats_e) : cstr :=
  match s with
  | STATS_TCP_ACCEPT => "TCP_ACCEPT"%cs
  | STATS_REJ_BAD_REQ => "REJ_BAD_REQ"%cs
  | STATS_REJ_OVERLOAD => "REJ_OVERLOAD"%cs
  | STATS_COMPILE_OK => "COMPILE_OK"%cs
  | STATS_COMPILE_ERROR => "COMPILE_ERROR"%cs
  | STATS_COMPILE_TIMEOUT => "COMPILE_TIMEOUT"%cs
  | STATS_CLI_DISCONN => "CLI_DISCONN"%cs
  | STATS_OTHER => "OTHER"%cs
  end.

Record server := Server {
  sv_os : os;
  sv_job : job_state;
  sv_cwd : cstr;                         (** the working directory *)
  sv_changed : bool;                     (** [changed_directory] of the job *)
  sv_log_fd : option nat;                (** [dcc_compile_log_fd] *)
  sv_map : option (option stringmap);    (** the command list, once looked for *)
  sv_stats : list stats_e;               (** events reported, latest first *)
  sv_ran : list cvec                     (** commands started, latest first *)
}.

Definition set_sv_os (o : os) (s : server) : server :=
  Server o (sv_job s) (sv_cwd s) (sv_changed s) (sv_log_fd s) (sv_map s) (sv_stats s) (sv_ran s).
Definition set_sv_job (j : job_state) (s : server) : server :=
  Server (sv_os s) j (sv_cwd s) (sv_changed s) (sv_log_fd s) (sv_map s) (sv_stats s) (sv_ran s).
Definition set_sv_cwd (d : cstr) (s : server) : server :=
  Server (sv_os s) (sv_job s) d (sv_changed s) (sv_log_fd s) (sv_map s) (sv_stats s) (sv_ran s).
Definition set_sv_changed (b : bool) (s : server) : server :=
  Server (sv_os s) (sv_job s) (sv_cwd s) b (sv_log_fd s) (sv_map s) (sv_stats s) (sv_ran s).
Definition set_sv_log_fd (fd : option nat) (s : server) : server :=
  Server (sv_os s) (sv_job s) (sv_cwd s) (sv_changed s) fd (sv_map s) (sv_stats s) (sv_ran s).
Definition set_sv_map (m : option stringmap) (s : server) : server :=
  Server (sv_os s) (sv_job s) (sv_cwd s) (sv_changed s) (sv_log_fd s) (Some m) (sv_stats s) (sv_ran s).

Definition on_so {A} : M os A → M server A := zoom sv_os set_sv_os.
Definition on_sw {A} (m : M world A) : M server A := on_so (on_w m).
Definition on_job {A} : M job_state A → M server A := zoom sv_job set_sv_job.

(** The pipe to the statistics process. *)
Definition dcc_stats_event (e : stats_e) : M server unit :=
  modify (λ s, Server (sv_os s) (sv_job s) (sv_cwd s) (sv_changed s) (sv_log_fd s) (sv_map s) (e :: sv_stats s) (sv_ran s)).

(** Start a command, and remember it. *)
Definition start (argv : cvec) (stdin_file stdout_file stderr_file : option cstr) : M server nat :=
  do! modify (λ s, Server (sv_os s) (sv_job s) (sv_cwd s) (sv_changed s) (sv_log_fd s) (sv_map s) (sv_stats s) (argv :: sv_ran s));
  on_so (dcc_spawn_child argv stdin_file stdout_file stderr_file).

(** ** util.c *)

Definition dcc_remove_if_exists (fname : cstr) : M world unit :=
  let! r := sys_unlink fname in
  match r with
  | inl _ | inr ENOENT => ret ()
  | inr _ => fail EXIT_IO_ERROR
  end.

(** ** The log of a job *)

Definition dcc_add_log_to_file (err_fname : cstr) : M server unit :=
  let! log := gets sv_log_fd in
  match log with
  | Some _ => ret ()
  | None =>
      let! fd := on_sw (sys_open_trunc err_fname) in
      match fd with
      | inr _ => fail EXIT_IO_ERROR
      | inl fd => modify (set_sv_log_fd (Some fd))
      end
  end.

Definition dcc_remove_log_to_file : M server unit :=
  let! log := gets sv_log_fd in
  match log with
  | None => ret ()
  | Some fd => do! attempt (on_sw (dcc_close fd)); modify (set_sv_log_fd None)
  end.

(** ** The list of compilers *)

(** What the calls of [fgets] with a buffer of [2 * PATH_MAX] bytes give. *)
Definition fgets_size : nat := 8191.
Fixpoint fgets_lines (fuel : nat) (text : cstr) : list cstr :=
  match fuel, text with
  | 0, _ | _, [] => []
  | S fuel, _ =>
      let line := take_line fgets_size text in
      c_string line :: fgets_lines fuel (drop (length line) text)
  end.

(** [false] is the return value 0, which makes the caller give up. *)
Definition dcc_remap_compiler (compiler_name : cstr) : M server (bool * option cstr) :=
  let! checked := gets sv_map in
  let! loaded :=
    (match checked with
     | Some m => ret (Some m)
     | None =>
         do! modify (set_sv_map None);
         let! filename := on_sw (getenv "DISTCC_CMDLIST"%cs) in
         match filename with
         | None => ret (Some None)
         | Some filename =>
             let! nw := on_sw (getenv "DISTCC_CMDLIST_NUMWORDS"%cs) in
             let k := match nw with Some nw => atoi nw | None => 1%Z end in
             let! file := on_sw (lookup_file filename) in
             let lines := match file with
                          | Some (NFile text) => Some (fgets_lines (length text) text)
                          | _ => None
                          end in
             let! m := throw (stringmap_load lines k) in
             match m with
             | None => ret None                     (* returns EXIT_IO_ERROR, which is not 0 *)
             | Some m => do! modify (set_sv_map (Some m)); ret (Some (Some m))
             end
         end
     end) in
  match loaded with
  | None | Some None => ret (true, Some compiler_name)
  | Some (Some m) =>
      let! newname := throw (stringmap_lookup m compiler_name) in
      match newname with
      | None => ret (false, Some compiler_name)
      | Some newname =>
          if streq newname compiler_name then ret (true, Some compiler_name)
          else
            let! ok := on_sw malloc in
            ret (true, if ok then Some newname else None)
      end
  end.

(** The loop only logs what it finds. *)
Fixpoint masq_check_loop (fuel : nat) (compiler_name p : cstr) : M world unit :=
  match fuel, p with
  | _, [] => ret ()
  | 0, _ => ub
  | S fuel, _ =>
      let '(dir, n) := next_dir p in
      do! malloc_or EXIT_DISTCC_FAILED;
      let buf := dir ++ "/"%cs ++ compiler_name in
      let! sb := sys_stat buf in
      match sb with
      | inr _ => masq_check_loop fuel compiler_name n
      | inl (NLink _) =>
          let! link := sys_readlink buf MAXPATHLEN in
          match link with
          | inr _ | inl [] => masq_check_loop fuel compiler_name n
          | inl linkbuf => if decide (length linkbuf < MAXPATHLEN) then ret () else ub
          end
      | inl _ => ret ()
      end
  end.

Definition dcc_check_compiler_masq (compiler_name : cstr) : M world unit :=
  if ceqb (cget compiler_name 0) "/" then ret ()
  else
    let! envpath := getenv "PATH"%cs in
    match envpath with
    | None => ret ()
    | Some envpath => masq_check_loop (S (length envpath)) compiler_name envpath
    end.

(** ** The command line for preprocessing here *)

Section tweak.
Context {St : Type} {MS : MemState St} {Cfg : Config}.

Definition include_options : list cstr :=
  ["-I"; "-include"; "-imacros"; "-idirafter"; "-iprefix"; "-iwithprefix"; "-iwithprefixbefore";
   "-isystem"; "-iquote"]%cs.

Fixpoint skip_slashes (s : cstr) : cstr :=
  match s with
  | c :: s' => if ceqb c "/" then skip_slashes s' else s
  | [] => []
  end.

(** The vector, changed or not, and the return code. *)
Fixpoint tweak_input_argument_for_server (argv : cvec) (root_dir : cstr) : M St (cvec * Z) :=
  match argv with
  | Null :: _ => ret (argv, 0%Z)
  | Str a :: rest =>
      if dcc_is_source a && ceqb (cget a 0) "/" then
        let! ok := malloc in
        ret (if ok : bool then (Str (root_dir ++ "/"%cs ++ skip_slashes a) :: rest, 0%Z)
             else (argv, EXIT_OUT_OF_MEMORY))
      else let! r := tweak_input_argument_for_server rest root_dir in ret (Str a :: r.1, r.2)
  | _ => ub
  end.

(** When [argv[i]] is an absolute name from index [n] on, [root_dir] goes before
    it; [None] when there is no memory. *)
Definition prefix_from (n : nat) (a root_dir : cstr) : M St (option cstr) :=
  if ceqb (cget (drop n a) 0) "/" then
    let! ok := malloc in ret (if ok : bool then Some (take n a ++ root_dir ++ drop n a) else None)
  else ret (Some a).

Definition include_option (a : cstr) : option cstr :=
  snd <$> list_find (λ o, str_startswith o a = true) include_options.

(** After an option at the very end the loop runs past the terminator. *)
Fixpoint tweak_include_arguments_for_server (argv : cvec) (root_dir : cstr) : M St (cvec * Z) :=
  match argv with
  | Null :: _ => ret (argv, 0%Z)
  | Str a :: rest =>
      match include_option a with
      | Some o =>
          if streq a o then
            match rest with
            | Str b :: rest' =>
                let! b := prefix_from 0 b root_dir in
                match b with
                | None => ret (argv, EXIT_OUT_OF_MEMORY)
                | Some b =>
                    let! r := tweak_include_arguments_for_server rest' root_dir in
                    ret (Str a :: Str b :: r.1, r.2)
                end
            | _ => ub
            end
          else
            let! a := prefix_from (length o) a root_dir in
            match a with
            | None => ret (argv, EXIT_OUT_OF_MEMORY)
            | Some a =>
                let! r := tweak_include_arguments_for_server rest root_dir in
                ret (Str a :: r.1, r.2)
            end
      | None => let! r := tweak_include_arguments_for_server rest root_dir in ret (Str a :: r.1, r.2)
      end
  | _ => ub
  end.

(** The target of the first -MT, and the vector without the two words; the
    slots after the new end keep what they had. *)
Fixpoint dcc_convert_mt_to_dotd_target (argv : cvec) : M St (option cstr * cvec) :=
  match argv with
  | Null :: _ => ret (None, argv)
  | Str a :: rest =>
      if streq a "-MT"%cs then
        match rest with
        | Str target :: rest =>
            let! n := dcc_argv_len rest in
            ret (Some target, take (S n) rest ++ drop (S n) argv)
        | Null :: _ => fail 1
        | _ => ub
        end
      else let! r := dcc_convert_mt_to_dotd_target rest in ret (r.1, Str a :: r.2)
  | _ => ub
  end.

(** [dcc_argv_append(argv, strdup(s))] *)
Definition append_copy (argv : cvec) (s : cstr) : M St cvec :=
  let! ok := malloc in dcc_argv_append argv (if ok : bool then Str s else Null).

(** What the two functions at the end return is not looked at. *)
Definition tweak_arguments_for_server (argv : cvec) (root_dir deps_fname : cstr) : M St (option cstr * cvec) :=
  let! r := attempt (dcc_copy_argv argv 3) in
  match r with
  | inr _ => fail 1
  | inl tweaked_argv =>
      let! r := attempt (dcc_convert_mt_to_dotd_target tweaked_argv) in
      match r with
      | inr _ => fail 1
      | inl (dotd_target, tweaked_argv) =>
          let! a := append_copy tweaked_argv "-MMD"%cs in
          let! a := append_copy a "-MF"%cs in
          let! a := append_copy a deps_fname in
          let! a := tweak_include_arguments_for_server a root_dir in
          let! a := tweak_input_argument_for_server a.1 root_dir in
          ret (dotd_target, a.1)
      end
  end.
End tweak.

(** ** tempfile.c *)

(** The directory [mkdtemp] makes of a template that ends in XXXXXX. *)
Class Mkdtemp := { mkdtemp_name : cstr → core → cstr }.

Section job.
Context {Cfg : Config} {LZO : Lzo} {Progs : Programs} {MK : Mkdtemp} {RES : Resolver}.

Definition mkdtemp (pattern : cstr) : M world (option cstr) :=
  let! path := gets (λ w, mkdtemp_name pattern (w_core w)) in
  let! r := sys_mkdir path in
  ret (match r with inl _ => Some path | inr _ => None end).

Definition dcc_get_new_tmpdir : M world cstr :=
  let! tmp_top := dcc_get_tmp_top in
  do! malloc_or EXIT_OUT_OF_MEMORY;
  let! d := mkdtemp (tmp_top ++ "/distccd_XXXXXX"%cs) in
  match d with
  | None => fail EXIT_IO_ERROR
  | Some s =>
      let! r := attempt (dcc_add_cleanup s) in
      match r with
      | inr e => let! _ := sys_rmdir s in fail e
      | inl _ => ret s
      end
  end.

(** [chdir] *)
Definition sys_chdir (path : cstr) : M server (unit + errno) :=
  let! r := on_sw (sys_access_dir path) in
  match r with
  | inl _ => do! modify (set_sv_cwd path); ret (inl ())
  | inr e => ret (inr e)
  end.

(** ** serve.c: a job *)

(** The temporary directory, and the working directories of the client. *)
Definition make_temp_dir_and_chdir_for_cpp (in_fd : nat) : M server cstr :=
  let! temp_dir := on_sw dcc_get_new_tmpdir in
  let! client_side_cwd := on_sw (dcc_r_cwd in_fd) in
  do! on_sw (malloc_or EXIT_OUT_OF_MEMORY);
  let server_side_cwd := temp_dir ++ client_side_cwd in
  do! on_sw (dcc_mk_tmp_ancestor_dirs server_side_cwd);
  do! on_sw (dcc_mk_tmpdir server_side_cwd);
  let! r := sys_chdir server_side_cwd in
  match r with
  | inr _ => fail EXIT_IO_ERROR
  | inl _ => ret temp_dir
  end.

(** [dcc_job_lifetime], 0 is for ever; [dcc_daemon_wd]. *)
Context (job_lifetime : Z) (daemon_wd : cstr).

(** What a request asks for. *)
Record sjob := SJob {
  sj_protover : Z;
  sj_compr : dcc_compress;
  sj_cpp_where : dcc_cpp_where;
  sj_temp_dir : cstr;              (** where the client's root is, with preprocessing here *)
  sj_argv : cvec;
  sj_orig_input : cstr;
  sj_orig_output : cstr;
  sj_temp_o : cstr;
  sj_dotd_target : option cstr
}.

(** The files of the request, and the command line for them.  With
    preprocessing here the code of a failure is dropped: [ret] stays 0. *)
Definition read_sources (in_fd : nat) (cpp_where : dcc_cpp_where) (compr : dcc_compress)
    (temp_dir orig_input temp_o deps_fname : cstr) (argv : cvec) : M server (option cstr * cvec) :=
  match cpp_where with
  | DCC_CPP_ON_SERVER =>
      let! r := attempt (on_sw (do! dcc_r_many_files in_fd temp_dir compr;
                                let! argv := dcc_set_output argv temp_o in
                                tweak_arguments_for_server argv temp_dir deps_fname)) in
      match r with
      | inr _ => fail 0
      | inl r => ret r
      end
  | DCC_CPP_ON_CLIENT =>
      let input_exten := dcc_find_extension orig_input ≫= λ dot, dcc_preproc_exten (drop dot orig_input) in
      let! temp_i := on_so (make_tmpnam "distccd"%cs (default ".tmp"%cs input_exten)) in
      do! on_sw (dcc_r_token_file in_fd "DOTI"%cs temp_i compr);
      let! argv := on_sw (dcc_set_input argv temp_i) in
      let! argv := on_sw (dcc_set_output argv temp_o) in
      ret (None, argv)
  end.

Definition read_request (in_fd : nat) (deps_fname : cstr) : M server sjob :=
  let! protover := on_sw (dcc_r_request_header in_fd) in
  let '(_, compr, cpp_where) := dcc_get_features_from_protover protover in
  let! temp_dir := (match cpp_where with
                    | DCC_CPP_ON_SERVER =>
                        let! temp_dir := make_temp_dir_and_chdir_for_cpp in_fd in
                        do! modify (set_sv_changed true);
                        ret temp_dir
                    | DCC_CPP_ON_CLIENT => ret []
                    end) in
  let! argv := on_sw (dcc_r_argv in_fd "ARGC"%cs "ARGV"%cs) in
  let! sc := on_sw (dcc_scan_args argv) in
  match sc with
  | (Some orig_input, Some orig_output, argv) =>
      let! b1 := on_sw malloc in
      let! b2 := on_sw malloc in
      if negb (b1 && b2) then fail EXIT_OUT_OF_MEMORY
      else
        let! temp_o := on_so (make_tmpnam "distccd"%cs ".o"%cs) in
        let! r := read_sources in_fd cpp_where compr temp_dir orig_input temp_o deps_fname argv in
        ret (SJob protover compr cpp_where temp_dir r.2 orig_input orig_output temp_o r.1)
  | _ => ub
  end.

(** The command line with the compiler that is to run. *)
Definition choose_compiler (argv : cvec) : M server cvec :=
  match argv with
  | Str argv0 :: rest =>
      let! r := dcc_remap_compiler argv0 in
      match r with
      | (false, _) => fail 0
      | (true, None) => ub
      | (true, Some argv0) =>
          do! on_sw (dcc_check_compiler_masq argv0);
          ret (Str argv0 :: rest)
      end
  | _ => ub
  end.

(** [compile_ret] and the wait status. *)
Definition run_compiler (in_fd : nat) (argv : cvec) (out_fname err_fname : cstr) : M server (Z * Z) :=
  let! r := attempt (let! cc_pid := start argv (Some "/dev/null"%cs) (Some out_fname) (Some err_fname) in
                     on_so (dcc_collect_child job_lifetime cc_pid (Some in_fd))) in
  ret (match r with
       | inl status => (0%Z, status)
       | inr e => (e, Z.shiftl (Z.land e 255) 8)
       end).

(** The files of a successful compilation. *)
Definition send_products (out_fd : nat) (j : sjob) (deps_fname : cstr) : M server Z :=
  do! (match sj_cpp_where j with
       | DCC_CPP_ON_SERVER => on_sw (dcc_fix_debug_info (sj_temp_o j) "/"%cs (sj_temp_dir j))
       | DCC_CPP_ON_CLIENT => ret ()
       end);
  do! on_sw (dcc_x_file out_fd (sj_temp_o j) "DOTO"%cs (sj_compr j));
  match sj_cpp_where j with
  | DCC_CPP_ON_SERVER =>
      let! pid := on_so (gets os_pid) in
      let! t := on_so sys_clock in
      let! cleaned_dotd := on_sw (dcc_cleanup_dotd (2 * MAXPATHLEN) pid t.1 t.2 deps_fname (sj_temp_dir j)
                                    (default (sj_orig_output j) (sj_dotd_target j)) (sj_temp_o j)) in
      let! r := attempt (on_sw (dcc_x_file out_fd cleaned_dotd "DOTD"%cs (sj_compr j))) in
      ret (match r with inl _ => 0%Z | inr e => e end)
  | DCC_CPP_ON_CLIENT => ret 0%Z
  end.

(** The answer: [ret] and [job_result]. *)
Definition send_answer (out_fd : nat) (j : sjob) (status : Z) (err_fname out_fname deps_fname : cstr) :
    M server (Z * stats_e) :=
  let! r := attempt (on_sw (do! dcc_x_result_header out_fd (sj_protover j);
                            do! dcc_x_cc_status out_fd status;
                            do! dcc_x_file out_fd err_fname "SERR"%cs (sj_compr j);
                            do! dcc_x_file out_fd out_fname "SOUT"%cs (sj_compr j);
                            ret ())) in
  match r with
  | inr e =>
      do! attempt (on_sw (dcc_x_token_int out_fd "DOTO"%cs 0)); ret (e, STATS_COMPILE_ERROR)
  | inl _ =>
      if status_failed status then
        do! attempt (on_sw (dcc_x_token_int out_fd "DOTO"%cs 0)); ret (0%Z, STATS_COMPILE_ERROR)
      else
        let! r := send_products out_fd j deps_fname in ret (r, STATS_COMPILE_OK)
  end.

(** What is known at the label [out_cleanup]; early on there is no result. *)
Record job_done := JobDone {
  jd_result : option stats_e;
  jd_status : Z;
  jd_argv0 : cstr;
  jd_input : cstr
}.

Definition job_body (in_fd out_fd : nat) : M server (Z * job_done) :=
  let! deps_fname := on_so (make_tmpnam "distcc"%cs ".deps"%cs) in
  let! err_fname := on_so (make_tmpnam "distcc"%cs ".stderr"%cs) in
  let! out_fname := on_so (make_tmpnam "distcc"%cs ".stdout"%cs) in
  do! attempt (on_sw (dcc_remove_if_exists deps_fname));
  do! attempt (on_sw (dcc_remove_if_exists err_fname));
  do! attempt (on_sw (dcc_remove_if_exists out_fname));
  do! attempt (dcc_add_log_to_file err_fname);
  let! j := read_request in_fd deps_fname in
  let! argv := choose_compiler (sj_argv j) in
  let! c := run_compiler in_fd argv out_fname err_fname in
  let '(compile_ret, status) := c in
  let! a := send_answer out_fd j status err_fname out_fname deps_fname in
  let '(ret0, job_result) := a in
  let job_result := if (compile_ret =? EXIT_IO_ERROR)%Z then STATS_CLI_DISCONN
                    else if (compile_ret =? EXIT_TIMEOUT)%Z then STATS_COMPILE_TIMEOUT
                    else job_result in
  ret (ret0, JobDone (Some job_result) status (match argv with Str a :: _ => a | _ => [] end) (sj_orig_input j)).

(** The [switch (ret)]. *)
Definition judge_job (ret0 : Z) (job_result : option stats_e) : stats_e :=
  if (ret0 =? EXIT_BUSY)%Z then STATS_REJ_OVERLOAD
  else if (ret0 =? EXIT_IO_ERROR)%Z then STATS_CLI_DISCONN
  else if (ret0 =? EXIT_PROTOCOL_ERROR)%Z then STATS_REJ_BAD_REQ
  else match job_result with
       | Some (STATS_COMPILE_ERROR | STATS_COMPILE_OK | STATS_CLI_DISCONN | STATS_COMPILE_TIMEOUT) =>
           default STATS_OTHER job_result
       | _ => STATS_OTHER
       end.

Definition append (s : cstr) : M server unit := on_job (dcc_job_summary_append s).

(** [" exit:%d sig:%d core:%d ret:%d time:%dms "] *)
Definition time_str (status ret0 time_ms : Z) : cstr :=
  " exit:"%cs ++ print_d (WEXITSTATUS status) ++ " sig:"%cs ++ print_d (WTERMSIG status) ++
  " core:"%cs ++ print_d (Z.land status 128) ++ " ret:"%cs ++ print_d ret0 ++
  " time:"%cs ++ print_d time_ms ++ "ms "%cs.

(** From the label on. *)
Definition out_cleanup (start_time : Z * Z) (ret0 : Z) (d : job_done) : M server Z :=
  let! changed_directory := gets sv_changed in
  do! (if changed_directory : bool then let! _ := sys_chdir daemon_wd in ret () else ret ());
  let job_result := judge_job ret0 (jd_result d) in
  let! end_time := on_so sys_clock in
  let time_ms := s32 ((end_time.1 - start_time.1) * 1000 + Z.quot (end_time.2 - start_time.2) 1000) in
  do! append " "%cs;
  do! append (stats_text job_result);
  do! dcc_stats_event job_result;
  let! ok := on_sw malloc in
  do! (if ok : bool then append (time_str (jd_status d) ret0 time_ms) else ret ());
  do! (match job_result with
       | STATS_COMPILE_ERROR | STATS_COMPILE_OK =>
           do! append (jd_argv0 d); do! append " "%cs; append (jd_input d)
       | _ => ret ()
       end);
  do! dcc_remove_log_to_file;
  do! on_sw dcc_cleanup_tempfiles;
  ret ret0.

Definition dcc_run_job (in_fd out_fd : nat) : M server Z :=
  do! modify (set_sv_changed false);
  let! start_time := on_so sys_clock in
  let! r := attempt (job_body in_fd out_fd) in
  match r with
  | inl (ret0, d) => out_cleanup start_time ret0 d
  | inr e => out_cleanup start_time e (JobDone None 0 [] [])
  end.

(** Without GSS-API. *)
Definition dcc_service_job (in_fd out_fd : nat) (cli_addr : option sockaddr)
    (opt_allowed : list (dcc_address * dcc_address)) : M server Z :=
  do! on_job dcc_job_summary_clear;
  let! r := on_job (dcc_check_client cli_addr opt_allowed) in
  if negb (r =? 0)%Z then ret r
  else dcc_run_job in_fd out_fd.
End job.

(** ** What a job leaves behind *)

(** Neither the command list, nor the commands started, nor the statistics
    change. *)
Definition steady {A} (m : M server A) : Prop := ∀ s,
  sv_map (m s).2 = sv_map s ∧ sv_ran (m s).2 = sv_ran s ∧ sv_stats (m s).2 = sv_stats s.

Create HintDb steady.

Lemma steady_bind {A B} (m : M server A) (k : A → M server B) :
  steady m → (∀ a, steady (k a)) → steady (bind m k).
Proof.
  intros Hm Hk s. specialize (Hm s). unfold bind. destruct (m s) as [[a|c|c|] s1]; simpl in *; try done.
  destruct (Hk a s1) as (-> & -> & ->). done.
Qed.

Lemma steady_attempt {A} (m : M server A) : steady m → steady (attempt m).
Proof. intros Hm s. specialize (Hm s). unfold attempt. by destruct (m s) as [[] s1]. Qed.

Lemma steady_on_so {A} (m : M os A) : steady (on_so m).
Proof. intros s. unfold on_so, zoom. by destruct (m (sv_os s)). Qed.

Lemma steady_on_job {A} (m : M job_state A) : steady (on_job m).
Proof. intros s. unfold on_job, zoom. by destruct (m (sv_job s)). Qed.

Lemma steady_throw {A} (o : outcome A) : steady (throw o).
Proof. done. Qed.
Lemma steady_ret {A} (a : A) : steady (ret a).
Proof. done. Qed.
Lemma steady_gets {A} (f : server → A) : steady (gets f).
Proof. done. Qed.
Lemma steady_log fd : steady (modify (set_sv_log_fd fd)).
Proof. done. Qed.
Lemma steady_cwd d : steady (modify (set_sv_cwd d)).
Proof. done. Qed.
Lemma steady_changed b : steady (modify (set_sv_changed b)).
Proof. done. Qed.

#[export] Hint Resolve steady_bind steady_attempt steady_on_so steady_on_job steady_throw steady_ret
  steady_gets steady_log steady_cwd steady_changed : steady.

(** Walk through the code; what it does to the process itself does not matter. *)
Ltac steady :=
  repeat first
    [ progress intros
    | progress unfold on_sw, append, fail, ub, exit_
    | solve [auto with steady nocore]
    | apply steady_bind | apply steady_attempt | progress case_match ].

Lemma wp_steady {A} (m : M server A) (Q : outcome A → server → Prop) s :
  steady m →
  (∀ o s', sv_map s' = sv_map s → sv_ran s' = sv_ran s → sv_stats s' = sv_stats s → Q o s') → wp m Q s.
Proof. intros Hm HQ. destruct (Hm s) as (? & ? & ?). by apply HQ. Qed.

Section after.
Context {Cfg : Config} {LZO : Lzo} {Progs : Programs} {MK : Mkdtemp} (job_lifetime : Z) (daemon_wd : cstr).

Lemma chdir_steady d : steady (sys_chdir d).
Proof. unfold sys_chdir. steady. Qed.
#[local] Hint Resolve chdir_steady : steady.

Lemma read_request_steady in_fd deps : steady (read_request in_fd deps).
Proof. unfold read_request, make_temp_dir_and_chdir_for_cpp, read_sources. steady. Qed.

Lemma send_answer_steady out_fd j status e o d : steady (send_answer out_fd j status e o d).
Proof. unfold send_answer, send_products. steady. Qed.

Lemma add_log_steady f : steady (dcc_add_log_to_file f).
Proof. unfold dcc_add_log_to_file. steady. Qed.

Lemma remove_log_steady : steady dcc_remove_log_to_file.
Proof. unfold dcc_remove_log_to_file. steady. Qed.
#[local] Hint Resolve read_request_steady send_answer_steady add_log_steady remove_log_steady : steady.

(** From [s] to [s']: nothing but the loading of the command list happened. *)
Definition idle (s s' : server) : Prop :=
  sv_ran s' = sv_ran s ∧ sv_stats s' = sv_stats s ∧ (∀ m, sv_map s = Some m → sv_map s' = Some m).

(** A command that the command list, when there is one, has; it has been looked
    for. *)
Definition listed (s : server) (argv : cvec) : Prop :=
  is_Some (sv_map s) ∧ ∀ m, sv_map s = Some (Some m) → ∃ v rest, argv = Str v :: rest ∧ v ∈ (map_entries m).*2.

Lemma find_entry_elem l key v : find_entry l key = Some v → v ∈ l.*2.
Proof.
  induction l as [|[k x] l IH]; simpl; [done|]. case_match; intros ?; simplify_eq; [by left|right; auto].
Qed.

Lemma idle_of s s' : sv_map s' = sv_map s → sv_ran s' = sv_ran s → sv_stats s' = sv_stats s → idle s s'.
Proof. intros E1 E2 E3. split; [done|split; [done|]]. intros m Hm. by rewrite E1. Qed.

Lemma idle_trans s1 s2 s3 : idle s1 s2 → idle s2 s3 → idle s1 s3.
Proof. intros (E1 & E2 & E3) (E4 & E5 & E6). split; [congruence|split; [congruence|auto]]. Qed.

Lemma remap_compiler_wp name s :
  wp (dcc_remap_compiler name)
     (λ o s', idle s s' ∧ match o with
                          | Ok (true, Some v) =>
                              is_Some (sv_map s') ∧ ∀ m, sv_map s' = Some (Some m) → v ∈ (map_entries m).*2
                          | _ => True
                          end) s.
Proof.
  unfold dcc_remap_compiler.
  apply wp_bind, wp_gets, wp_bind.
  eapply (wp_mono _ (λ o s1, idle s s1 ∧ match o with
                                          | Ok None => sv_map s1 = Some None
                                          | Ok (Some m) => sv_map s1 = Some m
                                          | _ => True
                                          end)).
  - destruct (sv_map s) as [m0|] eqn:Em; [apply wp_ret; split; [by apply idle_of|done]|].
    apply wp_bind, wp_modify, wp_bind, wp_steady; [steady|]. intros o s1 E1 E2 E3. simpl in *.
    assert (Hi : idle s s1) by by (split; [done|split; [done|]]; rewrite Em).
    destruct o as [[file|]|c|c|]; try done.
    apply wp_bind, wp_steady; [steady|]. intros o s2 F1 F2 F3.
    assert (Hi2 : idle s s2) by by (eapply idle_trans; [exact Hi|apply idle_of]).
    destruct o as [nw|c|c|]; try done. simpl.
    apply wp_bind, wp_steady; [steady|]. intros o s3 G1 G2 G3.
    assert (Hi3 : idle s s3) by by (eapply idle_trans; [exact Hi2|apply idle_of]).
    destruct o as [text|c|c|]; try done. apply wp_bind, wp_throw.
    destruct (stringmap_load _ _) as [[m|]|c|c|]; try done.
    + apply wp_bind, wp_modify, wp_ret. split; [|done]. destruct Hi3 as (I1 & I2 & I3).
      split; [done|split; [done|]]. by rewrite Em.
    + apply wp_ret. split; [done|]. simpl. congruence.
  - intros o s1 [Hi Ho]. destruct o as [[[m|]|]|c|c|]; try done.
    + apply wp_bind, wp_throw. destruct (stringmap_lookup m name) as [[v|]|?|?|] eqn:El; try done.
      assert (Hin : is_Some (sv_map s1) ∧ ∀ m', sv_map s1 = Some (Some m') → v ∈ (map_entries m').*2).
      { split; [eauto|]. intros m' Hm'. simplify_eq/=. unfold stringmap_lookup in El. case_match; simplify_eq.
        by eapply find_entry_elem. }
      case_match; [apply wp_ret; btest; by subst|].
      apply wp_bind, wp_steady; [steady|]. intros o s2 F1 F2 F3.
      assert (Hi2 : idle s s2) by by (eapply idle_trans; [exact Hi|apply idle_of]).
      destruct o as [[]|?|?|]; try done. apply wp_ret. split; [done|]. by rewrite F1.
    + apply wp_ret. split; [done|]. split; [eauto|]. intros m Hm. congruence.
    + apply wp_ret. split; [done|]. split; [eauto|]. intros m Hm. congruence.
Qed.

Lemma choose_compiler_wp argv s :
  wp (choose_compiler argv)
     (λ o s', idle s s' ∧ match o with Ok argv' => listed s' argv' | _ => True end) s.
Proof.
  unfold choose_compiler. destruct argv as [|[a0| |] rest]; try (split; [by apply idle_of|done]).
  apply wp_bind. eapply wp_mono; [apply remap_compiler_wp|]. intros o s1 [Hi Ho].
  destruct o as [[[] [v|]]|?|?|]; try done.
  apply wp_bind, wp_steady; [steady|]. intros o s2 F1 F2 F3.
  assert (Hi2 : idle s s2) by by (eapply idle_trans; [exact Hi|apply idle_of]).
  destruct o; try done. apply wp_ret. split; [done|]. unfold listed. rewrite F1. destruct Ho as [? Ho].
  split; [done|]. eauto.
Qed.

(** From [s] to [s'] at most one command was started, and the list has it. *)
Definition served (s s' : server) : Prop :=
  sv_stats s' = sv_stats s ∧ (∀ m, sv_map s = Some m → sv_map s' = Some m) ∧
  (sv_ran s' = sv_ran s ∨ ∃ argv, sv_ran s' = argv :: sv_ran s ∧ listed s' argv).

Lemma idle_served s s' : idle s s' → served s s'.
Proof. intros (E1 & E2 & E3). split; [done|split; [done|by left]]. Qed.

Lemma served_idle s1 s2 s3 : served s1 s2 → sv_map s3 = sv_map s2 → sv_ran s3 = sv_ran s2 →
  sv_stats s3 = sv_stats s2 → served s1 s3.
Proof.
  intros (E1 & E2 & E3) F1 F2 F3. split; [congruence|split].
  - intros m Hm. rewrite F1. auto.
  - rewrite F2. destruct E3 as [?|(argv & ? & Hl)]; [by left|right]. exists argv. split; [done|].
    unfold listed. by rewrite F1.
Qed.

Lemma run_compiler_wp in_fd argv out err s :
  wp (run_compiler job_lifetime in_fd argv out err)
     (λ o s', sv_map s' = sv_map s ∧ sv_ran s' = argv :: sv_ran s ∧ sv_stats s' = sv_stats s ∧
              match o with Fail _ => False | _ => True end) s.
Proof.
  unfold run_compiler, start. apply wp_bind, wp_attempt, wp_bind, wp_bind, wp_modify, wp_steady; [steady|].
  intros o s1 E1 E2 E3. destruct o; simpl in *; try done.
  apply wp_steady; [steady|]. intros o s2 F1 F2 F3. destruct o; [apply wp_ret|apply wp_ret|..];
    (split; [congruence|split; [congruence|split; [congruence|done]]]).
Qed.

Definition ran_one (s s' : server) : Prop := ∃ argv, sv_ran s' = argv :: sv_ran s.

(** A result is only there once the compiler has been started. *)
Definition ended {A} (s : server) (o : outcome A) (s' : server) : Prop :=
  served s s' ∧ match o with Ok _ => ran_one s s' | _ => True end.

Lemma steady_then {A B} (m : M server A) (k : A → M server B) s0 s :
  steady m → idle s0 s → (∀ a s', idle s0 s' → wp (k a) (ended s0) s') → wp (bind m k) (ended s0) s.
Proof.
  intros Hm Hi Hk. apply wp_bind, wp_steady; [done|]. intros o s1 E1 E2 E3.
  assert (Hi1 : idle s0 s1) by by (eapply idle_trans; [exact Hi|apply idle_of]).
  destruct o; [by apply Hk|..]; (split; [by apply idle_served|done]).
Qed.

Lemma job_body_wp in_fd out_fd s : wp (job_body job_lifetime in_fd out_fd) (ended s) s.
Proof.
  unfold job_body.
  assert (idle s s) as Hi by by apply idle_of. revert Hi. generalize s at 2 4. intros s1 Hi.
  do 8 (apply steady_then; [steady|exact Hi|]; clear Hi; clear s1; intros ? s1 Hi).
  apply wp_bind. eapply wp_mono; [apply choose_compiler_wp|]. intros o s2 [Hi2 Hl].
  pose proof (idle_trans _ _ _ Hi Hi2) as Hi3. destruct o; try (split; [by apply idle_served|done]).
  apply wp_bind. eapply wp_mono; [apply run_compiler_wp|]. intros o s3 (E1 & E2 & E3 & Ho).
  destruct Hi3 as (I1 & I2 & I3).
  assert (Hr : ran_one s s3) by (eexists; by rewrite E2, I1).
  assert (Hs : served s s3).
  { split; [congruence|split; [intros m Hm; rewrite E1; auto|right]]. eexists. rewrite E2, I1. split; [done|].
    unfold listed. by rewrite E1. }
  destruct o as [[compile_ret status]|?|?|]; try done.
  apply wp_bind, wp_steady; [steady|]. intros o s4 F1 F2 F3.
  assert (Hs4 : served s s4) by by eapply served_idle.
  destruct o as [[ret0 job_result]|?|?|]; [apply wp_ret|..]; (split; [done|]); try done.
  unfold ran_one. by rewrite F2.
Qed.

(** The job is over: the event [e] was reported, and nothing is left. *)
Definition closed {A} (a : A) (e : stats_e) (s : server) (o : outcome A) (s' : server) : Prop :=
  sv_map s' = sv_map s ∧ sv_ran s' = sv_ran s ∧
  match o with
  | Ok b => b = a ∧ sv_stats s' = e :: sv_stats s ∧ sv_log_fd s' = None ∧ c_cleanups (w_core (os_w (sv_os s'))) = []
  | Fail _ => False
  | Exit _ | Undef => True
  end.

(** Between [s] and [s'] the events [l] were reported. *)
Definition so_far (l : list stats_e) (s s' : server) : Prop :=
  sv_map s' = sv_map s ∧ sv_ran s' = sv_ran s ∧ sv_stats s' = l ++ sv_stats s.

Lemma quiet_then {A B} (m : M server A) (k : A → M server B) b e l s0 s :
  steady m → nofail m → so_far l s0 s → (∀ a s', so_far l s0 s' → wp (k a) (closed b e s0) s') →
  wp (bind m k) (closed b e s0) s.
Proof.
  intros Hm Hn (E1 & E2 & E3) Hk. apply wp_bind. specialize (Hm s) as (F1 & F2 & F3). specialize (Hn s).
  unfold wp at 1. destruct (m s) as [[a|c|c|] s1]; simpl in *; [|done| |].
  - apply Hk. split; [congruence|split; congruence].
  - split; [congruence|split; [congruence|done]].
  - split; [congruence|split; [congruence|done]].
Qed.

Lemma nofail_append x : nofail (append x).
Proof. unfold append, on_job, dcc_job_summary_append. nofail. Qed.

Lemma nofail_clock : nofail sys_clock.
Proof. intros o. unfold sys_clock. by destruct (os_clock o). Qed.
#[local] Hint Resolve nofail_append nofail_clock : nofail.

Lemma nofail_chdir d : nofail (sys_chdir d).
Proof. unfold sys_chdir, on_sw, on_so, on_w. nofail. Qed.
#[local] Hint Resolve nofail_chdir : nofail.

(** Removing a file or a directory, whether or not it works, leaves the list. *)
Definition same_list (o : outcome (unit + errno)) (w w' : world) : Prop :=
  c_cleanups (w_core w') = c_cleanups (w_core w) ∧ ∃ r, o = Ok r.

Lemma rmdir_list q w : wp (sys_rmdir q) (λ o w', same_list o w w') w.
Proof.
  unfold wp, sys_rmdir, fs_call, next_fs, lookup_file, bind, gets, modify_core, modify, ret, same_list.
  destruct (w_fs w) as [|[] ?]; simpl; repeat case_match; simplify_eq/=; eauto.
Qed.

Lemma unlink_list q w : wp (sys_unlink q) (λ o w', same_list o w w') w.
Proof.
  unfold wp, sys_unlink, fs_call, next_fs, lookup_file, bind, gets, modify_core, modify, ret, same_list.
  destruct (w_fs w) as [|[] ?]; simpl; repeat case_match; simplify_eq/=; eauto.
Qed.

Lemma cleanup_loop_empties save l w :
  c_cleanups (w_core w) = reverse l →
  wp (cleanup_loop save l) (λ o w', o = Ok () ∧ c_cleanups (w_core w') = []) w.
Proof.
  revert w. induction l as [|q l IH]; intros w Hl; [done|]. simpl.
  apply wp_bind, (wp_mono _ (λ o _, o = Ok ())).
  - destruct save; [done|]. unfold remove_one. apply wp_bind. eapply wp_mono; [apply rmdir_list|].
    intros o w1 [_ [[]  ->]]; [done|]. apply wp_bind. eapply wp_mono; [apply unlink_list|].
    by intros o w2 [_ [r ->]].
  - intros o w1 ->. apply wp_bind, wp_modify. by apply IH.
Qed.

Lemma cleanup_tempfiles_empties w :
  wp dcc_cleanup_tempfiles (λ o w', o = Ok () ∧ c_cleanups (w_core w') = []) w.
Proof.
  unfold dcc_cleanup_tempfiles. apply wp_bind. eapply wp_run; [apply getenv_bool_runs|]. cbn beta iota.
  apply wp_bind, wp_gets, cleanup_loop_empties. by rewrite reverse_involutive.
Qed.

Lemma remove_log_wp s :
  wp dcc_remove_log_to_file
     (λ o s', match o with Ok _ => sv_log_fd s' = None | Fail _ => False | _ => True end) s.
Proof.
  unfold dcc_remove_log_to_file. apply wp_bind, wp_gets. destruct (sv_log_fd s) eqn:E; [|done].
  apply wp_bind, wp_attempt. unfold wp. by destruct (on_sw (dcc_close n) s) as [[] ?].
Qed.

(** Do the next thing, which neither fails nor is recorded. *)
Ltac next H s1 :=
  eapply quiet_then; [steady|unfold on_sw, on_so, on_w; nofail|exact H|]; clear H; clear s1; intros ? s1 H.

Lemma out_cleanup_wp start_time ret0 d s :
  wp (out_cleanup daemon_wd start_time ret0 d) (closed ret0 (judge_job ret0 (jd_result d)) s) s.
Proof.
  unfold out_cleanup.
  assert (so_far [] s s) as Hi by done. revert Hi. generalize s at 2 4. intros s1 Hi.
  do 5 next Hi s1. apply wp_bind, wp_modify. set (s2 := Server _ _ _ _ _ _ _ _).
  assert (Hi2 : so_far [judge_job ret0 (jd_result d)] s s2).
  { destruct Hi as (E1 & E2 & E3). split; [done|split; [done|]]. simpl. by f_equal. }
  clearbody s2. clear Hi s1. do 3 next Hi2 s2.
  destruct Hi2 as (E1 & E2 & E3). apply wp_bind. destruct (remove_log_steady s2) as (F1 & F2 & F3).
  pose proof (remove_log_wp s2) as Hlog. unfold wp in Hlog. unfold wp at 1.
  destruct (dcc_remove_log_to_file s2) as [[u|?|?|] s3]; simpl in *;
    [|done|(split; [congruence|split; [congruence|done]])..].
  apply wp_bind. do 2 apply wp_zoom. eapply wp_mono; [apply cleanup_tempfiles_empties|].
  intros o w [-> Hw]. apply wp_ret. split; [simpl; congruence|split; [simpl; congruence|]].
  split; [done|split; [simpl; congruence|done]].
Qed.

Lemma judge_ok r res :
  judge_job r res = STATS_COMPILE_OK →
  res = Some STATS_COMPILE_OK ∧ r ∉ [EXIT_BUSY; EXIT_IO_ERROR; EXIT_PROTOCOL_ERROR].
Proof.
  unfold judge_job. intros H.
  destruct (Z.eqb_spec r EXIT_BUSY), (Z.eqb_spec r EXIT_IO_ERROR), (Z.eqb_spec r EXIT_PROTOCOL_ERROR);
    try done. destruct res as [[]|]; try done. set_solver.
Qed.

(** From [s] to [s'] at most one command was started, and the list has it. *)
Definition only_listed (s s' : server) : Prop :=
  (∀ m, sv_map s = Some m → sv_map s' = Some m) ∧
  (sv_ran s' = sv_ran s ∨ ∃ argv, sv_ran s' = argv :: sv_ran s ∧ listed s' argv).

(** The job is over. *)
Definition cleaned_up (s : server) (o : outcome Z) (s' : server) : Prop :=
  match o with
  | Ok r =>
      sv_log_fd s' = None ∧ c_cleanups (w_core (os_w (sv_os s'))) = [] ∧
      ∃ e, sv_stats s' = e :: sv_stats s ∧
        (e = STATS_COMPILE_OK → (∃ argv, sv_ran s' = argv :: sv_ran s) ∧
           r ∉ [EXIT_BUSY; EXIT_IO_ERROR; EXIT_PROTOCOL_ERROR])
  | Fail _ => False
  | Exit _ | Undef => True
  end.

Lemma run_job_wp in_fd out_fd s :
  wp (dcc_run_job job_lifetime daemon_wd in_fd out_fd) (λ o s', only_listed s s' ∧ cleaned_up s o s') s.
Proof.
  unfold dcc_run_job. apply wp_bind, wp_modify, wp_bind.
  assert (Hc : nofail (on_so sys_clock)) by (unfold on_so; nofail). specialize (Hc (set_sv_changed false s)).
  destruct (steady_on_so sys_clock (set_sv_changed false s)) as (E1 & E2 & E3). unfold wp at 1.
  destruct (on_so sys_clock _) as [o s1]; simpl in E1, E2, E3.
  assert (Hs : ∀ s2 s3, served s1 s2 → sv_map s3 = sv_map s2 → sv_ran s3 = sv_ran s2 → only_listed s s3).
  { intros s2 s3 (_ & Hm & Hr) F1 F2. split; [intros m ?; rewrite F1; apply Hm; by rewrite E1|].
    rewrite F2, <- E2. destruct Hr as [?|(argv & ? & Hl)]; [by left|right]. exists argv. split; [done|].
    unfold listed. by rewrite F1. }
  destruct o as [t|c|c|]; [|done|(split; [by apply (Hs s1 s1); [apply idle_served, idle_of|..]|done])..].
  apply wp_bind, wp_attempt. eapply wp_mono; [apply job_body_wp|]. intros o s2 [H2 Hran].
  pose proof H2 as (F3 & _). simpl in F3.
  destruct o as [[ret0 d]|c|c|]; [| |(split; [by apply (Hs s2 s2)|done])..];
    (eapply wp_mono; [apply out_cleanup_wp|]); intros o s3 (G1 & G2 & G3); (split; [by apply (Hs s2 s3)|]);
    destruct o as [r|?|?|]; try done; destruct G3 as (-> & G3 & G4 & G5); (split; [done|split; [done|]]); eexists;
    (split; [rewrite G3; f_equal; congruence|]); intros [Hr Hn]%judge_ok; (split; [|done]); [|done].
  destruct Hran as [argv H3]. exists argv. rewrite G2, H3. simpl. by rewrite E2.
Qed.

(** C8. A job starts at most one command, whatever the client sends and the
    kernel does.  A command list, once loaded, stays, and while there is one the
    program that is started is one of its entries. *)
Theorem serve_only_listed (in_fd out_fd : nat) (s : server) :
  wp (dcc_run_job job_lifetime daemon_wd in_fd out_fd)
     (λ _ s', (∀ m, sv_map s = Some m → sv_map s' = Some m) ∧
        (sv_ran s' = sv_ran s ∨
         ∃ argv, sv_ran s' = argv :: sv_ran s ∧
           ∀ m, sv_map s' = Some (Some m) → ∃ v rest, argv = Str v :: rest ∧ v ∈ (map_entries m).*2)) s.
Proof.
  eapply wp_mono; [apply run_job_wp|]. intros o s' [[Hm Hr] _]. split; [done|].
  destruct Hr as [?|(argv & ? & _ & ?)]; eauto.
Qed.

(** A job with the check of the client before it. *)
Lemma service_job_wp {RES : Resolver} in_fd out_fd addr allowed s :
  wp (dcc_service_job job_lifetime daemon_wd in_fd out_fd addr allowed)
     (λ o s', only_listed s s' ∧
        match o with
        | Exit _ | Undef => True
        | _ => sv_stats s' = sv_stats s ∨ ∃ e, sv_stats s' = e :: sv_stats s
        end) s.
Proof.
  assert (Hid : ∀ s1, sv_map s1 = sv_map s → sv_ran s1 = sv_ran s → only_listed s s1).
  { intros s1 E1 E2. split; [by rewrite E1|by left]. }
  unfold dcc_service_job. apply wp_bind, wp_steady; [steady|]. intros o s1 E1 E2 E3. destruct o; [|by auto..].
  apply wp_bind, wp_steady; [steady|]. intros o s2 F1 F2 F3. rewrite E1 in F1. rewrite E2 in F2. rewrite E3 in F3.
  destruct o as [r|?|?|]; [|by auto..].
  case_match; [apply wp_ret; by auto|]. eapply wp_mono; [apply run_job_wp|]. intros o s3 [[G1 G2] G3].
  split; [split; [by rewrite <- F1|by rewrite <- F2]|].
  destruct o; [|done..]. destruct G3 as (_ & _ & e & G3 & _). right. exists e. by rewrite G3, F3.
Qed.
End after.
