(* ===== verification/ServeExit.v ===== *)
(** * How a job can end

    A job returns by way of its cleanup, or the process of the server ends with
    [exit()] on the way.  [calm I m]: started in a state with [I], [m] does not
    call [exit()], and keeps [I].  With an I/O timeout that can be used
    everything a job does is calm, but for [dcc_scan_args]. *)

From S2P Require Import Prelude CLib Util Filename Argv Arg World Io Rpc Tempfile Bulk Results Hosts Access Dotd Request Exec Text FixDebug Serve.

Definition stays_in {A} (o : outcome A) : Prop := match o with Exit _ => False | _ => True end.

Definition calm {S A} (I : S → Prop) (m : M S A) : Prop := ∀ s, I s → I (m s).2 ∧ stays_in (m s).1.

Section calm.
Context {S : Type} (I : S → Prop).

Lemma calm_ret {A} (a : A) : calm I (ret a).
Proof. done. Qed.
Lemma calm_throw {A} (o : outcome A) : stays_in o → calm I (throw o).
Proof. done. Qed.
Lemma calm_gets {A} (f : S → A) : calm I (gets f).
Proof. done. Qed.
Lemma calm_modify (f : S → S) : (∀ s, I s → I (f s)) → calm I (modify f).
Proof. intros Hf s Hs. split; [by apply Hf|done]. Qed.
Lemma calm_bind {A B} (m : M S A) (k : A → M S B) : calm I m → (∀ a, calm I (k a)) → calm I (bind m k).
Proof.
  intros Hm Hk s Hs. destruct (Hm s Hs) as [H1 H2]. unfold bind.
  destruct (m s) as [[] s1]; simpl in *; [by apply Hk|done..].
Qed.
Lemma calm_attempt {A} (m : M S A) : calm I m → calm I (attempt m).
Proof. intros Hm s Hs. destruct (Hm s Hs) as [H1 H2]. unfold attempt. by destruct (m s) as [[] s1]. Qed.
Lemma calm_fuel {A} (m : nat → M S A) (f : S → nat) : (∀ n, calm I (m n)) → calm I (λ s, m (f s) s).
Proof. intros Hm s Hs. by apply Hm. Qed.
Lemma calm_answers {A} (m : M S A) : (∀ s, I s → ∃ a s', m s = (Ok a, s') ∧ I s') → calm I m.
Proof. intros Hm s Hs. by destruct (Hm s Hs) as (a & s' & -> & H). Qed.
End calm.

Create HintDb calm.

(** Work through a computation; fixpoints and known calls come from the hints. *)
Ltac calm :=
  repeat first
    [ progress intros
    | apply calm_ret
    | apply calm_gets
    | assumption
    | by auto 2 with calm
    | lazymatch goal with
      | |- calm _ (throw _) => by apply calm_throw
      | |- calm _ (fail _) => by apply calm_throw
      | |- calm _ ub => by apply calm_throw
      | |- calm _ (modify _) => apply calm_modify; done
      | |- calm _ (bind _ _) => apply calm_bind
      | |- calm _ (attempt _) => apply calm_attempt
      | |- calm _ (match _ with _ => _ end) => case_match
      | |- calm _ (let _ := _ in _) => cbv zeta
      | |- calm _ (match _ with _ => _ end _) => case_match
      end ].

Tactic Notation "calm_loop" reference(f) hyp(n) :=
  let IH := fresh "IH" in induction n as [|? IH]; intros; cbn [f]; calm.

(** ** Argument vectors *)

Section vectors.
Context {St : Type} {MS : MemState St} {Cfg : Config} (I : St → Prop) (Hmalloc : calm I malloc).

Lemma calm_malloc_or e : calm I (malloc_or e).
Proof. unfold malloc_or. calm. Qed.
Hint Resolve Hmalloc calm_malloc_or : calm.
Lemma calm_argv_len a : calm I (dcc_argv_len a).
Proof. calm_loop dcc_argv_len a. Qed.
Hint Resolve calm_argv_len : calm.
Lemma calm_copy_elems a l : calm I (copy_elems a l).
Proof. revert l. calm_loop copy_elems a. Qed.
Hint Resolve calm_copy_elems : calm.
Lemma calm_copy_argv a d : calm I (dcc_copy_argv a d).
Proof. unfold dcc_copy_argv. calm. Qed.
Hint Resolve calm_copy_argv : calm.
Lemma calm_argv_append a v : calm I (dcc_argv_append a v).
Proof. unfold dcc_argv_append, store. calm. Qed.
Hint Resolve calm_argv_append : calm.
Lemma calm_set_output a f : calm I (dcc_set_output a f).
Proof. calm_loop dcc_set_output a. Qed.
Lemma calm_set_input a f : calm I (dcc_set_input a f).
Proof. calm_loop dcc_set_input a. Qed.
Lemma calm_tweak_input a r : calm I (tweak_input_argument_for_server a r).
Proof. calm_loop tweak_input_argument_for_server a. Qed.
Lemma calm_prefix_from n a r : calm I (prefix_from n a r).
Proof. unfold prefix_from. calm. Qed.
Hint Resolve calm_tweak_input calm_prefix_from : calm.
Lemma calm_tweak_include a r : calm I (tweak_include_arguments_for_server a r).
Proof.
  induction a as [a IH] using (induction_ltof1 _ (@length _)); unfold ltof in IH.
  destruct a as [|[] a]; cbn [tweak_include_arguments_for_server]; calm; subst; apply IH; simpl; lia.
Qed.
Lemma calm_convert_mt a : calm I (dcc_convert_mt_to_dotd_target a).
Proof. calm_loop dcc_convert_mt_to_dotd_target a. Qed.
Hint Resolve calm_tweak_include calm_convert_mt : calm.
Lemma calm_tweak_arguments a r d : calm I (tweak_arguments_for_server a r d).
Proof. unfold tweak_arguments_for_server, append_copy. calm. Qed.

(** The scan exits only on a first word that is an option. *)
Definition dash_first (argv : cvec) : Prop := ∃ a rest, argv = Str a :: rest ∧ cget a 0 = "-"%char.

Lemma calm_output_from_source s o : calm I (dcc_output_from_source s o).
Proof. unfold dcc_output_from_source, dcc_set_file_extension. calm. Qed.
Hint Resolve calm_output_from_source : calm.
Lemma calm_scan_finish a st : calm I (scan_finish a st).
Proof. unfold scan_finish. calm. Qed.
Hint Resolve calm_scan_finish : calm.

Lemma copy_argv_head a s a0 b s' :
  dcc_copy_argv a 2 s = (Ok (Str a0 :: b), s') → ∃ rest, a = Str a0 :: rest.
Proof.
  unfold dcc_copy_argv. intros E. apply bind_inv_Ok in E as (l & s1 & _ & E). apply bind_inv_Ok in E as (u & s2 & _ & E).
  apply bind_inv_Ok in E as (x & s3 & Ex & E). injection E as Eb _.
  destruct a as [|[v| |] rest], l as [|l]; cbn [copy_elems] in Ex; try (unfold ret in Ex; simplify_eq/=).
  apply bind_inv_Ok in Ex as (u' & s4 & _ & Ex). apply bind_inv_Ok in Ex as (y & s5 & _ & Ex).
  unfold ret in Ex. simplify_eq/=. eauto.
Qed.

Lemma scan_args_exits argv s :
  I s → I (dcc_scan_args argv s).2 ∧
    match (dcc_scan_args argv s).1 with Exit c => c = EXIT_BAD_ARGUMENTS ∧ dash_first argv | _ => True end.
Proof.
  intros Hs.
  assert (I (dcc_scan_args_full argv s).2 ∧
    match (dcc_scan_args_full argv s).1 with Exit c => c = EXIT_BAD_ARGUMENTS ∧ dash_first argv | _ => True end) as H.
  { unfold dcc_scan_args_full, bind. pose proof (copy_argv_head argv s) as Hh. pose proof (calm_copy_argv argv 2 s Hs) as [Hc Ho].
    destruct (dcc_copy_argv argv 2 s) as [[b|?|?|] s1]; simpl in *; try done.
    destruct b as [|[a0| |] b]; try done. destruct (ceqb (cget a0 0) "-") eqn:Ed.
    - split; [done|]. split; [done|]. destruct (Hh _ _ _ eq_refl) as [rest ->]. exists a0, rest. split; [done|]. by apply ceqb_true.
    - destruct (scan_loop _ _) as [[r st]| | |]; try done.
      destruct (r =? 0)%Z; [|done]. destruct (calm_scan_finish (Str a0 :: b) st s1 Hc) as [H1 H2].
      split; [done|]. by destruct (scan_finish _ _ _).1. }
  unfold dcc_scan_args, bind. destruct (dcc_scan_args_full argv s) as [[r|?|?|] s1]; simpl in *; try done. by case_match.
Qed.
End vectors.

(** ** The kernel *)

Abbreviation in_time := (calm timeout_ok).

Lemma calm_malloc : in_time malloc.
Proof. apply calm_answers. intros w Hw. unfold malloc. simpl. destruct (w_mem w); eauto. Qed.
Lemma calm_malloc_or_w e : in_time (malloc_or e).
Proof. apply calm_malloc_or, calm_malloc. Qed.
#[local] Hint Resolve calm_malloc calm_malloc_or_w : calm.

Ltac answer := apply calm_answers; intros; repeat (case_match; simplify_eq/=); eauto.

Lemma calm_next_xfer n w : timeout_ok w → timeout_ok (next_xfer n w).2.
Proof. unfold next_xfer. by destruct (w_xfer w). Qed.
Lemma calm_read fd n : in_time (sys_read fd n).
Proof. unfold sys_read, next_xfer. answer. Qed.
Lemma calm_write fd b : in_time (sys_write fd b).
Proof. unfold sys_write, next_xfer. answer. Qed.
Lemma calm_sendfile o i n z : in_time (sys_sendfile o i n z).
Proof. unfold sys_sendfile, next_xfer. answer. Qed.
Lemma calm_write_start fd b : in_time (sys_write_start fd b).
Proof. unfold sys_write_start, next_xfer. answer. Qed.
Lemma calm_add_fd d : in_time (add_fd d).
Proof. unfold add_fd. answer. Qed.
Lemma calm_next_fs : in_time next_fs.
Proof. unfold next_fs. answer. Qed.
#[local] Hint Resolve calm_read calm_write calm_sendfile calm_write_start calm_add_fd calm_next_fs : calm.
Lemma calm_modify_core f : in_time (modify_core f).
Proof. unfold modify_core. calm. Qed.
Lemma calm_lookup_file p : in_time (lookup_file p).
Proof. unfold lookup_file. calm. Qed.
Lemma calm_getenv n : in_time (getenv n).
Proof. unfold getenv. calm. Qed.
Lemma calm_getenv_bool n d : in_time (dcc_getenv_bool n d).
Proof. pose proof calm_getenv. unfold dcc_getenv_bool. calm. Qed.
#[local] Hint Resolve calm_modify_core calm_lookup_file calm_getenv calm_getenv_bool : calm.
Ltac file_call f := unfold f, fs_call; calm.
Lemma calm_open_read p : in_time (sys_open_read p).
Proof. file_call sys_open_read. Qed.
Lemma calm_open_trunc p : in_time (sys_open_trunc p).
Proof. file_call sys_open_trunc. Qed.
Lemma calm_open_excl p : in_time (sys_open_excl p).
Proof. file_call sys_open_excl. Qed.
Lemma calm_open_rdwr p : in_time (sys_open_rdwr p).
Proof. file_call sys_open_rdwr. Qed.
Lemma calm_access_dir p : in_time (sys_access_dir p).
Proof. file_call sys_access_dir. Qed.
Lemma calm_fstat fd : in_time (sys_fstat fd).
Proof. file_call sys_fstat. Qed.
Lemma calm_stat p : in_time (sys_stat p).
Proof. file_call sys_stat. Qed.
Lemma calm_unlink p : in_time (sys_unlink p).
Proof. file_call sys_unlink. Qed.
Lemma calm_mkdir p : in_time (sys_mkdir p).
Proof. file_call sys_mkdir. Qed.
Lemma calm_rmdir p : in_time (sys_rmdir p).
Proof. file_call sys_rmdir. Qed.
Lemma calm_symlink t p : in_time (sys_symlink t p).
Proof. file_call sys_symlink. Qed.
Lemma calm_readlink p n : in_time (sys_readlink p n).
Proof. file_call sys_readlink. Qed.
Lemma calm_close fd : in_time (sys_close fd).
Proof. file_call sys_close. Qed.
Lemma calm_rewind fd : in_time (sys_rewind fd).
Proof. file_call sys_rewind. Qed.
Lemma calm_fgets n fd : in_time (fgets n fd).
Proof. file_call fgets. Qed.
Lemma calm_fputs fd t : in_time (fputs fd t).
Proof. file_call fputs. Qed.
#[local] Hint Resolve calm_open_read calm_open_trunc calm_open_excl calm_open_rdwr calm_access_dir calm_fstat calm_stat calm_unlink calm_mkdir calm_rmdir calm_symlink calm_readlink calm_close calm_rewind calm_fgets calm_fputs : calm.

(** ** Moving bytes *)

Lemma calm_io_timeout : in_time dcc_get_io_timeout.
Proof.
  intros w Hw. destruct (get_io_timeout_ok w Hw) as (t & -> & Ht). split; [|done]. by left.
Qed.
Lemma select_loop_calm l : stays_in (select_loop l).1.
Proof. induction l as [|[| |[]] l IH]; done. Qed.
Lemma calm_select_read fd t : in_time (dcc_select_for_read fd t).
Proof. intros w Hw. unfold dcc_select_for_read. pose proof (select_loop_calm (w_sel w)). by case_match. Qed.
Lemma calm_select_write fd t : in_time (dcc_select_for_write fd t).
Proof. intros w Hw. unfold dcc_select_for_write. pose proof (select_loop_calm (w_sel w)). by case_match. Qed.
#[local] Hint Resolve calm_io_timeout calm_select_read calm_select_write : calm.

Lemma calm_readx_loop n fd len : in_time (readx_loop n fd len).
Proof. revert len. calm_loop readx_loop n. Qed.
Lemma calm_readx fd len : in_time (dcc_readx fd len).
Proof. apply (calm_fuel timeout_ok (λ n, readx_loop n fd len)). intros. apply calm_readx_loop. Qed.
Lemma calm_writex_loop n fd buf : in_time (writex_loop n fd buf).
Proof. revert buf. calm_loop writex_loop n. Qed.
Lemma calm_writex fd buf : in_time (dcc_writex fd buf).
Proof. apply (calm_fuel timeout_ok (λ n, writex_loop n fd buf)). intros. apply calm_writex_loop. Qed.
Lemma calm_dcc_close fd : in_time (dcc_close fd).
Proof. unfold dcc_close. calm. Qed.
Lemma calm_pump_write n fd buf : in_time (pump_write n fd buf).
Proof. revert buf. calm_loop pump_write n. Qed.
Lemma calm_pump_loop n ofd ifd len : in_time (pump_loop n ofd ifd len).
Proof.
  revert len. calm_loop pump_loop n.
  all: apply (calm_fuel timeout_ok (λ n, pump_write n ofd _)); intros; apply calm_pump_write.
Qed.
Lemma calm_pump_readwrite ofd ifd len : in_time (dcc_pump_readwrite ofd ifd len).
Proof. apply (calm_fuel timeout_ok (λ n, pump_loop n ofd ifd len)). intros. apply calm_pump_loop. Qed.
#[local] Hint Resolve calm_readx calm_writex calm_dcc_close calm_pump_readwrite : calm.
Lemma calm_sendfile_loop n ofd ifd off len : in_time (sendfile_loop n ofd ifd off len).
Proof. revert off len. calm_loop sendfile_loop n. Qed.
Lemma calm_pump_sendfile ofd ifd len : in_time (dcc_pump_sendfile ofd ifd len).
Proof. apply (calm_fuel timeout_ok (λ n, sendfile_loop n ofd ifd 0 len)). intros. apply calm_sendfile_loop. Qed.
#[local] Hint Resolve calm_pump_sendfile : calm.

(** ** The wire format *)

Lemma calm_explain_mismatch a b c : in_time (dcc_explain_mismatch a b c).
Proof. unfold dcc_explain_mismatch. calm. Qed.
#[local] Hint Resolve calm_explain_mismatch : calm.
Lemma calm_x_token_int fd t p : in_time (dcc_x_token_int fd t p).
Proof. unfold dcc_x_token_int. calm. Qed.
Lemma calm_r_token fd : in_time (dcc_r_token fd).
Proof. unfold dcc_r_token. calm. Qed.
#[local] Hint Resolve calm_x_token_int calm_r_token : calm.
Lemma calm_r_token_int fd t : in_time (dcc_r_token_int fd t).
Proof. unfold dcc_r_token_int. calm. Qed.
Lemma calm_r_sometoken_int fd : in_time (dcc_r_sometoken_int fd).
Proof. unfold dcc_r_sometoken_int. calm. Qed.
Lemma calm_r_str_alloc fd l : in_time (dcc_r_str_alloc fd l).
Proof. unfold dcc_r_str_alloc. calm. Qed.
#[local] Hint Resolve calm_r_token_int calm_r_sometoken_int calm_r_str_alloc : calm.
Lemma calm_r_token_string fd t : in_time (dcc_r_token_string fd t).
Proof. unfold dcc_r_token_string. calm. Qed.
#[local] Hint Resolve calm_r_token_string : calm.
Lemma calm_r_argv_loop n fd t : in_time (r_argv_loop n fd t).
Proof. calm_loop r_argv_loop n. Qed.
#[local] Hint Resolve calm_r_argv_loop : calm.
Lemma calm_r_argv fd s t : in_time (dcc_r_argv fd s t).
Proof. unfold dcc_r_argv. calm. Qed.
Lemma calm_r_request_header fd : in_time (dcc_r_request_header fd).
Proof. unfold dcc_r_request_header. calm. Qed.
Lemma calm_r_cwd fd : in_time (dcc_r_cwd fd).
Proof. unfold dcc_r_cwd. calm. Qed.
Lemma calm_x_result_header fd v : in_time (dcc_x_result_header fd v).
Proof. unfold dcc_x_result_header. calm. Qed.
Lemma calm_x_cc_status fd v : in_time (dcc_x_cc_status fd v).
Proof. unfold dcc_x_cc_status. calm. Qed.
#[local] Hint Resolve calm_r_argv calm_r_request_header calm_r_cwd calm_x_result_header calm_x_cc_status : calm.

(** ** Files *)

Lemma calm_add_cleanup f : in_time (dcc_add_cleanup f).
Proof. unfold dcc_add_cleanup. calm. Qed.
#[local] Hint Resolve calm_add_cleanup : calm.
Lemma calm_mk_tmpdir p : in_time (dcc_mk_tmpdir p).
Proof. unfold dcc_mk_tmpdir. calm. Qed.
Lemma calm_get_tmp_top : in_time dcc_get_tmp_top.
Proof. unfold dcc_get_tmp_top. calm. Qed.
#[local] Hint Resolve calm_mk_tmpdir calm_get_tmp_top : calm.
Lemma calm_ancestors_loop copy i n : in_time (ancestors_loop copy i n).
Proof. revert i. calm_loop ancestors_loop n. Qed.
#[local] Hint Resolve calm_ancestors_loop : calm.
Lemma calm_mk_tmp_ancestor_dirs p : in_time (dcc_mk_tmp_ancestor_dirs p).
Proof. unfold dcc_mk_tmp_ancestor_dirs. calm. Qed.
Lemma calm_tmpnam_loop n t p s r : in_time (tmpnam_loop n t p s r).
Proof. revert r. calm_loop tmpnam_loop n. Qed.
#[local] Hint Resolve calm_mk_tmp_ancestor_dirs calm_tmpnam_loop : calm.
Lemma calm_make_tmpnam pid sec usec p s : in_time (dcc_make_tmpnam pid sec usec p s).
Proof.
  unfold dcc_make_tmpnam. intros w Hw. generalize (S (length (w_fs w) + size (c_files (w_core w)))). intros n.
  lazymatch goal with |- timeout_ok (?m w).2 ∧ _ => assert (in_time m) as H by calm end. by apply H.
Qed.
Lemma calm_remove_if_exists f : in_time (dcc_remove_if_exists f).
Proof. unfold dcc_remove_if_exists. calm. Qed.
#[local] Hint Resolve calm_make_tmpnam calm_remove_if_exists : calm.

Section files.
Context {Cfg : Config} {LZO : Lzo}.

Lemma calm_compress_lzo1x_alloc b : in_time (dcc_compress_lzo1x_alloc b).
Proof. unfold dcc_compress_lzo1x_alloc. calm. Qed.
Hint Resolve calm_compress_lzo1x_alloc : calm.
Lemma calm_compress_file_lzo1x fd n : in_time (dcc_compress_file_lzo1x fd n).
Proof. unfold dcc_compress_file_lzo1x. calm. Qed.
Hint Resolve calm_compress_file_lzo1x : calm.
Lemma calm_decompress_loop n fd b s : in_time (decompress_loop n fd b s).
Proof. revert s. calm_loop decompress_loop n. Qed.
Hint Resolve calm_decompress_loop : calm.
Lemma calm_r_bulk_lzo1x o i n : in_time (dcc_r_bulk_lzo1x o i n).
Proof. unfold dcc_r_bulk_lzo1x. calm. Qed.
Hint Resolve calm_r_bulk_lzo1x : calm.
Lemma calm_r_bulk o i n z : in_time (dcc_r_bulk o i n z).
Proof. unfold dcc_r_bulk. calm. Qed.
Hint Resolve calm_r_bulk : calm.
Lemma calm_dcc_open_read f : in_time (dcc_open_read f).
Proof. unfold dcc_open_read. calm. Qed.
Hint Resolve calm_dcc_open_read : calm.
Lemma calm_x_file_lzo1x o i t n : in_time (dcc_x_file_lzo1x o i t n).
Proof. unfold dcc_x_file_lzo1x. calm. Qed.
Hint Resolve calm_x_file_lzo1x : calm.
Lemma calm_x_file o f t z : in_time (dcc_x_file o f t z).
Proof. unfold dcc_x_file. calm. Qed.
Lemma calm_r_file i f n z : in_time (dcc_r_file i f n z).
Proof. unfold dcc_r_file. calm. Qed.
Hint Resolve calm_r_file : calm.
Lemma calm_r_file_timed i f n z : in_time (dcc_r_file_timed i f n z).
Proof. unfold dcc_r_file_timed. calm. Qed.
Hint Resolve calm_r_file_timed : calm.
Lemma calm_r_token_file i t f z : in_time (dcc_r_token_file i t f z).
Proof. unfold dcc_r_token_file. calm. Qed.
Lemma calm_r_one_file i d z : in_time (r_one_file i d z).
Proof. unfold r_one_file, cleanup_or_unlink, prepend_dir_to_name. calm. Qed.
Hint Resolve calm_r_one_file : calm.
Lemma calm_r_files_loop n i d z : in_time (r_files_loop n i d z).
Proof. calm_loop r_files_loop n. Qed.
Hint Resolve calm_r_files_loop : calm.
Lemma calm_r_many_files i d z : in_time (dcc_r_many_files i d z).
Proof. unfold dcc_r_many_files. calm. Qed.

(** *** The debug sections: a computation on a block of memory *)

Lemma calm_rd n off : calm (λ _ : cstr, True) (rd n off).
Proof. intros mem _. unfold rd. by case_match. Qed.
Hint Resolve calm_rd : calm.
Lemma calm_strcmp_at off s : calm (λ _ : cstr, True) (strcmp_at off s).
Proof. revert off. calm_loop strcmp_at s. Qed.
Hint Resolve calm_strcmp_at : calm.
Lemma calm_section_loop n lay a b i k name : calm (λ _ : cstr, True) (section_loop n lay a b i k name).
Proof. revert i. calm_loop section_loop n. Qed.
Hint Resolve calm_section_loop : calm.
Lemma calm_find_in lay name : calm (λ _ : cstr, True) (find_in lay name).
Proof. unfold find_in. calm. Qed.
Hint Resolve calm_find_in : calm.
Lemma calm_find_section name : calm (λ _ : cstr, True) (FindElfSection name).
Proof. unfold FindElfSection. calm. Qed.
Hint Resolve calm_find_section : calm.
Lemma calm_replace_loop n p s r k : calm (λ _ : cstr, True) (replace_loop n p s r k).
Proof.
  revert p k. calm_loop replace_loop n; unfold memcmp_at, memcpy_at; intros mem _; by case_match.
Qed.
Hint Resolve calm_replace_loop : calm.
Lemma calm_update_section name s r : calm (λ _ : cstr, True) (update_section name s r).
Proof. unfold update_section, replace_string. calm. Qed.
Hint Resolve calm_update_section : calm.
Lemma calm_fix_debug_info p c s : in_time (dcc_fix_debug_info p c s).
Proof.
  unfold dcc_fix_debug_info, update_debug_info, mmap_file, munmap_file. calm.
  apply calm_throw.
  lazymatch goal with H : (bind ?m ?k) ?b = (?o, _) |- stays_in ?o =>
    assert (calm (λ _ : cstr, True) (bind m k)) as Hc by calm; destruct (Hc b Logic.I) as [_ Ho]; by rewrite H in Ho
  end.
Qed.

Lemma trim_loop_calm n r b pos : stays_in (trim_loop n r b pos).
Proof. revert b pos. induction n as [|n IH]; intros b pos; simpl; [done|]. by case_match. Qed.
Lemma calm_cleanup_lines k n d t r c s : in_time (cleanup_lines k n d t r c s).
Proof. calm_loop cleanup_lines n; unfold give_up_dotd, lift; calm. apply calm_throw, trim_loop_calm. Qed.
Hint Resolve calm_cleanup_lines : calm.
Lemma calm_cleanup_dotd k p a b d r c s : in_time (dcc_cleanup_dotd k p a b d r c s).
Proof. unfold dcc_cleanup_dotd. calm. Qed.
End files.
#[local] Hint Resolve calm_x_file calm_r_token_file calm_r_many_files calm_fix_debug_info calm_cleanup_dotd : calm.

(** ** Processes and the server *)

Definition os_in_time (o : os) : Prop := timeout_ok (os_w o).
Definition sv_in_time (s : server) : Prop := os_in_time (sv_os s).

Lemma calm_on_w {A} (m : M world A) : in_time m → calm os_in_time (on_w m).
Proof. intros Hm o Ho. destruct (Hm _ Ho). unfold on_w, zoom. by destruct (m (os_w o)). Qed.
Lemma calm_on_so {A} (m : M os A) : calm os_in_time m → calm sv_in_time (on_so m).
Proof. intros Hm s Hs. destruct (Hm _ Hs). unfold on_so, zoom. by destruct (m (sv_os s)). Qed.
Lemma calm_on_sw {A} (m : M world A) : in_time m → calm sv_in_time (on_sw m).
Proof. intros Hm. by apply calm_on_so, calm_on_w. Qed.
#[local] Hint Extern 1 (calm _ (on_w _)) => apply calm_on_w; solve [calm] : calm.
#[local] Hint Extern 1 (calm _ (on_so _)) => apply calm_on_so; solve [calm] : calm.
#[local] Hint Extern 1 (calm _ (on_sw _)) => apply calm_on_sw; solve [calm] : calm.

Section server.
Context {Cfg : Config} {LZO : Lzo} {Progs : Programs} {MK : Mkdtemp} {RES : Resolver}.

Lemma calm_clock : calm os_in_time sys_clock.
Proof. intros o Ho. unfold sys_clock. by destruct (os_clock o). Qed.
Hint Resolve calm_clock : calm.
Lemma calm_os_tmpnam p s : calm os_in_time (make_tmpnam p s).
Proof. unfold make_tmpnam. calm. Qed.
Lemma calm_spawn_child a i o e : calm os_in_time (dcc_spawn_child a i o e).
Proof. unfold dcc_spawn_child, fork_child. calm. intros x Hx. unfold sys_fork. by destruct (os_fork x). Qed.
Lemma calm_wait4 pid b : calm os_in_time (sys_wait4 pid b).
Proof.
  intros o Ho. unfold sys_wait4, reap, run_child. destruct (os_wait o) as [|[] l]; repeat (case_match; simplify_eq/=); done.
Qed.
Lemma calm_select_1s : in_time select_1s.
Proof. unfold select_1s. answer. Qed.
Hint Resolve calm_os_tmpnam calm_spawn_child calm_wait4 calm_select_1s : calm.
Lemma calm_kill pid : calm os_in_time (sys_kill pid).
Proof. unfold sys_kill. calm. Qed.
Hint Resolve calm_kill : calm.
Lemma calm_collect_loop n pid fd l t : calm os_in_time (collect_loop n pid fd l t).
Proof. revert t. calm_loop collect_loop n. Qed.
Lemma calm_collect_child l pid fd : calm os_in_time (dcc_collect_child l pid fd).
Proof. apply (calm_fuel os_in_time (λ n, collect_loop n pid fd l l)). intros. apply calm_collect_loop. Qed.
Hint Resolve calm_collect_child : calm.

Lemma calm_start a i o e : calm sv_in_time (start a i o e).
Proof. unfold start. calm. Qed.
Hint Resolve calm_start : calm.
Lemma calm_run_compiler l fd a o e : calm sv_in_time (run_compiler l fd a o e).
Proof. unfold run_compiler. calm. Qed.
Lemma calm_add_log f : calm sv_in_time (dcc_add_log_to_file f).
Proof. unfold dcc_add_log_to_file. calm. Qed.
Lemma calm_remove_log : calm sv_in_time dcc_remove_log_to_file.
Proof. unfold dcc_remove_log_to_file. calm. Qed.
Lemma calm_chdir d : calm sv_in_time (sys_chdir d).
Proof. unfold sys_chdir. calm. Qed.
Hint Resolve calm_run_compiler calm_add_log calm_remove_log calm_chdir : calm.
Lemma calm_new_tmpdir : in_time dcc_get_new_tmpdir.
Proof. unfold dcc_get_new_tmpdir, mkdtemp. calm. Qed.
Hint Resolve calm_new_tmpdir : calm.
Lemma calm_temp_dir fd : calm sv_in_time (make_temp_dir_and_chdir_for_cpp fd).
Proof. unfold make_temp_dir_and_chdir_for_cpp. calm. Qed.
Hint Resolve calm_temp_dir : calm.
Lemma calm_remap_compiler n : calm sv_in_time (dcc_remap_compiler n).
Proof. unfold dcc_remap_compiler, stringmap_load, stringmap_lookup. calm; apply calm_throw; by repeat case_match. Qed.
Lemma calm_masq_check_loop n c p : in_time (masq_check_loop n c p).
Proof. revert p. calm_loop masq_check_loop n. Qed.
Hint Resolve calm_remap_compiler calm_masq_check_loop : calm.
Lemma calm_check_compiler_masq c : in_time (dcc_check_compiler_masq c).
Proof. unfold dcc_check_compiler_masq. calm. Qed.
Hint Resolve calm_check_compiler_masq : calm.
Lemma calm_choose_compiler a : calm sv_in_time (choose_compiler a).
Proof. unfold choose_compiler. calm. Qed.
Lemma calm_send_products fd j d : calm sv_in_time (send_products fd j d).
Proof. unfold send_products. calm. Qed.
Hint Resolve calm_choose_compiler calm_send_products : calm.
Lemma calm_send_answer fd j st e o d : calm sv_in_time (send_answer fd j st e o d).
Proof. unfold send_answer. calm. Qed.
Hint Resolve calm_send_answer : calm.
Lemma calm_read_sources fd w z t i o d a : calm sv_in_time (read_sources fd w z t i o d a).
Proof.
  pose proof (λ a f, calm_set_output timeout_ok calm_malloc a f). pose proof (λ a f, calm_set_input timeout_ok calm_malloc a f).
  pose proof (λ a r d, calm_tweak_arguments timeout_ok calm_malloc a r d).
  unfold read_sources. calm.
Qed.
Hint Resolve calm_read_sources : calm.
Lemma calm_append x : calm sv_in_time (append x).
Proof.
  intros s Hs. unfold append, on_job, zoom, dcc_job_summary_append, bind, gets, modify. by destruct (_ <=? _).
Qed.
Hint Resolve calm_append : calm.
Lemma calm_remove_one p : in_time (remove_one p).
Proof. unfold remove_one. calm. Qed.
Hint Resolve calm_remove_one : calm.
Lemma calm_cleanup_loop b l : in_time (cleanup_loop b l).
Proof. calm_loop cleanup_loop l. Qed.
Hint Resolve calm_cleanup_loop : calm.
Lemma calm_cleanup_tempfiles : in_time dcc_cleanup_tempfiles.
Proof. unfold dcc_cleanup_tempfiles. calm. Qed.
Hint Resolve calm_cleanup_tempfiles : calm.
Lemma calm_out_cleanup wd t r d : calm sv_in_time (out_cleanup wd t r d).
Proof. unfold out_cleanup, dcc_stats_event. calm. Qed.

(** ** A whole job *)

(** The client sends a command line that begins with an option. *)
Definition dash_sent (in_fd : nat) : Prop :=
  ∃ s s' argv, on_sw (dcc_r_argv in_fd "ARGC"%cs "ARGV"%cs) s = (Ok argv, s') ∧ dash_first argv.

(** The process ends only for such a request, and has not done anything for it. *)
Definition quits (in_fd : nat) (s : server) {A} (o : outcome A) (s' : server) : Prop :=
  match o with
  | Exit c => c = EXIT_BAD_ARGUMENTS ∧ dash_sent in_fd ∧ sv_ran s' = sv_ran s ∧ sv_stats s' = sv_stats s
  | _ => sv_in_time s'
  end.

Definition so_good (s0 s : server) : Prop := sv_in_time s ∧ sv_ran s = sv_ran s0 ∧ sv_stats s = sv_stats s0.

Lemma quits_then {A B} in_fd (m : M server A) (k : A → M server B) s0 s :
  steady m → calm sv_in_time m → so_good s0 s →
  (∀ a s', m s = (Ok a, s') → so_good s0 s' → wp (k a) (quits in_fd s0) s') → wp (bind m k) (quits in_fd s0) s.
Proof.
  intros Hst Hc (Hi & E1 & E2) Hk. apply wp_bind. destruct (Hst s) as (F1 & F2 & F3). destruct (Hc s Hi) as [G1 G2].
  unfold wp at 1. destruct (m s) as [[a|?|?|] s1] eqn:E; simpl in *; try done.
  apply Hk; [done|]. split; [done|]. split; congruence.
Qed.

(** What is calm does not quit. *)
Lemma quits_calm {A} in_fd (m : M server A) s0 s : calm sv_in_time m → sv_in_time s → wp m (quits in_fd s0) s.
Proof. intros Hm Hs. destruct (Hm s Hs) as [H1 H2]. unfold wp. by destruct (m s) as [[] ?]. Qed.

Lemma server_scan_exits argv s :
  sv_in_time s → sv_in_time (on_sw (dcc_scan_args argv) s).2 ∧
    match (on_sw (dcc_scan_args argv) s).1 with Exit c => c = EXIT_BAD_ARGUMENTS ∧ dash_first argv | _ => True end.
Proof.
  intros Hi. destruct (scan_args_exits timeout_ok calm_malloc argv (os_w (sv_os s)) Hi) as [G1 G2].
  unfold on_sw, on_so, on_w, zoom. by destruct (dcc_scan_args argv (os_w (sv_os s))).
Qed.

(** Do the next thing, which is calm and steady. *)
Ltac past H s a :=
  let s' := fresh "s" in let H' := fresh "H" in let x := fresh a in
  apply quits_then; [steady|calm|exact H|intros x s' _ H'; clear H s; rename s' into s; rename H' into H].

Lemma read_request_quits in_fd deps s0 s : so_good s0 s → wp (read_request in_fd deps) (quits in_fd s0) s.
Proof.
  intros H. unfold read_request. past H s v.
  destruct (dcc_get_features_from_protover v) as [[? z] w]. past H s dir.
  apply quits_then; [steady|calm|done|]. clear H. intros argv s1 Er H.
  apply wp_bind. destruct (steady_on_so (on_w (dcc_scan_args argv)) s1) as (F1 & F2 & F3).
  destruct H as (Hi & E1 & E2).
  destruct (server_scan_exits argv s1 Hi) as [G1 G2]. unfold wp at 1.
  change (on_so (on_w (dcc_scan_args argv))) with (on_sw (dcc_scan_args argv)) in *.
  destruct (on_sw (dcc_scan_args argv) s1) as [[[[i o] a]|?|?|] s2]; simpl in *; try done.
  - apply quits_calm; [|done]. calm.
  - destruct G2 as [-> Hd]. split; [done|]. split; [by exists s, s1, argv|]. split; congruence.
Qed.

Lemma job_body_quits l in_fd out_fd s : sv_in_time s → wp (job_body l in_fd out_fd) (quits in_fd s) s.
Proof.
  intros Hi. assert (so_good s s) as H by done. revert H. generalize s at 2 4. intros s1 H. unfold job_body.
  do 7 past H s1 x.
  apply wp_bind. eapply wp_mono; [by apply read_request_quits|]. intros [j|?|?|] s2 H2; try done.
  apply quits_calm; [|done]. calm.
Qed.
End server.

Section after.
Context {Cfg : Config} {LZO : Lzo} {Progs : Programs} {MK : Mkdtemp} {RES : Resolver}.
Context (job_lifetime : Z) (daemon_wd : cstr).

Lemma run_job_quits in_fd out_fd s :
  sv_in_time s → wp (dcc_run_job job_lifetime daemon_wd in_fd out_fd) (quits in_fd s) s.
Proof.
  intros Hi. unfold dcc_run_job. apply wp_bind, wp_modify. set (s1 := set_sv_changed false s).
  apply quits_then; [steady|apply calm_on_so, calm_clock|done|]. intros t s2 _ (Hi2 & E1 & E2).
  apply wp_bind, wp_attempt. eapply wp_mono; [by apply job_body_quits|].
  intros [[r d]|e|c|] s3 H; try done; [apply quits_calm; [apply calm_out_cleanup|done]..|].
  destruct H as (-> & Hd & F1 & F2). split; [done|]. split; [done|]. split; congruence.
Qed.

End after.

(** ** What goes wrong *)

Definition ex_quit_programs : Programs := {| exec_prog := λ _ _ _ _, None |}.
Definition ex_quit_mkdtemp : Mkdtemp := {| mkdtemp_name := λ p _, p |}.

(** A server with the request of a client on descriptor 4. *)
Definition ex_quit_server (args : list cstr) : server :=
  Server (Os (World (Core {[4 := Fd (request 1 args "int x;"%cs) [] None]} {["/tmp"%cs := NDir]} [] 10 DCC_PHASE_STARTUP)
                [] [] [] [] 0 ∅) 7 [] [] [] ∅ [] 0 [] [] [] []) (JobState [] []) "/"%cs false None None [] [].

Definition ex_quit (args : list cstr) : outcome Z * server :=
  dcc_run_job (Cfg := usual_config) (LZO := stored_lzo) (Progs := ex_quit_programs) (MK := ex_quit_mkdtemp)
    0 "/"%cs 4 5 (ex_quit_server args).

(** "-c x.c" for a command line ends the process; the three files the job has made
    by then stay, no event is reported and the log stays open. *)
Lemma dash_leaves_files :
  let r := ex_quit ["-c"; "x.c"]%cs in
  r.1 = Exit EXIT_BAD_ARGUMENTS ∧ length (c_cleanups (w_core (os_w (sv_os r.2)))) = 3 ∧
  sv_stats r.2 = [] ∧ sv_log_fd r.2 ≠ None.
Proof. by split_and!; vm_compute. Qed.

(** An empty command line is a null pointer for the scan. *)
Lemma empty_command_undefined : (ex_quit []).1 = Undef.
Proof. vm_compute. reflexivity. Qed.
