(* ===== verification/Remote.v ===== *)
(** * A compilation on a server, end to end

    [dcc_run_job] on a request of a client that preprocesses itself: what
    components of the server do together, from the bytes of the request to the
    bytes of the answer.  With the client's half the result is what distcc is
    for: the object file a client gets is the one its own compiler would have
    made. *)

From S2P Require Import Prelude CLib Util Filename Argv Arg ArgScan ArgRewrite Strip Text Paths World Io Rpc Tempfile.
From S2P Require Import Bulk Results Hosts Access Lock Dotd Request Exec FixDebug Serve.

(** ** The process of a server *)

Definition W (s : server) : world := os_w (sv_os s).
Definition core_of (s : server) : core := w_core (W s).
Definition at_w (w : world) (s : server) : server := set_sv_os (set_os_w w (sv_os s)) s.

(** The clock of the process. *)
Definition now (s : server) : Z * Z := match os_clock (sv_os s) with [] => (0, 0)%Z | t :: _ => t end.
Definition tick (s : server) : server :=
  match os_clock (sv_os s) with [] => s | _ :: l => set_sv_os (set_os_clock l (sv_os s)) s end.

(** What stays as it is while the process reads and writes. *)
Definition proc (s : server) :=
  (w_env (W s), os_pid (sv_os s), (sv_changed s, sv_log_fd s, sv_map s, sv_stats s, sv_job s),
   (os_fork (sv_os s), os_wait (sv_os s), os_children (sv_os s), os_safeguard (sv_os s))).

(** [m] returns [a], with [c] as the core, on a kernel that goes on to cooperate. *)
Definition goes {A} (m : M server A) (a : A) (s s' : server) (c : core) : Prop :=
  m s = (Ok a, s') ∧ core_of s' = c ∧ io_ok (W s') ∧ proc s' = proc s.

Lemma on_sw_Ok {A} (m : M world A) a s w' : m (W s) = (Ok a, w') → on_sw m s = (Ok a, at_w w' s).
Proof. intros E. unfold on_sw, on_so, on_w, zoom, at_w. unfold W in E. by rewrite E. Qed.

Lemma goes_world {A} (m : M world A) a s w' :
  m (W s) = (Ok a, w') → io_ok w' → w_env w' = w_env (W s) → goes (on_sw m) a s (at_w w' s) (w_core w').
Proof. intros E Hw V. split; [by apply on_sw_Ok|split; [done|split; [done|]]]. unfold proc, at_w, W in *. simpl. by rewrite V. Qed.

Lemma goes_sw {A} (m : M world A) a s c' :
  runs m (Ok a) (core_of s) c' → io_ok (W s) → ∃ s', goes (on_sw m) a s s' c'.
Proof.
  intros Hr Hw. destruct (Hr (W s) eq_refl Hw) as (w' & E & <- & Hw' & V). eexists. by apply goes_world.
Qed.

Lemma goes_bind {A B} (m : M server A) (k : A → M server B) a s s1 c1 b s2 c2 :
  goes m a s s1 c1 → goes (k a) b s1 s2 c2 → goes (bind m k) b s s2 c2.
Proof. intros (E1 & _ & _ & P1) (E2 & C2 & I2 & P2). split; [by rewrite (bind_Ok _ _ _ _ _ E1)|]. split; [done|]. split; [done|congruence]. Qed.

Lemma goes_attempt {A} (m : M server A) a s s' c : goes m a s s' c → goes (attempt m) (inl a) s s' c.
Proof. intros (E & ?). split; [|done]. unfold attempt. by rewrite E. Qed.

Lemma proc_tick s : proc (tick s) = proc s ∧ W (tick s) = W s.
Proof. unfold tick. by destruct (os_clock (sv_os s)). Qed.

Lemma proc_at w s : w_env w = w_env (W s) → proc (at_w w s) = proc s.
Proof. intros V. unfold proc, at_w, W in *. simpl. by rewrite V. Qed.
Lemma tick_at w s : tick (at_w w s) = at_w w (tick s).
Proof. unfold tick, at_w. simpl. by destruct (os_clock (sv_os s)). Qed.
Lemma pid_tick s : os_pid (sv_os (tick s)) = os_pid (sv_os s).
Proof. unfold tick. by destruct (os_clock (sv_os s)). Qed.

Lemma tmpnam_world pre suf s n w' :
  dcc_make_tmpnam (os_pid (sv_os s)) (now s).1 (now s).2 pre suf (W s) = (Ok n, w') →
  on_so (make_tmpnam pre suf) s = (Ok n, at_w w' (tick s)).
Proof.
  intros E. unfold on_so, make_tmpnam, zoom, bind, gets, sys_clock, on_w, at_w, tick, zoom. unfold now in E. unfold W in *.
  destruct (os_clock (sv_os s)) as [|t l]; simpl in *; by rewrite E.
Qed.

(** A new temporary file. *)
Lemma goes_tmpnam pre suf s :
  io_ok (W s) → cleanups_wf (core_of s) → c_files (core_of s) !! tmp_top (w_env (W s)) = Some NDir →
  (Z.of_nat (size (c_files (core_of s))) < 2 ^ 32)%Z →
  ∃ name s', goes (on_so (make_tmpnam pre suf)) name s s'
      (registered name (set_files (<[name := NFile []]> (c_files (core_of s))) (core_of s))) ∧
    c_files (core_of s) !! name = None ∧ ∃ b, name = tmp_name (tmp_top (w_env (W s))) pre suf b.
Proof.
  intros Hw Hwf Htop Hsz.
  destruct (make_tmpnam_ok (os_pid (sv_os s)) (now s).1 (now s).2 pre suf (W s) Hw Hwf Htop Hsz)
    as (name & w' & E & Hn & Hb & Hw' & V & C).
  exists name, (at_w w' (tick s)). split; [|done]. split; [by apply tmpnam_world|]. split; [done|]. split; [done|].
  destruct (proc_tick s) as [P _]. unfold proc, at_w, W in *. simpl. rewrite V. unfold tick in *.
  by destruct (os_clock (sv_os s)).
Qed.

Section server.
Context {Cfg : Config} {LZO : Lzo} {LAWS : LzoLaws} {Progs : Programs} {MK : Mkdtemp}.

(** ** Reading the request *)

(** The readings of the clock that name the two files of the request. *)
Definition seed_of (s : server) : seed :=
  Seed (os_pid (sv_os s)) (now s).1 (now s).2 (now (tick s)).1 (now (tick s)).2.

(** [read_request] does what [receive_request] does. *)
Lemma read_request_receives fd deps s j w' :
  receive_request (seed_of s) fd (W s) = (Ok (Some j), w') →
  read_request fd deps s =
    (Ok (SJob (j_protover j) (j_compr j) DCC_CPP_ON_CLIENT [] (j_argv j) (j_orig_input j) (j_orig_output j)
           (j_temp_o j) None), at_w w' (tick (tick s))).
Proof.
  unfold receive_request, read_request. intros (v & w1 & E1 & H)%bind_inv_Ok.
  rewrite (bind_Ok _ _ _ _ _ (on_sw_Ok _ _ _ _ E1)).
  destruct (dcc_get_features_from_protover v) as [[x compr] []] eqn:Ef; [|done].
  apply bind_inv_Ok in H as (argv & w2 & E2 & H). apply bind_inv_Ok in H as ([[inp out] nv] & w3 & E3 & H).
  destruct inp as [orig_i|], out as [orig_o|]; try done.
  apply bind_inv_Ok in H as (b1 & w4 & E4 & H). apply bind_inv_Ok in H as (b2 & w5 & E5 & H).
  destruct (negb (b1 && b2)) eqn:Eb; [done|].
  apply bind_inv_Ok in H as (to & w6 & E6 & H). apply bind_inv_Ok in H as (ti & w7 & E7 & H).
  apply bind_inv_Ok in H as ([] & w8 & E8 & H). apply bind_inv_Ok in H as (a1 & w9 & E9 & H).
  apply bind_inv_Ok in H as (a2 & w10 & E10 & H). injection H as <- <-. simpl.
  rewrite (bind_Ok _ _ _ _ _ (eq_refl : ret [] (at_w w1 s) = _)).
  rewrite (bind_Ok _ _ _ _ _ (on_sw_Ok _ _ (at_w w1 s) _ E2)).
  rewrite (bind_Ok _ _ _ _ _ (on_sw_Ok _ _ (at_w w2 s) _ E3)).
  rewrite (bind_Ok _ _ _ _ _ (on_sw_Ok _ _ (at_w w3 s) _ E4)).
  rewrite (bind_Ok _ _ _ _ _ (on_sw_Ok _ _ (at_w w4 s) _ E5)), Eb.
  rewrite (bind_Ok _ _ _ _ _ (tmpnam_world _ _ (at_w w5 s) _ _ E6)).
  rewrite tick_at.
  assert (E : (let! temp_i := on_so (make_tmpnam "distccd"%cs
                 (default ".tmp"%cs (dcc_find_extension orig_i ≫= λ dot, dcc_preproc_exten (drop dot orig_i)))) in
               do! on_sw (dcc_r_token_file fd "DOTI"%cs temp_i compr);
               let! argv := on_sw (dcc_set_input nv temp_i) in
               let! argv0 := on_sw (dcc_set_output argv to) in ret (@None cstr, argv0)) (at_w w6 (tick s)) =
            (Ok (None, a2), at_w w10 (tick (tick s)))).
  { unfold dcc_input_tmpnam in E7. simpl in E7. rewrite <- (pid_tick s) in E7.
    rewrite (bind_Ok _ _ _ _ _ (tmpnam_world _ _ (at_w w6 (tick s)) ti w7 E7)), tick_at.
    rewrite (bind_Ok _ _ _ _ _ (on_sw_Ok _ _ (at_w w7 (tick (tick s))) _ E8)).
    rewrite (bind_Ok _ _ _ _ _ (on_sw_Ok _ _ (at_w w8 (tick (tick s))) _ E9)).
    by rewrite (bind_Ok _ _ _ _ _ (on_sw_Ok _ _ (at_w w9 (tick (tick s))) _ E10)). }
  by rewrite (bind_Ok _ _ _ _ _ E).
Qed.

(** ** The compiler *)

Lemma masq_check_runs fuel name p c :
  short_links (c_files c) → length p < fuel → runs (masq_check_loop fuel name p) (Ok ()) c c.
Proof.
  intros Hsl. revert p. induction fuel as [|fuel IH]; intros p Hf; [lia|].
  destruct p as [|x p]; [apply runs_ret|]. cbn [masq_check_loop].
  destruct (next_dir (x :: p)) as [dir n] eqn:En.
  destruct (next_dir_cons (x :: p) dir n ltac:(done) En) as (_ & _ & _ & _ & Hl & _).
  eapply runs_bind; [apply runs_malloc_or|]. cbv zeta. eapply runs_bind; [apply runs_sys_stat|].
  destruct (c_files c !! (dir ++ "/"%cs ++ name)) as [[data| |t]|] eqn:Ef; [apply runs_ret..| |apply IH; lia].
  eapply runs_bind; [by apply sys_readlink_runs|].
  pose proof (Hsl _ _ Ef) as Hlen. simpl in Hlen. rewrite take_ge by lia.
  destruct t as [|y t]; [apply IH; lia|]. rewrite decide_True by done. apply runs_ret.
Qed.

Lemma check_masq_ok name w :
  io_ok w → short_links (c_files (w_core w)) →
  ∃ w', dcc_check_compiler_masq name w = (Ok (), w') ∧ w_core w' = w_core w ∧ io_ok w' ∧ w_env w' = w_env w.
Proof.
  intros Hw Hsl. unfold dcc_check_compiler_masq. case_match; [by exists w|].
  rewrite (bind_Ok _ _ _ _ _ (eq_refl : getenv "PATH"%cs w = (Ok (w_env w !! "PATH"%cs), w))).
  destruct (w_env w !! "PATH"%cs) as [path|]; [|by exists w]. apply masq_check_runs; [done|lia|done|done].
Qed.

(** Without a command list every compiler is served as it is named. *)
Lemma choose_compiler_ok a0 rest s :
  sv_map s = Some None → io_ok (W s) → short_links (c_files (core_of s)) →
  ∃ s', goes (choose_compiler (Str a0 :: rest)) (Str a0 :: rest) s s' (core_of s).
Proof.
  intros Hmap Hw Hsl. destruct (check_masq_ok a0 (W s) Hw Hsl) as (w' & E & C & Hw' & V).
  exists (at_w w' s). unfold choose_compiler, dcc_remap_compiler.
  pose proof (goes_world _ _ _ _ E Hw' V) as (Eg & Cg & Ig & Pg). split; [|by rewrite C in Cg].
  rewrite (bind_Ok _ _ s (true, Some a0) s); [by rewrite (bind_Ok _ _ _ _ _ Eg)|].
  unfold bind, gets. by rewrite Hmap.
Qed.

(** [dup2]-like redirection: the lowest free descriptor is the one closed. *)
Lemma new_fd_lowest {A} (m : gmap nat A) n :
  (∀ i, i < n → is_Some (m !! i)) → m !! n = None → new_fd m = n.
Proof.
  intros Hb Hf. unfold new_fd.
  assert (Hn : n ≤ size m).
  { rewrite <- size_dom. rewrite <- (size_set_seq (C := gset nat) 0 n). apply subseteq_size.
    intros i Hi%elem_of_set_seq. apply elem_of_dom, Hb. lia. }
  assert (H : ∀ fuel i, i ≤ n → n - i ≤ fuel → lowest_fd fuel i m = n); [|apply H; lia].
  induction fuel as [|fuel IH]; intros i Hi Hk; simpl; [lia|].
  destruct (decide (i = n)) as [->|]; [by rewrite Hf|]. destruct (Hb i) as [x ->]; [lia|]. apply IH; lia.
Qed.

Lemma close_any_runs fd c : ∃ r, runs (sys_close fd) (Ok r) c (set_fds (delete fd (c_fds c)) c).
Proof.
  destruct (c_fds c !! fd) as [d|] eqn:E.
  - exists (inl ()). by eapply close_runs.
  - exists (inr EOTHER). unfold sys_close. apply runs_fs_call.
    eapply runs_bind; [apply (runs_gets (λ c, c_fds c !! fd))|]. rewrite E.
    replace (set_fds _ c) with c; [apply runs_ret|]. rewrite delete_id by done. by destruct c.
Qed.

(** What opening a file does, for each of the three modes. *)
Definition open_result (mode : open_mode) (fname : cstr) (files : gmap cstr node) : option (fdesc * gmap cstr node) :=
  match mode, files !! fname with
  | O_RDONLY, Some (NFile data) => Some (Fd data [] None, files)
  | O_TRUNC, (None | Some (NFile _)) => Some (Fd [] [] (Some fname), <[fname := NFile []]> files)
  | O_APPEND, Some (NFile _) => Some (Fd [] [] (Some fname), files)
  | _, _ => None
  end.

Lemma redirect_fd_runs fd fname mode d files' c :
  (∀ i, i < fd → is_Some (c_fds c !! i)) →
  open_result mode fname (c_files c) = Some (d, files') →
  runs (dcc_redirect_fd fd fname mode) (Ok ()) c (set_files files' (set_fds (<[fd := d]> (c_fds c)) c)).
Proof.
  intros Hb Ho. destruct (close_any_runs fd c) as [r Hr]. unfold dcc_redirect_fd.
  eapply runs_bind; [exact Hr|]. cbn beta. set (c1 := set_fds (delete fd (c_fds c)) c).
  assert (Hn : new_fd (c_fds c1) = fd).
  { apply new_fd_lowest; [|apply lookup_delete_eq]. intros i Hi. simpl. rewrite lookup_delete_ne by lia. auto. }
  eapply (runs_bind _ _ (inl fd)); [|rewrite decide_True by done; apply runs_ret].
  assert (Hadd : ∀ c2, c_fds c2 = c_fds c1 → runs (add_fd d) (Ok fd) c2 (set_fds (<[fd := d]> (c_fds c1)) c2)).
  { intros c2 E2. pose proof (runs_add_fd d c2) as Ha. by rewrite E2, Hn in Ha. }
  unfold open_result in Ho. destruct mode; simpl; [unfold sys_open_read|unfold sys_open_trunc|unfold sys_open_append];
    apply runs_fs_call; (eapply runs_bind; [apply runs_lookup_file|]); simpl;
    destruct (c_files c !! fname) as [[]|] eqn:Ef; simplify_eq.
  all: try (eapply runs_bind; [apply runs_modify_core|]).
  all: (eapply runs_bind; [by apply Hadd|]).
  all: unfold c1; simpl; rewrite insert_delete_eq;
    match goal with |- runs _ _ ?a ?b => replace b with a by (by destruct c); apply runs_ret end.
Qed.

(** The descriptors of a child of the server. *)
Definition child_fds (null : cstr) (outf errf : cstr) (m : gmap nat fdesc) : gmap nat fdesc :=
  <[STDERR_FILENO := Fd [] [] (Some errf)]> (<[STDOUT_FILENO := Fd [] [] (Some outf)]> (<[STDIN_FILENO := Fd null [] None]> m)).

Lemma redirect_fds_runs null outf errf e0 c :
  c_files c !! "/dev/null"%cs = Some (NFile null) → c_files c !! outf = None → c_files c !! errf = Some (NFile e0) →
  runs (dcc_redirect_fds (Some "/dev/null"%cs) (Some outf) (Some errf)) (Ok ()) c
    (set_files (<[outf := NFile []]> (c_files c)) (set_fds (child_fds null outf errf (c_fds c)) c)).
Proof.
  intros Hn Ho He. assert (outf ≠ errf) by congruence. unfold dcc_redirect_fds, STDIN_FILENO, STDOUT_FILENO, STDERR_FILENO.
  eapply runs_bind.
  { apply (redirect_fd_runs _ _ O_RDONLY (Fd null [] None) (c_files c)); [lia|]. simpl. by rewrite Hn. }
  eapply runs_bind.
  { apply (redirect_fd_runs _ _ O_TRUNC (Fd [] [] (Some outf)) (<[outf := NFile []]> (c_files c))).
    - intros i Hi. assert (i = 0) as -> by lia. simpl. by rewrite lookup_insert_eq.
    - simpl. by rewrite Ho. }
  match goal with |- runs _ _ ?x _ => refine (redirect_fd_runs 2 errf O_APPEND (Fd [] [] (Some errf)) (<[outf := NFile []]> (c_files c)) x _ _) end.
  - intros i Hi. simpl. destruct i as [|[|]]; [|by rewrite lookup_insert_eq|lia].
    rewrite lookup_insert_ne by done. by rewrite lookup_insert_eq.
  - simpl. by rewrite lookup_insert_ne, He.
Qed.

(** What a compiler makes of a preprocessed text: the object code, and what it
    prints. *)
Record product := Product { pr_obj : cstr; pr_out : cstr; pr_err : cstr }.

(** The files a command line names. *)
Definition calm_world : world := World (Core ∅ ∅ [] 0 DCC_PHASE_STARTUP) [] [] [] [] 0 ∅.
Definition names (ws : list cstr) : option (cstr * cstr) :=
  match (dcc_scan_args (vec ws) calm_world).1 with
  | Ok (Some i, Some o, _) => Some (i, o)
  | _ => None
  end.

(** [K] is the compiler of this machine, where it succeeds: what it makes of a
    preprocessed text depends on its options and on the text, and not on the
    names of the files; it writes its messages and the object file. *)
Definition compiler (K : list wunit → cstr → option product) : Prop :=
  ∀ file ws us i o env c data d1 d2 p,
    units ws = Some us → names ws = Some (i, o) → c_files c !! i = Some (NFile data) →
    c_fds c !! STDOUT_FILENO = Some d1 → c_fds c !! STDERR_FILENO = Some d2 →
    K (anonymous <$> us) data = Some p →
    exec_prog file ws env c =
      Some (0%Z, put STDERR_FILENO d2 (pr_err p) (put STDOUT_FILENO d1 (pr_out p)
                   (set_files (<[o := NFile (pr_obj p)]> (c_files c)) c))).

Context (K : list wunit → cstr → option product) (HK : compiler K).

(** The files after the compiler ran. *)
Definition compiled (p : product) (o outf errf : cstr) (m : gmap cstr node) : gmap cstr node :=
  <[errf := NFile (pr_err p)]> (<[outf := NFile (pr_out p)]> (<[o := NFile (pr_obj p)]> m)).

Lemma run_child_compiles level a0 ws us i o tl null outf errf data p w :
  io_ok w → units (a0 :: ws) = Some us → names (a0 :: ws) = Some (i, o) → K (anonymous <$> us) data = Some p →
  c_files (w_core w) !! i = Some (NFile data) → c_files (w_core w) !! "/dev/null"%cs = Some (NFile null) →
  c_files (w_core w) !! outf = None → c_files (w_core w) !! errf = Some (NFile []) →
  i ≠ outf → o ≠ outf → o ≠ errf → outf ≠ errf →
  ∃ w', run_child level (Child (vec (a0 :: ws) ++ tl) (Some "/dev/null"%cs) (Some outf) (Some errf)) w = (0%Z, w') ∧
    io_ok w' ∧ w_env w' = w_env w ∧
    w_core w' = set_files (compiled p o outf errf (c_files (w_core w))) (w_core w).
Proof.
  intros Hw Hu Hn Hk Hi Hnull Hout Herr N1 N2 N3 N4. unfold run_child, dcc_inside_child. cbn [ch_argv ch_stdin ch_stdout ch_stderr].
  set (e := <[dcc_safeguard_name := c_string [safeguard_digit level]]> (w_env w)).
  rewrite (bind_Ok _ _ _ _ _ (eq_refl : dcc_increment_safeguard level w = (Ok (), set_env e w))).
  assert (Hw1 : io_ok (set_env e w)).
  { destruct Hw as [? ? ? ? Ht]. constructor; try done. unfold timeout_ok in *. simpl. unfold e. by rewrite lookup_insert_ne. }
  destruct (runs_attempt_Ok _ _ _ _ (redirect_fds_runs null outf errf [] (w_core w) Hnull Hout Herr) (set_env e w) eq_refl Hw1)
    as (w1 & E1 & C1 & I1 & V1).
  rewrite (bind_Ok _ _ _ _ _ E1). cbn beta iota. unfold dcc_execvp.
  change (vec (a0 :: ws) ++ tl) with (Str a0 :: (vec ws ++ tl)). cbn iota.
  rewrite (bind_Ok _ _ _ _ _ (argv_strings_vec (a0 :: ws) tl w1)).
  assert (Ex : exec_prog a0 (a0 :: ws) (w_env w1) (w_core w1) = Some (0%Z, put STDERR_FILENO (Fd [] [] (Some errf)) (pr_err p)
     (put STDOUT_FILENO (Fd [] [] (Some outf)) (pr_out p)
        (set_files (<[o := NFile (pr_obj p)]> (c_files (w_core w1))) (w_core w1))))).
  { apply (HK a0 _ us i o _ _ data); try done; rewrite C1; simpl; unfold child_fds.
    - by rewrite lookup_insert_ne.
    - by rewrite lookup_insert_ne, lookup_insert_eq.
    - by rewrite lookup_insert_eq. }
  assert (Er : sys_execvp a0 (a0 :: ws) w1 = (Ok (Some 0%Z), set_core (put STDERR_FILENO (Fd [] [] (Some errf)) (pr_err p)
     (put STDOUT_FILENO (Fd [] [] (Some outf)) (pr_out p)
        (set_files (<[o := NFile (pr_obj p)]> (c_files (w_core w1))) (w_core w1)))) w1)).
  { unfold sys_execvp. by rewrite Ex. }
  rewrite (bind_Ok _ _ _ _ _ Er). eexists. split; [reflexivity|]. split; [|split; [done|]].
  - destruct Hw, I1. by constructor.
  - simpl. f_equal. rewrite C1. simpl. unfold compiled.
    rewrite lookup_insert_ne, lookup_insert_eq by done. simpl.
    rewrite lookup_insert_ne, lookup_insert_ne, lookup_insert_ne, Herr by done. simpl. f_equal.
    rewrite (insert_insert_ne _ o outf) by done. by rewrite insert_insert_eq.
Qed.

Lemma collect_done lifetime pid in_fd o ch status w' :
  (0 ≤ lifetime)%Z → os_wait o = [] → os_children o !! pid = Some ch →
  run_child (os_safeguard o) ch (os_w o) = (status, w') →
  dcc_collect_child lifetime pid in_fd o = (Ok status, set_os_log (Reaped ch status :: os_log o)
    (set_os_w w' (set_os_children (delete pid (os_children o)) o))).
Proof.
  intros Hl Hw Hc Hr. unfold dcc_collect_child. rewrite Hw. cbn [length collect_loop].
  rewrite (proj2 (Z.ltb_ge lifetime 0)), andb_false_r by done.
  rewrite (bind_Ok _ _ _ (inl (Some status)) (set_os_log (Reaped ch status :: os_log o)
    (set_os_w w' (set_os_children (delete pid (os_children o)) o)))); [done|].
  unfold sys_wait4, reap. by rewrite Hw, Hc, Hr.
Qed.

(** The job's child, when it has finished by the time it is first asked for. *)
Lemma run_compiler_ok lifetime fd a0 ws us i o tl null outf errf data p s :
  (0 ≤ lifetime)%Z → os_fork (sv_os s) = [] → os_wait (sv_os s) = [] → io_ok (W s) →
  units (a0 :: ws) = Some us → names (a0 :: ws) = Some (i, o) → K (anonymous <$> us) data = Some p →
  c_files (core_of s) !! i = Some (NFile data) → c_files (core_of s) !! "/dev/null"%cs = Some (NFile null) →
  c_files (core_of s) !! outf = None → c_files (core_of s) !! errf = Some (NFile []) →
  i ≠ outf → o ≠ outf → o ≠ errf → outf ≠ errf →
  ∃ s', goes (run_compiler lifetime fd (vec (a0 :: ws) ++ tl) outf errf) (0%Z, 0%Z) s s'
    (set_files (compiled p o outf errf (c_files (core_of s))) (core_of s)).
Proof.
  intros Hl Hf Hwt Hw Hu Hn Hk Hi Hnull Hout Herr N1 N2 N3 N4.
  set (argv := vec (a0 :: ws) ++ tl). set (pid := new_fd (os_children (sv_os s))).
  set (ch := Child argv (Some "/dev/null"%cs) (Some outf) (Some errf)).
  destruct (run_child_compiles (os_safeguard (sv_os s)) a0 ws us i o tl null outf errf data p (W s))
    as (w' & E & Hw' & V & C); [done..|].
  set (s1 := Server (set_os_children (<[pid := ch]> (os_children (sv_os s))) (sv_os s)) (sv_job s) (sv_cwd s)
               (sv_changed s) (sv_log_fd s) (sv_map s) (sv_stats s) (argv :: sv_ran s)).
  assert (E1 : start argv (Some "/dev/null"%cs) (Some outf) (Some errf) s = (Ok pid, s1)).
  { unfold start, bind, modify, on_so, zoom, dcc_spawn_child, fork_child, bind, sys_fork. simpl. by rewrite Hf. }
  assert (E2 : on_so (dcc_collect_child lifetime pid (Some fd)) s1 =
    (Ok 0%Z, set_sv_os (set_os_log (Reaped ch 0 :: os_log (sv_os s))
               (set_os_w w' (set_os_children (os_children (sv_os s)) (sv_os s)))) s1)).
  { unfold on_so, zoom. rewrite (collect_done lifetime pid (Some fd) _ ch 0%Z w'); [|done|done|by apply lookup_insert_eq|done].
    simpl. by rewrite delete_insert_id by apply new_fd_fresh. }
  eexists. split.
  { unfold run_compiler. erewrite (bind_Ok _ _ _ (inl 0%Z)); [reflexivity|].
    unfold attempt. rewrite (bind_Ok _ _ _ _ _ E1), E2. reflexivity. }
  split; [exact C|split; [exact Hw'|]]. unfold proc, W in *. simpl. by rewrite V.
Qed.

(** ** The answer *)

Lemma send_answer_ok fd d j deps errf outf e o t serr sout doto s :
  sj_cpp_where j = DCC_CPP_ON_CLIENT → io_ok (W s) → c_fds (core_of s) !! fd = Some d → fd_file d = None →
  c_files (core_of s) !! errf = Some (NFile e) → c_files (core_of s) !! outf = Some (NFile o) →
  c_files (core_of s) !! sj_temp_o j = Some (NFile t) →
  wire_body (sj_compr j) e serr → wire_body (sj_compr j) o sout → wire_body (sj_compr j) t doto →
  (Z.of_nat (length e) < 2 ^ 32)%Z → (Z.of_nat (length o) < 2 ^ 32)%Z → (Z.of_nat (length t) < 2 ^ 32)%Z →
  ∃ s', goes (send_answer fd j 0 errf outf deps) (0%Z, STATS_COMPILE_OK) s s'
    (put fd d (answer (sj_protover j) 0 serr sout doto) (core_of s)).
Proof.
  intros Hc Hw Hd Hf He Ho Ht Hbe Hbo Hbt Hle Hlo Hlt. rewrite answer_messages.
  destruct (goes_sw _ () s _ (send_messages_runs fd d (sj_protover j) serr sout errf outf (sj_compr j) e o (core_of s)
    Hd Hf He Ho Hbe Hbo Hle Hlo) Hw) as (s1 & G1).
  assert (Hr2 : runs (dcc_x_file fd (sj_temp_o j) "DOTO"%cs (sj_compr j)) (Ok (length t)) (core_of s1)
    (put fd d (messages (sj_protover j) 0 serr sout ++ file_bytes "DOTO"%cs doto) (core_of s))).
  { destruct G1 as (_ & -> & _ & _). by apply (x_file_more fd d _ _ (sj_compr j) t doto). }
  destruct (goes_sw _ _ s1 _ Hr2 ltac:(by destruct G1 as (_ & _ & ? & _))) as (s2 & G2). exists s2. unfold send_answer, send_products.
  eapply goes_bind; [apply goes_attempt, G1|]. cbn beta iota. change (status_failed 0) with false. cbn iota. rewrite Hc.
  destruct G2 as (E2 & C2 & I2 & P2). split; [|done].
  rewrite (bind_Ok _ _ s1 0%Z s2); [done|]. rewrite (bind_Ok _ _ s1 () s1 eq_refl). by rewrite (bind_Ok _ _ _ _ _ E2).
Qed.

(** ** The files of the server itself *)

Lemma remove_if_exists_runs f data c :
  c_files c !! f = Some (NFile data) → runs (dcc_remove_if_exists f) (Ok ()) c (set_files (delete f (c_files c)) c).
Proof.
  intros Hf. unfold dcc_remove_if_exists. eapply (runs_bind _ _ (inl ())); [|apply runs_ret]. unfold sys_unlink.
  apply runs_fs_call. eapply runs_bind; [apply runs_lookup_file|]. rewrite Hf.
  eapply runs_bind; [apply runs_modify_core|]. apply runs_ret.
Qed.

Lemma wf_files m c : cleanups_wf c → cleanups_wf (set_files m c).
Proof. done. Qed.

(** Three new files that are removed again. *)
Lemma three_gone (F : gmap cstr node) a b c n :
  F !! a = None → F !! b = None → F !! c = None →
  delete c (delete b (delete a (<[c := n]> (<[b := n]> (<[a := n]> F))))) = F.
Proof.
  intros Ha Hb Hc. apply map_eq. intros k. rewrite !lookup_delete, !lookup_insert. repeat case_decide; naive_solver.
Qed.

(** The first part of [job_body], as one computation. *)
Definition prepare : M server (cstr * cstr * cstr) :=
  let! deps_fname := on_so (make_tmpnam "distcc"%cs ".deps"%cs) in
  let! err_fname := on_so (make_tmpnam "distcc"%cs ".stderr"%cs) in
  let! out_fname := on_so (make_tmpnam "distcc"%cs ".stdout"%cs) in
  do! attempt (on_sw (dcc_remove_if_exists deps_fname));
  do! attempt (on_sw (dcc_remove_if_exists err_fname));
  do! attempt (on_sw (dcc_remove_if_exists out_fname));
  do! attempt (dcc_add_log_to_file err_fname);
  ret (deps_fname, err_fname, out_fname).

(** Three new names, of which the one for the messages is open as the log. *)
Lemma prepare_ok s :
  io_ok (W s) → cleanups_wf (core_of s) → c_files (core_of s) !! tmp_top (w_env (W s)) = Some NDir →
  (Z.of_nat (size (c_files (core_of s))) + 2 < 2 ^ 32)%Z → sv_log_fd s = None →
  ∃ deps errf outf s', prepare s = (Ok (deps, errf, outf), s') ∧
    let F := c_files (core_of s) in let l := new_fd (c_fds (core_of s)) in
    F !! deps = None ∧ F !! errf = None ∧ F !! outf = None ∧ outf ≠ errf ∧
    c_files (core_of s') = <[errf := NFile []]> F ∧ c_fds (core_of s') = <[l := Fd [] [] (Some errf)]> (c_fds (core_of s)) ∧
    c_cleanups (core_of s') = c_cleanups (core_of s) ++ [deps; errf; outf] ∧ cleanups_wf (core_of s') ∧
    io_ok (W s') ∧ proc s' = proc (set_sv_log_fd (Some l) s) ∧
    ∃ b, outf = tmp_name (tmp_top (w_env (W s))) "distcc"%cs ".stdout"%cs b.
Proof.
  intros Hw Hwf Htop Hsz Hlog. set (F := c_files (core_of s)) in *.
  destruct (goes_tmpnam "distcc"%cs ".deps"%cs s Hw Hwf Htop ltac:(fold F; lia)) as (deps & s1 & (E1 & C1 & I1 & P1) & N1 & _). fold F in N1, C1.
  assert (V1 : w_env (W s1) = w_env (W s)) by (unfold proc in P1; congruence).
  destruct (goes_tmpnam "distcc"%cs ".stderr"%cs s1) as (errf & s2 & (E2 & C2 & I2 & P2) & N2 & _).
  { done. }
  { rewrite C1. by apply registered_wf. }
  { rewrite V1, C1. simpl. rewrite lookup_insert_ne; [done|]. intros E. by rewrite E, Htop in N1. }
  { rewrite C1. simpl. rewrite map_size_insert_None by done. fold F. lia. }
  assert (V2 : w_env (W s2) = w_env (W s)) by (unfold proc in P1, P2; congruence).
  rewrite C1 in N2, C2. simpl in N2, C2.
  assert (errf ≠ deps ∧ F !! errf = None) as [Ne1 N2'].
  { destruct (decide (errf = deps)) as [->|]; [by rewrite lookup_insert_eq in N2|by rewrite lookup_insert_ne in N2]. }
  destruct (goes_tmpnam "distcc"%cs ".stdout"%cs s2) as (outf & s3 & (E3 & C3 & I3 & P3) & N3 & bits & Eout).
  { done. }
  { rewrite C2. apply registered_wf. by apply (registered_wf _ (core_of s)). }
  { rewrite V2, C2. simpl. rewrite !lookup_insert_ne; [done|..]; intros E; rewrite E in *; congruence. }
  { rewrite C2. simpl. rewrite !map_size_insert_None by done. lia. }
  rewrite C2 in N3, C3. simpl in N3, C3.
  assert (outf ≠ errf ∧ outf ≠ deps ∧ F !! outf = None) as (Ne2 & Ne3 & N3').
  { destruct (decide (outf = errf)) as [->|]; [by rewrite lookup_insert_eq in N3|].
    destruct (decide (outf = deps)) as [->|]; [by rewrite lookup_insert_ne, lookup_insert_eq in N3|].
    by rewrite !lookup_insert_ne in N3. }
  set (F3 := <[outf := NFile []]> (<[errf := NFile []]> (<[deps := NFile []]> F))) in *.
  destruct (goes_sw _ _ s3 _ (remove_if_exists_runs deps [] (core_of s3) ltac:(rewrite C3; simpl; unfold F3; by simplify_map_eq)) I3)
    as (s4 & E4 & C4 & I4 & P4).
  destruct (goes_sw _ _ s4 _ (remove_if_exists_runs errf [] (core_of s4) ltac:(rewrite C4, C3; simpl; unfold F3; by simplify_map_eq)) I4)
    as (s5 & E5 & C5 & I5 & P5).
  destruct (goes_sw _ _ s5 _ (remove_if_exists_runs outf [] (core_of s5) ltac:(rewrite C5, C4, C3; simpl; unfold F3; by simplify_map_eq)) I5)
    as (s6 & E6 & C6 & I6 & P6).
  assert (HF : c_files (core_of s6) = F).
  { rewrite C6, C5, C4, C3. simpl. by apply three_gone. }
  assert (Hfd : c_fds (core_of s6) = c_fds (core_of s)) by by rewrite C6, C5, C4, C3.
  assert (P : proc s6 = proc s) by congruence.
  destruct (goes_sw _ _ s6 _ (Bulk.open_trunc_runs errf (core_of s6) ltac:(by rewrite HF, N2')) I6) as (s7 & E7 & C7 & I7 & P7).
  unfold Bulk.opened in C7. cbn [c_fds set_files] in C7. rewrite Hfd, HF in C7. rewrite Hfd in E7. set (l := new_fd (c_fds (core_of s))) in *.
  exists deps, errf, outf, (set_sv_log_fd (Some l) s7). split.
  { unfold prepare. rewrite (bind_Ok _ _ _ _ _ E1), (bind_Ok _ _ _ _ _ E2), (bind_Ok _ _ _ _ _ E3).
    do 3 erewrite bind_Ok by (unfold attempt; (rewrite E4 || rewrite E5 || rewrite E6); reflexivity).
    erewrite bind_Ok; [reflexivity|]. unfold attempt, dcc_add_log_to_file.
    assert (Hl6 : sv_log_fd s6 = None) by (unfold proc in P; congruence).
    erewrite (bind_Ok _ _ s6 None s6) by (unfold gets; by rewrite Hl6). cbn iota. by rewrite (bind_Ok _ _ _ _ _ E7). }
  assert (Hc7 : core_of (set_sv_log_fd (Some l) s7) = core_of s7) by done.
  simpl. rewrite Hc7, C7. split_and!; try done.
  - simpl. rewrite C6, C5, C4, C3. simpl. by rewrite <- !app_assoc.
  - change (cleanups_wf (core_of s6)). rewrite C6, C5, C4, C3.
    do 3 apply wf_files. by do 3 apply registered_wf, wf_files.
  - rewrite P in P7. unfold proc, W in *. simpl in *. congruence.
  - exists bits. by rewrite <- V2.
Qed.

(** ** A job *)

(** The rest of [job_body]. *)
Definition work (lifetime : Z) (fd : nat) (f : cstr * cstr * cstr) : M server (Z * job_done) :=
  let '(deps_fname, err_fname, out_fname) := f in
  let! j := read_request fd deps_fname in
  let! argv := choose_compiler (sj_argv j) in
  let! c := run_compiler lifetime fd argv out_fname err_fname in
  let '(compile_ret, status) := c in
  let! a := send_answer fd j status err_fname out_fname deps_fname in
  let '(ret0, job_result) := a in
  let job_result := if (compile_ret =? EXIT_IO_ERROR)%Z then STATS_CLI_DISCONN
                    else if (compile_ret =? EXIT_TIMEOUT)%Z then STATS_COMPILE_TIMEOUT
                    else job_result in
  ret (ret0, JobDone (Some job_result) status (match argv with Str a :: _ => a | _ => [] end) (sj_orig_input j)).

Lemma job_body_work lifetime fd s f s' :
  prepare s = (Ok f, s') → job_body lifetime fd fd s = work lifetime fd f s'.
Proof.
  unfold prepare, job_body. intros H. repeat (apply bind_inv_Ok in H as (? & ? & ?E & H)). injection H as <- <-.
  repeat match goal with E : _ = (Ok _, _) |- _ => rewrite (bind_Ok _ _ _ _ _ E); clear E end. done.
Qed.

(** The first word of a command line that differs in names only. *)
Lemma anonymous_head a0 (us3 us : list wunit) :
  a0 ≠ [] → dash a0 = false → dcc_is_source a0 = false → anonymous <$> us3 = anonymous <$> (W1 a0 :: us) →
  ∃ ws, ArgScan.words us3 = a0 :: ws.
Proof.
  intros Hne Hd Hs E. destruct us3 as [|u us3]; [done|]. cbn [fmap list_fmap] in E. injection E as E _.
  rewrite Hd, Hs in E. destruct u as [a|a b]; simpl in E; [|by case_match].
  destruct (dash a) eqn:Eda; [|destruct (dcc_is_source a); [congruence|]].
  - case_match; [|congruence]. injection E as <-. done.
  - injection E as ->. by exists (ArgScan.words us3).
Qed.

Lemma print_d_length z : length (print_d z) ≤ 21.
Proof.
  unfold print_d, dec. pose proof (dec_aux_length 20 z []). pose proof (dec_aux_length 20 (- z) []).
  case_match; cbn [length] in *; lia.
Qed.

(** ** The end of a job *)

Definition with_sum (y : cstr) (s : server) : server := set_sv_job (JobState (j_mem (sv_job s)) y) s.

Lemma append_ok x y s : length y + length x < 4096 → append x (with_sum y s) = (Ok (), with_sum (y ++ x) s).
Proof. intros Hl. unfold append, on_job, zoom, with_sum. simpl. by rewrite (job_summary_append_fits x (JobState _ y) Hl). Qed.

Lemma dcc_close_runs fd d c :
  c_fds c !! fd = Some d → runs (dcc_close fd) (Ok ()) c (set_fds (delete fd (c_fds c)) c).
Proof. intros Hd. unfold dcc_close. eapply runs_bind; [by eapply close_runs|]. apply runs_ret. Qed.

Lemma at_w_id s : at_w (W s) s = s.
Proof. by destruct s as [[]]. Qed.
Lemma with_sum_id s : with_sum (job_summary (sv_job s)) s = s.
Proof. by destruct s as [? []]. Qed.
Lemma stats_tick s : sv_stats (tick s) = sv_stats s.
Proof. unfold tick. by destruct (os_clock (sv_os s)). Qed.
Lemma job_tick s : sv_job (tick s) = sv_job s.
Proof. unfold tick. by destruct (os_clock (sv_os s)). Qed.

(** The temporary files are gone, the log is closed, the event is reported. *)
Lemma out_cleanup_ok wd t0 a0 i l ld s :
  io_ok (W s) → sv_changed s = false → sv_log_fd s = Some l → c_fds (core_of s) !! l = Some ld →
  w_env (W s) !! "DISTCC_SAVE_TEMPS"%cs ≠ Some "1"%cs →
  registered_in_order (c_cleanups (core_of s)) (c_files (core_of s)) →
  length (job_summary (sv_job s)) + length a0 + length i + 200 < 4096 →
  ∃ s', out_cleanup wd t0 0 (JobDone (Some STATS_COMPILE_OK) 0 a0 i) s = (Ok 0%Z, s') ∧
    c_fds (core_of s') = delete l (c_fds (core_of s)) ∧ c_cleanups (core_of s') = [] ∧
    (∀ q, c_files (core_of s') !! q = if decide (q ∈ c_cleanups (core_of s)) then None else c_files (core_of s) !! q) ∧
    sv_stats s' = STATS_COMPILE_OK :: sv_stats s ∧ sv_log_fd s' = None ∧ io_ok (W s').
Proof.
  intros Hw Hch Hlog Hl Henv Hord Hsum. unfold out_cleanup.
  rewrite (bind_Ok _ _ s false s) by (unfold gets; by rewrite Hch). rewrite (bind_Ok _ _ s () s eq_refl).
  rewrite (bind_Ok _ _ s (now s) (tick s)); cycle 1.
  { destruct s as [os0 ? ? ? ? ? ? ?]. unfold on_so, zoom, sys_clock, now, tick. simpl. by destruct (os_clock os0). }
  cbv zeta. set (y0 := job_summary (sv_job s)) in *. set (ms := s32 _).
  assert (Ht : length (time_str 0 0 ms) ≤ 121).
  { unfold time_str. rewrite !length_app. pose proof (print_d_length ms). simpl length in *. lia. }
  change (judge_job 0 (jd_result _)) with STATS_COMPILE_OK. set (s1 := tick s). simpl jd_status. simpl jd_argv0. simpl jd_input.
  assert (E0 : s1 = with_sum y0 s1) by (unfold y0, s1; rewrite <- (job_tick s); symmetry; apply with_sum_id).
  assert (Hok : io_ok (W s1)) by (unfold s1; by rewrite (proj2 (proc_tick s))).
  assert (Hws : W s1 = W s) by apply proc_tick.
  rewrite E0. set (y1 := y0 ++ " "%cs). set (y2 := y1 ++ stats_text STATS_COMPILE_OK). set (y3 := y2 ++ time_str 0 0 ms).
  set (y4 := y3 ++ a0). set (y5 := y4 ++ " "%cs). set (y6 := y5 ++ i).
  assert (L1 : length y1 = length y0 + 1) by (unfold y1; by rewrite length_app).
  assert (L2 : length y2 = length y0 + 11) by (unfold y2; rewrite length_app, L1; simpl; lia).
  assert (L3 : length y3 ≤ length y0 + 132) by (unfold y3; rewrite length_app, L2; lia).
  assert (L4 : length y4 = length y3 + length a0) by (unfold y4; by rewrite length_app).
  assert (L5 : length y5 = length y4 + 1) by (unfold y5; by rewrite length_app).
  rewrite (bind_Ok _ _ _ _ _ (append_ok " "%cs y0 s1 ltac:(simpl; lia))). fold y1.
  assert (A2 : append (stats_text STATS_COMPILE_OK) (with_sum y1 s1) = (Ok (), with_sum y2 s1)) by (apply append_ok; simpl; lia).
  rewrite (bind_Ok _ _ _ _ _ A2).
  set (s2 := Server (sv_os s1) (sv_job s1) (sv_cwd s1) (sv_changed s1) (sv_log_fd s1) (sv_map s1)
               (STATS_COMPILE_OK :: sv_stats s1) (sv_ran s1)).
  rewrite (bind_Ok _ _ _ _ _ (eq_refl : dcc_stats_event STATS_COMPILE_OK (with_sum y2 s1) = (Ok (), with_sum y2 s2))).
  rewrite (bind_Ok _ _ _ _ _ (on_sw_Ok _ _ (with_sum y2 s2) _ (malloc_io_ok (W s1) Hok))).
  change (at_w (W s1) (with_sum y2 s2)) with (at_w (W (with_sum y2 s2)) (with_sum y2 s2)). rewrite at_w_id. cbn iota.
  assert (A3 : append (time_str 0 0 ms) (with_sum y2 s2) = (Ok (), with_sum y3 s2)) by (apply append_ok; lia).
  rewrite (bind_Ok _ _ _ _ _ A3).
  assert (A4 : (do! append a0; do! append " "%cs; append i) (with_sum y3 s2) = (Ok (), with_sum y6 s2)).
  { rewrite (bind_Ok _ _ _ _ _ (append_ok a0 y3 s2 ltac:(lia))). fold y4.
    rewrite (bind_Ok _ _ _ _ _ (append_ok " "%cs y4 s2 ltac:(simpl; lia))). fold y5. apply append_ok. lia. }
  rewrite (bind_Ok _ _ _ _ _ A4). set (s3 := with_sum y6 s2).
  (* the log *)
  destruct (goes_sw _ _ s3 _ (dcc_close_runs l ld (core_of s3) ltac:(unfold core_of; change (W s3) with (W s1); rewrite Hws; exact Hl)) Hok)
    as (s4 & E4 & C4 & I4 & P4).
  assert (Hl3 : sv_log_fd s3 = Some l) by (simpl; unfold s1, tick; by destruct (os_clock (sv_os s))).
  rewrite (bind_Ok dcc_remove_log_to_file _ s3 () (set_sv_log_fd None s4)); cycle 1.
  { unfold dcc_remove_log_to_file. rewrite (bind_Ok _ _ s3 (Some l) s3) by (unfold gets; by rewrite Hl3).
    erewrite bind_Ok by (unfold attempt; rewrite E4; reflexivity). done. }
  (* the files *)
  assert (Hc4 : core_of s4 = set_fds (delete l (c_fds (core_of s))) (core_of s)).
  { rewrite C4. unfold core_of. change (W s3) with (W s1). by rewrite Hws. }
  assert (V4 : w_env (W s4) = w_env (W s)).
  { unfold proc in P4. rewrite <- Hws. change (W s1) with (W s3). congruence. }
  destruct (cleanup_tempfiles_removes (W s4)) as (w5 & E5 & H1 & H2 & H3 & H4);
    [done|by rewrite V4|fold (core_of s4); by rewrite Hc4|]. fold (core_of s4) in H2, H4. rewrite Hc4 in H2, H4.
  exists (at_w w5 (set_sv_log_fd None s4)).
  rewrite (bind_Ok _ _ _ _ _ (on_sw_Ok _ _ (set_sv_log_fd None s4) _ E5)). split; [done|].
  split; [exact H2|split; [exact H1|split; [exact H4|]]]. split; [|done].
  change (sv_stats s4 = STATS_COMPILE_OK :: sv_stats s).
  assert (sv_stats s4 = STATS_COMPILE_OK :: sv_stats s1) as -> by (unfold proc in P4; simpl in P4; congruence).
  unfold s1. by rewrite stats_tick.
Qed.

Lemma tmp_name_prefixes top s1 s2 b1 b2 : tmp_name top "distcc"%cs s1 b1 ≠ tmp_name top "distccd"%cs s2 b2.
Proof. unfold tmp_name. intros E. apply app_inv_head in E. simplify_eq/=. Qed.

(** A request, and what the compiler makes of it. *)
Context (host : dcc_hostdef) (args : list cstr) (a0 : cstr) (us1 us2 : list wunit) (i o : cstr) (args' : list cstr).
Context (data body rest : cstr) (p : product) (serr sout doto : cstr).
Abbreviation line := (W1 a0 :: us1 ++ W1 i :: us2).

Record compilable : Prop := Compilable {
  cm_host : client_cpp host;
  cm_args : redirectable args (W1 a0 :: us1) us2 i o args';
  cm_cc : a0 ≠ [];
  cm_wire : Forall wire_str args;
  cm_nargs : (Z.of_nat (length args) < 2 ^ 32)%Z;
  cm_body : wire_body (compr host) data body;
  cm_product : K (anonymous <$> final_units line o) data = Some p;
  cm_serr : wire_body (compr host) (pr_err p) serr;
  cm_sout : wire_body (compr host) (pr_out p) sout;
  cm_doto : wire_body (compr host) (pr_obj p) doto;
  cm_sizes : Forall (λ x, Z.of_nat (length x) < 2 ^ 32)%Z [data; body; pr_err p; pr_out p; pr_obj p; serr; sout; doto]
}.

Context (HC : compilable).

Lemma compiler_word : dash a0 = false ∧ dcc_is_source a0 = false.
Proof.
  destruct HC as [_ [Hu Hh _ _ Hf _ _ _] _ _ _ _ _ _ _ _ _]. apply Forall_cons in Hf as [Hs _]. split; [|done].
  apply units_words in Hu as [Hw _]. rewrite <- Hw in Hh. done.
Qed.

Lemma work_ok lifetime fd d null deps errf outf s :
  (0 ≤ lifetime)%Z → io_ok (W s) → cleanups_wf (core_of s) →
  c_files (core_of s) !! tmp_top (w_env (W s)) = Some NDir → dash (tmp_top (w_env (W s))) = false →
  (Z.of_nat (size (c_files (core_of s))) + 1 < 2 ^ 32)%Z →
  sv_map s = Some None → os_fork (sv_os s) = [] → os_wait (sv_os s) = [] → short_links (c_files (core_of s)) →
  c_files (core_of s) !! "/dev/null"%cs = Some (NFile null) →
  c_fds (core_of s) !! fd = Some d → fd_file d = None → fd_in d = request (protover host) args body ++ rest →
  c_files (core_of s) !! outf = None → c_files (core_of s) !! errf = Some (NFile []) → outf ≠ errf →
  (∃ b, outf = tmp_name (tmp_top (w_env (W s))) "distcc"%cs ".stdout"%cs b) →
  ∃ ti to s', work lifetime fd (deps, errf, outf) s = (Ok (0%Z, JobDone (Some STATS_COMPILE_OK) 0 a0 i), s') ∧
    c_files (core_of s) !! ti = None ∧ c_files (core_of s) !! to = None ∧
    c_files (core_of s') = compiled p to outf errf (<[ti := NFile data]> (<[to := NFile []]> (c_files (core_of s)))) ∧
    c_fds (core_of s') = <[fd := Fd rest (fd_out d ++ answer (protover host) 0 serr sout doto) None]> (c_fds (core_of s)) ∧
    c_cleanups (core_of s') = c_cleanups (core_of s) ++ [to; ti] ∧ io_ok (W s') ∧ proc s' = proc s.
Proof.
  intros Hlife Hw Hwf Htop Hdash Hsz Hmap Hfork Hwait Hsl Hnull Hd Hdf Hin Hout Herr Hne Hex.
  destruct compiler_word as [Hda Hsa].
  destruct HC as [Hh Hrd Hcc Hwire Hna Hb HKp Hse Hso Hdo Hsizes]. decompose_Forall_hyps. destruct Hex as [bout Eout].
  (* the request *)
  destruct (receive_request_ok host args (W1 a0 :: us1) us2 i o args' data body rest (seed_of s) fd d (W s))
    as (j & w1 & Er & Ei & Eo & Ec & Ni & No & Hio & Hf1 & Hfd1 & Hw1 & V1 & Hwf1 & Ep & Hcl1 & (eo & bo & Eno) & (ei & bi & Eni) & us3 & tl & Ej & Hu3 & Ha3 & Hsc);
    [done..|].
  set (ti := j_temp_i j) in *. set (to := j_temp_o j) in *.
  pose proof (read_request_receives fd deps s j w1 Er) as E1. fold to in E1.
  set (s1 := at_w w1 (tick (tick s))) in *.
  assert (P1 : proc s1 = proc s).
  { unfold s1. destruct (proc_tick s) as [Pa Wa], (proc_tick (tick s)) as [Pb Wb]. rewrite proc_at; congruence. }
  (* the compiler *)
  destruct (anonymous_head a0 us3 (us1 ++ W1 i :: us2 ++ match outputs (items line) with [] => [W2 "-o"%cs o] | _ => [] end))
    as [ws Ews]; [done..| |].
  { rewrite Ha3. unfold final_units. change ((W1 a0 :: us1) ++ W1 i :: us2) with line. f_equal.
    destruct (outputs (items line)); [|by rewrite app_nil_r]. cbn [app]. rewrite <- app_assoc. done. }
  rewrite Ews in *.
  assert (Hno : outf ≠ to ∧ outf ≠ ti) by (rewrite Eout, Eno, Eni; split; apply tmp_name_prefixes).
  change (c_files (core_of s) !! ti = None) in Ni. change (c_files (core_of s) !! to = None) in No.
  assert (Hne2 : ti ≠ errf ∧ to ≠ errf) by (split; congruence).
  assert (Hnull2 : ti ≠ "/dev/null"%cs ∧ to ≠ "/dev/null"%cs) by (split; congruence).
  destruct (choose_compiler_ok a0 (vec ws ++ tl) s1) as (s2 & E2 & C2 & I2 & P2).
  { unfold proc in P1. congruence. }
  { done. }
  { change (core_of s1) with (w_core w1). rewrite Hf1. by repeat apply map_Forall_insert_2. }
  assert (Hnames : names (a0 :: ws) = Some (ti, to)).
  { unfold names. destruct (Hsc calm_world [] eq_refl) as [nv Esc]. rewrite app_nil_r in Esc. by rewrite Esc. }
  assert (Hc2 : c_files (core_of s2) = <[ti := NFile data]> (<[to := NFile []]> (c_files (core_of s)))) by by rewrite C2.
  destruct (run_compiler_ok lifetime fd a0 ws us3 ti to tl null outf errf data p s2) as (s3 & E3 & C3 & I3 & P3);
    [done|unfold proc in *; congruence|unfold proc in *; congruence|done|done|done|by rewrite Ha3| | | | |destruct Hno, Hne2; congruence..|].
  { rewrite Hc2. by rewrite lookup_insert_eq. }
  { rewrite Hc2. rewrite !lookup_insert_ne by (destruct Hno, Hne2, Hnull2; congruence). done. }
  { rewrite Hc2. rewrite !lookup_insert_ne by (destruct Hno, Hne2, Hnull2; congruence). done. }
  { rewrite Hc2. rewrite !lookup_insert_ne by (destruct Hno, Hne2, Hnull2; congruence). done. }
  rewrite Hc2 in C3.
  (* the answer *)
  set (j' := SJob (j_protover j) (j_compr j) DCC_CPP_ON_CLIENT [] (j_argv j) (j_orig_input j) (j_orig_output j) to None) in *.
  set (d' := Fd rest (fd_out d) (fd_file d)) in *.
  assert (Hfd3 : c_fds (core_of s3) = <[fd := d']> (c_fds (core_of s))) by by rewrite C3, C2.
  destruct (send_answer_ok fd d' j' deps errf outf (pr_err p) (pr_out p) (pr_obj p) serr sout doto s3)
    as (s4 & E4 & C4 & I4 & P4); [done|done|by rewrite Hfd3, lookup_insert_eq|done|..].
  { rewrite C3. simpl. unfold compiled. by rewrite lookup_insert_eq. }
  { rewrite C3. simpl. unfold compiled. by rewrite lookup_insert_ne, lookup_insert_eq. }
  { rewrite C3. simpl. unfold compiled. rewrite !lookup_insert_ne by (destruct Hno, Hne2; congruence). by rewrite lookup_insert_eq. }
  1-3: simpl; by rewrite Ec.
  1-3: done.
  exists ti, to, s4. split.
  { unfold work. rewrite (bind_Ok _ _ _ _ _ E1). fold j'. simpl sj_argv. rewrite Ej.
    change (vec (a0 :: ws) ++ tl) with (Str a0 :: vec ws ++ tl). rewrite (bind_Ok _ _ _ _ _ E2).
    rewrite (bind_Ok _ _ _ _ _ E3). cbn beta iota. rewrite (bind_Ok _ _ _ _ _ E4). cbn beta iota. simpl. by rewrite Ei. }
  simpl in C4. rewrite C4, C3. split_and!; try done.
  - by rewrite put_files_None.
  - simpl. rewrite C2, Hdf, Ep. change (core_of s1) with (w_core w1). rewrite Hfd1. by rewrite insert_insert_eq.
  - simpl. by rewrite C2.
  - congruence.
Qed.

(** The files of a job, and what is left when they are gone. *)
Lemma job_files (F : gmap cstr node) deps errf outf to ti src q :
  F !! deps = None → F !! errf = None → F !! outf = None → F !! to = None → F !! ti = None →
  let F' := compiled q to outf errf (<[ti := NFile src]> (<[to := NFile []]> (<[errf := NFile []]> F))) in
  (∀ f, f ∈ [deps; errf; outf; to; ti] → F' !! f ≠ Some NDir) ∧
  (∀ f, (if decide (f ∈ [deps; errf; outf; to; ti]) then None else F' !! f) = F !! f).
Proof.
  intros H1 H2 H3 H4 H5 F'.
  assert (HN : ∀ f, f ∈ [deps; errf; outf; to; ti] → F !! f = None).
  { intros f. rewrite !elem_of_cons, elem_of_nil. naive_solver. }
  split; intros f; unfold F', compiled; rewrite !lookup_insert.
  - intros Hf. repeat case_decide; try done. by rewrite (HN f Hf).
  - destruct (decide (f ∈ _)) as [Hf|Hf]; [by rewrite (HN f Hf)|].
    rewrite !not_elem_of_cons in Hf. destruct Hf as (? & ? & ? & ? & ? & _). by rewrite !decide_False by congruence.
Qed.

(** A server that can take a job: its kernel cooperates, it has a temporary
    directory and /dev/null, nothing is left over from an earlier job, every
    compiler is allowed, and its summary has room. *)
Record idle_server (fd : nat) (d : fdesc) (null : cstr) (s : server) : Prop := IdleServer {
  is_kernel : io_ok (W s);
  is_fork : os_fork (sv_os s) = [];
  is_wait : os_wait (sv_os s) = [];
  is_cleanups : c_cleanups (core_of s) = [];
  is_top : c_files (core_of s) !! tmp_top (w_env (W s)) = Some NDir;
  is_dash : dash (tmp_top (w_env (W s))) = false;
  is_null : c_files (core_of s) !! "/dev/null"%cs = Some (NFile null);
  is_links : short_links (c_files (core_of s));
  is_size : (Z.of_nat (size (c_files (core_of s))) + 2 < 2 ^ 32)%Z;
  is_save : w_env (W s) !! "DISTCC_SAVE_TEMPS"%cs ≠ Some "1"%cs;
  is_log : sv_log_fd s = None;
  is_list : sv_map s = Some None;
  is_fd : c_fds (core_of s) !! fd = Some d;
  is_socket : fd_file d = None;
  is_summary : length (job_summary (sv_job s)) + length a0 + length i + 200 < 4096
}.

Lemma run_job_ok lifetime wd fd d null s :
  (0 ≤ lifetime)%Z → idle_server fd d null s → fd_in d = request (protover host) args body ++ rest →
  ∃ s', dcc_run_job lifetime wd fd fd s = (Ok 0%Z, s') ∧
    c_fds (core_of s') = <[fd := Fd rest (fd_out d ++ answer (protover host) 0 serr sout doto) None]> (c_fds (core_of s)) ∧
    c_files (core_of s') = c_files (core_of s) ∧ c_cleanups (core_of s') = [] ∧
    sv_stats s' = STATS_COMPILE_OK :: sv_stats s.
Proof.
  intros Hlife [Hw Hfork Hwait Hcl Htop Hdash Hnull Hsl Hsz Hsave Hlog Hmap Hd Hdf Hsum] Hin.
  unfold dcc_run_job. set (s0 := set_sv_changed false s).
  rewrite (bind_Ok (modify (set_sv_changed false)) _ s () s0 eq_refl).
  rewrite (bind_Ok _ _ s0 (now s0) (tick s0)); cycle 1.
  { destruct s as [os0 ? ? ? ? ? ? ?]. unfold s0, on_so, zoom, sys_clock, now, tick. simpl. by destruct (os_clock os0). }
  destruct (proc_tick s0) as [Pt Wt]. set (s1 := tick s0) in *.
  assert (Hc1 : core_of s1 = core_of s) by (unfold core_of; by rewrite Wt).
  assert (Hw1 : W s1 = W s) by by rewrite Wt.
  destruct (prepare_ok s1) as (deps & errf & outf & s2 & Ep & Nd & Ne & No & Hne & F2 & D2 & Cl2 & Wf2 & I2 & P2 & Bo).
  { by rewrite Hw1. }
  { unfold cleanups_wf. rewrite Hc1, Hcl. simpl. lia. }
  { by rewrite Hc1, Hw1. }
  { by rewrite Hc1. }
  { unfold proc in Pt. simpl in Pt. congruence. }
  rewrite Hc1 in *. rewrite Hw1 in Bo. set (l := new_fd (c_fds (core_of s))) in *.
  assert (Hl : l ≠ fd) by (apply not_eq_sym; by eapply (new_fd_ne fd d)).
  assert (V2 : w_env (W s2) = w_env (W s)).
  { unfold proc in P2. rewrite <- Hw1. change (W s1) with (W (set_sv_log_fd (Some l) s1)). congruence. }
  assert (Ho2 : tmp_top (w_env (W s)) ≠ errf) by congruence.
  destruct (work_ok lifetime fd d null deps errf outf s2) as (ti & to & s3 & Ew & Ni & Nt & F3 & D3 & Cl3 & I3 & P3).
  { done. }
  { done. }
  { done. }
  { rewrite V2, F2, lookup_insert_ne by done. done. }
  { by rewrite V2. }
  { rewrite F2, map_size_insert_None by done. lia. }
  1-3: unfold proc in P2, Pt; simpl in P2, Pt; congruence.
  { rewrite F2. by apply map_Forall_insert_2. }
  { rewrite F2, lookup_insert_ne by congruence. done. }
  { rewrite D2, lookup_insert_ne by done. done. }
  { done. }
  { done. }
  { rewrite F2, lookup_insert_ne by done. done. }
  { by rewrite F2, lookup_insert_eq. }
  { done. }
  { by rewrite V2. }
  rewrite F2 in Ni, Nt, F3. rewrite D2 in D3. rewrite Cl2, Hcl in Cl3. simpl in Cl3.
  assert (HP : proc s3 = proc (set_sv_log_fd (Some l) s1)) by congruence.
  set (F := c_files (core_of s)) in *.
  apply lookup_insert_None in Ni as [Hti _]. apply lookup_insert_None in Nt as [Hto _].
  destruct (job_files F deps errf outf to ti data p Nd Ne No Hto Hti) as [Hnodir Hgone]. rewrite <- F3 in Hnodir, Hgone.
  destruct (out_cleanup_ok wd (now s0) a0 i l (Fd [] [] (Some errf)) s3) as (s4 & E4 & D4 & Cl4 & F4 & S4 & _ & _).
  { done. }
  { unfold proc in HP, Pt. simpl in HP, Pt. congruence. }
  { unfold proc in HP. simpl in HP. congruence. }
  { rewrite D3, lookup_insert_ne, lookup_insert_eq by done. done. }
  { unfold proc in P3. congruence. }
  { intros l1 q l2 El Hq. exfalso. apply (Hnodir q); [|done]. rewrite Cl3 in El. rewrite El. apply elem_of_app. right. left. }
  { assert (sv_job s3 = sv_job s) as -> by (unfold proc in HP, Pt; simpl in HP, Pt; congruence). done. }
  exists s4. split.
  { rewrite (bind_Ok _ _ s1 (inl (0%Z, JobDone (Some STATS_COMPILE_OK) 0 a0 i)) s3); [exact E4|].
    unfold attempt. by rewrite (job_body_work _ _ _ _ _ Ep), Ew. }
  split_and!.
  - rewrite D4, D3. rewrite delete_insert_ne by done. by rewrite delete_insert_id by apply new_fd_fresh.
  - apply map_eq. intros q. rewrite F4, Cl3. apply Hgone.
  - done.
  - rewrite S4. assert (sv_stats s3 = sv_stats s) as -> by (unfold proc in HP, Pt; simpl in HP, Pt; congruence). done.
Qed.
(** ** End to end *)

(** C1. Compiling on a server gives what the compiler itself gives.  A client
    sends its command line and the preprocessed source; a server that is idle,
    reading those bytes, runs its job to the end without an error, leaves no file
    behind, and answers with bytes from which the client, whenever it reads
    them, takes status 0, the compiler's messages, its output and the object
    file: the object is what the compiler makes of the client's own options and
    preprocessed source, whatever temporary names the server used, and whatever
    interruptions and partial transfers either side sees. *)
Theorem remote_compilation (lifetime : Z) (wd null cpp_fname : cstr) (tl : cvec) (fds fd : nat) (ds d : fdesc)
    (cs : core) (s : server) :
  (0 ≤ lifetime)%Z → idle_server fd d null s → fd_in d = request (protover host) args body ++ rest →
  c_fds cs !! fds = Some ds → fd_file ds = None → c_files cs !! cpp_fname = Some (NFile data) →
  runs (send_request fds (vec args ++ tl) cpp_fname host) (Ok ()) cs
    (set_phase DCC_PHASE_COMPILE (put fds ds (request (protover host) args body) cs)) ∧
  ∃ s' reply, dcc_run_job lifetime wd fd fd s = (Ok 0%Z, s') ∧
    c_fds (core_of s') = <[fd := Fd rest (fd_out d ++ reply) None]> (c_fds (core_of s)) ∧
    c_files (core_of s') = c_files (core_of s) ∧ c_cleanups (core_of s') = [] ∧
    sv_stats s' = STATS_COMPILE_OK :: sv_stats s ∧
    ∀ cr fdr dr od e_dst t_dst deps expect rest',
      fdr ≠ STDOUT_FILENO → c_fds cr !! fdr = Some dr → c_fds cr !! STDOUT_FILENO = Some od → fd_file od = None →
      fd_in dr = reply ++ rest' → can_create e_dst cr → can_create t_dst cr → e_dst ≠ t_dst →
      ∃ c', runs (dcc_retrieve_results None fdr t_dst deps e_dst expect (compr host) DCC_CPP_ON_CLIENT) (Ok 0%Z) cr c' ∧
        c_files c' !! t_dst = Some (NFile (pr_obj p)) ∧ c_files c' !! e_dst = Some (NFile (pr_err p)) ∧
        fd_out <$> c_fds c' !! STDOUT_FILENO = Some (fd_out od ++ pr_out p) ∧ fd_in <$> c_fds c' !! fdr = Some rest'.
Proof.
  intros Hlife Hs Hin Hfds Hfile Hcpp. split.
  - destruct HC as [Hh _ _ Hwire Hna Hb _ _ _ _ Hsizes]. decompose_Forall_hyps. destruct (client_cpp_features host Hh) as [Hv _].
    apply (send_request_runs fds ds args tl cpp_fname host data body cs); try done; [by destruct Hh|lia].
  - destruct (run_job_ok lifetime wd fd d null s Hlife Hs Hin) as (s' & E & D & F & Cl & St).
    exists s', (answer (protover host) 0 serr sout doto). split_and!; try done.
    intros cr fdr dr od e_dst t_dst deps expect rest' Hne Hdr Hod Hof Hr Hce Hct Hdst.
    destruct HC as [_ _ _ _ _ _ _ Hse Hso Hdo Hsizes]. decompose_Forall_hyps.
    eexists. split; [by apply (retrieve_results_runs fdr dr od cr (protover host) expect e_dst t_dst deps (compr host)
      serr sout doto (pr_err p) (pr_out p) (pr_obj p) rest')|].
    simpl. rewrite lookup_insert_eq, lookup_insert_ne, lookup_insert_eq by done.
    by rewrite lookup_insert_ne, !lookup_insert_eq by done.
Qed.
End server.

(** ** Witness *)

(** A compiler whose object code is the text, marked. *)
Definition ex_product (text : cstr) : product := Product ("obj:"%cs ++ text) "done"%cs [].
#[local] Instance ex_config : Config := usual_config.
Definition ex_cc : Programs := {|
  exec_prog := λ _ ws _ c,
    match names ws with
    | Some (i, o) =>
        match c_files c !! i, c_fds c !! STDOUT_FILENO, c_fds c !! STDERR_FILENO with
        | Some (NFile text), Some d1, Some d2 =>
            let p := ex_product text in
            Some (0%Z, put STDERR_FILENO d2 (pr_err p) (put STDOUT_FILENO d1 (pr_out p)
                         (set_files (<[o := NFile (pr_obj p)]> (c_files c)) c)))
        | _, _, _ => None
        end
    | None => None
    end |}.

Lemma ex_cc_compiler : compiler (Progs := ex_cc) (λ _ text, Some (ex_product text)).
Proof. intros file ws us i o env c text d1 d2 p _ Hn Hi H1 H2 [= <-]. simpl. by rewrite Hn, Hi, H1, H2. Qed.

Definition ex_idle : server :=
  Server (Os (World (Core {[4 := Fd (request 1 ex_req_args "int x;"%cs) [] None]}
                       {["/tmp"%cs := NDir; "/dev/null"%cs := NFile []]} [] 10 DCC_PHASE_STARTUP) [] [] [] [] 0 ∅)
            7 [] [] [] ∅ [] 0 [] [] [] [])
    (JobState [] []) "/tmp"%cs false None (Some None) [] [].

#[local] Instance ex_mkdtemp : Mkdtemp := {| mkdtemp_name := λ p _, p |}.

Lemma remote_compilation_witness :
  let r := dcc_run_job (LZO := stored_lzo) (Progs := ex_cc) 0 "/tmp"%cs 4 4 ex_idle in
  r.1 = Ok 0%Z ∧ c_files (core_of r.2) = c_files (core_of ex_idle) ∧
  fd_out <$> c_fds (core_of r.2) !! 4 = Some (answer 1 0 [] "done"%cs "obj:int x;"%cs).
Proof.
  destruct (remote_compilation (LAWS := stored_lzo_laws) (Progs := ex_cc) (λ _ text, Some (ex_product text)) ex_cc_compiler
    ex_req_host ex_req_args "cc"%cs [W1 "-c"%cs] [W2 "-o"%cs "x.o"%cs] "x.c"%cs "x.o"%cs ex_req_args "int x;"%cs "int x;"%cs []
    (ex_product "int x;"%cs) [] "done"%cs "obj:int x;"%cs) with
    (lifetime := 0%Z) (wd := "/tmp"%cs) (null := @nil ascii) (cpp_fname := "/tmp/x.i"%cs) (tl := @nil slot) (fds := 3) (fd := 4)
    (ds := Fd [] [] None) (d := Fd (request 1 ex_req_args "int x;"%cs) [] None) (cs := ex_req_client) (s := ex_idle)
    as (_ & s' & reply & E & _ & F & _).
  - split; [by split_and!|exact ex_req_redirectable|done| |by vm_compute|reflexivity|reflexivity|reflexivity|reflexivity|reflexivity|].
    + repeat (constructor; [split; [by apply (bool_decide_eq_true_1 _)|by vm_compute]|]). constructor.
    + repeat (constructor; [by vm_compute|]). constructor.
  - lia.
  - split; try reflexivity.
    + constructor; [constructor..|reflexivity|by right].
    + repeat (apply map_Forall_insert_2; [done|]). apply map_Forall_empty.
    + by vm_compute.
    + vm_compute. lia.
  - simpl fd_in. by rewrite app_nil_r.
  - reflexivity.
  - reflexivity.
  - reflexivity.
  - split; [by rewrite E|]. split; [by rewrite E|]. vm_compute. reflexivity.
Defined.
