(* ===== verification/Stats.v ===== *)
(** * stats.c: the statistics of the daemon

    The children of the daemon report events over a pipe; the parent counts
    them, keeps the compilations of the last two minutes, and has a ring of 300
    intervals of 3 seconds for the number of compilations lately. *)

From S2P Require Import Prelude CLib Util Text World Io Rpc Tempfile Bulk Results Hosts Access Lock Dotd Exec FixDebug Serve.

Definition MAX_FILENAME_LEN : nat := 1024.

(** [struct statsdata], what is sent; a type read from the pipe can be any
    number.  Names are arrays of 1024 bytes. *)
Record statsdata := StatsData {
  sd_type : Z;
  sd_start : timeval;
  sd_stop : timeval;
  sd_time : Z;
  sd_filename : cstr;
  sd_compiler : cstr
}.

Definition stats_num (e : stats_e) : nat :=
  match e with
  | STATS_TCP_ACCEPT => 0
  | STATS_REJ_BAD_REQ => 1
  | STATS_REJ_OVERLOAD => 2
  | STATS_COMPILE_OK => 3
  | STATS_COMPILE_ERROR => 4
  | STATS_COMPILE_TIMEOUT => 5
  | STATS_CLI_DISCONN => 6
  | STATS_OTHER => 7
  end.
Definition STATS_ENUM_MAX : nat := 8.

(** The statics of [dcc_stats_update_running_total], with the ring. *)
Record ring := Ring {
  cts : list Z;          (** [compile_timeseries] *)
  prev_slot : Z;
  r_last : Z;
  r_total : Z
}.

(** [dcc_stats] and the statics of the functions; [x_mem] is the allocation
    oracle. *)
Record stats := Stats {
  x_counters : list Z;
  x_kids_avg : list Z;
  x_longest : Z;
  x_longest_name : cstr;
  x_longest_compiler : cstr;
  x_ring : ring;
  x_root : list statsdata;        (** [sd_root], latest first *)
  x_5m : list Z;
  x_15m : list Z;
  x_pos_5m : nat;
  x_pos_15m : nat;
  x_avg_last : Z;
  x_mem : list bool
}.

Definition set_x_ring (r : ring) (x : stats) : stats :=
  Stats (x_counters x) (x_kids_avg x) (x_longest x) (x_longest_name x) (x_longest_compiler x) r (x_root x)
    (x_5m x) (x_15m x) (x_pos_5m x) (x_pos_15m x) (x_avg_last x) (x_mem x).
Definition set_x_root (l : list statsdata) (x : stats) : stats :=
  Stats (x_counters x) (x_kids_avg x) (x_longest x) (x_longest_name x) (x_longest_compiler x) (x_ring x) l
    (x_5m x) (x_15m x) (x_pos_5m x) (x_pos_15m x) (x_avg_last x) (x_mem x).
Definition set_x_counters (l : list Z) (x : stats) : stats :=
  Stats l (x_kids_avg x) (x_longest x) (x_longest_name x) (x_longest_compiler x) (x_ring x) (x_root x)
    (x_5m x) (x_15m x) (x_pos_5m x) (x_pos_15m x) (x_avg_last x) (x_mem x).
Definition set_x_longest (t : Z) (name compiler : cstr) (x : stats) : stats :=
  Stats (x_counters x) (x_kids_avg x) t name compiler (x_ring x) (x_root x)
    (x_5m x) (x_15m x) (x_pos_5m x) (x_pos_15m x) (x_avg_last x) (x_mem x).

#[export, refine] Instance stats_mem : MemState stats := {|
  get_mem := x_mem;
  set_mem := λ l x, Stats (x_counters x) (x_kids_avg x) (x_longest x) (x_longest_name x) (x_longest_compiler x)
    (x_ring x) (x_root x) (x_5m x) (x_15m x) (x_pos_5m x) (x_pos_15m x) (x_avg_last x) l
|}.
Proof. all: by try intros []. Defined.

(** Static storage, [dcc_stats_init]. *)
Definition dcc_stats_init : stats :=
  Stats (repeat 0%Z STATS_ENUM_MAX) (repeat 0%Z 3) 0 (repeat NUL MAX_FILENAME_LEN) (repeat NUL MAX_FILENAME_LEN)
    (Ring (repeat 0%Z 300) 0 0 0) [] (repeat 0%Z 5) (repeat 0%Z 15) 0 0 0 [].

(** ** The compilations of the last two minutes *)

(** The loop that drops old elements.  [prev] is [prev_sd] and what is before
    it, last first: when there is nothing before an element that is dropped,
    [prev_sd->next] is read through a null pointer. *)
Fixpoint drop_old (two_min_ago : Z) (prev : list statsdata) (curr : list statsdata) : outcome (list statsdata) :=
  match curr with
  | [] => Ok (reverse prev)
  | sd :: next =>
      if (tv_sec (sd_stop sd) <? two_min_ago)%Z then
        match prev with
        | [] => Undef
        | _ => drop_old two_min_ago prev next
        end
      else drop_old two_min_ago (sd :: prev) next
  end.

(** [now] is [time(NULL)].  The result of [malloc] is not tested. *)
Definition dcc_stats_update_compile_times (now : Z) (sd : statsdata) : M stats unit :=
  let two_min_ago := (now - 120)%Z in
  do! (let! longest := gets x_longest in
       if (longest <? sd_time sd)%Z then modify (set_x_longest (sd_time sd) (sd_filename sd) (sd_compiler sd))
       else ret ());
  let! ok := malloc in
  if negb ok then ub
  else
    let! root := gets x_root in
    let! l := throw (drop_old two_min_ago [] (sd :: root)) in
    modify (set_x_root l).

(** ** The average number of jobs *)

(** The jobs that ran at a time. *)
Definition running_at (l : list statsdata) (t : timeval) : Z :=
  Z.of_nat (length (filter (λ sd, (dcc_timecmp (sd_start sd) t ≤ 0)%Z ∧ (0 ≤ dcc_timecmp (sd_stop sd) t)%Z) l)).

Definition sum (l : list Z) : Z := foldr Z.add 0%Z l.

Definition dcc_stats_calc_kid_avg (now : timeval) : M stats unit :=
  modify (λ x,
    if (tv_sec now - 60 >=? x_avg_last x)%Z then
      let total_running := sum ((λ t, running_at (x_root x) (Tv (tv_sec now - Z.of_nat t) (tv_usec now))) <$> seq 60 60) in
      let avg0 := Z.quot total_running 60 in
      let l5 := <[x_pos_5m x := avg0]> (x_5m x) in
      let p5 := if decide (5 ≤ S (x_pos_5m x)) then 0 else S (x_pos_5m x) in
      let l15 := <[x_pos_15m x := avg0]> (x_15m x) in
      let p15 := if decide (15 ≤ S (x_pos_15m x)) then 0 else S (x_pos_15m x) in
      Stats (x_counters x) [avg0; Z.quot (sum l5) 5; Z.quot (sum l15) 15] (x_longest x) (x_longest_name x)
        (x_longest_compiler x) (x_ring x) (x_root x) l5 l15 p5 p15 (tv_sec now) (x_mem x)
    else x).

(** ** The compilations of the last 1, 5 and 15 minutes *)

(** The loop over the interval [prev, cur); its length is below 300. *)
Fixpoint fill (fuel : nat) (i cur total : Z) (l : list Z) : list Z :=
  match fuel with
  | 0 => l
  | S fuel =>
      if (i =? cur)%Z then l
      else fill fuel ((i + 1) mod 300) cur total (<[Z.to_nat i := total]> l)
  end.

Definition update_running_total (now increment : Z) (r : ring) : Z * ring :=
  let cur_slot := ((now / 3) mod 300)%Z in
  let r := if (r_last r + 900 <? now)%Z then Ring (repeat (r_total r) 300) cur_slot (r_last r) (r_total r) else r in
  let r := if (prev_slot r =? cur_slot)%Z then r
           else Ring (fill 300 (prev_slot r mod 300) cur_slot (r_total r) (cts r)) cur_slot (r_last r) (r_total r) in
  (cur_slot, Ring (cts r) (prev_slot r) now (r_total r + increment)).

(** [total] is an int: a sum that it cannot hold is undefined. *)
Definition dcc_stats_update_running_total (now increment : Z) : M stats Z := λ x,
  let '(cur_slot, r) := update_running_total now increment (x_ring x) in
  if (r_total r <=? INT_MAX)%Z then (Ok cur_slot, set_x_ring r x) else (Undef, x).

Definition cts_at (i : Z) (l : list Z) : Z := default 0%Z (l !! Z.to_nat (i mod 300)).

Definition dcc_stats_get_compile_totals (now : Z) : M stats (Z * Z * Z) :=
  let! cur_slot := dcc_stats_update_running_total now 0 in
  let! l := gets (λ x, cts (x_ring x)) in
  ret (cts_at (cur_slot + 299) l - cts_at (cur_slot + 280) l,
       cts_at (cur_slot + 299) l - cts_at (cur_slot + 200) l,
       cts_at (cur_slot + 299) l - cts_at (cur_slot + 1) l)%Z.

(** ** A message *)

(** [sd->type > STATS_ENUM_MAX] lets the maximum itself through; counting it
    writes past the counters.  The counters are ints: one that is INT_MAX cannot
    be counted up. *)
Definition dcc_stats_process (now : Z) (sd : statsdata) : M stats unit :=
  if (sd_type sd >? Z.of_nat STATS_ENUM_MAX)%Z then ret ()
  else
    do! (if (sd_type sd =? Z.of_nat (stats_num STATS_COMPILE_OK))%Z then dcc_stats_update_compile_times now sd else ret ());
    do! (if bool_decide (sd_type sd ∈ (λ e, Z.of_nat (stats_num e)) <$>
              [STATS_COMPILE_OK; STATS_COMPILE_ERROR; STATS_COMPILE_TIMEOUT; STATS_CLI_DISCONN])
         then do! dcc_stats_update_running_total now 1; ret () else ret ());
    let! l := gets x_counters in
    match l !! Z.to_nat (sd_type sd) with
    | Some c => if (c <? INT_MAX)%Z then modify (set_x_counters (<[Z.to_nat (sd_type sd) := (c + 1)%Z]> l)) else ub
    | None => ub
    end.

(** ** The last two minutes *)

Definition fresh (two_min_ago : Z) (sd : statsdata) : Prop := (two_min_ago ≤ tv_sec (sd_stop sd))%Z.
#[export] Instance fresh_dec t sd : Decision (fresh t sd).
Proof. unfold fresh. apply _. Defined.

Lemma drop_old_filter t prev curr : prev ≠ [] → drop_old t prev curr = Ok (reverse prev ++ filter (fresh t) curr).
Proof.
  revert prev. induction curr as [|sd curr IH]; intros prev Hp; simpl; [by rewrite app_nil_r|].
  rewrite filter_cons. destruct (Z.ltb_spec (tv_sec (sd_stop sd)) t), (decide (fresh t sd)) as [Hf|Hf];
    unfold fresh in Hf; try lia.
  - destruct prev; [done|]. by apply IH.
  - rewrite IH by done. by rewrite reverse_cons, <- app_assoc.
Qed.

(** A job that is reported within two minutes becomes the first of the list, and
    the old ones go; one that is reported later makes the daemon crash. *)
Lemma compile_times_spec now sd x :
  mem_ok x →
  dcc_stats_update_compile_times now sd x =
    (if decide (fresh (now - 120) sd) then Ok () else Undef,
     let x' := if decide (x_longest x < sd_time sd)%Z
               then set_x_longest (sd_time sd) (sd_filename sd) (sd_compiler sd) x else x in
     if decide (fresh (now - 120) sd) then set_x_root (sd :: filter (fresh (now - 120)) (x_root x)) x' else x').
Proof.
  intros Hm. unfold dcc_stats_update_compile_times.
  set (x' := if decide _ then _ else x).
  rewrite (bind_Ok _ _ _ () x').
  2: { unfold bind, gets, x'. destruct (Z.ltb_spec (x_longest x) (sd_time sd)); [by rewrite decide_True|by rewrite decide_False by lia]. }
  assert (mem_ok x') as Hm' by (unfold x'; by case_decide).
  assert (x_root x' = x_root x) as Hr by (unfold x'; by case_decide).
  unfold bind, malloc. unfold mem_ok in Hm'. rewrite Hm'. cbn. rewrite Hr. unfold fresh.
  destruct (Z.ltb_spec (tv_sec (sd_stop sd)) (now - 120)).
  - by rewrite !decide_False by lia.
  - rewrite !decide_True by lia. by rewrite drop_old_filter.
Qed.

(** ** The ring *)

(** The events up to an interval, and in a range of them. *)
Definition cum (h : list Z) (k : Z) : Z := Z.of_nat (length (filter (λ t, t / 3 ≤ k)%Z h)).
Definition between (h : list Z) (a b : Z) : Z := Z.of_nat (length (filter (λ t, a < t / 3 ≤ b)%Z h)).

Lemma cum_between h a b : (a ≤ b)%Z → (cum h b - cum h a)%Z = between h a b.
Proof.
  intros Hab. unfold cum, between. induction h as [|t h IH]; [done|]. rewrite !filter_cons.
  repeat case_decide; simpl length; lia.
Qed.

Lemma cum_all h k : Forall (λ t, t / 3 ≤ k)%Z h → cum h k = Z.of_nat (length h).
Proof.
  intros Hf. unfold cum. f_equal. f_equal. induction Hf as [|t h Ht _ IH]; [done|].
  rewrite filter_cons, decide_True by done. by rewrite IH.
Qed.

Lemma mod_eq_300 a b : (a mod 300 = b mod 300)%Z → (a ≤ b < a + 300)%Z → a = b.
Proof.
  intros E H. pose proof (Z.div_mod a 300 ltac:(done)). pose proof (Z.div_mod b 300 ltac:(done)).
  assert (a / 300 = b / 300)%Z by nia. lia.
Qed.

Lemma to_nat_mod_ne a b : (a < b < a + 300)%Z → Z.to_nat (a mod 300) ≠ Z.to_nat (b mod 300).
Proof.
  intros H E. pose proof (Z.mod_pos_bound a 300). pose proof (Z.mod_pos_bound b 300).
  assert (a mod 300 = b mod 300)%Z as E' by lia. apply mod_eq_300 in E'; lia.
Qed.

(** Filling from interval [a] up to [b] changes exactly these entries. *)
Lemma fill_spec fuel a b total l :
  (a ≤ b < a + 300)%Z → (b - a ≤ Z.of_nat fuel)%Z → length l = 300 →
  length (fill fuel (a mod 300) (b mod 300) total l) = 300 ∧
  ∀ k, (a ≤ k < a + 300)%Z →
    fill fuel (a mod 300) (b mod 300) total l !! Z.to_nat (k mod 300) =
      if decide (k < b)%Z then Some total else l !! Z.to_nat (k mod 300).
Proof.
  revert a l. induction fuel as [|fuel IH]; intros a l Hab Hf Hl; simpl.
  { split; [done|]. intros k Hk. by rewrite decide_False by lia. }
  destruct (Z.eqb_spec (a mod 300) (b mod 300)) as [E|E].
  { apply mod_eq_300 in E; [|done]. split; [done|]. intros k Hk. by rewrite decide_False by lia. }
  assert (a ≠ b) by congruence. replace ((a mod 300 + 1) mod 300)%Z with ((a + 1) mod 300)%Z by by rewrite Zplus_mod_idemp_l.
  destruct (IH (a + 1)%Z (<[Z.to_nat (a mod 300) := total]> l)) as [H1 H2]; [lia|lia|by rewrite length_insert|].
  split; [done|]. intros k Hk. destruct (decide (k = a)) as [->|Hka].
  - rewrite decide_True by lia. specialize (H2 (a + 300)%Z ltac:(lia)).
    replace ((a + 300) mod 300)%Z with (a mod 300)%Z in H2 by (rewrite <- Zplus_mod_idemp_r, Z.mod_same, Z.add_0_r by done; done).
    rewrite H2, decide_False by lia. apply list_lookup_insert_eq. rewrite Hl. pose proof (Z.mod_pos_bound a 300). lia.
  - rewrite H2 by lia. case_decide; [done|]. apply list_lookup_insert_ne. apply to_nat_mod_ne. lia.
Qed.

(** The ring stands for the times [h] of the events so far: the entry of each of
    the 300 intervals before the last one counts the events up to it. *)
Record ring_of (h : list Z) (r : ring) : Prop := RingOf {
  ro_length : length (cts r) = 300;
  ro_total : r_total r = Z.of_nat (length h);
  ro_last : (0 ≤ r_last r)%Z;
  ro_times : Forall (λ t, t ≤ r_last r)%Z h;
  ro_prev : prev_slot r = ((r_last r / 3) mod 300)%Z;
  ro_cts : ∀ k, (r_last r / 3 - 300 ≤ k < r_last r / 3)%Z → cts r !! Z.to_nat (k mod 300) = Some (cum h k)
}.

(** The next call: not before the last one, and not exactly 300 intervals
    after it. *)
Definition timely (now : Z) (r : ring) : Prop := (r_last r ≤ now)%Z ∧ (now / 3 ≠ r_last r / 3 + 300)%Z.

Lemma lookup_repeat {A} (x : A) n i : i < n → repeat x n !! i = Some x.
Proof. revert i. induction n as [|n IH]; intros [|i] Hi; simpl; [lia|lia|done|]. apply IH. lia. Qed.

Lemma mod_300_lt k : Z.to_nat (k mod 300) < 300.
Proof. pose proof (Z.mod_pos_bound k 300). lia. Qed.

Lemma ring_init : ring_of [] (x_ring dcc_stats_init).
Proof. split; try done. intros k Hk. apply lookup_repeat, mod_300_lt. Qed.

Lemma cum_later h now k : (k < now / 3)%Z → cum (now :: h) k = cum h k.
Proof. intros Hk. unfold cum. by rewrite filter_cons, decide_False by lia. Qed.

Lemma ring_update h now inc r :
  ring_of h r → timely now r → inc = 0%Z ∨ inc = 1%Z →
  (update_running_total now inc r).1 = ((now / 3) mod 300)%Z ∧
  ring_of (if (inc =? 0)%Z then h else now :: h) (update_running_total now inc r).2 ∧
  r_last (update_running_total now inc r).2 = now.
Proof.
  intros [Hlen Htot Hlast Htimes Hprev Hcts] [Hnow Hgap] Hinc. unfold update_running_total.
  assert (Hall : ∀ k, (r_last r / 3 ≤ k)%Z → cum h k = r_total r).
  { intros k Hk. rewrite Htot. apply cum_all. eapply Forall_impl; [exact Htimes|]. intros t Ht. simpl in Ht.
    pose proof (Z.div_le_mono t (r_last r) 3 ltac:(done) Ht). lia. }
  (* the entries after the reset and the filling *)
  set (r1 := if (r_last r + 900 <? now)%Z then _ else r).
  set (r2 := if (prev_slot r1 =? _)%Z then r1 else _).
  assert (Hr2 : length (cts r2) = 300 ∧ r_total r2 = r_total r ∧ prev_slot r2 = ((now / 3) mod 300)%Z ∧
    ∀ k, (now / 3 - 300 ≤ k < now / 3)%Z → cts r2 !! Z.to_nat (k mod 300) = Some (cum h k)).
  { unfold r2, r1. destruct (Z.ltb_spec (r_last r + 900) now) as [Hlong|Hshort]; cbn [prev_slot cts r_total r_last].
    - rewrite Z.eqb_refl. cbn [prev_slot cts r_total]. split; [apply repeat_length|]. split; [done|]. split; [done|].
      intros k Hk. rewrite lookup_repeat by apply mod_300_lt. f_equal. symmetry. apply Hall.
      assert (r_last r / 3 ≤ (now - 900) / 3)%Z by (apply Z.div_le_mono; lia).
      replace ((now - 900) / 3)%Z with (now / 3 - 300)%Z in *; [lia|].
      replace (now - 900)%Z with (now + (-300) * 3)%Z by lia. by rewrite Z.div_add.
    - assert (r_last r / 3 ≤ now / 3)%Z as Hle by (apply Z.div_le_mono; lia).
      assert (now / 3 < r_last r / 3 + 300)%Z as Hlt.
      { assert (now / 3 ≤ (r_last r + 300 * 3) / 3)%Z as H by (apply Z.div_le_mono; lia).
        rewrite Z.div_add in H by done. lia. }
      rewrite Hprev. destruct (Z.eqb_spec ((r_last r / 3) mod 300) ((now / 3) mod 300)) as [E|E].
      + apply mod_eq_300 in E; [|lia]. rewrite E in *. done.
      + cbn [prev_slot cts r_total]. rewrite Z.mod_mod by done.
        destruct (fill_spec 300 (r_last r / 3) (now / 3) (r_total r) (cts r)) as [F1 F2]; [lia|lia|done|].
        split; [done|]. split; [done|]. split; [done|]. intros k Hk. destruct (decide (r_last r / 3 ≤ k)%Z) as [Hk'|Hk'].
        * rewrite F2 by lia. rewrite decide_True by lia. by rewrite Hall.
        * rewrite <- (Hcts k) by lia. specialize (F2 (k + 300)%Z ltac:(lia)).
          replace ((k + 300) mod 300)%Z with (k mod 300)%Z in F2
            by (rewrite <- Zplus_mod_idemp_r, Z.mod_same, Z.add_0_r by done; done).
          by rewrite decide_False in F2 by lia. }
  destruct Hr2 as (R1 & R2 & R3 & R4). split; [done|]. split; [|done].
  destruct Hinc as [-> | ->]; cbn [Z.eqb]; (split; cbn [snd cts r_total r_last prev_slot]; try done; try lia).
  - eapply Forall_impl; [exact Htimes|]. simpl. lia.
  - simpl length. lia.
  - constructor; [lia|]. eapply Forall_impl; [exact Htimes|]. simpl. lia.
  - intros k Hk. rewrite cum_later by lia. auto.
Qed.

(** ** What the statistics stand for *)

(** A message with an event. *)
Definition message (e : stats_e) (sd : statsdata) : Prop := sd_type sd = Z.of_nat (stats_num e).

(** The jobs that the ring counts. *)
Definition compiles (e : stats_e) : bool :=
  match e with
  | STATS_COMPILE_OK | STATS_COMPILE_ERROR | STATS_COMPILE_TIMEOUT | STATS_CLI_DISCONN => true
  | _ => false
  end.

(** The abstract state: the events so far with their times, latest first. *)
Abbreviation history := (list (Z * stats_e)).
Definition count (e : stats_e) (h : history) : Z := Z.of_nat (length (filter (λ p, p.2 = e) h)).
Definition compile_times (h : history) : list Z := (filter (λ p, compiles p.2 = true) h).*1.

(** A concrete state represents a history. *)
Definition represents (h : history) (x : stats) : Prop :=
  length (x_counters x) = STATS_ENUM_MAX ∧
  (∀ e, x_counters x !! stats_num e = Some (count e h)) ∧
  ring_of (compile_times h) (x_ring x).

Lemma init_represents : represents [] dcc_stats_init.
Proof. split; [done|]. split; [by intros []|apply ring_init]. Qed.

Lemma stats_num_inj e e' : stats_num e = stats_num e' → e = e'.
Proof. by destruct e, e'. Qed.

Lemma compiles_type e :
  bool_decide (Z.of_nat (stats_num e) ∈ (λ e, Z.of_nat (stats_num e)) <$>
    [STATS_COMPILE_OK; STATS_COMPILE_ERROR; STATS_COMPILE_TIMEOUT; STATS_CLI_DISCONN]) = compiles e.
Proof. by destruct e. Qed.

(** The counting at the end of [dcc_stats_process]. *)
Lemma counters_step e h l :
  length l = STATS_ENUM_MAX → (∀ e', l !! stats_num e' = Some (count e' h)) → ∀ now,
  ∀ e', <[stats_num e := (count e h + 1)%Z]> l !! stats_num e' = Some (count e' ((now, e) :: h)).
Proof.
  intros Hl Hc now e'. unfold count. rewrite filter_cons. simpl. destruct (decide (e = e')) as [->|Hne].
  - rewrite list_lookup_insert_eq by (by eapply lookup_lt_Some). simpl. f_equal. lia.
  - rewrite list_lookup_insert_ne; [apply Hc|]. by intros ?%stats_num_inj.
Qed.

Lemma count_le e h : (count e h ≤ Z.of_nat (length h))%Z.
Proof. unfold count. pose proof (length_filter (λ p, p.2 = e) h). lia. Qed.

Lemma compile_times_le h : length (compile_times h) ≤ length h.
Proof. unfold compile_times. rewrite length_fmap. apply length_filter. Qed.

(** A call of [dcc_stats_update_running_total] on a ring for a history that an
    int can count. *)
Lemma running_total_run h now inc x :
  ring_of h (x_ring x) → timely now (x_ring x) → inc = 0%Z ∨ inc = 1%Z → (Z.of_nat (length h) + inc ≤ INT_MAX)%Z →
  ∃ r, dcc_stats_update_running_total now inc x = (Ok ((now / 3) mod 300)%Z, set_x_ring r x) ∧
    ring_of (if (inc =? 0)%Z then h else now :: h) r ∧ r_last r = now.
Proof.
  intros Hr Ht Hi Hm. destruct (ring_update h now inc (x_ring x) Hr Ht Hi) as (Us & U & Ul).
  unfold dcc_stats_update_running_total. destruct (update_running_total now inc (x_ring x)) as [s r]. simpl in *. subst s.
  rewrite (proj2 (Z.leb_le _ _)); [eauto|]. rewrite (ro_total _ _ U). destruct Hi as [-> | ->]; simpl length; simpl in *; lia.
Qed.

(** The three totals, as counts of the history; the longest job is left alone. *)
Lemma compile_totals_run h now x :
  represents h x → timely now (x_ring x) → (Z.of_nat (length h) < INT_MAX)%Z →
  ∃ x', dcc_stats_get_compile_totals now x =
          (Ok (between (compile_times h) (now / 3 - 20) (now / 3 - 1),
               between (compile_times h) (now / 3 - 100) (now / 3 - 1),
               between (compile_times h) (now / 3 - 299) (now / 3 - 1)), x') ∧ represents h x' ∧
    x_longest_name x' = x_longest_name x ∧ x_longest_compiler x' = x_longest_compiler x.
Proof.
  intros (Hl & Hc & Hr) Ht Hmax. pose proof (compile_times_le h) as Hle. unfold dcc_stats_get_compile_totals.
  destruct (running_total_run (compile_times h) now 0 x) as (r & E & U & Ul); [done|done|by left|lia|].
  rewrite (bind_Ok _ _ _ _ _ E). simpl in U.
  assert (∀ d a, (0 ≤ d < 300)%Z → a = (now / 3 - 300 + d)%Z →
    cts_at ((now / 3) mod 300 + d) (cts r) = cum (compile_times h) a) as Hat.
  { intros d a Hd ->. unfold cts_at. rewrite Zplus_mod_idemp_l.
    replace ((now / 3 + d) mod 300)%Z with ((now / 3 - 300 + d) mod 300)%Z.
    2: { replace (now / 3 - 300 + d)%Z with (now / 3 + d + (-1) * 300)%Z by lia. by rewrite Z.mod_add. }
    rewrite (ro_cts _ _ U); [done|]. rewrite Ul. lia. }
  unfold bind, gets, ret. cbn [fst snd x_ring set_x_ring].
  rewrite (Hat 299%Z (now / 3 - 1)%Z), (Hat 280%Z (now / 3 - 20)%Z), (Hat 200%Z (now / 3 - 100)%Z), (Hat 1%Z (now / 3 - 299)%Z) by lia.
  rewrite !cum_between by lia. eexists. split; [done|]. done.
Qed.

(** C19. The daemon's statistics refine the history of events, under three
    conditions.  Fewer than INT_MAX events have been reported (counters and
    totals are ints).  The clock has not been set back since the last call, and
    the last call is not exactly 300 intervals of three seconds ago ([timely];
    otherwise the ring takes the present interval for the last one,
    [totals_after_gap]).  A job that is done is reported within two minutes
    ([fresh]; otherwise the daemon crashes, [process_overruns]).  Then a message
    about an event takes a state that represents a history to one that
    represents the history with the event: every counter is the number of events
    of its kind, and the ring the times of the compilations.  And in a state that
    represents a history, the three totals are the numbers of compilations in
    the 19, 99 and 298 intervals of three seconds before the present one. *)
Theorem stats_refine_history (h : history) (x : stats) (now : Z) :
  represents h x → mem_ok x → timely now (x_ring x) → (Z.of_nat (length h) < INT_MAX)%Z →
  (∀ e sd, message e sd → (e = STATS_COMPILE_OK → fresh (now - 120) sd) →
     ∃ x', dcc_stats_process now sd x = (Ok (), x') ∧ represents ((now, e) :: h) x' ∧ mem_ok x') ∧
  ∃ x', dcc_stats_get_compile_totals now x =
          (Ok (between (compile_times h) (now / 3 - 20) (now / 3 - 1),
               between (compile_times h) (now / 3 - 100) (now / 3 - 1),
               between (compile_times h) (now / 3 - 299) (now / 3 - 1)), x') ∧ represents h x'.
Proof.
  intros (Hl & Hc & Hr) Hm Ht Hmax. pose proof (compile_times_le h) as Hle. split.
  - intros e sd He Hfresh. unfold message in He. unfold dcc_stats_process. rewrite He.
    assert ((Z.of_nat (stats_num e) >? Z.of_nat STATS_ENUM_MAX)%Z = false) as -> by by destruct e.
    assert (∃ x1, (if (Z.of_nat (stats_num e) =? Z.of_nat (stats_num STATS_COMPILE_OK))%Z
      then dcc_stats_update_compile_times now sd else ret ()) x = (Ok (), x1) ∧
      x_counters x1 = x_counters x ∧ x_ring x1 = x_ring x ∧ mem_ok x1) as (x1 & E1 & C1 & R1 & M1).
    { destruct (Z.eqb_spec (Z.of_nat (stats_num e)) (Z.of_nat (stats_num STATS_COMPILE_OK))) as [E|E]; [|by exists x].
      apply Nat2Z.inj, stats_num_inj in E. rewrite compile_times_spec, !decide_True by auto. eexists. split; [done|]. by case_decide. }
    rewrite (bind_Ok _ _ _ _ _ E1), compiles_type.
    assert (∃ x2, (if compiles e then do! dcc_stats_update_running_total now 1; ret () else ret ()) x1 = (Ok (), x2) ∧
      x_counters x2 = x_counters x ∧ ring_of (compile_times ((now, e) :: h)) (x_ring x2) ∧ mem_ok x2)
      as (x2 & E2 & C2 & R2 & M2).
    { unfold compile_times at 1. rewrite filter_cons. simpl. destruct (compiles e) eqn:Ec.
      - destruct (running_total_run (compile_times h) now 1 x1) as (r & E & U & _); [by rewrite R1..|by right|lia|].
        rewrite (bind_Ok _ _ _ _ _ E). eexists. split; [done|]. done.
      - exists x1. simpl. by rewrite R1. }
    rewrite (bind_Ok _ _ _ _ _ E2). unfold bind, gets. rewrite C2, Nat2Z.id, Hc.
    pose proof (count_le e h). rewrite (proj2 (Z.ltb_lt _ _)) by lia.
    eexists. split; [done|]. split; [|done]. split; [by (simpl; rewrite length_insert)|]. split; [by apply counters_step|exact R2].
  - destruct (compile_totals_run h now x) as (x' & E & Hx & _); [done..|]. by exists x'.
Qed.

(** After a silence of exactly 300 intervals the ring takes the present interval
    for the one of the last event: an event of 15 minutes ago counts as one of
    the last minute. *)
Lemma totals_after_gap :
  let sd := StatsData 4 (Tv 0 0) (Tv 0 0) 0 [] [] in
  match (do! dcc_stats_process 3000 sd; do! dcc_stats_get_compile_totals 3900; dcc_stats_get_compile_totals 3903)
          dcc_stats_init with
  | (Ok t, _) => t = (1, 1, 1)%Z
  | _ => False
  end.
Proof. by vm_compute. Qed.

(** A message whose type is the maximum is counted past the array, and a job
    that is reported late is looked up through a null pointer. *)
Lemma process_overruns :
  (dcc_stats_process 0 (StatsData 8 (Tv 0 0) (Tv 0 0) 0 [] []) dcc_stats_init).1 = Undef ∧
  (dcc_stats_process 1000 (StatsData 3 (Tv 0 0) (Tv 800 0) 5 [] []) dcc_stats_init).1 = Undef.
Proof. by split; vm_compute. Qed.

(** ** Witness *)

Lemma stats_refine_history_witness :
  ∃ x, dcc_stats_process 3000 (StatsData 4 (Tv 0 0) (Tv 0 0) 0 [] []) dcc_stats_init = (Ok (), x) ∧
    represents [(3000%Z, STATS_COMPILE_ERROR)] x.
Proof.
  destruct (stats_refine_history [] dcc_stats_init 3000 init_represents eq_refl) as [H _].
  - split; vm_compute; congruence.
  - vm_compute. congruence.
  - destruct (H STATS_COMPILE_ERROR (StatsData 4 (Tv 0 0) (Tv 0 0) 0 [] []) eq_refl) as (x & E & R & _); [done|].
    exists x. split; [exact E|exact R].
Defined.
