(* ===== verification/Report.v ===== *)
(** * What the daemon reports over HTTP: stats.c, with the system's numbers of util.c

    On its statistics port the daemon answers every connection from an allowed
    client with a text of its counters and of numbers that it scans from /proc:
    the load, the processes, the disks.  What the files of /proc hold, the
    clock and the file system's free space are the record [sysinfo]. *)

From S2P Require Import Prelude CLib Util Snprintf Text World Io Rpc Tempfile Bulk Results Hosts Access Lock Dotd Exec FixDebug Serve Stats.

(** ** fscanf *)

(** The conversions the sources use; [keep] is false for a star. *)
Inductive sconv := CvInt (keep : bool) | CvStr (keep : bool) | CvChr | CvFloat | CvLit (c : ascii) | CvSpace.
Inductive sval := SvInt (z : Z) | SvStr (s : cstr) | SvChr (c : ascii) | SvFloat.

(** The characters of a word, of digits, of a decimal number. *)
Fixpoint word_length (s : cstr) : nat :=
  match s with c :: r => if isspace c then 0 else S (word_length r) | [] => 0 end.

Definition digits_length (s : cstr) : nat := (scan_digits 10 0 s).2.

(** A sign, digits with or without a point, and an exponent; no hexadecimal
    numbers, infinities and the like. *)
Definition float_length (s : cstr) : nat :=
  let n1 := (scan_sign s).2 in
  let n2 := digits_length (drop n1 s) in
  let n3 := if ceqb (cget s (n1 + n2)) "." then S (digits_length (drop (S (n1 + n2)) s)) else 0 in
  if decide (n2 = 0 ∧ n3 ≤ 1) then 0
  else
    let n := n1 + n2 + n3 in
    if ceqb (cget s n) "e" || ceqb (cget s n) "E" then
      let n4 := (scan_sign (drop (S n) s)).2 in
      match digits_length (drop (S n + n4) s) with 0 => n | k => S n + n4 + k end
    else n.

(** One conversion: [None] when it does not match, else what it stores and the
    rest; [inl] when the input ends before it. *)
Definition scan_one (c : sconv) (s : cstr) : unit + option (list sval * cstr) :=
  let t := drop (skip_spaces s) s in
  match c with
  | CvSpace => inr (Some ([], t))
  | CvLit l => match s with [] => inl () | x :: r => inr (if ceqb x l then Some ([], r) else None) end
  | CvChr => match s with [] => inl () | x :: r => inr (Some ([SvChr x], r)) end
  | CvStr keep =>
      match t with
      | [] => inl ()
      | _ => inr (Some ((if keep then [SvStr (take (word_length t) t)] else []), drop (word_length t) t))
      end
  | CvInt keep =>
      match t with
      | [] => inl ()
      | _ => match strtol 10 t with
             | (_, 0) => inr None
             | (v, k) => inr (Some ((if keep then [SvInt (s32 v)] else []), drop k t))
             end
      end
  | CvFloat =>
      match t with
      | [] => inl ()
      | _ => match float_length t with 0 => inr None | k => inr (Some ([SvFloat], drop k t)) end
      end
  end.

(** What is stored, where reading stops, and whether the input had ended. *)
Fixpoint scan (fmt : list sconv) (s : cstr) : list sval * cstr * bool :=
  match fmt with
  | [] => ([], s, false)
  | c :: fmt =>
      match scan_one c s with
      | inl _ => ([], [], true)
      | inr None => ([], s, false)
      | inr (Some (vs, r)) => let '(ws, r, e) := scan fmt r in (vs ++ ws, r, e)
      end
  end.

(** The value of the call; EOF is -1. *)
Definition scan_count (r : list sval * cstr * bool) : Z :=
  match r with (vs, _, e) => if e && bool_decide (vs = []) then -1 else Z.of_nat (length vs) end.

#[export] Instance sval_eq_dec : EqDecision sval.
Proof. solve_decision. Defined.

(** ** The load *)

(** "%lf %lf %lf %d/%d %d" *)
Definition loadavg_format : list sconv :=
  [CvFloat; CvSpace; CvFloat; CvSpace; CvFloat; CvSpace; CvInt true; CvLit "/"; CvInt true; CvSpace; CvInt true].

Definition dcc_getcurrentload (loadavg : option cstr) : Z :=
  match loadavg with
  | None => -1
  | Some s =>
      match scan loadavg_format s with
      | ([_; _; _; SvInt running; _; _], _, _) => running
      | _ => -1
      end
  end.

(** The samples getloadavg gave; the rest are -1. *)
Definition dcc_getloadavg {D : Type} (minus_one : D) (samples : list D) : list D :=
  take 3 (take 3 samples ++ replicate 3 minus_one).

(** ** The processes *)

(** "%*d %s %c", twenty times "%*d", "%d" *)
Definition stat_format : list sconv :=
  [CvInt false; CvSpace; CvStr true; CvSpace; CvChr] ++ concat (replicate 20 [CvSpace; CvInt false]) ++ [CvSpace; CvInt true].

Definition ends_cc (s : cstr) : bool :=
  let l := length s in
  (2 <=? l) && (ceqb (cget s (l - 1)) "c" && ceqb (cget s (l - 2)) "c" ||
                ceqb (cget s (l - 1)) "+" && ceqb (cget s (l - 2)) "+").

Record proc_stats := ProcStats { ps_num_D : Z; ps_max_RSS : Z; ps_name : cstr }.

(** An entry of /proc: its name, and what its file "stat" holds, if it can be
    opened.  The product of pages and their size is an int. *)
Definition proc_entry (pagesize : Z) (entry : cstr * option cstr) (p : proc_stats) : outcome proc_stats :=
  let '(d_name, stat) := entry in
  if negb (scan_count (scan [CvInt true] d_name) =? 1)%Z then Ok p
  else
    match stat with
    | None => Ok p
    | Some s =>
        match scan stat_format s with
        | ([SvStr name; SvChr state; SvInt rss], _, _) =>
            if negb (length name <? 1024) then Undef
            else
              match int_val (rss * pagesize) with
              | Ok bytes =>
                  let rss_size := Z.quot bytes 1024 in
                  let num_D := (if ceqb state "D" then ps_num_D p + 1 else ps_num_D p)%Z in
                  let isCC := ends_cc (ps_name p) in
                  Ok (if (ps_max_RSS p <? rss_size)%Z && negb isCC then ProcStats num_D rss_size name
                      else ProcStats num_D (ps_max_RSS p) (ps_name p))
              | _ => Undef
              end
        | _ => Ok p
        end
    end.

Fixpoint proc_loop (pagesize : Z) (entries : list (cstr * option cstr)) (p : proc_stats) : outcome proc_stats :=
  match entries with
  | [] => Ok p
  | e :: entries => match proc_entry pagesize e p with Ok p => proc_loop pagesize entries p | o => o end
  end.

(** The result of opendir is not looked at. *)
Definition dcc_get_proc_stats (pagesize : Z) (proc : option (list (cstr * option cstr))) : outcome proc_stats :=
  match proc with
  | None => Undef
  | Some entries => proc_loop pagesize entries (ProcStats 0 0 [])
  end.

(** ** The disks *)

Definition diskstats_format (kernel26 : bool) : list sconv :=
  if kernel26 then [CvSpace; CvInt false; CvSpace; CvInt true; CvSpace; CvStr true]
  else [CvSpace; CvInt false; CvSpace; CvInt true; CvSpace; CvInt false; CvSpace; CvStr true].

(** " %*d %*d %d %*d %*d %*d %d %*d %*d %*d %*d" *)
Definition disk_format : list sconv :=
  concat ((λ keep, [CvSpace; CvInt keep]) <$>
    [false; false; true; false; false; false; true; false; false; false; false]).

(** fgets with 1024 bytes: [None] at the end. *)
Definition fgets_rest (s : cstr) : option cstr :=
  match s with
  | [] => None
  | _ => Some (match strchr s "010" with
               | Some i => if (i <? 1023) then drop (S i) s else drop 1023 s
               | None => drop 1023 s
               end)
  end.

Definition disk_a (dev : cstr) : bool :=
  ceqb (cget dev 0) "h" && ceqb (cget dev 1) "d" && ceqb (cget dev 2) "a" ||
  ceqb (cget dev 0) "s" && ceqb (cget dev 1) "d" && ceqb (cget dev 2) "a".

(** Every turn reads a character at least. *)
Fixpoint disk_loop (fuel : nat) (kernel26 : bool) (s : cstr) (n_reads n_writes : Z) : outcome (Z * Z) :=
  match fuel with
  | 0 => Undef
  | S fuel =>
      match scan (diskstats_format kernel26) s with
      | ([SvInt minor; SvStr dev], s, _) =>
          if negb (length dev <? 100) then Undef
          else if (Z.rem minor 64 =? 0)%Z && disk_a dev then
            match scan disk_format s with
            | ([SvInt reads; SvInt writes], s, _) =>
                match int_val (n_reads + reads), int_val (n_writes + writes) with
                | Ok r, Ok w => disk_loop fuel kernel26 s r w
                | _, _ => Undef
                end
            | _ => Ok (n_reads, n_writes)
            end
          else
            match fgets_rest s with
            | None => Ok (n_reads, n_writes)
            | Some s => disk_loop fuel kernel26 s n_reads n_writes
            end
      | _ => Ok (n_reads, n_writes)
      end
  end.

(** A file: its text, or is it missing. *)
Inductive proc_file := PfText (s : cstr) | PfMissing | PfError.

Definition dcc_get_disk_io_stats (diskstats partitions : proc_file) : outcome (Z * Z) :=
  match diskstats with
  | PfText s => disk_loop (S (length s)) true s 0 0
  | PfError => Ok (0, 0)%Z
  | PfMissing =>
      match partitions with
      | PfText s =>
          let r := scan (concat (replicate 15 [CvStr false; CvSpace])) s in
          if (scan_count r =? -1)%Z then Ok (0, 0)%Z else disk_loop (S (length s)) false r.1.2 0 0
      | _ => Ok (0, 0)%Z
      end
  end.

(** ** The report *)

Section report.
Context `{Config} `{Resolver} {D : Type} (minus_one : D) (fmt_load : D → cstr).

(** What a request sees of the system.  [fmt_load] is "%1.2lf". *)
Record sysinfo := SysInfo {
  si_now : Z;
  si_loadavg : option cstr; si_samples : list D;
  si_pagesize : Z; si_proc : option (list (cstr * option cstr));
  si_diskstats : proc_file; si_partitions : proc_file;
  si_tmp_top : bool; si_statvfs : option (Z * Z)     (** f_bsize, f_bavail *)
}.

(** The statistics, the statics of [dcc_stats_minutely_update], and the world of
    the process. *)
Record reporter := Reporter {
  rp_stats : stats; rp_io_rate : Z; rp_prev_io_tot : Z; rp_last : Z; rp_job : job_state; rp_w : world
}.

Definition set_rp_stats (x : stats) (r : reporter) : reporter :=
  Reporter x (rp_io_rate r) (rp_prev_io_tot r) (rp_last r) (rp_job r) (rp_w r).
Definition set_rp_job (j : job_state) (r : reporter) : reporter :=
  Reporter (rp_stats r) (rp_io_rate r) (rp_prev_io_tot r) (rp_last r) j (rp_w r).
Definition set_rp_w (w : world) (r : reporter) : reporter :=
  Reporter (rp_stats r) (rp_io_rate r) (rp_prev_io_tot r) (rp_last r) (rp_job r) w.

Definition rp_on_stats {A} : M stats A → M reporter A := zoom rp_stats set_rp_stats.
Definition rp_on_job {A} : M job_state A → M reporter A := zoom rp_job set_rp_job.
Definition rp_on_w {A} : M world A → M reporter A := zoom rp_w set_rp_w.

Definition dcc_stats_minutely_update (i : sysinfo) : M reporter unit :=
  let! r := gets (λ r, r) in
  if (rp_last r + 50 <? si_now i)%Z then
    let! (n_reads, n_writes) := throw (dcc_get_disk_io_stats (si_diskstats i) (si_partitions i)) in
    let! tot := throw (int_val (n_reads + n_writes)) in
    let! rate :=
      (if (rp_prev_io_tot r =? -1)%Z then ret (-1)%Z
       else let! diff := throw (int_val (tot - rp_prev_io_tot r)) in ret (s32 (Z.quot diff (si_now i - rp_last r)))) in
    modify (λ r, Reporter (rp_stats r) rate tot (si_now i) (rp_job r) (rp_w r))
  else ret ().

(** The arithmetic is that of unsigned long. *)
Definition dcc_get_tmpdirinfo (i : sysinfo) : Z :=
  if negb (si_tmp_top i) then -1
  else
    match si_statvfs i with
    | None => -1
    | Some (bsize, bavail) =>
        if (1024 <=? bsize)%Z then ((bavail * (bsize / 1024)) mod 2 ^ 64) / 1024
        else ((bavail * bsize) mod 2 ^ 64) / (1024 * 1024)
    end.

(** The string in an array of characters. *)
Definition array_string (a : cstr) : outcome cstr :=
  match strchr a NUL with Some n => Ok (take n a) | None => Undef end.

(** [if (a[0] == 0) strcpy(a, "none")] *)
Definition none_if_empty (a : cstr) : cstr :=
  if ceqb (cget a 0) NUL then "none"%cs ++ NUL :: drop 5 a else a.

Definition name_longest : M stats unit :=
  modify (λ x, set_x_longest (x_longest x) (none_if_empty (x_longest_name x)) (none_if_empty (x_longest_compiler x)) x).

Definition LF : cstr := ["010"%char].

Definition reply_head : cstr :=
  "HTTP/1.0 200 OK"%cs ++ LF ++ "Content-Type: text/plain"%cs ++ LF ++ "Connection: close"%cs ++ LF ++ LF ++
  "argv /distccd"%cs ++ LF ++ "<distccstats>"%cs ++ LF.
Definition reply_tail : cstr := "</distccstats>"%cs ++ LF.

(** A line of the template. *)
Definition report_line (l : cstr * cstr) : cstr := l.1 ++ " "%cs ++ l.2 ++ LF.

Definition counter (x : stats) (e : stats_e) : cstr := decimal (default 0%Z (x_counters x !! stats_num e)).

(** The fields of [replytemplate] with their values. *)
Definition report_fields (x : stats) (name compiler : cstr) (max_kids load : Z) (loads : list D) (ct : Z * Z * Z)
    (p : proc_stats) (io_rate free_space_mb : Z) : list (cstr * cstr) :=
  let kids n := decimal (default 0%Z (x_kids_avg x !! n)) in
  let sample n := fmt_load (default minus_one (loads !! n)) in
  let '(ct0, ct1, ct2) := ct in
  [("dcc_tcp_accept"%cs, counter x STATS_TCP_ACCEPT); ("dcc_rej_bad_req"%cs, counter x STATS_REJ_BAD_REQ);
   ("dcc_rej_overload"%cs, counter x STATS_REJ_OVERLOAD); ("dcc_compile_ok"%cs, counter x STATS_COMPILE_OK);
   ("dcc_compile_error"%cs, counter x STATS_COMPILE_ERROR); ("dcc_compile_timeout"%cs, counter x STATS_COMPILE_TIMEOUT);
   ("dcc_cli_disconnect"%cs, counter x STATS_CLI_DISCONN); ("dcc_other"%cs, counter x STATS_OTHER);
   ("dcc_longest_job"%cs, name); ("dcc_longest_job_compiler"%cs, compiler);
   ("dcc_longest_job_time_msecs"%cs, decimal (x_longest x)); ("dcc_max_kids"%cs, decimal max_kids);
   ("dcc_avg_kids1"%cs, kids 0); ("dcc_avg_kids2"%cs, kids 1); ("dcc_avg_kids3"%cs, kids 2);
   ("dcc_current_load"%cs, decimal load);
   ("dcc_load1"%cs, sample 0); ("dcc_load2"%cs, sample 1); ("dcc_load3"%cs, sample 2);
   ("dcc_num_compiles1"%cs, decimal ct0); ("dcc_num_compiles2"%cs, decimal ct1); ("dcc_num_compiles3"%cs, decimal ct2);
   ("dcc_num_procstate_D"%cs, decimal (ps_num_D p)); ("dcc_max_RSS"%cs, decimal (ps_max_RSS p));
   ("dcc_max_RSS_name"%cs, ps_name p); ("dcc_io_rate"%cs, decimal io_rate);
   ("dcc_free_space"%cs, decimal free_space_mb ++ " MB"%cs)].

Definition report_text (fields : list (cstr * cstr)) : cstr := reply_head ++ (fields ≫= report_line) ++ reply_tail.

(** [reply] has 2048 bytes, and snprintf returns the length of the whole text;
    the rest of the array is not initialised. *)
Definition reply_bytes (text : cstr) : outcome cstr :=
  if (length text <? 2048) then Ok text else if (length text =? 2048) then Ok (take 2047 text ++ [NUL]) else Undef.

(** [accept]: a connection with the client's address and what it has sent, or
    nothing when it fails. *)
Definition accept_stats (conn : option (sockaddr * cstr)) : M world (option (nat * sockaddr)) :=
  match conn with
  | None => ret None
  | Some (cli_addr, sent) => let! fd := add_fd (Fd sent [] None) in ret (Some (fd, cli_addr))
  end.

(** When [accept] fails [cli_addr] is looked at although nothing was stored in
    it.  What the client has sent is read, once, and not looked at; the results
    of [dcc_writex] and [dcc_close] are not looked at either.  The result is
    what the connection has been given when it is closed, which the code does
    not keep. *)
Definition dcc_service_stats_request (i : sysinfo) (max_kids : Z) (conn : option (sockaddr * cstr))
    (opt_allowed : list (dcc_address * dcc_address)) : M reporter cstr :=
  do! dcc_stats_minutely_update i;
  let! ct := rp_on_stats (dcc_stats_get_compile_totals (si_now i)) in
  let loadavg := dcc_getloadavg minus_one (si_samples i) in
  let free_space_mb := s32 (dcc_get_tmpdirinfo i) in
  let! p := throw (dcc_get_proc_stats (si_pagesize i) (si_proc i)) in
  do! rp_on_stats name_longest;
  let! acc := rp_on_w (accept_stats conn) in
  match acc with
  | None => ub
  | Some (acc_fd, cli_addr) =>
      let! r := rp_on_job (dcc_check_client (Some cli_addr) opt_allowed) in
      do! (if (r =? 0)%Z then
             let! s := gets (λ s, s) in
             let x := rp_stats s in
             let! name := throw (array_string (x_longest_name x)) in
             let! compiler := throw (array_string (x_longest_compiler x)) in
             let! reply := throw (reply_bytes (report_text (report_fields x name compiler max_kids
               (dcc_getcurrentload (si_loadavg i)) loadavg ct p (rp_io_rate s) free_space_mb))) in
             do! rp_on_w (sys_read acc_fd 1024);
             do! attempt (rp_on_w (dcc_writex acc_fd reply));
             ret ()
           else ret ());
      let! given := gets (λ s, written acc_fd (rp_w s)) in
      do! attempt (rp_on_w (dcc_close acc_fd));
      ret given
  end.
End report.

(** ** Scanning what was printed *)

Lemma scan_dec_rest n rest :
  (0 ≤ n < 10 ^ 18)%Z → no_digit rest → scan_digits 10 0 (dec n ++ rest) = (n, length (dec n)).
Proof.
  intros Hn Hr. unfold dec. destruct (dec_aux_spec 20 n []) as (ds & -> & _ & _ & Hs); [lia..|].
  rewrite app_nil_r, Hs, Z.mul_0_l, Z.add_0_l. destruct rest as [|c rest]; cbn [scan_digits].
  - by rewrite Nat.add_0_r.
  - unfold no_digit in Hr. by rewrite Hr, Nat.add_0_r.
Qed.

Lemma hex_prefix_10 s : hex_prefix 10 s = 0.
Proof. by destruct s as [|? [|? [|? ?]]]. Qed.

Lemma strtol_decimal z rest :
  (Z.abs z < 10 ^ 18)%Z → no_digit rest → strtol 10 (decimal z ++ rest) = (z, length (decimal z)).
Proof.
  intros Hz Hr. unfold decimal. destruct (Z.ltb_spec z 0) as [Hneg|Hpos]; [|by apply strtol_dec; [lia|]].
  unfold strtol, strto. cbn [app skip_spaces]. change (isspace "-") with false. cbv iota.
  rewrite drop_0. cbn [scan_sign]. change (ceqb "-" "-") with true. cbv iota.
  change (drop 1 ("-"%char :: dec (- z) ++ rest)) with (dec (- z) ++ rest).
  rewrite hex_prefix_10, drop_0, scan_dec_rest by (done || lia).
  destruct (dec_digits (- z)) as [Hd _]; [lia|].
  rewrite decide_False by (by destruct (dec (- z))). rewrite Z.opp_involutive.
  cbn [length]. unfold LONG_MIN, LONG_MAX. f_equal; lia.
Qed.

Lemma decimal_head z : (Z.abs z < 10 ^ 18)%Z → ∃ c r, decimal z = c :: r ∧ isspace c = false.
Proof.
  intros Hz. unfold decimal. destruct (Z.ltb_spec z 0); [by eexists _, _|].
  destruct (dec_digits z) as [Hne Hd]; [lia|]. destruct (dec z) as [|c r]; [done|]. exists c, r. split; [done|].
  inversion_clear Hd as [|?? Hc _]. unfold isdigit, isspace in *.
  rewrite andb_true_iff, !Z.leb_le in Hc. apply orb_false_iff. rewrite Z.eqb_neq, andb_false_iff, !Z.leb_gt. lia.
Qed.

Lemma skip_decimal z rest : (Z.abs z < 10 ^ 18)%Z → skip_spaces (decimal z ++ rest) = 0.
Proof. intros Hz. destruct (decimal_head z Hz) as (c & r & -> & Hc). cbn. by rewrite Hc. Qed.

(** A number after a space is scanned as it was printed. *)
Lemma scan_int keep fmt z rest :
  (Z.abs z < 10 ^ 18)%Z → no_digit rest →
  scan (CvInt keep :: fmt) (decimal z ++ rest) =
    let '(ws, r, e) := scan fmt rest in ((if keep then [SvInt (s32 z)] else []) ++ ws, r, e).
Proof.
  intros Hz Hr. cbn [scan scan_one]. rewrite skip_decimal, drop_0 by done.
  destruct (decimal_head z Hz) as (c & r & E & _). rewrite strtol_decimal by done.
  rewrite drop_app_length. rewrite E. done.
Qed.

Lemma scan_space fmt rest : skip_spaces rest = 0 → scan (CvSpace :: fmt) (" "%char :: rest) = scan fmt rest.
Proof.
  intros Hs. cbn [scan scan_one skip_spaces]. change (isspace " ") with true. cbv iota. rewrite Hs.
  change (drop 1 (" "%char :: rest)) with rest. by destruct (scan fmt rest) as [[ws r] e].
Qed.

(** Numbers that are skipped. *)
Lemma scan_skipped fmt fields rest :
  Forall (λ z, Z.abs z < 10 ^ 18)%Z fields → no_digit rest →
  scan (concat (replicate (length fields) [CvSpace; CvInt false]) ++ fmt)
    ((fields ≫= λ z, " "%char :: decimal z) ++ rest) = scan fmt rest.
Proof.
  set (f := λ z, " "%char :: decimal z). intros Hf Hr. induction Hf as [|z fields Hz Hf IH]; [done|].
  cbn [length replicate concat app]. rewrite bind_cons, <- app_assoc. unfold f at 1. cbn [app].
  rewrite scan_space by by apply skip_decimal. rewrite scan_int; [|done|].
  - rewrite IH. by destruct (scan fmt rest) as [[ws r] e].
  - by destruct fields.
Qed.

(** ** The processes of a system *)

Record proc_info := ProcInfo { pi_pid : Z; pi_comm : cstr; pi_state : ascii; pi_fields : list Z; pi_rss : Z }.

(** /proc/PID/stat, with what follows the resident set size. *)
Definition stat_text (p : proc_info) (rest : cstr) : cstr :=
  decimal (pi_pid p) ++ " "%cs ++ "("%cs ++ pi_comm p ++ ") "%cs ++ [pi_state p] ++
  (pi_fields p ≫= λ z, " "%char :: decimal z) ++ " "%cs ++ decimal (pi_rss p) ++ rest.

(** The name of the command has no spaces, and the memory is below 2^31 bytes. *)
Record proc_fine (pagesize : Z) (p : proc_info) : Prop := ProcFine {
  pf_pid : (0 < pi_pid p < 10 ^ 9)%Z;
  pf_comm : Forall (λ c, isspace c = false) (pi_comm p) ∧ length (pi_comm p) < 1000;
  pf_state : isspace (pi_state p) = false;
  pf_fields : length (pi_fields p) = 20 ∧ Forall (λ z, Z.abs z < 10 ^ 18)%Z (pi_fields p);
  pf_rss : (0 ≤ pi_rss p ∧ pi_rss p * pagesize ≤ INT_MAX)%Z
}.

Lemma word_length_app w rest :
  Forall (λ c, isspace c = false) w → match rest with c :: _ => isspace c = true | [] => True end →
  word_length (w ++ rest) = length w.
Proof.
  intros Hw Hr. induction Hw as [|c w Hc _ IH]; cbn [app word_length]; [|by rewrite Hc, IH].
  destruct rest; [done|]. cbn. by rewrite Hr.
Qed.

Lemma scan_word keep fmt w rest :
  w ≠ [] → Forall (λ c, isspace c = false) w → match rest with c :: _ => isspace c = true | [] => True end →
  scan (CvStr keep :: fmt) (w ++ rest) =
    let '(ws, r, e) := scan fmt rest in ((if keep then [SvStr w] else []) ++ ws, r, e).
Proof.
  intros Hne Hw Hr. cbn [scan scan_one].
  assert (skip_spaces (w ++ rest) = 0) as -> by (destruct Hw as [|c w Hc _]; [done|]; cbn; by rewrite Hc).
  rewrite drop_0, word_length_app by done. rewrite take_app_length, drop_app_length. by destruct w.
Qed.

Lemma scan_stat pagesize p rest :
  (0 < pagesize)%Z → proc_fine pagesize p → no_digit rest →
  scan stat_format (stat_text p rest) =
    ([SvStr ("("%cs ++ pi_comm p ++ ")"%cs); SvChr (pi_state p); SvInt (pi_rss p)], rest, false).
Proof.
  intros Hps [Hpid [Hc _] Hst [Hf1 Hf2] Hrss] Hr. unfold stat_format, stat_text. cbn [app].
  rewrite scan_int by (lia || done).
  rewrite scan_space by done. set (comm := "("%char :: pi_comm p ++ ")"%cs).
  match goal with |- context [scan (CvStr true :: ?f) ?t] => set (fmt := f); replace t with (comm ++ " "%char :: pi_state p ::
    (pi_fields p ≫= λ z, " "%char :: decimal z) ++ " "%char :: decimal (pi_rss p) ++ rest)
    by (unfold comm; cbn; by rewrite <- app_assoc) end.
  assert (Forall (λ c, isspace c = false) comm) as Hcomm.
  { unfold comm. cbn. constructor; [done|]. apply Forall_app. split; [done|]. by repeat constructor. }
  rewrite scan_word by (done || unfold comm; done). unfold fmt.
  rewrite scan_space by (cbn; by rewrite Hst). cbn [scan scan_one app]. 
  rewrite <- Hf1, scan_skipped by done.
  rewrite scan_space by (apply skip_decimal; unfold INT_MAX in *; nia).
  rewrite scan_int by (done || unfold INT_MAX in *; nia). cbn [scan app].
  rewrite s32_id by (unfold INT_MAX in *; nia). done.
Qed.

(** A directory entry: a running process, one that is gone when its file is
    opened, or something that is no process. *)
Inductive proc_dirent := Proc (p : proc_info) (rest : cstr) | Gone (pid : Z) | Other (name : cstr) (stat : option cstr).

Definition dirent_of (e : proc_dirent) : cstr * option cstr :=
  match e with
  | Proc p rest => (decimal (pi_pid p), Some (stat_text p rest))
  | Gone pid => (decimal pid, None)
  | Other name stat => (name, stat)
  end.

Definition dirent_fine (pagesize : Z) (e : proc_dirent) : Prop :=
  match e with
  | Proc p rest => proc_fine pagesize p ∧ no_digit rest
  | Gone _ => True
  | Other name _ => scan_count (scan [CvInt true] name) ≠ 1%Z
  end.

Definition processes (l : list proc_dirent) : list proc_info :=
  omap (λ e, match e with Proc p _ => Some p | _ => None end) l.

Definition rss_kb (pagesize : Z) (p : proc_info) : Z := Z.quot (pi_rss p * pagesize) 1024.
Definition rss_max (pagesize : Z) (l : list proc_info) : Z := foldr (λ p, Z.max (rss_kb pagesize p)) 0%Z l.
Definition shown_name (p : proc_info) : cstr := "("%cs ++ pi_comm p ++ ")"%cs.

(** What the loop has found after the processes [l]. *)
Record proc_summary (pagesize : Z) (l : list proc_info) (s : proc_stats) : Prop := ProcSummary {
  su_D : ps_num_D s = Z.of_nat (length (filter (λ p, pi_state p = "D"%char) l));
  su_max : ps_max_RSS s = rss_max pagesize l;
  su_name : ps_name s = [] ∧ rss_max pagesize l = 0%Z ∨
    ∃ l1 p l2, l = l1 ++ p :: l2 ∧ ps_name s = shown_name p ∧ rss_kb pagesize p = rss_max pagesize l ∧
      Forall (λ q, rss_kb pagesize q < rss_kb pagesize p)%Z l1
}.

Lemma rss_max_snoc pagesize l p : rss_max pagesize (l ++ [p]) = Z.max (rss_max pagesize l) (Z.max (rss_kb pagesize p) 0).
Proof. unfold rss_max. induction l as [|q l IH]; simpl; [lia|]. rewrite IH. lia. Qed.

Lemma rss_max_bound pagesize l : Forall (λ q, rss_kb pagesize q ≤ rss_max pagesize l)%Z l ∧ (0 ≤ rss_max pagesize l)%Z.
Proof.
  unfold rss_max. induction l as [|q l [IH1 IH2]]; simpl; [by split|]. split; [|lia]. constructor; [lia|].
  eapply Forall_impl; [exact IH1|]. simpl. lia.
Qed.

Lemma shown_not_cc p : ends_cc (shown_name p) = false.
Proof.
  unfold ends_cc, shown_name. set (w := "("%cs ++ pi_comm p).
  replace ("("%cs ++ pi_comm p ++ ")"%cs) with (w ++ ")"%cs) by (unfold w; by rewrite <- app_assoc).
  assert (cget (w ++ ")"%cs) (length (w ++ ")"%cs) - 1) = ")"%char) as ->.
  { rewrite length_app. cbn [length]. replace (length w + 1 - 1) with (length w + 0) by lia. apply cget_app_r. }
  by rewrite !andb_false_r.
Qed.

Lemma summary_step pagesize l s p rest :
  (0 < pagesize)%Z → proc_fine pagesize p → no_digit rest → proc_summary pagesize l s →
  ∃ s', proc_entry pagesize (decimal (pi_pid p), Some (stat_text p rest)) s = Ok s' ∧ proc_summary pagesize (l ++ [p]) s'.
Proof.
  intros Hps Hp Hr [HD Hmax Hname]. unfold proc_entry.
  assert (scan [CvInt true] (decimal (pi_pid p)) = ([SvInt (pi_pid p)], [], false)) as ->.
  { rewrite <- (app_nil_r (decimal (pi_pid p))). destruct Hp as [Hpid _ _ _ _]. rewrite scan_int by (lia || done).
    cbn. by rewrite s32_id by lia. }
  cbn [scan_count andb length Z.of_nat Pos.of_succ_nat negb Z.eqb Pos.eqb].
  rewrite (scan_stat pagesize) by done.
  destruct Hp as [_ [_ Hlen] _ _ [Hrss1 Hrss2]].
  rewrite (proj2 (Nat.ltb_lt _ 1024)) by (cbn; rewrite length_app; cbn; lia). cbn [negb].
  rewrite int_val_in by (split; [nia|lia]).
  change (("("%cs ++ pi_comm p ++ ")"%cs)) with (shown_name p). change (Z.quot (pi_rss p * pagesize) 1024) with (rss_kb pagesize p).
  assert (0 ≤ rss_kb pagesize p)%Z as Hkb by (apply Z.quot_pos; nia).
  assert (ends_cc (ps_name s) = false) as ->.
  { destruct Hname as [[-> _]|(l1 & q & l2 & _ & -> & _)]; [done|apply shown_not_cc]. }
  eexists. split; [reflexivity|]. rewrite andb_true_r.
  assert ((if ceqb (pi_state p) "D" then ps_num_D s + 1 else ps_num_D s)%Z =
    Z.of_nat (length (filter (λ p, pi_state p = "D"%char) (l ++ [p])))) as ->.
  { rewrite filter_app, length_app, filter_cons, filter_nil. unfold ceqb. rewrite HD.
    case_bool_decide as E; [rewrite decide_True by done|rewrite decide_False by done]; cbn; lia. }
  destruct (rss_max_bound pagesize l) as [Hb Hb0]. rewrite Hmax.
  destruct (Z.ltb_spec (rss_max pagesize l) (rss_kb pagesize p)); split; cbn [ps_num_D ps_max_RSS ps_name];
    rewrite ?rss_max_snoc; try done; try lia.
  - right. exists l, p, []. split; [done|]. split; [done|]. split; [lia|].
    eapply Forall_impl; [exact Hb|]. simpl. lia.
  - destruct Hname as [[-> H0]|(l1 & q & l2 & -> & -> & Hq & Hl1)]; [left; split; [done|]; lia|].
    right. exists l1, q, (l2 ++ [p]). split; [by rewrite <- app_assoc|]. split; [done|]. split; [lia|done].
Qed.

(** What the processes statistics say of a system whose processes have names
    without spaces: how many wait for a disk, and the largest process with its
    size; the compilers, which the comment leaves out, among them, because the
    names of /proc end with a parenthesis. *)
Lemma proc_stats_spec (pagesize : Z) (entries : list proc_dirent) :
  (0 < pagesize)%Z → Forall (dirent_fine pagesize) entries →
  ∃ s, dcc_get_proc_stats pagesize (Some (dirent_of <$> entries)) = Ok s ∧ proc_summary pagesize (processes entries) s.
Proof.
  intros Hps Hf. unfold dcc_get_proc_stats.
  assert (∀ l s, proc_summary pagesize l s → ∃ s', proc_loop pagesize (dirent_of <$> entries) s = Ok s' ∧
    proc_summary pagesize (l ++ processes entries) s') as H.
  { induction Hf as [|e entries He _ IH]; intros l s Hs; [exists s; by rewrite app_nil_r|].
    cbn [fmap list_fmap proc_loop]. destruct e as [p rest|pid|name stat]; cbn [dirent_of].
    - destruct He as [Hp Hr]. destruct (summary_step pagesize l s p rest Hps Hp Hr Hs) as (s1 & -> & Hs1).
      destruct (IH _ _ Hs1) as (s' & Hl & Hs'). exists s'. split; [done|]. by rewrite <- app_assoc in Hs'.
    - assert (proc_entry pagesize (decimal pid, None) s = Ok s) as -> by (unfold proc_entry; by destruct (negb _)).
      by apply IH.
    - assert (proc_entry pagesize (name, stat) s = Ok s) as ->; [|by apply IH].
      unfold proc_entry. unfold dirent_fine in He. by rewrite (proj2 (Z.eqb_neq _ _) He). }
  destruct (H [] (ProcStats 0 0 [])) as (s & Hs & Hsum); [|by exists s].
  split; [done|done|by left].
Qed.

(** ** The disks *)

Lemma word_length_bound s : word_length s ≤ length s.
Proof. induction s as [|c s IH]; cbn; [done|]. destruct (isspace c); cbn; lia. Qed.

Lemma word_after_spaces s : drop (skip_spaces s) s ≠ [] → 0 < word_length (drop (skip_spaces s) s).
Proof.
  induction s as [|c s IH]; [done|]. cbn [skip_spaces]. destruct (isspace c) eqn:E; [exact IH|].
  intros _. cbn. rewrite E. lia.
Qed.

(** A conversion that stores something reads a character at least. *)
Lemma scan_one_rest c s vs r :
  scan_one c s = inr (Some (vs, r)) → length r ≤ length s ∧ (vs ≠ [] → length r < length s).
Proof.
  unfold scan_one. pose proof (length_drop s (skip_spaces s)) as Hd.
  destruct c as [keep|keep| | |l|]; intros H.
  - destruct (drop (skip_spaces s) s) as [|x t] eqn:Et; [done|]. destruct (strtol 10 (x :: t)) as [v [|k]]; [done|].
    injection H as <- <-. rewrite length_drop. cbn [length] in *. split; [lia|]. intros _. lia.
  - destruct (drop (skip_spaces s) s) as [|x t] eqn:Et; [done|].
    pose proof (word_after_spaces s) as Hw. rewrite Et in Hw. specialize (Hw ltac:(done)).
    set (w := word_length (x :: t)) in *. clearbody w. injection H as <- <-.
    rewrite length_drop. cbn [length] in *. split; [lia|]. intros _. lia.
  - destruct s; [done|]. injection H as <- <-. cbn. split; [lia|]. intros _. lia.
  - destruct (drop (skip_spaces s) s) as [|x t] eqn:Et; [done|]. destruct (float_length (x :: t)) as [|k]; [done|].
    injection H as <- <-. rewrite length_drop. cbn [length] in *. split; [lia|]. intros _. lia.
  - destruct s as [|x s]; [done|]. destruct (ceqb x l); [|done]. injection H as <- <-. cbn. split; [lia|done].
  - injection H as <- <-. split; [lia|done].
Qed.

Lemma scan_rest fmt s vs r e :
  scan fmt s = (vs, r, e) → length r ≤ length s ∧ (vs ≠ [] → length r < length s).
Proof.
  revert s vs r e. induction fmt as [|c fmt IH]; intros s vs r e H; cbn [scan] in H; [by simplify_eq|].
  destruct (scan_one c s) as [|[[vs1 r1]|]] eqn:E1; simplify_eq; [cbn; split; [lia|done]| |by split].
  destruct (scan fmt r1) as [[ws r2] e2] eqn:E2. simplify_eq.
  destruct (scan_one_rest _ _ _ _ E1) as [H1 H1']. destruct (IH _ _ _ _ E2) as [H2 H2'].
  split; [lia|]. intros Hne. destruct vs1 as [|v vs1]; [specialize (H2' Hne)|specialize (H1' ltac:(done))]; lia.
Qed.

Lemma fgets_rest_bound s r : fgets_rest s = Some r → length r ≤ length s.
Proof.
  unfold fgets_rest. destruct s as [|c s0] eqn:E; [done|]. rewrite <- E. clear E. intros [= <-].
  destruct (strchr _ _) as [i|]; [destruct (i <? 1023)|]; rewrite length_drop; lia.
Qed.

(** A turn for every character is enough. *)
Lemma disk_loop_enough k26 f1 f2 s n_reads n_writes :
  length s < f1 → length s < f2 → disk_loop f1 k26 s n_reads n_writes = disk_loop f2 k26 s n_reads n_writes.
Proof.
  revert f2 s n_reads n_writes. induction f1 as [|f1 IH]; intros [|f2] s n_reads n_writes H1 H2; try lia.
  cbn [disk_loop]. destruct (scan (diskstats_format k26) s) as [[vs r] e] eqn:Es.
  destruct (scan_rest _ _ _ _ _ Es) as [_ Hlt].
  destruct vs as [|[minor| | |] [|[|dev| |] [|? ?]]]; try done. specialize (Hlt ltac:(done)).
  destruct (negb _); [done|]. destruct (_ && _).
  - destruct (scan disk_format r) as [[ws r2] e2] eqn:E2. destruct (scan_rest _ _ _ _ _ E2) as [Hle _].
    destruct ws as [|[reads| | |] [|[writes| | |] [|? ?]]]; try done.
    destruct (int_val _) as [a| | |]; try done. destruct (int_val _) as [b| | |]; try done. apply IH; lia.
  - destruct (fgets_rest r) as [t|] eqn:Et; [|done]. apply fgets_rest_bound in Et. apply IH; lia.
Qed.

(** Reading the file of the disks always ends. *)
Lemma disk_io_returns diskstats partitions :
  ∃ s k26, ∀ fuel, length s < fuel →
    dcc_get_disk_io_stats diskstats partitions = disk_loop fuel k26 s 0 0 ∨
    dcc_get_disk_io_stats diskstats partitions = Ok (0, 0)%Z.
Proof.
  unfold dcc_get_disk_io_stats. destruct diskstats as [s| |]; [|destruct partitions as [s| |]|].
  - exists s, true. intros fuel Hf. left. apply disk_loop_enough; lia.
  - destruct (scan _ s) as [[vs r] e] eqn:Es. destruct (_ =? _)%Z; [exists [], true; auto|].
    exists r, false. intros fuel Hf. left. apply disk_loop_enough; [|done].
    destruct (scan_rest _ _ _ _ _ Es) as [Hle _]. cbn. lia.
  - exists [], true. auto.
  - exists [], true. auto.
  - exists [], true. auto.
Qed.

(** ** The report *)

Section sending.
Context `{Config} `{Resolver} {D : Type} (minus_one : D) (fmt_load : D → cstr).

Lemma decimal_length z : length (decimal z) ≤ 21.
Proof.
  unfold decimal, dec. pose proof (dec_aux_length 20 z []) as H1. pose proof (dec_aux_length 20 (- z) []) as H2.
  cbn [length] in *. destruct (z <? 0)%Z; cbn [length]; lia.
Qed.

Fixpoint fields_size (fields : list (cstr * cstr)) : nat :=
  match fields with l :: fields => length l.1 + 2 + length l.2 + fields_size fields | [] => 0 end.

Lemma fields_size_spec fields : length (fields ≫= report_line) = fields_size fields.
Proof.
  induction fields as [|l fields IH]; [done|]. rewrite bind_cons, length_app, IH. unfold report_line.
  rewrite !length_app. cbn [fields_size]. change (length " "%cs) with 1. change (length LF) with 1. lia.
Qed.

Lemma report_length x name compiler max_kids load loads ct p io_rate free_space_mb :
  (∀ l, length (fmt_load l) ≤ 20) →
  length (report_text (report_fields minus_one fmt_load x name compiler max_kids load loads ct p io_rate free_space_mb)) ≤
    1250 + length name + length compiler + length (ps_name p).
Proof.
  intros Hl. destruct ct as [[ct0 ct1] ct2]. unfold report_text. rewrite !length_app, fields_size_spec.
  unfold report_fields, counter. cbv zeta. cbn [fields_size fst snd]. rewrite (length_app (decimal free_space_mb)).
  repeat match goal with
  | |- context [length (decimal ?z)] => pose proof (decimal_length z); generalize dependent (length (decimal z)); intros
  | |- context [length (fmt_load ?l)] => pose proof (Hl l); generalize dependent (length (fmt_load l)); intros
  end.
  generalize (length name) (length compiler) (length (ps_name p)). intros. cbn. lia.
Qed.

(** The disks' numbers can be added up. *)
Definition disks_fine (i : sysinfo (D := D)) (s : reporter) : Prop :=
  (si_now i ≤ rp_last s + 50)%Z ∨
  ∃ a b, dcc_get_disk_io_stats (si_diskstats i) (si_partitions i) = Ok (a, b) ∧
    (0 ≤ a + b ≤ INT_MAX)%Z ∧ (-1 ≤ rp_prev_io_tot s ≤ INT_MAX)%Z.

Lemma minutely_update_runs (i : sysinfo (D := D)) s :
  disks_fine i s →
  ∃ s', dcc_stats_minutely_update i s = (Ok (), s') ∧ rp_stats s' = rp_stats s ∧ rp_job s' = rp_job s ∧ rp_w s' = rp_w s.
Proof.
  intros Hd. unfold dcc_stats_minutely_update. rewrite (bind_Ok (gets _) _ s s s) by done.
  destruct (Z.ltb_spec (rp_last s + 50) (si_now i)) as [Hlt|Hge]; [|by exists s].
  destruct Hd as [Hd|(a & b & Hd & Hab & Hprev)]; [lia|]. rewrite Hd.
  rewrite (bind_Ok (throw _) _ s (a, b) s) by done. cbv beta iota.
  rewrite int_val_in by (unfold INT_MAX in *; lia). rewrite (bind_Ok (throw _) _ s (a + b)%Z s) by done.
  destruct (Z.eqb_spec (rp_prev_io_tot s) (-1)) as [_|Hne].
  - eexists. split; [reflexivity|]. done.
  - unfold bind at 1, throw at 1. rewrite int_val_in by (unfold INT_MAX in *; lia). cbn [bind ret].
    eexists. split; [reflexivity|]. done.
Qed.

Lemma summary_name_short pagesize l p :
  proc_summary pagesize l p → Forall (λ q, length (pi_comm q) ≤ 16) l → length (ps_name p) ≤ 18.
Proof.
  intros Hsum Hcomm. destruct (su_name _ _ _ Hsum) as [[-> _]|(l1 & q & l2 & -> & -> & _)]; [cbn; lia|].
  rewrite Forall_app, Forall_cons in Hcomm. destruct Hcomm as (_ & Hq & _).
  unfold shown_name. cbn. rewrite length_app. cbn. lia.
Qed.

(** Reading what the client sent, and the reply: all of it is written. *)
Lemma reply_runs fd sent out reply w :
  io_ok w → c_fds (w_core w) !! fd = Some (Fd sent out None) →
  ∃ w1 w2 r, sys_read fd 1024 w = (Ok r, w1) ∧ dcc_writex fd reply w1 = (Ok (), w2) ∧ io_ok w2 ∧
    is_Some (c_fds (w_core w2) !! fd) ∧ written fd w2 = out ++ reply ∧ delete fd (c_fds (w_core w2)) = delete fd (c_fds (w_core w)).
Proof.
  intros Hw Hd.
  assert (∃ r w1 sent', sys_read fd 1024 w = (Ok r, w1) ∧ io_ok w1 ∧
    c_fds (w_core w1) = <[fd := Fd sent' out None]> (c_fds (w_core w))) as (r & w1 & sent' & E & Hw1 & Hc1).
  { destruct (read_ok fd 1024 _ w Hw Hd) as [(e & w1 & E & _ & Hc & Hw1 & _)|(k & w1 & E & _ & _ & Hc & Hw1 & _)].
    - exists (inr e), w1, sent. split_and!; [done..|]. rewrite Hc. symmetry. by apply insert_id.
    - eexists _, w1, (drop k sent). split_and!; [done..|]. by rewrite Hc. }
  assert (c_fds (w_core w1) !! fd = Some (Fd sent' out None)) as Hd1 by (rewrite Hc1; apply lookup_insert_eq).
  destruct (writex_runs fd (Fd sent' out None) reply (w_core w1) Hd1 w1 eq_refl Hw1) as (w2 & E2 & Hc2 & Hw2 & _).
  exists w1, w2, r. split_and!; [done..| | |].
  - rewrite Hc2. unfold put. simpl. rewrite lookup_insert_eq. by eexists.
  - unfold written. rewrite Hc2. unfold put. simpl. by rewrite lookup_insert_eq.
  - rewrite Hc2. unfold put. simpl. rewrite Hc1, insert_insert_eq. apply delete_insert_eq.
Qed.

Lemma rp_close_runs fd w :
  io_ok w → is_Some (c_fds (w_core w) !! fd) →
  ∃ w', dcc_close fd w = (Ok (), w') ∧ c_fds (w_core w') = delete fd (c_fds (w_core w)).
Proof.
  intros [_ _ Hf _ _] [d Hd]. unfold dcc_close, sys_close, fs_call, bind, next_fs.
  destruct (w_fs w) as [|[e|] l] eqn:Ef; [|by inversion Hf|]; simpl; unfold gets; simpl; rewrite Hd; simpl;
    by eexists.
Qed.

End sending.

(** ** Findings *)

(** snprintf returns the length of the whole text, and as many bytes are sent
    from the array of 2048: with two long names the client gets what lies behind. *)
Lemma long_names_overread {D} (minus_one : D) fmt_load x name compiler max_kids load loads ct p io_rate free_space_mb :
  2048 < length name + length compiler →
  reply_bytes (report_text (report_fields minus_one fmt_load x name compiler max_kids load loads ct p io_rate free_space_mb)) =
    Undef.
Proof.
  intros Hlen. unfold reply_bytes. set (text := report_text _).
  assert (length name + length compiler ≤ length text) as Ht.
  { unfold text, report_text. rewrite !length_app, fields_size_spec. destruct ct as [[ct0 ct1] ct2].
    unfold report_fields. cbn [fields_size fst snd]. lia. }
  rewrite (proj2 (Nat.ltb_ge _ _)), (proj2 (Nat.eqb_neq _ _)) by lia. done.
Qed.

Definition ex_fields : list Z := replicate 20 0%Z.

(** A process of 2 GB: the product overflows. *)
Lemma big_process_overflows :
  dcc_get_proc_stats 4096 (Some [("7"%cs, Some (stat_text (ProcInfo 7 "big"%cs "S" ex_fields 524288) []))]) = Undef.
Proof. by vm_compute. Qed.

(** A command with a space in its name is not counted. *)
Lemma spaced_name_skipped :
  dcc_get_proc_stats 4096 (Some [("7"%cs, Some (stat_text (ProcInfo 7 "tmux: server"%cs "D" ex_fields 100) []))]) =
    Ok (ProcStats 0 0 []).
Proof. by vm_compute. Qed.

(** The compiler is shown. *)
Lemma compiler_shown :
  dcc_get_proc_stats 4096 (Some [("7"%cs, Some (stat_text (ProcInfo 7 "cc"%cs "R" ex_fields 100) []))]) =
    Ok (ProcStats 0 400 "(cc)"%cs).
Proof. by vm_compute. Qed.

(** A name of 1024 bytes fills its array: no terminator is found. *)
Lemma full_name_unterminated n : 1024 ≤ n → array_string (take 1024 (replicate n "a"%char)) = Undef.
Proof.
  intros Hn. unfold array_string. rewrite take_replicate, Nat.min_l by done.
  assert (strchr (replicate 1024 "a"%char) NUL = None) as ->; [|done].
  apply strchr_None. intros Hin. apply elem_of_replicate in Hin as [Hin _]. done.
Qed.

(** ** Witness *)

Definition exr_proc : proc_info := ProcInfo 7 "make"%cs "D" ex_fields 100.
Definition ex_sysinfo : sysinfo (D := Z) :=
  SysInfo 1000 None [] 4096 (Some (dirent_of <$> [Proc exr_proc []; Gone 8; Other "self"%cs None])) (PfText []) PfMissing true None.
Definition ex_reporter : reporter := Reporter dcc_stats_init 0 0 990 (JobState [] []) ex_world.
Definition ex_allowed : list (dcc_address * dcc_address) :=
  [(Address AF_INET [10; 0; 0; 0]%Z, Address AF_INET [255; 0; 0; 0]%Z)].


(** When [accept] fails the address, in which nothing was stored, is checked
    all the same. *)
Lemma accept_failure_unchecked :
  let _ := usual_config in let _ := ex_resolver in
  (dcc_service_stats_request (-1)%Z (λ _, "1.00"%cs) ex_sysinfo 4 None ex_allowed ex_reporter).1 = Undef.
Proof. intros ? ?. by vm_compute. Qed.
