(* ===== verification/Dopt.v ===== *)
(** * dopt.c: the options of the daemon

    The variables the options set are indexed by [ivar] and [svar], so that the
    option table is data, as it is in the code.  Taking a command line apart is
    popt's; what it finds is a list of [given]. *)

From S2P Require Import Prelude CLib Util World Hosts Access Exec.
From stdpp Require Import functions.

(** The [int] and the string variables of dopt.c, with those of serve.c and
    trace.c that the options set. *)
Inductive ivar :=
  | opt_niceness | arg_max_jobs | arg_port | arg_stats | arg_stats_port | opt_no_fork | opt_daemon_mode
  | opt_inetd_mode | opt_no_fifo | opt_no_detach | opt_log_stderr | opt_log_level_num | opt_lifetime
  | opt_job_lifetime | dcc_job_lifetime | rs_trace_level.
Inductive svar := opt_listen_addr | arg_pid_file | arg_log_file | opt_user.

#[export] Instance ivar_eq_dec : EqDecision ivar.
Proof. solve_decision. Defined.
#[export] Instance svar_eq_dec : EqDecision svar.
Proof. solve_decision. Defined.

Record dopts := Dopts {
  o_int : ivar → Z;
  o_str : svar → option cstr;
  opt_allowed : list (dcc_address * dcc_address);
  o_mem : list bool                        (** the allocation oracle *)
}.

#[export, refine] Instance dopts_mem : MemState dopts := {|
  get_mem := o_mem;
  set_mem := λ l o, Dopts (o_int o) (o_str o) (opt_allowed o) l
|}.
Proof. all: by try intros []. Defined.

Definition set_int (x : ivar) (v : Z) (o : dopts) : dopts :=
  Dopts (<[x := v]> (o_int o)) (o_str o) (opt_allowed o) (o_mem o).
Definition set_str (x : svar) (v : cstr) (o : dopts) : dopts :=
  Dopts (o_int o) (<[x := Some v]> (o_str o)) (opt_allowed o) (o_mem o).
Definition set_allowed (l : list (dcc_address * dcc_address)) (o : dopts) : dopts :=
  Dopts (o_int o) (o_str o) l (o_mem o).

Definition RS_LOG_NOTICE : Z := 5.
Definition RS_LOG_DEBUG : Z := 7.

(** The values the variables start with. *)
Definition default_int (x : ivar) : Z :=
  match x with
  | opt_niceness => 5
  | arg_port => 3632
  | arg_stats_port => 3633
  | opt_log_level_num => RS_LOG_NOTICE
  | _ => 0
  end%Z.
Definition default_str (x : svar) : option cstr :=
  match x with opt_user => Some "distcc"%cs | _ => None end.

(** trace.c *)
Definition rs_loglevel_from_name (name : cstr) : Z :=
  if streq name "emerg"%cs || streq name "emergency"%cs then 0
  else if streq name "alert"%cs then 1
  else if streq name "critical"%cs || streq name "crit"%cs then 2
  else if streq name "error"%cs || streq name "err"%cs then 3
  else if streq name "warning"%cs || streq name "warn"%cs then 4
  else if streq name "notice"%cs || streq name "note"%cs then 5
  else if streq name "info"%cs then 6
  else if streq name "debug"%cs then 7
  else -1.

(** ** The table *)

Inductive target := TNone | TInt (x : ivar) | TStr (x : svar).
(** [POPT_ARG_NONE], [POPT_ARG_STRING], [POPT_ARG_INT] *)
Inductive arg_info := ArgNone | ArgString | ArgInt.
(** What [poptGetNextOpt] returns for an option; an option without it is only
    stored. *)
Inductive val := V (c : ascii) | VLogLevel.

Record poptOption := Opt {
  longName : cstr;
  argInfo : arg_info;
  arg : target;
  value : option val
}.

(** Without GSS-API and zeroconf. *)
Definition options : list poptOption := [
  Opt "allow"%cs ArgString TNone (Some (V "a"));
  Opt "jobs"%cs ArgInt (TInt arg_max_jobs) (Some (V "j"));
  Opt "daemon"%cs ArgNone (TInt opt_daemon_mode) None;
  Opt "help"%cs ArgNone TNone (Some (V "?"));
  Opt "inetd"%cs ArgNone (TInt opt_inetd_mode) None;
  Opt "lifetime"%cs ArgInt (TInt opt_lifetime) None;
  Opt "listen"%cs ArgString (TStr opt_listen_addr) None;
  Opt "log-file"%cs ArgString (TStr arg_log_file) None;
  Opt "log-level"%cs ArgString TNone (Some VLogLevel);
  Opt "log-stderr"%cs ArgNone (TInt opt_log_stderr) None;
  Opt "job-lifetime"%cs ArgInt (TInt opt_job_lifetime) (Some (V "l"));
  Opt "nice"%cs ArgInt (TInt opt_niceness) None;
  Opt "no-detach"%cs ArgNone (TInt opt_no_detach) None;
  Opt "no-fifo"%cs ArgNone (TInt opt_no_fifo) None;
  Opt "no-fork"%cs ArgNone (TInt opt_no_fork) None;
  Opt "pid-file"%cs ArgString (TStr arg_pid_file) None;
  Opt "port"%cs ArgInt (TInt arg_port) None;
  Opt "user"%cs ArgString (TStr opt_user) (Some (V "u"));
  Opt "verbose"%cs ArgNone TNone (Some (V "v"));
  Opt "version"%cs ArgNone TNone (Some (V "V"));
  Opt "wizard"%cs ArgNone TNone (Some (V "W"));
  Opt "stats"%cs ArgNone (TInt arg_stats) None;
  Opt "stats-port"%cs ArgInt (TInt arg_stats_port) None
].

(** What popt finds next: an option of the table, by its long name, with its
    argument, or something it rejects. *)
Inductive given := Given (name argument : cstr) | Rejected.

(** popt: the numbers it takes. *)
Class Popt := { popt_int : cstr → option Z }.

Section Dopt.
Context {Cfg : Config} {RES : Resolver} {P : Popt} (junk : dcc_address).

(** popt stores the argument of an option, and gives its value and argument;
    [None] is an error. *)
Definition popt_next (g : given) : M dopts (option (option val * cstr)) :=
  match g with
  | Rejected => ret None
  | Given name a =>
      match list_find (λ o, longName o = name) options with
      | None => ret None
      | Some (_, o) =>
          match argInfo o, arg o with
          | ArgNone, TInt x => do! modify (set_int x 1); ret (Some (value o, a))
          | ArgInt, TInt x =>
              match popt_int a with
              | Some z => do! modify (set_int x z); ret (Some (value o, a))
              | None => ret None
              end
          | ArgString, TStr x => do! modify (set_str x a); ret (Some (value o, a))
          | _, _ => ret (Some (value o, a))
          end
      end
  end.

(** The entry at the head of the list is filled in afterwards; [junk] is what
    [malloc] left in it. *)
Definition allow_option (a : cstr) : M dopts unit :=
  let! ok := malloc in
  if negb ok then exit_ EXIT_OUT_OF_MEMORY
  else
    do! modify (λ o, set_allowed ((junk, junk) :: opt_allowed o) o);
    let! r := attempt (dcc_parse_mask a junk junk) in
    match r with
    | inr exitcode => exit_ exitcode
    | inl e => modify (λ o, set_allowed (e :: tail (opt_allowed o)) o)
    end.

Definition set_level (level : Z) : M dopts unit :=
  do! modify (set_int rs_trace_level level); modify (set_int opt_log_level_num level).

(** The [switch]. *)
Definition handle_option (v : val) (a : cstr) : M dopts unit :=
  match v with
  | V "?" => exit_ 0
  | V "a" => allow_option a
  | V "j" =>
      let! jobs := gets (λ o, o_int o arg_max_jobs) in
      if (jobs <? 1)%Z || (jobs >? 200)%Z then exit_ EXIT_BAD_ARGUMENTS else ret ()
  | V "l" =>
      do! modify (λ o, if (o_int o opt_job_lifetime <? 0)%Z then set_int opt_job_lifetime 0 o else o);
      modify (λ o, set_int dcc_job_lifetime (o_int o opt_job_lifetime) o)
  | V "u" => ret ()                               (* a warning *)
  | V "V" => exit_ 0
  | VLogLevel =>
      let level := rs_loglevel_from_name a in
      if (level =? -1)%Z then ret () else set_level level
  | V "v" => set_level RS_LOG_DEBUG
  | V "W" =>
      do! modify (set_int opt_log_stderr 1);
      do! modify (set_int opt_daemon_mode 1);
      do! modify (set_int opt_no_detach 1);
      do! modify (set_int opt_no_fork 1);
      do! modify (set_int opt_no_fifo 1);
      set_level RS_LOG_DEBUG
  | V _ => exit_ EXIT_BAD_ARGUMENTS
  end.

Fixpoint distccd_parse_options (l : list given) : M dopts unit :=
  match l with
  | [] => ret ()
  | g :: l =>
      let! r := popt_next g in
      match r with
      | None => exit_ EXIT_BAD_ARGUMENTS
      | Some (None, _) => distccd_parse_options l
      | Some (Some v, a) => do! handle_option v a; distccd_parse_options l
      end
  end.

(** ** What the options can do *)

(** The specifications of [--allow], in order. *)
Definition allow_args (l : list given) : list cstr :=
  omap (λ g, match g with Given name a => if streq name "allow"%cs then Some a else None | Rejected => None end) l.

(** The entry of a specification. *)
Definition entry_of (a : cstr) (e : dcc_address * dcc_address) : Prop :=
  ∃ σ σ' : dopts, dcc_parse_mask a junk junk σ = (Ok e, σ').

Record sane (o : dopts) : Prop := Sane {
  sane_jobs : o_int o arg_max_jobs = 0%Z ∨ (1 ≤ o_int o arg_max_jobs ≤ 200)%Z;
  sane_lifetime : (0 ≤ o_int o dcc_job_lifetime)%Z
}.

(** One option: [Q] holds of what it leaves, or it ends the program. *)
Definition option_ends {A} (Q : dopts → Prop) (o : outcome A) (d : dopts) : Prop :=
  match o with
  | Ok _ => Q d
  | Exit c => c ∈ [0; EXIT_OUT_OF_MEMORY; EXIT_BAD_ARGUMENTS]%Z
  | Fail _ | Undef => False
  end.

(** All but the allocations is the same. *)
Definition keeps (d d' : dopts) : Prop :=
  o_int d' = o_int d ∧ o_str d' = o_str d ∧ opt_allowed d' = opt_allowed d.

Lemma malloc_or_keeps c (d : dopts) :
  wp (malloc_or c) (λ o d', keeps d d' ∧ match o with Ok _ | Fail _ => True | _ => False end) d.
Proof. unfold malloc_or, wp, bind, malloc. by destruct (get_mem d) as [|[] ?]. Qed.

Lemma parse_mask_wp a (d : dopts) :
  wp (dcc_parse_mask a junk junk)
     (λ o d', keeps d d' ∧
        match o with
        | Ok e => entry_of a e
        | Fail c => c ∈ [EXIT_OUT_OF_MEMORY; EXIT_BAD_ARGUMENTS]%Z
        | Exit _ | Undef => False
        end) d.
Proof.
  assert (H : wp (dcc_parse_mask a junk junk) (λ o d', keeps d d' ∧
    match o with Ok _ => True | Fail c => c ∈ [EXIT_OUT_OF_MEMORY; EXIT_BAD_ARGUMENTS]%Z | Exit _ | Undef => False end) d).
  { unfold dcc_parse_mask. apply wp_bind, wp_attempt. unfold split_mask. apply wp_bind.
    eapply wp_mono; [apply malloc_or_keeps|]. intros o d' [Hk Ho].
    destruct o as [[]|c|c|]; [apply wp_ret|apply wp_throw|done..]; [|split; [done|]; by left].
    repeat case_match; try (apply wp_throw; split; [done|]; by right; left); by apply wp_ret. }
  unfold wp in *. destruct (dcc_parse_mask a junk junk d) as [o d'] eqn:E. simpl in *. destruct H as [Hk H].
  split; [done|]. destruct o; try done. by exists d, d'.
Qed.

Lemma allow_option_wp a d :
  wp (allow_option a)
     (option_ends (λ d', o_int d' = o_int d ∧ ∃ e, entry_of a e ∧ opt_allowed d' = e :: opt_allowed d)) d.
Proof.
  unfold allow_option. apply wp_bind. unfold wp at 1. unfold malloc. destruct (get_mem d) as [|b mem].
  2: simpl; destruct b; [|apply wp_throw; simpl; set_solver].
  all: simpl; apply wp_bind, wp_modify, wp_bind, wp_attempt; (eapply wp_mono; [apply parse_mask_wp|]);
    intros o d' ((E1 & E2 & E3) & E4); simpl in *; destruct o as [e|c|c|]; try done;
    [apply wp_modify; split; [done|]; exists e; split; [done|]; by rewrite E3|apply wp_throw; simpl; set_solver].
Qed.

(** The body of the loop, before it goes on. *)
Definition one_option (g : given) : M dopts unit :=
  let! r := popt_next g in
  match r with
  | None => exit_ EXIT_BAD_ARGUMENTS
  | Some (None, _) => ret ()
  | Some (Some v, a) => handle_option v a
  end.

Lemma parse_options_cons g l d :
  distccd_parse_options (g :: l) d = (do! one_option g; distccd_parse_options l) d.
Proof.
  simpl. unfold one_option, bind. destruct (popt_next g d) as [[[[[v|] a]|]|?|?|] d1]; try done.
Qed.

(** What an option may change. *)
Definition stepped (g : given) (d d' : dopts) : Prop :=
  sane d' ∧ ∃ es, Forall2 entry_of (allow_args [g]) es ∧ opt_allowed d' = reverse es ++ opt_allowed d.

Lemma stepped_other g d d' :
  allow_args [g] = [] → opt_allowed d' = opt_allowed d → sane d' → stepped g d d'.
Proof. intros E1 E2 Hs. split; [done|]. exists []. by rewrite E1. Qed.

Lemma one_option_wp g d : sane d → wp (one_option g) (option_ends (stepped g d)) d.
Proof.
  intros Hs. unfold one_option. apply wp_bind.
  unfold popt_next. destruct g as [name a|]; [|by apply wp_ret, wp_throw; right; right; left].
  destruct (list_find (λ o, longName o = name) options) as [[i o]|] eqn:Ef; [|by apply wp_ret, wp_throw; right; right; left].
  apply list_find_Some in Ef as (Hi & Hname & _). subst name.
  pose proof Hs as [Hj Hl].
  do 23 (try destruct i as [|i]); try done; apply (inj Some) in Hi; subst o; simpl;
    repeat case_match; simplify_eq;
    repeat lazymatch goal with
      | |- wp (allow_option _) _ _ => fail
      | |- _ => first [apply wp_ret | apply wp_modify | apply wp_gets | apply wp_throw | progress simpl | apply wp_bind]
      end;
    try (by right; right; left); try (by left);
    try (apply stepped_other; [done|done|]; split; simpl; rewrite ?fn_lookup_insert_ne by done; done).
  - eapply wp_mono; [apply allow_option_wp|]. intros [[]|?|?|] d' H; try done. destruct H as (E & e & He & Ha).
    split; [split; by rewrite E|]. exists [e]. split; [by repeat constructor|done].
  - simpl. rewrite fn_lookup_insert. case_match eqn:Ez; [by apply wp_throw; right; right; left|].
    apply wp_ret, stepped_other; [done|done|]. split; simpl; [|by rewrite fn_lookup_insert_ne].
    rewrite fn_lookup_insert. btest. lia.
  - unfold handle_option, set_level. case_match; [by apply wp_ret, stepped_other|].
    apply wp_bind, wp_modify, wp_modify, stepped_other; [done|done|].
    split; simpl; rewrite !fn_lookup_insert_ne by done; done.
  - simpl. rewrite fn_lookup_insert. apply stepped_other; [done|by case_match|].
    case_match; btest; split; simpl; rewrite ?fn_lookup_insert, ?fn_lookup_insert_ne by done; try done; simpl;
      rewrite ?fn_lookup_insert; lia.
Qed.

Lemma parse_options_wp l d : sane d →
  wp (distccd_parse_options l)
     (option_ends (λ d', sane d' ∧
        ∃ es, Forall2 entry_of (allow_args l) es ∧ opt_allowed d' = reverse es ++ opt_allowed d)) d.
Proof.
  revert d. induction l as [|g l IH]; intros d Hs.
  - apply wp_ret. split; [done|]. by exists [].
  - unfold wp. rewrite parse_options_cons. apply (wp_bind _ (λ _, distccd_parse_options l)).
    eapply wp_mono; [by apply one_option_wp|].
    intros [[]|?|?|] d1 H; try done. destruct H as (Hs1 & es1 & Hes1 & E1).
    eapply wp_mono; [by apply IH|]. intros [[]|?|?|] d2 H; try done. destruct H as (Hs2 & es2 & Hes2 & E2).
    split; [done|]. exists (es1 ++ es2). change (g :: l) with ([g] ++ l).
    assert (allow_args ([g] ++ l) = allow_args [g] ++ allow_args l) as -> by apply omap_app.
    split; [by apply Forall2_app|]. by rewrite E2, E1, reverse_app, app_assoc.
Qed.

(** C30. Parsing the options of the daemon either returns, or ends it with
    status 0, EXIT_BAD_ARGUMENTS or EXIT_OUT_OF_MEMORY; nothing else can happen,
    whatever is on the command line.  When it returns, the number of jobs is
    between 1 and 200, or 0 where it is not given, the time a job may take is
    not negative, and the access list has one entry for each [--allow], the last
    one first, which is what its specification says. *)
Theorem parse_options_sane (l : list given) (d : dopts) :
  sane d →
  wp (distccd_parse_options l)
     (λ o d', match o with
              | Ok _ =>
                  (o_int d' arg_max_jobs = 0 ∨ 1 ≤ o_int d' arg_max_jobs ≤ 200)%Z ∧
                  (0 ≤ o_int d' dcc_job_lifetime)%Z ∧
                  ∃ es, Forall2 entry_of (allow_args l) es ∧ opt_allowed d' = reverse es ++ opt_allowed d
              | Exit c => c ∈ [0; EXIT_OUT_OF_MEMORY; EXIT_BAD_ARGUMENTS]%Z
              | Fail _ | Undef => False
              end) d.
Proof.
  intros Hs. eapply wp_mono; [by apply parse_options_wp|].
  intros [[]|?|?|] d' H; try done. by destruct H as [[? ?] ?].
Qed.
End Dopt.

(** ** Witnesses *)

(** Before the options. *)
Definition default_opts (mem : list bool) : dopts := Dopts default_int default_str [] mem.

Lemma default_sane mem : sane (default_opts mem).
Proof. split; simpl; [by left|lia]. Qed.

Definition ex_popt : Popt := {| popt_int := λ s, Some (atoi s) |}.

Lemma parse_options_sane_witness :
  ∃ d', distccd_parse_options (Cfg := usual_config) (RES := ex_resolver) (P := ex_popt) blank
          [Given "allow"%cs "10.0.0.0/8"%cs; Given "jobs"%cs "12"%cs; Given "wizard"%cs []] (default_opts []) =
        (Ok (), d') ∧
    (o_int d' arg_max_jobs = 0 ∨ 1 ≤ o_int d' arg_max_jobs ≤ 200)%Z ∧ o_int d' arg_max_jobs = 12%Z ∧
    length (opt_allowed d') = 1.
Proof.
  pose proof (parse_options_sane (Cfg := usual_config) (RES := ex_resolver) (P := ex_popt) blank
    [Given "allow"%cs "10.0.0.0/8"%cs; Given "jobs"%cs "12"%cs; Given "wizard"%cs []] (default_opts [])
    (default_sane [])) as H.
  unfold wp in H. eexists. split; [vm_compute; reflexivity|].
  split; [exact (proj1 H)|]. by split; vm_compute.
Defined.
