(* ===== verification/Setup.v ===== *)
(** * setuid.c, ncpus.c, srvnet.c: how the daemon sets itself up

    Giving up the privileges of root, the number of processors and the socket
    to listen on. *)

From S2P Require Import Prelude CLib Util World Io Hosts Access Exec Net Serve.

Definition EXIT_SETUID_FAILED : Z := 112.

(** ** The privileges *)

(** The user and group ids of a process; [cr_faults] says which of the next
    calls the kernel makes fail, past its end none. *)
Record creds := Creds {
  ruid : Z; euid : Z; suid : Z;
  rgid : Z; egid : Z; sgid : Z;
  groups : list Z;
  cr_faults : list bool
}.

Definition next_fault : M creds bool := λ c,
  match cr_faults c with
  | [] => (Ok false, c)
  | b :: l => (Ok b, Creds (ruid c) (euid c) (suid c) (rgid c) (egid c) (sgid c) (groups c) l)
  end.

(** POSIX: with privileges all three ids are set, without them only the
    effective one, to the real or the saved id.  The result says whether the
    call succeeds. *)
Definition sys_setgid (g : Z) : M creds bool :=
  let! fault := next_fault in
  let! c := gets id in
  if fault then ret false
  else if (euid c =? 0)%Z then
    do! modify (λ c, Creds (ruid c) (euid c) (suid c) g g g (groups c) (cr_faults c)); ret true
  else if (g =? rgid c)%Z || (g =? sgid c)%Z then
    do! modify (λ c, Creds (ruid c) (euid c) (suid c) (rgid c) g (sgid c) (groups c) (cr_faults c)); ret true
  else ret false.

Definition sys_setgroups (l : list Z) : M creds bool :=
  let! fault := next_fault in
  let! c := gets id in
  if fault || negb (euid c =? 0)%Z then ret false
  else
    do! modify (λ c, Creds (ruid c) (euid c) (suid c) (rgid c) (egid c) (sgid c) l (cr_faults c)); ret true.

Definition sys_setuid (u : Z) : M creds bool :=
  let! fault := next_fault in
  let! c := gets id in
  if fault then ret false
  else if (euid c =? 0)%Z then
    do! modify (λ c, Creds u u u (rgid c) (egid c) (sgid c) (groups c) (cr_faults c)); ret true
  else if (u =? ruid c)%Z || (u =? suid c)%Z then
    do! modify (λ c, Creds (ruid c) u (suid c) (rgid c) (egid c) (sgid c) (groups c) (cr_faults c)); ret true
  else ret false.

(** The password file: the user and group of a name. *)
Class Users := { getpwnam : cstr → option (Z * Z); HAVE_SETGROUPS : bool }.

Section Setuid.
Context {U : Users}.

Definition dcc_preferred_user (opt_user : cstr) : Z * Z :=
  match getpwnam opt_user with
  | Some pw => pw
  | None =>
      match getpwnam "nobody"%cs with
      | Some pw => pw
      | None => (65534, 65534)%Z
      end
  end.

Definition dcc_discard_root (opt_user : cstr) : M creds unit :=
  let! c := gets id in
  if negb (ruid c =? 0)%Z && negb (euid c =? 0)%Z then ret ()
  else
    let '(uid, gid) := dcc_preferred_user opt_user in
    let! ok := sys_setgid gid in
    if negb ok then fail EXIT_SETUID_FAILED
    else
      let! ok := (if HAVE_SETGROUPS then sys_setgroups [gid] else ret true) in
      if negb ok then fail EXIT_SETUID_FAILED
      else
        let! ok := sys_setuid uid in
        if negb ok then fail EXIT_SETUID_FAILED
        else
          let! c := gets id in
          if (ruid c =? 0)%Z || (euid c =? 0)%Z then fail EXIT_SETUID_FAILED else ret ().

(** All ids are those of the user that is wanted. *)
Definition dropped (opt_user : cstr) (c c' : creds) : Prop :=
  let '(u, g) := dcc_preferred_user opt_user in
  u ≠ 0%Z ∧ ruid c' = u ∧ euid c' = u ∧ suid c' = u ∧ rgid c' = g ∧ egid c' = g ∧ sgid c' = g ∧
  groups c' = if HAVE_SETGROUPS then [g] else groups c.

Lemma wp_next_fault Q c :
  (∀ b l, Q (Ok b) (Creds (ruid c) (euid c) (suid c) (rgid c) (egid c) (sgid c) (groups c) l)) →
  wp next_fault Q c.
Proof. intros H. unfold wp, next_fault. destruct c as [? ? ? ? ? ? ? [|b l]]; apply H. Qed.

(** A call that reports success or failure and does nothing else. *)
Definition reports (Q : creds → Prop) (o : outcome bool) (c' : creds) : Prop :=
  match o with Ok true => Q c' | Ok false => True | _ => False end.

Lemma setgid_wp g c :
  wp (sys_setgid g) (reports (λ c',
    ruid c' = ruid c ∧ euid c' = euid c ∧ suid c' = suid c ∧ groups c' = groups c ∧
    (euid c = 0%Z → rgid c' = g ∧ egid c' = g ∧ sgid c' = g))) c.
Proof.
  unfold sys_setgid. apply wp_bind, wp_next_fault. intros b l. apply wp_bind, wp_gets. simpl.
  destruct b; [by apply wp_ret|]. destruct (Z.eqb_spec (euid c) 0).
  - by apply wp_bind, wp_modify, wp_ret.
  - case_match; [|by apply wp_ret]. by apply wp_bind, wp_modify, wp_ret.
Qed.

Lemma setgroups_wp l c :
  wp (sys_setgroups l) (reports (λ c',
    ruid c' = ruid c ∧ euid c' = euid c ∧ suid c' = suid c ∧
    rgid c' = rgid c ∧ egid c' = egid c ∧ sgid c' = sgid c ∧ groups c' = l ∧ euid c = 0%Z)) c.
Proof.
  unfold sys_setgroups. apply wp_bind, wp_next_fault. intros b l'. apply wp_bind, wp_gets. simpl.
  destruct b; [by apply wp_ret|]. simpl. destruct (Z.eqb_spec (euid c) 0); simpl; [|by apply wp_ret].
  by apply wp_bind, wp_modify, wp_ret.
Qed.

Lemma setuid_wp u c :
  wp (sys_setuid u) (reports (λ c',
    rgid c' = rgid c ∧ egid c' = egid c ∧ sgid c' = sgid c ∧ groups c' = groups c ∧
    (euid c = 0%Z → ruid c' = u ∧ euid c' = u ∧ suid c' = u) ∧ (euid c ≠ 0%Z → ruid c' = ruid c))) c.
Proof.
  unfold sys_setuid. apply wp_bind, wp_next_fault. intros b l. apply wp_bind, wp_gets. simpl.
  destruct b; [by apply wp_ret|]. destruct (Z.eqb_spec (euid c) 0).
  - by apply wp_bind, wp_modify, wp_ret.
  - case_match; [|by apply wp_ret]. by apply wp_bind, wp_modify, wp_ret.
Qed.

Lemma maybe_setgroups_wp g c :
  wp (if HAVE_SETGROUPS then sys_setgroups [g] else ret true) (reports (λ c',
    ruid c' = ruid c ∧ euid c' = euid c ∧ suid c' = suid c ∧
    rgid c' = rgid c ∧ egid c' = egid c ∧ sgid c' = sgid c ∧
    groups c' = if HAVE_SETGROUPS then [g] else groups c)) c.
Proof.
  destruct HAVE_SETGROUPS; [|by apply wp_ret]. eapply wp_mono; [apply setgroups_wp|].
  intros [[]|?|?|] c' H; simpl in *; naive_solver.
Qed.

(** A call of the three: its success goes on, its failure is EXIT_SETUID_FAILED. *)
Lemma checked {A} (m : M creds bool) (k : M creds A) (P : creds → Prop) Q c :
  wp m (reports P) c → (∀ c', Q (Fail EXIT_SETUID_FAILED) c') → (∀ c', P c' → wp k Q c') →
  wp (let! ok := m in if negb ok then fail EXIT_SETUID_FAILED else k) Q c.
Proof.
  intros Hm Hf Hk. apply wp_bind. eapply wp_mono; [exact Hm|].
  intros [[]|?|?|] c' H; try done; [by apply Hk|by apply wp_throw].
Qed.

Lemma discard_root_wp opt_user c :
  wp (dcc_discard_root opt_user)
     (λ o c', match o with
              | Ok _ => (ruid c ≠ 0 ∧ euid c ≠ 0 ∧ c' = c)%Z ∨ (euid c = 0%Z ∧ dropped opt_user c c')
              | Fail e => e = EXIT_SETUID_FAILED ∧ (ruid c = 0 ∨ euid c = 0)%Z
              | Exit _ | Undef => False
              end) c.
Proof.
  unfold dcc_discard_root, dropped. apply wp_bind, wp_gets. destruct (dcc_preferred_user opt_user) as [u g]. simpl.
  destruct (Z.eqb_spec (ruid c) 0) as [Er|Er], (Z.eqb_spec (euid c) 0) as [Ee|Ee]; simpl; [..|apply wp_ret; auto].
  all: apply (checked _ _ _ _ _ (setgid_wp g c)); [by auto|]; intros c1 (E1 & E2 & E3 & E4 & E5).
  all: apply (checked _ _ _ _ _ (maybe_setgroups_wp g c1)); [by auto|]; intros c2 (F1 & F2 & F3 & F4 & F5 & F6 & F7).
  all: apply (checked _ _ _ _ _ (setuid_wp u c2)); [by auto|]; intros c3 (G1 & G2 & G3 & G4 & G5 & G6).
  all: apply wp_bind, wp_gets; simpl;
    destruct (Z.eqb_spec (ruid c3) 0); [by apply wp_throw; auto|];
    destruct (Z.eqb_spec (euid c3) 0); [by apply wp_throw; auto|]; apply wp_ret.
  all: rewrite F2, E2 in G5, G6; try (exfalso; specialize (G6 Ee); congruence).
  all: right; split; [done|]; destruct (G5 Ee) as (? & ? & ?); destruct (E5 Ee) as (? & ? & ?).
  all: rewrite G1, G2, G3, G4, F4, F5, F6, F7, E4; naive_solver.
Qed.

(** C25. [dcc_discard_root] returns only when the process has no privileges of
    root: either it had none, neither by its real nor by its effective user, and
    nothing is changed, or it was root and now all its user ids, the saved one
    too, are the one of the user that is wanted, which is not root, its group
    ids are that user's and it has no other groups.  In every other case, a
    program that is set-uid to another user and run by root included, it
    reports EXIT_SETUID_FAILED. *)
Theorem discard_root_safe (opt_user : cstr) (c : creds) :
  wp (dcc_discard_root opt_user)
     (λ o c', match o with
              | Ok _ =>
                  (ruid c ≠ 0 ∧ euid c ≠ 0 ∧ c' = c)%Z ∨
                  let '(u, g) := dcc_preferred_user opt_user in
                  euid c = 0%Z ∧ u ≠ 0%Z ∧ ruid c' = u ∧ euid c' = u ∧ suid c' = u ∧
                  rgid c' = g ∧ egid c' = g ∧ sgid c' = g ∧ groups c' = if HAVE_SETGROUPS then [g] else groups c
              | Fail e => e = EXIT_SETUID_FAILED ∧ (ruid c = 0 ∨ euid c = 0)%Z
              | Exit _ | Undef => False
              end) c.
Proof.
  eapply wp_mono; [apply discard_root_wp|]. intros [[]|?|?|] c' H; try done.
  unfold dropped in H. destruct (dcc_preferred_user opt_user). naive_solver.
Qed.
End Setuid.

(** ** ncpus.c *)

(** [n] is what [sysconf] says. *)
Definition dcc_ncpus (n : Z) : Z * Z :=
  if (n =? -1)%Z then (EXIT_DISTCC_FAILED, 1%Z)
  else if (n =? 0)%Z then (0%Z, 1%Z)
  else (0%Z, n).

(** ** srvnet.c: the socket to listen on *)

Definition sa_family (sa : sockaddr) : Z :=
  match sa with
  | Sa_in _ _ => AF_INET
  | Sa_in6 _ _ => AF_INET6
  | Sa_un _ => AF_UNIX
  | Sa_other f => f
  end.

(** The addresses of [getaddrinfo] for a name, or for any address of the
    machine, and a port; the families of sockets the kernel has. *)
Class Listening := {
  listen_addrs : option cstr → Z → option (list sockaddr);
  supported : Z → bool
}.

Section Listen.
Context {Cfg : Config} {RES : Resolver} {LI : Listening}.

(** [socket]: [None] is EAFNOSUPPORT. *)
Definition sys_socket_af (af : Z) : M world (option (nat + errno)) :=
  if supported af then (let! r := sys_socket in ret (Some r)) else ret None.

(** [bind] refuses an address of another family than the socket's. *)
Definition sys_bind (fd : nat) (af : Z) (sa : sockaddr) : M world (unit + errno) :=
  fs_call (ret (if (sa_family sa =? af)%Z then inl () else inr EOTHER)).
Definition sys_listen (fd : nat) : M world (unit + errno) := fs_call (ret (inl ())).

(** The socket [fd] is of family [af]. *)
Definition dcc_listen_by_addr (fd : nat) (af : Z) (sa : sockaddr) : M server unit :=
  let! sa_buf := on_job (dcc_sockaddr_to_string (Some sa)) in
  match sa_buf with
  | None => fail EXIT_OUT_OF_MEMORY
  | Some _ =>
      let! r := on_sw (sys_bind fd af sa) in
      match r with
      | inr _ => let! _ := on_sw (sys_close fd) in fail EXIT_BIND_FAILED
      | inl _ =>
          let! r := on_sw (sys_listen fd) in
          match r with
          | inr _ => let! _ := on_sw (sys_close fd) in fail EXIT_BIND_FAILED
          | inl _ => ret ()
          end
      end
  end.

(** The loop over the addresses: a socket is made for the family of each [ai],
    but it is always the first address, [res], that is bound. *)
Fixpoint listen_loop (res : sockaddr) (ais : list sockaddr) : M server nat :=
  match ais with
  | [] => fail EXIT_BIND_FAILED
  | ai :: ais =>
      let! fd := on_sw (sys_socket_af (sa_family ai)) in
      match fd with
      | None => listen_loop res ais
      | Some (inr _) => fail EXIT_BIND_FAILED
      | Some (inl fd) => do! dcc_listen_by_addr fd (sa_family ai) res; ret fd
      end
  end.

Definition dcc_socket_listen (port : Z) (listen_addr : option cstr) : M server nat :=
  if (port <? 1)%Z || (port >? 65535)%Z then fail EXIT_BAD_ARGUMENTS
  else if ENABLE_RFC2553 then
    match listen_addrs listen_addr port with
    | None => fail EXIT_BIND_FAILED
    | Some [] => fail EXIT_BIND_FAILED
    | Some (res :: rest) => listen_loop res (res :: rest)
    end
  else
    let! a := (match listen_addr with
               | Some s => match inet_aton s with Some a => ret a | None => fail EXIT_BAD_ARGUMENTS end
               | None => ret [0; 0; 0; 0]%Z                        (* INADDR_ANY *)
               end) in
    let! fd := on_sw sys_socket in
    match fd with
    | inr _ => fail EXIT_BIND_FAILED
    | inl fd => do! dcc_listen_by_addr fd AF_INET (Sa_in a port); ret fd
    end.

(** The computation does not return a result. *)
Definition no_result {A} (o : outcome A) (_ : server) : Prop := match o with Ok _ => False | _ => True end.

Lemma no_result_bind {A B} (m : M server A) (k : A → M server B) s :
  (∀ a s', wp (k a) no_result s') → wp (bind m k) no_result s.
Proof. intros H. apply wp_bind. eapply wp_mono; [apply wp_true|]. intros [] s' _; [apply H|done..]. Qed.

Lemma listen_other_family fd af sa s : sa_family sa ≠ af → wp (dcc_listen_by_addr fd af sa) no_result s.
Proof.
  intros Hf. unfold dcc_listen_by_addr. apply no_result_bind. intros [buf|] s1; [|done].
  apply wp_bind. unfold on_sw, on_so, on_w. apply wp_zoom, wp_zoom. unfold sys_bind. apply wp_fs_call.
  - intros e l. by apply no_result_bind.
  - intros l. apply wp_ret. rewrite (proj2 (Z.eqb_neq _ _) Hf). by apply no_result_bind.
Qed.

(** When the kernel has no sockets for the first address, the daemon does not
    listen: the socket of the next family is bound to the first address. *)
Lemma listen_wrong_family res ais s : supported (sa_family res) = false → wp (listen_loop res ais) no_result s.
Proof.
  intros Hs. revert s. induction ais as [|ai ais IH]; intros s; [done|].
  simpl. destruct (decide (sa_family res = sa_family ai)) as [E|E].
  - unfold sys_socket_af. rewrite <- E, Hs. apply wp_bind. unfold on_sw, on_so, on_w. apply wp_zoom, wp_zoom, wp_ret, IH.
  - apply no_result_bind. intros [[fd|e]|] s1; [|done|apply IH].
    apply wp_bind. eapply wp_mono; [by apply listen_other_family|]. by intros [].
Qed.
End Listen.
