(* ===== verification/Pool.v ===== *)
(** * dparent.c, prefork.c, dsignal.c: the processes of the daemon

    The parent keeps a pool of children that serve clients.  [daemon] is the
    parent: its own process ([d_srv]), its options and ids, and its children.
    The children run between the parent's own steps, in an order that
    [d_turns] decides; a turn is what they do before the parent goes on, a job
    being one step.  The files are shared, everything else of a child is a copy
    made by [fork]. *)

From S2P Require Import Prelude CLib Util Argv Text World Io Rpc Tempfile Bulk Results Hosts Access Lock Exec Net.
From S2P Require Import Serve Stats Dopt Setup.

(** What the kernel decides for a process from now on. *)
Record kernel := Kernel {
  kn_xfer : list xfer;
  kn_sel : list sel;
  kn_fs : list (option errno);
  kn_mem : list bool;
  kn_fork : list bool;
  kn_wait : list wait_ev;
  kn_clock : list (Z * Z)
}.

Definition reload (k : kernel) (s : server) : server :=
  let o := sv_os s in
  let w := os_w o in
  set_sv_os (Os (World (w_core w) (kn_xfer k) (kn_sel k) (kn_fs k) (kn_mem k) (w_timeout w) (w_env w))
    (os_pid o) (kn_fork k) (kn_wait k) (kn_clock k) (os_children o) (os_killed o) (os_safeguard o)
    (os_conn o) (os_so o) (os_streams o) (os_log o)) s.

Definition files_of (s : server) : gmap cstr node := c_files (w_core (os_w (sv_os s))).
Definition with_files (m : gmap cstr node) (s : server) : server :=
  let w := os_w (sv_os s) in
  set_sv_os (set_os_w (set_core (set_files m (w_core w)) w) (sv_os s)) s.
Definition with_pid (pid : Z) (s : server) : server :=
  let o := sv_os s in
  set_sv_os (Os (os_w o) pid (os_fork o) (os_wait o) (os_clock o) (os_children o) (os_killed o)
    (os_safeguard o) (os_conn o) (os_so o) (os_streams o) (os_log o)) s.

(** A child: its process, the requests it has served, and its wait status once
    it is dead. *)
Record kid := Kid {
  k_srv : server;
  k_ireq : nat;
  k_status : option Z
}.

(** What a call of [accept] gives: a client and what it will send. *)
Inductive accept_ev := AccIntr | AccErr | AccConn (peer : sockaddr) (data : cstr).

(** What happens in a child. *)
Inductive kid_act := Accept (pid : nat) (evs : list accept_ev) (k : kernel) | Signal (pid : nat) (sig : Z).

(** How a [waitpid] of the parent goes. *)
Inductive wait_how := WGo | WIntr | WErr.
Record turn := Turn { t_acts : list kid_act; t_how : wait_how }.

(** What a signal does; one that is not listed kills the process. *)
Inductive disposition := SigIgnore | SigTerminate.

Record daemon := Daemon {
  d_srv : server;
  d_opts : dopts;
  d_cred : creds;
  d_stats : stats;
  d_sigs : gmap Z disposition;
  d_atexit : bool;              (** [dcc_remove_pid] is to run at exit *)
  d_master : Z;                 (** [dcc_master_pid] *)
  d_wd : cstr;                  (** [dcc_daemon_wd] *)
  d_nkids : Z;                  (** [dcc_nkids] *)
  d_max_kids : Z;               (** [dcc_max_kids] *)
  d_kids : gmap nat kid;
  d_next : nat;                 (** the pid of the next child *)
  d_turns : list turn
}.

Definition set_d_srv (s : server) (d : daemon) : daemon :=
  Daemon s (d_opts d) (d_cred d) (d_stats d) (d_sigs d) (d_atexit d) (d_master d) (d_wd d) (d_nkids d)
    (d_max_kids d) (d_kids d) (d_next d) (d_turns d).
Definition set_d_opts (o : dopts) (d : daemon) : daemon :=
  Daemon (d_srv d) o (d_cred d) (d_stats d) (d_sigs d) (d_atexit d) (d_master d) (d_wd d) (d_nkids d)
    (d_max_kids d) (d_kids d) (d_next d) (d_turns d).
Definition set_d_cred (c : creds) (d : daemon) : daemon :=
  Daemon (d_srv d) (d_opts d) c (d_stats d) (d_sigs d) (d_atexit d) (d_master d) (d_wd d) (d_nkids d)
    (d_max_kids d) (d_kids d) (d_next d) (d_turns d).
Definition set_d_stats (x : stats) (d : daemon) : daemon :=
  Daemon (d_srv d) (d_opts d) (d_cred d) x (d_sigs d) (d_atexit d) (d_master d) (d_wd d) (d_nkids d)
    (d_max_kids d) (d_kids d) (d_next d) (d_turns d).
Definition set_d_sigs (m : gmap Z disposition) (d : daemon) : daemon :=
  Daemon (d_srv d) (d_opts d) (d_cred d) (d_stats d) m (d_atexit d) (d_master d) (d_wd d) (d_nkids d)
    (d_max_kids d) (d_kids d) (d_next d) (d_turns d).
Definition set_d_atexit (b : bool) (d : daemon) : daemon :=
  Daemon (d_srv d) (d_opts d) (d_cred d) (d_stats d) (d_sigs d) b (d_master d) (d_wd d) (d_nkids d)
    (d_max_kids d) (d_kids d) (d_next d) (d_turns d).
Definition set_d_master (p : Z) (d : daemon) : daemon :=
  Daemon (d_srv d) (d_opts d) (d_cred d) (d_stats d) (d_sigs d) (d_atexit d) p (d_wd d) (d_nkids d)
    (d_max_kids d) (d_kids d) (d_next d) (d_turns d).
Definition set_d_wd (p : cstr) (d : daemon) : daemon :=
  Daemon (d_srv d) (d_opts d) (d_cred d) (d_stats d) (d_sigs d) (d_atexit d) (d_master d) p (d_nkids d)
    (d_max_kids d) (d_kids d) (d_next d) (d_turns d).
Definition set_d_nkids (n : Z) (d : daemon) : daemon :=
  Daemon (d_srv d) (d_opts d) (d_cred d) (d_stats d) (d_sigs d) (d_atexit d) (d_master d) (d_wd d) n
    (d_max_kids d) (d_kids d) (d_next d) (d_turns d).
Definition set_d_max_kids (n : Z) (d : daemon) : daemon :=
  Daemon (d_srv d) (d_opts d) (d_cred d) (d_stats d) (d_sigs d) (d_atexit d) (d_master d) (d_wd d) (d_nkids d)
    n (d_kids d) (d_next d) (d_turns d).
Definition set_d_kids (m : gmap nat kid) (d : daemon) : daemon :=
  Daemon (d_srv d) (d_opts d) (d_cred d) (d_stats d) (d_sigs d) (d_atexit d) (d_master d) (d_wd d) (d_nkids d)
    (d_max_kids d) m (d_next d) (d_turns d).
Definition set_d_next (n : nat) (d : daemon) : daemon :=
  Daemon (d_srv d) (d_opts d) (d_cred d) (d_stats d) (d_sigs d) (d_atexit d) (d_master d) (d_wd d) (d_nkids d)
    (d_max_kids d) (d_kids d) n (d_turns d).
Definition set_d_turns (l : list turn) (d : daemon) : daemon :=
  Daemon (d_srv d) (d_opts d) (d_cred d) (d_stats d) (d_sigs d) (d_atexit d) (d_master d) (d_wd d) (d_nkids d)
    (d_max_kids d) (d_kids d) (d_next d) l.

Definition on_srv {A} : M server A → M daemon A := zoom d_srv set_d_srv.
Definition on_dw {A} (m : M world A) : M daemon A := on_srv (on_sw m).
Definition on_stats {A} : M stats A → M daemon A := zoom d_stats set_d_stats.

Definition int_opt (x : ivar) (d : daemon) : Z := o_int (d_opts d) x.
Definition str_opt (x : svar) (d : daemon) : option cstr := o_str (d_opts d) x.

Section Pool.
Context {Cfg : Config} {LZO : Lzo} {Progs : Programs} {MK : Mkdtemp} {RES : Resolver} {LI : Listening}.

(** ** dparent.c: the pid file *)

Definition dcc_remove_pid (pid_file : option cstr) : M world unit :=
  match pid_file with
  | None => ret ()
  | Some f => let! _ := sys_unlink f in ret ()
  end.

(** [exit] *)
Definition run_atexit (registered : bool) (pid_file : option cstr) : M server unit :=
  if registered then on_sw (dcc_remove_pid pid_file) else ret ().

(** ** dsignal.c *)

Definition SIGHUP : Z := 1.
Definition SIGINT : Z := 2.
Definition SIGALRM : Z := 14.
Definition SIGTERM : Z := 15.

Definition dcc_daemon_catch_signals : M daemon unit :=
  modify (λ d, set_d_sigs (<[SIGALRM := SigTerminate]> (<[SIGHUP := SigTerminate]>
    (<[SIGINT := SigTerminate]> (<[SIGTERM := SigTerminate]> (d_sigs d))))) d).

Definition dcc_ignore_sighup : M daemon unit :=
  modify (λ d, set_d_sigs (<[SIGHUP := SigIgnore]> (d_sigs d)) d).

(** The handler, in a process that is the parent or is not; the signal is raised
    again at its end.  Killing the group is [kill_group] below. *)
Definition dcc_daemon_terminate (am_parent : bool) (pid_file : option cstr) : M server unit :=
  do! on_sw dcc_cleanup_tempfiles;
  if am_parent then on_sw (dcc_remove_pid pid_file) else ret ().

(** ** prefork.c: a child *)

Definition child_lifetime : nat := 50.

(** The [do ... while] around [accept]: [None] while no client comes. *)
Fixpoint accept_loop (l : list accept_ev) : option (option (sockaddr * cstr)) :=
  match l with
  | [] => None
  | AccIntr :: l => accept_loop l
  | AccErr :: _ => Some None
  | AccConn peer data :: _ => Some (Some (peer, data))
  end.

(** One round of the loop; [false] when no client has come yet.  The alarm shows
    as a signal. *)
Definition child_request (o : dopts) (wd : cstr) (l : list accept_ev) : M server bool :=
  match accept_loop l with
  | None => ret false
  | Some None => exit_ EXIT_CONNECT_FAILED
  | Some (Some (peer, data)) =>
      let! acc_fd := on_sw (add_fd (Fd data [] None)) in
      do! dcc_stats_event STATS_TCP_ACCEPT;
      do! attempt (dcc_service_job (o_int o dcc_job_lifetime) wd acc_fd acc_fd (Some peer) (opt_allowed o));
      do! attempt (on_sw (dcc_close acc_fd));
      ret true
  end.

(** [dcc_exit] in a child. *)
Definition kid_exits (registered : bool) (o : dopts) (code : Z) (n : nat) (s : server) : kid :=
  Kid (run_atexit registered (o_str o arg_pid_file) s).2 n (Some (Z.shiftl (Z.land code 255) 8)).

(** [dcc_preforked_child], a round at a time: after its 50 requests a child
    exits with 0.  Undefined behaviour is a crash. *)
Definition dcc_preforked_child (registered : bool) (o : dopts) (wd : cstr) (l : list accept_ev) (k : kid) : kid :=
  match child_request o wd l (k_srv k) with
  | (Ok true, s) =>
      let n := S (k_ireq k) in
      if decide (n < child_lifetime) then Kid s n None else kid_exits registered o 0 n s
  | (Ok false, s) => Kid s (k_ireq k) None
  | (Exit c, s) => kid_exits registered o c (k_ireq k) s
  | (Fail _, s) | (Undef, s) => Kid s (k_ireq k) (Some 11%Z)
  end.

(** A signal reaches a child. *)
Definition kid_signal (sigs : gmap Z disposition) (sig : Z) (k : kid) : kid :=
  match sigs !! sig with
  | Some SigIgnore => k
  | Some SigTerminate => Kid (dcc_daemon_terminate false None (k_srv k)).2 (k_ireq k) (Some sig)
  | None => Kid (k_srv k) (k_ireq k) (Some sig)
  end.

(** A child that is alive takes a step, in the files as they are now. *)
Definition in_kid (pid : nat) (f : kid → kid) : M daemon unit :=
  modify (λ d,
    match d_kids d !! pid with
    | Some (Kid s n None) =>
        let k := f (Kid (with_files (files_of (d_srv d)) s) n None) in
        set_d_srv (with_files (files_of (k_srv k)) (d_srv d)) (set_d_kids (<[pid := k]> (d_kids d)) d)
    | _ => d
    end).

Definition act (a : kid_act) : M daemon unit :=
  let! d := gets id in
  match a with
  | Accept pid evs kn =>
      in_kid pid (λ k, dcc_preforked_child (d_atexit d) (d_opts d) (d_wd d) evs
                         (Kid (reload kn (k_srv k)) (k_ireq k) (k_status k)))
  | Signal pid sig => in_kid pid (kid_signal (d_sigs d) sig)
  end.

Fixpoint run_acts (l : list kid_act) : M daemon unit :=
  match l with [] => ret () | a :: l => do! act a; run_acts l end.

(** [kill(0, sig)] reaches every child. *)
Fixpoint kill_group (sig : Z) (pids : list nat) : M daemon unit :=
  match pids with
  | [] => ret ()
  | pid :: pids =>
      let! sigs := gets d_sigs in
      do! in_kid pid (kid_signal sigs sig);
      kill_group sig pids
  end.

(** A signal reaches the main process; a signal that kills it ends it. *)
Definition main_signal (sig : Z) : M daemon unit :=
  let! d := gets id in
  match d_sigs d !! sig with
  | Some SigIgnore => ret ()
  | None => exit_ (128 + sig)
  | Some SigTerminate =>
      let am_parent := (os_pid (sv_os (d_srv d)) =? d_master d)%Z in
      do! on_srv (dcc_daemon_terminate am_parent (str_opt arg_pid_file d));
      do! (if am_parent then kill_group sig (map_to_list (d_kids d)).*1 else ret ());
      exit_ (128 + sig)
  end.

(** The children go on while the parent sleeps. *)
Definition next_turn : M daemon wait_how :=
  let! l := gets d_turns in
  match l with
  | [] => ret WGo
  | t :: l => do! modify (set_d_turns l); do! run_acts (t_acts t); ret (t_how t)
  end.

(** ** dparent.c: waiting *)

(** [RWaiting]: the parent is still waiting when there are no more turns to look
    at. *)
Inductive wait_res := RNone | RKid (pid : nat) (status : Z) | RNoChild | RIntr | RError | RWaiting.

Definition dead (l : list (nat * kid)) : option (nat * Z) :=
  list_find (λ p, k_status p.2 ≠ None) l ≫= λ p, (λ st, (p.2.1, st)) <$> k_status p.2.2.

(** A child that is dead goes; [None] when there are only live ones. *)
Definition reap_one : M daemon (option wait_res) :=
  let! kids := gets d_kids in
  match map_to_list kids with
  | [] => ret (Some RNoChild)
  | l =>
      match dead l with
      | Some (pid, st) => do! modify (set_d_kids (delete pid kids)); ret (Some (RKid pid st))
      | None => ret None
      end
  end.

Fixpoint waitpid_loop (nohang : bool) (turns : list turn) : M daemon wait_res :=
  match turns with
  | [] =>
      do! modify (set_d_turns []);
      let! r := reap_one in
      match r with
      | Some r => ret r
      | None => if nohang then ret RNone else ret RWaiting
      end
  | t :: turns =>
      do! modify (set_d_turns turns);
      do! run_acts (t_acts t);
      match t_how t with
      | WIntr => ret RIntr
      | WErr => ret RError
      | WGo =>
          let! r := reap_one in
          match r with
          | Some r => ret r
          | None => if nohang then ret RNone else waitpid_loop nohang turns
          end
      end
  end.

Definition sys_waitpid (nohang : bool) : M daemon wait_res :=
  let! turns := gets d_turns in waitpid_loop nohang turns.

(** The result is false while it is still waiting for a child. *)
Fixpoint reap_loop (fuel : nat) (must_reap : bool) : M daemon bool :=
  match fuel with
  | 0 => ub
  | S fuel =>
      let! r := sys_waitpid (negb must_reap) in
      match r with
      | RNone => ret true
      | RKid _ _ => do! modify (λ d, set_d_nkids (d_nkids d - 1) d); reap_loop fuel false
      | RNoChild => ret true
      | RWaiting => ret false
      | RIntr => reap_loop fuel must_reap
      | RError => exit_ EXIT_DISTCC_FAILED
      end
  end.

(** Each round ends the loop, takes a turn or collects a child. *)
Definition dcc_reap_kids (must_reap : bool) : M daemon bool := λ d,
  reap_loop (S (length (d_turns d) + size (d_kids d))) must_reap d.

(** ** prefork.c: the parent *)

Definition new_kid : M daemon unit :=
  modify (λ d, set_d_next (S (d_next d))
    (set_d_kids (<[d_next d := Kid (with_pid (Z.of_nat (d_next d)) (d_srv d)) 0 None]> (d_kids d)) d)).

Fixpoint create_loop (fuel : nat) : M daemon unit :=
  let! go := gets (λ d, (d_nkids d <? d_max_kids d)%Z) in
  if negb go then ret ()
  else
    match fuel with
    | 0 => ub
    | S fuel =>
        let! ok := on_srv (on_so sys_fork) in
        if negb ok then exit_ EXIT_OUT_OF_MEMORY
        else
          do! new_kid;
          do! modify (λ d, set_d_nkids (d_nkids d + 1) d);
          do! next_turn;                                   (* sleep *)
          create_loop fuel
    end.

Definition dcc_create_kids : M daemon unit := λ d,
  create_loop (Z.to_nat (d_max_kids d - d_nkids d)) d.

Definition dcc_manage_kids : M daemon unit :=
  do! dcc_reap_kids false;
  dcc_create_kids.

(** The first [n] rounds of the loop without statistics, or those before the
    wait that does not end in the turns there are. *)
Fixpoint prefork_rounds (n : nat) : M daemon unit :=
  match n with
  | 0 => ret ()
  | S n =>
      do! dcc_create_kids;
      let! back := dcc_reap_kids true in
      if back then do! next_turn; prefork_rounds n else ret ()
  end.

(** ** stats.c: the loop with statistics *)

(** What a round of [dcc_stats_server] sees: the time, a message from a child,
    a request for the statistics. *)
Record stats_ev := StatsEv { se_now : timeval; se_report : option statsdata; se_http : bool }.

(** Of the answer to a request, which Report.v follows, only that the totals are
    brought up to date. *)
Definition stats_round (e : stats_ev) : M daemon unit :=
  do! on_stats (dcc_stats_calc_kid_avg (se_now e));
  do! match se_report e with
      | Some sd => on_stats (dcc_stats_process (tv_sec (se_now e)) sd)
      | None => ret ()
      end;
  do! (if se_http e then (do! on_stats (dcc_stats_get_compile_totals (tv_sec (se_now e))); ret ()) else ret ());
  dcc_manage_kids.

Fixpoint stats_rounds (l : list stats_ev) : M daemon unit :=
  match l with [] => ret () | e :: l => do! stats_round e; stats_rounds l end.

(** Before the loop: the counters of the process that collects. *)
Definition clear_stats (x : stats) : stats :=
  set_x_longest (-1) (NUL :: tail (x_longest_name x)) (x_longest_compiler x)
    (set_x_counters (repeat 0%Z STATS_ENUM_MAX) x).

Definition dcc_stats_server (l : list stats_ev) : M daemon unit :=
  do! modify (λ d, set_d_stats (clear_stats (d_stats d)) d);
  let! d := gets id in
  do! on_srv (dcc_socket_listen (int_opt arg_stats_port d) (str_opt opt_listen_addr d));
  stats_rounds l.

(** The first rounds of an endless loop. *)
Definition dcc_preforking_parent (n : nat) (l : list stats_ev) : M daemon unit :=
  let! stats := gets (int_opt arg_stats) in
  if negb (stats =? 0)%Z then
    do! modify (set_d_stats dcc_stats_init);
    do! dcc_create_kids;
    dcc_stats_server l
  else prefork_rounds n.

(** ** dparent.c: a daemon that does not fork *)

Definition nofork_round (e : accept_ev) (kn : kernel) : M daemon unit :=
  do! modify (λ d, set_d_srv (reload kn (d_srv d)) d);
  match e with
  | AccIntr => ret ()
  | AccErr => exit_ EXIT_CONNECT_FAILED
  | AccConn peer data =>
      let! d := gets id in
      let! acc_fd := on_dw (add_fd (Fd data [] None)) in
      do! attempt (on_srv (dcc_service_job (int_opt dcc_job_lifetime d) (d_wd d) acc_fd acc_fd (Some peer)
                             (opt_allowed (d_opts d))));
      do! attempt (on_dw (dcc_close acc_fd)); ret ()
  end.

(** The first rounds of the loop. *)
Fixpoint dcc_nofork_parent (l : list (accept_ev * kernel)) : M daemon unit :=
  match l with
  | [] => ret ()
  | (e, kn) :: l => do! nofork_round e kn; dcc_nofork_parent l
  end.

(** ** What a child does *)

Definition all_listed (s : server) : Prop := ∀ argv, argv ∈ sv_ran s → listed s argv.

Lemma only_listed_refl s s' : sv_map s' = sv_map s → sv_ran s' = sv_ran s → only_listed s s'.
Proof. intros E1 E2. split; [by rewrite E1|by left]. Qed.

Lemma only_listed_from s0 s s' :
  sv_map s = sv_map s0 → sv_ran s = sv_ran s0 → only_listed s s' → only_listed s0 s'.
Proof. intros E1 E2 [H1 H2]. split; [by rewrite <- E1|by rewrite <- E2]. Qed.

Lemma only_listed_to s s' s1 :
  only_listed s s' → sv_map s1 = sv_map s' → sv_ran s1 = sv_ran s' → only_listed s s1.
Proof.
  intros [H1 H2] E1 E2. split; [by rewrite E1|]. rewrite E2. destruct H2 as [?|(argv & ? & H2)]; [by left|right].
  exists argv. split; [done|]. unfold listed. by rewrite E1.
Qed.

(** Commands that were listed stay listed. *)
Lemma only_listed_all s s' :
  only_listed s s' → all_listed s → all_listed s' ∧ length (sv_ran s') ≤ S (length (sv_ran s)).
Proof.
  intros [Hm Hr] Ha.
  assert (Hold : ∀ argv, argv ∈ sv_ran s → listed s' argv).
  { intros argv Hin. destruct (Ha argv Hin) as [[m E] Hl]. unfold listed. rewrite (Hm _ E). rewrite E in Hl. eauto. }
  unfold all_listed. destruct Hr as [->|(argv & -> & Hl)]; [split; [done|lia]|].
  split; [|simpl; lia]. intros a [->|?]%elem_of_cons; auto.
Qed.

Lemma child_request_wp o wd l s : wp (child_request o wd l) (λ _ s', only_listed s s') s.
Proof.
  unfold child_request. destruct (accept_loop l) as [[[peer data]|]|]; [|by apply wp_throw, only_listed_refl|by apply wp_ret, only_listed_refl].
  apply wp_bind, wp_steady; [steady|]. intros r s1 E1 E2 E3. destruct r as [fd|?|?|]; [|by apply only_listed_refl..].
  apply wp_bind, wp_modify, wp_bind, wp_attempt. eapply wp_mono; [apply service_job_wp|]. intros r s2 [H2 _].
  assert (H3 : only_listed s s2) by by eapply only_listed_from; [..|exact H2].
  destruct r; [..|done|done]; apply wp_bind, wp_attempt, wp_steady; [steady| |steady|]; intros r s3 F1 F2 F3;
    assert (only_listed s s3) by (by eapply only_listed_to); (destruct r; [by apply wp_ret|by apply wp_ret|done..]).
Qed.

Lemma run_atexit_same b f s : sv_map (run_atexit b f s).2 = sv_map s ∧ sv_ran (run_atexit b f s).2 = sv_ran s.
Proof. assert (steady (run_atexit b f)) as H by (unfold run_atexit; steady). by destruct (H s) as (? & ? & _). Qed.

Lemma terminate_same b f s :
  sv_map (dcc_daemon_terminate b f s).2 = sv_map s ∧ sv_ran (dcc_daemon_terminate b f s).2 = sv_ran s.
Proof.
  assert (steady (dcc_daemon_terminate b f)) as H by (unfold dcc_daemon_terminate; steady). by destruct (H s) as (? & ? & _).
Qed.

(** What is known of a child. *)
Record kid_ok (k : kid) : Prop := KidOk {
  kid_listed : all_listed (k_srv k);
  kid_ireq : k_ireq k ≤ child_lifetime;
  kid_ran : length (sv_ran (k_srv k)) ≤ child_lifetime;
  kid_alive : k_status k = None → length (sv_ran (k_srv k)) ≤ k_ireq k < child_lifetime
}.

Lemma all_listed_same s s' : sv_map s' = sv_map s → sv_ran s' = sv_ran s → all_listed s → all_listed s'.
Proof. intros E1 E2 H argv. unfold listed. rewrite E1, E2. apply H. Qed.

Lemma kid_ok_srv k s' n st :
  kid_ok k → sv_map s' = sv_map (k_srv k) → sv_ran s' = sv_ran (k_srv k) → n = k_ireq k →
  (st = None → k_status k = None) → kid_ok (Kid s' n st).
Proof.
  intros [H1 H2 H3 H4] E1 E2 -> Hst. split; simpl; [by eapply all_listed_same|done|by rewrite E2|].
  rewrite E2. auto.
Qed.

Lemma preforked_child_ok b o wd l k :
  kid_ok k → k_status k = None → kid_ok (dcc_preforked_child b o wd l k).
Proof.
  intros [H1 H2 H3 H4] Hst. specialize (H4 Hst). unfold dcc_preforked_child.
  pose proof (child_request_wp o wd l (k_srv k)) as Hw. unfold wp in Hw.
  assert (Hf : child_request o wd l (k_srv k) = (Ok false, (child_request o wd l (k_srv k)).2) →
    (child_request o wd l (k_srv k)).2 = k_srv k).
  { unfold child_request. destruct (accept_loop l) as [[[peer data]|]|] eqn:El; [|done..].
    unfold bind, attempt. repeat case_match; done. }
  destruct (child_request o wd l (k_srv k)) as [r s'] eqn:E. simpl in Hw, Hf.
  apply only_listed_all in Hw as [Hl Hn]; [|done].
  destruct r as [[]|c|c|].
  - case_decide.
    + split; simpl; [done|lia|lia|lia].
    + unfold kid_exits. destruct (run_atexit_same b (o_str o arg_pid_file) s') as [E1 E2].
      split; simpl; [by eapply all_listed_same|lia|rewrite E2; lia|done].
  - rewrite Hf by done. split; simpl; done.
  - split; simpl; [done|lia|lia|done].
  - unfold kid_exits. destruct (run_atexit_same b (o_str o arg_pid_file) s') as [E1 E2].
    split; simpl; [by eapply all_listed_same|lia|rewrite E2; lia|done].
  - split; simpl; [done|lia|lia|done].
Qed.

Lemma kid_signal_ok sigs sig k : kid_ok k → kid_ok (kid_signal sigs sig k).
Proof.
  intros Hk. unfold kid_signal. destruct (sigs !! sig) as [[]|]; [done|..].
  - destruct (terminate_same false None (k_srv k)). by eapply kid_ok_srv.
  - by eapply kid_ok_srv.
Qed.

(** ** The pool *)

(** [n] children have been collected that [dcc_nkids] still counts. *)
Record pool_off (n : Z) (d : daemon) : Prop := PoolOff {
  pool_idle : sv_ran (d_srv d) = [];
  pool_count : d_nkids d = (Z.of_nat (size (d_kids d)) + n)%Z;
  pool_max : (d_nkids d ≤ Z.max 0 (d_max_kids d))%Z;
  pool_kids pid k : d_kids d !! pid = Some k → kid_ok k ∧ pid < d_next d
}.
Notation pool_ok := (pool_off 0).

(** What the processes do leaves the options, the ids and the limit alone. *)
Definition frame (d d' : daemon) : Prop :=
  d_opts d' = d_opts d ∧ d_cred d' = d_cred d ∧ d_max_kids d' = d_max_kids d.

Lemma pool_frame_refl d : frame d d.
Proof. done. Qed.
Lemma pool_frame_trans d1 d2 d3 : frame d1 d2 → frame d2 d3 → frame d1 d3.
Proof. intros (? & ? & ?) (? & ? & ?). repeat split; congruence. Qed.
Hint Resolve pool_frame_refl : core.

(** The decisions about fork and the turns are used up from the front. *)
Definition forks_of (d : daemon) : list bool := os_fork (sv_os (d_srv d)).
Definition spent (d d' : daemon) : Prop := forks_of d' `suffix_of` forks_of d ∧ d_turns d' `suffix_of` d_turns d.

#[local] Instance spent_preorder : PreOrder spent.
Proof. split; [by intros d; split|]. intros d1 d2 d3 [] []. split; by etrans. Qed.

(** A step of the children. *)
Definition kids_ran (d d' : daemon) : Prop :=
  frame d d' ∧ (d_turns d' = d_turns d ∧ forks_of d' = forks_of d) ∧ (d_nkids d' = d_nkids d ∧ size (d_kids d') = size (d_kids d)) ∧ (∀ n, pool_off n d → pool_off n d').

Lemma kids_ran_refl d : kids_ran d d.
Proof. split; [done|split; [done|split; [done|auto]]]. Qed.
Lemma kids_ran_trans d1 d2 d3 : kids_ran d1 d2 → kids_ran d2 d3 → kids_ran d1 d3.
Proof.
  intros (F1 & [T1 K1] & [N1 S1] & P1) (F2 & [T2 K2] & [N2 S2] & P2). split; [by eapply pool_frame_trans|].
  split; [split; congruence|split; [split; congruence|auto]].
Qed.

Lemma in_kid_wp pid f d :
  (∀ k, kid_ok k → k_status k = None → kid_ok (f k)) → wp (in_kid pid f) (λ o d', o = Ok () ∧ kids_ran d d') d.
Proof.
  intros Hf. apply wp_modify. split; [done|].
  destruct (d_kids d !! pid) as [[s n [st|]]|] eqn:E; [apply kids_ran_refl| |apply kids_ran_refl].
  set (k := f _). split; [done|split; [done|split; [by split; [|simpl; rewrite map_size_insert_Some]|]]].
  intros m [H1 H2 H3 H4]. split; simpl; [done|by rewrite map_size_insert_Some|done|].
  intros pid' k'. destruct (H4 _ _ E) as [Hk Hp]. destruct (decide (pid' = pid)) as [->|Hne].
  - rewrite lookup_insert_eq. intros [= <-]. split; [|done]. apply Hf; [|done].
    by apply (kid_ok_srv _ (with_files (files_of (d_srv d)) s) n None Hk).
  - rewrite lookup_insert_ne by done. apply H4.
Qed.

Lemma act_wp a d : wp (act a) (λ o d', o = Ok () ∧ kids_ran d d') d.
Proof.
  unfold act. apply wp_bind, wp_gets. destruct a as [pid evs kn|pid sig]; apply in_kid_wp; intros k Hk Hs.
  - apply preforked_child_ok; [|done]. by eapply kid_ok_srv.
  - by apply kid_signal_ok.
Qed.

Lemma run_acts_wp l d : wp (run_acts l) (λ o d', o = Ok () ∧ kids_ran d d') d.
Proof.
  revert d. induction l as [|a l IH]; intros d; [apply wp_ret; split; [done|apply kids_ran_refl]|].
  apply wp_bind. eapply wp_mono; [apply act_wp|]. intros o d1 [-> H1].
  eapply wp_mono; [apply IH|]. intros o d2 [-> H2]. split; [done|]. by eapply kids_ran_trans.
Qed.

Lemma set_turns_ok n l d : pool_off n d → pool_off n (set_d_turns l d).
Proof. by intros [H1 H2 H3 H4]. Qed.

(** The outcome is a result; the state is as [Q] says. *)
Definition gives {A} (Q : A → daemon → Prop) (o : outcome A) (d : daemon) : Prop :=
  match o with Ok a => Q a d | _ => False end.

Lemma next_turn_wp n d :
  pool_off n d → wp next_turn (gives (λ _ d', pool_off n d' ∧ frame d d' ∧ d_nkids d' = d_nkids d ∧ spent d d')) d.
Proof.
  intros Hp. unfold next_turn. apply wp_bind, wp_gets. destruct (d_turns d) as [|t l] eqn:Et; [by apply wp_ret|].
  apply wp_bind, wp_modify, wp_bind. eapply wp_mono; [apply run_acts_wp|]. intros o d' (-> & F & [T K] & [N _] & P).
  apply wp_ret. split; [apply P; by apply set_turns_ok|]. split; [done|]. split; [done|].
  split; [by rewrite K|]. rewrite T, Et. by apply suffix_cons_r.
Qed.

(** Nobody waits to be collected. *)
Definition all_alive (d : daemon) : Prop := ∀ pid k, d_kids d !! pid = Some k → k_status k = None.

Lemma reap_one_wp d :
  pool_off 0 d →
  wp reap_one (gives (λ r d', frame d d' ∧ (d_turns d' = d_turns d ∧ d_srv d' = d_srv d) ∧
    match r with
    | Some (RKid _ _) => pool_off 1 d' ∧ size (d_kids d) = S (size (d_kids d'))
    | Some RNoChild => d' = d ∧ d_kids d = ∅
    | None => d' = d ∧ d_kids d ≠ ∅ ∧ all_alive d
    | Some _ => False
    end)) d.
Proof.
  intros [H1 H2 H3 H4]. unfold reap_one. apply wp_bind, wp_gets. destruct (map_to_list (d_kids d)) as [|p l] eqn:E.
  { apply wp_ret. apply map_to_list_empty_iff in E. done. }
  rewrite <- E. unfold dead. destruct (list_find _ (map_to_list (d_kids d))) as [[i [pid k]]|] eqn:Ef; simpl.
  - apply list_find_Some in Ef as (Hi & Hs & _). simpl in *. destruct (k_status k) as [st|] eqn:Est; [|done]. simpl.
    apply list_elem_of_lookup_2, elem_of_map_to_list in Hi.
    apply wp_bind, wp_modify, wp_ret. simpl.
    assert (Hsz : size (d_kids d) = S (size (delete pid (d_kids d)))).
    { rewrite map_size_delete_Some by eauto. 
      assert (size (d_kids d) ≠ 0) by (apply map_size_non_empty_iff; intros E0; by rewrite E0, lookup_empty in Hi). lia. }
    split; [done|split; [done|split; [|done]]].
    split; simpl; [done|lia|done|]. intros pid' k' [_ Hk]%lookup_delete_Some. by apply H4.
  - apply wp_ret. split; [done|split; [done|split; [done|split]]].
    + intros E0. by rewrite E0, map_to_list_empty in E.
    + intros pid k Hk. apply list_find_None in Ef. rewrite Forall_forall in Ef.
      specialize (Ef (pid, k) ltac:(by apply elem_of_map_to_list)). simpl in Ef. by destruct (k_status k); [destruct Ef|].
Qed.

(** A call of [waitpid] that is to fail. *)
Definition wait_fails (d : daemon) : Prop := ∃ t, t ∈ d_turns d ∧ t_how t = WErr.

(** What [waitpid] leaves: the pool with or without the child it collected, and
    less to come than there was. *)
Definition waited (nohang : bool) (d : daemon) (r : wait_res) (d' : daemon) : Prop :=
  frame d d' ∧ spent d d' ∧
  match r with
  | RKid _ _ => pool_off 1 d' ∧ size (d_kids d) = S (size (d_kids d'))
  | RIntr => pool_off 0 d' ∧ size (d_kids d') = size (d_kids d) ∧ length (d_turns d') < length (d_turns d)
  | RNoChild => pool_off 0 d' ∧ d_kids d' = ∅ ∧ size (d_kids d) = 0
  | RNone => pool_off 0 d' ∧ size (d_kids d') = size (d_kids d) ∧ nohang = true ∧ all_alive d'
  | RWaiting => pool_off 0 d' ∧ size (d_kids d') = size (d_kids d) ∧ nohang = false ∧ all_alive d' ∧
      d_kids d' ≠ ∅ ∧ d_turns d' = []
  | RError => pool_off 0 d' ∧ size (d_kids d') = size (d_kids d) ∧ wait_fails d
  end.

Lemma wait_fails_spent d d1 : spent d d1 → wait_fails d1 → wait_fails d.
Proof. intros [_ [l P]] (t & Hin & Ht). exists t. split; [|done]. rewrite P. set_solver. Qed.

Lemma waited_from nohang d d1 r d' :
  frame d d1 → spent d d1 → size (d_kids d1) = size (d_kids d) →
  waited nohang d1 r d' → waited nohang d r d'.
Proof.
  intros F P S (F' & P' & W). split; [by eapply pool_frame_trans|]. split; [by etrans|].
  pose proof (suffix_length _ _ (proj2 P)).
  destruct r; (repeat match goal with W : _ ∧ _ |- _ => destruct W end); split_and!;
    try done; try congruence; try lia.
  by eapply wait_fails_spent.
Qed.

Lemma waitpid_loop_wp nohang turns d :
  pool_off 0 d → d_turns d = turns → wp (waitpid_loop nohang turns) (gives (waited nohang d)) d.
Proof.
  assert (Hone : ∀ (rest : M daemon wait_res) d1, pool_off 0 d1 →
    (d_kids d1 ≠ ∅ → all_alive d1 → nohang = false → wp rest (gives (waited nohang d1)) d1) →
    wp (let! r := reap_one in match r with Some r => ret r | None => if nohang then ret RNone else rest end)
       (gives (waited nohang d1)) d1).
  { intros rest d1 Hp Hr. apply wp_bind. eapply wp_mono; [by apply reap_one_wp|].
    intros [[r|]|?|?|] d2 H; try done; destruct H as (F & [T K] & H).
    - assert (spent d1 d2) as Sp by (split; [unfold forks_of; by rewrite K|by rewrite T]).
      destruct r as [|pid st| | | |]; simpl in H; try done; apply wp_ret; (split; [done|split; [done|]]).
      destruct H as [-> E]. split; [done|]. by rewrite E.
    - destruct H as (-> & Hne & Ha). destruct nohang; [by apply wp_ret; split_and!|]. by apply Hr. }
  revert d. induction turns as [|[acts how] turns IH]; intros d Hp Ht; simpl.
  - apply wp_bind, wp_modify. eapply wp_mono; [apply Hone; [by apply set_turns_ok|]|].
    + intros Hne Ha ->. apply wp_ret. split_and!; try done. by apply set_turns_ok.
    + intros [r|?|?|] d2 H; try done. eapply waited_from; [..|exact H]; simpl; [done|split; [done|by rewrite Ht]|done].
  - apply wp_bind, wp_modify, wp_bind. eapply wp_mono; [apply run_acts_wp|]. intros o d1 (-> & F & [T K] & [_ Sz] & P).
    simpl in T, Sz. assert (Hp1 : pool_off 0 d1) by (apply P; by apply set_turns_ok).
    assert (Sp : spent d d1).
    { split; [by rewrite K|]. rewrite T, Ht. by apply suffix_cons_r. }
    assert (Hw : ∀ r d2, waited nohang d1 r d2 → waited nohang d r d2).
    { intros r d2. by apply waited_from. }
    destruct how; [|apply wp_ret; split_and!; try done; rewrite T, Ht; simpl; lia|].
    + eapply wp_mono; [apply Hone; [done|]|].
      * intros Hne Ha En. by apply IH.
      * intros [r|?|?|] d2 H; try done. by apply Hw.
    + apply wp_ret. split_and!; try done. exists (Turn acts WErr). rewrite Ht. split; [by left|done].
Qed.

Lemma collected_ok d : pool_off 1 d → pool_off 0 (set_d_nkids (d_nkids d - 1) d).
Proof. intros [H1 H2 H3 H4]. split; simpl; [done|lia|lia|done]. Qed.

(** The outcome of collecting children: all that were dead, and one at least if
    there must be one; or a wait while all live; or a failure of [waitpid]. *)
Definition reaped (must_reap : bool) (d : daemon) (o : outcome bool) (d' : daemon) : Prop :=
  match o with
  | Ok true => all_alive d' ∧ (must_reap = true → d_kids d' = ∅ ∨ size (d_kids d') < size (d_kids d))
  | Ok false => must_reap = true ∧ size (d_kids d') = size (d_kids d) ∧ d_kids d' ≠ ∅ ∧ all_alive d' ∧ d_turns d' = []
  | Exit c => c = EXIT_DISTCC_FAILED ∧ wait_fails d
  | Fail _ | Undef => False
  end.

Lemma all_alive_empty d : d_kids d = ∅ → all_alive d.
Proof. intros E pid k. by rewrite E, lookup_empty. Qed.

Lemma reap_loop_wp fuel must_reap d :
  pool_off 0 d → length (d_turns d) + size (d_kids d) < fuel →
  wp (reap_loop fuel must_reap)
     (λ o d', pool_off 0 d' ∧ frame d d' ∧ spent d d' ∧ reaped must_reap d o d' ∧ size (d_kids d') ≤ size (d_kids d)) d.
Proof.
  revert must_reap d. induction fuel as [|fuel IH]; intros must_reap d Hp Hf; [lia|].
  simpl. apply wp_bind. unfold sys_waitpid. apply wp_bind, wp_gets.
  eapply wp_mono; [by apply waitpid_loop_wp|]. intros [r|?|?|] d1 H; try done. destruct H as (F & Sp & H).
  pose proof (suffix_length _ _ (proj2 Sp)) as Hlen.
  destruct r as [|pid st| | | |].
  - destruct H as (Hp1 & Sz & En & Ha). apply wp_ret. split_and!; [done..| |simpl; lia].
    split; [done|]. intros ->. done.
  - destruct H as (Hp1 & Sz). apply wp_bind, wp_modify.
    eapply wp_mono; [apply IH; [by apply collected_ok|simpl; lia]|]. intros o d2 (Hp2 & F2 & Sp2 & Ho & Sz2). simpl in Sz2.
    assert (spent d d2) as Sp' by by (etrans; [exact Sp|]; exact Sp2).
    split_and!; [done|by eapply pool_frame_trans|done| |lia].
    destruct o as [[]|?|?|]; simpl in *; try done.
    + destruct Ho as [Ha _]. split; [done|]. intros _. right. lia.
    + by destruct Ho.
    + destruct Ho as [-> Hw]. split; [done|]. by apply (wait_fails_spent d d1).
  - destruct H as (Hp1 & E & Sz). apply wp_ret. split_and!; [done..| |simpl; rewrite E, map_size_empty; lia].
    split; [by apply all_alive_empty|]. by left.
  - destruct H as (Hp1 & Sz & T). eapply wp_mono; [apply IH; [done|lia]|].
    intros o d2 (Hp2 & F2 & Sp2 & Ho & Sz2).
    assert (spent d d2) as Sp' by by (etrans; [exact Sp|]; exact Sp2).
    split_and!; [done|by eapply pool_frame_trans|done| |lia].
    destruct o as [[]|?|?|]; simpl in *; try done.
    + destruct Ho as [Ha Ho]. split; [done|]. intros Hm. destruct (Ho Hm); [by left|right; lia].
    + destruct Ho as (Hm & Sz3 & Ho). split_and!; [done|lia|apply Ho..].
    + destruct Ho as [-> Hw]. split; [done|]. by apply (wait_fails_spent d d1).
  - destruct H as (Hp1 & Sz & Hw). apply wp_throw. split_and!; [done..| |simpl; lia]. by split.
  - destruct H as (Hp1 & Sz & En & Ha & Hne & Ht). apply wp_ret. split_and!; [done..| |simpl; lia].
    split_and!; try done. by destruct must_reap.
Qed.

Lemma reap_kids_wp must_reap d :
  pool_off 0 d →
  wp (dcc_reap_kids must_reap) (λ o d', pool_off 0 d' ∧ frame d d' ∧ spent d d' ∧ reaped must_reap d o d') d.
Proof.
  intros Hp. pose proof (reap_loop_wp _ must_reap d Hp (Nat.lt_succ_diag_r _)) as H.
  unfold wp, dcc_reap_kids in *. tauto.
Qed.

Lemma fork_wp Q d :
  (∀ b o, os_fork o `suffix_of` forks_of d → (b = false → false ∈ forks_of d) →
     Q (Ok b) (set_d_srv (set_sv_os o (d_srv d)) d)) → wp (on_srv (on_so sys_fork)) Q d.
Proof.
  intros HQ. unfold on_srv, on_so. apply wp_zoom, wp_zoom. unfold wp, sys_fork. unfold forks_of in HQ.
  destruct (os_fork (sv_os (d_srv d))) as [|b l] eqn:E; apply HQ; try done; simpl; [by rewrite E|by apply suffix_cons_r|].
  intros ->. by left.
Qed.

Lemma new_kid_ok d :
  pool_off 0 d → (d_nkids d < d_max_kids d)%Z →
  pool_off 0 (set_d_nkids (d_nkids d + 1) (set_d_next (S (d_next d))
    (set_d_kids (<[d_next d := Kid (with_pid (Z.of_nat (d_next d)) (d_srv d)) 0 None]> (d_kids d)) d))).
Proof.
  intros [H1 H2 H3 H4] Hlt.
  assert (En : d_kids d !! d_next d = None).
  { destruct (d_kids d !! d_next d) as [k|] eqn:E; [|done]. destruct (H4 _ _ E). lia. }
  split; simpl; [done|rewrite map_size_insert_None by done; lia|lia|].
  intros pid k. destruct (decide (pid = d_next d)) as [->|Hne].
  - rewrite lookup_insert_eq. intros [= <-]. split; [|lia]. split; simpl; rewrite ?H1; simpl; unfold child_lifetime; try lia.
    intros argv. simpl. rewrite H1. by intros ?%elem_of_nil.
  - rewrite lookup_insert_ne by done. intros Hk. destruct (H4 _ _ Hk). split; [done|lia].
Qed.

(** The outcome of filling the pool. *)
Definition created (d : daemon) (o : outcome unit) (d' : daemon) : Prop :=
  pool_off 0 d' ∧ frame d d' ∧ spent d d' ∧
  match o with
  | Ok _ => (d_max_kids d' ≤ d_nkids d')%Z
  | Exit c => c = EXIT_OUT_OF_MEMORY ∧ false ∈ forks_of d
  | Fail _ | Undef => False
  end.

Lemma create_loop_wp fuel d :
  pool_off 0 d → (d_max_kids d - d_nkids d ≤ Z.of_nat fuel)%Z → wp (create_loop fuel) (created d) d.
Proof.
  revert d. induction fuel as [|fuel IH]; intros d Hp Hf; simpl; apply wp_bind, wp_gets;
    (destruct (Z.ltb_spec (d_nkids d) (d_max_kids d)); [|by apply wp_ret; split_and!]); [lia|].
  simpl. apply wp_bind, fork_wp. intros b o Hs Hb. set (d1 := set_d_srv _ d).
  assert (Hp1 : pool_off 0 d1) by (destruct Hp as [H1 H2 H3 H4]; split; [exact H1|exact H2|exact H3|exact H4]).
  assert (Sp1 : spent d d1) by by split.
  destruct b; [|apply wp_throw; split_and!; auto; done]. simpl.
  apply wp_bind, wp_modify, wp_bind, wp_modify, wp_bind.
  eapply wp_mono; [apply (next_turn_wp 0 _ (new_kid_ok d1 Hp1 H))|].
  intros [w|?|?|] d2 H2; try done. destruct H2 as (Hp2 & F2 & N2 & Sp2). simpl in N2.
  assert (F : frame d d2) by exact F2. assert (Sp : spent d d2) by (etrans; [exact Sp1|]; exact Sp2).
  eapply wp_mono; [apply IH; [done|]|].
  - destruct F as (_ & _ & ->). lia.
  - intros o3 d3 (Hp3 & F3 & Sp3 & Ho). split_and!; [done|by eapply pool_frame_trans|by etrans|].
    destruct o3; try done. destruct Ho as [-> Hin]. split; [done|]. by eapply elem_of_suffix; [|apply Sp].
Qed.

Lemma create_kids_wp d : pool_off 0 d → wp dcc_create_kids (created d) d.
Proof. intros Hp. apply create_loop_wp; [done|lia]. Qed.

(** [m] takes a pool to a pool, however it ends. *)
Definition pooled {A} (m : M daemon A) : Prop :=
  ∀ d, pool_off 0 d → wp m (λ _ d', pool_off 0 d' ∧ frame d d') d.

Lemma pooled_bind {A B} (m : M daemon A) (k : A → M daemon B) : pooled m → (∀ a, pooled (k a)) → pooled (bind m k).
Proof.
  intros Hm Hk d Hp. apply wp_bind. eapply wp_mono; [by apply Hm|].
  intros [a|?|?|] d1 [Hp1 F1]; [|done..]. eapply wp_mono; [by apply Hk|].
  intros o d2 [Hp2 F2]. split; [done|by eapply pool_frame_trans].
Qed.
Lemma pooled_ret {A} (a : A) : pooled (ret a).
Proof. intros d Hp. by apply wp_ret. Qed.
Lemma pooled_gets {A} (f : daemon → A) : pooled (gets f).
Proof. intros d Hp. by apply wp_gets. Qed.
Lemma pooled_throw {A} (o : outcome A) : pooled (throw o).
Proof. intros d Hp. by apply wp_throw. Qed.
Lemma pooled_stats {A} (m : M stats A) : pooled (on_stats m).
Proof.
  intros d [H1 H2 H3 H4]. unfold on_stats. apply wp_zoom. eapply wp_mono; [apply wp_true|]. intros o x _.
  split; [|done]. split; [exact H1|exact H2|exact H3|exact H4].
Qed.
Lemma pooled_set_stats f : pooled (modify (λ d, set_d_stats (f d) d)).
Proof. intros d [H1 H2 H3 H4]. apply wp_modify. split; [|done]. split; [exact H1|exact H2|exact H3|exact H4]. Qed.
Lemma pooled_srv {A} (m : M server A) : steady m → pooled (on_srv m).
Proof.
  intros Hm d [H1 H2 H3 H4]. unfold on_srv. apply wp_zoom, wp_steady; [done|]. intros o s E1 E2 E3.
  split; [|done]. split; [by simpl; rewrite E2|exact H2|exact H3|exact H4].
Qed.
Lemma pooled_reap b : pooled (dcc_reap_kids b).
Proof. intros d Hp. eapply wp_mono; [by apply reap_kids_wp|]. by intros o d' (? & ? & _). Qed.
Lemma pooled_create : pooled dcc_create_kids.
Proof. intros d Hp. eapply wp_mono; [by apply create_kids_wp|]. by intros o d' (? & ? & _). Qed.
Lemma pooled_turn : pooled next_turn.
Proof. intros d Hp. eapply wp_mono; [by apply next_turn_wp|]. intros [] d' H; [|done..]. by destruct H as (? & ? & _). Qed.

Create HintDb pooled.
Hint Resolve pooled_bind pooled_ret pooled_gets pooled_throw pooled_stats pooled_set_stats pooled_srv pooled_reap
  pooled_create pooled_turn : pooled.
Ltac pooled := repeat first [progress intros | solve [auto with pooled nocore] | apply pooled_bind | progress case_match].

Lemma listen_steady port a : steady (dcc_socket_listen port a).
Proof.
  assert (Hl : ∀ res ais, steady (listen_loop res ais)).
  { intros res ais. induction ais; simpl; unfold dcc_listen_by_addr; steady. }
  unfold dcc_socket_listen, dcc_listen_by_addr. steady; try apply Hl.
Qed.
Hint Resolve listen_steady : pooled.

Lemma stats_rounds_pooled l : pooled (stats_rounds l).
Proof. induction l; simpl; [pooled|]. unfold stats_round, dcc_manage_kids. pooled. Qed.

Lemma prefork_rounds_pooled n : pooled (prefork_rounds n).
Proof. induction n; simpl; pooled. Qed.
Hint Resolve stats_rounds_pooled prefork_rounds_pooled : pooled.

Lemma preforking_parent_pooled n l : pooled (dcc_preforking_parent n l).
Proof. unfold dcc_preforking_parent, dcc_stats_server. pooled. Qed.

(** How the parent of a pool can end: it does not, or fork fails, or waitpid. *)
Definition parent_ends (d : daemon) (o : outcome unit) : Prop :=
  match o with
  | Ok _ => True
  | Exit c => c = EXIT_OUT_OF_MEMORY ∧ false ∈ forks_of d ∨ c = EXIT_DISTCC_FAILED ∧ wait_fails d
  | Fail _ | Undef => False
  end.

Lemma parent_ends_spent d d1 o : spent d d1 → parent_ends d1 o → parent_ends d o.
Proof.
  intros Sp. destruct o; simpl; [done..| |done]. intros [[-> H]|[-> H]]; [left|right]; (split; [done|]);
    [by eapply elem_of_suffix; [|apply Sp]|by eapply wait_fails_spent].
Qed.

Lemma prefork_rounds_ends n d :
  pool_off 0 d → wp (prefork_rounds n) (λ o d', pool_off 0 d' ∧ parent_ends d o) d.
Proof.
  revert d. induction n as [|n IH]; intros d Hp; [by apply wp_ret|]. simpl.
  apply wp_bind. eapply wp_mono; [by apply create_kids_wp|].
  intros [[]|c|c|] d1 (Hp1 & _ & Sp1 & Ho); try done; [|by split; [|left]].
  apply wp_bind. eapply wp_mono; [by apply reap_kids_wp|].
  intros [[]|c2|c2|] d2 (Hp2 & _ & Sp2 & Ho2); try done.
  - apply wp_bind. eapply wp_mono; [by apply next_turn_wp|]. intros [w|c3|c3|] d3 H3; try done.
    destruct H3 as (Hp3 & _ & _ & Sp3). eapply wp_mono; [by apply IH|]. intros o d4 [Hp4 H4]. split; [done|].
    eapply parent_ends_spent; [|exact H4]. etrans; [exact Sp1|]. by etrans.
  - split; [done|]. eapply parent_ends_spent; [exact Sp1|]. by right.
Qed.

(** ** The end of the daemon *)

(** A child that a signal has ended: its temporary files have been dealt with. *)
Definition ended_clean (k : kid) : Prop :=
  k_status k ≠ None ∧ c_cleanups (w_core (os_w (sv_os (k_srv k)))) = [].

Lemma terminate_empties b f s :
  wp (dcc_daemon_terminate b f)
     (λ o s', o = Ok () ∧ c_cleanups (w_core (os_w (sv_os s'))) = []) s.
Proof.
  unfold dcc_daemon_terminate. apply wp_bind. unfold on_sw at 1, on_so at 1, on_w at 1. apply wp_zoom, wp_zoom.
  eapply wp_mono; [apply cleanup_tempfiles_empties|]. intros o w [-> Hw]. destruct b; [|by apply wp_ret].
  unfold on_sw, on_so, on_w. apply wp_zoom, wp_zoom. unfold dcc_remove_pid. destruct f as [f|]; [|by apply wp_ret].
  apply wp_bind. eapply wp_mono; [apply unlink_list|]. intros o w1 [E [r ->]]. apply wp_ret. split; [done|]. simpl. by rewrite E.
Qed.

(** The children of [pids] that were alive are ended, the others are as they
    were. *)
Lemma kill_group_wp sig pids d :
  d_sigs d !! sig = Some SigTerminate →
  wp (kill_group sig pids) (λ o d', o = Ok () ∧
    ∀ pid, match d_kids d !! pid with
           | None => d_kids d' !! pid = None
           | Some k =>
               ∃ k', d_kids d' !! pid = Some k' ∧
                 (k_status k = None → pid ∈ pids → ended_clean k') ∧
                 (k_status k ≠ None → k_status k' ≠ None) ∧ (ended_clean k → ended_clean k')
           end) d.
Proof.
  revert d. induction pids as [|pid pids IH]; intros d Hs.
  { apply wp_ret. split; [done|]. intros pid. destruct (d_kids d !! pid) as [k|]; [|done].
    exists k. split; [done|]. split; [by intros _ ?%elem_of_nil|done]. }
  simpl. apply wp_bind, wp_gets, wp_bind, wp_modify.
  destruct (d_kids d !! pid) as [[s n [st|]]|] eqn:E.
  - eapply wp_mono; [by apply IH|]. intros o d' [-> H]. split; [done|]. intros q. specialize (H q).
    destruct (d_kids d !! q) as [k|] eqn:Eq; [|done]. destruct H as (k' & H1 & H2 & H3). exists k'. split; [done|].
    split; [|done]. intros Hk [->|?]%elem_of_cons; [|auto]. by simplify_map_eq.
  - set (k1 := kid_signal _ _ _).
    assert (Hk1 : ended_clean k1).
    { unfold k1, kid_signal. rewrite Hs. split; [done|]. simpl. by destruct (terminate_empties false None (with_files (files_of (d_srv d)) s)). }
    set (d1 := set_d_srv _ _).
    eapply wp_mono; [by apply IH|]. intros o d' [-> H]. split; [done|]. intros q. specialize (H q). unfold d1 in H. simpl in H.
    destruct (decide (q = pid)) as [->|Hne].
    + rewrite lookup_insert_eq in H. rewrite E. destruct H as (k' & H1 & H2 & H3 & H4). exists k'.
      split; [done|]. split; [auto|]. split; [|intros []]; done.
    + rewrite lookup_insert_ne in H by done. destruct (d_kids d !! q) as [k|] eqn:Eq; [|done].
      destruct H as (k' & H1 & H2 & H3). exists k'. split; [done|]. split; [|done].
      intros Hk [->|?]%elem_of_cons; [done|auto].
  - eapply wp_mono; [by apply IH|]. intros o d' [-> H]. split; [done|]. intros q. specialize (H q).
    destruct (d_kids d !! q) as [k|] eqn:Eq; [|done]. destruct H as (k' & H1 & H2 & H3). exists k'. split; [done|].
    split; [|done]. intros Hk [->|?]%elem_of_cons; [|auto]. by simplify_map_eq.
Qed.

(** The main process is not touched. *)
Lemma kill_group_main sig pids d :
  wp (kill_group sig pids)
     (λ _ d', c_cleanups (w_core (os_w (sv_os (d_srv d')))) = c_cleanups (w_core (os_w (sv_os (d_srv d))))) d.
Proof.
  revert d. induction pids as [|pid pids IH]; intros d; [by apply wp_ret|].
  simpl. apply wp_bind, wp_gets, wp_bind, wp_modify. eapply wp_mono; [apply IH|]. intros o d' ->. by repeat case_match.
Qed.

(** ** Theorems *)

(** C22. The pool of the daemon.  From a parent without children, in however many
    rounds, whatever the clients send, in whatever order the children run, die
    or are killed, and whatever fork and waitpid do: [dcc_nkids] is the number of
    children, which is never above the limit; a child serves at most 50 requests
    and starts at most 50 commands, and while it has a command list they are
    programs of the list.  The parent ends only with EXIT_OUT_OF_MEMORY when a
    fork fails, or with EXIT_DISTCC_FAILED when a waitpid fails (for another
    reason than an interruption or that there is no child); otherwise it is in
    its loop or waits for a child. *)
Theorem prefork_bounded (n : nat) (d : daemon) :
  d_kids d = ∅ → d_nkids d = 0%Z → sv_ran (d_srv d) = [] →
  wp (prefork_rounds n)
     (λ o d',
        d_nkids d' = Z.of_nat (size (d_kids d')) ∧ (d_nkids d' ≤ Z.max 0 (d_max_kids d'))%Z ∧
        (∀ pid k, d_kids d' !! pid = Some k →
           k_ireq k ≤ 50 ∧ length (sv_ran (k_srv k)) ≤ 50 ∧
           ∀ argv m, argv ∈ sv_ran (k_srv k) → sv_map (k_srv k) = Some (Some m) →
             ∃ v rest, argv = Str v :: rest ∧ v ∈ (map_entries m).*2) ∧
        match o with
        | Ok _ => True
        | Exit c => c = EXIT_OUT_OF_MEMORY ∧ false ∈ forks_of d ∨ c = EXIT_DISTCC_FAILED ∧ wait_fails d
        | Fail _ | Undef => False
        end) d.
Proof.
  intros E1 E2 E3. eapply wp_mono.
  - apply prefork_rounds_ends. split; [done|by rewrite E1, E2, map_size_empty|lia|]. intros pid k. by rewrite E1, lookup_empty.
  - intros o d' [[H1 H2 H3 H4] Ho]. split; [lia|split; [done|split; [|done]]].
    intros pid k Hk. destruct (H4 _ _ Hk) as [[K1 K2 K3 K4] _]. split; [done|split; [done|]].
    intros argv m Ha Hm. destruct (K1 argv Ha) as [_ Hl]. eauto.
Qed.


(** C24. A signal that ends the daemon ends it whole: when the parent of the pool
    is sent a signal it catches, every child that was alive is dead, and the
    children that were alive and the parent have dealt with their temporary
    files. *)
Theorem signal_ends_all (sig : Z) (d : daemon) :
  d_sigs d !! sig = Some SigTerminate → os_pid (sv_os (d_srv d)) = d_master d →
  wp (main_signal sig)
     (λ o d', o = Exit (128 + sig)%Z ∧ c_cleanups (w_core (os_w (sv_os (d_srv d')))) = [] ∧
        ∀ pid k', d_kids d' !! pid = Some k' →
          k_status k' ≠ None ∧
          (∀ k, d_kids d !! pid = Some k → k_status k = None → c_cleanups (w_core (os_w (sv_os (k_srv k')))) = [])) d.
Proof.
  intros Hs Hm. unfold main_signal. apply wp_bind, wp_gets. simpl. rewrite Hs, (proj2 (Z.eqb_eq _ _) Hm).
  apply wp_bind. unfold on_srv. apply wp_zoom. eapply wp_mono; [apply terminate_empties|]. intros o s [-> Hc].
  apply wp_bind. pose proof (kill_group_main sig (map_to_list (d_kids d)).*1 (set_d_srv s d)) as Em. unfold wp in *.
  destruct (kill_group_wp sig (map_to_list (d_kids d)).*1 (set_d_srv s d) Hs) as [Ho H].
  destruct (kill_group _ _ (set_d_srv s d)) as [o d']. simpl in *. subst o. split; [done|]. split; [by rewrite Em|].
  intros pid k' Hk'. specialize (H pid). simpl in H. destruct (d_kids d !! pid) as [k|] eqn:E; [|congruence].
  destruct H as (k2 & E2 & H1 & H2 & H3). assert (k2 = k') as -> by congruence.
  assert (Hin : pid ∈ (map_to_list (d_kids d)).*1).
  { apply list_elem_of_fmap. exists (pid, k). split; [done|]. by apply elem_of_map_to_list. }
  destruct (k_status k) eqn:Est; [split; [by apply H2|]|destruct (H1 eq_refl Hin) as [? ?]; split; [done|]];
    intros k0 [= <-] ?; [congruence|done].
Qed.
End Pool.

#[export] Hint Resolve pooled_bind pooled_ret pooled_gets pooled_throw pooled_stats pooled_set_stats pooled_srv
  pooled_reap pooled_create pooled_turn listen_steady preforking_parent_pooled : pooled.

(** Find out that a computation takes a pool to a pool. *)
Ltac pool_tac :=
  repeat first [progress intros | solve [auto with pooled nocore] | apply pooled_bind | progress case_match].

(** ** Witnesses *)

Definition ex_kernel : kernel := Kernel [] [] [] [] [] [] [].

Definition ex_server (files : gmap cstr node) : server :=
  Server (Os (World (Core ∅ files [] 0 DCC_PHASE_STARTUP) [] [] [] [] 0 ∅) 100 [] [] [] ∅ [] 0 [] [] [] [])
    (JobState [] []) "/tmp"%cs false None None [] [].

(** Two children; a client sends garbage to the first one, then the wait of the
    parent is interrupted, then the first child is killed. *)
Definition ex_turns : list turn :=
  [Turn [Accept 0 [AccIntr; AccConn (Sa_in [10; 1; 2; 3]%Z 4000) "GET /"%cs] ex_kernel] WGo;
   Turn [] WIntr; Turn [Signal 0 15] WGo].

Definition ex_daemon (o : dopts) (registered : bool) (turns : list turn) : daemon :=
  Daemon (ex_server {["/tmp"%cs := NDir; "/pid"%cs := NFile "100"%cs]}) o (Creds 0 0 0 0 0 0 [0%Z] []) dcc_stats_init
    {[15%Z := SigTerminate]} registered 100 "/tmp"%cs 0 2 ∅ 0 turns.

Section witnesses.
#[local] Instance w_config : Config := usual_config.
#[local] Instance w_programs : Programs := {| exec_prog := λ _ _ _ _, None |}.
#[local] Instance w_mkdtemp : Mkdtemp := {| mkdtemp_name := λ p _, p |}.
#[local] Instance w_resolver : Resolver := ex_resolver.
#[local] Instance w_listening : Listening := {| listen_addrs := λ _ _, None; supported := λ _, true |}.

Lemma prefork_bounded_witness :
  let d := ex_daemon (default_opts []) false ex_turns in
  d_nkids (prefork_rounds 1 d).2 = Z.of_nat (size (d_kids (prefork_rounds 1 d).2)) ∧
  d_nkids (prefork_rounds 1 d).2 = 1%Z.
Proof.
  intros d. destruct (prefork_bounded 1 d eq_refl eq_refl eq_refl) as [H _]. split; [exact H|]. vm_compute. reflexivity.
Defined.


(** Two children. *)
Lemma signal_ends_all_witness :
  let d := (dcc_create_kids (ex_daemon (default_opts []) false [])).2 in
  (main_signal 15 d).1 = Exit 143%Z ∧ size (d_kids (main_signal 15 d).2) = 2 ∧
  ∀ pid k', d_kids (main_signal 15 d).2 !! pid = Some k' → k_status k' ≠ None.
Proof.
  intros d. destruct (signal_ends_all 15 d eq_refl eq_refl) as (H & _ & Hk).
  split; [exact H|split; [vm_compute; reflexivity|]]. intros pid k' E. exact (proj1 (Hk pid k' E)).
Defined.

(** With --no-detach the removal of the pid file is registered before the
    children are made: the first child to exit removes it under the parent. *)
Lemma kid_removes_pid_file :
  let o := set_str arg_pid_file "/pid"%cs (default_opts []) in
  let d := ex_daemon o true [Turn [Accept 0 [AccErr] ex_kernel] WGo] in
  files_of (d_srv d) !! "/pid"%cs = Some (NFile "100"%cs) ∧
  (dcc_create_kids d).1 = Ok () ∧ files_of (d_srv (dcc_create_kids d).2) !! "/pid"%cs = None.
Proof. vm_compute. auto. Qed.
End witnesses.
