(* ===== verification/Daemon.v ===== *)
(** * daemon.c, dparent.c: the daemon

    The main program of distccd, from its options to the pool of children, to
    the loop without children or to the one client on its standard input. *)

From S2P Require Import Prelude CLib Util Argv Text World Io Rpc Tempfile Paths Bulk Results Hosts Access Lock Exec Net.
From S2P Require Import Serve Stats Dopt Setup Pool.

Definition on_opts {A} : M dopts A → M daemon A := zoom d_opts set_d_opts.
Definition on_cred {A} : M creds A → M daemon A := zoom d_cred set_d_cred.

(** What the machine is like: is standard input a socket, whose, and the number
    of processors. *)
Record machine := Machine {
  stdin_is_socket : bool;
  stdin_peer : option sockaddr;
  nprocessors : Z
}.

(** What happens while it serves: the rounds of the parent, with or without
    statistics, and the clients of a daemon that does not fork. *)
Record service := Service {
  sc_rounds : nat;
  sc_stats : list stats_ev;
  sc_clients : list (accept_ev * kernel)
}.

Section Daemon.
Context {Cfg : Config} {LZO : Lzo} {Progs : Programs} {MK : Mkdtemp} {RES : Resolver} {LI : Listening}.
Context {P : Popt} {U : Users} (junk : dcc_address) (mach : machine) (sc : service).

(** ** dparent.c *)

(** A buffered write that [fclose] carries out. *)
Definition write_text (fd : nat) (text : cstr) : M world (unit + errno) :=
  fs_call (let! d := gets (λ w, c_fds (w_core w) !! fd) in
           match d with
           | Some d => do! modify_core (put fd d text); ret (inl ())
           | None => ret (inr EOTHER)
           end).

Definition dcc_save_pid (pid : Z) : M daemon unit :=
  let! pid_file := gets (str_opt arg_pid_file) in
  match pid_file with
  | None => ret ()
  | Some f =>
      let! fp := on_dw (sys_open_trunc f) in
      match fp with
      | inr _ => ret ()
      | inl fd =>
          let! r := on_dw (write_text fd (print_d pid ++ NL)) in
          let! r' := on_dw (sys_close fd) in
          match r, r' with
          | inl _, inl _ => modify (set_d_atexit true)
          | _, _ => ret ()
          end
      end
  end.

(** /dev/null takes the place of a standard descriptor. *)
Definition null_fd (i : nat) : M world unit :=
  let! _ := sys_close i in
  let! _ := fs_call (let! fd := add_fd (Fd [] [] None) in ret (inl fd)) in
  ret ().

(** The parent saves the pid of the child and is gone, without [exit]: of what it
    does only the file is left.  The child goes on. *)
Definition dcc_detach : M daemon unit :=
  do! dcc_ignore_sighup;
  let! ok := on_srv (on_so sys_fork) in
  if negb ok then exit_ EXIT_DISTCC_FAILED
  else
    do! modify (λ d, let pid := (os_pid (sv_os (d_srv d)) + 1)%Z in
                     let files := files_of (d_srv (dcc_save_pid pid d).2) in
                     set_d_srv (with_pid pid (with_files files (d_srv d))) d);
    do! on_dw (null_fd 0);
    do! on_dw (null_fd 1);
    on_dw (null_fd 2).

(** exec.c; [setpgid] of a process that is not a group leader. *)
Definition dcc_new_pgrp : M world unit :=
  let! r := fs_call (ret (inl ())) in
  match r with inl _ => ret () | inr _ => fail EXIT_DISTCC_FAILED end.

Definition dcc_standalone_server : M daemon unit :=
  let! d := gets id in
  do! on_srv (dcc_socket_listen (int_opt arg_port d) (str_opt opt_listen_addr d));
  let n_cpus := (dcc_ncpus (nprocessors mach)).2 in
  do! modify (set_d_max_kids (if (int_opt arg_max_jobs d =? 0)%Z then 2 + n_cpus else int_opt arg_max_jobs d)%Z);
  do! (if (int_opt opt_no_detach d =? 0)%Z then dcc_detach
       else
         do! on_dw dcc_new_pgrp;
         let! pid := gets (λ d, os_pid (sv_os (d_srv d))) in
         dcc_save_pid pid);
  do! dcc_daemon_catch_signals;
  do! modify (λ d, set_d_master (os_pid (sv_os (d_srv d))) d);
  if (int_opt opt_no_fork d =? 0)%Z then dcc_preforking_parent (sc_rounds sc) (sc_stats sc)
  else dcc_nofork_parent (sc_clients sc).

(** ** daemon.c *)

Definition dcc_should_be_inetd (d : daemon) : bool :=
  if negb (int_opt opt_inetd_mode d =? 0)%Z then true
  else if negb (int_opt opt_daemon_mode d =? 0)%Z then false
  else stdin_is_socket mach.

Definition dcc_setup_daemon_path : M world unit :=
  let! path := getenv "DISTCCD_PATH"%cs in
  match path with
  | Some path => dcc_set_path path
  | None => ret ()
  end.

(** The file is opened; which logger is used is not part of the model. *)
Definition dcc_setup_real_log : M daemon unit :=
  let! d := gets id in
  if negb (int_opt opt_log_stderr d =? 0)%Z then ret ()
  else
    match str_opt arg_log_file d with
    | Some f => let! _ := on_dw (sys_open_append f) in ret ()
    | None => ret ()
    end.

Definition dcc_inetd_server : M daemon unit :=
  let! d := gets id in
  let! r := attempt (on_srv (dcc_service_job (int_opt dcc_job_lifetime d) (d_wd d) STDIN_FILENO STDOUT_FILENO
                               (stdin_peer mach) (opt_allowed (d_opts d)))) in
  let! close_ret := attempt (on_dw (dcc_close STDIN_FILENO)) in
  let r := match r with inl r => r | inr e => e end in
  if negb (r =? 0)%Z then fail r
  else match close_ret with inl _ => ret () | inr e => fail e end.

(** Up to the point where it serves. *)
Definition daemon_setup (args : list given) : M daemon unit :=
  do! on_opts (modify (set_int rs_trace_level 6));
  do! on_opts (distccd_parse_options junk args);
  let! d := gets id in
  if negb (dcc_should_be_inetd d) && bool_decide (opt_allowed (d_opts d) = []) then exit_ EXIT_BAD_ARGUMENTS
  else
    do! match str_opt opt_user d with Some user => on_cred (dcc_discard_root user) | None => ub end;
    do! dcc_setup_real_log;
    let! wd := on_dw dcc_get_tmp_top in
    do! modify (set_d_wd wd);
    let! r := on_srv (sys_chdir wd) in
    match r with
    | inr _ => fail EXIT_IO_ERROR
    | inl _ =>
        do! on_dw dcc_setup_daemon_path;
        do! on_dw dcc_get_io_timeout;
        ret ()
    end.

(** Every return value is the exit status. *)
Definition dcc_exit (code : Z) : M daemon unit :=
  do! (let! d := gets id in on_srv (run_atexit (d_atexit d) (str_opt arg_pid_file d)));
  exit_ code.

(** The main program: an [Ok] is a daemon that is still serving after the rounds
    of [sc].  [exit] inside the options and the pool runs the same handler. *)
Definition daemon_body (args : list given) : M daemon unit :=
  do! daemon_setup args;
  let! d := gets id in
  if dcc_should_be_inetd d then (do! dcc_inetd_server; fail 0) else dcc_standalone_server.

Definition daemon_main (args : list given) : M daemon unit := λ d,
  match daemon_body args d with
  | (Ok _, d') => (Ok (), d')
  | (Fail e, d') | (Exit e, d') => dcc_exit e d'
  | (Undef, d') => (Undef, d')
  end.

(** ** Who serves *)

(** Nothing is served. *)
Definition calm (d d' : daemon) : Prop :=
  d_kids d' = d_kids d ∧ d_nkids d' = d_nkids d ∧ d_next d' = d_next d ∧ sv_ran (d_srv d') = sv_ran (d_srv d).

Lemma calm_refl d : calm d d.
Proof. done. Qed.
Lemma calm_trans d1 d2 d3 : calm d1 d2 → calm d2 d3 → calm d1 d3.
Proof. intros (? & ? & ? & ?) (? & ? & ? & ?). repeat split; congruence. Qed.

(** [m] serves nothing and leaves the options and the ids. *)
Definition calmly {A} (m : M daemon A) : Prop :=
  ∀ d, wp m (λ _ d', calm d d' ∧ d_opts d' = d_opts d ∧ d_cred d' = d_cred d) d.

Lemma calmly_bind {A B} (m : M daemon A) (k : A → M daemon B) : calmly m → (∀ a, calmly (k a)) → calmly (bind m k).
Proof.
  intros Hm Hk d. apply wp_bind. eapply wp_mono; [apply Hm|]. intros [a|?|?|] d1 (C1 & E1 & F1); [|done..].
  eapply wp_mono; [apply Hk|]. intros o d2 (C2 & E2 & F2). split; [by eapply calm_trans|split; congruence].
Qed.
Lemma calmly_ret {A} (a : A) : calmly (ret a).
Proof. intros d. by apply wp_ret. Qed.
Lemma calmly_throw {A} (o : outcome A) : calmly (throw o).
Proof. intros d. by apply wp_throw. Qed.
Lemma calmly_gets {A} (f : daemon → A) : calmly (gets f).
Proof. intros d. by apply wp_gets. Qed.
Lemma calmly_srv {A} (m : M server A) : steady m → calmly (on_srv m).
Proof. intros Hm d. unfold on_srv. apply wp_zoom, wp_steady; [done|]. intros o s E1 E2 E3. done. Qed.
Lemma calmly_modify (f : daemon → daemon) :
  (∀ d, calm d (f d) ∧ d_opts (f d) = d_opts d ∧ d_cred (f d) = d_cred d) → calmly (modify f).
Proof. intros Hf d. apply wp_modify, Hf. Qed.

Create HintDb calmly.
Hint Resolve calmly_bind calmly_ret calmly_throw calmly_gets calmly_srv : calmly.
Ltac calmly := repeat first
  [ progress intros | solve [auto with calmly nocore] | apply calmly_bind
  | apply calmly_srv; steady | by apply calmly_modify | progress case_match ].

Lemma save_pid_calmly pid : calmly (dcc_save_pid pid).
Proof. unfold dcc_save_pid, on_dw. calmly. Qed.

Lemma detach_calmly : calmly dcc_detach.
Proof. unfold dcc_detach, dcc_ignore_sighup, on_dw. calmly. Qed.
Hint Resolve save_pid_calmly detach_calmly listen_steady chdir_steady : calmly.

(** A process without privileges that knows whom to serve. *)
Definition guarded (d : daemon) : Prop :=
  ruid (d_cred d) ≠ 0%Z ∧ euid (d_cred d) ≠ 0%Z ∧ (dcc_should_be_inetd d = true ∨ opt_allowed (d_opts d) ≠ []).

Lemma guarded_same d d' : d_opts d' = d_opts d → d_cred d' = d_cred d → guarded d → guarded d'.
Proof. intros E1 E2. unfold guarded, dcc_should_be_inetd, int_opt. by rewrite E1, E2. Qed.

Lemma setup_tail_calmly : calmly (A := unit) (
  do! dcc_setup_real_log;
  let! wd := on_dw dcc_get_tmp_top in
  do! modify (set_d_wd wd);
  let! r := on_srv (sys_chdir wd) in
  match r with
  | inr _ => fail EXIT_IO_ERROR
  | inl _ => do! on_dw dcc_setup_daemon_path; do! on_dw dcc_get_io_timeout; ret ()
  end).
Proof. unfold dcc_setup_real_log, on_dw. calmly. Qed.

Lemma discard_root_nonroot user c :
  wp (dcc_discard_root user)
     (λ o c', match o with Ok _ => ruid c' ≠ 0%Z ∧ euid c' ≠ 0%Z | _ => True end) c.
Proof.
  eapply wp_mono; [apply discard_root_wp|]. intros [[]|?|?|] c' H; try done.
  destruct H as [(? & ? & ->)|[_ H]]; [done|]. unfold dropped in H.
  destruct (dcc_preferred_user user) as [u g]. destruct H as (? & -> & -> & _). done.
Qed.

Lemma daemon_setup_wp args d :
  wp (daemon_setup args) (λ o d', calm d d' ∧ match o with Ok _ => guarded d' | _ => True end) d.
Proof.
  unfold daemon_setup. apply wp_bind. unfold on_opts. apply wp_zoom, wp_modify, wp_bind, wp_zoom.
  eapply wp_mono; [apply wp_true|]. intros o opts _. destruct o; try done.
  apply wp_bind, wp_gets. simpl. case_match eqn:Eg; [by apply wp_throw|].
  assert (Hg : dcc_should_be_inetd (set_d_opts opts d) = true ∨ opt_allowed opts ≠ []).
  { destruct (dcc_should_be_inetd _); [by left|right]. simpl in Eg. by apply bool_decide_eq_false in Eg. }
  destruct (str_opt opt_user _) as [user|]; [|done].
  apply wp_bind. unfold on_cred. apply wp_zoom. eapply wp_mono; [apply discard_root_nonroot|].
  intros o c Ho. destruct o; try done. destruct Ho as [Hr He].
  eapply wp_mono; [apply setup_tail_calmly|]. intros o d' (C & E1 & E2). split; [done|]. destruct o; [|done..].
  eapply guarded_same; [exact E1|exact E2|]. done.
Qed.

(** Before there are children. *)
Definition fresh_start (d : daemon) : Prop := d_kids d = ∅ ∧ d_nkids d = 0%Z ∧ sv_ran (d_srv d) = [].

Definition counted (d : daemon) : Prop :=
  d_nkids d = Z.of_nat (size (d_kids d)) ∧ (d_nkids d ≤ Z.max 0 (d_max_kids d))%Z.

(** From [d0] the options and the ids are as they were. *)
Definition ran_from {A} (d0 : daemon) (_ : outcome A) (d' : daemon) : Prop :=
  counted d' ∧ d_opts d' = d_opts d0 ∧ d_cred d' = d_cred d0.

Lemma fresh_start_counted d : fresh_start d → counted d.
Proof. intros (E1 & E2 & _). unfold counted. rewrite E1, E2, map_size_empty. lia. Qed.

Lemma fresh_start_pool d : fresh_start d → pool_off 0 d.
Proof.
  intros (E1 & E2 & E3). split; [done|by rewrite E1, E2, map_size_empty|lia|]. intros pid k. by rewrite E1, lookup_empty.
Qed.

Lemma fresh_start_calm d d' : calm d d' → fresh_start d → fresh_start d'.
Proof. intros (E1 & E2 & _ & E4) (F1 & F2 & F3). split; [congruence|split; congruence]. Qed.

Lemma calm_then {A B} (m : M daemon A) (k : A → M daemon B) d0 d :
  calmly m → fresh_start d → d_opts d = d_opts d0 → d_cred d = d_cred d0 →
  (∀ a d1, fresh_start d1 → d_opts d1 = d_opts d0 → d_cred d1 = d_cred d0 → wp (k a) (ran_from d0) d1) →
  wp (bind m k) (ran_from d0) d.
Proof.
  intros Hm Hd Ho Hc Hk. apply wp_bind. eapply wp_mono; [apply Hm|]. intros o d1 (C & E1 & E2).
  assert (Hf : fresh_start d1) by by eapply fresh_start_calm.
  destruct o; [apply Hk; congruence || done|..]; (split; [by apply fresh_start_counted|split; congruence]).
Qed.

(** Only the main process does something. *)
Definition same_pool (d d' : daemon) : Prop :=
  d_kids d' = d_kids d ∧ d_nkids d' = d_nkids d ∧ d_next d' = d_next d ∧ frame d d'.
Definition alone {A} (m : M daemon A) : Prop := ∀ d, wp m (λ _ d', same_pool d d') d.

Lemma alone_bind {A B} (m : M daemon A) (k : A → M daemon B) : alone m → (∀ a, alone (k a)) → alone (bind m k).
Proof.
  intros Hm Hk d. apply wp_bind. eapply wp_mono; [apply Hm|]. intros [a|?|?|] d1 (E1 & E2 & E3 & F1); [|done..].
  eapply wp_mono; [apply Hk|]. intros o d2 (G1 & G2 & G3 & F2).
  split; [congruence|split; [congruence|split; [congruence|by eapply pool_frame_trans]]].
Qed.
Lemma alone_attempt {A} (m : M daemon A) : alone m → alone (attempt m).
Proof. intros Hm d. apply wp_attempt. eapply wp_mono; [apply Hm|]. by intros []. Qed.
Lemma alone_ret {A} (a : A) : alone (ret a).
Proof. intros d. by apply wp_ret. Qed.
Lemma alone_throw {A} (o : outcome A) : alone (throw o).
Proof. intros d. by apply wp_throw. Qed.
Lemma alone_gets {A} (f : daemon → A) : alone (gets f).
Proof. intros d. by apply wp_gets. Qed.
Lemma alone_srv {A} (m : M server A) : alone (on_srv m).
Proof. intros d. unfold on_srv. apply wp_zoom. eapply wp_mono; [apply wp_true|]. done. Qed.
Lemma alone_reload kn : alone (modify (λ d, set_d_srv (reload kn (d_srv d)) d)).
Proof. intros d. by apply wp_modify. Qed.
Hint Resolve alone_bind alone_attempt alone_ret alone_throw alone_gets alone_srv alone_reload : calmly.
Ltac alone := repeat first
  [ progress intros | solve [auto with calmly nocore] | apply alone_bind | apply alone_attempt | apply alone_srv
  | apply alone_throw | progress case_match ].

Lemma nofork_alone l : alone (dcc_nofork_parent l).
Proof. induction l as [|[e kn] l IH]; simpl; unfold nofork_round, on_dw; alone. Qed.

Lemma inetd_alone : alone dcc_inetd_server.
Proof. unfold dcc_inetd_server, on_dw. alone. Qed.

Lemma exit_alone code : alone (dcc_exit code).
Proof. unfold dcc_exit. alone. Qed.
Lemma exit_nofail code : nofail (dcc_exit code).
Proof. unfold dcc_exit, run_atexit, on_srv, on_sw, on_so, on_w, dcc_remove_pid. nofail; apply nofail_unlink. Qed.
Lemma exit_calmly code : calmly (dcc_exit code).
Proof. unfold dcc_exit, run_atexit. calmly. Qed.

Lemma alone_ran {A} (m : M daemon A) d0 d :
  alone m → counted d → d_opts d = d_opts d0 → d_cred d = d_cred d0 → wp m (ran_from d0) d.
Proof.
  intros Hm [H1 H2] Ho Hc. eapply wp_mono; [apply Hm|]. intros o d' (E1 & E2 & _ & E4 & E5 & E6).
  split; [|split; congruence]. unfold counted. by rewrite E1, E2, E6.
Qed.

Lemma pooled_ran {A} (m : M daemon A) d0 d :
  pooled m → fresh_start d → d_opts d = d_opts d0 → d_cred d = d_cred d0 → wp m (ran_from d0) d.
Proof.
  intros Hm Hd Ho Hc. eapply wp_mono; [by apply Hm, fresh_start_pool|]. intros o d' [[H1 H2 H3 H4] (F1 & F2 & F3)].
  split; [split; [lia|done]|split; congruence].
Qed.

Lemma standalone_wp d : fresh_start d → wp dcc_standalone_server (ran_from d) d.
Proof.
  intros Hd. unfold dcc_standalone_server, dcc_daemon_catch_signals, on_dw. apply wp_bind, wp_gets. simpl.
  do 5 (apply (calm_then _ _ d); [calmly|done..|]; intros ? ? ? ? ?).
  case_match; [by apply pooled_ran; [auto with pooled|..]|].
  by apply alone_ran; [apply nofork_alone|apply fresh_start_counted|..].
Qed.

(** Nothing has been served from [d] on, or [d'] may serve. *)
Definition main_post (d d' : daemon) : Prop :=
  ((d_next d' = d_next d ∧ d_nkids d' = d_nkids d ∧ d_kids d' = d_kids d ∧ sv_ran (d_srv d') = sv_ran (d_srv d)) ∨
   guarded d') ∧ counted d'.

Lemma body_wp args d : fresh_start d → wp (daemon_body args) (λ _ d', main_post d d') d.
Proof.
  intros Hd. unfold daemon_body. apply wp_bind. eapply wp_mono; [apply daemon_setup_wp|]. intros o d1 [C Ho].
  assert (Hf : fresh_start d1) by by eapply fresh_start_calm.
  assert (Hn : main_post d d1).
  { split; [|by apply fresh_start_counted]. left. destruct C as (? & ? & ? & ?). auto. }
  destruct o; [|done..]. apply wp_bind, wp_gets. simpl.
  assert (Hg : ∀ d2, counted d2 → d_opts d2 = d_opts d1 → d_cred d2 = d_cred d1 → main_post d d2).
  { intros d2 Hc2 F1 F2. split; [|done]. right. by eapply guarded_same. }
  case_match.
  - apply wp_bind. eapply wp_mono; [apply (alone_ran _ d1); [apply inetd_alone|by apply fresh_start_counted|done|done]|].
    intros o2 d2 (Hc2 & F1 & F2). destruct o2; [apply wp_throw|..]; by apply Hg.
  - eapply wp_mono; [by apply standalone_wp|]. intros o2 d2 (Hc2 & F1 & F2). by apply Hg.
Qed.

Lemma main_post_exit code d d1 : main_post d d1 → main_post d (dcc_exit code d1).2.
Proof.
  intros [Hs [Hc1 Hc2]]. destruct (exit_calmly code d1) as ((C1 & C2 & C3 & C4) & Eo & Ec).
  destruct (exit_alone code d1) as (_ & _ & _ & _ & _ & Em). split.
  - destruct Hs as [(H1 & H2 & H3 & H4)|Hg]; [left; rewrite C1, C2, C3, C4; auto|right; by eapply guarded_same].
  - unfold counted. by rewrite C1, C2, Em.
Qed.

(** C9. Who serves.  The main program of the daemon, whatever its command line,
    its environment, the kernel and the clients, starts a child or a compiler
    only without the privileges of root, and, unless it serves the one client of
    its standard input, only with an access list; the number of its children is
    what it counts and is within the limit; and it is either serving or has
    ended with an exit status, unless it has run into undefined behaviour. *)
Theorem daemon_guarded (args : list given) (d : daemon) :
  d_kids d = ∅ → d_nkids d = 0%Z → sv_ran (d_srv d) = [] →
  wp (daemon_main args)
     (λ o d',
        ((d_next d' = d_next d ∧ d_kids d' = ∅ ∧ sv_ran (d_srv d') = []) ∨
         (ruid (d_cred d') ≠ 0%Z ∧ euid (d_cred d') ≠ 0%Z ∧
          (dcc_should_be_inetd d' = true ∨ opt_allowed (d_opts d') ≠ []))) ∧
        d_nkids d' = Z.of_nat (size (d_kids d')) ∧ (d_nkids d' ≤ Z.max 0 (d_max_kids d'))%Z ∧
        match o with Fail _ => False | _ => True end) d.
Proof.
  intros E1 E2 E3. assert (Hd : fresh_start d) by done.
  eapply (wp_mono _ (λ o d', main_post d d' ∧ match o with Fail _ => False | _ => True end)).
  2: { intros o d' [[Hs [Hc1 Hc2]] Ho]. split; [|done]. destruct Hs as [(-> & _ & -> & ->)|Hg]; [left|right; exact Hg].
       by rewrite E1, E3. }
  assert (Hb : main_post d (daemon_body args d).2) by by apply body_wp.
  unfold wp, daemon_main. destruct (daemon_body args d) as [[[]|e|e|] d'] eqn:E; simpl in *; [done| | |done];
    (split; [by apply main_post_exit|apply (exit_nofail e)]).
Qed.
End Daemon.

(** ** Witnesses *)

Section witnesses.
#[local] Instance w_config : Config := usual_config.
#[local] Instance w_programs : Programs := {| exec_prog := λ _ _ _ _, None |}.
#[local] Instance w_mkdtemp : Mkdtemp := {| mkdtemp_name := λ p _, p |}.
#[local] Instance w_resolver : Resolver := ex_resolver.
#[local] Instance w_listening : Listening :=
  {| listen_addrs := λ _ p, Some [Sa_in [0; 0; 0; 0]%Z p]; supported := λ _, true |}.
#[local] Instance w_popt : Popt := ex_popt.
#[local] Instance w_users : Users :=
  {| getpwnam := λ s, if streq s "distcc"%cs then Some (33, 34)%Z else None; HAVE_SETGROUPS := true |}.

(** A daemon started by root. *)
Definition ex_main (user : cstr) (detach : bool) : outcome unit * daemon :=
  daemon_main blank (Machine false None 4) (Service 1 [] [])
    ([Given "allow"%cs "10.0.0.0/8"%cs; Given "jobs"%cs "2"%cs; Given "pid-file"%cs "/pid"%cs; Given "user"%cs user] ++
     (if detach then [] else [Given "no-detach"%cs []]))
    (ex_daemon (default_opts []) false []).

Lemma daemon_guarded_witness :
  let r := ex_main "distcc"%cs false in
  r.1 = Ok () ∧ d_nkids r.2 = Z.of_nat (size (d_kids r.2)) ∧ d_next r.2 = 2 ∧ ruid (d_cred r.2) = 33%Z.
Proof.
  intros r.
  destruct (daemon_guarded blank (Machine false None 4) (Service 1 [] [])
    ([Given "allow"%cs "10.0.0.0/8"%cs; Given "jobs"%cs "2"%cs; Given "pid-file"%cs "/pid"%cs; Given "user"%cs "distcc"%cs] ++
     [Given "no-detach"%cs []]) (ex_daemon (default_opts []) false []) eq_refl eq_refl eq_refl) as (_ & H & _).
  split; [vm_compute; reflexivity|]. split; [exact H|]. split; vm_compute; reflexivity.
Defined.

(** A daemon that detaches ignores SIGHUP first and then catches it with the
    other signals; and the process that registers the removal of the pid file is
    the one that ends at once, so the file stays when the daemon exits. *)
Lemma detach_quirks :
  let r := ex_main "distcc"%cs true in
  r.1 = Ok () ∧ d_sigs r.2 !! SIGHUP = Some SigTerminate ∧ d_atexit r.2 = false ∧
  files_of (d_srv (dcc_exit 0 r.2).2) !! "/pid"%cs = Some (NFile (c_string ("101"%cs ++ NL))).
Proof. vm_compute. auto. Qed.
End witnesses.
