(* ===== verification/Build.v ===== *)
(** * remote.c, compile.c, distcc.c: the client's job

    [dcc_build_somewhere] decides where a command line is compiled, holds the
    locks on the slots it uses, and falls back to the local machine.  [client]
    puts together the process ([os]) and its view of the locks ([sched]). *)

From S2P Require Import Prelude CLib Util Filename Argv Arg ArgExpand Strip Text Paths.
From S2P Require Import World Io Rpc Tempfile Bulk Results Hosts Lock Dotd Request Exec Net PumpMode.

(** How a compilation ended, with its wait status: on a server, whose answer
    was [answer]; here, as a child that was collected; or before it began, with
    a preprocessor that failed. *)
Inductive job_end :=
  | RemoteDone (answer : cstr) (status : Z)
  | LocalDone (status : Z)
  | CppFailed (status : Z).

Record client := Client {
  cl_os : os;
  cl_s : sched;
  cl_max_discrepancies : Z;       (** the static of [dcc_get_max_...] *)
  cl_should_send_email : bool;
  cl_ends : list job_end          (** the compilations so far, latest first *)
}.

Definition set_cl_os (o : os) (c : client) : client :=
  Client o (cl_s c) (cl_max_discrepancies c) (cl_should_send_email c) (cl_ends c).
Definition set_cl_s (s : sched) (c : client) : client :=
  Client (cl_os c) s (cl_max_discrepancies c) (cl_should_send_email c) (cl_ends c).
Definition set_cl_max (z : Z) (c : client) : client :=
  Client (cl_os c) (cl_s c) z (cl_should_send_email c) (cl_ends c).
Definition set_cl_email (b : bool) (c : client) : client :=
  Client (cl_os c) (cl_s c) (cl_max_discrepancies c) b (cl_ends c).

(** Operations of the other components. *)
Definition on_os {A} : M os A → M client A := zoom cl_os set_cl_os.
Definition on_sched {A} : M sched A → M client A := zoom cl_s set_cl_s.
Definition on_world {A} (m : M world A) : M client A := on_os (on_w m).

(** Remember how a compilation ended: noted where the answer of a server has
    been read or a child has been collected, and nowhere else. *)
Definition note_end (e : job_end) : M client unit :=
  modify (λ c, Client (cl_os c) (cl_s c) (cl_max_discrepancies c) (cl_should_send_email c) (e :: cl_ends c)).

(** The code a call returns: its own, or that of an error. *)
Definition code_of (m : M client Z) : M client Z :=
  let! r := attempt m in ret (match r with inl z => z | inr e => e end).

(** A call whose return code nobody looks at. *)
Definition ignore {A} (m : M client A) : M client unit := do! attempt m; ret ().

(** [if (fd != -1) dcc_unlock(fd);] *)
Definition unlock_opt (fd : option nat) : M client unit :=
  match fd with
  | Some fd => ignore (on_sched (dcc_unlock fd))
  | None => ret ()
  end.

(** What Build.v needs of the authentication with a server, in a build that has
    it: [dcc_gssapi_perform_requested_security] and the end of its context, of
    which it knows only that they fail with codes other than 0. *)
Class Authn := {
  authn : nat → nat → M world unit;
  authn_codes : ∀ to_net_fd from_net_fd w,
    (authn to_net_fd from_net_fd w).1 ≠ Fail 0 ∧ (authn to_net_fd from_net_fd w).1 ≠ Exit 0
}.

Section Build.
Context {Cfg : Config} {LZO : Lzo} {Progs : Programs} {NAMES : Names} {AUTH : Authn}.

(** What the process starts with: the working directory, the open log of the
    error mail, the host list, and the slots of the local machine. *)
Context (cwd : option cstr) (email : option nat).
Context (hostlist : outcome (list dcc_hostdef)) (local_slots local_cpp_slots : Z).

(** The times of last modification and of last status change of a file, and
    [fnmatch(pattern, name, 0) == 0]. *)
Context (file_times : cstr → option (Z * Z)) (fnmatch : cstr → cstr → bool).

(** How often a wait for a slot is repeated. *)
Context (fuel : nat).

(** ** remote.c *)

(** Descriptors to write to and to read from, and the ssh child. *)
Definition dcc_remote_connect (host : dcc_hostdef) : M os (nat * nat * option nat) :=
  match mode host with
  | Some DCC_MODE_TCP =>
      match hostname host with
      | Some name => let! fd := dcc_connect_by_name name (port host) in ret (fd, fd, None)
      | None => ub
      end
  | Some DCC_MODE_SSH =>
      let! r := dcc_ssh_connect (user host) (hostname host) (ssh_command host) in
      let '(from_net_fd, to_net_fd, ssh_pid) := r in
      ret (to_net_fd, from_net_fd, Some ssh_pid)
  | _ => fail EXIT_DISTCC_FAILED
  end.

(** The status of the preprocessor; a failure of it is no failure here. *)
Definition dcc_wait_for_cpp (cpp_pid : option nat) : M os Z :=
  match cpp_pid with
  | None => ret 0%Z
  | Some pid =>
      do! on_w (dcc_note_state DCC_PHASE_CPP);
      dcc_collect_child 0 pid None
  end.

(** The part after the label [out]. *)
Definition remote_out (net : option (nat * nat * option nat)) (local_cpu_lock_fd : option nat)
    (r : Z + Z) : M client Z :=
  do! unlock_opt local_cpu_lock_fd;
  do! match net with
      | None => ret ()
      | Some (to_net_fd, from_net_fd, ssh_pid) =>
          do! (if decide (to_net_fd = from_net_fd) then ret () else ignore (on_world (dcc_close to_net_fd)));
          do! ignore (on_world (dcc_close from_net_fd));
          match ssh_pid with
          | Some pid => ignore (on_os (dcc_collect_child 0 pid None))
          | None => ret ()
          end
      end;
  match r with inl status => ret status | inr e => fail e end.

(** The answer of the server. *)
Definition remote_results (from_net_fd : nat) (output_fname : cstr) (deps_fname : option cstr)
    (server_stderr_fname : cstr) (host : dcc_hostdef) : M client (Z + Z) :=
  do! on_world (dcc_note_state DCC_PHASE_COMPILE);
  let! answer := gets (λ c, stream from_net_fd (os_w (cl_os c))) in
  let! r := attempt (on_world (dcc_retrieve_results email from_net_fd output_fname deps_fname server_stderr_fname
                                 (protover host) (compr host) (cpp_where host))) in
  do! match r with inl status => note_end (RemoteDone answer status) | inr _ => ret () end;
  ret r.

(** The wait status of the remote compiler, or of the preprocessor. *)
Definition dcc_compile_remote (argv : cvec) (cpp_fname : option cstr) (files : option cvec)
    (output_fname : cstr) (deps_fname : option cstr) (server_stderr_fname : cstr)
    (cpp_pid local_cpu_lock_fd : option nat) (host : dcc_hostdef) : M client Z :=
  do! on_world (dcc_note_state DCC_PHASE_CONNECT);
  let! net := attempt (on_os (dcc_remote_connect host)) in
  match net with
  | inr e => remote_out None local_cpu_lock_fd (inr e)
  | inl (to_net_fd, from_net_fd, ssh_pid) =>
      let out := remote_out (Some (to_net_fd, from_net_fd, ssh_pid)) in
      let! r := attempt (on_world (if HAVE_GSSAPI && authenticate host then authn to_net_fd from_net_fd else ret ())) in
      match r with
      | inr e => out local_cpu_lock_fd (inr e)
      | inl _ =>
          do! on_world (dcc_note_state DCC_PHASE_SEND);
          match cpp_where host with
          | DCC_CPP_ON_SERVER =>
              match files with
              | None => ub
              | Some files =>
                  let! r := attempt (on_world (do! dcc_send_header cwd to_net_fd argv host;
                                               let! n_files := dcc_argv_len files in
                                               dcc_x_many_files to_net_fd (u32 (Z.of_nat n_files)) files)) in
                  match r with
                  | inr e => out local_cpu_lock_fd (inr e)
                  | inl _ =>
                      let! r := remote_results from_net_fd output_fname deps_fname server_stderr_fname host in
                      out local_cpu_lock_fd r
                  end
              end
          | DCC_CPP_ON_CLIENT =>
              let! r := attempt (on_world (dcc_send_header cwd to_net_fd argv host)) in
              match r with
              | inr e => out local_cpu_lock_fd (inr e)
              | inl _ =>
                  let! r := attempt (on_os (dcc_wait_for_cpp cpp_pid)) in
                  match r with
                  | inr e => out local_cpu_lock_fd (inr e)
                  | inl status =>
                      do! unlock_opt local_cpu_lock_fd;
                      if negb (status =? 0)%Z then do! note_end (CppFailed status); out None (inl status)
                      else
                        match cpp_fname with
                        | None => ub
                        | Some cpp_fname =>
                            let! r := attempt (on_world (dcc_x_file to_net_fd cpp_fname "DOTI"%cs (compr host))) in
                            match r with
                            | inr e => out None (inr e)
                            | inl _ =>
                                let! r := remote_results from_net_fd output_fname deps_fname server_stderr_fname host in
                                out None r
                            end
                        end
                  end
              end
          end
      end
  end.

(** ** compile.c: discrepancies *)

Definition dcc_get_max_discrepancies_before_demotion : M client Z :=
  let! current_setting := gets cl_max_discrepancies in
  if (0 <? current_setting)%Z then ret current_setting
  else
    let! user_setting := on_world (getenv "DISTCC_MAX_DISCREPANCY"%cs) in
    match user_setting with
    | Some user_setting =>
        if (atoi user_setting <=? 0)%Z then exit_ EXIT_BAD_ARGUMENTS
        else do! modify (set_cl_max (atoi user_setting)); ret (atoi user_setting)
    | None => do! modify (set_cl_max 1); ret 1%Z
    end.

Definition include_server_port_suffix : cstr := "/socket"%cs.
Definition discrepancy_suffix : cstr := "/discrepancy_counter"%cs.

Definition dcc_discrepancy_filename : M world (option cstr) :=
  let! include_server_port := getenv "INCLUDE_SERVER_PORT"%cs in
  match include_server_port with
  | None => ret None
  | Some port =>
      if str_endswith include_server_port_suffix port then
        do! malloc_or EXIT_OUT_OF_MEMORY;
        ret (Some (take (length port - length include_server_port_suffix) port ++ discrepancy_suffix))
      else ret None
  end.


(** A file of length 0 counts as one that is too long. *)
Definition dcc_read_number_discrepancies (discrepancy_filename : option cstr) : M world Z :=
  match discrepancy_filename with
  | None => ret 0%Z
  | Some f =>
      let! s := sys_stat f in
      match s with
      | inr _ => ret 0%Z
      | inl n =>
          let size := Z.of_nat (node_size n) in
          ret (if (s32 size =? size)%Z && (0 <? s32 size)%Z then s32 size else INT_MAX)
      end
  end.

Definition dcc_note_discrepancy (discrepancy_filename : option cstr) : M client unit :=
  match discrepancy_filename with
  | None => ret ()
  | Some f =>
      let! fd := on_world (sys_open_append f) in
      match fd with
      | inr _ => fail EXIT_IO_ERROR
      | inl fd =>
          let! _ := on_world (sys_write fd "@"%cs) in
          do! dcc_get_max_discrepancies_before_demotion;
          let! _ := on_world (sys_close fd) in
          ret ()
      end
  end.

Definition with_cpp_where (w : dcc_cpp_where) (v : Z) (h : dcc_hostdef) : dcc_hostdef :=
  HostDef (mode h) (user h) (hostname h) (port h) (ssh_command h) (is_up h) (n_slots h)
    (hostdef_string h) v (compr h) w (authenticate h).

(** [host->cpp_where = DCC_CPP_ON_CLIENT] and the version that goes with it;
    [dcc_get_protover_from_features] leaves -1 when there is none. *)
Definition preprocess_here (h : dcc_hostdef) : dcc_hostdef :=
  with_cpp_where DCC_CPP_ON_CLIENT (dcc_get_protover_from_features (compr h) DCC_CPP_ON_CLIENT) h.

Definition dcc_perhaps_adjust_cpp_where_and_protover (input_fname : cstr) (host : dcc_hostdef)
    (discrepancy_filename : option cstr) : M client dcc_hostdef :=
  let! n := on_world (dcc_read_number_discrepancies discrepancy_filename) in
  let! max := dcc_get_max_discrepancies_before_demotion in
  let host := if (max <=? n)%Z then preprocess_here host else host in
  let host := if dcc_is_preprocessed input_fname then preprocess_here host else host in
  let! a := on_world (getenv "CPATH"%cs) in
  let! b := on_world (getenv "C_INCLUDE_PATH"%cs) in
  let! c := on_world (getenv "CPLUS_INCLUDE_PATH"%cs) in
  ret (match a, b, c with None, None, None => host | _, _, _ => preprocess_here host end).

(** ** compile.c: fresh dependencies *)

(** One name off the text: skip blanks and backslashes, then read up to a
    blank; a backslash is dropped, with the newline after it if there is one.
    [size] bytes are allocated for the name and its terminator. *)
Fixpoint skip_junk (s : cstr) : cstr :=
  match s with
  | c :: s' => if isspace c || ceqb c "\" then skip_junk s' else s
  | [] => []
  end.

Fixpoint read_dep (size : nat) (name s : cstr) : option cstr * cstr :=
  match s with
  | [] => (Some name, [])
  | c :: s' =>
      if isspace c then (Some name, s')
      else if decide (size ≤ length name) then (None, s')
      else if ceqb c "\" then
        match s' with
        | c' :: s'' => if ceqb c' "010" then read_dep size name s'' else read_dep size name s'
        | [] => (Some name, [])
        end
      else read_dep size (name ++ [c]) s'
  end.

(** The first dependency that is too young; [None] also when one cannot be
    examined.  Every round reads at least one character. *)
Fixpoint deps_loop (fuel size : nat) (exclude_pattern : option cstr) (reference_time : Z) (s : cstr) :
    M client (option cstr) :=
  match fuel with
  | 0 => ub
  | S fuel =>
      match read_dep size [] (skip_junk s) with
      | (None, _) => ret None
      | (Some name, rest) =>
          let again := match rest with
                       | [] => ret None
                       | _ => deps_loop fuel size exclude_pattern reference_time rest
                       end in
          match name with
          | [] => again
          | _ =>
              if decide (size ≤ length name) then ub
              else if match exclude_pattern with Some p => fnmatch p name | None => false end then again
              else match file_times name with
                   | None => ret None
                   | Some (_, ctime) =>
                       if (reference_time <=? ctime)%Z then
                         do! on_world (malloc_or EXIT_OUT_OF_MEMORY); ret (Some name)
                       else again
                   end
          end
      end
  end.

Definition dcc_fresh_dependency_exists (dotd_fname : cstr) (exclude_pattern : option cstr)
    (reference_time : Z) : M client (option cstr) :=
  let! n := on_world (sys_stat dotd_fname) in
  match n, file_times dotd_fname with
  | inl n, Some (mtime, _) =>
      if (mtime <? reference_time)%Z then ret None
      else
        do! on_world (malloc_or EXIT_OUT_OF_MEMORY);
        let! fp := on_world (sys_open_read dotd_fname) in
        match fp with
        | inr _ => ret None
        | inl fp =>
            let! text := gets (λ c, default [] (fd_in <$> c_fds (w_core (os_w (cl_os c))) !! fp)) in
            let! r := (match strchr text ":" with
                       | None => ret None
                       | Some i => deps_loop (S (length text)) (node_size n) exclude_pattern
                                     reference_time (drop (S i) text)
                       end) in
            let! _ := on_world (sys_close fp) in
            ret r
        end
  | _, _ => ret None
  end.

(** ** compile.c: running the compiler here *)

Definition dcc_compile_local (argv : cvec) : M client Z :=
  do! on_world (dcc_note_state DCC_PHASE_COMPILE);
  let! pid := on_os (dcc_spawn_child argv None None None) in
  let! status := on_os (dcc_collect_child 0 pid None) in
  do! note_end (LocalDone status);
  ret (dcc_critique_status status).

Definition dcc_please_send_email : M client unit := modify (set_cl_email true).

Definition dcc_please_send_email_after_investigation (deps_fname discrepancy_filename : option cstr) :
    M client unit :=
  let! include_server_port := on_world (getenv "INCLUDE_SERVER_PORT"%cs) in
  let investigated :=
    match include_server_port, deps_fname with
    | Some port, Some deps_fname =>
        match file_times port with
        | Some (_, build_start) =>
            let! exclude_pattern := on_world (getenv "DISTCC_EXCLUDE_FRESH_FILES"%cs) in
            dcc_fresh_dependency_exists deps_fname exclude_pattern build_start
        | None => ret None
        end
    | _, _ => ret None
    end in
  let! fresh_dependency := investigated in
  match fresh_dependency with
  | Some _ => dcc_note_discrepancy discrepancy_filename
  | None => do! dcc_please_send_email; dcc_note_discrepancy discrepancy_filename
  end.

(** bulk.c; the descriptor is not closed when all went well. *)
Definition dcc_copy_file_to_fd (in_fname : cstr) (out_fd : nat) : M world unit :=
  let! r := dcc_open_read in_fname in
  match r with
  | (Some ifd, len) =>
      let! r := attempt (if HAVE_SENDFILE then dcc_pump_sendfile out_fd ifd len
                         else dcc_pump_readwrite out_fd ifd len) in
      match r with
      | inr e => let! _ := sys_close ifd in fail e
      | inl _ => ret ()
      end
  | (None, _) => ret ()
  end.

(** ** compile.c: dcc_build_somewhere *)

(** The variables of [dcc_build_somewhere] that outlive a goto.  A descriptor
    is [None] where the code has -1; what a failed attempt to lock leaves there
    is the number of a closed descriptor, on which [dcc_unlock] does nothing. *)
Record bvars := BVars {
  b_argv : cvec;
  b_input : option cstr;
  b_deps : option cstr;
  b_discrepancy : option cstr;
  b_stderr : option cstr;
  b_host : option dcc_hostdef;
  b_cpu : option nat;
  b_local : option nat;
  b_remote_ret : Z
}.

Definition set_b_deps (d : option cstr) (b : bvars) : bvars :=
  BVars (b_argv b) (b_input b) d (b_discrepancy b) (b_stderr b) (b_host b) (b_cpu b) (b_local b) (b_remote_ret b).
Definition set_b_cpu (l : option nat) (b : bvars) : bvars :=
  BVars (b_argv b) (b_input b) (b_deps b) (b_discrepancy b) (b_stderr b) (b_host b) l (b_local b) (b_remote_ret b).
Definition set_b_local (l : option nat) (b : bvars) : bvars :=
  BVars (b_argv b) (b_input b) (b_deps b) (b_discrepancy b) (b_stderr b) (b_host b) (b_cpu b) l (b_remote_ret b).
Definition set_b_host (h : dcc_hostdef) (b : bvars) : bvars :=
  BVars (b_argv b) (b_input b) (b_deps b) (b_discrepancy b) (b_stderr b) (Some h) (b_cpu b) (b_local b) (b_remote_ret b).
Definition set_b_remote_ret (z : Z) (b : bvars) : bvars :=
  BVars (b_argv b) (b_input b) (b_deps b) (b_discrepancy b) (b_stderr b) (b_host b) (b_cpu b) (b_local b) z.

(** Every label is a function.  The result is the return code, or [None] when
    the process is still waiting for a slot after [fuel] rounds. *)
Definition unlock_and_clean_up (b : bvars) (r : Z) : M client (option Z) :=
  do! unlock_opt (b_cpu b);
  do! unlock_opt (b_local b);
  ret (Some r).

Definition run_local (b : bvars) : M client (option Z) :=
  let! r := code_of (dcc_compile_local (b_argv b)) in
  do! (if (b_remote_ret b =? 0)%Z then ret ()
       else if negb (b_remote_ret b =? r)%Z then
         ignore (dcc_please_send_email_after_investigation (b_deps b) (b_discrepancy b))
       else match b_host b with
            | Some host => ignore (on_sched (dcc_enjoyed_host host))
            | None => ret ()
            end);
  unlock_and_clean_up b r.

(** What [dcc_lock_local] returns is not looked at. *)
Definition lock_local (b : bvars) : M client (option Z) :=
  let! r := attempt (on_sched (dcc_lock_local fuel local_slots)) in
  match r with
  | inl None => ret None
  | inl (Some fd) => run_local (set_b_cpu (Some fd) b)
  | inr _ => run_local b
  end.

Definition fallback (b : bvars) (r : Z) : M client (option Z) :=
  do! match b_host b with Some host => ignore (on_sched (dcc_disliked_host host)) | None => ret () end;
  do! unlock_opt (b_cpu b);
  do! unlock_opt (b_local b);
  let b := set_b_local None (set_b_cpu None b) in
  let! enabled := on_world (dcc_getenv_bool "DISTCC_FALLBACK"%cs 1) in
  if (enabled =? 0)%Z then
    do! match b_stderr b with
        | Some f => ignore (on_world (dcc_copy_file_to_fd f STDERR_FILENO))
        | None => ret ()
        end;
    ret (Some r)
  else lock_local b.

(** What [dcc_get_dotd_info] gives, or what it has left behind when it fails. *)
Definition dotd_info_or_partial (argv : cvec) : M world (option cstr * bool * bool * option cstr) :=
  let! env_var := getenv "DEPENDENCIES_OUTPUT"%cs in
  let! r := attempt (dcc_get_dotd_info argv) in
  match r with
  | inl di => ret (Some (di_fname di), di_needs di, di_sets_target di, di_target di)
  | inr _ =>
      let! st := throw (dotd_loop argv (DotdScan (bool_decide (is_Some env_var)) false None false)) in
      ret (None, needs_dotd st, sets_dotd_target st, None)
  end.

(** [dcc_argv_append(argv, strdup(s))] *)
Definition append_dup (argv : cvec) (s : cstr) : M world cvec :=
  let! ok := malloc in
  dcc_argv_append argv (if ok then Str s else Null).

(** The command line for a server that preprocesses. *)
Definition server_side_cpp_argv (argv : cvec) (needs sets_target : bool) (target : option cstr)
    (output_fname : cstr) : M world cvec :=
  let! server_side_argv := dcc_copy_argv argv 2 in
  if needs && negb sets_target then
    let! a := append_dup server_side_argv "-MT"%cs in
    append_dup a (default output_fname target)
  else ret server_side_argv.

(** After the remote compilation: its slot is given back, and the result
    judged. *)
Definition after_remote (b : bvars) (host : dcc_hostdef) (stderr_fname : cstr) (status : Z) : M client (option Z) :=
  do! ignore (on_sched (dcc_enjoyed_host host));
  do! unlock_opt (b_cpu b);
  let b := set_b_cpu None b in
  let r := dcc_critique_status status in
  if (r =? 0)%Z then
    let! shown := attempt (on_world (dcc_copy_file_to_fd stderr_fname STDERR_FILENO)) in
    match shown with
    | inr _ => fallback b r
    | inl _ => ret (Some r)
    end
  else if (r <? 128)%Z then
    let! skip := on_world (getenv "DISTCC_SKIP_LOCAL_RETRY"%cs) in
    match skip with
    | Some _ =>
        let! shown := attempt (on_world (dcc_copy_file_to_fd stderr_fname STDERR_FILENO)) in
        match shown with
        | inr _ => fallback b r
        | inl _ => ret (Some r)
        end
    | None => fallback (set_b_remote_ret r b) r
    end
  else fallback b r.

(** The call of [dcc_compile_remote], which unlocks the local slot itself. *)
Definition compile_on (b : bvars) (host : dcc_hostdef) (stderr_fname output_fname : cstr)
    (server_side_argv : cvec) (cpp_fname : option cstr) (files : option cvec) (deps_fname : option cstr)
    (cpp_pid : option nat) : M client (option Z) :=
  let! r := attempt (dcc_compile_remote server_side_argv cpp_fname files output_fname deps_fname
                       stderr_fname cpp_pid (b_local b) host) in
  let b := set_b_local None b in
  match r with
  | inr e => fallback b e
  | inl status => after_remote b host stderr_fname status
  end.

(** The host is chosen and the local slot taken; [files] is what the include
    server gave. *)
Definition distribute (b : bvars) (host : dcc_hostdef) (input_fname output_fname stderr_fname : cstr)
    (files : option cvec) : M client (option Z) :=
  match cpp_where host with
  | DCC_CPP_ON_CLIENT =>
      let! r := attempt (on_os (dcc_cpp_maybe (b_argv b) input_fname)) in
      match r with
      | inr _ => fallback b 1        (* [ret = dcc_cpp_maybe(...) != 0] *)
      | inl (cpp_fname, cpp_pid) =>
          let! r := attempt (on_world (dcc_strip_local_args (b_argv b))) in
          match r with
          | inr e => fallback b e
          | inl server_side_argv =>
              compile_on b host stderr_fname output_fname server_side_argv (Some cpp_fname) None None cpp_pid
          end
      end
  | DCC_CPP_ON_SERVER =>
      let! di := on_world (dotd_info_or_partial (b_argv b)) in
      let '(deps, needs, sets, target) := di in
      let b := set_b_deps deps b in
      let! r := attempt (on_world (server_side_cpp_argv (b_argv b) needs sets target output_fname)) in
      match r with
      | inr e => fallback b e
      | inl server_side_argv =>
          compile_on b host stderr_fname output_fname server_side_argv None files
            (if needs then deps else None) None
      end
  end.

(** A remote host is locked: take a local slot for preprocessing, and find out
    where to preprocess. *)
Definition build_remote (scan_includes : bool) (b : bvars) (host : dcc_hostdef)
    (input_fname output_fname stderr_fname : cstr) : M client (option Z) :=
  let! r := attempt (on_sched (dcc_lock_local_cpp fuel local_cpp_slots)) in
  match r with
  | inr e => fallback b e
  | inl None => ret None
  | inl (Some fd) =>
      let b := set_b_local (Some fd) b in
      let! host :=
        (match cpp_where host with
         | DCC_CPP_ON_SERVER =>
             dcc_perhaps_adjust_cpp_where_and_protover input_fname host (b_discrepancy b)
         | DCC_CPP_ON_CLIENT => ret host
         end) in
      let b := set_b_host host b in
      if scan_includes then
        let! r := attempt (on_os (dcc_approximate_includes (cpp_where host) cwd (b_argv b))) in
        unlock_and_clean_up b (match r with inl _ => 0%Z | inr e => e end)
      else
        match cpp_where host with
        | DCC_CPP_ON_CLIENT => distribute b host input_fname output_fname stderr_fname None
        | DCC_CPP_ON_SERVER =>
            let! r := attempt (on_os (dcc_talk_to_include_server cwd (b_argv b))) in
            match r with
            | inr e =>
                let! testing := on_world (dcc_getenv_bool "DISTCC_TESTING_INCLUDE_SERVER"%cs 0) in
                if negb (testing =? 0)%Z then exit_ e
                else
                  let host := preprocess_here host in
                  distribute (set_b_host host b) host input_fname output_fname stderr_fname None
            | inl files =>
                do! unlock_opt (b_local b);
                distribute (set_b_local None b) host input_fname output_fname stderr_fname (Some files)
            end
        end
  end.

Definition dcc_build_somewhere (scan_includes : bool) (argv : cvec) (sg_level : Z) : M client (option Z) :=
  let! r := attempt (on_world (dcc_expand_preprocessor_options argv)) in
  match r with
  | inr e => ret (Some e)
  | inl argv =>
      let! r := attempt (on_world dcc_discrepancy_filename) in
      match r with
      | inr e => ret (Some e)
      | inl discrepancy =>
          let b := BVars argv None None discrepancy None None None None 0 in
          if negb (sg_level =? 0)%Z then run_local b
          else
            let! r := attempt (on_world (dcc_scan_args_full argv)) in
            match r with
            | inr _ => ub
            | inl sc =>
                let b := BVars (sc_newargv sc) (sc_input sc) None discrepancy None None None None 0 in
                if negb (sc_ret sc =? 0)%Z then lock_local b
                else
                  match sc_input sc, sc_output sc with
                  | Some input_fname, Some output_fname =>
                      let! r := attempt (on_os (make_tmpnam "distcc_server_stderr"%cs ".txt"%cs)) in
                      match r with
                      | inr e => fallback b e
                      | inl stderr_fname =>
                          let b := BVars (sc_newargv sc) (sc_input sc) None discrepancy (Some stderr_fname)
                                     None None None 0 in
                          let! r := attempt (on_sched (dcc_pick_host_from_list_and_lock_it fuel hostlist)) in
                          match r with
                          | inr e => fallback b e
                          | inl None => ret None
                          | inl (Some (host, fd)) =>
                              let b := set_b_host host (set_b_cpu (Some fd) b) in
                              match mode host with
                              | Some DCC_MODE_LOCAL => run_local b
                              | _ => build_remote scan_includes b host input_fname output_fname stderr_fname
                              end
                          end
                      end
                  | _, _ => ub
                  end
            end
      end
  end.
End Build.

(** ** A job that runs *)

(** "cc" succeeds; with -E it prints its output. *)
Definition ex_programs : Programs := {|
  exec_prog := λ file argv _ c,
    if streq file "cc"%cs then
      Some (0%Z, if existsb (streq "-E"%cs) argv
                 then match c_fds c !! STDOUT_FILENO with
                      | Some d => put STDOUT_FILENO d "int x;"%cs c
                      | None => c
                      end
                 else c)
    else None |}.

(** A build in which nobody authenticates. *)
Definition no_authn : Authn.
Proof. refine {| authn := λ _ _, ret () |}. done. Defined.

Definition ex_names : Names := {| host_addrs := λ _ _, Some ["addr"%cs] |}.

(** [streams]: what the servers send on each new connection. *)
Definition ex_os (streams : list cstr) : os :=
  let tty := Fd [] [] None in
  Os (World (Core {[0 := tty; 1 := tty; 2 := tty]}
               {["/tmp"%cs := NDir; "/dev/null"%cs := NFile []; "x.c"%cs := NFile "int x;"%cs]}
               [] 0 DCC_PHASE_STARTUP) [] [] [] [] 0 ∅)
    7 [] [] [] ∅ [] 0 [] [] streams [].

Definition ex_job (streams : list cstr) : client :=
  Client (ex_os streams) (Sched (Shared ∅ ∅ 1000) (ex_proc 1 [])) 0 false [].

Definition ex_run : M client (option Z) :=
  dcc_build_somewhere (Cfg := usual_config) (LZO := stored_lzo) (Progs := ex_programs) (NAMES := ex_names) (AUTH := no_authn)
    None None (Ok ex_hosts) 2 2 (λ _, None) (λ _ _, false) 5 false (vec ["cc"; "-c"; "x.c"]%cs) 0.
Definition ex_build (streams : list cstr) : outcome (option Z) * client := ex_run (ex_job streams).

(** The answers of a server whose compiler succeeded, and of one whose compiler
    exited with 1. *)
Definition ex_answer : cstr := "DONE00000001STAT00000000SERR00000000SOUT00000000DOTO00000003obj"%cs.
Definition ex_refusal : cstr := "DONE00000001STAT00000100SERR00000000SOUT00000000DOTO00000000"%cs.

(** The object file of the server arrives; a server that says nothing is
    replaced by the local compiler; a failure is checked locally, and the
    discrepancy noted for the mail. *)
Lemma ex_build_runs :
  ((ex_build [ex_answer]).1, cl_ends (ex_build [ex_answer]).2) = (Ok (Some 0%Z), [RemoteDone ex_answer 0]) ∧
  c_files (w_core (os_w (cl_os (ex_build [ex_answer]).2))) !! "x.o"%cs = Some (NFile "obj"%cs) ∧
  ((ex_build []).1, cl_ends (ex_build []).2) = (Ok (Some 0%Z), [LocalDone 0]) ∧
  ((ex_build [ex_refusal]).1, cl_ends (ex_build [ex_refusal]).2) =
    (Ok (Some 0%Z), [LocalDone 0; RemoteDone ex_refusal 256]) ∧
  cl_should_send_email (ex_build [ex_refusal]).2 = true.
Proof. by vm_compute. Qed.
