(* ===== verification/BuildLocks.v ===== *)
(** * The locks of a job

    However a job goes, [dcc_build_somewhere] gives back the locks it takes.
    [holds pid F s]: process [pid] sees no failures of its own system calls, the
    other processes leave its locks alone, and every lock it holds is on a file
    it has open under a descriptor in [F]. *)

From S2P Require Import Prelude CLib Util Argv Arg Strip World Io Bulk Results Hosts Lock Dotd Request Exec Net PumpMode Build.

(** A step of the others does not touch the locks of [pid]. *)
Definition fair (pid : nat) (f : shared → shared) : Prop :=
  ∀ h g, sh_locks (f h) !! g = Some pid ↔ sh_locks h !! g = Some pid.

Record holds (pid : nat) (F : gset nat) (s : sched) : Prop := Holds {
  ho_pid : p_pid (s_pr s) = pid;
  ho_sys : p_sys (s_pr s) = [];
  ho_fair : Forall (fair pid) (p_others (s_pr s));
  ho_locks g : sh_locks (s_sh s) !! g = Some pid → ∃ fd, fd ∈ F ∧ p_fds (s_pr s) !! fd = Some g
}.

(** Only the parts of the state that [holds] is about matter. *)
Lemma holds_ext pid F s s' :
  p_pid (s_pr s') = p_pid (s_pr s) → p_sys (s_pr s') = p_sys (s_pr s) →
  p_others (s_pr s') = p_others (s_pr s) → p_fds (s_pr s') = p_fds (s_pr s) →
  sh_locks (s_sh s') = sh_locks (s_sh s) → holds pid F s → holds pid F s'.
Proof. intros E1 E2 E3 E4 E5 [H1 H2 H3 H4]. split; congruence || (rewrite ?E3, ?E4, ?E5; done). Qed.

Lemma holds_mono pid F F' s : F ⊆ F' → holds pid F s → holds pid F' s.
Proof. intros HF [H1 H2 H3 H4]. split; try done. intros g Hg. destruct (H4 g Hg) as (fd & ? & ?). exists fd. set_solver. Qed.

Lemma wp_no_fault Q s : p_sys (s_pr s) = [] → Q (Ok None) s → wp sys_fault Q s.
Proof. unfold wp, sys_fault. by intros ->. Qed.

Lemma wp_lock_filename lockname h i Q s :
  (∀ o l, (o = Fail EXIT_OUT_OF_MEMORY ∨ o = Fail EXIT_PROTOCOL_ERROR ∨ (∃ e, p_lock_dir (s_pr s) = inr e ∧ o = Fail e) ∨ ∃ f, o = Ok f) →
     Q o (Sched (s_sh s) (set_p_mem l (s_pr s)))) →
  wp (dcc_make_lock_filename lockname h i) Q s.
Proof.
  assert (s = Sched (s_sh s) (set_p_mem (p_mem (s_pr s)) (s_pr s))) as Es by by destruct s as [? []].
  intros HQ. unfold dcc_make_lock_filename. apply wp_bind, wp_gets.
  destruct (p_lock_dir (s_pr s)) as [d|e] eqn:Ed.
  2: { apply wp_throw. rewrite Es. apply HQ. eauto 6. }
  destruct (lock_name d lockname h i) as [f|].
  - apply wp_bind, wp_malloc_or; intros l; [apply wp_ret|]; apply (HQ _ l); eauto 6.
  - apply wp_throw. rewrite Es. apply HQ. eauto.
Qed.

(** Closing loses at most locks. *)
Lemma wp_client_close_lock pid F fd Q s :
  holds pid F s →
  (∀ r s', holds pid (F ∖ {[fd]}) s' → Q (Ok r) s') → wp (close_lock fd) Q s.
Proof.
  intros [H1 H2 H3 H4] HQ. unfold close_lock. do 2 apply wp_bind, wp_gets. apply wp_bind, wp_no_fault; [done|].
  cbn beta iota. destruct (p_fds (s_pr s) !! fd) as [f|] eqn:Ef.
  - unfold mod_sh, mod_pr. apply wp_bind, wp_modify, wp_bind, wp_modify, wp_ret, HQ. split; try done.
    cbn. intros g. unfold release. rewrite H1. case_decide as Hd; cbn; intros Hg.
    + destruct (decide (g = f)) as [->|Hne]; [by rewrite lookup_delete_eq in Hg|].
      rewrite lookup_delete_ne in Hg by done. destruct (H4 g Hg) as (fd' & Hin & Hfd').
      assert (fd' ≠ fd) by congruence. exists fd'. rewrite lookup_delete_ne by done. set_solver.
    + destruct (H4 g Hg) as (fd' & Hin & Hfd'). assert (fd' ≠ fd) by (intros ->; simplify_eq; done).
      exists fd'. rewrite lookup_delete_ne by done. set_solver.
  - apply wp_ret, HQ. split; try done. intros g Hg. destruct (H4 g Hg) as (fd' & Hin & Hfd').
    assert (fd' ≠ fd) by congruence. exists fd'. set_solver.
Qed.

Lemma wp_unlock pid F fd Q s :
  holds pid F s →
  (∀ o s', holds pid (F ∖ {[fd]}) s' → (o = Ok () ∨ o = Fail EXIT_IO_ERROR) → Q o s') → wp (dcc_unlock fd) Q s.
Proof.
  intros Hh HQ. pose proof Hh as [H1 H2 H3 H4]. unfold dcc_unlock. do 2 apply wp_bind, wp_gets.
  apply wp_bind, wp_no_fault; [done|]. cbn beta iota. destruct (p_fds (s_pr s) !! fd) as [f|] eqn:Ef.
  - unfold mod_sh at 1. apply wp_bind, wp_modify, wp_bind.
    eapply (wp_client_close_lock pid F).
    + split; try done. cbn. intros g Hg. apply H4. unfold release in Hg. case_decide; [|done].
      cbn in Hg. by apply lookup_delete_Some in Hg as [_ Hg].
    + intros [?|?] s' Hs'; [apply wp_ret|apply wp_throw]; auto.
  - apply wp_bind. eapply wp_client_close_lock; [done|]. intros r s' Hs'. apply wp_throw. auto.
Qed.

Lemma wp_open_lock pid F fname Q s :
  holds pid F s →
  (∀ fd s', holds pid F s' → p_fds (s_pr s') !! fd = Some fname → fd ∉ dom (p_fds (s_pr s)) →
     Q (Ok (Some fd)) s') →
  wp (dcc_open_lockfile fname) Q s.
Proof.
  intros [H1 H2 H3 H4] HQ. unfold dcc_open_lockfile, open_creat.
  apply wp_bind, wp_bind, wp_no_fault; [done|]. cbn beta iota. unfold mod_sh, mod_pr.
  apply wp_bind, wp_modify, wp_bind, wp_gets, wp_bind, wp_modify, wp_ret. cbn beta iota. apply wp_ret.
  pose proof (new_fd_fresh (p_fds (s_pr s))) as Hnew. apply HQ; [|cbn; apply lookup_insert_eq|by apply not_elem_of_dom].
  split; try done. cbn. intros g Hg.
  assert (sh_locks (s_sh s) !! g = Some pid) as Hg' by (by destruct (sh_files (s_sh s) !! fname)).
  destruct (H4 g Hg') as (fd' & Hin & Hfd'). exists fd'. split; [done|].
  rewrite lookup_insert_ne; [done|]. congruence.
Qed.

Lemma wp_lock_host pid F lockname h slot Q s :
  holds pid F s →
  (∀ fd s', holds pid ({[fd]} ∪ F) s' → Q (Ok fd) s') →
  (∀ e s', holds pid F s' → Q (Fail e) s') →
  wp (dcc_lock_host lockname h slot) Q s.
Proof.
  intros Hh HO HF. unfold dcc_lock_host. destruct (negb (is_up h)); [by apply wp_throw, HF|].
  apply wp_bind, wp_lock_filename. intros o l Ho.
  assert (holds pid F (Sched (s_sh s) (set_p_mem l (s_pr s)))) as Hh1 by by apply (holds_ext pid F s).
  destruct Ho as [->|[->|[(e & _ & ->)|(fname & ->)]]]; [by apply HF..|].
  apply wp_bind. eapply wp_open_lock; [done|]. intros fd s1 Hh2 Hfd Hnew. pose proof Hh2 as [H1 H2 H3 H4].
  apply wp_bind. unfold sys_lock. do 2 apply wp_bind, wp_gets. apply wp_bind, wp_no_fault; [done|].
  cbn [option_bind mbind]. rewrite Hfd. cbn beta iota. apply wp_bind, wp_gets. rewrite H1.
  destruct (sh_locks (s_sh s1) !! fname) as [q|] eqn:Eq; [case_decide as Hq|].
  - apply wp_ret, wp_ret. apply HO. eapply holds_mono; [|done]. set_solver.
  - apply wp_ret, wp_bind. eapply wp_client_close_lock; [done|]. intros r s2 Hs2. cbn beta iota. apply wp_throw, HF.
    eapply holds_mono; [|done]. set_solver.
  - unfold mod_sh. apply wp_bind, wp_modify, wp_ret, wp_ret, HO. split; try done. cbn. intros g Hg.
    destruct (decide (g = fname)) as [->|Hne]; [exists fd; set_solver|].
    rewrite lookup_insert_ne in Hg by done. destruct (H4 g Hg) as (fd' & ? & ?). exists fd'. set_solver.
Qed.

(** Locks a search for a slot may leave: the one it reports. *)
Definition locked (pid : nat) (F : gset nat) (o : outcome (option (dcc_hostdef * nat))) (s : sched) : Prop :=
  match o with
  | Ok (Some (_, fd)) => holds pid ({[fd]} ∪ F) s
  | Ok None | Fail _ => holds pid F s
  | Exit _ | Undef => False
  end.

Lemma lock_hosts_locked pid F i hosts s : holds pid F s → wp (lock_hosts i hosts) (locked pid F) s.
Proof.
  revert s. induction hosts as [|h hosts IH]; intros s Hh; cbn [lock_hosts]; [by apply wp_ret|].
  destruct (i >=? n_slots h)%Z; [by apply IH|].
  apply wp_bind, wp_attempt. eapply wp_lock_host; [done|..].
  - intros fd s1 Hs1. unfold dcc_note_state_slot, mod_pr. apply wp_bind, wp_modify, wp_ret. simpl.
    by eapply holds_ext; [..|exact Hs1].
  - intros e s1 Hs1. destruct (e =? EXIT_BUSY)%Z; [by apply IH|by apply wp_throw].
Qed.

Lemma lock_slots_locked pid F n i hosts s : holds pid F s → wp (lock_slots n i hosts) (locked pid F) s.
Proof.
  revert i s. induction n as [|n IH]; intros i s Hh; cbn [lock_slots]; [by apply wp_ret|].
  apply wp_bind. eapply wp_mono; [by apply lock_hosts_locked|].
  intros [[[h fd]|]| | |] s1 Hs1; try done. by apply IH.
Qed.

Lemma lock_one_locked pid F fuel hosts s : holds pid F s → wp (dcc_lock_one fuel hosts) (locked pid F) s.
Proof.
  revert s. induction fuel as [|fuel IH]; intros s Hh; cbn [dcc_lock_one]; [by apply wp_ret|].
  apply wp_bind. eapply wp_mono; [by apply lock_slots_locked|].
  intros [[[h fd]|]| | |] s1 Hs1; try done.
  apply wp_bind. unfold wp at 1, dcc_lock_pause. destruct Hs1 as [H1 H2 H3 H4].
  destruct (p_others (s_pr s1)) as [|f l] eqn:El; cbn; apply IH; split; rewrite ?El; try done.
  all: apply Forall_cons in H3 as [Hf Hl]; try done. cbn. intros g Hg. by apply H4, Hf.
Qed.

(** ** Operations that take no lock *)

(** [m] keeps what is held, and returns. *)
Definition keeps {A} (m : M sched A) : Prop := ∀ pid F s, holds pid F s →
  wp m (λ o s', holds pid F s' ∧ match o with Ok _ | Fail _ => True | _ => False end) s.

Lemma keeps_wp {A} (m : M sched A) pid F Q s :
  keeps m → holds pid F s → (∀ a s', holds pid F s' → Q (Ok a) s') → (∀ e s', holds pid F s' → Q (Fail e) s') →
  wp m Q s.
Proof.
  intros Hm Hs HO HF. eapply wp_mono; [by apply Hm|]. intros [] s' [Hs' ?]; try done; [by apply HO|by apply HF].
Qed.

Lemma keeps_ret {A} (a : A) : keeps (ret a).
Proof. intros pid F s Hs. by apply wp_ret. Qed.

Lemma keeps_fail {A} e : keeps (fail (A := A) e).
Proof. intros pid F s Hs. by apply wp_throw. Qed.

Lemma keeps_gets {A} (f : sched → A) : keeps (gets f).
Proof. intros pid F s Hs. by apply wp_gets. Qed.

Lemma keeps_bind {A B} (m : M sched A) (k : A → M sched B) : keeps m → (∀ a, keeps (k a)) → keeps (bind m k).
Proof. intros Hm Hk pid F s Hs. apply wp_bind. eapply keeps_wp; [done..| |]; intros; [by apply Hk|done]. Qed.

Lemma keeps_attempt {A} (m : M sched A) : keeps m → keeps (attempt m).
Proof. intros Hm pid F s Hs. apply wp_attempt. by eapply keeps_wp. Qed.

Lemma keeps_fault : keeps sys_fault.
Proof. intros pid F s Hs. apply wp_no_fault; [apply Hs|done]. Qed.

Lemma keeps_filename lockname h i : keeps (dcc_make_lock_filename lockname h i).
Proof.
  intros pid F s Hs. apply wp_lock_filename. intros o l Ho. split; [by apply (holds_ext pid F s)|].
  by destruct Ho as [->|[->|[(e & _ & ->)|(fname & ->)]]].
Qed.

Lemma keeps_mod_sh f : (∀ h, sh_locks (f h) = sh_locks h) → keeps (mod_sh f).
Proof. intros Hf pid F s Hs. apply wp_modify. split; [|done]. apply (holds_ext pid F s); try done. apply Hf. Qed.

Lemma keeps_mod_pr f :
  (∀ p, p_pid (f p) = p_pid p ∧ p_sys (f p) = p_sys p ∧ p_others (f p) = p_others p ∧ p_fds (f p) = p_fds p) →
  keeps (mod_pr f).
Proof. intros Hf pid F s Hs. apply wp_modify. split; [|done].
  destruct (Hf (s_pr s)) as (? & ? & ? & ?). by apply (holds_ext pid F s).
Qed.

Lemma keeps_open fname : keeps (dcc_open_lockfile fname).
Proof. intros pid F s Hs. by eapply wp_open_lock. Qed.

Lemma keeps_close fd : keeps (close_lock fd).
Proof.
  intros pid F s Hs. eapply wp_client_close_lock; [done|]. intros r s' Hs'. split; [|done].
  eapply holds_mono; [|done]. set_solver.
Qed.

Create HintDb locks.
#[local] Hint Resolve keeps_ret keeps_fail keeps_gets keeps_bind keeps_attempt keeps_fault keeps_filename
  keeps_open keeps_close : locks.

Lemma keeps_mark lockname h : keeps (dcc_mark_timefile lockname h).
Proof.
  unfold dcc_mark_timefile, touch. apply keeps_bind; [auto with locks|]. intros f.
  apply keeps_bind; [auto with locks|]. intros [fd|]; [|auto with locks].
  apply keeps_bind; [|intros []; auto with locks].
  apply keeps_bind; [auto with locks|]. intros e. apply keeps_bind; [auto with locks|]. intros g.
  destruct e, g; auto with locks. apply keeps_bind; [by apply keeps_mod_sh|auto with locks].
Qed.

Lemma keeps_remove lockname h : keeps (dcc_remove_timefile lockname h).
Proof.
  unfold dcc_remove_timefile. apply keeps_bind; [auto with locks|]. intros f.
  apply keeps_bind; [auto with locks|]. intros []; [auto with locks|]. by apply keeps_mod_sh.
Qed.

Lemma keeps_check lockname h : keeps (dcc_check_timefile lockname h).
Proof.
  unfold dcc_check_timefile. apply keeps_bind; [auto with locks|]. intros f.
  apply keeps_bind; [auto with locks|]. intros e. apply keeps_bind; [auto with locks|]. intros t.
  destruct e as [[]|], t; auto with locks.
Qed.

Lemma keeps_enjoyed h : keeps (dcc_enjoyed_host h).
Proof.
  unfold dcc_enjoyed_host. apply keeps_bind; [apply keeps_gets|]. intros [bp|]; [|apply keeps_remove].
  destruct (_ =? _)%Z; [apply keeps_ret|apply keeps_remove].
Qed.

Lemma keeps_disliked h : keeps (dcc_disliked_host h).
Proof.
  unfold dcc_disliked_host. apply keeps_bind; [apply keeps_gets|]. intros [bp|]; [|apply keeps_mark].
  destruct (_ =? _)%Z; [apply keeps_ret|apply keeps_mark].
Qed.

Lemma keeps_remove_loop hosts : keeps (remove_loop hosts).
Proof.
  induction hosts as [|h hosts IH]; cbn [remove_loop]; [apply keeps_ret|].
  apply keeps_bind.
  - apply keeps_attempt. unfold dcc_check_backoff. apply keeps_bind; [apply keeps_check|]. intros t.
    do 2 (apply keeps_bind; [apply keeps_gets|]; intros ?). destruct (_ <? _)%Z; auto with locks.
  - intros r. apply keeps_bind; [done|]. auto with locks.
Qed.

Lemma keeps_remove_disliked hosts : keeps (dcc_remove_disliked hosts).
Proof.
  unfold dcc_remove_disliked. apply keeps_bind; [apply keeps_gets|]. intros bp.
  apply keeps_bind; [destruct bp; [by apply keeps_mod_pr|apply keeps_ret]|]. intros _.
  apply keeps_bind; [apply keeps_gets|]. intros p. destruct (_ =? _)%Z; [apply keeps_ret|apply keeps_remove_loop].
Qed.

Lemma pick_host_locked pid F fuel hosts s :
  holds pid F s → wp (dcc_pick_host_from_list_and_lock_it fuel hosts) (locked pid F) s.
Proof.
  intros Hs. unfold dcc_pick_host_from_list_and_lock_it. destruct hosts as [hosts| | |]; try by apply wp_throw.
  apply wp_bind. eapply keeps_wp; [apply keeps_remove_disliked|done|..]; intros x s' Hs'; [|done].
  destruct x; [by apply wp_throw|]. by apply lock_one_locked.
Qed.

(** Only the descriptor of a search for a local slot. *)
Definition locked_fd (pid : nat) (F : gset nat) (o : outcome (option nat)) (s : sched) : Prop :=
  match o with
  | Ok (Some fd) => holds pid ({[fd]} ∪ F) s
  | Ok None | Fail _ => holds pid F s
  | Exit _ | Undef => False
  end.

Lemma lock_local_locked pid F fuel slots s : holds pid F s → wp (dcc_lock_local fuel slots) (locked_fd pid F) s.
Proof.
  intros Hs. unfold dcc_lock_local. apply wp_bind. eapply wp_mono; [by apply lock_one_locked|].
  by intros [[[h fd]|]| | |] s' Hs'.
Qed.

Lemma lock_local_cpp_locked pid F fuel slots s : holds pid F s → wp (dcc_lock_local_cpp fuel slots) (locked_fd pid F) s.
Proof.
  intros Hs. unfold dcc_lock_local_cpp. apply wp_bind. eapply wp_mono; [by apply lock_one_locked|].
  intros [[[h fd]|]| | |] s' Hs'; try done. apply wp_bind, wp_modify, wp_ret. simpl.
  by apply (holds_ext pid ({[fd]} ∪ F) s').
Qed.

(** ** The client *)

Definition fds_of (o : option nat) : gset nat := match o with Some fd => {[fd]} | None => ∅ end.
Definition held (b : bvars) : gset nat := fds_of (b_cpu b) ∪ fds_of (b_local b).

(** When the job is over nothing is held; while it waits for a slot at most one
    lock is.  (A process that exits loses its locks anyway.) *)
Definition released (pid : nat) (o : outcome (option Z)) (c : client) : Prop :=
  match o with
  | Ok (Some _) => holds pid ∅ (cl_s c)
  | Ok None => ∃ F, size F ≤ 1 ∧ holds pid F (cl_s c)
  | Fail _ => False
  | Exit _ | Undef => True
  end.

Section client.
Context (pid : nat).

Lemma wp_os_any {A} (m : M os A) (Q : outcome A → client → Prop) c :
  (∀ r o, Q r (set_cl_os o c)) → wp (on_os m) Q c.
Proof. intros HQ. apply wp_zoom. unfold wp. apply HQ. Qed.

Lemma wp_os_nofail {A} (m : M os A) (Q : outcome A → client → Prop) c :
  nofail m → (∀ r o, match r with Fail _ => True | _ => Q r (set_cl_os o c) end) → wp (on_os m) Q c.
Proof.
  intros Hm HQ. apply wp_zoom. specialize (Hm (cl_os c)). unfold wp.
  specialize (HQ (m (cl_os c)).1 (m (cl_os c)).2). by destruct (m (cl_os c)).1.
Qed.

Lemma nofail_on_w {A} (m : M world A) : nofail m → nofail (on_w m).
Proof. intros Hm o. unfold on_w, zoom. specialize (Hm (os_w o)). by destruct (m (os_w o)) as [[] ?]. Qed.

(** A call whose outcome is looked at: whatever it is, the locks are as before. *)
Lemma wp_os_attempt {A B} (m : M os A) (k : A + Z → M client B) (Q : outcome B → client → Prop) c F :
  holds pid F (cl_s c) → (∀ e c', Q (Exit e) c') → (∀ c', Q Undef c') →
  (∀ r c', holds pid F (cl_s c') → wp (k r) Q c') → wp (bind (attempt (on_os m)) k) Q c.
Proof.
  intros Hc HE HU HQ. apply wp_bind, wp_attempt, wp_os_any. intros [] o; auto.
Qed.

(** A call that cannot fail. *)
Lemma wp_os_bind {A B} (m : M os A) (k : A → M client B) (Q : outcome B → client → Prop) c F :
  nofail m → holds pid F (cl_s c) → (∀ e c', Q (Exit e) c') → (∀ c', Q Undef c') →
  (∀ a c', holds pid F (cl_s c') → wp (k a) Q c') → wp (bind (on_os m) k) Q c.
Proof.
  intros Hm Hc HE HU HQ. apply wp_bind, wp_os_nofail; [done|]. intros [] o; auto.
Qed.

(** An operation on the locks whose result is dropped. *)
Lemma wp_ignore_keeps {A B} (m : M sched A) (k : M client B) Q c F :
  keeps m → holds pid F (cl_s c) → (∀ c', holds pid F (cl_s c') → wp k Q c') →
  wp (do! ignore (on_sched m); k) Q c.
Proof.
  intros Hm Hc HQ. apply wp_bind. unfold ignore. apply wp_bind, wp_attempt. unfold on_sched. apply wp_zoom.
  eapply keeps_wp; [done|done|..]; intros; apply wp_ret; by apply HQ.
Qed.

Lemma wp_unlock_opt {B} fd (k : M client B) Q c F :
  holds pid (fds_of fd ∪ F) (cl_s c) → (∀ c', holds pid F (cl_s c') → wp k Q c') →
  wp (do! unlock_opt fd; k) Q c.
Proof.
  intros Hc HQ. apply wp_bind. destruct fd as [fd|]; simpl in *.
  - unfold ignore. apply wp_bind, wp_attempt. unfold on_sched. apply wp_zoom.
    eapply wp_unlock; [done|]. intros o s' Hs' Ho.
    assert (holds pid F s') as Hs'' by (eapply holds_mono; [|exact Hs']; set_solver).
    destruct Ho as [->| ->]; apply wp_ret; by apply HQ.
  - apply wp_ret, HQ. eapply holds_mono; [|done]. set_solver.
Qed.

Lemma wp_world_bind {A B} (m : M world A) (k : A → M client B) (Q : outcome B → client → Prop) c F :
  nofail m → holds pid F (cl_s c) → (∀ e c', Q (Exit e) c') → (∀ c', Q Undef c') →
  (∀ a c', holds pid F (cl_s c') → wp (k a) Q c') → wp (bind (on_world m) k) Q c.
Proof. intros Hm. apply wp_os_bind. by apply nofail_on_w. Qed.

Lemma wp_ignore_os {A B} (m : M os A) (k : M client B) (Q : outcome B → client → Prop) c F :
  holds pid F (cl_s c) → (∀ e c', Q (Exit e) c') → (∀ c', Q Undef c') →
  (∀ c', holds pid F (cl_s c') → wp k Q c') → wp (do! ignore (on_os m); k) Q c.
Proof.
  intros Hc HE HU HQ. apply wp_bind. unfold ignore. eapply wp_os_attempt; [done..|].
  intros r c' Hc'. by apply wp_ret, HQ.
Qed.

(** A part of the job that may fail, and leaves [F] held. *)
Definition leaves {A} (F : gset nat) (o : outcome A) (c : client) : Prop :=
  match o with Ok _ | Fail _ => holds pid F (cl_s c) | Exit _ | Undef => True end.

Lemma wp_leaves_bind {A B} (m : M client A) (k : A → M client B) F c (Q : outcome B → client → Prop) :
  wp m (leaves F) c → (∀ e c', holds pid F (cl_s c') → Q (Fail e) c') → (∀ e c', Q (Exit e) c') → (∀ c', Q Undef c') →
  (∀ a c', holds pid F (cl_s c') → wp (k a) Q c') → wp (bind m k) Q c.
Proof.
  intros Hm HF HE HU HQ. apply wp_bind. eapply wp_mono; [exact Hm|]. intros [] c' Hc'; auto.
Qed.

Lemma wp_leaves_attempt {A B} (m : M client A) (k : A + Z → M client B) F c (Q : outcome B → client → Prop) :
  wp m (leaves F) c → (∀ e c', Q (Exit e) c') → (∀ c', Q Undef c') →
  (∀ a c', holds pid F (cl_s c') → wp (k a) Q c') → wp (bind (attempt m) k) Q c.
Proof.
  intros Hm HE HU HQ. apply wp_bind, wp_attempt. eapply wp_mono; [exact Hm|]. intros [] c' Hc'; auto.
Qed.

(** Calls of the process alone leave everything. *)
Lemma leaves_os {A} (m : M os A) F c : holds pid F (cl_s c) → wp (on_os m) (leaves F) c.
Proof. intros Hc. apply wp_os_any. by intros [] o. Qed.

Lemma leaves_world {A} (m : M world A) F c : holds pid F (cl_s c) → wp (on_world m) (leaves F) c.
Proof. apply leaves_os. Qed.

Lemma leaves_bind {A B} (m : M client A) (k : A → M client B) F c :
  wp m (leaves F) c → (∀ a c', holds pid F (cl_s c') → wp (k a) (leaves F) c') → wp (bind m k) (leaves F) c.
Proof. intros Hm HQ. by eapply wp_leaves_bind. Qed.

Lemma leaves_attempt {A B} (m : M client A) (k : A + Z → M client B) F c :
  wp m (leaves F) c → (∀ r c', holds pid F (cl_s c') → wp (k r) (leaves F) c') → wp (bind (attempt m) k) (leaves F) c.
Proof. intros Hm HQ. by eapply wp_leaves_attempt. Qed.

Lemma leaves_ret {A} (a : A) F c : holds pid F (cl_s c) → wp (ret a) (leaves F) c.
Proof. intros Hc. by apply wp_ret. Qed.

Lemma leaves_throw {A} (o : outcome A) F c : holds pid F (cl_s c) → wp (throw o) (leaves F) c.
Proof. intros Hc. apply wp_throw. by destruct o. Qed.

Lemma leaves_gets {A} (f : client → A) F c : holds pid F (cl_s c) → wp (gets f) (leaves F) c.
Proof. intros Hc. by apply wp_gets. Qed.

Lemma leaves_modify f F c : (∀ c, cl_s (f c) = cl_s c) → holds pid F (cl_s c) → wp (modify f) (leaves F) c.
Proof. intros Hf Hc. apply wp_modify. simpl. by rewrite Hf. Qed.

Lemma leaves_ignore {A} (m : M client A) F c : wp m (leaves F) c → wp (ignore m) (leaves F) c.
Proof. intros Hm. apply leaves_attempt; [done|]. intros. by apply leaves_ret. Qed.

Lemma leaves_keeps {A} (m : M sched A) F c : keeps m → holds pid F (cl_s c) → wp (on_sched m) (leaves F) c.
Proof. intros Hm Hc. apply wp_zoom. by eapply keeps_wp. Qed.
End client.

Create HintDb leaves.
#[local] Hint Resolve leaves_os leaves_world leaves_bind leaves_attempt leaves_ret leaves_throw leaves_gets
  leaves_ignore leaves_keeps : leaves.
#[local] Hint Extern 1 (wp fail _ _) => apply leaves_throw : leaves.
#[local] Hint Extern 1 (wp (fail _) _ _) => apply leaves_throw : leaves.
#[local] Hint Extern 1 (wp (exit_ _) _ _) => apply leaves_throw : leaves.
#[local] Hint Extern 1 (wp ub _ _) => apply leaves_throw : leaves.
#[local] Hint Extern 1 (wp (modify _) _ _) => apply leaves_modify; [done|] : leaves.

(** Work through a part of the job that touches no lock. *)
Ltac leave :=
  repeat first
    [ progress intros
    | apply leaves_ret; assumption
    | apply leaves_throw; assumption
    | apply leaves_os; assumption
    | apply leaves_world; assumption
    | apply leaves_gets; assumption
    | apply leaves_modify; [reflexivity|assumption]
    | lazymatch goal with
      | |- wp (bind (attempt _) _) _ _ => apply leaves_attempt
      | |- wp (bind _ _) _ _ => apply leaves_bind
      | |- wp (ignore _) _ _ => apply leaves_ignore
      | |- wp (match _ with _ => _ end) _ _ => case_match
      end ].

Section job.
Context {Cfg : Config} {LZO : Lzo} {Progs : Programs} {NAMES : Names} {AUTH : Authn}.
Context (cwd : option cstr) (email : option nat).
Context (hostlist : outcome (list dcc_hostdef)) (local_slots local_cpp_slots : Z).
Context (file_times : cstr → option (Z * Z)) (fnmatch : cstr → cstr → bool) (fuel pid : nat).

(** *** The parts that touch no lock *)

Lemma leaves_max F c : holds pid F (cl_s c) → wp dcc_get_max_discrepancies_before_demotion (leaves pid F) c.
Proof. unfold dcc_get_max_discrepancies_before_demotion. leave. Qed.

Lemma leaves_deps n size ex t s F c : holds pid F (cl_s c) →
  wp (deps_loop file_times fnmatch n size ex t s) (leaves pid F) c.
Proof.
  revert s c. induction n as [|n IH]; intros s c Hc; cbn [deps_loop]; [by apply leaves_throw|]. leave; auto.
Qed.

Lemma leaves_investigation deps disc F c : holds pid F (cl_s c) →
  wp (dcc_please_send_email_after_investigation file_times fnmatch deps disc) (leaves pid F) c.
Proof.
  unfold dcc_please_send_email_after_investigation, dcc_fresh_dependency_exists, dcc_note_discrepancy,
    dcc_please_send_email. leave; by first [apply leaves_deps|apply leaves_max].
Qed.

Lemma leaves_local argv F c : holds pid F (cl_s c) → wp (dcc_compile_local argv) (leaves pid F) c.
Proof. unfold dcc_compile_local, note_end. leave. Qed.

(** *** The labels of [dcc_build_somewhere] *)

Lemma held_cpu b F s : holds pid (held b) s → F = fds_of (b_local b) → holds pid (fds_of (b_cpu b) ∪ F) s.
Proof. intros H ->. done. Qed.

Lemma unlock_both (b : bvars) (k : M client (option Z)) Q c :
  holds pid (held b) (cl_s c) → (∀ c', holds pid ∅ (cl_s c') → wp k Q c') →
  wp (do! unlock_opt (b_cpu b); do! unlock_opt (b_local b); k) Q c.
Proof.
  intros Hc HQ. eapply wp_unlock_opt; [exact Hc|]. intros c1 Hc1.
  eapply (wp_unlock_opt pid _ _ _ _ ∅); [|done]. by rewrite (right_id_L ∅ (∪)).
Qed.

Lemma clean_up_released b r c : holds pid (held b) (cl_s c) → wp (unlock_and_clean_up b r) (released pid) c.
Proof. intros Hc. unfold unlock_and_clean_up. apply unlock_both; [done|]. intros c' Hc'. by apply wp_ret. Qed.

(** What a label is entered after: a part that leaves the locks of [b]. *)
Lemma then_released {A} (m : M client A) (k : A → M client (option Z)) F c :
  wp m (leaves pid F) c → nofail m →
  (∀ a c', holds pid F (cl_s c') → wp (k a) (released pid) c') → wp (bind m k) (released pid) c.
Proof.
  intros Hm Hn HQ. apply wp_bind. unfold wp in *. specialize (Hn c).
  destruct (m c) as [[] c1]; simpl in *; try done. by apply HQ.
Qed.

Lemma then_released_attempt {A} (m : M client A) (k : A + Z → M client (option Z)) F c :
  wp m (leaves pid F) c →
  (∀ a c', holds pid F (cl_s c') → wp (k a) (released pid) c') → wp (bind (attempt m) k) (released pid) c.
Proof. intros Hm HQ. by eapply wp_leaves_attempt. Qed.

Lemma nofail_ignore {A} (m : M client A) : nofail (ignore m).
Proof. apply nofail_bind; [apply nofail_attempt|done]. Qed.

Lemma then_released_ignore {A} (m : M client A) (k : M client (option Z)) F c :
  wp m (leaves pid F) c → (∀ c', holds pid F (cl_s c') → wp k (released pid) c') →
  wp (do! ignore m; k) (released pid) c.
Proof. intros Hm HQ. eapply then_released; [by apply leaves_ignore|apply nofail_ignore|auto]. Qed.

Lemma run_local_released b c :
  holds pid (held b) (cl_s c) → wp (run_local file_times fnmatch b) (released pid) c.
Proof.
  intros Hc. unfold run_local. eapply then_released.
  { unfold code_of. leave. by apply (leaves_local (b_argv b) (held b)). }
  { apply nofail_bind; [apply nofail_attempt|]. intros. apply nofail_ret. }
  intros r c2 Hc2. eapply (then_released _ _ (held b)).
  - case_match; [by apply leaves_ret|]. case_match; [by apply leaves_ignore, leaves_investigation|].
    case_match; [|by apply leaves_ret]. by apply leaves_ignore, leaves_keeps; [apply keeps_enjoyed|].
  - repeat case_match; apply nofail_ret || apply nofail_ignore.
  - intros _ c3 Hc3. by apply clean_up_released.
Qed.

Lemma size_fds fd : size (fds_of fd) ≤ 1.
Proof. unfold fds_of. destruct fd; [rewrite size_singleton|rewrite size_empty]; lia. Qed.

Lemma lock_local_released b c :
  holds pid ∅ (cl_s c) → b_cpu b = None → b_local b = None →
  wp (lock_local local_slots file_times fnmatch fuel b) (released pid) c.
Proof.
  intros Hc Hcpu Hloc. unfold lock_local. apply wp_bind, wp_attempt, wp_zoom.
  eapply wp_mono; [by apply lock_local_locked|]. intros [[fd|]|e| |] s' Hs'; try done.
  - apply run_local_released. unfold held. simpl. rewrite Hloc. exact Hs'.
  - apply wp_ret. exists ∅. rewrite size_empty. auto.
  - apply run_local_released. unfold held. by rewrite Hcpu, Hloc.
Qed.

Lemma fallback_released b r c :
  holds pid (held b) (cl_s c) →
  wp (fallback local_slots file_times fnmatch fuel b r) (released pid) c.
Proof.
  intros Hc. unfold fallback. eapply (then_released _ _ (held b)).
  { case_match; [by apply leaves_ignore, leaves_keeps; [apply keeps_disliked|]|by apply leaves_ret]. }
  { case_match; apply nofail_ret || apply nofail_ignore. }
  intros _ c1 Hc1. apply unlock_both; [done|]. intros c2 Hc2.
  eapply (wp_world_bind pid); [apply nofail_getenv_bool|done..|]. intros z c3 Hc3.
  case_match; [|by apply lock_local_released].
  eapply (then_released _ _ ∅); [case_match; [by apply leaves_ignore, leaves_world|by apply leaves_ret]|..].
  - case_match; apply nofail_ret || apply nofail_ignore.
  - intros _ c4 Hc4. by apply wp_ret.
Qed.

(** [dcc_compile_remote] gives back the local slot. *)
Lemma remote_out_leaves net fd r F c :
  holds pid (fds_of fd ∪ F) (cl_s c) → wp (remote_out net fd r) (leaves pid F) c.
Proof.
  intros Hc. unfold remote_out. eapply wp_unlock_opt; [done|]. intros c1 Hc1.
  apply leaves_bind; [|leave]. leave.
Qed.

Lemma remote_out_none net r F c : holds pid F (cl_s c) → wp (remote_out net None r) (leaves pid F) c.
Proof. intros Hc. apply remote_out_leaves. simpl. by rewrite (left_id_L ∅ (∪)). Qed.

(** One call of [dcc_compile_remote] and what follows it. *)
Ltac call :=
  lazymatch goal with
  | |- wp (bind (attempt (on_world ?m)) _) _ _ => eapply (wp_os_attempt pid (on_w m)); [eassumption|done|done|]
  | |- wp (bind (attempt (on_os _)) _) _ _ => eapply (wp_os_attempt pid); [eassumption|done|done|]
  | |- wp (bind (on_world (dcc_note_state _)) _) _ _ =>
      eapply (wp_world_bind pid); [apply nofail_modify|eassumption|done|done|]
  | |- wp ub _ _ => by apply wp_throw
  | |- wp (match ?r with _ => _ end) _ _ => destruct r
  end; intros.

Lemma results_then from out deps err host G F c (k : Z + Z → M client Z) :
  holds pid G (cl_s c) → (∀ r c', holds pid G (cl_s c') → wp (k r) (leaves pid F) c') →
  wp (bind (remote_results email from out deps err host) k) (leaves pid F) c.
Proof.
  intros Hc HQ. apply wp_bind. unfold remote_results. call.
  apply wp_bind, wp_gets, wp_bind, wp_attempt. eapply wp_mono; [by apply (leaves_world pid _ G)|].
  intros [] c2 Hc2; try done; apply wp_bind; first [apply wp_modify|apply wp_ret]; apply wp_ret; by apply HQ.
Qed.

Lemma remote_leaves argv cpp files out deps err cpp_pid fd host F c :
  holds pid (fds_of fd ∪ F) (cl_s c) →
  wp (dcc_compile_remote cwd email argv cpp files out deps err cpp_pid fd host) (leaves pid F) c.
Proof.
  intros Hc. unfold dcc_compile_remote.
  repeat first
    [ call
    | by apply remote_out_leaves
    | by apply remote_out_none
    | apply wp_bind; unfold note_end; apply wp_modify
    | eapply results_then; [eassumption|]; intros
    | eapply wp_unlock_opt; [eassumption|]; intros ].
Qed.

(** *** Distribution *)

Lemma after_remote_released b host err status c :
  holds pid (held b) (cl_s c) → b_local b = None →
  wp (after_remote local_slots file_times fnmatch fuel b host err status) (released pid) c.
Proof.
  intros Hc Hloc. unfold after_remote.
  eapply (then_released_ignore _ _ (held b)); [by apply leaves_keeps; [apply keeps_enjoyed|]|]. intros c1 Hc1.
  eapply (wp_unlock_opt pid _ _ _ _ ∅); [unfold held in Hc1; by rewrite Hloc in Hc1|]. intros c2 Hc2.
  assert (∀ b' r c', b_cpu b' = None → b_local b' = None → holds pid ∅ (cl_s c') →
    wp (fallback local_slots file_times fnmatch fuel b' r) (released pid) c') as Hfb.
  { intros b' r c' H1 H2 Hc'. apply fallback_released. unfold held. by rewrite H1, H2. }
  case_match; [|case_match; [|by apply Hfb]].
  - eapply then_released_attempt; [by apply leaves_world|]. intros r c3 Hc3.
    case_match; [by apply wp_ret|by apply Hfb].
  - eapply (wp_world_bind pid); [apply nofail_gets|done..|]. intros z c3 Hc3. case_match; [|by apply Hfb].
    eapply then_released_attempt; [by apply leaves_world|]. intros r c4 Hc4.
    case_match; [by apply wp_ret|by apply Hfb].
Qed.

Lemma compile_on_released b host err out argv cpp files deps cpp_pid c :
  holds pid (held b) (cl_s c) →
  wp (compile_on cwd email local_slots file_times fnmatch fuel b host err out argv cpp files deps cpp_pid)
    (released pid) c.
Proof.
  intros Hc. unfold compile_on. eapply then_released_attempt.
  { apply (remote_leaves _ _ _ _ _ _ _ _ _ (fds_of (b_cpu b))). unfold held in Hc.
    by rewrite (comm_L (∪)). }
  assert (fds_of (b_cpu b) = held (set_b_local None b)) as EF by (unfold held; simpl; by rewrite (right_id_L ∅ (∪))).
  intros [status|e] c1 Hc1; rewrite EF in Hc1; [|by apply fallback_released].
  by apply after_remote_released.
Qed.

Lemma dotd_loop_nofail a st e : dotd_loop a st ≠ Fail e.
Proof.
  revert st. induction a as [a IH] using (induction_ltof1 _ (@length _)). unfold ltof in IH.
  intros st. destruct a as [|[] rest]; try done. cbn [dotd_loop].
  repeat case_match; try done; subst; apply IH; simpl; lia.
Qed.

Lemma nofail_dotd argv : nofail (dotd_info_or_partial argv).
Proof.
  unfold dotd_info_or_partial. apply nofail_bind; [apply nofail_gets|]. intros env.
  apply nofail_bind; [apply nofail_attempt|]. intros []; [apply nofail_ret|].
  apply nofail_bind; [|intros; apply nofail_ret]. intros s. simpl.
  case_match; try done. by eapply dotd_loop_nofail.
Qed.

Lemma distribute_released b host inp out err files c :
  holds pid (held b) (cl_s c) →
  wp (distribute cwd email local_slots file_times fnmatch fuel b host inp out err files) (released pid) c.
Proof.
  intros Hc. unfold distribute. case_match.
  - eapply then_released_attempt; [by apply leaves_os|]. intros r c1 Hc1.
    case_match; [|by apply fallback_released]. case_match.
    eapply then_released_attempt; [by apply leaves_world|]. intros r' c2 Hc2.
    case_match; [by apply compile_on_released|by apply fallback_released].
  - eapply (wp_world_bind pid); [apply nofail_dotd|done..|]. intros [[[deps needs] sets] target] c1 Hc1.
    eapply then_released_attempt; [by apply leaves_world|]. intros r' c2 Hc2.
    case_match; [by apply compile_on_released|by apply fallback_released].
Qed.

Lemma nofail_on_world {A} (m : M world A) : nofail m → nofail (on_world m).
Proof.
  intros Hm c. unfold on_world, on_os, zoom. pose proof (nofail_on_w m Hm (cl_os c)).
  by destruct (on_w m (cl_os c)) as [[] ?].
Qed.

Lemma nofail_adjust inp host disc : nofail (dcc_perhaps_adjust_cpp_where_and_protover inp host disc).
Proof.
  unfold dcc_perhaps_adjust_cpp_where_and_protover.
  apply nofail_bind.
  { apply nofail_on_world. unfold dcc_read_number_discrepancies. case_match; [|done].
    apply nofail_bind; [apply nofail_stat|]. by intros []. }
  intros n. apply nofail_bind.
  { unfold dcc_get_max_discrepancies_before_demotion. apply nofail_bind; [apply nofail_gets|]. intros z.
    case_match; [done|]. apply nofail_bind; [by apply nofail_on_world|]. intros []; [|done]. by case_match. }
  intros max. do 3 (apply nofail_bind; [by apply nofail_on_world|]; intros ?). done.
Qed.

Lemma leaves_adjust inp host disc F c : holds pid F (cl_s c) →
  wp (dcc_perhaps_adjust_cpp_where_and_protover inp host disc) (leaves pid F) c.
Proof. unfold dcc_perhaps_adjust_cpp_where_and_protover. leave. by apply leaves_max. Qed.

Lemma build_remote_released scan b host inp out err c :
  holds pid (held b) (cl_s c) → b_local b = None →
  wp (build_remote cwd email local_slots local_cpp_slots file_times fnmatch fuel scan b host inp out err)
    (released pid) c.
Proof.
  intros Hc Hloc. unfold build_remote.
  assert (held b = fds_of (b_cpu b)) as Eh by (unfold held; rewrite Hloc; apply (right_id_L ∅ (∪))).
  apply wp_bind, wp_attempt, wp_zoom.
  eapply wp_mono; [by apply lock_local_cpp_locked|]. intros [[fd|]|e| |] s' Hs'; try done.
  2: { apply wp_ret. exists (held b). rewrite Eh at 1. split; [apply size_fds|done]. }
  2: { by apply fallback_released. }
  assert (holds pid (held (set_b_local (Some fd) b)) s') as Hs1.
  { rewrite Eh in Hs'. unfold held. simpl. by rewrite (comm_L (∪)). }
  eapply (then_released _ _ _).
  { case_match; [by apply leaves_ret|by apply leaves_adjust]. }
  { case_match; [apply nofail_ret|apply nofail_adjust]. }
  intros host' c1 Hc1. case_match.
  { eapply then_released_attempt; [by apply leaves_os|]. intros r c2 Hc2. by apply clean_up_released. }
  case_match; [by apply distribute_released|].
  eapply then_released_attempt; [by apply leaves_os|]. intros [files|e] c2 Hc2.
  - eapply (wp_unlock_opt pid _ _ _ _ (fds_of (b_cpu b))).
    { unfold held in Hc2. simpl in *. by rewrite (comm_L (∪)). }
    intros c3 Hc3. apply distribute_released. unfold held. simpl. by rewrite (right_id_L ∅ (∪)).
  - eapply (wp_world_bind pid); [apply nofail_getenv_bool|done..|]. intros z c3 Hc3.
    case_match; [by apply wp_throw|by apply distribute_released].
Qed.

(** C5. No job leaks a lock.  When no system call of the lock code fails and
    the other processes leave this process's locks alone, a run of
    [dcc_build_somewhere] that starts without locks ends without locks, on
    every path (fallbacks, failed servers, exhausted memory, retries); a run
    that is still waiting for a slot holds at most one lock, that on the
    chosen server; and it never returns by an error that skips the cleaning
    up. *)
Theorem build_releases_locks scan argv sg_level c :
  holds pid ∅ (cl_s c) →
  wp (dcc_build_somewhere cwd email hostlist local_slots local_cpp_slots file_times fnmatch fuel scan argv sg_level)
    (released pid) c.
Proof.
  intros Hc. unfold dcc_build_somewhere.
  assert (∀ b, b_cpu b = None → b_local b = None → held b = ∅) as Hno.
  { intros b H1 H2. unfold held. rewrite H1, H2. apply (right_id_L ∅ (∪)). }
  eapply then_released_attempt; [by apply leaves_world|]. intros [argv'|e] c1 Hc1; [|by apply wp_ret].
  eapply then_released_attempt; [by apply leaves_world|]. intros [disc|e] c2 Hc2; [|by apply wp_ret].
  case_match; [by apply run_local_released; rewrite Hno|].
  eapply then_released_attempt; [by apply leaves_world|]. intros [sc|e] c3 Hc3; [|by apply wp_throw].
  case_match; [by apply lock_local_released|].
  destruct (sc_input sc) as [inp|], (sc_output sc) as [out|]; try by apply wp_throw.
  eapply then_released_attempt; [by apply leaves_os|]. intros [err|e] c4 Hc4;
    [|by apply fallback_released; rewrite Hno].
  apply wp_bind, wp_attempt, wp_zoom. eapply wp_mono; [by apply pick_host_locked|].
  intros [[[host fd]|]|e| |] s' Hs'; try done.
  - assert (∀ d e a i ds, holds pid (held (BVars a i ds d e (Some host) (Some fd) None 0)) s') as Hb by done.
    destruct (mode host) as [[]|]; first [by apply run_local_released|by apply build_remote_released].
  - apply wp_ret. exists ∅. rewrite size_empty. auto.
  - by apply fallback_released; rewrite Hno.
Qed.
End job.

Lemma build_releases_locks_witness :
  (ex_build [ex_refusal]).1 = Ok (Some 0%Z) ∧ wp ex_run (released 1) (ex_job [ex_refusal]).
Proof. split; [vm_compute; reflexivity|]. unfold ex_run. apply build_releases_locks. by split. Defined.
