(* ===== verification/Codes.v ===== *)
(** * Error codes

    A call that fails returns a code that is not 0: callers all over the code
    test it with [if (ret)]; and a call that ends the program does so with a
    status that is not 0.  [coded I m]: this holds of [m] in every state that
    satisfies [I], and [m] keeps [I]. *)

From S2P Require Import Prelude CLib Util Filename Argv Arg ArgExpand Strip World Io Rpc Tempfile Bulk Results.
From S2P Require Import Hosts Lock Dotd Request Text Exec Net PumpMode Build.

Definition nonzero {A} (o : outcome A) : Prop := o ≠ Fail 0 ∧ o ≠ Exit 0.

Definition coded {S A} (I : S → Prop) (m : M S A) : Prop := ∀ s, I s → I (m s).2 ∧ nonzero (m s).1.

(** An outcome passed on at another type. *)
Lemma nonzero_fail {A B} c : nonzero (Fail (A := A) c) → nonzero (Fail (A := B) c).
Proof. intros [H _]. split; congruence. Qed.
Lemma nonzero_exit {A B} c : nonzero (Exit (A := A) c) → nonzero (Exit (A := B) c).
Proof. intros [_ H]. split; congruence. Qed.
Lemma nonzero_code {A} c : nonzero (Fail (A := A) c) → c ≠ 0%Z.
Proof. intros [H _] ->. done. Qed.
Lemma nonzero_ok {A} (a : A) : nonzero (Ok a).
Proof. done. Qed.
Lemma nonzero_undef {A} : nonzero (Undef (A := A)).
Proof. done. Qed.
#[export] Hint Resolve nonzero_fail nonzero_exit nonzero_ok nonzero_undef : core.

Definition always {S} (s : S) : Prop := True.

Section coded.
Context {S : Type} (I : S → Prop).

Lemma coded_ret {A} (a : A) : coded I (ret a).
Proof. done. Qed.

Lemma coded_throw {A} (o : outcome A) : nonzero o → coded I (throw o).
Proof. done. Qed.

Lemma coded_gets {A} (f : S → A) : coded I (gets f).
Proof. done. Qed.

Lemma coded_modify (f : S → S) : (∀ s, I s → I (f s)) → coded I (modify f).
Proof. intros Hf s Hs. split; [by apply Hf|done]. Qed.

Lemma coded_bind {A B} (m : M S A) (k : A → M S B) : coded I m → (∀ a, coded I (k a)) → coded I (bind m k).
Proof.
  intros Hm Hk s Hs. destruct (Hm s Hs) as [H1 H2]. unfold bind.
  destruct (m s) as [[] s1]; simpl in *; [by apply Hk|split; eauto..].
Qed.

(** The code of a call that failed may be passed on. *)
Lemma coded_attempt {A B} (m : M S A) (k : A + Z → M S B) :
  coded I m → (∀ a, coded I (k (inl a))) → (∀ e, e ≠ 0%Z → coded I (k (inr e))) → coded I (bind (attempt m) k).
Proof.
  intros Hm Hk He s Hs. destruct (Hm s Hs) as [H1 H2]. unfold bind, attempt.
  destruct (m s) as [[] s1]; simpl in *; [by apply Hk|apply He; [by eapply nonzero_code|done]|split; eauto..].
Qed.

Lemma coded_attempt_alone {A} (m : M S A) : coded I m → coded I (attempt m).
Proof.
  intros Hm s Hs. destruct (Hm s Hs) as [H1 H2]. unfold attempt.
  destruct (m s) as [[] s1]; simpl in *; split; eauto.
Qed.
End coded.

Lemma coded_zoom {S T A} (get : T → S) (put : S → T → T) (m : M S A) : coded always m → coded always (zoom get put m).
Proof. intros Hm t _. split; [done|]. destruct (Hm (get t)) as [_ H]; [done|]. unfold zoom. by destruct (m (get t)). Qed.

(** The children on record stay on record. *)
Definition logged (L : list proc_ev) (o : os) : Prop := L ⊆ os_log o.

Lemma coded_on_w {A} L (m : M world A) : coded always m → coded (logged L) (on_w m).
Proof.
  intros Hm o Ho. destruct (Hm (os_w o)) as [_ H]; [done|]. unfold on_w, zoom. by destruct (m (os_w o)).
Qed.

Lemma coded_nofail {S A} (m : M S A) : (∀ s, ∃ a s', m s = (Ok a, s')) → coded always m.
Proof. intros Hm s _. split; [done|]. by destruct (Hm s) as (a & s' & ->). Qed.

Lemma coded_malloc {S} `{MemState S} : coded always malloc.
Proof. apply coded_nofail. intros s. unfold malloc. destruct (get_mem s); eauto. Qed.

Lemma coded_malloc_or {S} `{MemState S} e : e ≠ 0%Z → coded always (malloc_or e).
Proof. intros He. apply coded_bind; [apply coded_malloc|]. intros []; [done|]. apply coded_throw. split; congruence. Qed.

(** ** The system calls *)

Create HintDb coded.

Ltac call_ok := apply coded_nofail; intros; repeat (case_match || eauto).

Lemma coded_read fd n : coded always (sys_read fd n).
Proof. unfold sys_read. call_ok. Qed.
Lemma coded_write fd buf : coded always (sys_write fd buf).
Proof. unfold sys_write. call_ok. Qed.
Lemma coded_sendfile o i n s : coded always (sys_sendfile o i n s).
Proof. unfold sys_sendfile. call_ok. Qed.
Lemma coded_add_fd d : coded always (add_fd d).
Proof. unfold add_fd. call_ok. Qed.
Lemma coded_next_fs : coded always next_fs.
Proof. unfold next_fs. call_ok. Qed.
Lemma coded_fs_call {A} (m : M world (A + errno)) : coded always m → coded always (fs_call m).
Proof. intros Hm. unfold fs_call. apply coded_bind; [apply coded_next_fs|]. by intros []. Qed.
#[export] Hint Resolve coded_read coded_write coded_sendfile coded_add_fd coded_next_fs : coded.

(** Work through a computation; fixpoints and known calls come from the hints. *)
Ltac coded :=
  repeat first
    [ progress intros
    | apply coded_ret
    | apply coded_gets
    | by auto 2 with coded
    | lazymatch goal with
      | |- coded _ (throw _) => apply coded_throw; split; congruence
      | |- coded _ (fail _) => apply coded_throw; split; congruence
      | |- coded _ (exit_ _) => apply coded_throw; split; congruence
      | |- coded _ ub => apply coded_throw; split; congruence
      | |- coded _ (modify _) => apply coded_modify; done
      | |- coded _ (malloc_or _) => apply coded_malloc_or; done
      | |- coded _ malloc => apply coded_malloc
      | |- coded _ (bind (attempt _) _) => apply coded_attempt
      | |- coded _ (bind _ _) => apply coded_bind
      | |- coded _ (attempt _) => apply coded_attempt_alone
      | |- coded _ (zoom _ _ _) => apply coded_zoom
      | |- coded _ (fs_call _) => apply coded_fs_call
      | |- coded _ (on_w _) => apply coded_on_w
      | |- coded _ (match _ with _ => _ end) => case_match
      | |- coded _ (let _ := _ in _) => cbv zeta
      | |- coded _ (match _ with _ => _ end _) => case_match
      end ].

Lemma coded_open_read p : coded always (sys_open_read p).
Proof. unfold sys_open_read. coded. Qed.
Lemma coded_open_trunc p : coded always (sys_open_trunc p).
Proof. unfold sys_open_trunc. coded. Qed.
Lemma coded_open_excl p : coded always (sys_open_excl p).
Proof. unfold sys_open_excl. coded. Qed.
Lemma coded_open_append p : coded always (sys_open_append p).
Proof. unfold sys_open_append. coded. Qed.
Lemma coded_access_dir p : coded always (sys_access_dir p).
Proof. unfold sys_access_dir. coded. Qed.
Lemma coded_fstat fd : coded always (sys_fstat fd).
Proof. unfold sys_fstat. coded. Qed.
Lemma coded_stat p : coded always (sys_stat p).
Proof. unfold sys_stat. coded. Qed.
Lemma coded_unlink p : coded always (sys_unlink p).
Proof. unfold sys_unlink. coded. Qed.
Lemma coded_mkdir p : coded always (sys_mkdir p).
Proof. unfold sys_mkdir. coded. Qed.
Lemma coded_rmdir p : coded always (sys_rmdir p).
Proof. unfold sys_rmdir. coded. Qed.
Lemma coded_symlink t p : coded always (sys_symlink t p).
Proof. unfold sys_symlink. coded. Qed.
Lemma coded_readlink p n : coded always (sys_readlink p n).
Proof. unfold sys_readlink. coded. Qed.
Lemma coded_close fd : coded always (sys_close fd).
Proof. unfold sys_close. coded. Qed.
Lemma coded_lookup_file p : coded always (lookup_file p).
Proof. unfold lookup_file. coded. Qed.
Lemma coded_getenv n : coded always (getenv n).
Proof. unfold getenv. coded. Qed.
Lemma coded_modify_core f : coded always (modify_core f).
Proof. unfold modify_core. coded. Qed.
Lemma coded_getenv_bool n d : coded always (dcc_getenv_bool n d).
Proof. unfold dcc_getenv_bool. coded. Qed.
#[export] Hint Resolve coded_open_read coded_open_trunc coded_open_excl coded_open_append coded_access_dir coded_fstat coded_stat coded_unlink coded_mkdir coded_rmdir coded_symlink coded_readlink coded_close coded_lookup_file coded_getenv coded_modify_core coded_getenv_bool : coded.

(** A loop with as much fuel as the state says. *)
Lemma coded_fuel {S A} (I : S → Prop) (m : nat → M S A) (f : S → nat) :
  (∀ n, coded I (m n)) → coded I (λ s, m (f s) s).
Proof. intros Hm s Hs. by apply Hm. Qed.

(** A loop by induction on its fuel or list. *)
Tactic Notation "loop" reference(f) hyp(n) :=
  let IH := fresh "IH" in induction n as [|? IH]; intros; cbn [f]; coded.

(** ** Moving bytes *)

Lemma coded_io_timeout : coded always dcc_get_io_timeout.
Proof. intros w _. split; [done|]. unfold dcc_get_io_timeout. by repeat case_match. Qed.

Lemma select_loop_coded l : nonzero (select_loop l).1.
Proof. induction l as [|[| |[]] l IH]; done. Qed.

Lemma coded_select_read fd t : coded always (dcc_select_for_read fd t).
Proof. intros w _. split; [done|]. unfold dcc_select_for_read. pose proof (select_loop_coded (w_sel w)). by case_match. Qed.
Lemma coded_select_write fd t : coded always (dcc_select_for_write fd t).
Proof. intros w _. split; [done|]. unfold dcc_select_for_write. pose proof (select_loop_coded (w_sel w)). by case_match. Qed.
#[export] Hint Resolve coded_io_timeout coded_select_read coded_select_write : coded.

Lemma coded_readx_loop n fd len : coded always (readx_loop n fd len).
Proof. revert len. loop readx_loop n. Qed.
Lemma coded_readx fd len : coded always (dcc_readx fd len).
Proof. apply (coded_fuel always (λ n, readx_loop n fd len)). intros. apply coded_readx_loop. Qed.
Lemma coded_writex_loop n fd buf : coded always (writex_loop n fd buf).
Proof. revert buf. loop writex_loop n. Qed.
Lemma coded_writex fd buf : coded always (dcc_writex fd buf).
Proof. apply (coded_fuel always (λ n, writex_loop n fd buf)). intros. apply coded_writex_loop. Qed.
Lemma coded_dcc_close fd : coded always (dcc_close fd).
Proof. unfold dcc_close. coded. Qed.
Lemma coded_pump_write n fd buf : coded always (pump_write n fd buf).
Proof. revert buf. loop pump_write n. Qed.
Lemma coded_pump_loop n ofd ifd len : coded always (pump_loop n ofd ifd len).
Proof.
  revert len. loop pump_loop n.
  all: apply (coded_fuel always (λ n, pump_write n ofd _)); intros; apply coded_pump_write.
Qed.
Lemma coded_pump_readwrite ofd ifd len : coded always (dcc_pump_readwrite ofd ifd len).
Proof. apply (coded_fuel always (λ n, pump_loop n ofd ifd len)). intros. apply coded_pump_loop. Qed.
#[export] Hint Resolve coded_readx coded_writex coded_dcc_close coded_pump_readwrite : coded.
Lemma coded_sendfile_loop n ofd ifd off len : coded always (sendfile_loop n ofd ifd off len).
Proof. revert off len. loop sendfile_loop n. Qed.
Lemma coded_pump_sendfile ofd ifd len : coded always (dcc_pump_sendfile ofd ifd len).
Proof. apply (coded_fuel always (λ n, sendfile_loop n ofd ifd 0 len)). intros. apply coded_sendfile_loop. Qed.
#[export] Hint Resolve coded_pump_sendfile : coded.

(** ** Argument vectors *)

Section vectors.
Context {St : Type} {MS : MemState St} {Cfg : Config}.

Lemma coded_argv_len a : coded (always (S := St)) (dcc_argv_len a).
Proof. loop dcc_argv_len a. Qed.
Hint Resolve coded_argv_len : coded.
Lemma coded_copy_elems a l : coded (always (S := St)) (copy_elems a l).
Proof. revert l. loop copy_elems a. Qed.
Hint Resolve coded_copy_elems : coded.
Lemma coded_copy_argv a d : coded (always (S := St)) (dcc_copy_argv a d).
Proof. unfold dcc_copy_argv. coded. Qed.
Hint Resolve coded_copy_argv : coded.
Lemma coded_store a n v : coded (always (S := St)) (store a n v).
Proof. unfold store. coded. Qed.
Hint Resolve coded_store : coded.
Lemma coded_argv_append a v : coded (always (S := St)) (dcc_argv_append a v).
Proof. unfold dcc_argv_append. coded. Qed.
Hint Resolve coded_argv_append : coded.
Lemma coded_argv_strings a : coded (always (S := St)) (argv_strings a).
Proof. loop argv_strings a. Qed.
Hint Resolve coded_argv_strings : coded.
Lemma coded_count_loop n opt : coded (always (S := St)) (count_loop n opt).
Proof. revert opt. loop count_loop n. Qed.
Hint Resolve coded_count_loop : coded.
Lemma coded_count_extra_args opt : coded (always (S := St)) (count_extra_args opt).
Proof. unfold count_extra_args. coded. Qed.
Hint Resolve coded_count_extra_args : coded.
Lemma coded_put_dup a n s : coded (always (S := St)) (put_dup a n s).
Proof. unfold put_dup. coded. Qed.
Hint Resolve coded_put_dup : coded.
Lemma coded_copy_loop n d p o : coded (always (S := St)) (copy_loop n d p o).
Proof. revert d p o. loop copy_loop n. Qed.
Hint Resolve coded_copy_loop : coded.
Lemma coded_copy_extra_args d n o e : coded (always (S := St)) (copy_extra_args d n o e).
Proof. unfold copy_extra_args. coded. Qed.
Hint Resolve coded_copy_extra_args : coded.
Lemma coded_blit_or_ub d n v : coded (always (S := St)) (blit_or_ub d n v).
Proof. unfold blit_or_ub. coded. Qed.
Hint Resolve coded_blit_or_ub : coded.
Lemma coded_expand_loop n a i c : coded (always (S := St)) (expand_loop n a i c).
Proof. revert a i c. loop expand_loop n. Qed.
Hint Resolve coded_expand_loop : coded.
Lemma coded_expand_preprocessor_options a : coded (always (S := St)) (dcc_expand_preprocessor_options a).
Proof. unfold dcc_expand_preprocessor_options. coded. Qed.
Hint Resolve coded_expand_preprocessor_options : coded.
Lemma coded_strip_loop a : coded (always (S := St)) (strip_loop a).
Proof. induction a as [a IH] using (induction_ltof1 _ (@length _)); unfold ltof in IH. destruct a as [|[] a]; cbn [strip_loop]; coded; subst; apply IH; simpl; lia. Qed.
Hint Resolve coded_strip_loop : coded.
Lemma coded_strip_local_args a : coded (always (S := St)) (dcc_strip_local_args a).
Proof. unfold dcc_strip_local_args. coded. Qed.
Hint Resolve coded_strip_local_args : coded.
Lemma coded_dasho_loop a : coded (always (S := St)) (dasho_loop a).
Proof. induction a as [a IH] using (induction_ltof1 _ (@length _)); unfold ltof in IH. destruct a as [|[] a]; cbn [dasho_loop]; coded; subst; apply IH; simpl; lia. Qed.
Hint Resolve coded_dasho_loop : coded.
Lemma coded_strip_dasho a : coded (always (S := St)) (dcc_strip_dasho a).
Proof. unfold dcc_strip_dasho. coded. Qed.
Hint Resolve coded_strip_dasho : coded.
Lemma coded_set_action_loop a c : coded (always (S := St)) (set_action_loop a c).
Proof. loop set_action_loop a. Qed.
Hint Resolve coded_set_action_loop : coded.
Lemma coded_set_action_opt a c : coded (always (S := St)) (dcc_set_action_opt a c).
Proof. unfold dcc_set_action_opt. coded. Qed.
Hint Resolve coded_set_action_opt : coded.
Lemma coded_tokenize_loop n a p i : coded (always (S := St)) (tokenize_loop n a p i).
Proof. revert a p i. loop tokenize_loop n. Qed.
Hint Resolve coded_tokenize_loop : coded.
Lemma coded_tokenize_string s : coded (always (S := St)) (dcc_tokenize_string s).
Proof. unfold dcc_tokenize_string. coded. Qed.
Lemma coded_output_from_source s o : coded (always (S := St)) (dcc_output_from_source s o).
Proof. unfold dcc_output_from_source, dcc_set_file_extension. coded. Qed.
Hint Resolve coded_output_from_source : coded.
Lemma coded_scan_finish a st : coded (always (S := St)) (scan_finish a st).
Proof. unfold scan_finish. coded. Qed.
Hint Resolve coded_scan_finish : coded.
Lemma coded_scan_args_full a : coded (always (S := St)) (dcc_scan_args_full a).
Proof. unfold dcc_scan_args_full. coded. Qed.
End vectors.
#[export] Hint Resolve coded_tokenize_string coded_scan_args_full : coded.
#[export] Hint Resolve coded_argv_len coded_copy_elems coded_copy_argv coded_store coded_argv_append coded_argv_strings coded_count_loop coded_count_extra_args coded_put_dup coded_copy_loop coded_copy_extra_args coded_blit_or_ub coded_expand_loop coded_expand_preprocessor_options coded_strip_loop coded_strip_local_args coded_dasho_loop coded_strip_dasho coded_set_action_loop coded_set_action_opt : coded.

(** ** The wire format *)

Lemma coded_x_token_int fd t p : coded always (dcc_x_token_int fd t p).
Proof. unfold dcc_x_token_int. coded. Qed.
#[export] Hint Resolve coded_x_token_int : coded.
Lemma coded_r_token fd : coded always (dcc_r_token fd).
Proof. unfold dcc_r_token. coded. Qed.
#[export] Hint Resolve coded_r_token : coded.
Lemma coded_explain_mismatch a b c : coded always (dcc_explain_mismatch a b c).
Proof. unfold dcc_explain_mismatch. coded. Qed.
#[export] Hint Resolve coded_explain_mismatch : coded.
Lemma coded_r_token_int fd t : coded always (dcc_r_token_int fd t).
Proof. unfold dcc_r_token_int. coded. Qed.
#[export] Hint Resolve coded_r_token_int : coded.
Lemma coded_r_sometoken_int fd : coded always (dcc_r_sometoken_int fd).
Proof. unfold dcc_r_sometoken_int. coded. Qed.
#[export] Hint Resolve coded_r_sometoken_int : coded.
Lemma coded_r_str_alloc fd l : coded always (dcc_r_str_alloc fd l).
Proof. unfold dcc_r_str_alloc. coded. Qed.
#[export] Hint Resolve coded_r_str_alloc : coded.
Lemma coded_x_token_string fd t b : coded always (dcc_x_token_string fd t b).
Proof. unfold dcc_x_token_string. coded. Qed.
#[export] Hint Resolve coded_x_token_string : coded.
Lemma coded_r_token_string fd t : coded always (dcc_r_token_string fd t).
Proof. unfold dcc_r_token_string. coded. Qed.
#[export] Hint Resolve coded_r_token_string : coded.
Lemma coded_r_argv_loop n fd t : coded always (r_argv_loop n fd t).
Proof. loop r_argv_loop n. Qed.
#[export] Hint Resolve coded_r_argv_loop : coded.
Lemma coded_r_argv fd s t : coded always (dcc_r_argv fd s t).
Proof. unfold dcc_r_argv. coded. Qed.
#[export] Hint Resolve coded_r_argv : coded.
Lemma coded_x_argv_loop fd t argv n : coded always (x_argv_loop fd t argv n).
Proof. revert n. loop x_argv_loop argv. Qed.
#[export] Hint Resolve coded_x_argv_loop : coded.
Lemma coded_x_argv fd s t argv : coded always (dcc_x_argv fd s t argv).
Proof. unfold dcc_x_argv. coded. Qed.
#[export] Hint Resolve coded_x_argv : coded.
Lemma coded_x_req_header fd v : coded always (dcc_x_req_header fd v).
Proof. unfold dcc_x_req_header. coded. Qed.
#[export] Hint Resolve coded_x_req_header : coded.
Lemma coded_x_cwd cwd fd : coded always (dcc_x_cwd cwd fd).
Proof. unfold dcc_x_cwd. coded. Qed.
#[export] Hint Resolve coded_x_cwd : coded.
Lemma coded_r_result_header fd v : coded always (dcc_r_result_header fd v).
Proof. unfold dcc_r_result_header. coded. Qed.
#[export] Hint Resolve coded_r_result_header : coded.
Lemma coded_r_cc_status fd : coded always (dcc_r_cc_status fd).
Proof. unfold dcc_r_cc_status. coded. Qed.
#[export] Hint Resolve coded_r_cc_status : coded.

(** ** Files *)

Lemma coded_add_cleanup f : coded always (dcc_add_cleanup f).
Proof. unfold dcc_add_cleanup. coded. Qed.
#[export] Hint Resolve coded_add_cleanup : coded.
Lemma coded_mk_tmpdir p : coded always (dcc_mk_tmpdir p).
Proof. unfold dcc_mk_tmpdir. coded. Qed.
#[export] Hint Resolve coded_mk_tmpdir : coded.
Lemma coded_get_tmp_top : coded always dcc_get_tmp_top.
Proof. unfold dcc_get_tmp_top. coded. Qed.
#[export] Hint Resolve coded_get_tmp_top : coded.
Lemma coded_ancestors_loop copy i n : coded always (ancestors_loop copy i n).
Proof. revert i. loop ancestors_loop n. Qed.
#[export] Hint Resolve coded_ancestors_loop : coded.
Lemma coded_mk_tmp_ancestor_dirs p : coded always (dcc_mk_tmp_ancestor_dirs p).
Proof. unfold dcc_mk_tmp_ancestor_dirs. coded. Qed.
#[export] Hint Resolve coded_mk_tmp_ancestor_dirs : coded.
Lemma coded_tmpnam_loop n t p s r : coded always (tmpnam_loop n t p s r).
Proof. revert r. loop tmpnam_loop n. Qed.
#[export] Hint Resolve coded_tmpnam_loop : coded.
Lemma coded_make_tmpnam pid sec usec p s : coded always (dcc_make_tmpnam pid sec usec p s).
Proof.
  unfold dcc_make_tmpnam. intros w Hw. generalize (S (length (w_fs w) + size (c_files (w_core w)))). intros n.
  lazymatch goal with |- always (?m w).2 ∧ _ => assert (coded always m) as H by coded end. by apply H.
Qed.
#[export] Hint Resolve coded_make_tmpnam : coded.
Section files.
Context {Cfg : Config} {LZO : Lzo}.

Lemma coded_compress_lzo1x_alloc b : coded always (dcc_compress_lzo1x_alloc b).
Proof. unfold dcc_compress_lzo1x_alloc. coded. Qed.
Hint Resolve coded_compress_lzo1x_alloc : coded.
Lemma coded_compress_file_lzo1x fd n : coded always (dcc_compress_file_lzo1x fd n).
Proof. unfold dcc_compress_file_lzo1x. coded. Qed.
Hint Resolve coded_compress_file_lzo1x : coded.
Lemma coded_decompress_loop n fd b s : coded always (decompress_loop n fd b s).
Proof. revert s. loop decompress_loop n. Qed.
Hint Resolve coded_decompress_loop : coded.
Lemma coded_r_bulk_lzo1x o i n : coded always (dcc_r_bulk_lzo1x o i n).
Proof. unfold dcc_r_bulk_lzo1x. coded. Qed.
Hint Resolve coded_r_bulk_lzo1x : coded.
Lemma coded_r_bulk o i n z : coded always (dcc_r_bulk o i n z).
Proof. unfold dcc_r_bulk. coded. Qed.
Hint Resolve coded_r_bulk : coded.
Lemma coded_dcc_open_read f : coded always (dcc_open_read f).
Proof. unfold dcc_open_read. coded. Qed.
Hint Resolve coded_dcc_open_read : coded.
Lemma coded_x_file_lzo1x o i t n : coded always (dcc_x_file_lzo1x o i t n).
Proof. unfold dcc_x_file_lzo1x. coded. Qed.
Hint Resolve coded_x_file_lzo1x : coded.
Lemma coded_x_file o f t z : coded always (dcc_x_file o f t z).
Proof. unfold dcc_x_file. coded. Qed.
Hint Resolve coded_x_file : coded.
Lemma coded_r_file i f n z : coded always (dcc_r_file i f n z).
Proof. unfold dcc_r_file. coded. Qed.
Hint Resolve coded_r_file : coded.
Lemma coded_r_file_timed i f n z : coded always (dcc_r_file_timed i f n z).
Proof. unfold dcc_r_file_timed. coded. Qed.
Hint Resolve coded_r_file_timed : coded.
Lemma coded_copy_file_to_fd f o : coded always (dcc_copy_file_to_fd f o).
Proof. unfold dcc_copy_file_to_fd. coded. Qed.
Hint Resolve coded_copy_file_to_fd : coded.
Lemma coded_write_all fd s : coded always (write_all fd s).
Proof. unfold write_all. coded. Qed.
Hint Resolve coded_write_all : coded.
Lemma coded_add_file_to_log_email em d f : coded always (dcc_add_file_to_log_email em d f).
Proof. unfold dcc_add_file_to_log_email. coded. Qed.
Hint Resolve coded_add_file_to_log_email : coded.
Lemma coded_note_state ph : coded always (dcc_note_state ph).
Proof. unfold dcc_note_state. coded. Qed.
Hint Resolve coded_note_state : coded.
Lemma coded_retrieve_results em n o d e v z w : coded always (dcc_retrieve_results em n o d e v z w).
Proof. unfold dcc_retrieve_results. coded. Qed.
Hint Resolve coded_retrieve_results : coded.
Lemma coded_send_header cwd n a h : coded always (dcc_send_header cwd n a h).
Proof. unfold dcc_send_header. coded. Qed.
Hint Resolve coded_send_header : coded.
Lemma coded_read_link f : coded always (dcc_read_link f).
Proof. unfold dcc_read_link. coded. Qed.
Hint Resolve coded_read_link : coded.
Lemma coded_is_link f : coded always (dcc_is_link f).
Proof. unfold dcc_is_link. coded. Qed.
Hint Resolve coded_is_link : coded.
Lemma coded_get_original_fname f : coded always (dcc_get_original_fname (St := world) f).
Proof.
  unfold dcc_get_original_fname. coded. apply coded_throw. generalize INCLUDE_SERVER_DIR_DEPTH. intros n.
  revert f. induction n as [|n IH]; intros f; simpl; [done|]. repeat case_match; auto. by split.
Qed.
Hint Resolve coded_get_original_fname : coded.
Lemma coded_x_one_file o f : coded always (x_one_file o f).
Proof. unfold x_one_file. coded. Qed.
Hint Resolve coded_x_one_file : coded.
Lemma coded_x_files_loop o a : coded always (x_files_loop o a).
Proof. loop x_files_loop a. Qed.
Hint Resolve coded_x_files_loop : coded.
Lemma coded_x_many_files o n a : coded always (dcc_x_many_files o n a).
Proof. unfold dcc_x_many_files. coded. Qed.
Hint Resolve coded_x_many_files : coded.
Lemma coded_append_dup a s : coded always (append_dup a s).
Proof. unfold append_dup. coded. Qed.
Hint Resolve coded_append_dup : coded.
Lemma coded_server_side_cpp_argv a n s t o : coded always (server_side_cpp_argv a n s t o).
Proof. unfold server_side_cpp_argv. coded. Qed.
Hint Resolve coded_server_side_cpp_argv : coded.
Lemma coded_discrepancy_filename : coded always dcc_discrepancy_filename.
Proof. unfold dcc_discrepancy_filename. coded. Qed.
Hint Resolve coded_discrepancy_filename : coded.
End files.
#[export] Hint Resolve coded_compress_lzo1x_alloc coded_compress_file_lzo1x coded_decompress_loop coded_r_bulk_lzo1x coded_r_bulk coded_dcc_open_read coded_x_file_lzo1x coded_x_file coded_r_file coded_r_file_timed coded_copy_file_to_fd coded_write_all coded_add_file_to_log_email coded_note_state coded_retrieve_results coded_send_header coded_read_link coded_is_link coded_get_original_fname coded_x_one_file coded_x_files_loop coded_x_many_files coded_append_dup coded_server_side_cpp_argv coded_discrepancy_filename : coded.

(** ** Processes and connections *)

Section processes.
Context {Cfg : Config} {LZO : Lzo} {Progs : Programs} {NAMES : Names} (L : list proc_ev).

Lemma coded_fork : coded (logged L) sys_fork.
Proof. intros o Ho. unfold sys_fork. by destruct (os_fork o). Qed.
Hint Resolve coded_fork : coded.

Lemma coded_fork_child ch : coded (logged L) (fork_child ch).
Proof. unfold fork_child. coded. apply coded_modify. unfold logged. simpl. set_solver. Qed.
Hint Resolve coded_fork_child : coded.

Lemma coded_spawn_child a i o e : coded (logged L) (dcc_spawn_child a i o e).
Proof. unfold dcc_spawn_child. coded. Qed.

Lemma coded_clock : coded (logged L) sys_clock.
Proof. intros o Ho. unfold sys_clock. by destruct (os_clock o). Qed.

Lemma coded_os_tmpnam p s : coded (logged L) (make_tmpnam p s).
Proof. unfold make_tmpnam. coded. apply coded_clock. Qed.

Lemma coded_wait4 pid b : coded (logged L) (sys_wait4 pid b).
Proof.
  intros o Ho. apply (wp_wait4 pid b (λ r o', logged L o' ∧ nonzero r)); unfold logged.
  - intros o1 _ _ -> _. split; [set_solver|done].
  - by intros o1 (_ & _ & ->).
  - by intros o1 _ (_ & _ & ->).
  - intros st ch o1 _ -> _ _ _. split; [set_solver|done].
Qed.

Lemma coded_select_1s : coded always select_1s.
Proof. unfold select_1s. call_ok. Qed.

Hint Resolve coded_spawn_child coded_clock coded_os_tmpnam coded_wait4 coded_select_1s : coded.

Lemma coded_kill pid : coded (logged L) (sys_kill pid).
Proof. unfold sys_kill. coded. Qed.
Hint Resolve coded_kill : coded.

Lemma coded_collect_loop n pid fd l t : coded (logged L) (collect_loop n pid fd l t).
Proof. revert t. loop collect_loop n. Qed.
Lemma coded_collect_child l pid fd : coded (logged L) (dcc_collect_child l pid fd).
Proof. apply (coded_fuel (logged L) (λ n, collect_loop n pid fd l l)). intros. apply coded_collect_loop. Qed.
Hint Resolve coded_collect_child : coded.

Lemma coded_next_conn : coded (logged L) next_conn.
Proof. intros o Ho. unfold next_conn. by destruct (os_conn o). Qed.
Lemma coded_next_so : coded (logged L) next_so.
Proof. intros o Ho. unfold next_so. by destruct (os_so o). Qed.
Lemma coded_attach fd : coded (logged L) (attach fd).
Proof. intros o Ho. unfold attach. by repeat case_match. Qed.
Lemma coded_socket : coded always sys_socket.
Proof. unfold sys_socket. coded. Qed.
Lemma coded_fd_pair : coded always fd_pair.
Proof. unfold fd_pair. coded. Qed.
Hint Resolve coded_next_conn coded_next_so coded_attach coded_socket coded_fd_pair : coded.

Lemma coded_connect_loop n t : coded (logged L) (connect_loop n t).
Proof. revert t. loop connect_loop n. Qed.
Lemma coded_so_loop n fd : coded (logged L) (so_loop n fd).
Proof. loop so_loop n. Qed.
Hint Resolve coded_connect_loop coded_so_loop : coded.
Lemma coded_connect_by_addr sa : coded (logged L) (dcc_connect_by_addr sa).
Proof. unfold dcc_connect_by_addr. coded. Qed.
Hint Resolve coded_connect_by_addr : coded.
Lemma coded_try_addrs l : coded (logged L) (try_addrs l).
Proof. loop try_addrs l. Qed.
Hint Resolve coded_try_addrs : coded.
Lemma coded_connect_by_name h p : coded (logged L) (dcc_connect_by_name h p).
Proof. unfold dcc_connect_by_name. coded. Qed.
Lemma coded_run_piped_cmd a : coded (logged L) (dcc_run_piped_cmd a).
Proof. unfold dcc_run_piped_cmd. coded. Qed.
Hint Resolve coded_connect_by_name coded_run_piped_cmd : coded.
Lemma coded_ssh_connect u m p : coded (logged L) (dcc_ssh_connect u m p).
Proof. unfold dcc_ssh_connect. coded. Qed.
Hint Resolve coded_ssh_connect : coded.
Lemma coded_remote_connect h : coded (logged L) (dcc_remote_connect h).
Proof. unfold dcc_remote_connect. coded. Qed.
Hint Resolve coded_remote_connect : coded.
Lemma coded_wait_for_cpp pid : coded (logged L) (dcc_wait_for_cpp pid).
Proof. unfold dcc_wait_for_cpp. coded. Qed.
Hint Resolve coded_wait_for_cpp : coded.
End processes.

#[export] Hint Resolve coded_spawn_child coded_os_tmpnam coded_collect_child coded_connect_by_addr
  coded_remote_connect coded_wait_for_cpp : coded.

(** ** Locks *)

(** The only code that comes from outside: that of a missing lock directory. *)
Definition dir_coded (s : sched) : Prop := p_lock_dir (s_pr s) ≠ inr 0%Z.

Section locks.

Lemma coded_lock_malloc e : e ≠ 0%Z → coded dir_coded (malloc_or e).
Proof.
  intros He s Hs. unfold malloc_or, bind, malloc. simpl.
  destruct (p_mem (s_pr s)) as [|[] l]; simpl; split; try done; split; congruence.
Qed.

Lemma coded_sys_fault : coded dir_coded sys_fault.
Proof. intros s Hs. unfold sys_fault. by destruct (p_sys (s_pr s)). Qed.

Lemma coded_mod_sh f : coded dir_coded (mod_sh f).
Proof. by apply coded_modify. Qed.

Lemma coded_mod_pr f : (∀ p, p_lock_dir (f p) = p_lock_dir p) → coded dir_coded (mod_pr f).
Proof. intros Hf. apply coded_modify. intros s Hs. unfold dir_coded. simpl. by rewrite Hf. Qed.

Lemma coded_make_lock_filename l h i : coded dir_coded (dcc_make_lock_filename l h i).
Proof.
  intros s Hs. unfold dcc_make_lock_filename, bind, gets. destruct (p_lock_dir (s_pr s)) as [d|e] eqn:Ed.
  - destruct (lock_name d l h i); [|done]. revert s Hs Ed. intros s Hs _. revert s Hs.
    apply (coded_bind dir_coded); [by apply coded_lock_malloc|done].
  - split; [done|]. unfold dir_coded in Hs. simpl. split; congruence.
Qed.

Hint Resolve coded_sys_fault coded_mod_sh coded_make_lock_filename : coded.
Hint Extern 1 (coded _ (mod_pr _)) => by apply coded_mod_pr : coded.

Lemma coded_open_creat f : coded dir_coded (open_creat f).
Proof. unfold open_creat. coded. Qed.
Lemma coded_close_lock fd : coded dir_coded (close_lock fd).
Proof. unfold close_lock. coded. Qed.
Lemma coded_sys_lock fd : coded dir_coded (sys_lock fd).
Proof. unfold sys_lock. coded. Qed.
Lemma coded_touch fd : coded dir_coded (touch fd).
Proof. unfold touch. coded. Qed.
Lemma coded_lock_pause : coded dir_coded dcc_lock_pause.
Proof. intros s Hs. unfold dcc_lock_pause. by destruct (p_others (s_pr s)). Qed.
Hint Resolve coded_open_creat coded_close_lock coded_sys_lock coded_touch coded_lock_pause : coded.

Lemma coded_open_lockfile f : coded dir_coded (dcc_open_lockfile f).
Proof. unfold dcc_open_lockfile. coded. Qed.
Lemma coded_unlock fd : coded dir_coded (dcc_unlock fd).
Proof. unfold dcc_unlock. coded. Qed.
Lemma coded_note_slot i l : coded dir_coded (dcc_note_state_slot i l).
Proof. by apply coded_mod_pr. Qed.
Hint Resolve coded_open_lockfile coded_unlock coded_note_slot : coded.

Lemma coded_lock_host l h i : coded dir_coded (dcc_lock_host l h i).
Proof. unfold dcc_lock_host. coded. Qed.
Hint Resolve coded_lock_host : coded.
Lemma coded_lock_hosts i l : coded dir_coded (lock_hosts i l).
Proof. loop lock_hosts l. Qed.
Hint Resolve coded_lock_hosts : coded.
Lemma coded_lock_slots n i l : coded dir_coded (lock_slots n i l).
Proof. revert i. loop lock_slots n. Qed.
Hint Resolve coded_lock_slots : coded.
Lemma coded_lock_one n l : coded dir_coded (dcc_lock_one n l).
Proof. loop dcc_lock_one n. Qed.
Hint Resolve coded_lock_one : coded.
Lemma coded_lock_local n z : coded dir_coded (dcc_lock_local n z).
Proof. unfold dcc_lock_local. coded. Qed.
Lemma coded_lock_local_cpp n z : coded dir_coded (dcc_lock_local_cpp n z).
Proof. unfold dcc_lock_local_cpp. coded. Qed.

Lemma coded_remove_timefile l h : coded dir_coded (dcc_remove_timefile l h).
Proof. unfold dcc_remove_timefile. coded. Qed.
Lemma coded_mark_timefile l h : coded dir_coded (dcc_mark_timefile l h).
Proof. unfold dcc_mark_timefile. coded. Qed.
Lemma coded_check_timefile l h : coded dir_coded (dcc_check_timefile l h).
Proof. unfold dcc_check_timefile. coded. Qed.
Hint Resolve coded_remove_timefile coded_mark_timefile coded_check_timefile : coded.
Lemma coded_enjoyed h : coded dir_coded (dcc_enjoyed_host h).
Proof. unfold dcc_enjoyed_host, backoff_env. coded. Qed.
Lemma coded_disliked h : coded dir_coded (dcc_disliked_host h).
Proof. unfold dcc_disliked_host, backoff_env. coded. Qed.
Lemma coded_check_backoff h : coded dir_coded (dcc_check_backoff h).
Proof. unfold dcc_check_backoff. coded. Qed.
Hint Resolve coded_check_backoff : coded.
Lemma coded_remove_loop l : coded dir_coded (remove_loop l).
Proof. loop remove_loop l. Qed.
Hint Resolve coded_remove_loop : coded.
Lemma coded_remove_disliked l : coded dir_coded (dcc_remove_disliked l).
Proof. unfold dcc_remove_disliked, backoff_env. coded. Qed.
Hint Resolve coded_remove_disliked : coded.
Lemma coded_pick_host n l : l ≠ Fail 0 → coded dir_coded (dcc_pick_host_from_list_and_lock_it n l).
Proof. intros Hl. unfold dcc_pick_host_from_list_and_lock_it. coded. Qed.
End locks.

#[export] Hint Resolve coded_unlock coded_lock_local coded_lock_local_cpp coded_enjoyed coded_disliked : coded.
