(* ===== verification/BuildResult.v ===== *)
(** * What the code of a job means

    [dcc_build_somewhere] reports success exactly when the last compiler it
    ran, here or on a server, succeeded; a job that ran no compiler fails.
    [proven] says what there must be to show for a compiler that ran. *)

From S2P Require Import Prelude CLib Util Argv Arg ArgExpand Strip World Io Rpc Tempfile Bulk Results.
From S2P Require Import Hosts Lock Dotd Request Text Exec Net PumpMode Build BuildLocks Codes.

(** The bytes of an answer say that the compiler of the server ended with this
    wait status: a result header, and then the status in eight hexadecimal
    digits. *)
Definition carries (answer : cstr) (status : Z) : Prop :=
  ∃ version digits rest, length version = 8 ∧ length digits = 8 ∧
    answer = "DONE"%cs ++ version ++ "STAT"%cs ++ digits ++ rest ∧ status = s32 (u32 (strtoul 16 digits).1).

(** What there is to show for a compilation: the answer of the server; or a
    child that the kernel has on record ([log]) as collected with this status,
    with the descriptors of this process and a command line [P]; or a child that
    failed. *)
Definition proven (P : cvec → Prop) (log : list proc_ev) (e : job_end) : Prop :=
  match e with
  | RemoteDone answer status => carries answer status
  | LocalDone status => ∃ argv, P argv ∧ Reaped (Child argv None None None) status ∈ log
  | CppFailed status => status ≠ 0%Z ∧ ∃ ch, Reaped ch status ∈ log
  end.

(** The local compiler could not be started, or not be waited for: the kernel
    refused, and this is the code for it. *)
Definition not_run (P : cvec → Prop) (log : list proc_ev) (r : Z) : Prop :=
  ∃ argv, P argv ∧ let ch := Child argv None None None in
    (NoFork ch ∈ log ∧ r = EXIT_OUT_OF_MEMORY ∨ NoWait (Some ch) ∈ log ∧ r = EXIT_DISTCC_FAILED).

Definition status_of (e : job_end) : Z :=
  match e with RemoteDone _ status | LocalDone status | CppFailed status => status end.

(** The code that goes with the compilations of a job, latest first. *)
Definition verdict (ends : list job_end) (r : Z) : Prop :=
  match ends with
  | [] => r ≠ 0%Z
  | e :: _ => r = dcc_critique_status (status_of e)
  end.

(** Nothing was tried, or one server. *)
Definition before_local (ends : list job_end) : Prop :=
  match ends with [] | [RemoteDone _ _] | [CppFailed _] => True | _ => False end.

(** A job is tried at most once on a server, and then at most once here. *)
Definition one_try (ends : list job_end) : Prop :=
  match ends with
  | [] | [_] | [LocalDone _; RemoteDone _ _] | [LocalDone _; CppFailed _] => True
  | _ => False
  end.

(** The job ended with this code: that of the last compiler, or that of a local
    compiler that could not be run. *)
Definition reported (P : cvec → Prop) (log : list proc_ev) (ends : list job_end) (r : Z) : Prop :=
  Forall (proven P log) ends ∧ one_try ends ∧
  (verdict ends r ∨ not_run P log r ∧ before_local ends).

Definition log_of (c : client) : list proc_ev := os_log (cl_os c).

Definition judged (P : cvec → Prop) (o : outcome (option Z)) (c : client) : Prop :=
  match o with
  | Ok (Some r) => reported P (log_of c) (cl_ends c) r
  | Ok None => Forall (proven P (log_of c)) (cl_ends c) ∧ one_try (cl_ends c)
  | Fail _ => False
  | Exit e => e ≠ 0%Z
  | Undef => True
  end.

Lemma proven_mono P log log' e : log ⊆ log' → proven P log e → proven P log' e.
Proof.
  intros Hl. destruct e as [answer st|st|st]; simpl; [done|..].
  - intros (argv & HP & Hin). exists argv. split; [done|by apply Hl].
  - intros [Hst [ch Hin]]. split; [done|]. exists ch. by apply Hl.
Qed.

Lemma not_run_mono P log log' r : log ⊆ log' → not_run P log r → not_run P log' r.
Proof. intros Hl (argv & HP & Hr). exists argv. split; [done|]. set_solver. Qed.

Section parts.
Context (P : cvec → Prop).

(** The compilations so far are [E], and they are no fiction; [F] are the codes
    of local compilers that could not be run. *)
Record cinv (F : list Z) (E : list job_end) (c : client) : Prop := {
  cinv_dir : dir_coded (cl_s c);
  cinv_ends : cl_ends c = E;
  cinv_proven : Forall (proven P (log_of c)) E;
  cinv_not_run : Forall (not_run P (log_of c)) F
}.

Context (F : list Z) (E : list job_end).

Lemma cinv_grows c o : cinv F E c → log_of c ⊆ os_log o → cinv F E (set_cl_os o c).
Proof.
  intros [H1 H2 H3 H4] Hl. split; [done..|eapply Forall_impl; [exact H3|]|eapply Forall_impl; [exact H4|]]; intros e He;
    [by eapply proven_mono|by eapply not_run_mono].
Qed.

Lemma coded_on_os {A} (m : M os A) : (∀ L, coded (logged L) m) → coded (cinv F E) (on_os m).
Proof.
  intros Hm c Hc. destruct (Hm (log_of c) (cl_os c)) as [Hl H]; [by intros x|]. unfold on_os, zoom.
  destruct (m (cl_os c)) as [r o]. split; [by apply cinv_grows|done].
Qed.

Lemma coded_on_world {A} (m : M world A) : coded always m → coded (cinv F E) (on_world m).
Proof. intros Hm. apply coded_on_os. intros L. by apply coded_on_w. Qed.

Lemma coded_on_sched {A} (m : M sched A) : coded dir_coded m → coded (cinv F E) (on_sched m).
Proof.
  intros Hm c [H1 H2 H0 H]. destruct (Hm (cl_s c) H1) as [H3 H4]. unfold on_sched, zoom.
  by destruct (m (cl_s c)).
Qed.

Lemma coded_keep_job (f : client → client) :
  (∀ c, cl_s (f c) = cl_s c ∧ cl_ends (f c) = cl_ends c ∧ cl_os (f c) = cl_os c) → coded (cinv F E) (modify f).
Proof.
  intros Hf. apply coded_modify. intros c [H1 H2 H3 H4]. destruct (Hf c) as (E1 & E2 & E3).
  split; unfold log_of; by rewrite ?E1, ?E2, ?E3.
Qed.

Lemma coded_ignore {A} (m : M client A) : coded (cinv F E) m → coded (cinv F E) (ignore m).
Proof. intros Hm. unfold ignore. by apply coded_attempt. Qed.

Lemma wp_note_end e c (Q : outcome unit → client → Prop) :
  cinv F E c → proven P (log_of c) e → (∀ c', cinv F (e :: E) c' → Q (Ok ()) c') → wp (note_end e) Q c.
Proof.
  intros [H1 H2 H3 H4] He HQ. apply wp_modify, HQ. split; [done|simpl; by rewrite H2|by constructor|done].
Qed.
End parts.

#[local] Hint Extern 1 (coded (cinv _ _ _) (modify _)) => by apply coded_keep_job : coded.
#[local] Hint Extern 1 (coded _ (on_os _)) => apply coded_on_os; coded : coded.
#[local] Hint Extern 1 (coded _ (on_world _)) => apply coded_on_world; coded : coded.
#[local] Hint Extern 1 (coded _ (on_sched _)) => apply coded_on_sched; coded : coded.
#[local] Hint Extern 1 (coded _ (ignore _)) => apply coded_ignore; coded : coded.

(** ** The answer of a server *)

(** If [m] returns at all it returns [v]. *)
Definition returns {S A} (v : A) (m : M S A) : Prop := ∀ s a, (m s).1 = Ok a → a = v.

Lemma returns_bind {S A B} v (m : M S A) (k : A → M S B) : (∀ a, returns v (k a)) → returns v (bind m k).
Proof. intros Hk s b. unfold bind. destruct (m s) as [[a|c|c|] s1]; [apply Hk|done..]. Qed.

Lemma returns_ret {S A} (v : A) : returns (S := S) v (ret v).
Proof. by intros s a [= <-]. Qed.

(** A status that [dcc_retrieve_results] returns was in the answer, whatever
    the kernel did to the connection. *)
Lemma retrieve_carries {Cfg : Config} {LZO : Lzo} email fd out deps err v z cw w :
  wp (dcc_retrieve_results email fd out deps err v z cw)
     (λ o _, ∀ status, o = Ok status → carries (stream fd w) status) w.
Proof.
  unfold dcc_retrieve_results, dcc_r_result_header. apply wp_bind, wp_bind.
  eapply wp_mono; [apply r_token_int_total|]. intros [ver|c|c|] w1 H1; [|done..]. apply wp_ret.
  destruct H1 as (_ & d1 & Hl1 & Hs1 & _). apply wp_bind, wp_modify.
  set (w2 := set_core (set_phase DCC_PHASE_RECEIVE (w_core w1)) w1).
  unfold dcc_r_cc_status. apply wp_bind, wp_bind. eapply wp_mono; [apply r_token_int_total|].
  intros [st|c|c|] w3 H2; [|done..]. destruct H2 as (_ & d2 & Hl2 & Hs2 & ->). apply wp_ret.
  assert (carries (stream fd w) (s32 (u32 (strtoul 16 d2).1))) as Hc.
  { exists d1, d2, (stream fd w3). split_and!; [done..| |done]. rewrite Hs1.
    by change (stream fd w1) with (stream fd w2); rewrite Hs2. }
  match goal with |- wp ?m _ _ => assert (returns (s32 (u32 (strtoul 16 d2).1)) m) as Hm end.
  { repeat first [apply returns_ret | apply returns_bind; intros ? | case_match]. }
  intros status Hr. by rewrite (Hm w3 status Hr).
Qed.

Section job.
Context {Cfg : Config} {LZO : Lzo} {Progs : Programs} {NAMES : Names} {AUTH : Authn}.
Context (cwd : option cstr) (email : option nat).
Context (hostlist : outcome (list dcc_hostdef)) (local_slots local_cpp_slots : Z).
Context (file_times : cstr → option (Z * Z)) (fnmatch : cstr → cstr → bool) (fuel : nat).
Context (P : cvec → Prop).

Lemma coded_unlock_opt F E fd : coded (cinv P F E) (unlock_opt fd).
Proof. unfold unlock_opt. coded. Qed.
#[local] Hint Resolve coded_unlock_opt : coded.

Lemma coded_get_max F E : coded (cinv P F E) dcc_get_max_discrepancies_before_demotion.
Proof. unfold dcc_get_max_discrepancies_before_demotion. coded. Qed.
#[local] Hint Resolve coded_get_max : coded.

Lemma coded_deps F E n size ex t s : coded (cinv P F E) (deps_loop file_times fnmatch n size ex t s).
Proof. revert s. loop deps_loop n. Qed.
#[local] Hint Resolve coded_deps : coded.

Lemma coded_investigation F E deps disc :
  coded (cinv P F E) (dcc_please_send_email_after_investigation file_times fnmatch deps disc).
Proof.
  unfold dcc_please_send_email_after_investigation, dcc_fresh_dependency_exists, dcc_note_discrepancy,
    dcc_please_send_email. coded.
Qed.

(** ** The labels *)

(** A part before a label. *)
Lemma wp_coded {A B} (m : M client A) (k : A + Z → M client B) (Q : outcome B → client → Prop) F E c :
  coded (cinv P F E) m → cinv P F E c → (∀ e c', e ≠ 0%Z → Q (Exit e) c') → (∀ c', Q Undef c') →
  (∀ a c', cinv P F E c' → wp (k (inl a)) Q c') → (∀ e c', e ≠ 0%Z → cinv P F E c' → wp (k (inr e)) Q c') →
  wp (bind (attempt m) k) Q c.
Proof.
  intros Hm Hc HE HU HO HF. apply wp_bind, wp_attempt. unfold wp at 1. destruct (Hm c Hc) as [H1 H2].
  destruct (m c) as [[] c1]; simpl in *; auto; destruct H2; [apply HF; [congruence|done]|apply HE; congruence].
Qed.

Lemma wp_coded_ok {A B} (m : M client A) (k : A → M client B) (Q : outcome B → client → Prop) F E c :
  coded (cinv P F E) m → nofail m → cinv P F E c → (∀ e c', e ≠ 0%Z → Q (Exit e) c') → (∀ c', Q Undef c') →
  (∀ a c', cinv P F E c' → wp (k a) Q c') → wp (bind m k) Q c.
Proof.
  intros Hm Hn Hc HE HU HO. apply wp_bind. unfold wp at 1. destruct (Hm c Hc) as [H1 [_ H2]]. specialize (Hn c).
  destruct (m c) as [[] c1]; simpl in *; [auto|done|apply HE; congruence|done].
Qed.

Lemma nofail_unlock_opt fd : nofail (unlock_opt fd).
Proof. destruct fd; [apply nofail_ignore|done]. Qed.
#[local] Hint Resolve nofail_ignore nofail_unlock_opt nofail_ret : coded.

(** ** One compilation *)

(** A compilation that was noted with its status, or none and a code. *)
Definition tried (ok : job_end → Z → Prop) (E : list job_end) (o : outcome Z) (c : client) : Prop :=
  match o with
  | Ok r => ∃ e, ok e r ∧ cinv P [] (e :: E) c
  | Fail e => e ≠ 0%Z ∧ cinv P [] E c
  | Exit e => e ≠ 0%Z
  | Undef => True
  end.

Definition away (e : job_end) (status : Z) : Prop := (∃ answer, e = RemoteDone answer status) ∨ e = CppFailed status.

(** The local compiler ran, or the kernel refused. *)
Definition tried_here (E : list job_end) (o : outcome Z) (c : client) : Prop :=
  match o with
  | Ok r => ∃ status, r = dcc_critique_status status ∧ cinv P [] (LocalDone status :: E) c
  | Fail e => not_run P (log_of c) e ∧ cinv P [] E c
  | Exit e => e ≠ 0%Z
  | Undef => True
  end.

Lemma fork_child_wp ch o :
  wp (fork_child ch)
     (λ r o', (∃ pid, r = Ok (Some pid) ∧ os_children o' !! pid = Some ch ∧ os_log o' = os_log o) ∨
              (r = Ok None ∧ os_log o' = NoFork ch :: os_log o)) o.
Proof.
  unfold wp, fork_child, bind, sys_fork. destruct (os_fork o) as [|[] l]; simpl; [left|left|by right];
    eexists; (split_and!; [done|apply lookup_insert_eq|done]).
Qed.

Lemma compile_local_tried E argv c :
  cinv P [] E c → P argv → wp (dcc_compile_local argv) (tried_here E) c.
Proof.
  intros Hc HP. unfold dcc_compile_local. eapply wp_coded_ok; [auto with coded|done|done|done|done|].
  clear c Hc. intros _ c Hc. apply wp_bind, wp_zoom, wp_bind. eapply wp_mono; [apply fork_child_wp|].
  intros r o [(pid & -> & Hpid & Hl)|[-> Hl]].
  2: { apply wp_throw. split.
       - exists argv. split; [done|]. left. unfold log_of. simpl. rewrite Hl. split; [set_solver|done].
       - apply cinv_grows; [done|]. rewrite Hl. set_solver. }
  apply wp_ret, wp_bind, wp_zoom. eapply wp_mono; [by apply collect_child_returns|].
  assert (cinv P [] E (set_cl_os o c)) as Hc1 by (apply cinv_grows; [done|]; by rewrite Hl).
  intros [st|e|e|] o2 [_ Ho]; [| |done|done].
  - destruct Ho as ((ch & Hch & Hlog) & _). simplify_eq/=.
    apply wp_bind, (wp_note_end P [] E); [|exists argv; split; [done|]; unfold log_of; simpl; rewrite Hlog; set_solver|].
    + apply cinv_grows; [done|]. rewrite Hlog. set_solver.
    + intros c2 Hc2. apply wp_ret. by exists st.
  - destruct Ho as (_ & [(-> & _ & Hlog)|[[[_ ?]|[_ []]] _]]); [|done..]. simpl in *. rewrite Hpid in Hlog. split.
    + exists argv. split; [done|]. right. unfold log_of. simpl. rewrite Hlog. split; [set_solver|done].
    + apply cinv_grows; [done|]. rewrite Hlog. set_solver.
Qed.

Lemma remote_out_tried E E' net fd r c :
  cinv P [] E' c → match r with inl st => ∃ e, away e st ∧ E' = e :: E | inr e => e ≠ 0%Z ∧ E' = E end →
  wp (remote_out net fd r) (tried away E) c.
Proof.
  intros Hc Hr. unfold remote_out.
  do 2 (eapply wp_coded_ok; [coded|repeat first [apply nofail_ret|apply nofail_unlock_opt|apply nofail_ignore
    |apply nofail_bind; [|intros _]|case_match]|done|done|done|]; clear c Hc; intros _ c Hc).
  destruct r as [st|e]; [|by destruct Hr as [? ->]; apply wp_throw].
  destruct Hr as (e & He & ->). apply wp_ret. by exists e.
Qed.

Lemma results_tried E net fd from out deps err host c :
  cinv P [] E c →
  wp (let! r := remote_results email from out deps err host in remote_out net fd r) (tried away E) c.
Proof.
  intros Hc. unfold remote_results. apply wp_bind.
  eapply wp_coded_ok; [auto with coded|done|done|done|done|]. clear c Hc. intros _ c Hc.
  apply wp_bind, wp_gets, wp_bind, wp_attempt.
  assert (coded (cinv P [] E) (on_world (dcc_retrieve_results email from out deps err (protover host) (compr host)
    (cpp_where host)))) as Hm by auto with coded.
  specialize (Hm c Hc). pose proof (retrieve_carries email from out deps err (protover host) (compr host)
    (cpp_where host) (os_w (cl_os c))) as Hr. unfold wp at 1. unfold wp in Hr.
  unfold on_world, on_os, on_w, zoom in *. cbn beta in *.
  destruct (dcc_retrieve_results _ _ _ _ _ _ _ _ _) as [[st|e|e|] w]; simpl in Hm; destruct Hm as [Hc1 [H1 H2]];
    [| |simpl; congruence|done].
  - apply wp_bind, (wp_note_end P [] E); [done|by apply Hr|]. intros c2 Hc2. apply wp_ret.
    eapply remote_out_tried; [exact Hc2|]. eexists. split; [left; by eexists|done].
  - apply wp_bind, wp_ret, wp_ret. eapply remote_out_tried; [exact Hc1|]. split; [congruence|done].
Qed.

(** A status of the preprocessor other than 0 is that of a child. *)
Lemma wait_for_cpp_log pid o :
  wp (dcc_wait_for_cpp pid)
     (λ r o', match r with Ok st => st ≠ 0%Z → ∃ ch, Reaped ch st ∈ os_log o' | _ => True end) o.
Proof.
  destruct pid as [pid|]; [|by apply wp_ret]. unfold dcc_wait_for_cpp. apply wp_bind, wp_zoom, wp_modify.
  eapply wp_mono; [by apply collect_child_returns|]. intros [st|e|e|] o' [_ Ho]; [|done..]. intros _.
  destruct Ho as ((ch & _ & ->) & _). exists ch. set_solver.
Qed.

Lemma cpp_tried E pid (k : Z + Z → M client Z) Q c :
  cinv P [] E c → (∀ e c', e ≠ 0%Z → Q (Exit e) c') → (∀ c', Q Undef c') →
  (∀ st c', cinv P [] E c' → (st ≠ 0%Z → proven P (log_of c') (CppFailed st)) → wp (k (inl st)) Q c') →
  (∀ e c', e ≠ 0%Z → cinv P [] E c' → wp (k (inr e)) Q c') →
  wp (bind (attempt (on_os (dcc_wait_for_cpp pid))) k) Q c.
Proof.
  intros Hc HE HU HO HF. assert (coded (cinv P [] E) (on_os (dcc_wait_for_cpp pid))) as Hm by auto with coded.
  pose proof (wait_for_cpp_log pid (cl_os c)) as Hl. specialize (Hm c Hc).
  apply wp_bind, wp_attempt. unfold wp at 1. unfold wp in Hl. unfold on_os, zoom in *.
  destruct (dcc_wait_for_cpp pid (cl_os c)) as [[] o]; simpl in *; destruct Hm as [Hc1 []];
    [apply HO; [done|]|apply HF; [congruence|done]|apply HE; congruence|done].
  intros Hst. split; [done|]. by apply Hl.
Qed.

Lemma unlock_opt_os fd c : cl_os (unlock_opt fd c).2 = cl_os c.
Proof.
  destruct fd as [fd|]; [|done]. unfold unlock_opt, ignore, bind, attempt, on_sched, zoom.
  by destruct (dcc_unlock fd (cl_s c)) as [[] s].
Qed.

(** The lock of the local slot is given back meanwhile. *)
Lemma unlock_tried E fd (k : M client Z) Q c (I : list proc_ev → Prop) :
  cinv P [] E c → I (log_of c) → (∀ e c', e ≠ 0%Z → Q (Exit e) c') → (∀ c', Q Undef c') →
  (∀ c', cinv P [] E c' → I (log_of c') → wp k Q c') → wp (do! unlock_opt fd; k) Q c.
Proof.
  intros Hc HI HE HU HO. apply wp_bind. unfold wp at 1. pose proof (unlock_opt_os fd c) as Ho.
  destruct (coded_unlock_opt [] E fd c Hc) as [H1 [_ H2]]. pose proof (nofail_unlock_opt fd c) as Hn.
  destruct (unlock_opt fd c) as [[] c1]; simpl in *; [|done|apply HE; congruence|done].
  apply HO; [done|]. unfold log_of. by rewrite Ho.
Qed.

Lemma coded_authn to from : coded always (authn to from).
Proof. intros w _. split; [done|]. apply authn_codes. Qed.

Lemma compile_remote_tried E argv cpp files out deps err cpp_pid fd host c :
  cinv P [] E c →
  wp (dcc_compile_remote cwd email argv cpp files out deps err cpp_pid fd host) (tried away E) c.
Proof.
  intros Hc. unfold dcc_compile_remote.
  eapply wp_coded_ok; [auto with coded|done|done|done|done|]. clear c Hc. intros _ c Hc.
  eapply wp_coded; [auto with coded|done|done|done| |by intros; eapply remote_out_tried].
  clear c Hc. intros [[to from] ssh] c Hc.
  eapply wp_coded; [apply coded_on_world; case_match; auto using coded_ret, coded_authn|done|done|done|
    |by intros; eapply remote_out_tried]. intros _ c1 Hc1.
  eapply wp_coded_ok; [auto with coded|done|done|done|done|]. intros _ c2 Hc2. case_match.
  - eapply wp_coded; [auto with coded|done|done|done| |by intros; eapply remote_out_tried].
    intros _ c3 Hc3. eapply cpp_tried; [exact Hc3|done|done| |by intros; eapply remote_out_tried].
    intros st c4 Hc4 Hst. eapply (unlock_tried _ _ _ _ _ (λ log, st ≠ 0%Z → proven P log (CppFailed st)));
      [exact Hc4|exact Hst|done|done|]. intros c5 Hc5 Hst5. case_match eqn:Ez.
    + apply wp_bind. eapply wp_note_end; [exact Hc5|apply Hst5; lia|]. intros c6 Hc6.
      eapply remote_out_tried; [exact Hc6|]. eexists. split; [by right|done].
    + case_match; [|by apply wp_throw].
      eapply wp_coded; [auto with coded|done|done|done| |by intros; eapply remote_out_tried].
      intros _ c6 Hc6. by apply results_tried.
  - case_match; [|by apply wp_throw].
    eapply wp_coded; [auto with coded|done|done|done| |by intros; eapply remote_out_tried].
    intros _ c3 Hc3. by apply results_tried.
Qed.

(** ** The job *)

Lemma before_one_try E : before_local E → one_try E.
Proof. by destruct E as [|[] []]. Qed.

(** The code [r] may be reported for the compilations [E]. *)
Definition may_report (F : list Z) (E : list job_end) (r : Z) : Prop :=
  one_try E ∧ (verdict E r ∨ r ∈ F ∧ before_local E).

Lemma judged_some F E r c : cinv P F E c → may_report F E r → judged P (Ok (Some r)) c.
Proof.
  intros [_ Hc HE HF] [Ho Hv]. unfold judged, reported. rewrite Hc. split_and!; [done..|].
  destruct Hv as [Hv|[Hin Hb]]; [by left|right]. split; [|done]. rewrite Forall_forall in HF. by apply HF.
Qed.

Lemma judged_none E c : cinv P [] E c → one_try E → judged P (Ok None) c.
Proof. intros [_ Hc HE _] Ho. simpl. by rewrite Hc. Qed.

Lemma clean_up_judged F E b r c :
  cinv P F E c → may_report F E r → wp (unlock_and_clean_up b r) (judged P) c.
Proof.
  intros Hc Hv. unfold unlock_and_clean_up.
  do 2 (eapply wp_coded_ok; [auto with coded|auto with coded|done|done|done|]; clear c Hc; intros _ c Hc).
  apply wp_ret. by eapply judged_some.
Qed.

(** The local compiler has run, or could not be run. *)
Lemma run_local_judged E b c :
  cinv P [] E c → before_local E → P (b_argv b) → wp (run_local file_times fnmatch b) (judged P) c.
Proof.
  intros Hc HE HP. unfold run_local, code_of. apply wp_bind, wp_bind, wp_attempt.
  eapply wp_mono; [by apply (compile_local_tried E)|].
  assert (∀ F' E' r c', cinv P F' E' c' → may_report F' E' r →
    wp (do! (if (b_remote_ret b =? 0)%Z then ret ()
             else if negb (b_remote_ret b =? r)%Z then
               ignore (dcc_please_send_email_after_investigation file_times fnmatch (b_deps b) (b_discrepancy b))
             else match b_host b with
                  | Some host => ignore (on_sched (dcc_enjoyed_host host))
                  | None => ret ()
                  end);
        unlock_and_clean_up b r) (judged P) c') as Hend.
  { intros F' E' r c' Hc' Hr. eapply wp_coded_ok; [| |exact Hc'|done..|].
    - repeat case_match; auto using coded_ret with coded. apply coded_ignore, coded_investigation.
    - repeat case_match; auto with coded.
    - intros _ c3 Hc3. by eapply clean_up_judged. }
  intros [r|e|e|] c1 Ht; [| |done|done]; apply wp_ret.
  - destruct Ht as (st & -> & Hc1). eapply Hend; [exact Hc1|]. split; [by destruct E as [|[] []]|by left].
  - destruct Ht as [Hn [H1 H2 H3 _]]. eapply (Hend [e] E); [by split; [..|constructor]|].
    split; [by apply before_one_try|]. right. split; [set_solver|done].
Qed.

Lemma lock_local_judged E b c :
  cinv P [] E c → before_local E → P (b_argv b) →
  wp (lock_local local_slots file_times fnmatch fuel b) (judged P) c.
Proof.
  intros Hc HE HP. unfold lock_local. eapply wp_coded; [auto with coded|done..| |].
  - intros [fd|] c1 Hc1; [by eapply run_local_judged|]. apply wp_ret.
    eapply judged_none; [done|by apply before_one_try].
  - intros e c1 _ Hc1. by eapply run_local_judged.
Qed.

Lemma fallback_judged E b r c :
  cinv P [] E c → before_local E → verdict E r → P (b_argv b) →
  wp (fallback local_slots file_times fnmatch fuel b r) (judged P) c.
Proof.
  intros Hc HE Hv HP. unfold fallback.
  eapply wp_coded_ok; [case_match; auto using coded_ret with coded|case_match; auto with coded|done|done|done|].
  clear c Hc. intros _ c Hc.
  do 2 (eapply wp_coded_ok; [auto with coded|auto with coded|done|done|done|]; clear c Hc; intros _ c Hc).
  eapply wp_coded_ok; [auto with coded|apply nofail_on_world, nofail_getenv_bool|done..|].
  intros z c1 Hc1. case_match; [|by eapply lock_local_judged].
  eapply wp_coded_ok; [case_match; auto using coded_ret with coded|case_match; auto with coded|done|done|done|].
  intros _ c2 Hc2. apply wp_ret. eapply judged_some; [done|]. split; [by apply before_one_try|by left].
Qed.

Lemma after_remote_judged b host err e c :
  cinv P [] [e] c → before_local [e] → P (b_argv b) →
  wp (after_remote local_slots file_times fnmatch fuel b host err (status_of e)) (judged P) c.
Proof.
  intros Hc He HP. unfold after_remote.
  do 2 (eapply wp_coded_ok; [auto with coded|auto with coded|done|done|done|]; clear c Hc; intros _ c Hc).
  assert (∀ b' c', cinv P [] [e] c' → P (b_argv b') →
    wp (fallback local_slots file_times fnmatch fuel b' (dcc_critique_status (status_of e))) (judged P) c') as Hfb.
  { intros b' c' Hc' HP'. by eapply fallback_judged. }
  assert (∀ b' c', cinv P [] [e] c' → P (b_argv b') →
    wp (let! shown := attempt (on_world (dcc_copy_file_to_fd err STDERR_FILENO)) in
        match shown with
        | inr _ => fallback local_slots file_times fnmatch fuel b' (dcc_critique_status (status_of e))
        | inl _ => ret (Some (dcc_critique_status (status_of e)))
        end) (judged P) c') as Hshow.
  { intros b' c' Hc' HP'. eapply wp_coded; [auto with coded|done|done|done| |].
    - intros _ c1 Hc1. apply wp_ret. eapply judged_some; [done|]. split; [by apply before_one_try|by left].
    - intros z c1 _ Hc1. by apply Hfb. }
  case_match; [by apply Hshow|]. case_match; [|by apply Hfb].
  eapply wp_coded_ok; [auto with coded|by apply nofail_on_world|done..|]. intros z c1 Hc1.
  case_match; [by apply Hshow|by apply Hfb].
Qed.

Lemma compile_on_judged b host err out argv cpp files deps cpp_pid c :
  cinv P [] [] c → P (b_argv b) →
  wp (compile_on cwd email local_slots file_times fnmatch fuel b host err out argv cpp files deps cpp_pid) (judged P) c.
Proof.
  intros Hc HP. unfold compile_on. apply wp_bind, wp_attempt.
  eapply wp_mono; [by apply (compile_remote_tried [])|]. intros [status|e|e|] c1 Ht; [| |done|done].
  - destruct Ht as (e & He & Hc1). assert (status = status_of e ∧ before_local [e]) as [-> Hb].
    { by destruct He as [[answer ->]| ->]. }
    by apply after_remote_judged.
  - destruct Ht as [He Hc1]. by eapply fallback_judged.
Qed.

Lemma dotd_loop_nonzero a st : nonzero (dotd_loop a st).
Proof.
  revert st. induction a as [a IH] using (induction_ltof1 _ (@length _)). unfold ltof in IH.
  intros st. destruct a as [|[] rest]; try done. cbn [dotd_loop].
  repeat case_match; try done; subst; apply IH; simpl; lia.
Qed.

Lemma coded_dotd argv : coded always (dotd_info_or_partial argv).
Proof.
  unfold dotd_info_or_partial, dcc_get_dotd_info, dotd_from_name. coded; apply coded_throw, dotd_loop_nonzero.
Qed.

Lemma distribute_judged b host inp out err files c :
  cinv P [] [] c → P (b_argv b) →
  wp (distribute cwd email local_slots file_times fnmatch fuel b host inp out err files) (judged P) c.
Proof.
  intros Hc HP. unfold distribute. case_match.
  - eapply wp_coded; [apply coded_on_os; unfold dcc_cpp_maybe; coded|done|done|done| |].
    2: { intros e c1 He Hc1. by eapply fallback_judged. }
    intros [cpp pid] c1 Hc1. eapply wp_coded; [auto with coded|done|done|done| |].
    + intros argv c2 Hc2. by apply compile_on_judged.
    + intros e c2 He Hc2. by eapply fallback_judged.
  - eapply wp_coded_ok; [apply coded_on_world|apply nofail_on_world, nofail_dotd|done..|].
    { apply coded_dotd. }
    intros [[[deps needs] sets] target] c1 Hc1.
    eapply wp_coded; [auto with coded|done|done|done| |].
    + intros argv c2 Hc2. by apply compile_on_judged.
    + intros e c2 He Hc2. by eapply fallback_judged.
Qed.

Lemma coded_adjust F E inp host disc : coded (cinv P F E) (dcc_perhaps_adjust_cpp_where_and_protover inp host disc).
Proof. unfold dcc_perhaps_adjust_cpp_where_and_protover, dcc_read_number_discrepancies. coded. Qed.

(** The include server's answer. *)
Lemma coded_include_server F E argv : coded (cinv P F E) (on_os (dcc_talk_to_include_server cwd argv)).
Proof.
  apply coded_on_os. unfold dcc_talk_to_include_server. coded.
Qed.

Lemma build_remote_judged b host inp out err c :
  cinv P [] [] c → P (b_argv b) →
  wp (build_remote cwd email local_slots local_cpp_slots file_times fnmatch fuel false b host inp out err) (judged P) c.
Proof.
  intros Hc HP. unfold build_remote. eapply wp_coded; [auto with coded|done|done|done| |].
  2: { intros e c1 He Hc1. by eapply fallback_judged. }
  intros [fd|] c1 Hc1; [|by apply wp_ret; eapply judged_none].
  eapply wp_coded_ok; [case_match; auto using coded_ret, coded_adjust|case_match;
    [apply nofail_ret|apply nofail_adjust]|done|done|done|].
  intros host' c2 Hc2. case_match; [by apply distribute_judged|].
  eapply wp_coded; [apply coded_include_server|done|done|done| |].
  - intros files c3 Hc3. eapply wp_coded_ok; [auto with coded|auto with coded|done|done|done|].
    intros _ c4 Hc4. by apply distribute_judged.
  - intros e c3 He Hc3. eapply wp_coded_ok; [auto with coded|apply nofail_on_world, nofail_getenv_bool|done..|].
    intros z c4 Hc4. case_match; [by apply wp_throw|by apply distribute_judged].
Qed.

(** A part before a label, with the equation of its result. *)
Lemma wp_coded_world {A B} (m : M world A) (k : A + Z → M client B) (Q : outcome B → client → Prop) E c :
  coded always m → cinv P [] E c → (∀ e c', e ≠ 0%Z → Q (Exit e) c') → (∀ c', Q Undef c') →
  (∀ a c' w, m (os_w (cl_os c)) = (Ok a, w) → cinv P [] E c' → wp (k (inl a)) Q c') →
  (∀ e c', e ≠ 0%Z → cinv P [] E c' → wp (k (inr e)) Q c') →
  wp (bind (attempt (on_world m)) k) Q c.
Proof.
  intros Hm Hc HE HU HO HF. apply wp_bind, wp_attempt. unfold wp at 1.
  destruct (coded_on_world P [] E m Hm c Hc) as [H1 H2]. unfold on_world, on_os, on_w, zoom in *.
  destruct (m (os_w (cl_os c))) as [[] w] eqn:Em; simpl in *; auto; destruct H2;
    [by eapply HO|apply HF; [congruence|done]|apply HE; congruence].
Qed.
End job.

(** The command line that the job may run here: the arguments after the
    expansion of "-Wp,", or what [dcc_scan_args] made of them. *)
Definition own_command `{Config} (argv : cvec) (w : world) (argv' : cvec) : Prop :=
  ∃ (w1 : world) expanded, dcc_expand_preprocessor_options argv w = (Ok expanded, w1) ∧
    (argv' = expanded ∨
     ∃ (w2 w3 : world) sc, dcc_scan_args_full expanded w2 = (Ok sc, w3) ∧ argv' = sc_newargv sc).

Section whole.
Context {Cfg : Config} {LZO : Lzo} {Progs : Programs} {NAMES : Names} {AUTH : Authn}.
Context (cwd : option cstr) (email : option nat).
Context (hostlist : outcome (list dcc_hostdef)) (local_slots local_cpp_slots : Z).
Context (file_times : cstr → option (Z * Z)) (fnmatch : cstr → cstr → bool) (fuel : nat).

Lemma build_somewhere_judged argv sg_level c :
  hostlist ≠ Fail 0 → dir_coded (cl_s c) → cl_ends c = [] →
  wp (dcc_build_somewhere cwd email hostlist local_slots local_cpp_slots file_times fnmatch fuel false argv sg_level)
    (judged (own_command argv (os_w (cl_os c)))) c.
Proof.
  intros Hl Hd Hn. set (P := own_command argv (os_w (cl_os c))). assert (cinv P [] [] c) as Hc by done.
  unfold dcc_build_somewhere.
  assert (∀ e c', e ≠ 0%Z → cinv P [] [] c' → wp (ret (Some e)) (judged P) c') as Hend.
  { intros e c' He Hc'. apply wp_ret. eapply judged_some; [done|]. split; [done|by left]. }
  eapply wp_coded_world; [auto with coded|done|done|done| |by apply Hend]. intros argv' c1 w1 Ea Hc1.
  eapply wp_coded; [auto with coded|done|done|done| |by apply Hend]. intros disc c2 Hc2.
  case_match; [by eapply run_local_judged; [..|exists w1, argv'; auto]|].
  eapply wp_coded_world; [auto with coded|done|done|done| |by intros; apply wp_throw].
  intros sc c3 w3 Es Hc3.
  assert (P (sc_newargv sc)) as HP by (exists w1, argv'; split; [done|right; eauto]).
  case_match; [by eapply lock_local_judged|].
  destruct (sc_input sc) as [inp|], (sc_output sc) as [out|]; try by apply wp_throw.
  eapply wp_coded; [auto with coded|done|done|done| |by intros; eapply fallback_judged].
  intros err c4 Hc4.
  eapply wp_coded; [by apply coded_on_sched, coded_pick_host|done|done|done| |by intros; eapply fallback_judged].
  intros [[host fd]|] c5 Hc5; [|by apply wp_ret; eapply judged_none].
  destruct (mode host) as [[]|]; first [by eapply run_local_judged|by apply build_remote_judged].
Qed.

End whole.

