(* ===== verification/Client.v ===== *)
(** * distcc.c, emaillog.c, traceenv.c: the client

    The main program of distcc: which compiler is meant, the guard against
    running itself, the job, the mail about failures, and what is done at exit.
    [driver] is the process: the client of Build.v, the statics of state.c and
    the directories ([noter]), what it prints and the mail it sends. *)

From S2P Require Import Prelude CLib Util Filename Argv Arg ArgExpand Strip World Io Rpc Tempfile Text Paths Bulk Results.
From S2P Require Import Hosts Dirs Lock Dotd Request Exec Net PumpMode State Serve Auth Build BuildLocks Codes BuildResult.

Record driver := Driver {
  m_cl : client;
  m_noter : noter;              (** its world is that of [m_cl] *)
  m_scan : bool;                (** [dcc_scan_includes] *)
  m_never : bool;               (** [never_send_email] *)
  m_email : option nat;         (** [email_fileno], when it is open *)
  m_log : Z * Z;                (** the level and the descriptor of the log *)
  m_out : list cstr;            (** what was printed, latest first *)
  m_mails : list cstr           (** to whom mail was sent *)
}.

Definition set_m_cl (c : client) (m : driver) : driver :=
  Driver c (m_noter m) (m_scan m) (m_never m) (m_email m) (m_log m) (m_out m) (m_mails m).
Definition set_m_scan (b : bool) (m : driver) : driver :=
  Driver (m_cl m) (m_noter m) b (m_never m) (m_email m) (m_log m) (m_out m) (m_mails m).
Definition set_m_never (b : bool) (m : driver) : driver :=
  Driver (m_cl m) (m_noter m) (m_scan m) b (m_email m) (m_log m) (m_out m) (m_mails m).
Definition set_m_email (e : option nat) (m : driver) : driver :=
  Driver (m_cl m) (m_noter m) (m_scan m) (m_never m) e (m_log m) (m_out m) (m_mails m).
Definition set_m_log (l : Z * Z) (m : driver) : driver :=
  Driver (m_cl m) (m_noter m) (m_scan m) (m_never m) (m_email m) l (m_out m) (m_mails m).
Definition print (s : cstr) : M driver unit :=
  modify (λ m, Driver (m_cl m) (m_noter m) (m_scan m) (m_never m) (m_email m) (m_log m) (s :: m_out m) (m_mails m)).
Definition mail (whom : cstr) : M driver unit :=
  modify (λ m, Driver (m_cl m) (m_noter m) (m_scan m) (m_never m) (m_email m) (m_log m) (m_out m) (whom :: m_mails m)).

Definition world_of (m : driver) : world := os_w (cl_os (m_cl m)).
Definition with_world (w : world) (m : driver) : driver :=
  set_m_cl (set_cl_os (set_os_w w (cl_os (m_cl m))) (m_cl m)) m.

Definition on_cl {A} : M client A → M driver A := zoom m_cl set_m_cl.
Definition on_mw {A} (m : M world A) : M driver A := on_cl (on_world m).

(** state.c and the directories work on the same world. *)
Definition on_noter {A} : M noter A → M driver A :=
  zoom (λ m, set_n_conf (set_cf_w (world_of m) (n_conf (m_noter m))) (m_noter m))
       (λ n m, let m := with_world (cf_w (n_conf n)) m in
               Driver (m_cl m) n (m_scan m) (m_never m) (m_email m) (m_log m) (m_out m) (m_mails m)).

(** ** traceenv.c *)

Definition RS_LOG_WARNING : Z := 4.
Definition RS_LOG_INFO : Z := 6.

(** Where the messages go, and which. *)
Definition dcc_set_trace_from_env : M driver unit :=
  let! logfile := on_mw (getenv "DISTCC_LOG"%cs) in
  let! lf := (match logfile with
              | Some (c :: f) =>
                  let! fd := on_mw (sys_open_append (c :: f)) in
                  ret (match fd with inl fd => (RS_LOG_INFO, Z.of_nat fd) | inr _ => (RS_LOG_WARNING, 2%Z) end)
              | _ =>
                  let! name := on_mw (getenv "UNCACHED_ERR_FD"%cs) in
                  ret (RS_LOG_WARNING,
                       match name with
                       | Some name => if (atoi name =? 0)%Z then 2%Z else atoi name
                       | None => 2%Z
                       end)
              end) in
  let! verbose := on_mw (dcc_getenv_bool "DISTCC_VERBOSE"%cs 0) in
  modify (set_m_log (if negb (verbose =? 0)%Z then 7%Z else lf.1, lf.2)).

(** ** emaillog.c *)

(** The result of [dcc_make_tmpnam] is not looked at: without a name the file
    cannot be opened. *)
Definition dcc_setup_log_email : M driver unit :=
  let! enabled := on_mw (dcc_getenv_bool "DISTCC_ENABLE_DISCREPANCY_EMAIL"%cs 0) in
  do! modify (set_m_never (enabled =? 0)%Z);
  if (enabled =? 0)%Z then ret ()
  else
    let! name := attempt (on_cl (on_os (make_tmpnam "distcc_error_log"%cs "txt"%cs))) in
    match name with
    | inr _ => ret ()
    | inl name =>
        let! fd := on_mw (sys_open_trunc name) in
        match fd with
        | inl fd => modify (set_m_email (Some fd))
        | inr _ => ret ()
        end
    end.

(** ** remote.c: authentication *)

(** What Auth.v says of [dcc_compile_remote]'s authentication is what Build.v
    asks for.  The client makes one connection, so that the library starts from
    its first state. *)
Section gss.
Context `{Gss, PeerNames} (rounds : nat) (lib : gss_lib) (wait : list sel).

Lemma coded_on_iw {A} (f : M world A) : coded always f → coded always (on_iw f).
Proof. apply coded_zoom. Qed.
#[local] Hint Extern 1 (coded _ (on_iw _)) => apply coded_on_iw; coded : coded.

Lemma coded_select_second fd : coded always (select_second fd).
Proof. intros s _. split; [done|]. unfold select_second. by destruct (in_wait s) as [|[] ?]. Qed.
Lemma coded_send_output fd t : coded always (send_output fd t).
Proof. unfold send_output, send_token. coded. Qed.
Lemma coded_recv_token fd : coded always (recv_token fd).
Proof. unfold recv_token. coded. Qed.
#[local] Hint Resolve coded_select_second coded_send_output coded_recv_token : coded.

Lemma coded_init_loop n to from name flags t : coded always (init_loop n to from name flags t).
Proof.
  revert t. induction n as [|n IH]; intros t; cbn [init_loop]; [by apply coded_throw|].
  apply coded_bind; [by intros s|]. coded.
Qed.
#[local] Hint Resolve coded_init_loop : coded.

Lemma coded_remote_auth n to from : coded always (remote_auth true n to from).
Proof.
  unfold remote_auth, dcc_gssapi_perform_requested_security, dcc_gssapi_establish_secure_context,
    dcc_gssapi_send_handshake, dcc_gssapi_recv_notification, delete_in_ctx. coded.
  all: unfold dcc_gssapi_compare_flags in *; repeat case_match; simplify_eq; coded.
Qed.

Definition gss_authn : Authn.
Proof.
  refine {| authn := λ to_net_fd from_net_fd w,
              let '(o, s) := remote_auth true rounds to_net_fd from_net_fd (Initiator w None lib wait) in (o, in_w s) |}.
  intros to from w. destruct (coded_remote_auth rounds to from (Initiator w None lib wait)) as [_ Hn]; [done|].
  by destruct (remote_auth _ _ _ _ _).
Defined.
End gss.

(** [DCC_EMAILLOG_WHOM_TO_BLAME] of the configuration *)
Section Client.
Context {Cfg : Config} {ZC : ZeroconfHosts} {LZO : Lzo} {Progs : Programs} {NAMES : Names} {AUTH : Authn} (whom_to_blame : cstr).
Context (rand : nat → Z) (sysconfdir : cstr).

(** The child runs the mail program with the log as its input. *)
Definition dcc_maybe_send_email : M driver unit :=
  let! env := on_mw (getenv "DISTCC_EMAILLOG_WHOM_TO_BLAME"%cs) in
  let whom := default whom_to_blame env in
  let! m := gets id in
  if negb (cl_should_send_email (m_cl m)) || m_never m then ret ()
  else
    let! ok := on_mw malloc in
    if negb ok then ret ()
    else
      match m_email m with
      | None => ret ()
      | Some _ =>
          let! ok := on_cl (on_os sys_fork) in
          if ok then mail whom else ret ()
      end.

(** ** distcc.c *)

(** What Build.v takes from outside: the working directory, the host list and
    the numbers of slots, the files of the include server, and how many rounds a
    wait for a slot may take. *)
Context (cwd : option cstr) (hostlist : outcome (list dcc_hostdef)) (local_slots local_cpp_slots : Z).
Context (file_times : cstr → option (Z * Z)) (fnmatch : cstr → cstr → bool) (fuel : nat).

(** [email_fileno] is -1 when the log could not be opened: a number no
    descriptor has. *)
Definition no_fd : nat := 65536.
Definition email_of (m : driver) : option nat := if m_never m then None else Some (default no_fd (m_email m)).

Definition dcc_show_hosts : M driver unit :=
  let! r := attempt (on_noter (on_conf (dcc_get_hostlist rand sysconfdir))) in
  match r with
  | inr _ => ret ()
  | inl l => fold_right (λ h k, do! print (hostdef_string h); k) (ret ()) l
  end.

(** A sum that does not fit an [int] is undefined. *)
Fixpoint sum_slots (l : list dcc_hostdef) (nslots : Z) : M driver Z :=
  match l with
  | [] => ret nslots
  | h :: l =>
      let n := (nslots + n_slots h)%Z in
      if ((- 2 ^ 31 <=? n) && (n <? 2 ^ 31))%Z then sum_slots l n else ub
  end.

Definition dcc_concurrency_level : M driver unit :=
  let! r := attempt (on_noter (on_conf (dcc_get_hostlist rand sysconfdir))) in
  match r with
  | inr _ => ret ()
  | inl l => let! n := sum_slots l 0 in print (print_d n)
  end.

(** compile.c; [None] while it still waits for a slot. *)
Definition dcc_build_somewhere_timed (argv : cvec) (sg_level : Z) : M driver (option Z) :=
  let! _ := on_cl (on_os sys_clock) in
  let! m := gets id in
  let! ret0 := on_cl (dcc_build_somewhere cwd (email_of m) hostlist local_slots local_cpp_slots file_times fnmatch fuel
                        (m_scan m) argv sg_level) in
  let! _ := on_cl (on_os sys_clock) in
  ret ret0.

(** The command line of the compiler, and whether the path was changed. *)
Definition masqueraded (args : list cstr) (argv0 compiler_name : cstr) : M driver (cvec * bool) :=
  let! did := on_mw (dcc_support_masquerade cwd argv0 (length argv0 - length compiler_name)) in
  let! compiler_args := on_mw (dcc_copy_argv (vec args) 0) in
  do! on_mw (malloc_or EXIT_OUT_OF_MEMORY);
  let! compiler_args := on_mw (Argv.store compiler_args 0 (Str compiler_name)) in
  ret (compiler_args, bool_decide (did = Some true)).

Definition go (compiler_args : cvec) (tweaked_path : bool) (sg_level : Z) : M driver (option Z) :=
  if (sg_level - (if tweaked_path then 1 else 0) >? 0)%Z then ret (Some EXIT_RECURSION)
  else dcc_build_somewhere_timed compiler_args sg_level.

Definition dcc_gssapi_show_principal : M driver unit :=
  let! princ_env_val := on_mw (getenv "DISTCC_PRINCIPAL"%cs) in
  print (match princ_env_val with
         | Some p => "Principal is"%cs ++ ["009"]%char ++ ": "%cs ++ p
         | None => "Principal"%cs ++ ["009"]%char ++ ": Not Set."%cs
         end).

(** The program is called by its own name. *)
Definition explicit (argv0 : cstr) (rest : list cstr) (sg_level : Z) : M driver (option Z) :=
  match rest with
  | [] => ret (Some EXIT_BAD_ARGUMENTS)
  | a1 :: rest' =>
      if streq a1 "--help"%cs || streq a1 "--version"%cs then do! print a1; ret (Some 0%Z)
      else if streq a1 "--show-hosts"%cs then do! dcc_show_hosts; ret (Some 0%Z)
      else if streq a1 "-j"%cs then do! dcc_concurrency_level; ret (Some 0%Z)
      else
        let scan := streq a1 "--scan-includes"%cs in
        match (if scan then rest' else rest) with
        | [] => ret (Some EXIT_BAD_ARGUMENTS)
        | a1' :: _ =>
            do! (if scan then modify (set_m_scan true) else ret ());
            (* [argv++]: the option is now [argv[0]] *)
            let argv := if scan then rest else argv0 :: rest in
            if HAVE_GSSAPI && streq a1' "--show-principal"%cs then do! dcc_gssapi_show_principal; ret (Some 0%Z)
            else
              let! r := attempt (on_mw (dcc_find_compiler (vec argv))) in
              match r with
              | inr e => ret (Some e)
              | inl compiler_args => go compiler_args false sg_level
              end
        end
  end.

(** [main] up to the label [out]. *)
Definition client_body (args : list cstr) : M driver (option Z) :=
  match args with
  | [] => ub
  | argv0 :: rest =>
      do! dcc_set_trace_from_env;
      do! dcc_setup_log_email;
      let compiler_name := default argv0 (dcc_find_basename (Some argv0)) in
      let! sg_level := on_cl (on_os dcc_recursion_safeguard) in
      if bool_decide (is_Some (strstr compiler_name "distcc"%cs)) then explicit argv0 rest sg_level
      else
        let! r := attempt (masqueraded args argv0 compiler_name) in
        match r with
        | inr e => ret (Some e)
        | inl (compiler_args, tweaked) => go compiler_args tweaked sg_level
        end
  end.

(** The functions registered with [atexit], the last one first. *)
Definition run_exit_handlers : M driver unit :=
  do! on_noter dcc_remove_state_file;
  on_mw dcc_cleanup_tempfiles.

(** A signal that is caught. *)
Definition dcc_client_signalled (whichsig : Z) : M driver unit :=
  do! on_mw dcc_cleanup_tempfiles;
  exit_ (128 + whichsig).

Definition exit_with (code : Z) : M driver unit := do! run_exit_handlers; exit_ code.

(** [Ok] is a client that is still waiting for a slot. *)
Definition client_main (args : list cstr) : M driver unit := λ m,
  match client_body args m with
  | (Ok None, m') => (Ok (), m')
  | (Ok (Some r), m') => (do! dcc_maybe_send_email; exit_with r) m'
  | (Exit e, m') => exit_with e m'
  | (Fail e, m') => (Fail e, m')
  | (Undef, m') => (Undef, m')
  end.

(** ** Codes *)

(** No compiler has run yet. *)
Definition started (m : driver) : Prop := dir_coded (cl_s (m_cl m)) ∧ cl_ends (m_cl m) = [] ∧ m_scan m = false.

Lemma coded_on_cl_os {A} (f : M os A) : (∀ L, coded (logged L) f) → coded started (on_cl (on_os f)).
Proof.
  intros Hf m Hm. destruct (Hf [] (cl_os (m_cl m))) as [_ H]; [intros x Hx; by apply elem_of_nil in Hx|]. unfold on_cl, on_os, zoom.
  by destruct (f (cl_os (m_cl m))).
Qed.
Lemma coded_on_mw {A} (f : M world A) : coded always f → coded started (on_mw f).
Proof. intros Hf. apply coded_on_cl_os. intros L. by apply coded_on_w. Qed.
Hint Extern 1 (coded _ (on_mw _)) => apply coded_on_mw; coded : coded.
Hint Extern 1 (coded _ (on_cl (on_os _))) => apply coded_on_cl_os; coded : coded.

Lemma coded_keep (f : driver → driver) : (∀ m, m_cl (f m) = m_cl m ∧ m_scan (f m) = m_scan m) → coded started (modify f).
Proof. intros Hf. apply coded_modify. intros m. unfold started. by destruct (Hf m) as [-> ->]. Qed.
Hint Extern 1 (coded started (modify _)) => by apply coded_keep : coded.

Lemma coded_trace : coded started dcc_set_trace_from_env.
Proof. unfold dcc_set_trace_from_env. coded. Qed.

Lemma coded_setup_email : coded started dcc_setup_log_email.
Proof. unfold dcc_setup_log_email. coded. Qed.

Lemma coded_safeguard L : coded (logged L) dcc_recursion_safeguard.
Proof. unfold dcc_recursion_safeguard. coded. Qed.

Lemma abspath_nonzero path len : nonzero (dcc_abspath cwd path len).
Proof.
  assert (Hl : ∀ n buf p, nonzero (abspath_loop n buf p)).
  { induction n as [|n IH]; intros buf p; simpl; [done|]. by case_match. }
  unfold dcc_abspath. cbv zeta. repeat case_match; try done; try apply Hl; by split.
Qed.

Lemma coded_access_x p : coded always (sys_access_x p).
Proof. unfold sys_access_x. coded. Qed.
Hint Resolve coded_access_x : coded.

Lemma coded_masq_loop n f g p : coded always (masq_loop n f g p).
Proof. revert p. induction n as [|n IH]; intros [|a p]; simpl; [coded..|]. destruct (next_dir (a :: p)). coded. Qed.
Hint Resolve coded_masq_loop : coded.

Lemma coded_set_path p : coded always (dcc_set_path p).
Proof. unfold dcc_set_path, putenv. coded. Qed.
Hint Resolve coded_set_path : coded.

Lemma coded_masquerade argv0 n : coded always (dcc_support_masquerade cwd argv0 n).
Proof. unfold dcc_support_masquerade. coded; apply coded_throw, abspath_nonzero. Qed.
Hint Resolve coded_safeguard coded_masquerade coded_trace coded_setup_email : coded.

Lemma coded_find_compiler argv : coded always (dcc_find_compiler (St := world) argv).
Proof. unfold dcc_find_compiler. coded. Qed.
Hint Resolve coded_find_compiler : coded.

Lemma coded_masqueraded args argv0 name : coded started (masqueraded args argv0 name).
Proof. unfold masqueraded. coded. Qed.
Hint Resolve coded_masqueraded : coded.

(** ** The exit status *)

(** The command line of a job: that of the compiler that was meant by the
    arguments of the client, as the job works it over. *)
Definition compiler_of (args : list cstr) (compiler_args : cvec) : Prop :=
  ∃ m m', on_mw (dcc_find_compiler (vec args)) m = (Ok compiler_args, m') ∨
          ∃ argv0 name tweaked, masqueraded args argv0 name m = (Ok (compiler_args, tweaked), m').
Definition job_command (args : list cstr) (argv : cvec) : Prop :=
  ∃ compiler_args w, compiler_of args compiler_args ∧ own_command compiler_args w argv.

Definition judged_driver (args : list cstr) (o : outcome (option Z)) (m : driver) : Prop :=
  judged (job_command args) o (m_cl m).

Lemma judged_mono (P P' : cvec → Prop) o c : (∀ a, P a → P' a) → judged P o c → judged P' o c.
Proof.
  intros HP. assert (∀ l e, proven P l e → proven P' l e) as Hp.
  { intros l [] He; simpl in *; [done| |done]. destruct He as (a & Ha & Hin). eauto. }
  destruct o as [[r|]| | |]; simpl; [| |done..].
  - intros (H1 & H2 & H3). split_and!; [by eapply Forall_impl; [|apply Hp]|done|].
    destruct H3 as [H3|[(a & Ha & Hr) Hb]]; [by left|right]. split; [|done]. exists a. auto.
  - intros [H1 H2]. split; [by eapply Forall_impl; [|apply Hp]|done].
Qed.

(** A part of the main program that comes before the job. *)
Lemma wp_part {A} args (f : M driver A) (k : A → M driver (option Z)) m :
  coded started f → nofail f → started m → (∀ a m', started m' → wp (k a) (judged_driver args) m') →
  wp (bind f k) (judged_driver args) m.
Proof.
  intros Hf Hn Hm Hk. apply wp_bind. unfold wp at 1. destruct (Hf m Hm) as [H1 [_ H2]]. specialize (Hn m).
  destruct (f m) as [[] m1]; simpl in *; [by apply Hk|done|unfold judged_driver; simpl; congruence|done].
Qed.

Lemma wp_part_attempt {A} args (f : M driver A) (k : A + Z → M driver (option Z)) m :
  coded started f → started m →
  (∀ a m', f m = (Ok a, m') → started m' → wp (k (inl a)) (judged_driver args) m') →
  (∀ e m', e ≠ 0%Z → started m' → wp (k (inr e)) (judged_driver args) m') →
  wp (bind (attempt f) k) (judged_driver args) m.
Proof.
  intros Hf Hm Hk He. apply wp_bind, wp_attempt. unfold wp at 1. destruct (Hf m Hm) as [H1 [H2 H3]].
  destruct (f m) as [[] m1] eqn:Ef; simpl in *; [by apply Hk|apply He; [congruence|done]|unfold judged_driver; simpl; congruence|done].
Qed.

(** An error code before the job. *)
Lemma wp_error args e m : e ≠ 0%Z → started m → wp (ret (Some e)) (judged_driver args) m.
Proof.
  intros He (_ & Hn & _). apply wp_ret. unfold judged_driver, judged, reported. rewrite Hn.
  split_and!; [done..|by left].
Qed.

Lemma go_judged args argv tweaked sg m :
  hostlist ≠ Fail 0 → started m → compiler_of args argv → wp (go argv tweaked sg) (judged_driver args) m.
Proof.
  intros Hh Hm Hargs. unfold go. case_match; [by apply wp_error|]. unfold dcc_build_somewhere_timed.
  apply wp_part; [apply coded_on_cl_os, coded_clock|unfold on_cl, on_os; nofail; apply nofail_clock|done|]. intros _ m1 Hm1.
  apply wp_bind, wp_gets. simpl. destruct Hm1 as (H1 & H2 & H3). rewrite H3. apply wp_bind. unfold on_cl at 1. apply wp_zoom.
  eapply wp_mono; [by apply build_somewhere_judged|]. intros o c Hj.
  apply (judged_mono _ (job_command args)) in Hj; [|intros a Ha; eexists _, _; eauto].
  destruct o as [r|e|e|]; [|done..].
  apply wp_bind. unfold on_cl, on_os. apply wp_zoom, wp_zoom.
  eapply (wp_mono _ (λ o os, (∃ t, o = Ok t) ∧ os_log os = log_of c)).
  { unfold wp, sys_clock. simpl. destruct (os_clock _); split; eauto. }
  intros o os [[t ->] Hl]. apply wp_ret. unfold judged_driver, judged, log_of in *. simpl in *. by rewrite Hl.
Qed.

(** Options that ask for something else than a compilation. *)
Definition requests (rest : list cstr) : bool :=
  match rest with
  | a1 :: _ => streq a1 "--help"%cs || streq a1 "--version"%cs || streq a1 "--show-hosts"%cs || streq a1 "-j"%cs
               || streq a1 "--scan-includes"%cs || HAVE_GSSAPI && streq a1 "--show-principal"%cs
  | [] => false
  end.
Definition asks (args : list cstr) : bool :=
  match args with
  | argv0 :: rest =>
      bool_decide (is_Some (strstr (default argv0 (dcc_find_basename (Some argv0))) "distcc"%cs)) && requests rest
  | [] => false
  end.

Lemma explicit_plain argv0 a1 rest sg :
  requests (a1 :: rest) = false →
  explicit argv0 (a1 :: rest) sg =
  (do! ret ();
   let! r := attempt (on_mw (dcc_find_compiler (vec (argv0 :: a1 :: rest)))) in
   match r with inr e => ret (Some e) | inl compiler_args => go compiler_args false sg end).
Proof.
  intros Ha. unfold requests in Ha. apply orb_false_iff in Ha as [Ha Hp]. apply orb_false_iff in Ha as [Ha Hs].
  apply orb_false_iff in Ha as [Ha Hj]. apply orb_false_iff in Ha as [Ha Hsh]. unfold explicit.
  by rewrite Ha, Hsh, Hj, Hs, Hp.
Qed.

Lemma explicit_judged argv0 rest sg m :
  hostlist ≠ Fail 0 → started m → requests rest = false →
  wp (explicit argv0 rest sg) (judged_driver (argv0 :: rest)) m.
Proof.
  intros Hh Hm Ha. destruct rest as [|a1 rest]; [by apply wp_error|].
  rewrite (explicit_plain _ _ _ _ Ha). apply wp_bind, wp_ret. apply wp_part_attempt; [auto with coded|done|..].
  - intros argv m1 E Hm1. apply go_judged; [done..|]. exists m, m1. by left.
  - intros e m1 He Hm1. by apply wp_error.
Qed.

Lemma nofail_getenv name : nofail (getenv name).
Proof. done. Qed.
Lemma nofail_add_fd d : nofail (add_fd d).
Proof. done. Qed.
#[local] Hint Resolve nofail_add_fd : nofail.
Lemma nofail_open_append p : nofail (sys_open_append p).
Proof. apply nofail_fs_call. unfold lookup_file, modify_core. nofail. Qed.
Lemma nofail_open_trunc p : nofail (sys_open_trunc p).
Proof. apply nofail_fs_call. unfold lookup_file, modify_core. nofail. Qed.
#[local] Hint Resolve nofail_getenv nofail_open_append nofail_open_trunc : nofail.

Lemma nofail_trace : nofail dcc_set_trace_from_env.
Proof. unfold dcc_set_trace_from_env, on_mw, on_cl, on_world, on_os, on_w. nofail. Qed.

Lemma nofail_setup_email : nofail dcc_setup_log_email.
Proof. unfold dcc_setup_log_email, on_mw, on_cl, on_world, on_os, on_w. nofail. Qed.

Lemma nofail_safeguard : nofail dcc_recursion_safeguard.
Proof. unfold dcc_recursion_safeguard, on_w. nofail. Qed.

Lemma body_judged args m :
  hostlist ≠ Fail 0 → started m → asks args = false → wp (client_body args) (judged_driver args) m.
Proof.
  intros Hh Hm Ha. unfold client_body. destruct args as [|argv0 rest]; [done|].
  apply wp_part; [auto with coded|apply nofail_trace|done|].
  intros _ m1 Hm1. apply wp_part; [auto with coded|apply nofail_setup_email|done|].
  intros _ m2 Hm2.
  apply wp_part; [apply coded_on_cl_os, coded_safeguard|apply nofail_zoom, nofail_zoom, nofail_safeguard|done|].
  intros sg m3 Hm3. case_match eqn:Ed.
  - apply explicit_judged; [done|done|]. unfold asks in Ha. by rewrite Ed in Ha.
  - apply wp_part_attempt; [auto with coded|done|..].
    + intros [argv tw] m4 E Hm4. apply go_judged; [done..|]. eexists _, _. right. by eexists _, _, tw.
    + intros e m4 He Hm4. by apply wp_error.
Qed.

(** ** At exit *)

Lemma remove_state_file_ok n : wp dcc_remove_state_file (λ o _, o = Ok ()) n.
Proof.
  unfold dcc_remove_state_file, dcc_get_state_filename. apply wp_bind, wp_attempt, wp_bind. unfold on_conf at 1. apply wp_zoom.
  eapply wp_mono; [apply get_state_dir_wp|]. intros [d|e|e|] c Hd; [|done..].
  apply wp_bind. do 2 apply wp_zoom. apply wp_malloc_or; intros l; [|by apply wp_ret].
  apply wp_bind, wp_gets, wp_ret, wp_bind. do 2 apply wp_zoom. eapply wp_mono; [apply unlink_list|].
  intros o w [_ [r ->]]. by apply wp_ret.
Qed.

(** What is on record of the job. *)
Definition job_of (m : driver) : list proc_ev * list job_end := (log_of (m_cl m), cl_ends (m_cl m)).

(** [exit] ends the process with that status, with the temporary files given
    up and the compilations as they were. *)
Lemma exit_with_wp code m :
  wp (exit_with code)
     (λ o m', o = Exit code ∧ c_cleanups (w_core (world_of m')) = [] ∧ job_of m' = job_of m) m.
Proof.
  unfold exit_with, run_exit_handlers. apply wp_bind, wp_bind. unfold on_noter. apply wp_zoom.
  eapply wp_mono; [apply remove_state_file_ok|]. intros o n ->. unfold on_mw, on_cl, on_world, on_os, on_w.
  do 3 apply wp_zoom. eapply wp_mono; [apply cleanup_tempfiles_empties|]. by intros o w [-> Hw].
Qed.

Lemma malloc_answers w : wp malloc (λ o (_ : world), ∃ ok, o = Ok ok) w.
Proof. unfold wp, malloc. destruct (get_mem w); by eexists. Qed.
Lemma fork_answers o : wp sys_fork (λ r o', (∃ ok, r = Ok ok) ∧ os_log o' = os_log o) o.
Proof. unfold wp, sys_fork. destruct (os_fork o); split; eauto. Qed.

(** Sending the mail does not touch the job. *)
Lemma maybe_send_email_wp m :
  wp dcc_maybe_send_email (λ o m', o = Ok () ∧ job_of m' = job_of m) m.
Proof.
  unfold dcc_maybe_send_email. apply wp_bind. unfold on_mw, on_cl, on_world, on_os, on_w. do 3 apply wp_zoom. apply wp_gets.
  cbn beta iota. apply wp_bind, wp_gets. case_match; [by apply wp_ret|]. apply wp_bind. do 3 apply wp_zoom.
  eapply wp_mono; [apply malloc_answers|]. intros o w [[] ->]; simpl; [|by apply wp_ret]. case_match; [|by apply wp_ret].
  apply wp_bind. do 2 apply wp_zoom. eapply wp_mono; [apply fork_answers|]. intros o os [[[] ->] Hl];
    [apply wp_modify|apply wp_ret]; (split; [done|]); unfold job_of, log_of; simpl; by rewrite Hl.
Qed.

Lemma mail_exit_wp code m :
  wp (do! dcc_maybe_send_email; exit_with code)
     (λ o m', o = Exit code ∧ c_cleanups (w_core (world_of m')) = [] ∧ job_of m' = job_of m) m.
Proof.
  apply wp_bind. eapply wp_mono; [apply maybe_send_email_wp|]. intros o m2 [-> E2].
  eapply wp_mono; [apply exit_with_wp|]. intros o m3 (-> & Hc & E3). by rewrite E3, E2.
Qed.

(** What the client says with its exit status. *)
Definition told (args : list cstr) (m : driver) (code : Z) (m' : driver) : Prop :=
  reported (job_command args) (log_of (m_cl m')) (cl_ends (m_cl m')) code ∨
  (code ≠ 0%Z ∧ ∃ m1, client_body args m = (Exit code, m1)).


(** ** Recursion *)

(** [f] leaves the part [g] of the state as it is. *)
Definition stays {S T A} (g : S → T) (f : M S A) : Prop := ∀ s, g (f s).2 = g s.

Lemma env_bind {S T A B} (g : S → T) (f : M S A) (k : A → M S B) :
  stays g f → (∀ a, stays g (k a)) → stays g (bind f k).
Proof.
  intros Hf Hk s. unfold bind. specialize (Hf s). destruct (f s) as [[a|e|e|] s1]; simpl in *; [|done..].
  by rewrite (Hk a s1).
Qed.
Lemma env_attempt {S T A} (g : S → T) (f : M S A) : stays g f → stays g (attempt f).
Proof. intros Hf s. unfold attempt. specialize (Hf s). by destruct (f s) as [[] s1]. Qed.
Lemma env_fs_call {A} (f : M world (A + errno)) : stays w_env f → stays w_env (fs_call f).
Proof. intros Hf w. unfold fs_call, bind, next_fs. destruct (w_fs w) as [|[]]; try done; by rewrite Hf. Qed.
Lemma env_malloc_or e : stays w_env (malloc_or e).
Proof. intros w. unfold malloc_or, bind, malloc. destruct (get_mem w) as [|[] l]; done. Qed.

Ltac stays := repeat first [progress intros | simple apply env_fs_call | simple apply env_bind
  | simple apply env_attempt | simple apply env_malloc_or | progress case_match | solve [intros ?; done]].

Lemma env_getenv_bool name d : stays w_env (dcc_getenv_bool name d).
Proof. intros w. by rewrite getenv_bool_runs. Qed.
Lemma env_open_append p : stays w_env (sys_open_append p).
Proof. unfold sys_open_append, lookup_file, modify_core. stays. Qed.
Lemma env_open_trunc p : stays w_env (sys_open_trunc p).
Proof. unfold sys_open_trunc, lookup_file, modify_core. stays. Qed.

Lemma env_tmpnam pid s us prefix suffix : stays w_env (dcc_make_tmpnam pid s us prefix suffix).
Proof.
  assert (Hl : ∀ n d b, stays w_env (tmpnam_loop n d prefix suffix b)).
  { induction n as [|n IH]; intros d b; simpl; [done|]. unfold sys_open_excl, sys_close, lookup_file, modify_core. stays.
    apply IH. }
  intros w. unfold dcc_make_tmpnam. match goal with |- w_env (?f w).2 = _ => enough (H : stays w_env f) by apply H end.
  unfold dcc_get_tmp_top, dcc_add_cleanup, sys_access_dir, sys_unlink, lookup_file, modify_core. stays; apply Hl.
Qed.

(** The environment of the client. *)
Definition env_of (m : driver) : gmap cstr cstr := w_env (world_of m).

Lemma env_on_mw {A} (f : M world A) : stays w_env f → stays env_of (on_mw f).
Proof.
  intros Hf m. unfold on_mw, on_cl, on_world, on_os, on_w, zoom, env_of, world_of. specialize (Hf (os_w (cl_os (m_cl m)))).
  by destruct (f (os_w (cl_os (m_cl m)))).
Qed.

Lemma env_trace : stays env_of dcc_set_trace_from_env.
Proof.
  unfold dcc_set_trace_from_env. stays; apply env_on_mw;
    first [apply env_open_append | apply env_getenv_bool | done].
Qed.

Lemma env_setup_email : stays env_of dcc_setup_log_email.
Proof.
  unfold dcc_setup_log_email. stays; try (apply env_on_mw; first [apply env_open_trunc | apply env_getenv_bool]).
  intros m. unfold make_tmpnam, on_cl, on_os, env_of, world_of, zoom, bind, gets, sys_clock, on_w. cbn beta iota zeta.
  destruct (os_clock (cl_os (m_cl m))); simpl; unfold zoom;
    match goal with |- context [dcc_make_tmpnam ?a ?b ?c ?d ?e ?w] =>
      pose proof (env_tmpnam a b c d e w); destruct (dcc_make_tmpnam a b c d e w) as [[] w1]; simpl in *; done end.
Qed.

(** Before the level is read. *)
Definition marked (v : cstr) (m : driver) : Prop := started m ∧ env_of m !! dcc_safeguard_name = Some v.

(** Nothing has been compiled, and the status is not 0. *)
Definition nothing_done (o : outcome (option Z)) (m : driver) : Prop :=
  cl_ends (m_cl m) = [] ∧
  match o with Ok (Some r) => r ≠ 0%Z | Exit e => e ≠ 0%Z | Undef => True | _ => False end.

Lemma marked_part {A} v (f : M driver A) (k : A → M driver (option Z)) m :
  coded started f → nofail f → stays env_of f → marked v m →
  (∀ a m', marked v m' → wp (k a) nothing_done m') → wp (bind f k) nothing_done m.
Proof.
  intros Hf Hn He [Hm Hv] Hk. apply wp_bind. unfold wp at 1. destruct (Hf m Hm) as [H1 [_ H2]]. specialize (Hn m).
  specialize (He m). destruct (f m) as [[a|e|e|] m1]; simpl in *; [|done|(split; [apply H1|congruence])|(split; [apply H1|done])].
  apply Hk. split; [done|]. by rewrite He.
Qed.

Lemma explicit_stops argv0 rest sg m :
  (0 < sg)%Z → started m → requests rest = false → wp (explicit argv0 rest sg) nothing_done m.
Proof.
  intros Hsg Hm Ha. destruct rest as [|a1 rest]; [by apply wp_ret; split; [apply Hm|]|].
  rewrite (explicit_plain _ _ _ _ Ha). apply wp_bind, wp_ret, wp_bind, wp_attempt.
  destruct (coded_on_mw _ (coded_find_compiler (vec (argv0 :: a1 :: rest))) m Hm) as [Hm1 [H1 H2]]. unfold wp at 1.
  destruct (on_mw _ m) as [[argv|e|e|] m1]; simpl in *.
  - unfold go. rewrite Z.sub_0_r, (proj2 (Z.gtb_lt _ _) Hsg). apply wp_ret. by split; [apply Hm1|].
  - apply wp_ret. split; [apply Hm1|congruence].
  - split; [apply Hm1|congruence].
  - split; [apply Hm1|done].
Qed.

Lemma safeguard_read v m :
  marked v m → ∃ m', on_cl (on_os dcc_recursion_safeguard) m = (Ok (if (atoi v =? 0)%Z then 1 else atoi v)%Z, m') ∧ started m'.
Proof.
  intros [Hm Hv]. destruct (coded_on_cl_os _ coded_safeguard m Hm) as [Hs _]. revert Hs.
  unfold on_cl, on_os, dcc_recursion_safeguard, bind, on_w, zoom, getenv, gets, modify, ret. unfold env_of, world_of in Hv.
  simpl. rewrite Hv. intros Hs. by eexists.
Qed.

(** A client that is called by its name, in an environment that a running
    client gave to its compiler (whatever the level of that one), compiles
    nothing: no compiler is started, here or on a server, and its exit status is
    not 0.  So a compiler that turns out to be distcc cannot start a chain of
    jobs. *)
Lemma recursion_stops argv0 rest level m :
  started m → env_of m !! dcc_safeguard_name = Some (c_string [safeguard_digit level]) →
  is_Some (strstr (default argv0 (dcc_find_basename (Some argv0))) "distcc"%cs) → asks (argv0 :: rest) = false →
  wp (client_body (argv0 :: rest)) nothing_done m.
Proof.
  intros Hm Hv Hd Ha. unfold client_body.
  apply (marked_part (c_string [safeguard_digit level])); [auto with coded|apply nofail_trace|apply env_trace|done|].
  intros _ m1 Hm1. eapply marked_part; [auto with coded|apply nofail_setup_email|apply env_setup_email|done|].
  intros _ m2 Hm2. destruct (safeguard_read _ _ Hm2) as (m3 & E & Hm3). apply wp_bind. eapply wp_run; [exact E|].
  cbn beta iota zeta. rewrite bool_decide_true by done. apply explicit_stops; [|done|].
  - pose proof (atoi_char (safeguard_digit level)). lia.
  - unfold asks in Ha. by rewrite bool_decide_true in Ha.
Qed.
End Client.

(** ** Witnesses *)

Definition ex_driver (env : gmap cstr cstr) : driver :=
  let c := ex_job [ex_answer] in
  let os := cl_os c in
  Driver (set_cl_os (set_os_w (set_env env (os_w os)) os) c) ex_noter false false None (4, 2)%Z [] [].

(** The object comes from the server, and the status is 0. *)
Definition ex_main (args : list cstr) : M driver unit :=
  client_main (Cfg := usual_config) (ZC := no_zeroconf) (LZO := stored_lzo) (Progs := ex_programs) (NAMES := ex_names) (AUTH := no_authn)
    "blame@example"%cs (λ _, 0%Z) "/etc"%cs None (Ok ex_hosts) 2 2 (λ _, None) (λ _ _, false) 5 args.


(** "distcc cc -c x.c" run as the compiler of another client. *)
Lemma recursion_stops_witness :
  let m := ex_driver {[dcc_safeguard_name := "1"%cs]} in
  let body := client_body (Cfg := usual_config) (ZC := no_zeroconf) (LZO := stored_lzo) (Progs := ex_programs) (NAMES := ex_names) (AUTH := no_authn)
    (λ _, 0%Z) "/etc"%cs None (Ok ex_hosts) 2 2 (λ _, None) (λ _ _, false) 5 ["distcc"; "cc"; "-c"; "x.c"]%cs in
  (body m).1 = Ok (Some EXIT_RECURSION) ∧ wp body nothing_done m.
Proof.
  intros m body. split; [vm_compute; reflexivity|].
  unfold body. apply (recursion_stops _ _ _ _ _ _ _ _ _ _ _ 0%Z); [done|vm_compute; reflexivity|vm_compute; eauto|reflexivity].
Defined.
